(* ===== verification/_CoqProject ===== *)
-Q . S2P
Prelude.v
JsMap.v
JsNumber.v
JsString.v
Bytes.v
Store.v
Page.v
Stamps.v
FloatFacts.v
Counting.v
Wallet.v
WalletFacts.v
UtxoManager.v
Optimizer.v
Multisig.v
MultisigWallet.v
SocialRecovery.v
Security.v
SessionManager.v
AddressBook.v
AddressBookPage.v
ContactManager.v
Tax.v
TransactionLabels.v
Rebalancer.v
Lightning.v
WalletApi.v
Staking.v
AtomicSwap.v
JsDate.v
Scheduler.v
TradingEngine.v
Batcher.v
ColdStorage.v
AuditLog.v
PrivacyTools.v
TransactionSearch.v
Validation.v
Invoicing.v
Json.v
WalletRpc.v
OpsAuth.v
OpsDashboard.v
ClientPages.v
WebSocketService.v
QrService.v
NotificationCenter.v
TaxService.v
PriceService.v
FeeManager.v
BackupManager.v
Settings.v
WalletHealth.v
NlpParser.v
Authentication.v
SignatureManager.v
Backup.v
MobileSync.v
Notifications.v
MultiCurrency.v
AddressFilter.v
ThreatDetection.v
SecurityMonitor.v
ShamirSecret.v
SendPages.v
TechnicalAnalysis.v
PortfolioAnalysis.v
NodeProxy.v
HardwareWallet.v
DeFi.v
NftManager.v
NodeApi.v
ContractInteraction.v
ExplorerSocket.v
I18n.v
TaxExport.v
HistoryPage.v
UtxosPage.v
Assistant.v
Analytics.v
