(* ===== verification/Prelude.v ===== *)
(** * The KuberCoin web wallet: verification library

    ** What is verified

    The web wallet (apps/web/wallet) keeps its logic in service classes under
    src/services, one singleton per file, which the React pages call. A service
    holds its data in fields, copies them to the browser's [localStorage] as JSON,
    and asks the node over JSON-RPC, or a server of its own, where it needs them.
    Beside it stand the wallet's server routes (app/api), which drive the node's
    wallet for the browser, the operations dashboard with its login, and the routes by
    which the explorer, the dashboards and the unified site reach the node; and the pages,
    which filter, sort, check forms and ask for things on their own. This library
    models those parts and proves what they keep, compute and refuse.

    A file [X.v] holds a service or a page and its theorems; those of [Wallet] are in
    [WalletFacts]. A definition has the name of the method it translates.

    Wallets, keys and money:
    - [Wallet] (wallet.ts): wallets by address, the active wallet, storage shared
      between tabs, balances, history, coin selection, fees, sending.
    - [UtxoManager] (utxoManager.ts) and [Optimizer] (optimizer.ts): coin control,
      and dust consolidation on the active wallet of [Wallet]; [WalletHealth]
      (walletHealth.ts): scores of that wallet; [FeeManager] (feeManager.ts).
    - [Multisig] (multisig.ts) and [MultisigWallet] (multisigWallet.ts): two services
      for m-of-n wallets and the transactions that collect signatures.
    - [SocialRecovery] (socialRecovery.ts): trusted contacts and recovery requests.
    - [Security] (security.ts) and [SessionManager] (sessionManager.ts): password,
      encryption, lock; sessions, security events, timers. Both write their settings
      under one storage key, so the stored object is one type for both.
    - [Authentication] (authentication.ts): second factors. [SecurityMonitor]
      (securityMonitor.ts), [ThreatDetection] (threatDetection.ts) and [AddressFilter]
      (addressFilter.ts): events, warnings, allowed and refused addresses.
    - [SignatureManager] (signatureManager.ts): signature requests shared by reference, with
      the calls in progress as steps. [ShamirSecret] (shamirSecret.ts), [HardwareWallet]
      (hardwareWallet.ts): checks around operations that always fail.
    - [BackupManager] (backupManager.ts): backups and their encryption, with the Web
      Cryptography API of [Security]. [Backup] (backup.ts): full backups, composed of the
      operations of the five services they cover.
    Records the user keeps:
    - [AddressBook] (addressBook.ts), [ContactManager] (contactManager.ts; it reads the
      history of [Wallet]), [TransactionLabels] (transactionLabels.ts),
      [TransactionSearch] (transactionSearch.ts, on the history of [Wallet]).
    - [Tax] (taxCalculator.ts, capitalGains.ts) and [TaxService] (taxService.ts): two
      ways of matching lots with sales. [TaxExport] (taxExport.ts): the files of a tax
      year. [Invoicing] (invoicing.ts).
    - [Scheduler] (scheduler.ts, budgetManager.ts), [Batcher] (batcher.ts,
      templates.ts): payments to come. [Settings] (settings.ts). [Notifications]
      (notifications.ts), [MobileSync] (mobileSync.ts). [NlpParser] (nlpParser.ts): commands
      read from sentences; [Assistant] (aiAssistant.ts) converses with its scanners.
      [I18n] (i18n.ts): the language and its bundles. [Analytics] (analytics.ts,
      mlEngine.ts, nftMetadata.ts): summaries and metadata.
    - [MultiCurrency] (multiCurrency.ts), [NftManager] (nftManager.ts, nftService.ts), [DeFi]
      (defi.ts, defiService.ts), [ContractInteraction] (contractInteraction.ts, abiParser.ts).
    Services with a server:
    - [WalletApi] (walletApi.ts) is the client whose failure several services answer
      offline: [Staking], [AtomicSwap], [ColdStorage], [AuditLog], [PrivacyTools]
      (the files of the same names).
    - [Lightning] (lightning.ts): channels and payments, completed by timers.
    - [TradingEngine] (tradingEngine.ts), [Rebalancer] (rebalancer.ts),
      [PriceService] (priceService.ts), [NotificationCenter] (notificationCenter.ts);
      [TechnicalAnalysis] (technicalAnalysis.ts) reads the first, [PortfolioAnalysis]
      (portfolioAnalysis.ts) the third and [Wallet].
    - [WebSocketService] (websocket.ts): the connection to the node's events, its
      heartbeat and its reconnections; polling. [QrService] (qrService.ts).
    Outside the services:
    - [Validation] (app/utils/validation.ts, formatters.ts).
    - [WalletRpc] (app/api): the server routes, and of the node the slot for one loaded
      wallet (core/node/src/rpc_wallet.rs). [OpsAuth] (apps/web/ops): middleware, login.
    - [NodeProxy] (app/api of explorer, ops, monitoring, wallet, dapp and unified; unified's
      lib/api/client.ts): proxies, status, statistics and metrics routes over [fetch].
      [NodeApi] (the wallet's api.ts): the JSON-RPC client, over the same.
    - [ExplorerSocket] (useExplorerWebSocket of the explorer's ExplorerClient.tsx): the live
      connection of a React hook, with the closures of all its renderings.
    Pages:
    - [Page] (app/hooks): a page's state beside the services it calls; four small hooks.
    - [AddressBookPage], [HistoryPage], [UtxosPage] (app/wallet/address-book, history and
      utxos, each page.tsx): lists with filters, over [AddressBook], [TransactionLabels] and
      the marks that the last page keeps itself.
    - [SendPages] (app/wallet/send, batch-send and faucet): forms that ask for money.
    - [OpsDashboard] (OpsClient.tsx of ops): metrics, alerts, charts, peers, console.
    - [ClientPages] (ExplorerClient.tsx of the explorer, WalletClient.tsx of the wallet): blocks
      and search; wallets of the server, and sending from them.

    ** The library under the services

    - [Prelude] (this file): results, the effect monad [js], the environment [Env],
      the invariant calculus [preserves] with its hint database [js] and tactics
      [js_run], [js_preserve]; array operations; [Array.prototype.sort].
    - [JsMap]: the JavaScript [Map] (insertion-ordered) and plain objects as
      dictionaries (integer keys first). [JsNumber]: numbers as binary64 values, their
      order, and sums that stop at a target; [FloatFacts]: rounding keeps signs and
      representability. [JsString]: strings, number formatting and parsing. [JsDate]: the
      calendar, local time and ISO texts. [Json]: values that were parsed and their
      conversions. [Bytes]: byte arrays, hexadecimal and base64 with their round trips.
      [Counting]: objects used as counters.
    - [Store]: the class of services that keep a map and its stored array, with the
      saving and loading routines and laws proved once against the interface; a service
      with several maps is an instance for each. [Stamps]: identifiers made of a time and a
      random text, when they are distinct, and the decimal texts of integers.

    ** How behaviour is represented

    A method is a function from the fields of its service and the environment to a
    result, returned or thrown, and the fields and environment left behind: changes
    made before an error stay, as in the code. [try]/[catch] is [js_try].

    Two storage texts are never compared: a stored text is the value whose JSON it is,
    or a text that does not parse. JSON is assumed to give back what was written.
    [localStorage.setItem] fails when the environment says storage is not writable.

    Times and counts, which stay far below 2^53, are integers; amounts, prices and
    rates are binary64 numbers with rounding. Strings are ASCII.

    The clock, the random source, the node, the servers, the Web Cryptography API, the
    time zone, the locale's formats, regular expressions typed by the user, and the host's
    parsers of URLs and of dates in other than ISO form are parameters: functions of how
    often they were asked and of their arguments. A hypothesis on one of them is stated
    where it is used (for instance that AES-GCM decrypts what it encrypted) and every
    property with hypotheses comes with a concrete instance, [<theorem>_witness].

    An awaited remote call is a point where other operations may run. An operation
    whose state changes span one is split there: [updateWalletBalance_resume] is the
    part of a balance update that runs on the reply. Other operations with awaits are
    one step: what may run between their halves is not considered. Where the order of
    events is the point, the program is a transition system: timers fire in any order
    ([Lightning]), sockets open and close when the host says
    ([WebSocketService.host], [ExplorerSocket.exec]), bundles arrive ([I18n.exec]), and a
    server route is a program of requests whose steps interleave with those of other routes
    ([WalletRpc.serves]).

    A page is the values of its [useState] and [useRef], with what it waits for as lists in
    the same record: a request that is sent is put in one, and an event takes it out with its
    reply, in any order. A handler that is a closure of an older rendering gets what that
    rendering had as an argument. The rendering after an event runs the effects whose
    dependencies have changed ([stale] in the lists), and a disabled button does nothing.

    ** Bounds

    Recursion is structural on lists and strings, with fuel elsewhere: the search for
    the shortest decimal of a number (17 digits always suffice for binary64), the removal
    of trailing zeros (at most 18 digits), the scan of a CSV line (the length of the line,
    since a match is not empty), the loop that pairs sellers and buyers in [Rebalancer]
    ([rebalance_terminates]: the fuel that is given is enough, every turn settles one
    side), the five-bit groups of [Authentication] (as many turns as there are bits),
    numerals in base 16 and 36 (9 digits hold 32 bits, 12 every date), the draw of a pairing
    code ([pairing_code_six_digits]: one turn suffices), and the days of a
    period ([analytics_end]: two turns for each are enough).

    ** What the theorems show

    - Storage and memory: no private key reaches storage and the wallet list stays
      consistent with it from construction on ([storage_has_no_private_key],
      [reachable_wallets_consistent]); what is saved is read back
      ([save_then_load_roundtrip], [recovery_state_survives_reload],
      [settings_survive_reload], [tax_transactions_survive_reload],
      [backups_survive_reload], [sync_state_survives_reload], [contracts_survive_reload],
      [full_backup_restores]); of the notifications a reload shows the newest hundred
      ([reload_shows_newest]); exports can be imported ([export_import_roundtrip],
      [labels_export_import_roundtrip], [importCSV_written],
      [payment_request_roundtrip] but for notes with a percent sign, [cointracker_read_back]); the
      language that is shown is the one that the next page asks for ([locale_survives_reload]) and every text of a
      bundle is found under its keys ([every_text_is_found]).
    - Pages: after every event a list is what its filters keep of what the services hold
      ([page_shows_book], [history_lists_matches], [marks_are_shown], [alerts_match_metrics],
      [rows_and_total]); what is asked of a wallet was checked ([sent_was_checked],
      [posted_was_checked], [consolidates_selection], [cooldown_holds]), and once
      ([one_request_at_a_time]); a load gives the blocks that the node has
      ([load_lists_blocks], [blocks_descend]); of the node's metrics the digits of each line
      are read ([metrics_read_back]), and files as they were written ([export_read_back]); the last value
      settles ([debounce_settles]); the page and the server agree on a wallet's file but for
      one ending ([names_agree]).
    - Money: a created transaction spends unspent outputs that cover amount and fee
      ([createTransaction_sound]); selections are minimal covering prefixes in the
      strategy's order ([selectUTXOs_covers]); lot matching refines a functional
      specification ([matchInventory_refines]) and takes each lot of a year once
      ([calculateCapitalGains_matches]); wash sales are reported exactly
      ([detectWashSales_exact]); a rebalancing terminates; positions stay positive
      ([positions_stay_positive]); every payment and channel settles once its timers
      have fired ([payments_and_channels_settle]).
    - Authority: signatures are accepted only from co-signers, once each, on pending
      transactions ([signTransaction_accepts], [multisig_reachable_consistent],
      [ready_reached_threshold]), but one signer whose calls overlap counts as often as he likes
      ([one_signer_reaches_threshold]); the service of joint wallets never gets a wallet
      ([msw_service_inert]); a refused address stays refused ([blacklisting_holds]); a
      locked wallet keeps no password and encryption round-trips ([locked_keeps_no_password], [decrypt_encrypt],
      [decryptData_encryptData], [set_password_then_verify]); a protected page of the
      dashboard asks for a key and a login gives one ([protected_path_needs_key],
      [login_opens_session]).
    - The node: a route that is alone uses the wallet it was asked for
      ([route_uses_its_wallet]); among others a request finds the wallet that was loaded last,
      and a payment can be made from another's ([payment_from_other_wallet]); an open socket is subscribed to every event that is
      listened to ([open_socket_subscribed]), and a careful disconnect is final
      ([disconnect_is_final]); a rendering of the explorer has one socket and one timer at a time
      ([one_socket_one_timer]) and connects for as long as it is shown
      ([shown_effect_connects]), but also after it ([cleaned_up_effect_stays]); a call gives
      the result of an answer without an error ([rpcCall_result]), the dashboard is healthy exactly when its parts answer
      ([ops_status_healthy]), and the proxies lend the server's key to every caller
      ([proxy_lends_its_key]).
    - Identity and time: addresses, contacts, sessions and invoice numbers stay distinct
      ([addresses_stay_unique], [contacts_stay_distinct], [session_state_consistent],
      [invoice_numbers_distinct]); recurring payments move forward
      ([recurring_moves_forward], [next_execution_bounds]).
    - Summaries equal their definitions ([recalcStats_reference], [email_accepted],
      [getTransactionsByYear_exact]), the edit distance is the least number of edits
      ([distance_minimal]) and base32 is the standard's ([base32Encode_reference]); alerts
      fire once and only when they should ([updatePrice_effect], [checkPriceAlerts_effect]).
    - Defects: theorems that show a run where the code does not do what it means to
      ([self_send_drops_payment], [balance_reply_restores_deleted_wallet],
      [refused_removal_takes_effect], [one_contact_approves_alone],
      [shared_settings_disable_timeout], [stuck_transactions_stay_stuck],
      [stale_timer_reconnects], [few_prices_inverted], [turbotax_dates_equal], [percent_note_unreadable],
      [earlier_acquisitions_ignored], [empty_wallet_scores_nan],
      [import_replaces_sections], [never_strong_buy], [suggested_amounts_infinite],
      [no_device_ever], [no_pool_ever], [authentication_never_succeeds],
      [address_lists_refused], [tag_waits], [full_storage_says_frozen], [last_name_is_kept],
      [late_timer_stops_polling], [new_page_has_no_cooldown], [second_update_wins], and
      others next to the services and pages they are about, some as examples).

    ** Not modelled

    Of a page, what is rendered of its state: the markup, which is most of the lines of the
    language, has no effect on what the page does, beyond which buttons there are and when they
    are disabled, and that is in the events. The remaining pages of the wallet (settings,
    security, backups, key management, and those under src/app) are forms that call one
    service each and show its answer; their services are modelled. The other applications'
    pages show data of the routes of [NodeProxy]. Toasts, clipboards, downloads and
    navigation are the browser's; so are drawing and scanning of QR pictures, sorting by the
    host's collation, PDF and HTML reports and the formats of the locale. The hook
    useMediaQuery mirrors a query of the browser. Of the services, [Wallet] takes the node's
    operations as the record [Api] and not as calls of [NodeApi]: the replies' decoding
    into numbers and records is not modelled. The node itself is in Rust, the SDK binds other
    languages, and neither is part of the web wallet. *)

From Stdlib Require Export ZArith Lia.
From stdpp Require Export prelude strings pretty sorting.

#[global] Open Scope Z_scope.

(** ** Results and the JavaScript effect monad

    A synchronous TypeScript method of a service object either returns a value
    or throws an [Error], and in both cases the fields of [this] (and the
    browser storage) keep the mutations made before the return or the throw.
    [js W A] is that behaviour: a function from the world to an outcome and the
    world left behind. An [Error] is represented by its message. *)

Inductive result (A : Type) : Type :=
  | Ok (a : A)
  | Throw (msg : string).
Arguments Ok {A} a.
Arguments Throw {A} msg.

Definition js (W A : Type) : Type := W → result A * W.

#[export] Instance js_ret W : MRet (js W) := λ A a w, (Ok a, w).
#[export] Instance js_bind W : MBind (js W) := λ A B k m w,
  match m w with
  | (Ok a, w') => k a w'
  | (Throw e, w') => (Throw e, w')
  end.

(** [throw new Error(msg)] *)
Definition js_throw {W A} (msg : string) : js W A := λ w, (Throw msg, w).

(** [try { m } catch (error) { h(error.message) }]: the handler runs in the
    world the failed block left behind. *)
Definition js_try {W A} (m : js W A) (h : string → js W A) : js W A := λ w,
  match m w with
  | (Ok a, w') => (Ok a, w')
  | (Throw e, w') => h e w'
  end.

(** [if (c) { m }] for a block without a value. *)
Definition js_when {W} (c : bool) (m : js W ()) : js W () :=
  if c then m else mret ().

Fixpoint js_mapM {W A B} (f : A → js W B) (l : list A) : js W (list B) :=
  match l with
  | [] => mret []
  | x :: l' => y ← f x; ys ← js_mapM f l'; mret (y :: ys)
  end.

Fixpoint js_forEach {W A} (f : A → js W ()) (l : list A) : js W () :=
  match l with
  | [] => mret ()
  | x :: l' => f x;; js_forEach f l'
  end.

(** ** The host environment

    What a service reads from the browser besides its own fields: the clock
    (each [Date.now()] call reads the next value of [clock]), the random source
    (each [Math.random()] call, seen through the base-36 suffix the services cut
    from it, reads the next value of [entropy]), whether the code runs in a
    browser ([typeof window !== 'undefined']), whether [localStorage.setItem] is within
    quota, and how many remote calls were made so far (the reply to a remote call
    is a function of its number and arguments, see [rpc]). *)
Record Env := MkEnv {
  clock : nat → Z;
  entropy : nat → string;
  ticks : nat;
  draws : nat;
  calls : nat;
  browser : bool;
  writable : bool;
}.

Definition tick (e : Env) : Env :=
  MkEnv (clock e) (entropy e) (S (ticks e)) (draws e) (calls e) (browser e) (writable e).
Definition draw (e : Env) : Env :=
  MkEnv (clock e) (entropy e) (ticks e) (S (draws e)) (calls e) (browser e) (writable e).
Definition call (e : Env) : Env :=
  MkEnv (clock e) (entropy e) (ticks e) (draws e) (S (calls e)) (browser e) (writable e).

(** The [n]-th reading of the clock from this environment on. *)
Definition reading (e : Env) (n : nat) : Z := clock e (ticks e + n)%nat.

(** An environment for concrete runs: a browser with room in its storage. *)
Definition demo_env : Env :=
  MkEnv (λ n, match n with 0%nat => 1700000000000 | 1%nat => 1700000001000 | _ => 1700000002000 end)
    (λ n, match n with 0 => "ra" | 1 => "rb" | 2 => "rc" | _ => "rd" end)%nat 0 0 0 true true.

(** The content of one [localStorage] key: absent ([null]), the JSON text of a
    value, or a text that is not JSON (so that [JSON.parse] throws). *)
Inductive text (A : Type) : Type :=
  | TJson (a : A)
  | TRaw (s : string).
Arguments TJson {A} a.
Arguments TRaw {A} s.

Definition cell (A : Type) : Type := option (text A).

#[export] Instance text_eq_dec `{EqDecision A} : EqDecision (text A).
Proof. solve_decision. Defined.

Section Primitives.
Context {S : Type}.

Definition this : js (S * Env) S := λ w, (Ok w.1, w).
Definition put_this (s : S) : js (S * Env) () := λ w, (Ok (), (s, w.2)).
Definition modify_this (f : S → S) : js (S * Env) () := λ w, (Ok (), (f w.1, w.2)).
Definition date_now : js (S * Env) Z := λ w,
  (Ok (clock w.2 (ticks w.2)), (w.1, tick w.2)).
Definition random36 : js (S * Env) string := λ w,
  (Ok (entropy w.2 (draws w.2)), (w.1, draw w.2)).
Definition is_browser : js (S * Env) bool := λ w, (Ok (browser w.2), w).

(** [await remote(...)]: the reply to the next remote call. *)
Definition rpc {A} (reply : nat → result A) : js (S * Env) A := λ w,
  (reply (calls w.2), (w.1, call w.2)).

(** [localStorage.setItem]: stores when within quota, throws otherwise. *)
Definition ls_setItem (store : S → S) : js (S * Env) () := λ w,
  if writable w.2 then (Ok (), (store w.1, w.2))
  else (Throw "QuotaExceededError", w).

(** [localStorage.removeItem] never throws. *)
Definition ls_removeItem (remove : S → S) : js (S * Env) () := modify_this remove.

(** [JSON.parse] of a non-empty stored text. *)
Definition JSON_parse {A} (t : text A) : js (S * Env) A :=
  match t with
  | TJson a => mret a
  | TRaw _ => js_throw "Unexpected token in JSON"
  end.
End Primitives.

(** ** Invariant preservation

    [preserves I m]: whatever [m] does, returning or throwing, a state that
    satisfies [I] is left in a state that satisfies [I]. The rules below are in
    the hint database [js]. *)
Definition preserves {S A} (I : S → Prop) (m : js (S * Env) A) : Prop :=
  ∀ w, I w.1 → I (m w).2.1.

Create HintDb js.

Section Preserves.
Context {S : Type} (I : S → Prop).

Lemma preserves_ret {A} (a : A) : preserves I (mret (M:=js (S * Env)) a).
Proof. by intros w. Qed.

Lemma preserves_throw {A} msg : preserves I (js_throw (A:=A) msg).
Proof. by intros w. Qed.

Lemma preserves_bind {A B} (m : js (S * Env) A) (k : A → js (S * Env) B) :
  preserves I m → (∀ a, preserves I (k a)) → preserves I (m ≫= k).
Proof.
  intros Hm Hk w Hw. specialize (Hm w Hw).
  unfold mbind, js_bind. destruct (m w) as [[a|e] w']; [by apply Hk|done].
Qed.

Lemma preserves_this {A} (k : S → js (S * Env) A) :
  (∀ s, I s → preserves I (k s)) → preserves I (this ≫= k).
Proof. intros Hk [s e] Hs. exact (Hk s Hs (s, e) Hs). Qed.

Lemma preserves_put s : I s → preserves I (put_this s).
Proof. by intros ? w. Qed.

Lemma preserves_modify f : (∀ s, I s → I (f s)) → preserves I (modify_this f).
Proof. intros Hf w Hw. by apply Hf. Qed.

Lemma preserves_date_now : preserves I date_now.
Proof. by intros w. Qed.

Lemma preserves_random36 : preserves I random36.
Proof. by intros w. Qed.

Lemma preserves_is_browser : preserves I is_browser.
Proof. by intros w. Qed.

Lemma preserves_rpc {A} (reply : nat → result A) : preserves I (rpc reply).
Proof. by intros w. Qed.

Lemma preserves_setItem f : (∀ s, I s → I (f s)) → preserves I (ls_setItem f).
Proof. intros Hf w Hw. unfold ls_setItem. destruct (writable w.2); [by apply Hf|done]. Qed.

Lemma preserves_removeItem f : (∀ s, I s → I (f s)) → preserves I (ls_removeItem f).
Proof. apply preserves_modify. Qed.

Lemma preserves_parse {A} (t : text A) : preserves I (JSON_parse t).
Proof. destruct t; by intros w. Qed.

Lemma preserves_try {A} (m : js (S * Env) A) h :
  preserves I m → (∀ e, preserves I (h e)) → preserves I (js_try m h).
Proof.
  intros Hm Hh w Hw. specialize (Hm w Hw). unfold js_try.
  destruct (m w) as [[a|e] w']; [done|by apply Hh].
Qed.

Lemma preserves_when c m : (c = true → preserves I m) → preserves I (js_when c m).
Proof. destruct c; [auto|]. intros _. apply preserves_ret. Qed.

Lemma preserves_forEach {A} (f : A → js (S * Env) ()) l :
  (∀ x, x ∈ l → preserves I (f x)) → preserves I (js_forEach f l).
Proof.
  induction l as [|x l IH]; intros Hf; simpl.
  - apply preserves_ret.
  - apply preserves_bind; [apply Hf; by left|]. intros _. apply IH. intros y Hy. apply Hf. by right.
Qed.

Lemma preserves_mapM {A B} (f : A → js (S * Env) B) l :
  (∀ x, x ∈ l → preserves I (f x)) → preserves I (js_mapM f l).
Proof.
  induction l as [|x l IH]; intros Hf; simpl.
  - apply preserves_ret.
  - apply preserves_bind; [apply Hf; by left|]. intros y.
    apply preserves_bind; [|intros; apply preserves_ret].
    apply IH. intros z Hz. apply Hf. by right.
Qed.
End Preserves.

#[export] Hint Resolve preserves_ret preserves_throw preserves_date_now preserves_random36
  preserves_is_browser preserves_rpc preserves_parse preserves_try preserves_setItem
  preserves_removeItem preserves_when preserves_forEach
  preserves_mapM : js.
#[export] Hint Resolve preserves_this preserves_put preserves_modify | 1 : js.
#[export] Hint Resolve preserves_bind | 5 : js.

(** ** Symbolic execution

    One equation per primitive, for a body that starts with it; [js_run] applies
    them from the front of the body as long as it can. *)
Section Run.
Context {S A B : Type}.
Implicit Types (k : A → js (S * Env) B) (w : S * Env).

Lemma run_this (k : S → js (S * Env) B) w : (this ≫= k) w = k w.1 w.
Proof. done. Qed.
Lemma run_put s (k : () → js (S * Env) B) w : (put_this s ≫= k) w = k () (s, w.2).
Proof. done. Qed.
Lemma run_modify f (k : () → js (S * Env) B) w : (modify_this f ≫= k) w = k () (f w.1, w.2).
Proof. done. Qed.
Lemma run_removeItem f (k : () → js (S * Env) B) w : (ls_removeItem f ≫= k) w = k () (f w.1, w.2).
Proof. done. Qed.
Lemma run_setItem f (k : () → js (S * Env) B) w :
  (ls_setItem f ≫= k) w =
  if writable w.2 then k () (f w.1, w.2) else (Throw "QuotaExceededError", w).
Proof. unfold mbind, js_bind, ls_setItem. by destruct (writable w.2). Qed.
Lemma run_date_now (k : Z → js (S * Env) B) w :
  (date_now ≫= k) w = k (clock w.2 (ticks w.2)) (w.1, tick w.2).
Proof. done. Qed.
Lemma run_random36 (k : string → js (S * Env) B) w :
  (random36 ≫= k) w = k (entropy w.2 (draws w.2)) (w.1, draw w.2).
Proof. done. Qed.
Lemma run_is_browser (k : bool → js (S * Env) B) w : (is_browser ≫= k) w = k (browser w.2) w.
Proof. done. Qed.
Lemma run_ret (a : A) k w : (mret a ≫= k) w = k a w.
Proof. done. Qed.
Lemma run_throw msg k w : (js_throw msg ≫= k) w = (Throw msg, w).
Proof. done. Qed.
Lemma run_bind {C} (m : js (S * Env) C) (h : C → js (S * Env) A) k w :
  ((m ≫= h) ≫= k) w = (m ≫= λ c, h c ≫= k) w.
Proof. unfold mbind, js_bind. by destruct (m w) as [[|] ?]. Qed.
Lemma run_when c (m : js (S * Env) ()) (k : () → js (S * Env) B) w :
  (js_when c m ≫= k) w = if c then (m ≫= k) w else k () w.
Proof. by destruct c. Qed.
Lemma run_if (c : bool) (m1 m2 : js (S * Env) A) k w :
  ((if c then m1 else m2) ≫= k) w = if c then (m1 ≫= k) w else (m2 ≫= k) w.
Proof. by destruct c. Qed.
Lemma run_rpc (reply : nat → result A) k w :
  (rpc reply ≫= k) w =
  match reply (calls w.2) with
  | Ok a => k a (w.1, call w.2)
  | Throw msg => (Throw msg, (w.1, call w.2))
  end.
Proof. unfold mbind, js_bind, rpc. by destruct (reply _). Qed.
Lemma run_Ok (m : js (S * Env) A) k w a w' : m w = (Ok a, w') → (m ≫= k) w = k a w'.
Proof. unfold mbind, js_bind. by intros ->. Qed.
Lemma run_Throw (m : js (S * Env) A) k w msg w' : m w = (Throw msg, w') → (m ≫= k) w = (Throw msg, w').
Proof. unfold mbind, js_bind. by intros ->. Qed.
Lemma run_bind_inv (m : js (S * Env) A) k w b w' :
  (m ≫= k) w = (Ok b, w') → ∃ a w1, m w = (Ok a, w1) ∧ k a w1 = (Ok b, w').
Proof. unfold mbind, js_bind. destruct (m w) as [[a|msg] w1]; [|done]. eauto. Qed.
Lemma run_ret_inv (a a' : A) w w' : mret (M:=js (S * Env)) a w = (Ok a', w') → a = a' ∧ w' = w.
Proof. by intros [= -> ->]. Qed.
Lemma run_rpc_inv (reply : nat → result A) k w b w' :
  (rpc reply ≫= k) w = (Ok b, w') →
  ∃ a, reply (calls w.2) = Ok a ∧ k a (w.1, call w.2) = (Ok b, w').
Proof. rewrite run_rpc. destruct (reply _); [eauto|done]. Qed.
Lemma run_try_Ok (m : js (S * Env) A) h w a w' : m w = (Ok a, w') → js_try m h w = (Ok a, w').
Proof. unfold js_try. by intros ->. Qed.
Lemma run_try_Throw (m : js (S * Env) A) h w msg w' : m w = (Throw msg, w') → js_try m h w = h msg w'.
Proof. unfold js_try. by intros ->. Qed.
End Run.

Ltac js_run :=
  repeat (first
    [ rewrite run_bind | rewrite run_this | rewrite run_put | rewrite run_modify
    | rewrite run_removeItem | rewrite run_setItem | rewrite run_date_now
    | rewrite run_random36 | rewrite run_is_browser | rewrite run_ret | rewrite run_throw
    | rewrite run_when | rewrite run_if | rewrite run_rpc ]; cbv beta zeta; cbn [fst snd]).

(** Unfolding of the primitives for a body that ends in one. *)
Ltac js_unfold :=
  unfold mret, js_ret, js_throw, js_when, this, put_this, modify_this, date_now, random36,
    is_browser, rpc, ls_setItem, ls_removeItem, JSON_parse in *; cbn [fst snd] in *.

(** The rules of [preserves], from the front of a body. *)
Ltac js_preserve :=
  repeat lazymatch goal with
  | |- preserves _ (mbind _ this) => apply preserves_this; intros ? ?
  | |- preserves _ (mbind _ _) => apply preserves_bind; [|intros ?]
  | |- preserves _ (if ?b then _ else _) => destruct b eqn:?
  | |- preserves _ (match ?x with _ => _ end) => destruct x eqn:?
  | |- preserves _ (js_try _ _) => apply preserves_try; [|intros ?]
  | |- preserves _ (js_when _ _) => apply preserves_when; intros ?
  | |- preserves _ (js_forEach _ _) => apply preserves_forEach; intros ? ?
  | |- preserves _ (js_mapM _ _) => apply preserves_mapM; intros ? ?
  | |- preserves _ (let _ := _ in _) => cbv zeta
  | |- preserves _ _ => solve [auto 4 with js nocore]
  end.

(** ** Booleans and options as JavaScript uses them *)

(** Is a stored text truthy: present and not the empty string? *)
Definition truthy_cell {A} (c : cell A) : option (text A) :=
  match c with
  | Some (TRaw s) => if bool_decide (s = "") then None else c
  | _ => c
  end.

(** [s1 === s2] on strings. *)
Definition str_eqb (s1 s2 : string) : bool := bool_decide (s1 = s2).

(** Truthiness of [string | null | undefined]: the empty string is falsy. *)
Definition truthy_str (o : option string) : bool :=
  match o with Some s => negb (str_eqb s "") | None => false end.

Lemma str_eqb_true s1 s2 : str_eqb s1 s2 = true ↔ s1 = s2.
Proof. apply bool_decide_eq_true. Qed.

Lemma str_eqb_false s1 s2 : str_eqb s1 s2 = false ↔ s1 ≠ s2.
Proof. apply bool_decide_eq_false. Qed.

Lemma str_eqb_refl s : str_eqb s s = true.
Proof. by apply str_eqb_true. Qed.

(** ** Arrays: [find], [some], [filter], [slice] *)

Fixpoint js_find {A} (p : A → bool) (l : list A) : option A :=
  match l with
  | [] => None
  | x :: l' => if p x then Some x else js_find p l'
  end.

Definition js_some {A} (p : A → bool) (l : list A) : bool := existsb p l.
Definition js_filter {A} (p : A → bool) (l : list A) : list A := List.filter p l.

(** Mutating the first element that satisfies [p] through the reference that
    [Array.prototype.find] returns. *)
Fixpoint update_first {A} (p : A → bool) (f : A → A) (l : list A) : list A :=
  match l with
  | [] => []
  | x :: l' => if p x then f x :: l' else x :: update_first p f l'
  end.

(** [l.slice(-n)] for [n > 0]: the last [n] elements. *)
Definition slice_last {A} (n : nat) (l : list A) : list A := drop (length l - n) l.

Section ListFacts.
Context {A : Type}.
Implicit Types (p : A → bool) (l : list A).

Lemma js_find_Some p l x : js_find p l = Some x → x ∈ l ∧ p x = true.
Proof.
  induction l as [|y l IH]; simpl; [done|].
  destruct (p y) eqn:Hy; intros H; [simplify_eq; split; [by left|done]|].
  destruct (IH H); split; [by right|done].
Qed.

Lemma js_find_None p l : js_find p l = None ↔ ∀ x, x ∈ l → p x = false.
Proof.
  induction l as [|y l IH]; simpl; [by split; [intros _ x ?%elem_of_nil|]|].
  destruct (p y) eqn:Hy; split; intros H.
  - done.
  - rewrite H in Hy; [done|by left].
  - intros x Hx. apply elem_of_cons in Hx as [->|Hx]; [done|]. by apply IH.
  - apply IH. intros x Hx. apply H. by right.
Qed.

Lemma js_some_true p l : js_some p l = true ↔ ∃ x, x ∈ l ∧ p x = true.
Proof.
  unfold js_some. rewrite existsb_exists. setoid_rewrite list_elem_of_In. done.
Qed.

Lemma js_some_false p l : js_some p l = false ↔ ∀ x, x ∈ l → p x = false.
Proof.
  rewrite <- not_true_iff_false, js_some_true. split.
  - intros H x Hx. destruct (p x) eqn:?; [|done]. exfalso; eauto.
  - intros H (x & Hx & Hp). rewrite H in Hp; done.
Qed.

Lemma elem_of_js_filter p l x : x ∈ js_filter p l ↔ x ∈ l ∧ p x = true.
Proof. unfold js_filter. rewrite !list_elem_of_In. apply filter_In. Qed.

Lemma js_filter_length p l : (length (js_filter p l) <= length l)%nat.
Proof. unfold js_filter. induction l as [|x l IH]; simpl; [lia|]. destruct (p x); simpl; lia. Qed.

Lemma js_filter_all p l : (∀ x, x ∈ l → p x = true) → js_filter p l = l.
Proof.
  unfold js_filter. induction l as [|x l IH]; intros H; simpl; [done|].
  rewrite H by (by left). f_equal. apply IH. intros y Hy. apply H. by right.
Qed.

Lemma js_filter_sublist p l : js_filter p l `sublist_of` l.
Proof.
  unfold js_filter. induction l as [|x l IH]; simpl; [constructor|].
  destruct (p x); by constructor.
Qed.

Lemma filter_twice p q l : js_filter q (js_filter p l) = js_filter (λ x, p x && q x) l.
Proof. unfold js_filter. induction l as [|x l IH]; [done|]. cbn. destruct (p x); cbn; [destruct (q x); cbn|]; by rewrite IH. Qed.

Lemma filter_same p q l : (∀ x, p x = q x) → js_filter p l = js_filter q l.
Proof. intros H. unfold js_filter. by apply List.filter_ext. Qed.

Lemma js_filter_length_eq p l :
  length (js_filter p l) = length l → ∀ x, x ∈ l → p x = true.
Proof.
  unfold js_filter. induction l as [|y l IH]; simpl; [intros _ x ?%elem_of_nil; done|].
  destruct (p y) eqn:Hy; simpl; intros H x Hx.
  - apply elem_of_cons in Hx as [->|Hx]; [done|]. apply IH; [lia|done].
  - pose proof (js_filter_length p l). unfold js_filter in *. lia.
Qed.

Lemma update_first_length p f l : length (update_first p f l) = length l.
Proof. induction l as [|x l IH]; simpl; [done|]. destruct (p x); simpl; lia. Qed.

Lemma slice_last_length n l : length (slice_last n l) = min n (length l).
Proof. unfold slice_last. rewrite length_drop. lia. Qed.

Lemma slice_last_suffix n l : slice_last n l `suffix_of` l.
Proof. unfold slice_last. exists (take (length l - n) l). by rewrite take_drop. Qed.
End ListFacts.

Lemma map_update_first {A B} (p : A → bool) (f : A → A) (g : A → B) (l : list A) :
  (∀ x, g (f x) = g x) → g <$> update_first p f l = g <$> l.
Proof.
  intros Hg. induction l as [|x l IH]; simpl; [done|].
  destruct (p x); csimpl; [by rewrite Hg|by rewrite IH].
Qed.

Lemma js_filter_fmap {A B} (f : A → B) (p : B → bool) (q : A → bool) (l : list A) :
  (∀ x, p (f x) = q x) → js_filter p (f <$> l) = f <$> js_filter q l.
Proof.
  intros H. unfold js_filter. induction l as [|x l IH]; csimpl; [done|].
  rewrite H. destruct (q x); csimpl; by rewrite IH.
Qed.

(** ** Stable sorting with a numeric comparator

    [a.sort((x, y) => key(y) - key(x))] with an ES2019 engine is the stable
    sort of the comparator. [gt x y] says that the comparator is positive, that
    is, [x] must come after [y]. *)
Fixpoint sort_insert {A} (gt : A → A → bool) (x : A) (l : list A) : list A :=
  match l with
  | [] => [x]
  | y :: l' => if gt x y then y :: sort_insert gt x l' else x :: l
  end.

Definition js_sort {A} (gt : A → A → bool) (l : list A) : list A :=
  foldr (sort_insert gt) [] l.

Section SortFacts.
Context {A : Type} (gt : A → A → bool).

Lemma sort_insert_perm x l : sort_insert gt x l ≡ₚ x :: l.
Proof.
  induction l as [|y l IH]; simpl; [done|].
  destruct (gt x y); [|done]. rewrite IH. apply Permutation_swap.
Qed.

Lemma js_sort_perm l : js_sort gt l ≡ₚ l.
Proof. induction l as [|x l IH]; simpl; [done|]. by rewrite sort_insert_perm, IH. Qed.

Lemma elem_of_js_sort x l : x ∈ js_sort gt l ↔ x ∈ l.
Proof. by rewrite js_sort_perm. Qed.

Lemma js_sort_length l : length (js_sort gt l) = length l.
Proof. by rewrite js_sort_perm. Qed.

(** When no element is incomparable, sorting orders the list. *)
Context (P : A → Prop).
Context (Hasym : ∀ x y, P x → P y → gt x y = true → gt y x = false).
Context (Htrans : ∀ x y z, P x → P y → P z → gt x y = false → gt y z = false → gt x z = false).

Lemma sort_insert_sorted x l :
  P x → Forall P l → StronglySorted (λ a b, gt a b = false) l →
  StronglySorted (λ a b, gt a b = false) (sort_insert gt x l).
Proof.
  intros Hx. induction l as [|y l IH]; intros Hl Hs; simpl; [by repeat constructor|].
  inversion Hl as [|?? Hy Hl']; inversion Hs as [|?? Hs' Hy']; subst.
  destruct (gt x y) eqn:E.
  - constructor; [by apply IH|]. rewrite sort_insert_perm. constructor; [by apply Hasym|done].
  - constructor; [done|]. constructor; [done|].
    rewrite Forall_forall in *. intros z Hz. apply Htrans with y; auto.
Qed.

Lemma js_sort_sorted l :
  Forall P l → StronglySorted (λ a b, gt a b = false) (js_sort gt l).
Proof.
  induction l as [|x l IH]; intros Hl; simpl; [constructor|].
  inversion Hl; subst. apply sort_insert_sorted; [done| |by apply IH].
  by rewrite js_sort_perm.
Qed.
End SortFacts.

Lemma js_sort_fmap {A B} (f : A → B) (gt : A → A → bool) (gt' : B → B → bool) (l : list A) :
  (∀ x y, gt' (f x) (f y) = gt x y) → js_sort gt' (f <$> l) = f <$> js_sort gt l.
Proof.
  intros H. induction l as [|x l IH]; csimpl; [done|]. rewrite IH. clear IH.
  induction (js_sort gt l) as [|y l' IH]; csimpl; [done|].
  rewrite H. destruct (gt x y); csimpl; by rewrite ?IH.
Qed.
