(* ===== verification/JsMap.v ===== *)
(** * JavaScript [Map] with string keys

    A [Map] iterates in insertion order: [set] on a present key replaces the
    value in place, [set] on a new key appends, [delete] removes the entry. The
    model is the list of entries; [map_wf] (no key occurs twice) holds of the
    empty map and is preserved by every operation. *)

From S2P Require Import Prelude.
From Stdlib Require Ascii.

Definition jsmap (V : Type) : Type := list (string * V).

Section JsMap.
Context {V : Type}.
Implicit Types (m : jsmap V) (k : string) (v : V).

Fixpoint map_get k m : option V :=
  match m with
  | [] => None
  | (k', v) :: m' => if str_eqb k k' then Some v else map_get k m'
  end.

Fixpoint map_set k v m : jsmap V :=
  match m with
  | [] => [(k, v)]
  | (k', v') :: m' => if str_eqb k k' then (k, v) :: m' else (k', v') :: map_set k v m'
  end.

Definition map_delete k m : jsmap V := js_filter (λ kv, negb (str_eqb k kv.1)) m.
Definition map_has k m : bool := match map_get k m with Some _ => true | None => false end.
Definition map_keys m : list string := m.*1.
Definition map_values m : list V := m.*2.
Definition map_size m : nat := length m.

(** [new Map(entries)] *)
Definition map_of_entries (l : list (string * V)) : jsmap V :=
  foldl (λ m kv, map_set kv.1 kv.2 m) [] l.

(** [values.forEach((v) => m.set(key(v), v))] *)
Definition map_set_all (key : V → string) (m : jsmap V) (l : list V) : jsmap V :=
  foldl (λ m v, map_set (key v) v m) m l.

(** Mutating the object stored under [k] through the reference [get] returns. *)
Definition map_update k (f : V → V) m : jsmap V :=
  match map_get k m with Some v => map_set k (f v) m | None => m end.

Definition map_wf m : Prop := NoDup (map_keys m).

(** Every stored object satisfies [P]. *)
Definition map_all (P : string → V → Prop) m : Prop := Forall (λ kv, P kv.1 kv.2) m.

Lemma map_get_set_eq k v m : map_get k (map_set k v m) = Some v.
Proof.
  induction m as [|[k' v'] m IH]; simpl; [by rewrite str_eqb_refl|].
  destruct (str_eqb k k') eqn:E; simpl; [by rewrite str_eqb_refl|by rewrite E].
Qed.

Lemma map_get_set_ne k k' v m : k ≠ k' → map_get k' (map_set k v m) = map_get k' m.
Proof.
  intros Hne. induction m as [|[k1 v1] m IH]; simpl.
  - by rewrite (proj2 (str_eqb_false k' k)).
  - destruct (str_eqb k k1) eqn:E; simpl.
    + apply str_eqb_true in E as <-. by rewrite (proj2 (str_eqb_false k' k)).
    + by rewrite IH.
Qed.

Lemma map_get_Some_elem k v m : map_get k m = Some v → (k, v) ∈ m.
Proof.
  induction m as [|[k' v'] m IH]; simpl; [done|].
  destruct (str_eqb k k') eqn:E; intros H; simplify_eq.
  - apply str_eqb_true in E as ->. by left.
  - right. auto.
Qed.

Lemma map_get_None_keys k m : map_get k m = None ↔ k ∉ map_keys m.
Proof.
  unfold map_keys. induction m as [|[k' v'] m IH]; csimpl.
  - split; [intros _; apply not_elem_of_nil|done].
  - rewrite not_elem_of_cons. destruct (str_eqb k k') eqn:E.
    + apply str_eqb_true in E as ->. split; [done|]. by intros [? _].
    + apply str_eqb_false in E. rewrite IH. tauto.
Qed.

Lemma map_get_elem k v m : map_wf m → (k, v) ∈ m → map_get k m = Some v.
Proof.
  unfold map_wf, map_keys. induction m as [|[k' v'] m IH]; csimpl; intros Hnd Hin.
  - by apply elem_of_nil in Hin.
  - apply NoDup_cons in Hnd as [Hk Hnd]. apply elem_of_cons in Hin as [?|Hin]; simplify_eq.
    + by rewrite str_eqb_refl.
    + rewrite (proj2 (str_eqb_false k k')); [by apply IH|]. intros ->.
      apply Hk. apply list_elem_of_fmap. by exists (k', v).
Qed.

Lemma map_has_true k m : map_has k m = true ↔ is_Some (map_get k m).
Proof. unfold map_has. destruct (map_get k m); split; [eauto|done|done|by intros []]. Qed.

Lemma map_has_false k m : map_has k m = false ↔ map_get k m = None.
Proof. unfold map_has. by destruct (map_get k m). Qed.

Lemma map_keys_set k v m :
  map_keys (map_set k v m) = if map_has k m then map_keys m else map_keys m ++ [k].
Proof.
  unfold map_keys, map_has. induction m as [|[k' v'] m IH]; csimpl; [done|].
  destruct (str_eqb k k') eqn:E; csimpl.
  - by apply str_eqb_true in E as ->.
  - rewrite IH. by destruct (map_get k m).
Qed.

Lemma map_wf_nil : map_wf [].
Proof. apply NoDup_nil_2. Qed.

Lemma map_wf_set k v m : map_wf m → map_wf (map_set k v m).
Proof.
  unfold map_wf. rewrite map_keys_set. intros Hm. destruct (map_has k m) eqn:E; [done|].
  apply map_has_false, map_get_None_keys in E.
  apply NoDup_app. split_and!; [done| |apply NoDup_singleton].
  intros x Hx Hx'. apply list_elem_of_singleton in Hx' as ->. done.
Qed.

Lemma elem_of_map_delete k kv m : kv ∈ map_delete k m ↔ kv ∈ m ∧ kv.1 ≠ k.
Proof.
  unfold map_delete. rewrite elem_of_js_filter, negb_true_iff, str_eqb_false. split; intros [? Hne]; split; auto.
Qed.

Lemma map_wf_delete k m : map_wf m → map_wf (map_delete k m).
Proof.
  unfold map_wf, map_keys, map_delete. intros H. eapply sublist_NoDup; [exact H|].
  apply (fmap_sublist fst), js_filter_sublist.
Qed.

Lemma map_get_delete_eq k m : map_get k (map_delete k m) = None.
Proof.
  unfold map_delete, js_filter. induction m as [|[k' v'] m IH]; simpl; [done|].
  destruct (str_eqb k k') eqn:E; simpl; [done|by rewrite E].
Qed.

Lemma map_get_delete_ne k k' m : k ≠ k' → map_get k' (map_delete k m) = map_get k' m.
Proof.
  intros Hne. unfold map_delete, js_filter. induction m as [|[k1 v1] m IH]; simpl; [done|].
  destruct (str_eqb k k1) eqn:E; simpl.
  - apply str_eqb_true in E as <-. rewrite IH. by rewrite (proj2 (str_eqb_false k' k)).
  - by rewrite IH.
Qed.

Lemma map_delete_absent k m : map_get k m = None → map_delete k m = m.
Proof.
  intros H. apply js_filter_all. intros [k' v] Hin. simpl. apply negb_true_iff, str_eqb_false.
  intros ->. apply map_get_None_keys in H. apply H. apply list_elem_of_fmap. by exists (k', v).
Qed.

Lemma elem_of_map_set k v m kv : kv ∈ map_set k v m → kv = (k, v) ∨ kv ∈ m.
Proof.
  induction m as [|[k' v'] m IH]; simpl; intros H.
  - apply list_elem_of_singleton in H. by left.
  - destruct (str_eqb k k'); apply elem_of_cons in H as [->|H].
    + by left.
    + right. by right.
    + right. by left.
    + destruct (IH H); [by left|right; by right].
Qed.

Lemma map_all_nil P : map_all P [].
Proof. constructor. Qed.

Lemma map_all_set P k v m : P k v → map_all P m → map_all P (map_set k v m).
Proof.
  unfold map_all. rewrite !Forall_forall. intros Hv Hm kv [->|Hin]%elem_of_map_set; auto.
Qed.

Lemma map_all_delete P k m : map_all P m → map_all P (map_delete k m).
Proof.
  unfold map_all. rewrite !Forall_forall. intros Hm kv [Hin _]%elem_of_map_delete; auto.
Qed.

Lemma map_all_get P k v m : map_all P m → map_get k m = Some v → P k v.
Proof.
  unfold map_all. rewrite Forall_forall. intros Hm Hg.
  apply (Hm (k, v)). by apply map_get_Some_elem.
Qed.

Lemma map_all_update P k f m :
  (∀ v, P k v → P k (f v)) → map_all P m → map_all P (map_update k f m).
Proof.
  intros Hf Hm. unfold map_update. destruct (map_get k m) eqn:E; [|done].
  apply map_all_set; [|done]. apply Hf. by eapply map_all_get.
Qed.

Lemma map_wf_update k f m : map_wf m → map_wf (map_update k f m).
Proof. unfold map_update. destruct (map_get k m); [apply map_wf_set|done]. Qed.

Lemma map_get_update k f m : map_get k (map_update k f m) = f <$> map_get k m.
Proof.
  unfold map_update. destruct (map_get k m) eqn:E; simpl; [apply map_get_set_eq|done].
Qed.

Lemma map_get_update_ne k k' f m : k ≠ k' → map_get k' (map_update k f m) = map_get k' m.
Proof. intros. unfold map_update. destruct (map_get k m); [by apply map_get_set_ne|done]. Qed.

Lemma map_keys_update k f m : map_keys (map_update k f m) = map_keys m.
Proof.
  unfold map_update. destruct (map_get k m) eqn:E; [|done].
  rewrite map_keys_set. unfold map_has. by rewrite E.
Qed.

Lemma elem_of_map_values v m : v ∈ map_values m ↔ ∃ k, (k, v) ∈ m.
Proof.
  unfold map_values. rewrite list_elem_of_fmap. split.
  - intros ([k' v'] & -> & H). by exists k'.
  - intros [k H]. by exists (k, v).
Qed.

Lemma map_values_all P m : map_all (λ _, P) m ↔ Forall P (map_values m).
Proof. unfold map_all, map_values. by rewrite Forall_fmap. Qed.

Lemma map_size_set k v m :
  map_size (map_set k v m) = if map_has k m then map_size m else S (map_size m).
Proof.
  unfold map_size, map_has. induction m as [|[k' v'] m IH]; simpl; [done|].
  destruct (str_eqb k k'); simpl; [done|]. rewrite IH. by destruct (map_get k m).
Qed.

Lemma map_set_app k v m : map_get k m = None → map_set k v m = m ++ [(k, v)].
Proof.
  induction m as [|[k' v'] m IH]; simpl; [done|].
  destruct (str_eqb k k'); [done|]. intros H. by rewrite IH.
Qed.

(** Rebuilding a map from its values, keyed by a field that equals the key,
    gives the map back: the round trip the services rely on when they store
    [Array.from(map.values())] and reload it. *)
Lemma map_set_all_values key m0 m :
  map_all (λ k v, key v = k) m → map_wf (m0 ++ m) →
  map_set_all key m0 (map_values m) = m0 ++ m.
Proof.
  unfold map_set_all, map_values. revert m0. induction m as [|[k v] m IH]; intros m0 Hk Hwf.
  - simpl. by rewrite app_nil_r.
  - inversion Hk as [|?? Hkv Hk']; simplify_eq/=.
    assert (map_get (key v) m0 = None) as Hnone.
    { apply map_get_None_keys. intros Hin. unfold map_wf, map_keys in Hwf, Hin.
      rewrite fmap_app, NoDup_app in Hwf. destruct Hwf as (_ & Hd & _).
      apply (Hd _ Hin). by left. }
    rewrite map_set_app by done. rewrite IH; [by rewrite <- app_assoc|done|].
    by rewrite <- app_assoc.
Qed.

Lemma map_of_entries_id m0 m :
  map_wf (m0 ++ m) → foldl (λ m kv, map_set kv.1 kv.2 m) m0 m = m0 ++ m.
Proof.
  revert m0. induction m as [|[k v] m IH]; intros m0 Hwf; simpl; [by rewrite app_nil_r|].
  rewrite map_set_app; [rewrite IH; by rewrite <- app_assoc|].
  apply map_get_None_keys. intros Hin. unfold map_wf, map_keys in Hwf, Hin.
  rewrite fmap_app, NoDup_app in Hwf. destruct Hwf as (_ & Hd & _).
  apply (Hd _ Hin). by left.
Qed.

Lemma map_wf_set_all key m l : map_wf m → map_wf (map_set_all key m l).
Proof.
  unfold map_set_all. revert m. induction l as [|v l IH]; intros m Hm; simpl; [done|].
  by apply IH, map_wf_set.
Qed.

Lemma map_all_set_all P key m l :
  (∀ v, v ∈ l → P (key v) v) → map_all P m → map_all P (map_set_all key m l).
Proof.
  unfold map_set_all. revert m. induction l as [|v l IH]; intros m Hl Hm; simpl; [done|].
  apply IH; [intros v' Hv'; apply Hl; by right|]. apply map_all_set; [apply Hl; by left|done].
Qed.

Lemma map_all_of_entries P m l :
  (∀ kv, kv ∈ l → P kv.1 kv.2) → map_all P m →
  map_all P (foldl (λ m kv, map_set kv.1 kv.2 m) m l).
Proof.
  revert m. induction l as [|kv l IH]; intros m Hl Hm; simpl; [done|].
  apply IH; [intros kv' Hkv'; apply Hl; by right|]. apply map_all_set; [apply Hl; by left|done].
Qed.

Lemma map_wf_of_entries l : map_wf (map_of_entries l).
Proof.
  unfold map_of_entries. assert (map_wf []) as H by apply map_wf_nil. revert H.
  generalize (@nil (string * V)). induction l as [|kv l IH]; intros m Hm; simpl; [done|].
  by apply IH, map_wf_set.
Qed.
End JsMap.

(** ** Plain objects used as dictionaries

    A plain object lists its integer-like keys first, in increasing order, then
    the others in insertion order; [Object.entries], [Object.fromEntries] and
    [JSON.stringify] all use that order. *)
Fixpoint index_value (acc : Z) (s : string) : option Z :=
  match s with
  | EmptyString => Some acc
  | String c s' =>
      let d := Z.of_nat (Ascii.nat_of_ascii c) - 48 in
      if (0 <=? d) && (d <=? 9) then index_value (10 * acc + d) s' else None
  end.

(** The value of a canonical array index, [0 <= i < 2^32 - 1]. *)
Definition array_index (s : string) : option Z :=
  match s with
  | EmptyString => None
  | String c s' =>
      match index_value 0 s with
      | Some i =>
          if (4294967295 <=? i) || ((Z.of_nat (Ascii.nat_of_ascii c) =? 48) && negb (str_eqb s' "")) then None else Some i
      | None => None
      end
  end.

Definition is_index (s : string) : bool :=
  match array_index s with Some _ => true | None => false end.

Definition object_order {V} (l : list (string * V)) : list (string * V) :=
  js_sort (λ a b, default 0 (array_index b.1) <? default 0 (array_index a.1))
    (js_filter (λ kv, is_index kv.1) l)
  ++ js_filter (λ kv, negb (is_index kv.1)) l.

Section ObjectOrder.
Context {V : Type}.
Implicit Types (l : list (string * V)).

Lemma object_order_perm l : object_order l ≡ₚ l.
Proof.
  unfold object_order, js_filter. rewrite js_sort_perm.
  induction l as [|kv l IH]; simpl; [done|].
  destruct (is_index kv.1); simpl; [by rewrite IH|].
  by rewrite <- Permutation_middle, IH.
Qed.

Lemma object_order_id l : Forall (λ kv, is_index kv.1 = false) l → object_order l = l.
Proof.
  unfold object_order, js_filter. intros H.
  assert (List.filter (λ kv, is_index kv.1) l = []) as ->.
  { induction H as [|kv l Hkv _ IH]; simpl; [done|by rewrite Hkv]. }
  simpl. apply js_filter_all. rewrite Forall_forall in H. intros kv Hkv. by rewrite H.
Qed.

Lemma object_order_fmap {W} (f : V → W) l :
  object_order ((λ kv, (kv.1, f kv.2)) <$> l) = (λ kv, (kv.1, f kv.2)) <$> object_order l.
Proof.
  unfold object_order. rewrite fmap_app.
  rewrite !(js_filter_fmap _ _ (λ kv, is_index kv.1)) by done.
  rewrite (js_filter_fmap _ _ (λ kv, negb (is_index kv.1))) by done.
  f_equal. by apply js_sort_fmap.
Qed.

Lemma map_get_perm (l1 l2 : list (string * V)) k :
  map_wf l1 → l1 ≡ₚ l2 → map_get k l1 = map_get k l2.
Proof.
  intros Hwf Hp.
  assert (map_wf l2) as Hwf2 by (unfold map_wf, map_keys in *; by rewrite <- Hp).
  destruct (map_get k l2) eqn:E.
  - apply map_get_elem; [done|]. rewrite Hp. by apply map_get_Some_elem.
  - apply map_get_None_keys. apply map_get_None_keys in E. unfold map_keys in *. by rewrite Hp.
Qed.

Lemma map_wf_object_order l : map_wf l → map_wf (object_order l).
Proof. unfold map_wf, map_keys. by rewrite object_order_perm. Qed.

Lemma map_all_object_order P l : map_all P l → map_all P (object_order l).
Proof. unfold map_all. by rewrite object_order_perm. Qed.
End ObjectOrder.

Create HintDb jsmap.
#[export] Hint Resolve map_wf_nil map_wf_set map_wf_delete map_wf_update map_all_nil
  map_all_set map_all_delete map_wf_set_all map_wf_of_entries
  map_wf_object_order map_all_object_order : jsmap.
