(* ===== verification/JsNumber.v ===== *)
(** * JavaScript numbers

    A [number] is an IEEE 754 binary64 value; arithmetic rounds to nearest,
    ties to even. [num] is the specification of that format, [spec_float] at
    precision 53 and maximal exponent 1024, which evaluates inside the kernel.
    Integer-valued quantities that stay below 2^53 (timestamps in milliseconds,
    lengths, counters) are modelled as [Z] and converted by [of_Z] where the
    code mixes them with fractional amounts. *)

From S2P Require Import Prelude.
From Stdlib Require Export Floats.SpecFloat.

Abbreviation num := spec_float.

Definition nadd : num → num → num := SFadd 53 1024.
Definition nsub : num → num → num := SFsub 53 1024.
Definition nmul : num → num → num := SFmul 53 1024.
Definition ndiv : num → num → num := SFdiv 53 1024.
Definition nsqrt : num → num := SFsqrt 53 1024.
Definition nabs : num → num := SFabs.
Definition of_Z (z : Z) : num := binary_normalize 53 1024 z 0 false.
Definition nzero : num := S754_zero false.

(** The decimal literal [m * 10^-k]: for [m < 2^53] and [k <= 22] both operands
    are exact, so the quotient is the correctly rounded value of the literal. *)
Definition lit (m : Z) (k : nat) : num := ndiv (of_Z m) (of_Z (10 ^ Z.of_nat k)).

Declare Scope num_scope.
Delimit Scope num_scope with num.
Infix "+" := nadd : num_scope.
Infix "-" := nsub : num_scope.
Infix "*" := nmul : num_scope.
Infix "/" := ndiv : num_scope.
Infix "<?" := SFltb : num_scope.
Infix "<=?" := SFleb : num_scope.
Infix "=?" := SFeqb : num_scope.
Notation "x >? y" := (SFltb y x) (only parsing) : num_scope.
Notation "x >=? y" := (SFleb y x) (only parsing) : num_scope.
Notation "x ≤ₙ y" := (SFleb x y = true) (at level 70).

(** [if (x)]: the numbers that are falsy are the zeros and NaN. *)
Definition truthy_num (x : num) : bool :=
  match x with S754_zero _ | S754_nan => false | _ => true end.

(** [x || d] for a number that may be missing. *)
Definition num_or (x : option num) (d : num) : num :=
  match x with Some x => if truthy_num x then x else d | None => d end.

(** [Math.min] and [Math.max]: NaN if an argument is NaN, and -0 < +0. *)
Definition nmin (x y : num) : num :=
  match x, y with
  | S754_nan, _ | _, S754_nan => S754_nan
  | S754_zero s1, S754_zero s2 => S754_zero (s1 || s2)
  | _, _ => if SFltb y x then y else x
  end.
Definition nmax (x y : num) : num :=
  match x, y with
  | S754_nan, _ | _, S754_nan => S754_nan
  | S754_zero s1, S754_zero s2 => S754_zero (s1 && s2)
  | _, _ => if SFltb x y then y else x
  end.

(** The value of a finite number scaled to an integer, rounded down. *)
Definition floor_Z (s : bool) (m : positive) (e : Z) : Z :=
  let v := if s then Zneg m else Zpos m in
  if (0 <=? e)%Z then v * 2 ^ e else v / 2 ^ (- e).

(** [Math.floor]: zeros keep their sign, and so does a result of zero. *)
Definition nfloor (x : num) : num :=
  match x with
  | S754_finite s m e => binary_normalize 53 1024 (floor_Z s m e) 0 s
  | _ => x
  end.

(** [Math.round]: the nearest integer, a tie goes up. *)
Definition nround (x : num) : num :=
  match x with
  | S754_finite s m e =>
      if (0 <=? e)%Z then x
      else
        let v := if s then Zneg m else Zpos m in
        binary_normalize 53 1024 ((2 * v + 2 ^ (- e)) / (2 * 2 ^ (- e))) 0 s
  | _ => x
  end.

Definition is_finite (x : num) : bool :=
  match x with S754_zero _ | S754_finite _ _ _ => true | _ => false end.
Definition is_nan (x : num) : bool :=
  match x with S754_nan => true | _ => false end.

(** [xs.reduce((sum, x) => sum + f(x), 0)] *)
Definition sum_by {A} (f : A → num) (l : list A) : num :=
  foldl (λ s x, nadd s (f x)) nzero l.

#[global] Arguments nadd : simpl never.
#[global] Arguments nsub : simpl never.
#[global] Arguments nmul : simpl never.
#[global] Arguments ndiv : simpl never.
#[global] Arguments nsqrt : simpl never.
#[global] Arguments of_Z : simpl never.
#[global] Arguments lit : simpl never.
#[global] Arguments sum_by : simpl never.

(** ** Taking elements until a sum reaches a target

    [for (const x of xs) { if (total >= target) break; selected.push(x); total += f(x); }] *)
Section TakeUntil.
Context {A : Type} (f : A → num) (target : num).

Fixpoint take_until (total : num) (l : list A) : list A * num :=
  match l with
  | [] => ([], total)
  | x :: l' =>
      if SFleb target total then ([], total)
      else let '(sel, t) := take_until (nadd total (f x)) l' in (x :: sel, t)
  end.

(** [sel] is the shortest prefix of [l] whose sum reaches the target, or the whole
    of [l] when none does. *)
Definition covering_prefix (l sel : list A) : Prop :=
  ∃ n, sel = take n l ∧
    (∀ m, (m < n)%nat → SFleb target (sum_by f (take m l)) = false) ∧
    (n = length l ∨ SFleb target (sum_by f sel) = true).

Lemma take_until_acc acc l :
  let sum l := foldl (λ s x, nadd s (f x)) acc l in
  ∃ n, take_until acc l = (take n l, sum (take n l)) ∧
    (∀ m, (m < n)%nat → SFleb target (sum (take m l)) = false) ∧
    (n = length l ∨ SFleb target (sum (take n l)) = true).
Proof.
  revert acc. induction l as [|x l IH]; intros acc; simpl.
  { exists 0%nat. split_and!; [done|lia|by left]. }
  destruct (SFleb target acc) eqn:E.
  { exists 0%nat. split_and!; [done|lia|by right]. }
  destruct (IH (nadd acc (f x))) as (n & Hs & Hlt & Hend). rewrite Hs.
  exists (S n). split_and!; [done| |destruct Hend; [left; lia|by right]].
  intros [|m] Hm; [done|]. apply Hlt. lia.
Qed.

Lemma take_until_prefix l sel total :
  take_until nzero l = (sel, total) → covering_prefix l sel ∧ total = sum_by f sel.
Proof.
  destruct (take_until_acc nzero l) as (n & -> & Hlt & Hend).
  intros [= <- <-]. split; [|done]. by exists n.
Qed.
End TakeUntil.

(** ** The order

    On numbers other than NaN, [<=] is a total preorder and [<] its strict part;
    no comparison with NaN holds. *)

Lemma SFcompare_sym x y : SFcompare y x = CompOpp <$> SFcompare x y.
Proof.
  destruct x as [s1|s1| |s1 m1 e1], y as [s2|s2| |s2 m2 e2]; simpl; try done;
    try (by destruct s1); try (by destruct s2); try (by destruct s1, s2).
  f_equal. rewrite (Z.compare_antisym e1 e2).
  change (Pos.compare_cont Eq m2 m1) with (Pos.compare m2 m1).
  change (Pos.compare_cont Eq m1 m2) with (Pos.compare m1 m2).
  rewrite (Pos.compare_antisym m1 m2).
  by destruct s1, s2, (e1 ?= e2), (m1 ?= m2)%positive.
Qed.

Lemma nltb_asym x y : SFltb x y = true → SFltb y x = false.
Proof.
  unfold SFltb. rewrite (SFcompare_sym x y). by destruct (SFcompare x y) as [[]|].
Qed.

Lemma nltb_nleb x y : is_nan x = false → is_nan y = false → SFltb x y = negb (SFleb y x).
Proof.
  intros Hx Hy. unfold SFltb, SFleb. rewrite (SFcompare_sym x y).
  destruct (SFcompare x y) as [[]|] eqn:E; try done.
  by destruct x, y.
Qed.

Lemma nltb_leb x y : SFltb x y = true → SFleb x y = true.
Proof. unfold SFltb, SFleb. by destruct (SFcompare x y) as [[]|]. Qed.

Lemma nleb_refl x : is_nan x = false → SFleb x x = true.
Proof.
  intros Hx. unfold SFleb. pose proof (SFcompare_sym x x) as H.
  destruct (SFcompare x x) as [[]|] eqn:E; try done. by destruct x.
Qed.

(** The rank of a number other than NaN in a lexicographic order that
    [SFcompare] follows. *)
Definition rank (x : num) : Z * Z * Z :=
  match x with
  | S754_infinity true => (-2, 0, 0)
  | S754_finite true m e => (-1, - e, Zneg m)
  | S754_zero _ | S754_nan => (0, 0, 0)
  | S754_finite false m e => (1, e, Zpos m)
  | S754_infinity false => (2, 0, 0)
  end.
Definition rank_le (a b : Z * Z * Z) : Prop :=
  let '(a1, a2, a3) := a in let '(b1, b2, b3) := b in
  a1 < b1 ∨ a1 = b1 ∧ (a2 < b2 ∨ a2 = b2 ∧ a3 ≤ b3).

Local Ltac rank_cases := split; intros; first [done|lia].

Lemma nleb_rank x y :
  is_nan x = false → is_nan y = false → SFleb x y = true ↔ rank_le (rank x) (rank y).
Proof.
  intros Hx Hy. unfold SFleb, rank_le.
  destruct x as [[]|[]| |[] m1 e1], y as [[]|[]| |[] m2 e2]; simpl in *; try done;
    try rank_cases.
  all: change (Pos.compare_cont Eq m1 m2) with (Pos.compare m1 m2);
    destruct (Z.compare_spec e1 e2), (Pos.compare_spec m1 m2); simpl; rank_cases.
Qed.

Lemma nleb_nan_l x y : SFleb x y = true → is_nan x = false.
Proof. by destruct x. Qed.
Lemma nleb_nan_r x y : SFleb x y = true → is_nan y = false.
Proof. destruct y; [done..| |done]. by destruct x. Qed.

Lemma nleb_trans x y z : SFleb x y = true → SFleb y z = true → SFleb x z = true.
Proof.
  intros H1 H2.
  pose proof (nleb_nan_l _ _ H1). pose proof (nleb_nan_l _ _ H2). pose proof (nleb_nan_r _ _ H2).
  rewrite nleb_rank in * by done. unfold rank_le in *.
  destruct (rank x) as [[??]?], (rank y) as [[??]?], (rank z) as [[??]?]. lia.
Qed.

Lemma nleb_total x y :
  is_nan x = false → is_nan y = false → SFleb x y = true ∨ SFleb y x = true.
Proof.
  intros. rewrite !nleb_rank by done. unfold rank_le.
  destruct (rank x) as [[??]?], (rank y) as [[??]?]. lia.
Qed.

Lemma nltb_false_trans x y z :
  is_nan x = false → is_nan y = false → is_nan z = false →
  SFltb x y = false → SFltb y z = false → SFltb x z = false.
Proof.
  intros ???. rewrite !nltb_nleb, !negb_false_iff by done. intros. by eapply nleb_trans.
Qed.

(** ** Exact cancellation *)

Lemma nsub_self_finite x : is_finite x = true → nsub x x = S754_zero false.
Proof.
  destruct x as [s|s| |s m e]; try done; intros _; unfold nsub, SFsub; [by destruct s|].
  rewrite Z.sub_diag. done.
Qed.

Lemma nadd_abs_neg m e : nadd (S754_finite true m e) (nabs (S754_finite true m e)) = S754_zero false.
Proof.
  unfold nadd, nabs, SFabs, SFadd, cond_Zopp.
  rewrite Z.add_opp_diag_l. done.
Qed.

#[export] Instance num_eq_dec : EqDecision num.
Proof. solve_decision. Defined.
