(* ===== verification/JsString.v ===== *)
(** * JavaScript strings and number formatting

    Strings are sequences of 8-bit characters; case mapping and white space are
    those of the ASCII range, which is where the services' keys, addresses and
    fixed texts live. [num_to_string] is [Number::toString] (the shortest decimal
    that rounds to the number) and [to_fixed] is [Number.prototype.toFixed], both
    computed exactly from the binary value. *)

From S2P Require Import Prelude JsMap JsNumber.
From Stdlib Require Import Ascii String.

Local Open Scope string_scope.
Local Open Scope Z_scope.

(** ** Characters *)

Definition char_code (c : ascii) : Z := Z.of_nat (nat_of_ascii c).
Definition in_range (lo hi : Z) (c : ascii) : bool := (lo <=? char_code c) && (char_code c <=? hi).
Definition is_upper : ascii → bool := in_range 65 90.
Definition is_lower : ascii → bool := in_range 97 122.
Definition is_digit : ascii → bool := in_range 48 57.
Definition is_space (c : ascii) : bool := in_range 9 13 c || (char_code c =? 32) || (char_code c =? 160).
Definition lower_char (c : ascii) : ascii :=
  if is_upper c then ascii_of_nat (nat_of_ascii c + 32) else c.

Fixpoint str_map (f : ascii → ascii) (s : string) : string :=
  match s with EmptyString => EmptyString | String c s' => String (f c) (str_map f s') end.
Fixpoint str_all (p : ascii → bool) (s : string) : bool :=
  match s with EmptyString => true | String c s' => p c && str_all p s' end.
Fixpoint str_exists (p : ascii → bool) (s : string) : bool :=
  match s with EmptyString => false | String c s' => p c || str_exists p s' end.

(** [s.toLowerCase()] *)
Definition toLowerCase : string → string := str_map lower_char.

(** [s.startsWith(p)] *)
Fixpoint startsWith (p s : string) : bool :=
  match p, s with
  | EmptyString, _ => true
  | String a p', String b s' => Ascii.eqb a b && startsWith p' s'
  | String _ _, EmptyString => false
  end.

(** [s.includes(sub)] *)
Fixpoint includes (sub s : string) : bool :=
  startsWith sub s || match s with EmptyString => false | String _ s' => includes sub s' end.

(** [s.trim()] *)
Fixpoint trimStart (s : string) : string :=
  match s with String c s' => if is_space c then trimStart s' else s | EmptyString => s end.
Fixpoint trimEnd (s : string) : string :=
  match s with
  | EmptyString => EmptyString
  | String c s' =>
      match trimEnd s' with
      | EmptyString => if is_space c then EmptyString else String c EmptyString
      | t => String c t
      end
  end.
Definition trim (s : string) : string := trimEnd (trimStart s).

(** [s.split(c)] for a one-character separator; never empty. *)
Fixpoint split_on (c : ascii) (s : string) : list string :=
  match s with
  | EmptyString => [EmptyString]
  | String a s' =>
      if Ascii.eqb a c then EmptyString :: split_on c s'
      else match split_on c s' with
           | [] => [String a EmptyString]
           | w :: ws => String a w :: ws
           end
  end.

(** [a > b] in the order of [Array.prototype.sort] on strings. *)
Fixpoint str_gtb (a b : string) : bool :=
  match a, b with
  | String _ _, EmptyString => true
  | EmptyString, _ => false
  | String c a', String d b' =>
      if char_code c =? char_code d then str_gtb a' b' else char_code d <? char_code c
  end.

(** [l.sort()] *)
Definition sort_strings (l : list string) : list string := js_sort str_gtb l.

(** The elements of a [Set] filled in this order. *)
Definition set_of (l : list string) : list string :=
  foldl (λ s x, if js_some (str_eqb x) s then s else app s [x]) [] l.

(** [l.join(sep)] *)
Definition join (sep : string) (l : list string) : string := String.concat sep l.

Lemma str_gtb_asym a b : str_gtb a b = true → str_gtb b a = false.
Proof.
  revert b. induction a as [|c a IH]; intros [|d b]; simpl; try done.
  rewrite (Z.eqb_sym (char_code d)). destruct (Z.eqb_spec (char_code c) (char_code d)); [apply IH|].
  rewrite Z.ltb_lt, Z.ltb_ge. lia.
Qed.

Lemma str_gtb_trans a b c : str_gtb a b = false → str_gtb b c = false → str_gtb a c = false.
Proof.
  revert b c. induction a as [|x a IH]; intros [|y b] [|z c]; simpl; try done.
  destruct (Z.eqb_spec (char_code x) (char_code y)) as [E1|E1],
    (Z.eqb_spec (char_code y) (char_code z)) as [E2|E2],
    (Z.eqb_spec (char_code x) (char_code z)) as [E3|E3]; rewrite ?Z.ltb_ge; intros;
    try lia; by eapply IH.
Qed.

Lemma sort_strings_sorted l : StronglySorted (λ a b, str_gtb a b = false) (sort_strings l).
Proof.
  apply (js_sort_sorted _ (λ _, True)); [| |by apply Forall_forall].
  - intros ????. apply str_gtb_asym.
  - intros ??????. apply str_gtb_trans.
Qed.

Lemma elem_of_set_of x l : x ∈ set_of l ↔ x ∈ l.
Proof.
  unfold set_of. assert (∀ s, x ∈ foldl (λ s x, if js_some (str_eqb x) s then s else app s [x]) s l
    ↔ x ∈ s ∨ x ∈ l) as H.
  { induction l as [|y l IH]; intros s; simpl; [set_solver|]. rewrite IH.
    destruct (js_some (str_eqb y) s) eqn:E; [|set_solver].
    apply js_some_true in E as (z & Hz & ->%str_eqb_true). set_solver. }
  rewrite H. set_solver.
Qed.

Lemma set_of_NoDup l : NoDup (set_of l).
Proof.
  unfold set_of. assert (∀ s, NoDup s →
    NoDup (foldl (λ s x, if js_some (str_eqb x) s then s else app s [x]) s l)) as H; [|apply H, NoDup_nil_2].
  induction l as [|y l IH]; intros s Hs; simpl; [done|]. apply IH.
  destruct (js_some (str_eqb y) s) eqn:E; [done|]. apply NoDup_app. split_and!; [done| |apply NoDup_singleton].
  intros z Hz ->%list_elem_of_singleton. rewrite js_some_false in E. specialize (E y Hz).
  by rewrite str_eqb_refl in E.
Qed.

Lemma str_all_app p s1 s2 : str_all p (s1 +:+ s2) = str_all p s1 && str_all p s2.
Proof.
  induction s1 as [|c s1 IH]; [done|].
  change (p c && str_all p (s1 +:+ s2) = p c && str_all p s1 && str_all p s2). by rewrite IH, andb_assoc.
Qed.

Lemma startsWith_app p s : startsWith p (p +:+ s) = true.
Proof. induction p as [|a p IH]; simpl; [done|]. by rewrite Ascii.eqb_refl. Qed.

Lemma split_on_join c s1 s2 :
  str_all (λ a, negb (Ascii.eqb a c)) s1 = true →
  split_on c (s1 +:+ String c s2) = s1 :: split_on c s2.
Proof.
  induction s1 as [|a s1 IH]; simpl; [by rewrite Ascii.eqb_refl|].
  rewrite andb_true_iff, negb_true_iff. intros [Ha Hs]. rewrite Ha. by rewrite IH.
Qed.

Lemma split_on_none c s :
  str_all (λ a, negb (Ascii.eqb a c)) s = true → split_on c s = [s].
Proof.
  induction s as [|a s IH]; simpl; [done|].
  rewrite andb_true_iff, negb_true_iff. intros [Ha Hs]. by rewrite Ha, IH.
Qed.

Lemma str_app_nil_r s : s +:+ "" = s.
Proof. induction s as [|a s IH]; [done|]. change (String a (s +:+ "") = String a s). by rewrite IH. Qed.

Lemma str_app_assoc s1 s2 s3 : (s1 +:+ s2) +:+ s3 = s1 +:+ s2 +:+ s3.
Proof.
  induction s1 as [|a s IH]; [done|].
  change (String a ((s +:+ s2) +:+ s3) = String a (s +:+ s2 +:+ s3)). by rewrite IH.
Qed.

Lemma toLowerCase_idem s : toLowerCase (toLowerCase s) = toLowerCase s.
Proof.
  unfold toLowerCase. induction s as [|c s IH]; simpl; [done|]. f_equal; [|done].
  destruct c as [[] [] [] [] [] [] [] []]; reflexivity.
Qed.

Lemma trimStart_head s : trimStart s = "" ∨ ∃ c t, trimStart s = String c t ∧ is_space c = false.
Proof.
  induction s as [|c s IH]; simpl; [by left|]. destruct (is_space c) eqn:E; [done|]. right. eauto.
Qed.

Lemma trimEnd_head c s : is_space c = false → ∃ t, trimEnd (String c s) = String c t.
Proof. intros Hc. cbn [trimEnd]. destruct (trimEnd s); rewrite ?Hc; eauto. Qed.

Lemma trimEnd_idem s : trimEnd (trimEnd s) = trimEnd s.
Proof.
  induction s as [|c s IH]; cbn [trimEnd]; [done|].
  destruct (trimEnd s) as [|d t] eqn:E; [destruct (is_space c) eqn:Ec; cbn [trimEnd]; by rewrite ?Ec|].
  cbn [trimEnd] in *. by rewrite IH.
Qed.

(** A trimmed text is empty or starts with a character that is not white space. *)
Lemma trim_head s : trim s = "" ∨ ∃ c t, trim s = String c t ∧ is_space c = false.
Proof.
  unfold trim. destruct (trimStart_head s) as [->|(c & t & -> & Hc)]; [by left|].
  destruct (trimEnd_head c t Hc) as [t' ->]. right. eauto.
Qed.

Lemma trim_idem s : trim (trim s) = trim s.
Proof.
  destruct (trim_head s) as [->|(c & t & E & Hc)]; [done|].
  unfold trim at 1. assert (trimStart (trim s) = trim s) as -> by (rewrite E; cbn; by rewrite Hc).
  unfold trim. apply trimEnd_idem.
Qed.

Lemma trimEnd_app s c : is_space c = false → trimEnd (s +:+ String c "") = s +:+ String c "".
Proof.
  intros Hc. induction s as [|d s IH].
  { change (trimEnd (String c "") = String c ""). cbn. by rewrite Hc. }
  change (trimEnd (String d (s +:+ String c "")) = String d (s +:+ String c "")). cbn [trimEnd]. rewrite IH.
  by destruct s.
Qed.

Lemma toLowerCase_app a b : toLowerCase (a +:+ b) = toLowerCase a +:+ toLowerCase b.
Proof.
  unfold toLowerCase. induction a as [|c a IH]; [done|].
  change (String (lower_char c) (str_map lower_char (a +:+ b)) = String (lower_char c) (str_map lower_char a +:+ str_map lower_char b)).
  by rewrite IH.
Qed.

Lemma length_app_str a b : String.length (a +:+ b) = (String.length a + String.length b)%nat.
Proof. induction a as [|c a IH]; [done|]. change (S (String.length (a +:+ b)) = S (String.length a + String.length b)). by rewrite IH. Qed.

Lemma substring_all s : String.substring 0 (String.length s) s = s.
Proof. induction s as [|c s IH]; [done|]. cbn. by rewrite IH. Qed.

Lemma substring_app a b : String.substring (String.length a) (String.length b) (a +:+ b) = b.
Proof.
  induction a as [|c a IH]; [apply substring_all|].
  change (String.substring (String.length a) (String.length b) (a +:+ b) = b). done.
Qed.

Lemma startsWith_refl s : startsWith s s = true.
Proof. pose proof (startsWith_app s "") as H. by rewrite str_app_nil_r in H. Qed.

Lemma includes_refl s : includes s s = true.
Proof.
  destruct s as [|c s]; [done|].
  change (startsWith (String c s) (String c s) || includes (String c s) s = true).
  by rewrite startsWith_refl.
Qed.

(** ** Decimal formatting *)

Fixpoint zeros (n : nat) : string :=
  match n with O => "" | S n' => String "0" (zeros n') end.

(** The decimal digits of [z], padded on the left to [n] characters. *)
Definition digits_padded (n : nat) (z : Z) : string :=
  let d := pretty z in zeros (n - String.length d) +:+ d.

(** The exact value of a finite number as a fraction. *)
Definition frac (m : positive) (e : Z) : Z * Z :=
  if 0 <=? e then (Zpos m * 2 ^ e, 1) else (Zpos m, 2 ^ (- e)).

(** [s * 10^p], correctly rounded, for [s > 0]. *)
Definition of_decimal (s p : Z) : num :=
  if 0 <=? p then binary_normalize 53 1024 (s * 10 ^ p) 0 false
  else let '(mz, ez, lz) := SFdiv_core_binary 53 1024 s 0 (10 ^ (- p)) 0 in
       binary_round_aux 53 1024 false mz ez lz.

(** Is [a / b < 10^n]? *)
Definition below_pow10 (a b n : Z) : bool :=
  if 0 <=? n then a <? 10 ^ n * b else a * 10 ^ (- n) <? b.

(** The [n] with [10^(n-1) <= a / b < 10^n], from an estimate. *)
Definition dec_exponent (a b est : Z) : Z :=
  match js_find (below_pow10 a b) [est - 1; est; est + 1; est + 2] with
  | Some n => n
  | None => est + 3
  end.

(** The integer nearest to [a / b * 10^p]. *)
Definition scaled_round (a b p : Z) : Z :=
  let '(a', b') := if 0 <=? p then (a * 10 ^ p, b) else (a, b * 10 ^ (- p)) in
  (2 * a' + b') / (2 * b').

(** The shortest digit string: the least [k] for which the nearest [k]-digit
    decimal rounds back to the number. *)
Fixpoint shortest (fuel : nat) (x : num) (a b n k : Z) : Z * Z :=
  let s := scaled_round a b (k - n) in
  match fuel with
  | O => (s, k)
  | S fuel' => if SFeqb (of_decimal s (n - k)) x then (s, k) else shortest fuel' x a b n (k + 1)
  end.

Definition format_digits (ds : string) (n : Z) : string :=
  let k := Z.of_nat (String.length ds) in
  if (k <=? n) && (n <=? 21) then ds +:+ zeros (Z.to_nat (n - k))
  else if (0 <? n) && (n <=? 21) then
    String.substring 0 (Z.to_nat n) ds +:+ "." +:+ String.substring (Z.to_nat n) (Z.to_nat k) ds
  else if (-6 <? n) && (n <=? 0) then "0." +:+ zeros (Z.to_nat (- n)) +:+ ds
  else
    let ex := (if 0 <=? n - 1 then "+" else "-") +:+ pretty (Z.abs (n - 1)) in
    if k =? 1 then ds +:+ "e" +:+ ex
    else String.substring 0 1 ds +:+ "." +:+ String.substring 1 (Z.to_nat k) ds +:+ "e" +:+ ex.

Fixpoint strip_zeros (fuel : nat) (s : Z) : Z :=
  match fuel with
  | O => s
  | S fuel' => if s mod 10 =? 0 then strip_zeros fuel' (s / 10) else s
  end.

Definition pos_to_string (m : positive) (e : Z) : string :=
  let '(a, b) := frac m e in
  let est := (Zpos (digits2_pos m) + e - 1) * 30103 / 100000 in
  let n := dec_exponent a b est in
  let '(s, k) := shortest 17 (S754_finite false m e) a b n 1 in
  if 10 ^ k <=? s then format_digits (pretty (strip_zeros 18 s)) (n + 1)
  else format_digits (pretty s) n.

(** [`${x}`] *)
Definition num_to_string (x : num) : string :=
  match x with
  | S754_nan => "NaN"
  | S754_zero _ => "0"
  | S754_infinity s => (if s then "-" else "") +:+ "Infinity"
  | S754_finite s m e => (if s then "-" else "") +:+ pos_to_string m e
  end.

(** [x.toFixed(f)]: the integer nearest to [x * 10^f], a tie going away from
    zero, with the decimal point put back; [1e21] and above print as [`${x}`]. *)
Definition to_fixed_pos (f : nat) (m : positive) (e : Z) : string :=
  let '(a, b) := frac m e in
  if 10 ^ 21 * b <=? a then pos_to_string m e
  else
    let n := (2 * (a * 10 ^ Z.of_nat f) + b) / (2 * b) in
    let ds := digits_padded (S f) n in
    let k := (String.length ds - f)%nat in
    match f with
    | O => ds
    | _ => String.substring 0 k ds +:+ "." +:+ String.substring k f ds
    end.

Definition to_fixed (f : nat) (x : num) : string :=
  match x with
  | S754_nan => "NaN"
  | S754_infinity s => (if s then "-" else "") +:+ "Infinity"
  | S754_zero _ => match f with O => "0" | _ => "0." +:+ zeros f end
  | S754_finite s m e => (if s then "-" else "") +:+ to_fixed_pos f m e
  end.

(** [parseFloat(s)]: the longest prefix, after white space, that is a decimal literal or
    [Infinity]; NaN when there is none. *)
Fixpoint span (p : ascii → bool) (s : string) : string * string :=
  match s with
  | String c s' => if p c then let '(a, b) := span p s' in (String c a, b) else (EmptyString, s)
  | EmptyString => (EmptyString, EmptyString)
  end.

Lemma span_app (p : ascii → bool) a c b : str_all p a = true → p c = false → span p (a +:+ String c b) = (a, String c b).
Proof.
  intros Ha Hc. induction a as [|x a IH]; cbn in Ha.
  - change (span p (String c b) = ("", String c b)). cbn. by rewrite Hc.
  - apply andb_true_iff in Ha as [Hx Ha].
    change (span p (String x (a +:+ String c b)) = (String x a, String c b)). cbn. by rewrite Hx, IH.
Qed.

Definition digits_value (ds : string) : Z := default 0 (index_value 0 ds).

(** [m * 10^p] with a sign. *)
Definition signed_decimal (neg : bool) (m p : Z) : num :=
  let v := if m =? 0 then nzero else of_decimal m p in
  if neg then SFopp v else v.

(** The exponent part: [e] or [E], an optional sign and digits, or nothing. *)
Definition exponent_part (s : string) : Z :=
  match s with
  | String c s1 =>
      if (char_code c =? 101) || (char_code c =? 69) then
        let '(sg, s2) := match s1 with
          | String "-" t => (-1, t)
          | String "+" t => (1, t)
          | _ => (1, s1)
          end in
        sg * digits_value (span is_digit s2).1
      else 0
  | EmptyString => 0
  end.

Definition parseFloat (str : string) : num :=
  let s := trimStart str in
  let '(neg, s1) := match s with
    | String "-" t => (true, t)
    | String "+" t => (false, t)
    | _ => (false, s)
    end in
  if startsWith "Infinity" s1 then S754_infinity neg
  else
    let '(ip, s2) := span is_digit s1 in
    let '(fp, s3) := match s2 with String "." t => span is_digit t | _ => (EmptyString, s2) end in
    let ds := ip +:+ fp in
    if str_eqb ds "" then S754_nan
    else signed_decimal neg (digits_value ds) (exponent_part s3 - Z.of_nat (String.length fp)).

Example parseFloat_examples :
  parseFloat " 0.5KC" = lit 5 1 ∧ parseFloat "1e3" = of_Z 1000 ∧ parseFloat "-.25" = SFopp (lit 25 2) ∧
  parseFloat "abc" = S754_nan ∧ parseFloat "12.x" = of_Z 12.
Proof. vm_compute. done. Qed.

(** ** Texts whose characters all have a property *)

Lemma str_all_impl (p q : ascii → bool) s : (∀ c, p c = true → q c = true) → str_all p s = true → str_all q s = true.
Proof.
  intros Hpq. induction s as [|c s IH]; [done|]. intros H. apply andb_true_iff in H as [Hc Hs].
  change (q c && str_all q s = true). by rewrite (Hpq _ Hc), IH.
Qed.

Section AllChars.
Context (p : ascii → bool).

Lemma all_cons c s : str_all p (String c s) = true → p c = true ∧ str_all p s = true.
Proof. apply andb_true_iff. Qed.

Lemma all_trimStart s : str_all p s = true → str_all p (trimStart s) = true.
Proof.
  induction s as [|c s IH]; [done|]. intros H. pose proof (all_cons _ _ H) as [_ Hs].
  cbn. destruct (is_space c); [by apply IH|exact H].
Qed.
Lemma all_trimEnd s : str_all p s = true → str_all p (trimEnd s) = true.
Proof.
  induction s as [|c s IH]; [done|]. intros H. apply all_cons in H as [Hc Hs].
  specialize (IH Hs). cbn. destruct (trimEnd s) as [|d t].
  - destruct (is_space c); [done|]. cbn. by rewrite Hc.
  - change (p c && str_all p (String d t) = true). by rewrite Hc.
Qed.
Lemma all_substring n m s : str_all p s = true → str_all p (String.substring n m s) = true.
Proof.
  revert n m. induction s as [|c s IH]; intros [|n] [|m] H; try done;
    apply all_cons in H as [Hc Hs]; cbn; [by rewrite Hc, IH|by apply IH..].
Qed.
Lemma all_span q s : str_all p s = true → str_all p (span q s).1 = true.
Proof.
  induction s as [|c s IH]; [done|]. intros H. apply all_cons in H as [Hc Hs]. specialize (IH Hs).
  cbn. destruct (q c); [|done]. destruct (span q s) as [a b]. cbn in *. by rewrite Hc.
Qed.

Lemma all_zeros n : p "0" = true → str_all p (zeros n) = true.
Proof. intros H. induction n as [|n IH]; [done|]. cbn. by rewrite H. Qed.
End AllChars.

Definition not_char (a : ascii) (c : ascii) : bool := negb (Ascii.eqb c a).

Lemma split_join c l : l ≠ [] → Forall (λ s, str_all (not_char c) s = true) l →
  split_on c (join (String c "") l) = l.
Proof.
  induction l as [|s l IH]; [done|]. intros _ Hl. inversion Hl as [|?? Hs Hl']; subst.
  destruct l as [|s' l]; [by apply split_on_none|].
  change (join (String c "") (s :: s' :: l)) with (s +:+ String c (join (String c "") (s' :: l))).
  rewrite split_on_join by done. by rewrite IH.
Qed.

Lemma pretty_char_digit x : (x < 10)%N → is_digit (pretty_N_char x) = true.
Proof. intros H. destruct x as [|p]; [done|]. do 4 (destruct p; try done). Qed.

Lemma pretty_go_step z s : 0 < z →
  ∃ c, is_digit c = true ∧ pretty_N_go (Z.to_N z) s = pretty_N_go (Z.to_N (z / 10)) (String c s).
Proof.
  intros Hz. exists (pretty_N_char (Z.to_N z mod 10)). split; [apply pretty_char_digit, N.mod_lt; done|].
  rewrite pretty_N_go_step by lia. f_equal. rewrite Z2N.inj_div by lia. done.
Qed.

Lemma pretty_nonneg z : 0 < z → pretty z = pretty_N_go (Z.to_N z) "".
Proof. by destruct z. Qed.

Lemma pretty_go_digits z s : 0 <= z → str_all is_digit s = true → str_all is_digit (pretty_N_go (Z.to_N z) s) = true.
Proof.
  intros Hz. revert s. induction (Z.lt_wf 0 z) as [z _ IH]. intros s Hs. destruct (decide (z = 0)) as [->|Hne]; [done|].
  destruct (pretty_go_step z s) as (c & Hc & ->); [lia|]. apply IH; [Z.to_euclidean_division_equations; lia..|].
  change (is_digit c && str_all is_digit s = true). by rewrite Hc.
Qed.

Lemma pretty_all_digits z : 0 <= z → str_all is_digit (pretty z) = true.
Proof.
  intros Hz. destruct (decide (z = 0)) as [->|Hne]; [done|]. rewrite pretty_nonneg by lia. by apply pretty_go_digits.
Qed.

(** The characters of a printed number. *)
Definition number_char (c : ascii) : bool :=
  is_digit c || existsb (Ascii.eqb c) ["-"; "+"; "."; "e"; "N"; "a"; "I"; "n"; "f"; "i"; "t"; "y"]%char.

Lemma digit_number c : is_digit c = true → number_char c = true.
Proof. unfold number_char. by intros ->. Qed.

Lemma digits_number s : str_all is_digit s = true → str_all number_char s = true.
Proof. apply str_all_impl, digit_number. Qed.

Lemma pretty_number z : 0 <= z → str_all number_char (pretty z) = true.
Proof. intros H. by apply digits_number, pretty_all_digits. Qed.

Lemma digits_padded_number n z : 0 <= z → str_all number_char (digits_padded n z) = true.
Proof. intros H. unfold digits_padded. by rewrite str_all_app, all_zeros, pretty_number. Qed.

Lemma format_number ds n : str_all number_char ds = true → str_all number_char (format_digits ds n) = true.
Proof.
  intros H. unfold format_digits. repeat case_match; rewrite ?str_all_app, ?H, ?all_zeros, ?all_substring, ?pretty_number by done || lia; done.
Qed.

Lemma strip_zeros_nonneg n s : 0 <= s → 0 <= strip_zeros n s.
Proof. revert s. induction n as [|n IH]; intros s H; [done|]. cbn. case_match; [|done]. apply IH. apply Z.div_pos; lia. Qed.

Lemma scaled_round_nonneg a b p : 0 <= a → 0 < b → 0 <= scaled_round a b p.
Proof.
  intros Ha Hb. unfold scaled_round. destruct (0 <=? p) eqn:E.
  - apply Z.leb_le in E. pose proof (Z.pow_nonneg 10 p ltac:(lia)). apply Z.div_pos; nia.
  - apply Z.leb_gt in E. pose proof (Z.pow_pos_nonneg 10 (- p) ltac:(lia) ltac:(lia)). apply Z.div_pos; nia.
Qed.

Lemma shortest_nonneg fuel x a b n k : 0 <= a → 0 < b → 0 <= (shortest fuel x a b n k).1.
Proof.
  intros Ha Hb. revert k. induction fuel as [|fuel IH]; intros k; cbn; [by apply scaled_round_nonneg|].
  case_match; [by apply scaled_round_nonneg|apply IH].
Qed.

Lemma frac_pos m e : 0 < (frac m e).1 ∧ 0 < (frac m e).2.
Proof. unfold frac. destruct (Z.leb_spec 0 e); cbn; [pose proof (Z.pow_pos_nonneg 2 e); lia|pose proof (Z.pow_pos_nonneg 2 (- e)); lia]. Qed.

Lemma pos_to_string_number m e : str_all number_char (pos_to_string m e) = true.
Proof.
  unfold pos_to_string. pose proof (frac_pos m e) as [Ha Hb]. destruct (frac m e) as [a b]. cbn [fst snd] in *.
  pose proof (shortest_nonneg 17 (S754_finite false m e) a b (dec_exponent a b ((Zpos (digits2_pos m) + e - 1) * 30103 / 100000)) 1 ltac:(lia) Hb) as Hs.
  destruct (shortest _ _ _ _ _ _) as [s k]. cbn [fst] in Hs.
  destruct (_ <=? _); [by apply format_number, pretty_number, strip_zeros_nonneg|by apply format_number, pretty_number].
Qed.

Lemma sign_number (s : bool) t : str_all number_char t = true → str_all number_char ((if s then "-" else "") +:+ t) = true.
Proof. intros H. rewrite str_all_app, H. by destruct s. Qed.

(** [`${x}`] and [x.toFixed(f)] are made of these characters. *)
Lemma num_to_string_number x : str_all number_char (num_to_string x) = true.
Proof. destruct x as [s|s| |s m e]; try done; [by destruct s|]. apply sign_number, pos_to_string_number. Qed.

Lemma to_fixed_number f x : str_all number_char (to_fixed f x) = true.
Proof.
  destruct x as [s|s| |s m e]; [|by destruct s|done|].
  - cbn. destruct f; [done|]. rewrite str_all_app, all_zeros; done.
  - apply sign_number. unfold to_fixed_pos. pose proof (frac_pos m e) as [Ha Hb]. destruct (frac m e) as [a b]. cbn [fst snd] in *.
    case_match; [apply pos_to_string_number|].
    set (n := (2 * (a * 10 ^ Z.of_nat f) + b) / (2 * b)).
    assert (0 <= n) as Hn. { pose proof (Z.pow_pos_nonneg 10 (Z.of_nat f) ltac:(lia) ltac:(lia)). apply Z.div_pos; nia. }
    pose proof (digits_padded_number (S f) n Hn) as Hd. destruct f; [done|]. by rewrite !str_all_app, !all_substring.
Qed.
