(* ===== verification/Bytes.v ===== *)
(** * Bytes, hexadecimal and base64

    Byte arrays are lists of integers from 0 to 255. A string is the sequence of
    its bytes, so [TextEncoder] and [TextDecoder] are the two conversions between
    strings and byte arrays; [btoa] and [atob] follow the HTML specification. *)

From Stdlib Require Import Ascii String.
From S2P Require Import Prelude JsString.

Definition is_byte (b : Z) : Prop := 0 <= b < 256.

Definition char_of (b : Z) : ascii := ascii_of_nat (Z.to_nat b).

Fixpoint bytes_of (s : string) : list Z :=
  match s with
  | EmptyString => []
  | String c s' => char_code c :: bytes_of s'
  end.

Fixpoint string_of (l : list Z) : string :=
  match l with
  | [] => ""
  | b :: l' => String (char_of b) (string_of l')
  end.

Lemma char_code_bound c : is_byte (char_code c).
Proof. unfold is_byte, char_code. pose proof (nat_ascii_bounded c). lia. Qed.

Lemma char_of_code c : char_of (char_code c) = c.
Proof. unfold char_of, char_code. rewrite Nat2Z.id. apply ascii_nat_embedding. Qed.

Lemma char_code_of b : is_byte b → char_code (char_of b) = b.
Proof. unfold is_byte, char_of, char_code. intros. rewrite nat_ascii_embedding; lia. Qed.

Lemma string_of_bytes s : string_of (bytes_of s) = s.
Proof. induction s as [|c s IH]; simpl; [done|]. by rewrite char_of_code, IH. Qed.

Lemma bytes_of_string l : Forall is_byte l → bytes_of (string_of l) = l.
Proof. induction 1 as [|b l Hb _ IH]; simpl; [done|]. by rewrite char_code_of, IH. Qed.

Lemma bytes_of_bound s : Forall is_byte (bytes_of s).
Proof. induction s; simpl; constructor; auto using char_code_bound. Qed.

(** ** Hexadecimal *)

Definition hex_digit (d : Z) : ascii := if d <? 10 then char_of (48 + d) else char_of (87 + d).

(** [b.toString(16).padStart(2, '0')] for a byte. *)
Definition hex2 (b : Z) : string := String (hex_digit (b / 16)) (String (hex_digit (b mod 16)) "").

Fixpoint toHex (l : list Z) : string :=
  match l with
  | [] => ""
  | b :: l' => hex2 b +:+ toHex l'
  end.

Definition hex_value (c : ascii) : option Z :=
  let n := char_code c in
  if (48 <=? n) && (n <=? 57) then Some (n - 48)
  else if (97 <=? n) && (n <=? 102) then Some (n - 87)
  else if (65 <=? n) && (n <=? 70) then Some (n - 55)
  else None.

(** The element that [parseInt(c1 + c2, 16)] becomes in a [Uint8Array]: a leading
    space or sign is allowed, parsing stops at the first character that is not a
    digit, and NaN becomes 0. *)
Definition parse_pair (c1 c2 : ascii) : Z :=
  match hex_value c1, hex_value c2 with
  | Some a, Some b => 16 * a + b
  | Some a, None => a
  | None, Some b =>
      if is_space c1 || (char_code c1 =? 43) then b
      else if char_code c1 =? 45 then (- b) mod 256
      else 0
  | None, None => 0
  end.

Definition line_end (c : ascii) : bool := (char_code c =? 10) || (char_code c =? 13).

(** [s.match(/.{2}/g)]: the successive pairs of characters that are not line ends. *)
Fixpoint match_pairs (s : string) : list (ascii * ascii) :=
  match s with
  | String c1 ((String c2 s') as s1) =>
      if line_end c1 || line_end c2 then match_pairs s1 else (c1, c2) :: match_pairs s'
  | _ => []
  end.

(** [Uint8Array.from(s.match(/.{2}/g).map((b) => parseInt(b, 16)))]; the match is
    [null], and [.map] throws, when there is no pair. *)
Definition fromHex (s : string) : option (list Z) :=
  match match_pairs s with
  | [] => None
  | l => Some ((λ p, parse_pair p.1 p.2) <$> l)
  end.

Lemma hex_digit_ok d : 0 <= d < 16 →
  hex_value (hex_digit d) = Some d ∧ line_end (hex_digit d) = false ∧ hex_digit d ≠ ":"%char.
Proof.
  intros Hd.
  assert (forallb (λ n, let d := Z.of_nat n in
    bool_decide (hex_value (hex_digit d) = Some d) && negb (line_end (hex_digit d))
    && bool_decide (hex_digit d ≠ ":"%char)) (seq 0 16) = true) as H by (vm_compute; reflexivity).
  rewrite forallb_forall in H. specialize (H (Z.to_nat d) ltac:(apply in_seq; lia)).
  cbv zeta in H. rewrite Z2Nat.id in H by lia. apply andb_true_iff in H as [H H3].
  apply andb_true_iff in H as [H1 H2]. apply bool_decide_eq_true in H1, H3.
  by apply negb_true_iff in H2.
Qed.

Lemma fromHex_toHex l : Forall is_byte l → l ≠ [] → fromHex (toHex l) = Some l.
Proof.
  intros Hl Hne.
  assert (∀ l, Forall is_byte l →
    (λ p, parse_pair p.1 p.2) <$> match_pairs (toHex l) = l) as H.
  { clear. induction 1 as [|b l Hb _ IH]; [done|]. unfold is_byte in Hb.
    destruct (hex_digit_ok (b / 16)) as (E1 & L1 & _);
      [split; [apply Z.div_pos; lia|apply Z.div_lt_upper_bound; lia]|].
    destruct (hex_digit_ok (b mod 16)) as (E2 & L2 & _); [apply Z.mod_pos_bound; lia|].
    simpl. rewrite L1, L2. csimpl. change ("" +:+ toHex l) with (toHex l). rewrite IH. f_equal.
    unfold parse_pair. rewrite E1, E2. symmetry. apply Z.div_mod. lia. }
  unfold fromHex. specialize (H l Hl). destruct (match_pairs (toHex l)); [by destruct l|]. by rewrite H.
Qed.

Lemma toHex_inj l1 l2 : Forall is_byte l1 → Forall is_byte l2 → toHex l1 = toHex l2 → l1 = l2.
Proof.
  intros H1 H2 E. destruct l1 as [|b1 l1], l2 as [|b2 l2]; try done.
  assert (Some (b1 :: l1) = Some (b2 :: l2)) as [= -> ->]; [|done].
  rewrite <- (fromHex_toHex (b1 :: l1)), <- (fromHex_toHex (b2 :: l2)) by done. by rewrite E.
Qed.

Lemma toHex_no_colon l : Forall is_byte l → str_all (λ c, negb (Ascii.eqb c ":")) (toHex l) = true.
Proof.
  induction 1 as [|b l Hb _ IH]; [done|]. unfold is_byte in Hb. simpl.
  destruct (hex_digit_ok (b / 16)) as (_ & _ & N1);
    [split; [apply Z.div_pos; lia|apply Z.div_lt_upper_bound; lia]|].
  destruct (hex_digit_ok (b mod 16)) as (_ & _ & N2); [apply Z.mod_pos_bound; lia|].
  apply Ascii.eqb_neq in N1, N2. rewrite N1, N2. exact IH.
Qed.

(** ** Base64 *)

Definition sextet_char (v : Z) : ascii :=
  if v <? 26 then char_of (65 + v)
  else if v <? 52 then char_of (71 + v)
  else if v <? 62 then char_of (v - 4)
  else if v =? 62 then "+"%char else "/"%char.

Definition sextet_value (c : ascii) : option Z :=
  let n := char_code c in
  if (65 <=? n) && (n <=? 90) then Some (n - 65)
  else if (97 <=? n) && (n <=? 122) then Some (n - 71)
  else if (48 <=? n) && (n <=? 57) then Some (n + 4)
  else if n =? 43 then Some 62
  else if n =? 47 then Some 63
  else None.

(** [btoa(String.fromCharCode(...l))] *)
Fixpoint btoa (l : list Z) : string :=
  match l with
  | x :: y :: z :: l' =>
      String (sextet_char (x / 4)) (String (sextet_char ((x mod 4) * 16 + y / 16))
        (String (sextet_char ((y mod 16) * 4 + z / 64)) (String (sextet_char (z mod 64)) (btoa l'))))
  | [x; y] =>
      String (sextet_char (x / 4)) (String (sextet_char ((x mod 4) * 16 + y / 16))
        (String (sextet_char ((y mod 16) * 4)) "="))
  | [x] => String (sextet_char (x / 4)) (String (sextet_char ((x mod 4) * 16)) "==")
  | [] => ""
  end.

Definition strip_space (s : string) : string :=
  string_of (js_filter (λ b, negb ((b =? 9) || (b =? 10) || (b =? 12) || (b =? 13) || (b =? 32))) (bytes_of s)).

(** Removing one or two trailing [=] of a text whose length is a multiple of four. *)
Definition strip_padding (l : list ascii) : list ascii :=
  if (length l mod 4 =? 0)%nat then
    match rev l with
    | "="%char :: "="%char :: r => rev r
    | "="%char :: r => rev r
    | _ => l
    end
  else l.

Fixpoint sextets (l : list ascii) : option (list Z) :=
  match l with
  | [] => Some []
  | c :: l' => v ← sextet_value c; vs ← sextets l'; Some (v :: vs)
  end.

Fixpoint unsextets (l : list Z) : option (list Z) :=
  match l with
  | a :: b :: c :: d :: l' =>
      r ← unsextets l';
      Some (a * 4 + b / 16 :: (b mod 16) * 16 + c / 4 :: (c mod 4) * 64 + d :: r)
  | [a; b; c] => Some [a * 4 + b / 16; (b mod 16) * 16 + c / 4]
  | [a; b] => Some [a * 4 + b / 16]
  | [_] => None
  | [] => Some []
  end.

(** The bytes of [atob(s)]; [None] when it throws. *)
Definition atob (s : string) : option (list Z) :=
  vs ← sextets (strip_padding (list_ascii_of_string (strip_space s)));
  unsextets vs.

Lemma sextet_ok v : 0 <= v < 64 →
  sextet_value (sextet_char v) = Some v ∧ sextet_char v ≠ "="%char ∧
  negb (let b := char_code (sextet_char v) in
        (b =? 9) || (b =? 10) || (b =? 12) || (b =? 13) || (b =? 32)) = true.
Proof.
  intros Hv.
  assert (forallb (λ n, let v := Z.of_nat n in
    bool_decide (sextet_value (sextet_char v) = Some v) && bool_decide (sextet_char v ≠ "="%char)
    && negb (let b := char_code (sextet_char v) in
        (b =? 9) || (b =? 10) || (b =? 12) || (b =? 13) || (b =? 32))) (seq 0 64) = true)
    as H by (vm_compute; reflexivity).
  rewrite forallb_forall in H. specialize (H (Z.to_nat v) ltac:(apply in_seq; lia)).
  cbv zeta in H |- *. rewrite Z2Nat.id in H by lia. apply andb_true_iff in H as [H H3].
  apply andb_true_iff in H as [H1 H2]. by apply bool_decide_eq_true in H1, H2.
Qed.

(** The three sextet shapes of one to three bytes. *)
Definition group3 (x y z : Z) : list Z :=
  [x / 4; (x mod 4) * 16 + y / 16; (y mod 16) * 4 + z / 64; z mod 64].
Definition group2 (x y : Z) : list Z := [x / 4; (x mod 4) * 16 + y / 16; (y mod 16) * 4].
Definition group1 (x : Z) : list Z := [x / 4; (x mod 4) * 16].

Definition is_sextet (v : Z) : Prop := 0 <= v < 64.

Lemma group_bounds x y z : is_byte x → is_byte y → is_byte z →
  Forall is_sextet (group3 x y z) ∧ Forall is_sextet (group2 x y) ∧ Forall is_sextet (group1 x).
Proof.
  unfold is_byte, is_sextet, group3, group2, group1. intros Hx Hy Hz.
  split_and!; repeat constructor; Z.div_mod_to_equations; lia.
Qed.

(** The sextets of a byte array and its padding. *)
Fixpoint groups (l : list Z) : list Z :=
  match l with
  | x :: y :: z :: l' => group3 x y z ++ groups l'
  | [x; y] => group2 x y
  | [x] => group1 x
  | [] => []
  end.

Lemma three_ind (P : list Z → Prop) :
  P [] → (∀ x, P [x]) → (∀ x y, P [x; y]) → (∀ x y z l, P l → P (x :: y :: z :: l)) → ∀ l, P l.
Proof.
  intros H0 H1 H2 H3.
  assert (∀ n l, (length l <= n)%nat → P l) as H; [|intros l; by apply (H (length l))].
  induction n as [|n IH]; intros [|x [|y [|z l]]] Hl; simpl in Hl; try done; try lia.
  apply H3, IH. lia.
Qed.

Definition padding (l : list Z) : list ascii :=
  match (length l mod 3)%nat with 1%nat => ["="; "="]%char | 2%nat => ["="]%char | _ => [] end.

Lemma padding_cons3 x y z l : padding (x :: y :: z :: l) = padding l.
Proof.
  unfold padding. replace (length (x :: y :: z :: l)) with (length l + 1 * 3)%nat by (simpl; lia).
  by rewrite Nat.Div0.mod_add.
Qed.

Lemma btoa_groups l : list_ascii_of_string (btoa l) = (sextet_char <$> groups l) ++ padding l.
Proof.
  induction l as [|x|x y|x y z l IH] using three_ind; [done..|].
  rewrite padding_cons3. cbn [btoa groups list_ascii_of_string]. rewrite IH. done.
Qed.

Lemma groups_bound l : Forall is_byte l → Forall is_sextet (groups l).
Proof.
  induction l as [|x|x y|x y z l IH] using three_ind; intros Hl; [constructor|..].
  - inversion Hl; subst. by apply (group_bounds x x x).
  - inversion Hl as [|?? Hx Hl']; inversion Hl'; subst. by apply (group_bounds x y y).
  - inversion Hl as [|?? Hx Hl1]; inversion Hl1 as [|?? Hy Hl2]; inversion Hl2; subst.
    cbn [groups]. apply Forall_app. split; [by apply (group_bounds x y z)|auto].
Qed.

Lemma unsextets_groups l : Forall is_byte l → unsextets (groups l) = Some l.
Proof.
  unfold is_byte. induction l as [|x|x y|x y z l IH] using three_ind; intros Hl; [done|..].
  - inversion Hl; subst. cbn. repeat f_equal. Z.div_mod_to_equations; lia.
  - inversion Hl as [|?? Hx Hl']; inversion Hl'; subst. cbn.
    repeat f_equal; Z.div_mod_to_equations; lia.
  - inversion Hl as [|?? Hx Hl1]; inversion Hl1 as [|?? Hy Hl2]; inversion Hl2; subst.
    cbn [groups group3 app unsextets]. rewrite IH by done. cbn.
    repeat f_equal; Z.div_mod_to_equations; lia.
Qed.

Lemma sextets_chars g : Forall is_sextet g → sextets (sextet_char <$> g) = Some g.
Proof.
  induction 1 as [|v g Hv _ IH]; csimpl; [done|].
  rewrite (proj1 (sextet_ok v Hv)), IH. done.
Qed.

Lemma groups_length l : ((length (groups l) + length (padding l)) mod 4 = 0)%nat.
Proof.
  induction l as [|x|x y|x y z l IH] using three_ind; [done..|].
  rewrite padding_cons3. cbn [groups group3 app length].
  replace (S (S (S (S (length (groups l))))) + length (padding l))%nat
    with (length (groups l) + length (padding l) + 1 * 4)%nat by lia.
  by rewrite Nat.Div0.mod_add.
Qed.

Lemma strip_padding_groups l : Forall is_byte l →
  strip_padding ((sextet_char <$> groups l) ++ padding l) = sextet_char <$> groups l.
Proof.
  intros Hl. pose proof (groups_bound l Hl) as Hg. unfold strip_padding.
  rewrite length_app, length_fmap, groups_length. cbn [Nat.eqb]. rewrite rev_app_distr.
  assert (padding l = [] ∨ padding l = ["="]%char ∨ padding l = ["="; "="]%char) as Hp.
  { unfold padding. destruct (length l mod 3)%nat as [|[|[|]]]; auto. }
  assert (∀ c r, rev (sextet_char <$> groups l) = c :: r → c ≠ "="%char) as Hlast.
  { intros c r E. assert (c ∈ (sextet_char <$> groups l)) as (v & -> & Hv)%list_elem_of_fmap.
    { apply list_elem_of_In, in_rev. rewrite E. by left. }
    rewrite Forall_forall in Hg. by apply sextet_ok, Hg. }
  pose proof (rev_involutive (sextet_char <$> groups l)) as HA.
  destruct (rev (sextet_char <$> groups l)) as [|c r] eqn:E.
  - rewrite <- HA. destruct Hp as [-> | [-> | ->]]; done.
  - specialize (Hlast c r eq_refl). rewrite <- HA. clear HA E.
    destruct Hp as [-> | [-> | ->]]; cbn [rev app];
      destruct c as [[] [] [] [] [] [] [] []]; try done; apply app_nil_r.
Qed.

Lemma strip_space_id s :
  (∀ c, c ∈ list_ascii_of_string s → let b := char_code c in
     negb ((b =? 9) || (b =? 10) || (b =? 12) || (b =? 13) || (b =? 32)) = true) →
  strip_space s = s.
Proof.
  intros H. unfold strip_space. rewrite js_filter_all; [apply string_of_bytes|].
  intros b Hb. assert (∃ c, c ∈ list_ascii_of_string s ∧ b = char_code c) as (c & Hc & ->).
  { clear H. induction s as [|c s IH]; simpl in *; [by apply elem_of_nil in Hb|].
    apply elem_of_cons in Hb as [->|Hb]; [exists c; split; [by left|done]|].
    destruct (IH Hb) as (c' & ? & ->). exists c'. split; [by right|done]. }
  by apply H.
Qed.

Lemma atob_btoa l : Forall is_byte l → atob (btoa l) = Some l.
Proof.
  intros Hl. unfold atob. rewrite strip_space_id.
  - rewrite btoa_groups, strip_padding_groups by done.
    rewrite sextets_chars by (by apply groups_bound). cbn. by apply unsextets_groups.
  - intros c. rewrite btoa_groups, elem_of_app. intros [(v & -> & Hv)%list_elem_of_fmap|Hc].
    + pose proof (groups_bound l Hl) as Hg. rewrite Forall_forall in Hg. by apply sextet_ok, Hg.
    + unfold padding in Hc. destruct (length l mod 3)%nat as [|[|[|]]]; set_unfold;
        destruct_or?; subst; done.
Qed.

(** ** Comparing texts without stopping at the first difference *)

Lemma lxor_fold_zero d l :
  0 <= d → Forall (λ p, 0 <= p.1 ∧ 0 <= p.2) l →
  (foldl (λ diff (p : Z * Z), Z.lor diff (Z.lxor p.1 p.2)) d l = 0 ↔ d = 0 ∧ Forall (λ p, p.1 = p.2) l).
Proof.
  revert d. induction l as [|[a b] l IH]; intros d Hd Hl; simpl; [naive_solver|].
  inversion Hl as [|?? [Ha Hb] Hl']; subst. simpl in *. rewrite IH; [|apply Z.lor_nonneg; split; [done|apply Z.lxor_nonneg; lia]|done].
  rewrite Z.lor_eq_0_iff, Z.lxor_eq_0_iff, Forall_cons. simpl. naive_solver.
Qed.

Lemma zip_eq (l1 l2 : list Z) :
  length l1 = length l2 → Forall (λ p, p.1 = p.2) (zip l1 l2) → l1 = l2.
Proof.
  revert l2. induction l1 as [|x l1 IH]; intros [|y l2] Hlen H; try done.
  simpl in *. inversion H; simplify_eq/=. f_equal. by apply IH; [lia|].
Qed.

Lemma length_bytes_of s : length (bytes_of s) = String.length s.
Proof. induction s; simpl; [done|]. by f_equal. Qed.

Lemma zip_nonneg (l1 l2 : list Z) :
  Forall is_byte l1 → Forall is_byte l2 → Forall (λ p, 0 <= p.1 ∧ 0 <= p.2) (zip l1 l2).
Proof.
  revert l2. induction l1 as [|x l1 IH]; intros [|y l2] H1 H2; simpl; constructor;
    inversion H1; inversion H2; subst; unfold is_byte in *; simpl; [lia|auto].
Qed.

(** The differences of the codes are collected with or: none is left exactly when the
    texts, of one length, are equal. *)
Lemma xor_compare s1 s2 : String.length s1 = String.length s2 →
  (foldl (λ diff p, Z.lor diff (Z.lxor p.1 p.2)) 0 (zip (bytes_of s2) (bytes_of s1)) =? 0) = str_eqb s2 s1.
Proof.
  intros Hl. pose proof (lxor_fold_zero 0 (zip (bytes_of s2) (bytes_of s1)) ltac:(lia)
    (zip_nonneg _ _ (bytes_of_bound _) (bytes_of_bound _))) as H.
  destruct (str_eqb s2 s1) eqn:E.
  - apply Z.eqb_eq, H. split; [done|]. apply str_eqb_true in E as ->. clear.
    induction (bytes_of s1); simpl; constructor; auto.
  - apply Z.eqb_neq. intros Hz. apply H in Hz as [_ Hz]. apply zip_eq in Hz; [|by rewrite !length_bytes_of].
    apply str_eqb_false in E. apply E. by rewrite <- (string_of_bytes s1), <- (string_of_bytes s2), Hz.
Qed.
