(* ===== verification/Store.v ===== *)
(** * Persisted collections

    Most services keep a [Map] from identifier to object and write its values as a
    JSON array under one [localStorage] key. [Store S V] is that pattern for a
    service state [S] and objects [V]: where the map and the stored text are, and
    the identifier of an object. The loading and saving routines and their lemmas
    are proved once against the interface; each service gives an instance. *)

From S2P Require Import Prelude JsMap.

Class Store (S V : Type) := MkStore {
  key : V → string;
  items : S → jsmap V;
  set_items : jsmap V → S → S;
  stored : S → cell (list V);
  set_stored : cell (list V) → S → S;
}.

Class StoreLaws (S V : Type) `{Store S V} := MkStoreLaws {
  items_set_items : ∀ m (s : S), items (set_items m s) = m;
  items_set_stored : ∀ c (s : S), items (set_stored c s) = items s;
  stored_set_items : ∀ m (s : S), stored (set_items m s) = stored s;
  stored_set_stored : ∀ c (s : S), stored (set_stored c s) = c;
}.

(** [localStorage.setItem(KEY, JSON.stringify(v))] for a value read from the state. *)
Definition write_json {S A} (set : cell A → S → S) (v : S → A) : js (S * Env) () :=
  s ← this;
  ls_setItem (set (Some (TJson (v s)))).

(** [if (!isBrowser()) return; try { m } catch { }] *)
Definition guarded {S} (m : js (S * Env) ()) : js (S * Env) () :=
  b ← is_browser;
  js_when b (js_try m (λ _, mret ())).

(** A use of [localStorage] that is not guarded: a ReferenceError outside the browser. *)
Definition ls_use {S A} (m : js (S * Env) A) : js (S * Env) A :=
  b ← is_browser;
  if b : bool then m else js_throw "localStorage is not defined".

(** What a guarded write leaves. *)
Definition written {S A} (set : cell A → S → S) (v : S → A) (e : Env) (s : S) : S :=
  if browser e && writable e then set (Some (TJson (v s))) s else s.

Lemma guarded_write_run {S A} (set : cell A → S → S) (v : S → A) s e :
  guarded (write_json set v) (s, e) = (Ok (), (written set v e s, e)).
Proof.
  unfold guarded, written. js_run. destruct (browser e); [|done]. cbn [js_when andb].
  unfold js_try, write_json. js_run. unfold ls_setItem. cbn [fst snd]. by destruct (writable e).
Qed.

Lemma guarded_write_bind {S A B} (set : cell A → S → S) (v : S → A) (k : () → js (S * Env) B) w :
  (guarded (write_json set v) ≫= k) w = k () (written set v w.2 w.1, w.2).
Proof. destruct w as [s e]. by rewrite (run_Ok _ _ _ _ _ (guarded_write_run set v s e)). Qed.

Lemma preserves_guarded_write {S A} (I : S → Prop) (set : cell A → S → S) (v : S → A) :
  (∀ c s, I s → I (set c s)) → preserves I (guarded (write_json set v)).
Proof.
  intros HI [s e] Hs. rewrite guarded_write_run. cbn. unfold written.
  by destruct (browser e && writable e); [apply HI|].
Qed.

Section Store.
Context {S V : Type} `{Store S V}.
Implicit Types (s : S) (e : Env).

Definition put_item (v : V) : js (S * Env) () :=
  modify_this (λ s, set_items (map_set (key v) v (items s)) s).

Definition save_items : js (S * Env) () := write_json set_stored (λ s, map_values (items s)).

Definition load_items : js (S * Env) () :=
  s ← this;
  match truthy_cell (stored s) with
  | None => mret ()
  | Some t => l ← JSON_parse t; modify_this (λ s, set_items (map_set_all key (items s) l) s)
  end.

(** Every object is stored under its own identifier. *)
Definition keyed (m : jsmap V) : Prop := map_wf m ∧ map_all (λ k v, key v = k) m.

Lemma keyed_nil : keyed [].
Proof. split; [apply map_wf_nil|apply map_all_nil]. Qed.

Lemma keyed_set v m : keyed m → keyed (map_set (key v) v m).
Proof. intros [??]. split; auto using map_wf_set, map_all_set. Qed.

Lemma keyed_update k f m : (∀ v, key (f v) = key v) → keyed m → keyed (map_update k f m).
Proof.
  intros Hf [??]. split; [by apply map_wf_update|]. apply map_all_update; [|done].
  intros v Hv. by rewrite Hf.
Qed.

Lemma keyed_delete k m : keyed m → keyed (map_delete k m).
Proof. intros [??]. split; auto with jsmap. Qed.

Lemma keyed_set_all l m : keyed m → keyed (map_set_all key m l).
Proof. intros [??]. split; [by apply map_wf_set_all|]. by apply map_all_set_all. Qed.

Lemma keyed_get k v m : keyed m → map_get k m = Some v → key v = k.
Proof. intros [_ Hk] Hg. exact (map_all_get _ _ _ _ Hk Hg). Qed.

Lemma save_items_run s e :
  save_items (s, e) =
  if writable e then (Ok (), (set_stored (Some (TJson (map_values (items s)))) s, e))
  else (Throw "QuotaExceededError", (s, e)).
Proof. unfold save_items, write_json. js_run. js_unfold. by destruct (writable e). Qed.

Definition guarded_result e s : S :=
  if browser e && writable e then set_stored (Some (TJson (map_values (items s)))) s else s.

Lemma guarded_save_run s e : guarded save_items (s, e) = (Ok (), (guarded_result e s, e)).
Proof.
  unfold guarded, guarded_result. js_run. destruct (browser e); [|done]. cbn [js_when andb].
  unfold js_try. rewrite save_items_run. by destruct (writable e).
Qed.

Lemma load_items_run s e l :
  stored s = Some (TJson l) →
  load_items (s, e) = (Ok (), (set_items (map_set_all key (items s) l) s, e)).
Proof. intros Hs. unfold load_items. js_run. by rewrite Hs. Qed.

Lemma load_items_cases s e : ∃ r s',
  load_items (s, e) = (r, (s', e)) ∧
  (s' = s ∨ ∃ l, stored s = Some (TJson l) ∧ s' = set_items (map_set_all key (items s) l) s).
Proof.
  unfold load_items. js_run. destruct (stored s) as [[l|raw]|]; cbn [truthy_cell].
  - eexists _, _. split; [reflexivity|]. right. by exists l.
  - case_bool_decide; eexists _, _; (split; [reflexivity|by left]).
  - eexists _, _. split; [reflexivity|by left].
Qed.

(** Loading what was saved into a service with an empty map gives back the map. *)
Lemma store_roundtrip `{!StoreLaws S V} s s0 e :
  keyed (items s) → items s0 = [] →
  stored s0 = Some (TJson (map_values (items s))) →
  items (load_items (s0, e)).2.1 = items s.
Proof.
  intros [Hwf Hk] H0 Hs. rewrite (load_items_run _ _ _ Hs). cbn.
  rewrite items_set_items, H0. by apply (map_set_all_values key []).
Qed.

(** The state after a successful save. *)
Definition committed s : S := set_stored (Some (TJson (map_values (items s)))) s.

Lemma guarded_save_bind {B} (k : () → js (S * Env) B) s e :
  browser e = true → writable e = true →
  (guarded save_items ≫= k) (s, e) = k () (committed s, e).
Proof.
  intros Hb Hw. rewrite (run_Ok _ _ _ _ _ (guarded_save_run s e)). unfold guarded_result.
  by rewrite Hb, Hw.
Qed.

(** The stored array is the map's values, or nothing when nothing was stored. *)
Definition stored_list s : list V := match stored s with Some (TJson l) => l | _ => [] end.
Definition mirrored s : Prop := keyed (items s) ∧ stored_list s = map_values (items s).

Lemma mirrored_committed `{!StoreLaws S V} s : keyed (items s) → mirrored (committed s).
Proof. unfold committed. intros Hk. unfold mirrored, stored_list. by rewrite items_set_stored, stored_set_stored. Qed.

Lemma mirrored_put `{!StoreLaws S V} s v :
  mirrored s → mirrored (committed (set_items (map_set (key v) v (items s)) s)).
Proof. intros [Hk _]. apply mirrored_committed. rewrite items_set_items. by apply keyed_set. Qed.

Lemma mirrored_delete `{!StoreLaws S V} s k :
  mirrored s → mirrored (committed (set_items (map_delete k (items s)) s)).
Proof. intros [Hk _]. apply mirrored_committed. rewrite items_set_items. by apply keyed_delete. Qed.

Lemma mirrored_update `{!StoreLaws S V} s k f :
  (∀ v, key (f v) = key v) →
  mirrored s → mirrored (committed (set_items (map_update k f (items s)) s)).
Proof. intros Hf [Hk _]. apply mirrored_committed. rewrite items_set_items. by apply keyed_update. Qed.

(** A service constructed over the storage of a mirrored one has its map. *)
Lemma mirrored_reload `{!StoreLaws S V} s s0 e :
  mirrored s → items s0 = [] → stored s0 = stored s → items (load_items (s0, e)).2.1 = items s.
Proof.
  intros [Hk Hl] H0 Hs. unfold stored_list in Hl. destruct (stored s) as [[l|raw]|] eqn:E; subst.
  - apply store_roundtrip; [done..|]. congruence.
  - destruct (load_items_cases s0 e) as (r & s' & -> & [->|(l & Hl' & _)]); [|congruence].
    cbn. rewrite H0. symmetry in Hl. by apply fmap_nil_inv in Hl.
  - destruct (load_items_cases s0 e) as (r & s' & -> & [->|(l & Hl' & _)]); [|congruence].
    cbn. rewrite H0. symmetry in Hl. by apply fmap_nil_inv in Hl.
Qed.

Lemma guarded_load_run s e : browser e = true →
  guarded load_items (s, e) = (Ok (), ((load_items (s, e)).2.1, e)).
Proof.
  intros Hb. unfold guarded. js_run. rewrite Hb. cbn [js_when].
  destruct (load_items_cases s e) as (r & s' & E & _). unfold js_try. rewrite E. by destruct r as [[]|].
Qed.
End Store.

(** Every object of a stored text satisfies [P]. *)
Definition cell_all {V} (P : V → Prop) (c : cell (list V)) : Prop :=
  match c with Some (TJson l) => Forall P l | _ => True end.

Lemma map_all_set_all_list {V} (P : V → Prop) key (m : jsmap V) l :
  map_all (λ _, P) m → Forall P l → map_all (λ _, P) (map_set_all key m l).
Proof.
  unfold map_set_all. revert m. induction l as [|v l IH]; intros m Hm Hl; [done|].
  inversion Hl; subst. apply IH; [|done]. by apply map_all_set.
Qed.

Section StorePreserve.
Context {S V : Type} `{StoreLaws S V} (P : jsmap V → Prop).

Lemma preserves_save_items (I : S → Prop) :
  (∀ c s, I s → I (set_stored c s)) → preserves I save_items.
Proof. intros HI. unfold save_items, write_json. js_preserve. Qed.

Lemma preserves_guarded (I : S → Prop) m : preserves I m → preserves I (guarded m).
Proof. intros HI. unfold guarded. js_preserve. Qed.

Lemma preserves_load_items (I : S → Prop) :
  (∀ l s, I s → I (set_items (map_set_all key (items s) l) s)) → preserves I load_items.
Proof. intros HI. unfold load_items. js_preserve. Qed.
End StorePreserve.

#[export] Hint Resolve preserves_guarded : js.
#[export] Hint Resolve keyed_nil keyed_set keyed_update keyed_delete keyed_set_all : jsmap.
