(* ===== verification/Page.v ===== *)
(** * Pages and hooks (apps/web/wallet/app/hooks)

    What the pages of the wallet are made of: a page's own state beside the services it calls, and
    the hooks useToggle, useLocalStorage, useDebounce and useClipboard. A hook is a state with what
    can happen to it: a rendering with new arguments, a call, a timer that fires. *)

From S2P Require Import Prelude Store.

(** ** A page and its services *)

Record World (P S : Type) := MkWorld { page : P; services : S }.
Arguments MkWorld {P S} page services.
Arguments page {P S} w.
Arguments services {P S} w.

Section Page.
Context {P S : Type}.

Definition get_page : js (World P S * Env) P := λ w, (Ok (page w.1), w).
Definition set_page (f : P → P) : js (World P S * Env) () := λ w, (Ok (), (MkWorld (f (page w.1)) (services w.1), w.2)).

(** A call of a service. *)
Definition service {A} (m : js (S * Env) A) : js (World P S * Env) A := λ w,
  let '(r, (s, e)) := m (services w.1, w.2) in (r, (MkWorld (page w.1) s, e)).

Lemma run_get_page {B} (k : P → js (World P S * Env) B) w : (get_page ≫= k) w = k (page w.1) w.
Proof. done. Qed.
Lemma run_set_page {B} f (k : () → js (World P S * Env) B) w :
  (set_page f ≫= k) w = k () (MkWorld (f (page w.1)) (services w.1), w.2).
Proof. done. Qed.
Lemma run_service {A B} (m : js (S * Env) A) (k : A → js (World P S * Env) B) w r s e :
  m (services w.1, w.2) = (r, (s, e)) →
  (service m ≫= k) w = match r with Ok a => k a (MkWorld (page w.1) s, e) | Throw msg => (Throw msg, (MkWorld (page w.1) s, e)) end.
Proof. unfold mbind, js_bind, service. intros ->. by destruct r. Qed.
Lemma service_run {A} (m : js (S * Env) A) w r s e :
  m (services w.1, w.2) = (r, (s, e)) → service m w = (r, (MkWorld (page w.1) s, e)).
Proof. unfold service. by intros ->. Qed.
Lemma run_service_setItem {B} f (k : () → js (World P S * Env) B) w : (service (ls_setItem f) ≫= k) w =
  if writable w.2 then k () (MkWorld (page w.1) (f (services w.1)), w.2) else (Throw "QuotaExceededError", w).
Proof. destruct w as [[p s] e]. unfold mbind, js_bind, service, ls_setItem. cbn. by destruct (writable e). Qed.
End Page.

(** ** Handlers that return and keep an invariant *)

Section Keeps.
Context {P S : Type} (I : World P S → Prop).

Definition keeps {A} (m : js (World P S * Env) A) : Prop := ∀ w, I w.1 → ∃ a w', m w = (Ok a, w') ∧ I w'.1.

Lemma keeps_ret {A} (a : A) : keeps (mret a).
Proof. intros w H. by exists a, w. Qed.

Lemma keeps_bind {A B} (m : js (World P S * Env) A) (k : A → js (World P S * Env) B) :
  keeps m → (∀ a, keeps (k a)) → keeps (m ≫= k).
Proof. intros Hm Hk w H. destruct (Hm w H) as (a & w1 & E & H1). rewrite (run_Ok _ _ _ _ _ E). by apply Hk. Qed.

Lemma keeps_get {A} (k : P → js (World P S * Env) A) : (∀ p, keeps (k p)) → keeps (get_page ≫= k).
Proof. intros Hk w H. rewrite run_get_page. by apply Hk. Qed.

Lemma keeps_set f : (∀ p s, I (MkWorld p s) → I (MkWorld (f p) s)) → keeps (set_page f).
Proof. intros Hf [[p s] e] H. eexists _, _. split; [reflexivity|]. by apply Hf. Qed.

Lemma keeps_service {A} (m : js (S * Env) A) :
  (∀ p s e, I (MkWorld p s) → ∃ a s' e', m (s, e) = (Ok a, (s', e')) ∧ I (MkWorld p s')) → keeps (service m).
Proof.
  intros Hm [[p s] e] H. destruct (Hm p s e H) as (a & s' & e' & E & H').
  exists a, (MkWorld p s', e'). by rewrite (service_run m (MkWorld p s, e) _ _ _ E).
Qed.

Lemma keeps_when c m : keeps m → keeps (js_when c m).
Proof. intros Hm. destruct c; [exact Hm|apply keeps_ret]. Qed.

Lemma keeps_forEach {A} (f : A → js (World P S * Env) ()) l : (∀ x, keeps (f x)) → keeps (js_forEach f l).
Proof. intros Hf. induction l as [|x l IH]; [apply keeps_ret|]. apply keeps_bind; [done|by intros []]. Qed.

Lemma keeps_mapM {A B} (f : A → js (World P S * Env) B) l : (∀ x, keeps (f x)) → keeps (js_mapM f l).
Proof.
  intros Hf. induction l as [|x l IH]; [apply keeps_ret|]. apply keeps_bind; [done|]. intros y.
  apply keeps_bind; [done|]. intros ys. apply keeps_ret.
Qed.
End Keeps.

(** ** Handlers that may throw *)

Section Preserves.
Context {P S : Type} (I : World P S → Prop).

Lemma preserves_get_page {A} (k : P → js (World P S * Env) A) : (∀ p, preserves I (k p)) → preserves I (get_page ≫= k).
Proof. intros Hk w H. by apply Hk. Qed.

Lemma preserves_set_page f : (∀ p s, I (MkWorld p s) → I (MkWorld (f p) s)) → preserves I (set_page f).
Proof. intros Hf [[p s] e] H. by apply Hf. Qed.

(** A service that reads only. *)
Lemma preserves_reads {A} (m : js (S * Env) A) : (∀ s e, (m (s, e)).2.1 = s) → preserves I (service m).
Proof. intros Hm [[p s] e] H. specialize (Hm s e). unfold service. cbn [fst snd services page] in *. destruct (m (s, e)) as [r [s' e']]. cbn in *. by subst. Qed.

(** Steps one after the other, each left to be shown. *)
Lemma preserves_sets {A} f (m : js (World P S * Env) A) :
  (∀ p s, I (MkWorld p s) → I (MkWorld (f p) s)) → preserves I m → preserves I (set_page f;; m).
Proof. intros Hf Hm. apply preserves_bind; [by apply preserves_set_page|done]. Qed.
End Preserves.

Ltac page_run := repeat (first [rewrite run_get_page | rewrite run_set_page | progress js_run]; cbv beta; cbn [page services fst snd]).

(** ** [useToggle] *)

Module Toggle.
Inductive call := toggle | setTrue | setFalse.

Definition exec (c : call) (value : bool) : bool :=
  match c with toggle => negb value | setTrue => true | setFalse => false end.

(** Whatever was called before, an even number of toggles after the last [setTrue] leaves it on. *)
Theorem toggles_after_set calls v n : foldl (flip exec) v (calls ++ setTrue :: repeat toggle (2 * n)) = true.
Proof.
  rewrite foldl_app. cbn [foldl flip exec]. induction n as [|n IH]; [done|].
  replace (2 * S n)%nat with (S (S (2 * n))) by lia. cbn [repeat foldl flip exec negb]. exact IH.
Qed.
End Toggle.

(** ** [useLocalStorage] *)

Module LocalStorage.
Section Hook.
Context {A : Type}.

Record Stored := MkStored { storedValue : A; ls_item : cell A }.

(** What the first rendering shows. *)
Definition initial (initialValue : A) (item : cell A) (e : Env) : A :=
  if browser e then match truthy_cell item with Some (TJson a) => a | _ => initialValue end else initialValue.

Definition mount (initialValue : A) (item : cell A) (e : Env) : Stored := MkStored (initial initialValue item e) item.

(** [setValue] of a rendering that showed [seen]. *)
Definition setValue (seen : A) (value : A → A) : js (Stored * Env) () :=
  js_try (
    let valueToStore := value seen in
    modify_this (λ s, MkStored valueToStore (ls_item s));;
    b ← is_browser;
    js_when b (ls_setItem (λ s, MkStored (storedValue s) (Some (TJson valueToStore)))))
    (λ _, mret ()).

Lemma setValue_run seen value w : setValue seen value w =
  (Ok (), (MkStored (value seen) (if browser w.2 && writable w.2 then Some (TJson (value seen)) else ls_item w.1), w.2)).
Proof.
  unfold setValue, js_try. js_run. destruct (browser w.2); [|done]. cbn [js_when andb]. unfold ls_setItem. cbn [fst snd].
  by destruct (writable w.2).
Qed.

(** What was set is what the next page shows. *)
Theorem value_survives_reload seen value initialValue w : browser w.2 = true → writable w.2 = true →
  let s := (setValue seen value w).2.1 in initial initialValue (ls_item s) w.2 = storedValue s ∧ storedValue s = value seen.
Proof. intros Hb Hw. rewrite setValue_run. cbn. unfold initial. by rewrite Hb, Hw. Qed.

(** On a full storage the page shows a value that is gone with it. *)
Theorem full_storage_forgets seen value initialValue w : writable w.2 = false →
  let s := (setValue seen value w).2.1 in storedValue s = value seen ∧ initial initialValue (ls_item s) w.2 = initial initialValue (ls_item w.1) w.2.
Proof. intros Hw. rewrite setValue_run. cbn. rewrite Hw. by rewrite andb_false_r. Qed.

(** Two updates of one rendering start from the same value: the first is lost. *)
Theorem second_update_wins seen f g w : ((setValue seen f;; setValue seen g) w).2.1 = (setValue seen g w).2.1.
Proof.
  rewrite (run_Ok _ _ _ _ _ (setValue_run seen f w)), !setValue_run. cbn. by destruct (browser w.2 && writable w.2).
Qed.
End Hook.
Arguments Stored : clear implicits.

Example count_once : storedValue (((setValue 5 (Z.add 1);; setValue 5 (Z.add 1)) (mount 5 None demo_env, demo_env)).2.1) = 6.
Proof. reflexivity. Qed.
End LocalStorage.

(** ** [useDebounce] *)

Module Debounce.
Section Hook.
Context {A : Type} `{EqDecision A}.

(** [waiting]: the value of the timer that is set. *)
Record State := MkState { value : A; debouncedValue : A; waiting : option A }.

Definition mount (v : A) : State := MkState v v (Some v).

Inductive event := Renders (v : A) | Fires.

(** The effect runs again, clearing its timer, when the value changes. *)
Definition exec (ev : event) (s : State) : State :=
  match ev with
  | Renders v => if bool_decide (v = value s) then s else MkState v (debouncedValue s) (Some v)
  | Fires => match waiting s with Some v => MkState (value s) v None | None => s end
  end.

Definition settled (s : State) : Prop := match waiting s with Some v => v = value s | None => debouncedValue s = value s end.

Lemma debounce_exec_settled ev s : settled s → settled (exec ev s).
Proof.
  unfold settled. intros H. destruct ev as [v|]; cbn; [by case_bool_decide|].
  destruct (waiting s) as [w|] eqn:E; cbn; [done|by rewrite E].
Qed.

(** After any history, once the timer fires the last value is shown. *)
Theorem debounce_settles v evs :
  let s := foldl (flip exec) (mount v) (evs ++ [Fires]) in debouncedValue s = value s ∧ waiting s = None.
Proof.
  rewrite foldl_app. cbn. assert (settled (foldl (flip exec) (mount v) evs)) as H.
  { revert v. cut (∀ s, settled s → settled (foldl (flip exec) s evs)); [intros Hs v; by apply Hs|].
    induction evs as [|ev evs IH]; intros s Hs; cbn; [done|]. by apply IH, debounce_exec_settled. }
  unfold settled in H. destruct (foldl _ _ evs) as [x d [w|]]; cbn in *; by subst.
Qed.
End Hook.
Arguments State : clear implicits.
End Debounce.

(** ** [useClipboard] *)

Module Clipboard.
(** The timers that are set, by age. *)
Record State := MkState { isCopied : bool; timers : nat }.

(** [copy]: without a clipboard, refused, or done; each success sets a timer that nothing clears. *)
Inductive event := Unsupported | Refused | Copied | Fires.

Definition exec (ev : event) (s : State) : State :=
  match ev with
  | Unsupported => s
  | Refused => MkState false (timers s)
  | Copied => MkState true (S (timers s))
  | Fires => match timers s with O => s | S n => MkState false n end
  end.

(** Every success is taken back: as many firings as there are timers leave nothing copied. *)
Theorem mark_is_taken_back s n : (isCopied s = true → timers s ≠ 0%nat) → (timers s <= n)%nat →
  isCopied (foldl (flip exec) s (repeat Fires n)) = false.
Proof.
  revert s. induction n as [|n IH]; intros [b t] Hb Hn; cbn in *; [destruct b; [|done]; specialize (Hb eq_refl); lia|].
  apply IH; destruct t as [|t]; cbn in *; [done| |lia|lia]; done.
Qed.

Lemma mark_is_taken_back_witness : isCopied (foldl (flip exec) (MkState true 2) (repeat Fires 2)) = false.
Proof. apply (mark_is_taken_back (MkState true 2) 2); [done|cbn; lia]. Defined.

(** A second copy loses its mark when the timer of the first fires. *)
Example mark_of_second_copy : isCopied (foldl (flip exec) (MkState false 0) [Copied; Copied; Fires]) = false.
Proof. reflexivity. Qed.
End Clipboard.
