(* ===== verification/Stamps.v ===== *)
(** * Identifiers made of a time and a random suffix, and decimal numerals

    Several services name an object [`prefix_${Date.now()}_${random}`].  Two objects get two
    names as long as the random source does not repeat itself; [distinct_stamps] says so of an
    environment, and [unused_stamps] that no name of a map is still to be drawn. *)

From Stdlib Require Import Ascii String.
From stdpp Require Import pretty.
From S2P Require Import Prelude JsMap JsString.

Definition stamp (prefix : string) (t : Z) (r : string) : string := prefix +:+ pretty t +:+ "_" +:+ r.

Definition distinct_stamps (prefix : string) (e : Env) : Prop :=
  ∀ t t' d d', stamp prefix (clock e t) (entropy e d) = stamp prefix (clock e t') (entropy e d') → d = d'.

Definition unused_stamps {V} (prefix : string) (e : Env) (m : jsmap V) : Prop :=
  ∀ t d, (draws e <= d)%nat → map_get (stamp prefix (clock e t) (entropy e d)) m = None.

(** What an environment shares with the one it comes from. *)
Definition later_env (e e' : Env) : Prop :=
  clock e' = clock e ∧ entropy e' = entropy e ∧ browser e' = browser e ∧ writable e' = writable e ∧ (draws e <= draws e')%nat.

Lemma later_env_refl e : later_env e e.
Proof. by repeat split. Qed.
Lemma later_env_trans e1 e2 e3 : later_env e1 e2 → later_env e2 e3 → later_env e1 e3.
Proof. unfold later_env. intros (? & ? & ? & ? & ?) (? & ? & ? & ? & ?). repeat split; congruence || lia. Qed.

Lemma distinct_later prefix e e' : later_env e e' → distinct_stamps prefix e → distinct_stamps prefix e'.
Proof. intros (Hc & He & _). unfold distinct_stamps. by rewrite Hc, He. Qed.

Lemma unused_later {V} prefix e e' (m : jsmap V) : later_env e e' → unused_stamps prefix e m → unused_stamps prefix e' m.
Proof. intros (Hc & He & _ & _ & Hd) H t d Hlt. rewrite Hc, He. apply H. lia. Qed.

Lemma unused_nil {V} prefix e : unused_stamps prefix e ([] : jsmap V).
Proof. by intros t d _. Qed.

Lemma map_set_absent {V} k (v : V) m : map_get k m = None → map_set k v m = (m ++ [(k, v)])%list.
Proof.
  induction m as [|[k' v'] m IH]; [done|]. cbn. destruct (str_eqb k k'); [done|]. intros H. by rewrite IH.
Qed.

Lemma unused_delete {V} prefix e k (m : jsmap V) : unused_stamps prefix e m → unused_stamps prefix e (map_delete k m).
Proof.
  intros H t d Hd. specialize (H t d Hd). destruct (decide (k = stamp prefix (clock e t) (entropy e d))) as [->|Hk].
  - apply map_get_delete_eq.
  - by rewrite map_get_delete_ne.
Qed.

(** After an object was named by the next draw. *)
Lemma unused_next {V} prefix e e' t (m : jsmap V) v : distinct_stamps prefix e → unused_stamps prefix e m →
  later_env e e' → (draws e < draws e')%nat →
  unused_stamps prefix e' (map_set (stamp prefix (clock e t) (entropy e (draws e))) v m).
Proof.
  intros Hid Hu (Hc & He & _) Hd t0 d Hlt. rewrite Hc, He. rewrite map_get_set_ne.
  - apply Hu. lia.
  - intros E. apply Hid in E. lia.
Qed.

(** An environment whose clock stands still and whose random source counts. *)
Definition steady_env : Env := MkEnv (λ _, 1700000000000) (λ n, pretty n) 0 0 0 true true.

Lemma steady_distinct prefix : distinct_stamps prefix steady_env.
Proof.
  intros t t' d d' H. cbn in H. unfold stamp in H.
  apply (inj (String.append prefix)) in H. apply (inj (String.append _)) in H.
  apply (inj (String.append "_")) in H. by apply (inj pretty) in H.
Qed.

(** ** Decimal numerals *)

Lemma pretty_nonempty z : 0 <= z → pretty z ≠ "".
Proof.
  intros Hz. destruct (decide (z = 0)) as [->|Hne]; [done|]. rewrite pretty_nonneg by lia.
  destruct (pretty_go_step z "") as (c & _ & ->); [lia|].
  assert (∀ z s, 0 <= z → s ≠ "" → pretty_N_go (Z.to_N z) s ≠ "") as H; [|apply H; [Z.to_euclidean_division_equations; lia|done]].
  clear. intros z s Hz. revert s. induction (Z.lt_wf 0 z) as [z _ IH]. intros s Hs.
  destruct (decide (z = 0)) as [->|Hne]; [done|]. destruct (pretty_go_step z s) as (c & _ & ->); [lia|].
  apply IH; [Z.to_euclidean_division_equations; lia..|done].
Qed.

(** Reading a numeral gives the number. *)
Lemma pretty_char_value n : (n < 10)%N → Z.of_nat (nat_of_ascii (pretty_N_char n)) - 48 = Z.of_N n.
Proof. intros H. destruct n as [|p]; [done|]. do 4 (destruct p; try done). Qed.

Lemma index_value_char acc n s : (n < 10)%N →
  index_value acc (String (pretty_N_char n) s) = index_value (10 * acc + Z.of_N n) s.
Proof.
  intros H. cbn [index_value]. rewrite pretty_char_value by done.
  by rewrite (proj2 (Z.leb_le 0 _)), (proj2 (Z.leb_le _ 9)) by lia.
Qed.

Lemma pretty_go_value x s acc : ∃ k, 0 <= k ∧
  index_value acc (pretty_N_go x s) = index_value (acc * 10 ^ k + Z.of_N x) s.
Proof.
  revert s acc. induction (N.lt_wf_0 x) as [x _ IH]. intros s acc.
  destruct (decide (x = 0%N)) as [->|Hne].
  { exists 0. split; [done|]. rewrite pretty_N_go_0. f_equal. lia. }
  rewrite pretty_N_go_step by lia.
  destruct (IH (x / 10)%N (N.div_lt x 10 ltac:(lia) ltac:(lia)) (String (pretty_N_char (x mod 10)) s) acc) as (k & Hk & E).
  exists (k + 1). split; [lia|]. rewrite E, index_value_char by (apply N.mod_lt; done). f_equal.
  rewrite N2Z.inj_div, N2Z.inj_mod, Z.pow_add_r by lia. change (Z.of_N 10) with 10.
  pose proof (Z.div_mod (Z.of_N x) 10). lia.
Qed.

Lemma digits_value_pretty z : 0 <= z → digits_value (pretty z) = z.
Proof.
  intros Hz. unfold digits_value. destruct (decide (z = 0)) as [->|Hne]; [done|]. rewrite pretty_nonneg by lia.
  destruct (pretty_go_value (Z.to_N z) "" 0) as (k & _ & ->). cbn. lia.
Qed.
