(* ===== verification/FloatFacts.v ===== *)
(** * Facts about binary64 rounding

    The operations of [JsNumber] give representable numbers, a rounded sum has the
    sign of the exact one, and it is zero only when the exact one is. [valid] says
    that a number is one that a 64-bit double can hold (its mantissa is normalised);
    the order that [SFcompare] computes on fields is the order of the values. *)

From S2P Require Import Prelude JsNumber.

Definition valid (x : num) : bool := valid_binary 53 1024 x.

Definition fx (e : Z) : Z := Z.max (e - 53) (-1074).

Lemma fexp_fx e : fexp 53 1024 e = fx e.
Proof. reflexivity. Qed.

(** ** Digits *)

Lemma digits2_bounds p : 2 ^ (Zpos (digits2_pos p) - 1) <= Zpos p < 2 ^ Zpos (digits2_pos p).
Proof.
  assert (∀ d q : positive, 2 ^ (Zpos d - 1) <= Zpos q < 2 ^ Zpos d →
    2 ^ Zpos d <= 2 * Zpos q ∧ 2 * Zpos q + 1 < 2 * 2 ^ Zpos d) as H.
  { intros d q [H1 H2]. replace (Zpos d) with (Z.succ (Zpos d - 1)) at 1 by lia.
    rewrite Z.pow_succ_r by lia. lia. }
  induction p as [p IH|p IH|]; cbn [digits2_pos]; [..|done];
    apply H in IH as [??]; rewrite Pos2Z.inj_succ, Z.pow_succ_r by lia;
    replace (Z.succ (Zpos (digits2_pos p)) - 1) with (Zpos (digits2_pos p)) by lia; lia.
Qed.

Lemma Zdigits2_bounds m : 0 < m → 2 ^ (Zdigits2 m - 1) <= m < 2 ^ Zdigits2 m.
Proof. destruct m; try lia. intros _. apply digits2_bounds. Qed.

Lemma Zdigits2_nonneg m : 0 <= Zdigits2 m.
Proof. by destruct m. Qed.

(** The number of digits is determined by the bounds. *)
Lemma Zdigits2_unique m d : 0 < m → 2 ^ (d - 1) <= m < 2 ^ d → Zdigits2 m = d.
Proof.
  intros Hm [H1 H2]. pose proof (Zdigits2_bounds m Hm) as [H3 H4].
  pose proof (Zdigits2_nonneg m). assert (0 < d).
  { destruct (Z_lt_le_dec 0 d); [done|]. assert (2 ^ d <= 1); [|lia].
    destruct (Z.eq_dec d 0) as [->|]; [done|]. rewrite Z.pow_neg_r by lia. lia. }
  destruct (Z.lt_trichotomy (Zdigits2 m) d) as [Hlt|[?|Hlt]]; [|done|].
  - assert (2 ^ Zdigits2 m <= 2 ^ (d - 1)) by (apply Z.pow_le_mono_r; lia). lia.
  - assert (2 ^ d <= 2 ^ (Zdigits2 m - 1)) by (apply Z.pow_le_mono_r; lia). lia.
Qed.

Lemma Zdigits2_le_mono m n : 0 <= m <= n → Zdigits2 m <= Zdigits2 n.
Proof.
  intros [H1 H2]. destruct (Z.eq_dec m 0) as [->|]; [apply Zdigits2_nonneg|].
  pose proof (Zdigits2_bounds m ltac:(lia)). pose proof (Zdigits2_bounds n ltac:(lia)).
  pose proof (Zdigits2_nonneg n).
  destruct (Z_lt_le_dec (Zdigits2 n) (Zdigits2 m)); [|done].
  assert (2 ^ Zdigits2 n <= 2 ^ (Zdigits2 m - 1)) by (apply Z.pow_le_mono_r; lia). lia.
Qed.

(** A shift by fewer places than there are digits removes as many digits. *)
Lemma Zdigits2_shift m n : 0 < m → 0 <= n < Zdigits2 m →
  0 < m / 2 ^ n ∧ Zdigits2 (m / 2 ^ n) = Zdigits2 m - n.
Proof.
  intros Hm Hn. pose proof (Zdigits2_bounds m Hm) as [H1 H2].
  assert (2 ^ (Zdigits2 m - n - 1) <= m / 2 ^ n < 2 ^ (Zdigits2 m - n)) as H.
  { split.
    - apply Z.div_le_lower_bound; [lia|]. rewrite <- Z.pow_add_r by lia.
      by replace (n + (Zdigits2 m - n - 1)) with (Zdigits2 m - 1) by lia.
    - apply Z.div_lt_upper_bound; [lia|]. rewrite <- Z.pow_add_r by lia.
      by replace (n + (Zdigits2 m - n)) with (Zdigits2 m) by lia. }
  assert (0 < 2 ^ (Zdigits2 m - n - 1)) by (apply Z.pow_pos_nonneg; lia).
  split; [lia|]. apply Zdigits2_unique; lia.
Qed.

(** ** Shifting right *)

Lemma shr_1_m r : 0 <= shr_m r → shr_m (shr_1 r) = shr_m r / 2.
Proof.
  destruct r as [[|[p|p|]|] ? ?]; cbn [shr_1 shr_m]; intros Hm; try lia; [done| | |done].
  - apply (Z.div_unique _ _ _ 1); lia.
  - apply (Z.div_unique _ _ _ 0); lia.
Qed.

Lemma iter_shr_m p r : 0 <= shr_m r → shr_m (iter_pos shr_1 p r) = shr_m r / 2 ^ Zpos p.
Proof.
  assert (∀ p r, 0 <= shr_m r → 0 <= shr_m r / 2 ^ Zpos p) as Hpos.
  { intros q s Hs. apply Z.div_pos; [done|]. by apply Z.pow_pos_nonneg. }
  revert r. induction p as [p IH|p IH|]; intros r Hr; cbn [iter_pos].
  - assert (0 <= shr_m (shr_1 r)) by (rewrite shr_1_m by done; apply Z.div_pos; lia).
    rewrite !IH, shr_1_m; try done; [|rewrite IH by done; by apply Hpos].
    rewrite !Z.div_div by (try lia; apply Z.pow_pos_nonneg; lia).
    f_equal. rewrite <- Z.pow_add_r by lia. rewrite <- Z.pow_succ_r by lia. f_equal. lia.
  - rewrite !IH; [|done|rewrite IH by done; by apply Hpos].
    rewrite Z.div_div by (try lia; apply Z.pow_pos_nonneg; lia).
    f_equal. rewrite <- Z.pow_add_r by lia. f_equal. lia.
  - by rewrite shr_1_m.
Qed.

Lemma shr_record_m m l : shr_m (shr_record_of_loc m l) = m.
Proof. by destruct l as [|[]]. Qed.

Lemma shr_fexp_m m e l : 0 <= m →
  let n := Z.max 0 (fx (Zdigits2 m + e) - e) in
  shr_m (shr_fexp 53 1024 m e l).1 = m / 2 ^ n ∧ (shr_fexp 53 1024 m e l).2 = e + n.
Proof.
  intros Hm. unfold shr_fexp. rewrite fexp_fx. set (n := fx _ - e). cbv zeta.
  destruct n as [|p|p] eqn:En; cbn [shr fst snd].
  - rewrite shr_record_m, Z.max_id, Z.div_1_r. split; lia.
  - rewrite iter_shr_m; rewrite shr_record_m; [|done]. rewrite Z.max_r by lia. done.
  - rewrite shr_record_m, Z.max_l, Z.div_1_r by lia. split; lia.
Qed.

(** Shifting out zeros leaves nothing behind. *)
Lemma iter_shr_exact p r : 0 <= shr_m r → shr_r r = false → shr_s r = false →
  shr_m r mod 2 ^ Zpos p = 0 →
  shr_r (iter_pos shr_1 p r) = false ∧ shr_s (iter_pos shr_1 p r) = false.
Proof.
  assert (∀ r, 0 <= shr_m r → shr_r r = false → shr_s r = false → shr_m r mod 2 = 0 →
    shr_r (shr_1 r) = false ∧ shr_s (shr_1 r) = false) as H1.
  { intros [[|[q|q|]|q] a b] Hm Hr Hs Hd; cbn in *; subst; try done; try lia.
    rewrite Pos2Z.inj_xI, Z.add_comm, Z.mul_comm, Z.mod_add in Hd by lia. done. }
  assert (∀ a b m : Z, 0 < a → 0 < b → m mod (a * b) = 0 → m mod a = 0 ∧ (m / a) mod b = 0) as Hdiv.
  { intros a b m Ha Hb Hm. apply Z.mod_divide in Hm as [k ->]; [|lia].
    rewrite (Z.mul_comm a b), Z.mul_assoc, Z.mod_mul, Z.div_mul, Z.mod_mul by lia. done. }
  assert (∀ q : positive, 0 < 2 ^ Zpos q) as H2 by (intros; apply Z.pow_pos_nonneg; lia).
  assert (∀ r q, 0 <= shr_m r → 0 <= shr_m (iter_pos shr_1 q r)) as Hn.
  { intros s q Hs. rewrite iter_shr_m by done. apply Z.div_pos; [done|apply H2]. }
  revert r. induction p as [p IH|p IH|]; intros r Hm Hr Hs Hd; cbn [iter_pos]; [| |by apply H1].
  - assert (2 ^ Zpos p~1 = 2 * (2 ^ Zpos p * 2 ^ Zpos p)) as E.
    { rewrite <- Z.pow_add_r, <- Z.pow_succ_r by lia. f_equal. lia. }
    rewrite E in Hd. apply Hdiv in Hd as [Hd1 Hd2]; [|lia|specialize (H2 p); nia].
    apply Hdiv in Hd2 as [Hd2 Hd3]; [|apply H2..].
    destruct (H1 r Hm Hr Hs Hd1) as [Hr1 Hs1].
    assert (0 <= shr_m (shr_1 r)) as Hm1 by (rewrite shr_1_m by done; apply Z.div_pos; lia).
    destruct (IH (shr_1 r) Hm1 Hr1 Hs1) as [Hr2 Hs2]; [by rewrite shr_1_m|].
    apply IH; [by apply Hn|done..|]. by rewrite iter_shr_m, shr_1_m.
  - assert (2 ^ Zpos p~0 = 2 ^ Zpos p * 2 ^ Zpos p) as E.
    { rewrite <- Z.pow_add_r by lia. f_equal. lia. }
    rewrite E in Hd. apply Hdiv in Hd as [Hd1 Hd2]; [|apply H2..].
    destruct (IH r Hm Hr Hs Hd1) as [Hr2 Hs2]. apply IH; [by apply Hn|done..|]. by rewrite iter_shr_m.
Qed.

(** When the shift is exact the first mantissa is the quotient. *)
Lemma round_exact m e : 0 <= m → let n := Z.max 0 (fx (Zdigits2 m + e) - e) in
  m mod 2 ^ n = 0 →
  round_nearest_even (shr_m (shr_fexp 53 1024 m e loc_Exact).1)
    (loc_of_shr_record (shr_fexp 53 1024 m e loc_Exact).1) = m / 2 ^ n.
Proof.
  intros Hm n Hd. pose proof (shr_fexp_m m e loc_Exact Hm) as [Hq _]. fold n in Hq.
  assert (shr_r (shr_fexp 53 1024 m e loc_Exact).1 = false ∧
    shr_s (shr_fexp 53 1024 m e loc_Exact).1 = false) as [Hr Hs].
  { unfold shr_fexp. rewrite fexp_fx. unfold n in Hd. destruct (fx _ - e) as [|p|p]; cbn [shr fst]; [done| |done].
    apply iter_shr_exact; [done..|]. cbn [shr_record_of_loc shr_m]. by rewrite Z.max_r in Hd by lia. }
  destruct (shr_fexp 53 1024 m e loc_Exact).1 as [q r s]. cbn in *. by subst.
Qed.

(** ** Rounding *)

Lemma round_even_cases m l : round_nearest_even m l = m ∨ round_nearest_even m l = m + 1.
Proof. destruct l as [|[]]; cbn; [by left|destruct (Z.even m); auto|by left|by right]. Qed.

(** The two mantissas that rounding computes. *)
Lemma round_aux_spec s m e l : 0 <= m →
  ∃ m1 m2 e2, let n := Z.max 0 (fx (Zdigits2 m + e) - e) in
    (m1 = m / 2 ^ n ∨ m1 = m / 2 ^ n + 1) ∧
    (l = loc_Exact → m mod 2 ^ n = 0 → m1 = m / 2 ^ n) ∧ 0 <= m1 ∧
    m2 = m1 / 2 ^ (Z.max 0 (fx (Zdigits2 m1 + (e + n)) - (e + n))) ∧ 0 <= m2 ∧
    e2 = e + n + Z.max 0 (fx (Zdigits2 m1 + (e + n)) - (e + n)) ∧
    binary_round_aux 53 1024 s m e l =
      match m2 with
      | Z0 => S754_zero s
      | Zpos p => if e2 <=? 971 then S754_finite s p e2 else S754_infinity s
      | Zneg _ => S754_nan
      end.
Proof.
  intros Hm. unfold binary_round_aux. pose proof (shr_fexp_m m e l Hm) as H1. cbv zeta in H1.
  pose proof (round_exact m e Hm) as Hex. cbv zeta in Hex.
  assert (l = loc_Exact → shr_fexp 53 1024 m e loc_Exact = shr_fexp 53 1024 m e l) as El by (by intros ->).
  destruct (shr_fexp 53 1024 m e l) as [r e1]. cbn [fst snd] in H1. destruct H1 as [Hr ->].
  set (n := Z.max 0 _) in *.
  assert (0 <= shr_m r) by (rewrite Hr; apply Z.div_pos; [done|apply Z.pow_pos_nonneg; lia]).
  set (m1 := round_nearest_even _ _).
  assert (m1 = shr_m r ∨ m1 = shr_m r + 1) as Hm1 by apply round_even_cases.
  assert (0 <= m1) as Hm1' by lia.
  pose proof (shr_fexp_m m1 (e + n) loc_Exact Hm1') as H2. cbv zeta in H2.
  destruct (shr_fexp 53 1024 m1 (e + n) loc_Exact) as [r2 e2]. cbn [fst snd] in H2. destruct H2 as [Hr2 ->].
  set (n2 := Z.max 0 (fx (Zdigits2 m1 + (e + n)) - (e + n))) in *.
  exists m1, (shr_m r2), (e + n + n2). cbv zeta.
  split_and!; [by rewrite <- Hr| |done|done| |done|by destruct (shr_m r2)].
  { intros Hl Hd. specialize (Hex Hd). by rewrite (El Hl) in Hex. }
  rewrite Hr2. apply Z.div_pos; [done|]. apply Z.pow_pos_nonneg; lia.
Qed.

Definition signed (s : bool) (x : num) : Prop :=
  match x with
  | S754_zero s' | S754_infinity s' | S754_finite s' _ _ => s' = s
  | S754_nan => False
  end.

Lemma round_aux_signed s m e l : 0 <= m → signed s (binary_round_aux 53 1024 s m e l).
Proof.
  intros Hm. destruct (round_aux_spec s m e l Hm) as (m1 & m2 & e2 & _ & _ & _ & _ & H2 & _ & ->).
  destruct m2; [done| |lia]. by destruct (_ <=? _).
Qed.

Lemma fx_mono a b : a <= b → fx a <= fx b.
Proof. unfold fx. lia. Qed.

Lemma fx_step d : fx (fx d + 1) <= fx d ∨ d <= fx d.
Proof. unfold fx. lia. Qed.

(** A mantissa whose exponent is not above the format's is rounded to a valid number. *)
Lemma round_aux_valid s m e l : 0 <= m → e <= fx (Zdigits2 m + e) →
  valid (binary_round_aux 53 1024 s m e l) = true.
Proof.
  intros Hm He. destruct (round_aux_spec s m e l Hm) as (m1 & m2 & e2 & Hm1 & _ & Hm1' & Hm2 & Hm2' & He2 & ->).
  destruct m2 as [|p|]; [done| |lia]. destruct (e2 <=? 971) eqn:Hmax; [|done]. apply Z.leb_le in Hmax.
  unfold valid, valid_binary, bounded, canonical_mantissa. rewrite fexp_fx.
  apply andb_true_iff. split; [|by apply Z.leb_le]. apply Z.eqb_eq.
  change (Zpos (digits2_pos p)) with (Zdigits2 (Zpos p)). 
  assert (Z.max 0 (fx (Zdigits2 m + e) - e) = fx (Zdigits2 m + e) - e) as Hn by lia. rewrite Hn in *. clear Hn.
  replace (e + (fx (Zdigits2 m + e) - e)) with (fx (Zdigits2 m + e)) in * by lia.
  set (E := fx (Zdigits2 m + e)) in *. set (d1 := Zdigits2 m1) in *.
  assert (0 < m1) as Hpos.
  { destruct (Z.eq_dec m1 0) as [E0|]; [|lia]. rewrite E0, Z.div_0_l in Hm2; [lia|].
    apply Z.pow_nonzero; lia. }
  assert (E <= fx (d1 + E)) as HE.
  { destruct (Z_lt_le_dec (E - e) (Zdigits2 m)) as [Hlt|Hge].
    - assert (0 < m) as Hm0 by (destruct m; [cbn in Hlt; lia|lia|lia]).
      destruct (Zdigits2_shift m (E - e) Hm0 ltac:(lia)) as [H1 H2].
      assert (Zdigits2 m - (E - e) <= d1).
      { rewrite <- H2. apply Zdigits2_le_mono. lia. }
      unfold E at 1. apply fx_mono. lia.
    - assert (E = -1074) by (unfold E, fx in *; lia). pose proof (Zdigits2_nonneg m1). unfold fx. lia. }
  set (n2 := fx (d1 + E) - E) in *. rewrite Z.max_r in Hm2, He2 by lia.
  destruct (Z_lt_le_dec n2 d1) as [Hlt|Hge].
  - destruct (Zdigits2_shift m1 n2 Hpos ltac:(unfold d1 in *; lia)) as [_ H2].
    rewrite Hm2, H2. fold d1. replace (d1 - n2 + e2) with (d1 + E) by lia. lia.
  - exfalso. assert (m1 / 2 ^ n2 = 0); [|lia]. apply Z.div_small. split; [lia|].
    pose proof (Zdigits2_bounds m1 Hpos) as [_ H2]. fold d1 in H2.
    assert (2 ^ d1 <= 2 ^ n2) by (apply Z.pow_le_mono_r; lia). lia.
Qed.

(** A nonzero mantissa within the format's range is not rounded to zero. *)
Lemma fx_below_digits d e : 0 < d → -1074 <= e → Z.max 0 (fx (d + e) - e) < d.
Proof. unfold fx. lia. Qed.

Lemma round_aux_nonzero s m e l s' : 0 < m → -1074 <= e →
  binary_round_aux 53 1024 s m e l ≠ S754_zero s'.
Proof.
  intros Hm He. destruct (round_aux_spec s m e l ltac:(lia)) as (m1 & m2 & e2 & Hm1 & _ & Hm1' & Hm2 & Hm2' & _ & ->).
  assert (0 < Zdigits2 m) as Hd by (destruct m; [lia|done|lia]).
  destruct (Zdigits2_shift m _ Hm (conj (Z.le_max_l _ _) (fx_below_digits _ _ Hd He))) as [Hp _].
  assert (0 < m1) as Hpos by lia. set (n := Z.max 0 _) in *.
  assert (0 < Zdigits2 m1) as Hd1 by (destruct m1; [lia|done|lia]).
  destruct (Zdigits2_shift m1 _ Hpos (conj (Z.le_max_l _ _) (fx_below_digits _ (e + n) Hd1 ltac:(lia)))) as [Hp2 _].
  rewrite <- Hm2 in Hp2. destruct m2; [lia| |done]. by destruct (_ <=? _).
Qed.

Lemma Zdigits2_max k : 0 <= k → Zdigits2 ((2 ^ 53 - 1) * 2 ^ k) = 53 + k.
Proof.
  intros Hk. assert (0 < 2 ^ k) by (apply Z.pow_pos_nonneg; lia). apply Zdigits2_unique; [nia|].
  rewrite Z.pow_add_r by lia. replace (53 + k - 1) with (52 + k) by lia. rewrite Z.pow_add_r by lia. nia.
Qed.

(** A value not above the largest number is not rounded to infinity. *)
Lemma round_aux_finite s m e : 0 < m → e <= fx (Zdigits2 m + e) → e <= 971 →
  m <= (2 ^ 53 - 1) * 2 ^ (971 - e) →
  is_finite (binary_round_aux 53 1024 s m e loc_Exact) = true.
Proof.
  intros Hm He Hmax Hle.
  destruct (round_aux_spec s m e loc_Exact ltac:(lia)) as (m1 & m2 & e2 & Hm1 & Hex & Hm1' & Hm2 & Hm2' & He2 & ->).
  destruct m2 as [|p|]; [done| |lia]. destruct (e2 <=? 971) eqn:E; [done|]. apply Z.leb_gt in E. exfalso.
  specialize (Hex eq_refl). assert (Z.max 0 (fx (Zdigits2 m + e) - e) = fx (Zdigits2 m + e) - e) as Hn by lia.
  rewrite Hn in *. clear Hn. replace (e + (fx (Zdigits2 m + e) - e)) with (fx (Zdigits2 m + e)) in * by lia.
  set (E1 := fx (Zdigits2 m + e)) in *.
  assert (Zdigits2 m + e <= 1024) as Hd.
  { assert (Zdigits2 m <= 53 + (971 - e)); [|lia].
    rewrite <- (Zdigits2_max (971 - e)) by lia. apply Zdigits2_le_mono. lia. }
  assert (E1 <= 971) as HE1 by (unfold E1, fx; lia).
  assert (2 ^ (971 - e) = 2 ^ (E1 - e) * 2 ^ (971 - E1)) as Hpow.
  { rewrite <- Z.pow_add_r by lia. f_equal. lia. }
  assert (0 < 2 ^ (E1 - e)) as Hp1 by (apply Z.pow_pos_nonneg; lia).
  assert (m1 <= (2 ^ 53 - 1) * 2 ^ (971 - E1)) as Hm1le.
  { rewrite Hpow in Hle. assert (m / 2 ^ (E1 - e) <= (2 ^ 53 - 1) * 2 ^ (971 - E1)) as Hq.
    { apply Z.div_le_upper_bound; [done|]. lia. }
    destruct Hm1 as [->|Hm1]; [done|]. destruct (Z.eq_dec (m / 2 ^ (E1 - e)) ((2 ^ 53 - 1) * 2 ^ (971 - E1))); [|lia].
    pose proof (Z.div_mod m (2 ^ (E1 - e)) ltac:(lia)). pose proof (Z.mod_pos_bound m (2 ^ (E1 - e)) Hp1).
    rewrite Hex; lia. }
  assert (0 < m1) as Hpos.
  { destruct (Z.eq_dec m1 0) as [E0|]; [|lia]. rewrite E0, Z.div_0_l in Hm2; [lia|]. apply Z.pow_nonzero; lia. }
  assert (Zdigits2 m1 + E1 <= 1024); [|unfold fx in He2; lia].
  assert (Zdigits2 m1 <= 53 + (971 - E1)); [|lia].
  rewrite <- (Zdigits2_max (971 - E1)) by lia. apply Zdigits2_le_mono. lia.
Qed.

(** ** Aligning *)

Lemma iter_xO p d : Zpos (Pos.iter xO p d) = Zpos p * 2 ^ Zpos d.
Proof.
  induction d as [|d IH] using Pos.peano_ind; [cbn; lia|].
  rewrite Pos.iter_succ, Pos2Z.inj_xO, IH, Pos2Z.inj_succ, Z.pow_succ_r by lia. lia.
Qed.

Lemma shl_align_m m e e' : e' <= e → Zpos (shl_align m e e').1 = Zpos m * 2 ^ (e - e').
Proof.
  intros He. unfold shl_align. destruct (e' - e) as [|q|q] eqn:E; cbn [fst]; [|lia|].
  - replace (e - e') with 0 by lia. lia.
  - rewrite iter_xO. do 2 f_equal. lia.
Qed.

Lemma shl_align_e m e e' : (shl_align m e e').2 = Z.min e e'.
Proof. unfold shl_align. destruct (e' - e) eqn:E; cbn [snd]; lia. Qed.

Lemma shl_align_digits m e e' :
  Zdigits2 (Zpos (shl_align m e e').1) + (shl_align m e e').2 = Zdigits2 (Zpos m) + e.
Proof.
  rewrite shl_align_e. destruct (Z_lt_le_dec e e').
  - unfold shl_align. destruct (e' - e) eqn:E; cbn [fst]; lia.
  - rewrite shl_align_m by done. pose proof (digits2_bounds m) as [H1 H2].
    rewrite (Zdigits2_unique _ (Zdigits2 (Zpos m) + (e - e'))); [lia|..].
    + assert (0 < 2 ^ (e - e')) by (apply Z.pow_pos_nonneg; lia). nia.
    + change (Zdigits2 (Zpos m)) with (Zpos (digits2_pos m)).
      replace (Zpos (digits2_pos m) + (e - e') - 1) with (Zpos (digits2_pos m) - 1 + (e - e')) by lia.
      rewrite !Z.pow_add_r by lia.
      assert (0 < 2 ^ (e - e')) by (apply Z.pow_pos_nonneg; lia). nia.
Qed.

Lemma binary_round_facts s m e : let r := binary_round 53 1024 s m e in
  valid r = true ∧ signed s r ∧ (-1074 <= e → ∀ s', r ≠ S754_zero s').
Proof.
  cbv zeta. unfold binary_round. rewrite fexp_fx. change (Zpos (digits2_pos m)) with (Zdigits2 (Zpos m)).
  pose proof (shl_align_digits m e (fx (Zdigits2 (Zpos m) + e))) as Hd.
  pose proof (shl_align_e m e (fx (Zdigits2 (Zpos m) + e))) as He.
  destruct (shl_align _ _ _) as [mz ez]. cbn [fst snd] in *. split_and!.
  - apply round_aux_valid; [lia|]. rewrite Hd. lia.
  - apply round_aux_signed. lia.
  - intros Hmin s'. apply round_aux_nonzero; [lia|]. unfold fx in He. lia.
Qed.

Lemma normalize_valid z e b : valid (binary_normalize 53 1024 z e b) = true.
Proof. destruct z; [done|apply binary_round_facts..]. Qed.

Lemma of_Z_valid z : valid (of_Z z) = true.
Proof. apply normalize_valid. Qed.

Lemma normalize_sign z e b : -1074 <= e →
  SFcompare (binary_normalize 53 1024 z e b) nzero = Some (z ?= 0).
Proof.
  intros He. destruct z as [|p|p]; [done|..]; cbn [binary_normalize];
    match goal with |- context [binary_round 53 1024 ?s p e] =>
      destruct (binary_round_facts s p e) as (_ & Hs & Hn); specialize (Hn He);
      destruct (binary_round 53 1024 s p e) end; cbn in Hs; try done; subst; try done; by edestruct Hn.
Qed.

(** ** The value of a finite number, in units of [2 ^ e] *)

Definition expo (x : num) : Z := match x with S754_finite _ _ e => e | _ => 1024 end.
Definition scaled (e : Z) (x : num) : Z :=
  match x with S754_finite s m ex => cond_Zopp s (Zpos m) * 2 ^ (ex - e) | _ => 0 end.

Lemma valid_bounds s m e : valid (S754_finite s m e) = true →
  -1074 <= e ∧ e <= 971 ∧ Zpos m < 2 ^ 53 ∧ (-1074 < e → 2 ^ 52 <= Zpos m).
Proof.
  unfold valid, valid_binary, bounded, canonical_mantissa. rewrite fexp_fx, andb_true_iff, Z.eqb_eq, Z.leb_le.
  intros [H1 H2]. change (1024 - 53) with 971 in H2. pose proof (digits2_bounds m) as [Hl Hu].
  unfold fx in H1. split_and!; [lia|done| |].
  - eapply Z.lt_le_trans; [exact Hu|]. apply Z.pow_le_mono_r; lia.
  - intros He. replace (Zpos (digits2_pos m)) with 53 in Hl by lia. exact Hl.
Qed.

Lemma expo_min x : valid x = true → -1074 <= expo x.
Proof. destruct x; [done..|]. intros H. apply valid_bounds in H. cbn. lia. Qed.

Lemma magnitude_lt m1 e1 m2 e2 e : valid (S754_finite false m1 e1) = true →
  valid (S754_finite false m2 e2) = true → e <= e1 → e1 < e2 →
  Zpos m1 * 2 ^ (e1 - e) < Zpos m2 * 2 ^ (e2 - e).
Proof.
  intros H1 H2 He Hlt. apply valid_bounds in H1 as (Hmin & _ & Hm1 & _), H2 as (_ & _ & _ & Hm2).
  specialize (Hm2 ltac:(lia)). replace (e2 - e) with ((e1 - e) + (e2 - e1 - 1) + 1) by lia.
  rewrite !Z.pow_add_r by lia.
  assert (0 < 2 ^ (e1 - e)) by (apply Z.pow_pos_nonneg; lia).
  assert (0 < 2 ^ (e2 - e1 - 1)) by (apply Z.pow_pos_nonneg; lia).
  assert (Zpos m1 < Zpos m2 * 2) by lia. change (2 ^ 1) with 2.
  apply Z.lt_le_trans with (Zpos m2 * 2 * 2 ^ (e1 - e)); nia.
Qed.

Lemma magnitude_compare m1 e1 m2 e2 e : valid (S754_finite false m1 e1) = true →
  valid (S754_finite false m2 e2) = true → e <= e1 → e <= e2 →
  match e1 ?= e2 with Lt => Lt | Gt => Gt | Eq => Pos.compare_cont Eq m1 m2 end
  = (Zpos m1 * 2 ^ (e1 - e) ?= Zpos m2 * 2 ^ (e2 - e)).
Proof.
  intros H1 H2 He1 He2. destruct (Z.compare_spec e1 e2) as [->|Hlt|Hlt].
  - assert (0 < 2 ^ (e2 - e)) by (apply Z.pow_pos_nonneg; lia).
    rewrite <- Zmult_compare_compat_r by lia. done.
  - symmetry. apply Z.compare_lt_iff. by apply magnitude_lt.
  - symmetry. apply Z.compare_gt_iff. by apply magnitude_lt.
Qed.

Lemma compare_scaled e x y : valid x = true → valid y = true →
  is_finite x = true → is_finite y = true → e <= expo x → e <= expo y →
  SFcompare x y = Some (scaled e x ?= scaled e y).
Proof.
  intros Hx Hy Fx Fy Ex Ey.
  destruct x as [sx|?| |sx mx ex], y as [sy|?| |sy my ey]; try done; cbn [scaled expo] in *.
  - assert (0 < 2 ^ (ey - e)) by (apply Z.pow_pos_nonneg; lia).
    destruct sy; unfold SFcompare, cond_Zopp; f_equal; symmetry; [apply Z.compare_gt_iff|apply Z.compare_lt_iff]; nia.
  - assert (0 < 2 ^ (ex - e)) by (apply Z.pow_pos_nonneg; lia).
    destruct sx; unfold SFcompare, cond_Zopp; f_equal; symmetry; [apply Z.compare_lt_iff|apply Z.compare_gt_iff]; nia.
  - assert (0 < 2 ^ (ex - e)) by (apply Z.pow_pos_nonneg; lia).
    assert (0 < 2 ^ (ey - e)) by (apply Z.pow_pos_nonneg; lia).
    cbn [SFcompare]. f_equal. destruct sx, sy; cbn [cond_Zopp].
    + rewrite !Z.mul_opp_l, Z.compare_opp. rewrite (Z.compare_antisym (Zpos mx * _)).
      rewrite <- (magnitude_compare mx ex my ey e Hx Hy Ex Ey). by destruct (ex ?= ey).
    + symmetry. apply Z.compare_lt_iff. nia.
    + symmetry. apply Z.compare_gt_iff. nia.
    + by apply magnitude_compare.
Qed.

(** ** Sums and differences *)

Lemma nsub_finite sx mx ex sy my ey :
  nsub (S754_finite sx mx ex) (S754_finite sy my ey) =
  binary_normalize 53 1024 (scaled (Z.min ex ey) (S754_finite sx mx ex)
    - scaled (Z.min ex ey) (S754_finite sy my ey)) (Z.min ex ey) false.
Proof.
  unfold nsub, SFsub. cbn [scaled]. rewrite !shl_align_m by lia. do 2 f_equal.
  - destruct sx; cbn [cond_Zopp]; lia.
  - destruct sy; cbn [cond_Zopp]; lia.
Qed.

Lemma nadd_nsub x y : nadd x y = nsub x (SFopp y).
Proof.
  destruct x as [[]|[]| |sx mx ex], y as [[]|[]| |sy my ey]; try reflexivity.
  - by destruct sy.
  - by destruct sy.
  - unfold nadd, nsub, SFadd, SFsub, SFopp. cbv zeta. f_equal. rewrite <- Z.add_opp_r. f_equal.
    destruct sy; cbn [negb cond_Zopp]; lia.
Qed.

Lemma opp_valid x : valid (SFopp x) = valid x.
Proof. by destruct x. Qed.
Lemma opp_finite x : is_finite (SFopp x) = is_finite x.
Proof. by destruct x. Qed.

Lemma nsub_valid x y : valid x = true → valid y = true → valid (nsub x y) = true.
Proof.
  intros Hx Hy. destruct x as [[]|[]| |sx mx ex], y as [[]|[]| |sy my ey]; try done.
  rewrite nsub_finite. apply normalize_valid.
Qed.

Lemma nadd_valid x y : valid x = true → valid y = true → valid (nadd x y) = true.
Proof. intros. rewrite nadd_nsub. apply nsub_valid; [done|by rewrite opp_valid]. Qed.

(** A difference has the sign of the comparison: rounding never changes it. *)
Lemma nsub_sign x y : valid x = true → valid y = true → is_finite x = true → is_finite y = true →
  SFcompare (nsub x y) nzero = SFcompare x y.
Proof.
  intros Hx Hy Fx Fy. destruct x as [[]|?| |sx mx ex], y as [[]|?| |sy my ey]; try done; try by destruct sy.
  rewrite nsub_finite, normalize_sign by (apply valid_bounds in Hx, Hy; lia).
  rewrite (compare_scaled (Z.min ex ey)) by (done || cbn; lia). f_equal.
  by rewrite <- Z.compare_sub.
Qed.

Lemma nadd_sign x y : valid x = true → valid y = true → is_finite x = true → is_finite y = true →
  SFcompare (nadd x y) nzero = SFcompare x (SFopp y).
Proof. intros. rewrite nadd_nsub. apply nsub_sign; by rewrite ?opp_valid, ?opp_finite. Qed.

(** The magnitude of a valid number, in units, is at most the largest one. *)
Lemma scaled_max e x : valid x = true → is_finite x = true → e <= expo x →
  Z.abs (scaled e x) <= (2 ^ 53 - 1) * 2 ^ (971 - e).
Proof.
  intros Hx Fx He. destruct x as [|?| |s m ex]; try done; cbn [scaled expo] in *.
  { apply Z.mul_nonneg_nonneg; [lia|]. apply Z.pow_nonneg. lia. }
  apply valid_bounds in Hx as (_ & Hmax & Hm & _). rewrite Z.abs_mul.
  rewrite (Z.abs_eq (2 ^ _)) by (apply Z.pow_nonneg; lia).
  replace (Z.abs (cond_Zopp s (Zpos m))) with (Zpos m) by (by destruct s).
  apply Z.mul_le_mono_nonneg; [lia|lia|apply Z.pow_nonneg; lia|apply Z.pow_le_mono_r; lia].
Qed.

Lemma binary_round_finite s m e : e <= 971 → Zpos m <= (2 ^ 53 - 1) * 2 ^ (971 - e) →
  is_finite (binary_round 53 1024 s m e) = true.
Proof.
  intros He Hm. unfold binary_round. rewrite fexp_fx. change (Zpos (digits2_pos m)) with (Zdigits2 (Zpos m)).
  set (e' := fx _). pose proof (shl_align_digits m e e') as Hd. pose proof (shl_align_e m e e') as He2.
  assert (Zpos (shl_align m e e').1 = Zpos m * 2 ^ (e - Z.min e e')) as Hv.
  { destruct (Z_lt_le_dec e e'); [|by rewrite shl_align_m, Z.min_r by done].
    rewrite Z.min_l, Z.sub_diag, Z.mul_1_r by lia. unfold shl_align. by destruct (e' - e) eqn:E; try lia. }
  destruct (shl_align m e e') as [mz ez]. cbn [fst snd] in *. subst ez.
  apply round_aux_finite; [lia|rewrite Hd; fold e'; lia|lia|]. rewrite Hv.
  replace (971 - Z.min e e') with ((971 - e) + (e - Z.min e e')) by lia.
  rewrite (Z.pow_add_r _ (971 - e)) by lia. rewrite Z.mul_assoc.
  apply Z.mul_le_mono_nonneg_r; [apply Z.pow_nonneg; lia|done].
Qed.

Definition nonneg (x : num) : bool := SFleb nzero x.

(** The difference of two finite numbers of the same sign is finite. *)
Lemma nsub_same_sign_finite x y : valid x = true → valid y = true → is_finite x = true → is_finite y = true →
  (nonneg x = true ∧ nonneg y = true) ∨ (nonneg (SFopp x) = true ∧ nonneg (SFopp y) = true) →
  is_finite (nsub x y) = true.
Proof.
  intros Hx Hy Fx Fy Hs. destruct x as [[]|?| |sx mx ex], y as [[]|?| |sy my ey]; try done.
  assert (sx = sy) as <- by (destruct Hs as [[]|[]]; by destruct sx, sy).
  rewrite nsub_finite. set (e := Z.min ex ey).
  pose proof (scaled_max e _ Hx eq_refl (Z.le_min_l ex ey)) as H1.
  pose proof (scaled_max e _ Hy eq_refl (Z.le_min_r ex ey)) as H2.
  apply valid_bounds in Hx as (_ & Hx & _), Hy as (_ & Hy & _).
  assert (0 <= Zpos mx * 2 ^ (ex - e)) by (apply Z.mul_nonneg_nonneg; [done|apply Z.pow_nonneg; lia]).
  assert (0 <= Zpos my * 2 ^ (ey - e)) by (apply Z.mul_nonneg_nonneg; [done|apply Z.pow_nonneg; lia]).
  cbn [scaled] in *. destruct (_ * 2 ^ (ex - e) - _) as [|p|p] eqn:E; [done|..]; apply binary_round_finite;
    try lia; destruct sx; unfold cond_Zopp in *; lia.
Qed.

(** ** Products and quotients *)

Lemma nmul_valid x y : valid x = true → valid y = true → valid (nmul x y) = true.
Proof.
  intros Hx Hy. destruct x as [[]|[]| |sx mx ex], y as [[]|[]| |sy my ey]; try done.
  unfold nmul, SFmul. apply round_aux_valid; [lia|].
  pose proof (valid_bounds _ _ _ Hx) as (Hx1 & _ & _ & Hx2). pose proof (valid_bounds _ _ _ Hy) as (Hy1 & _ & _ & Hy2).
  pose proof (Zdigits2_nonneg (Zpos (mx * my))).
  destruct (Z_lt_le_dec (-1074) ex) as [Hlt|].
  - specialize (Hx2 Hlt).
    assert (53 <= Zdigits2 (Zpos (mx * my))); [|unfold fx; lia].
    rewrite <- (Zdigits2_unique (2 ^ 52) 53) by (cbn; lia). apply Zdigits2_le_mono.
    rewrite Pos2Z.inj_mul. nia.
  - destruct (Z_lt_le_dec ey 0); [unfold fx; lia|]. specialize (Hy2 ltac:(lia)).
    assert (53 <= Zdigits2 (Zpos (mx * my))); [|unfold fx; lia].
    rewrite <- (Zdigits2_unique (2 ^ 52) 53) by (cbn; lia). apply Zdigits2_le_mono.
    rewrite Pos2Z.inj_mul. nia.
Qed.

Lemma div_digits m1 m2 s : 0 < m1 → 0 < m2 → 0 <= s →
  Zdigits2 m1 + s - Zdigits2 m2 <= Zdigits2 (m1 * 2 ^ s / m2).
Proof.
  intros H1 H2 Hs. pose proof (Zdigits2_bounds m1 H1) as [L1 _]. pose proof (Zdigits2_bounds m2 H2) as [_ U2].
  set (k := Zdigits2 m1 + s - Zdigits2 m2).
  destruct (Z_lt_le_dec 0 k) as [Hk|]; [|pose proof (Zdigits2_nonneg (m1 * 2 ^ s / m2)); lia].
  rewrite <- (Zdigits2_unique (2 ^ (k - 1)) k).
  - apply Zdigits2_le_mono. split; [apply Z.pow_nonneg; lia|]. apply Z.div_le_lower_bound; [done|].
    assert (0 < Zdigits2 m1) by (destruct m1; [lia|done|lia]). pose proof (Zdigits2_nonneg m2).
    transitivity (2 ^ Zdigits2 m2 * 2 ^ (k - 1)).
    + apply Z.mul_le_mono_nonneg_r; [apply Z.pow_nonneg; lia|lia].
    + rewrite <- Z.pow_add_r by lia. replace (Zdigits2 m2 + (k - 1)) with (Zdigits2 m1 - 1 + s) by lia.
      rewrite Z.pow_add_r by lia. apply Z.mul_le_mono_nonneg_r; [apply Z.pow_nonneg; lia|lia].
  - apply Z.pow_pos_nonneg; lia.
  - split; [lia|]. apply Z.pow_lt_mono_r; lia.
Qed.

Lemma ndiv_valid x y : valid x = true → valid y = true → valid (ndiv x y) = true.
Proof.
  intros Hx Hy. destruct x as [[]|[]| |sx mx ex], y as [[]|[]| |sy my ey]; try done.
  unfold ndiv, SFdiv, SFdiv_core_binary. rewrite fexp_fx. cbv zeta.
  set (e' := Z.min _ _). set (s := ex - ey - e'). assert (0 <= s) as Hs by lia.
  assert (match s with 0 => Zpos mx | Zpos _ => Z.shiftl (Zpos mx) s | Zneg _ => 0 end = Zpos mx * 2 ^ s) as ->.
  { destruct s as [|p|p] eqn:E; [by rewrite Z.mul_1_r|by rewrite Z.shiftl_mul_pow2|lia]. }
  assert (Z.div_eucl (Zpos mx * 2 ^ s) (Zpos my) =
    (Zpos mx * 2 ^ s / Zpos my, Zpos mx * 2 ^ s mod Zpos my)) as -> by
    (unfold Z.div, Z.modulo; by destruct (Z.div_eucl _ _)).
  apply round_aux_valid.
  - apply Z.div_pos; [|lia]. apply Z.mul_nonneg_nonneg; [lia|]. by apply Z.pow_nonneg.
  - pose proof (div_digits (Zpos mx) (Zpos my) s ltac:(lia) ltac:(lia) Hs) as Hd.
    unfold s in Hd at 1. transitivity (fx (Zdigits2 (Zpos mx) + ex - (Zdigits2 (Zpos my) + ey))); [lia|].
    apply fx_mono. lia.
Qed.

Lemma lit_valid m k : valid (lit m k) = true.
Proof. apply ndiv_valid; apply of_Z_valid. Qed.

Lemma sum_by_valid {A} (f : A → num) l : (∀ x, x ∈ l → valid (f x) = true) → valid (sum_by f l) = true.
Proof.
  unfold sum_by. assert (valid nzero = true) as H by done. revert H. generalize nzero.
  induction l as [|x l IH]; intros a Ha Hl; simpl; [done|]. apply IH.
  - apply nadd_valid; [done|apply Hl; by left].
  - intros y Hy. apply Hl. by right.
Qed.

(** ** The order against zero *)

Lemma nlt_sub x y : valid x = true → valid y = true → is_finite x = true → is_finite y = true →
  SFltb nzero (nsub x y) = SFltb y x.
Proof.
  intros Hx Hy Fx Fy. unfold SFltb. rewrite (SFcompare_sym (nsub x y) nzero), nsub_sign by done.
  rewrite (SFcompare_sym x y). by destruct (SFcompare x y) as [[]|].
Qed.

(** *** Sorting by a difference *)

Lemma finite_not_nan x : is_finite x = true → is_nan x = false.
Proof. by destruct x. Qed.

Definition plain_number (x : num) : Prop := valid x = true ∧ is_finite x = true.

Lemma strongly_sorted_impl {A} (P : A → Prop) (R R' : A → A → Prop) l : (∀ a b, P a → P b → R a b → R' a b) → Forall P l → StronglySorted R l → StronglySorted R' l.
Proof.
  intros H Hl. induction 1 as [|x l _ IH Hx]; constructor; inversion Hl as [|?? Px Pl]; subst; [by apply IH|].
  rewrite Forall_forall in *. auto.
Qed.

(** Sorted with [b - a], no value is below a later one; with [a - b], none is above. *)
Lemma sorted_down {A} (f : A → num) l : Forall (λ x, plain_number (f x)) l →
  StronglySorted (λ a b, SFltb (f a) (f b) = false) (js_sort (λ a b, SFltb nzero (nsub (f b) (f a))) l).
Proof.
  intros H. apply (strongly_sorted_impl (λ x, plain_number (f x)) (λ a b, SFltb nzero (nsub (f b) (f a)) = false)).
  - intros a b [] []. by rewrite nlt_sub.
  - by rewrite js_sort_perm.
  - apply (js_sort_sorted _ (λ x, plain_number (f x))); [| |done].
    + intros x y [] []. rewrite !nlt_sub by done. apply nltb_asym.
    + intros x y z [] [] []. rewrite !nlt_sub by done. apply nltb_false_trans; by apply finite_not_nan.
Qed.

Lemma sorted_up {A} (f : A → num) l : Forall (λ x, plain_number (f x)) l →
  StronglySorted (λ a b, SFltb (f b) (f a) = false) (js_sort (λ a b, SFltb nzero (nsub (f a) (f b))) l).
Proof.
  intros H. apply (strongly_sorted_impl (λ x, plain_number (f x)) (λ a b, SFltb nzero (nsub (f a) (f b)) = false)).
  - intros a b [] []. by rewrite nlt_sub.
  - by rewrite js_sort_perm.
  - apply (js_sort_sorted _ (λ x, plain_number (f x))); [| |done].
    + intros x y [] []. rewrite !nlt_sub by done. apply nltb_asym.
    + intros x y z [] [] []. rewrite !nlt_sub by done. intros Ha Hb. eapply nltb_false_trans; [..|exact Hb|exact Ha]; by apply finite_not_nan.
Qed.

Lemma nsub_eq0 x y : valid x = true → valid y = true → is_finite x = true → is_finite y = true →
  SFeqb (nsub x y) nzero = SFeqb x y.
Proof. intros. unfold SFeqb. by rewrite nsub_sign. Qed.

Lemma nonneg_opp_le x y : nonneg x = true → nonneg y = true →
  SFcompare x (SFopp y) = Some Gt ∨ SFcompare x (SFopp y) = Some Eq.
Proof. destruct x as [[]|[]| |[] mx ex], y as [[]|[]| |[] my ey]; try done; auto. Qed.

Lemma compare_nonneg x : SFcompare x nzero = Some Gt ∨ SFcompare x nzero = Some Eq → nonneg x = true.
Proof. unfold nonneg, SFleb. rewrite (SFcompare_sym x nzero). by intros [->| ->]. Qed.

Lemma nadd_nonneg x y : valid x = true → valid y = true → nonneg x = true → nonneg y = true →
  nonneg (nadd x y) = true.
Proof.
  intros Hx Hy Nx Ny. destruct (is_finite x) eqn:Fx, (is_finite y) eqn:Fy.
  - apply compare_nonneg. rewrite nadd_sign by done. by apply nonneg_opp_le.
  - by destruct y as [|[]| |], x as [[]|[]| |[] ? ?].
  - by destruct x as [|[]| |], y as [[]|[]| |[] ? ?].
  - by destruct x as [|[]| |], y as [|[]| |].
Qed.

Lemma nadd_positive x y : valid x = true → valid y = true → SFltb nzero x = true → nonneg y = true →
  SFltb nzero (nadd x y) = true.
Proof.
  intros Hx Hy Px Ny. destruct (is_finite x) eqn:Fx, (is_finite y) eqn:Fy.
  - unfold SFltb. rewrite (SFcompare_sym (nadd x y) nzero), nadd_sign by done.
    assert (SFcompare x (SFopp y) = Some Gt) as ->; [|done].
    by destruct x as [|[]| |[] ? ?], y as [|[]| |[] ? ?].
  - by destruct y as [|[]| |], x as [[]|[]| |[] ? ?].
  - by destruct x as [|[]| |], y as [[]|[]| |[] ? ?].
  - by destruct x as [|[]| |], y as [|[]| |].
Qed.

Lemma sum_by_nonneg {A} (f : A → num) l :
  (∀ x, x ∈ l → valid (f x) = true ∧ nonneg (f x) = true) → nonneg (sum_by f l) = true.
Proof.
  unfold sum_by. assert (valid nzero = true ∧ nonneg nzero = true) as H by done. revert H. generalize nzero.
  induction l as [|x l IH]; intros a [Va Na] Hl; simpl; [done|]. destruct (Hl x) as [Vx Nx]; [by left|].
  apply IH; [|intros y Hy; apply Hl; by right]. split; [by apply nadd_valid|by apply nadd_nonneg].
Qed.

Lemma round_aux_nonneg m e l : 0 <= m → nonneg (binary_round_aux 53 1024 false m e l) = true.
Proof.
  intros Hm. pose proof (round_aux_signed false m e l Hm) as H.
  by destruct (binary_round_aux _ _ _ _ _ _) as [s|s| |s ? ?]; cbn in H; subst.
Qed.

Lemma nmul_nonneg x y : nonneg x = true → nonneg y = true →
  nonneg (nmul x y) = true ∨ is_nan (nmul x y) = true.
Proof.
  destruct x as [[]|[]| |[] mx ex], y as [[]|[]| |[] my ey]; intros; try done; try (by left); try (by right).
  left. by apply round_aux_nonneg.
Qed.

Lemma ndiv_nonneg x y : nonneg x = true → SFltb nzero y = true →
  nonneg (ndiv x y) = true ∨ is_nan (ndiv x y) = true.
Proof.
  destruct x as [[]|[]| |[] mx ex], y as [[]|[]| |[] my ey]; intros; try done; try (by left); try (by right).
  left. unfold ndiv, SFdiv. destruct (SFdiv_core_binary _ _ _ _ _ _) as [[mz ez] lz] eqn:E.
  apply round_aux_nonneg. unfold SFdiv_core_binary in E. cbv zeta in E.
  destruct (Z.div_eucl _ _) as [q r] eqn:Eq. injection E as <- _ _.
  assert (q = match Z.sub (Z.sub ex ey) (Z.min (fexp 53 1024 (Zdigits2 (Zpos mx) + ex - (Zdigits2 (Zpos my) + ey))) (ex - ey))
    with Z0 => Zpos mx | Zpos _ => Z.shiftl (Zpos mx) (Z.sub (Z.sub ex ey) (Z.min (fexp 53 1024 (Zdigits2 (Zpos mx) + ex - (Zdigits2 (Zpos my) + ey))) (ex - ey))) | Zneg _ => 0 end / Zpos my)
    as -> by (unfold Z.div; by rewrite Eq).
  apply Z.div_pos; [|lia]. case_match; [lia| |lia]. apply Z.shiftl_nonneg. lia.
Qed.

Create HintDb float.
#[export] Hint Resolve nadd_valid nsub_valid nmul_valid ndiv_valid of_Z_valid lit_valid : float.
