(* ===== verification/Counting.v ===== *)
(** * Counting the strings of a list

    Services count with an object or a [Map] from a name to a number that starts at zero.
    The passes are related here to the number of occurrences of each name. *)

From Stdlib Require Import String.
From S2P Require Import Prelude JsMap JsString.

#[export] Instance js_filter_proper {A} (p : A → bool) : Proper ((≡ₚ) ==> (≡ₚ)) (js_filter p).
Proof.
  intros l k. induction 1 as [|x l k _ IH|x y l|l m k _ IH1 _ IH2]; unfold js_filter in *; cbn [List.filter].
  - done.
  - by destruct (p x); [rewrite IH|].
  - destruct (p x), (p y); [apply Permutation_swap|done..].
  - by rewrite IH1.
Qed.

(** How often a name occurs. *)
Definition occurs (n : string) (l : list string) : Z := Z.of_nat (length (js_filter (λ m, str_eqb m n) l)).

Lemma js_filter_snoc {A} (p : A → bool) l x : js_filter p (l ++ [x]) = js_filter p l ++ (if p x then [x] else []).
Proof. unfold js_filter. rewrite List.filter_app. cbn. by destruct (p x). Qed.

Lemma set_of_snoc l x : set_of (l ++ [x]) = if js_some (str_eqb x) (set_of l) then set_of l else set_of l ++ [x].
Proof. unfold set_of. by rewrite foldl_app. Qed.

Lemma js_some_str_eqb x l : js_some (str_eqb x) l = bool_decide (x ∈ l).
Proof.
  destruct (js_some (str_eqb x) l) eqn:E.
  - apply js_some_true in E as (y & Hy & ->%str_eqb_true). by rewrite bool_decide_eq_true_2.
  - rewrite bool_decide_eq_false_2; [done|]. intros Hx. rewrite js_some_false in E.
    specialize (E x Hx). by rewrite str_eqb_refl in E.
Qed.

Lemma occurs_snoc n l m : occurs n (l ++ [m]) = occurs n l + if str_eqb m n then 1 else 0.
Proof. unfold occurs. rewrite js_filter_snoc, length_app. destruct (str_eqb _ _); cbn; lia. Qed.

Lemma occurs_absent n l : n ∉ l → occurs n l = 0.
Proof.
  intros Hn. unfold occurs. induction l as [|m l IH]; [done|]. rewrite not_elem_of_cons in Hn.
  unfold js_filter in *. cbn. rewrite (proj2 (str_eqb_false m n)) by (intros E; by destruct Hn).
  apply IH. by destruct Hn.
Qed.

Lemma occurs_pos n l : n ∈ l → 0 < occurs n l.
Proof.
  unfold occurs, js_filter. induction l as [|m l IH]; cbn; [by intros ?%elem_of_nil|].
  destruct (str_eqb m n) eqn:E; cbn; [lia|]. intros [->|Hn]%elem_of_cons; [|by apply IH].
  by rewrite str_eqb_refl in E.
Qed.

(** A map from every name of a list to a figure. *)
Definition tabulate (f : string → Z) (names : list string) : jsmap Z := (λ n, (n, f n)) <$> names.

Lemma tabulate_get f names n : map_get n (tabulate f names) = if bool_decide (n ∈ names) then Some (f n) else None.
Proof.
  unfold tabulate. induction names as [|m names IH]; [done|]. csimpl. cbn [map_get].
  destruct (str_eqb n m) eqn:E.
  - apply str_eqb_true in E as ->. rewrite bool_decide_eq_true_2; [done|by left].
  - rewrite IH. apply str_eqb_false in E. apply (f_equal (λ b : bool, if b then Some (f n) else None)).
    apply bool_decide_ext. rewrite elem_of_cons. split; [by right|by intros [?|?]].
Qed.

Lemma tabulate_set f g names n : NoDup names → (∀ m, m ∈ names → m ≠ n → g m = f m) →
  map_set n (g n) (tabulate f names) = tabulate g (if bool_decide (n ∈ names) then names else names ++ [n]).
Proof.
  intros Hnd Hg. case_bool_decide as Hn.
  - unfold tabulate. induction Hnd as [|m names Hm Hnd IH]; [by apply elem_of_nil in Hn|].
    csimpl. cbn [map_set]. destruct (str_eqb n m) eqn:E.
    + apply str_eqb_true in E as <-. f_equal. apply list_fmap_ext. intros i x Hi.
      apply list_elem_of_lookup_2 in Hi. f_equal. symmetry. apply Hg; [by right|]. by intros ->.
    + apply str_eqb_false in E. rewrite (Hg m); [|by left|done]. f_equal. apply IH.
      * intros x Hx. apply Hg. by right.
      * by apply elem_of_cons in Hn as [->|?].
  - rewrite map_set_app by (rewrite tabulate_get; by rewrite bool_decide_eq_false_2).
    unfold tabulate. rewrite fmap_app. f_equal. apply list_fmap_ext. intros i x Hi.
    apply list_elem_of_lookup_2 in Hi. f_equal. symmetry. apply Hg; [done|]. by intros ->.
Qed.

(** [l.forEach((a) => { counts[a] = (counts[a] || 0) + 1 })] *)
Definition count_one (m : jsmap Z) (a : string) : jsmap Z := map_set a (default 0 (map_get a m) + 1) m.

Lemma count_all l : foldl count_one [] l = tabulate (λ n, occurs n l) (set_of l).
Proof.
  induction l as [|x l IH] using rev_ind; [done|]. rewrite foldl_app, IH. cbn [foldl]. unfold count_one.
  rewrite set_of_snoc, js_some_str_eqb.
  assert (default 0 (map_get x (tabulate (λ n, occurs n l) (set_of l))) + 1 = occurs x (l ++ [x])) as ->.
  { rewrite tabulate_get, occurs_snoc, str_eqb_refl. case_bool_decide as Hn; [done|].
    rewrite occurs_absent; [done|]. by rewrite elem_of_set_of in Hn. }
  apply (tabulate_set (λ n, occurs n l) (λ n, occurs n (l ++ [x]))); [apply set_of_NoDup|].
  intros m _ Hm. rewrite occurs_snoc, (proj2 (str_eqb_false x m)); [lia|done].
Qed.
