(* ===== verification/Wallet.v ===== *)
(** * [WalletService] (apps/web/wallet/src/services/wallet.ts)

    The wallet list of the web wallet: an insertion-ordered map from address to
    wallet, the active address, their copy in [localStorage], and the operations
    that build, sign and broadcast transactions through the node RPC. The node
    ([api], declared in services/api.ts and answered over the network) is the
    record [Api] of its replies; each reply is a function of the number of the
    remote call and its arguments. *)

From S2P Require Import Prelude JsMap JsNumber JsString.

Local Open Scope stdpp_scope.

(** ** Data *)

Record WalletInfo := MkWalletInfo {
  address : string;
  label : string;
  balance : num;
  unconfirmedBalance : num;
  privateKey : option string;
  publicKey : option string;
  createdAt : Z;
  watchOnly : option bool;
  xpub : option string;
}.

#[export] Instance WalletInfo_eq_dec : EqDecision WalletInfo.
Proof. solve_decision. Defined.

Record TransactionInput := MkInput {
  in_txid : string;
  in_vout : Z;
  in_scriptPubKey : string;
  in_amount : num;
  in_address : string;
}.

Record TransactionOutput := MkOutput { out_address : string; out_amount : num }.

Inductive TxType := received | sent | other.

Record WalletTransactionRecord := MkRecord {
  rec_txid : string;
  rec_address : option string;
  rec_amount : num;
  rec_confirmations : Z;
  rec_fee : option num;
  rec_type : TxType;
  rec_timestamp : option Z;
  rec_inputs : option (list (option string * option num));
  rec_outputs : option (list (option string * option num));
}.

Record UnsignedTransaction := MkUnsigned {
  inputs : list TransactionInput;
  outputs : list TransactionOutput;
  fee : num;
}.

Record SignedTransaction := MkSigned { hex : string; txid : string; complete : bool }.

(** The node's replies, with the fields of services/api.ts that this service reads. *)
Record UTXO := MkUTXO {
  u_txid : string;
  u_vout : Z;
  u_address : string;
  u_scriptPubKey : string;
  u_amount : num;
  u_confirmations : Z;
}.

Record WalletTransaction := MkWalletTransaction {
  wt_address : option string;
  wt_category : option string;
  wt_amount : num;
  wt_fee : option num;
  wt_confirmations : Z;
  wt_txid : string;
  wt_time : option Z;
  wt_timereceived : option Z;
}.

(** [getrawtransaction]: the hex string, or the decoded transaction, of which
    the inputs and the address and value of each output are read. *)
Inductive RawTransaction :=
  | RawHex (s : string)
  | RawTx (vin : option (list ())) (vout : option (list (option string * option num))).

Record AddressInfo := MkAddressInfo { isvalid : bool; ai_address : option string }.

Record Api := MkApi {
  getNewAddress : nat → string → result string;
  importPrivKey : nat → string → string → bool → result ();
  validateAddress : nat → string → result AddressInfo;
  listUnspent : nat → Z → Z → list string → result (list UTXO);
  listTransactions : nat → string → Z → Z → bool → result (list WalletTransaction);
  getRawTransaction : nat → string → bool → result RawTransaction;
  estimateSmartFee : nat → Z → result (option num);
  createRawTransaction : nat → list (string * Z) → list (string * num) → result string;
  signRawTransactionWithWallet : nat → string → result (string * bool);
  sendRawTransaction : nat → string → result string;
}.

(** ** State *)

(** The JSON object under 'kubercoin_wallets': its entries, [None] for a value
    that is not an object. *)
Definition stored_wallets : Type := list (string * option WalletInfo).

Record Snapshot := MkSnapshot {
  snap_wallets : cell stored_wallets;
  snap_active : option string;
}.

#[export] Instance Snapshot_eq_dec : EqDecision Snapshot.
Proof. solve_decision. Defined.

Record WalletService := MkService {
  wallets : jsmap WalletInfo;
  activeWallet : option string;
  storageSnapshot : Snapshot;
  ls_wallets : cell stored_wallets;
  ls_active : option string;
}.

Definition set_wallets m s :=
  MkService m (activeWallet s) (storageSnapshot s) (ls_wallets s) (ls_active s).
Definition set_active a s :=
  MkService (wallets s) a (storageSnapshot s) (ls_wallets s) (ls_active s).
Definition set_snapshot p s :=
  MkService (wallets s) (activeWallet s) p (ls_wallets s) (ls_active s).
Definition set_ls_wallets c s :=
  MkService (wallets s) (activeWallet s) (storageSnapshot s) c (ls_active s).
Definition set_ls_active a s :=
  MkService (wallets s) (activeWallet s) (storageSnapshot s) (ls_wallets s) a.

Abbreviation M := (js (WalletService * Env)).

Definition no_snapshot : Snapshot := MkSnapshot None None.

(** ** Storage *)

Definition sanitizeWalletForStorage (w : WalletInfo) : WalletInfo :=
  MkWalletInfo (address w) (label w) (balance w) (unconfirmedBalance w) None
    (publicKey w) (createdAt w) (watchOnly w) (xpub w).

Definition readStorageSnapshot : M Snapshot :=
  b ← is_browser;
  s ← this;
  mret (if b : bool then MkSnapshot (ls_wallets s) (ls_active s) else no_snapshot).

Definition saveWalletsToStorage : M () :=
  b ← is_browser;
  js_when b (js_try (
    s ← this;
    let walletsObj := object_order
      (map_of_entries ((λ kv, (kv.1, Some (sanitizeWalletForStorage kv.2))) <$> wallets s)) in
    ls_setItem (set_ls_wallets (Some (TJson walletsObj)));;
    (if truthy_str (activeWallet s) then ls_setItem (set_ls_active (activeWallet s))
     else ls_removeItem (set_ls_active None));;
    snap ← readStorageSnapshot;
    modify_this (set_snapshot snap)
  ) (λ _, mret ())).

(** The entries of the stored object that are objects, private keys removed,
    and whether a private key was present. *)
Definition sanitizedEntries (l : stored_wallets) : list (string * WalletInfo) :=
  omap (λ kv, (λ w, (kv.1, sanitizeWalletForStorage w)) <$> kv.2) l.

Definition has_private_key (kv : string * option WalletInfo) : bool :=
  match kv.2 with Some w => bool_decide (is_Some (privateKey w)) | None => false end.

Definition loadWalletsFromStorage : M () :=
  b ← is_browser;
  if negb b then modify_this (set_snapshot no_snapshot)
  else
    snap ← readStorageSnapshot;
    modify_this (set_snapshot snap);;
    modify_this (set_wallets []);;
    modify_this (set_active None);;
    js_try (
      s ← this;
      rewrite1 ← match truthy_cell (ls_wallets s) with
        | None => mret false
        | Some t =>
            stored ← JSON_parse t;
            modify_this (set_wallets (map_of_entries (sanitizedEntries stored)));;
            mret (js_some has_private_key stored)
        end;
      s ← this;
      rewrite2 ← match ls_active s with
        | Some a =>
            if str_eqb a "" then mret rewrite1
            else if map_has a (wallets s) then modify_this (set_active (Some a));; mret rewrite1
            else mret true
        | None => mret rewrite1
        end;
      js_when rewrite2 saveWalletsToStorage
    ) (λ _, modify_this (set_wallets []);; modify_this (set_active None)).

Definition refreshFromStorageIfNeeded : M () :=
  b ← is_browser;
  js_when b (
    snapshot ← readStorageSnapshot;
    s ← this;
    js_when (bool_decide (snap_wallets snapshot ≠ snap_wallets (storageSnapshot s))
             || bool_decide (snap_active snapshot ≠ snap_active (storageSnapshot s)))
      loadWalletsFromStorage).

Definition reloadFromStorage : M () := loadWalletsFromStorage.

(** The [storage] event listener of a non-production build; [key] is [None] when
    the whole storage was cleared. *)
Definition onStorageEvent (key : option string) : M () :=
  js_when (bool_decide (key = Some "kubercoin_wallets")
           || bool_decide (key = Some "kubercoin_active_wallet")
           || bool_decide (key = None))
    loadWalletsFromStorage.

(** Another tab writes the two storage keys. *)
Definition externalWrite (w : cell stored_wallets) (a : option string) : M () :=
  modify_this (set_ls_wallets w);; modify_this (set_ls_active a).

(** The service as its constructor finds it, before it loads the storage. *)
Definition fresh (w : cell stored_wallets) (a : option string) : WalletService :=
  MkService [] None no_snapshot w a.

Definition constructor : M () := loadWalletsFromStorage.

(** ** The wallet list *)

Definition getWallets : M (list WalletInfo) :=
  refreshFromStorageIfNeeded;;
  s ← this;
  mret (map_values (wallets s)).

Definition getTotalBalance : M num :=
  s ← this;
  mret (foldl (λ sum w, nadd (nadd sum (balance w)) (unconfirmedBalance w)) nzero
          (map_values (wallets s))).

Definition getActiveWallet : M (option WalletInfo) :=
  refreshFromStorageIfNeeded;;
  s ← this;
  mret (match activeWallet s with
        | Some a => if str_eqb a "" then None else map_get a (wallets s)
        | None => None
        end).

Definition setActiveWallet (addr : string) : M bool :=
  refreshFromStorageIfNeeded;;
  s ← this;
  if negb (map_has addr (wallets s)) then mret false
  else modify_this (set_active (Some addr));; saveWalletsToStorage;; mret true.

Definition registerWallet (wallet : WalletInfo) (setActive : option bool) : M WalletInfo :=
  let sanitizedWallet := sanitizeWalletForStorage wallet in
  s ← this;
  modify_this (set_wallets (map_set (address sanitizedWallet) sanitizedWallet (wallets s)));;
  js_when (negb (bool_decide (setActive = Some false)) || negb (truthy_str (activeWallet s)))
    (modify_this (set_active (Some (address sanitizedWallet))));;
  saveWalletsToStorage;;
  mret sanitizedWallet.

Definition deleteWallet (addr : string) : M bool :=
  refreshFromStorageIfNeeded;;
  s ← this;
  if negb (map_has addr (wallets s)) then mret false
  else
    modify_this (set_wallets (map_delete addr (wallets s)));;
    s ← this;
    js_when (bool_decide (activeWallet s = Some addr))
      (remaining ← getWallets;
       modify_this (set_active (address <$> head remaining)));;
    saveWalletsToStorage;;
    mret true.

(** [JSON.stringify(wallet, null, 2)]: the JSON text of the wallet in memory. *)
Definition exportWallet (addr : string) : M (option (text WalletInfo)) :=
  refreshFromStorageIfNeeded;;
  s ← this;
  mret (TJson <$> map_get addr (wallets s)).

Definition getWallet (addr : string) : M (option WalletInfo) :=
  refreshFromStorageIfNeeded;;
  s ← this;
  mret (map_get addr (wallets s)).

Definition importWatchOnlyWallet (addr lbl : string) (xp : option string) : M WalletInfo :=
  s ← this;
  if map_has addr (wallets s) then js_throw "Wallet address already exists"
  else
    now ← date_now;
    let wallet := MkWalletInfo addr lbl nzero nzero None None now (Some true) xp in
    modify_this (set_wallets (map_set addr wallet (wallets s)));;
    saveWalletsToStorage;;
    s ← this;
    js_when (Nat.eqb (map_size (wallets s)) 1) (modify_this (set_active (Some addr)));;
    mret wallet.

Definition isWatchOnly (addr : string) : M bool :=
  s ← this;
  mret (match map_get addr (wallets s) with
        | Some w => default false (watchOnly w)
        | None => false
        end).

Definition getWatchOnlyWallets : M (list WalletInfo) :=
  s ← this;
  mret (js_filter (λ w, default false (watchOnly w)) (map_values (wallets s))).

Definition getRegularWallets : M (list WalletInfo) :=
  s ← this;
  mret (js_filter (λ w, negb (default false (watchOnly w))) (map_values (wallets s))).

(** ** Operations that call the node *)

(** [catch (error) { throw new Error(prefix + error.message) }] *)
Definition rethrow {A} (prefix : string) (m : M A) : M A :=
  js_try m (λ msg, js_throw (prefix +:+ msg)).

Section Node.
Context (api : Api).

Definition generateWallet (lbl : string) : M WalletInfo :=
  rethrow "Failed to generate wallet: " (
    addr ← rpc (λ n, getNewAddress api n lbl);
    now ← date_now;
    let wallet := MkWalletInfo addr lbl nzero nzero None None now None None in
    s ← this;
    modify_this (set_wallets (map_set addr wallet (wallets s)));;
    js_when (negb (truthy_str (activeWallet s))) (modify_this (set_active (Some addr)));;
    saveWalletsToStorage;;
    mret wallet).

(** The balances of a list of outputs: confirmed, and with no confirmation. *)
Definition confirmedBalance (utxos : list UTXO) : num :=
  sum_by u_amount (js_filter (λ u, 1 <=? u_confirmations u) utxos).
Definition unconfirmedOf (utxos : list UTXO) : num :=
  sum_by u_amount (js_filter (λ u, u_confirmations u =? 0) utxos).

Definition with_balance (b u : num) (w : WalletInfo) : WalletInfo :=
  MkWalletInfo (address w) (label w) b u (privateKey w) (publicKey w) (createdAt w)
    (watchOnly w) (xpub w).

(** [updateWalletBalance] runs in two parts: up to the remote call it reads the
    wallet, and when the reply arrives it stores that wallet with new balances.
    Other operations may run in between. *)
Definition updateWalletBalance_resume (addr : string) (wallet : WalletInfo)
    (utxos : list UTXO) : M () :=
  s ← this;
  modify_this (set_wallets (map_set addr
    (with_balance (confirmedBalance utxos) (unconfirmedOf utxos) wallet) (wallets s)));;
  saveWalletsToStorage.

Definition updateWalletBalance (addr : string) : M () :=
  js_try (
    s ← this;
    match map_get addr (wallets s) with
    | None => mret ()
    | Some wallet =>
        utxos ← rpc (λ n, listUnspent api n 0 9999999 [addr]);
        updateWalletBalance_resume addr wallet utxos
    end) (λ _, mret ()).

Definition importWallet (privKey lbl : string) (rescan : bool) : M WalletInfo :=
  rethrow "Failed to import wallet: " (
    rpc (λ n, importPrivKey api n privKey lbl rescan);;
    addressInfo ← rpc (λ n, validateAddress api n privKey);
    let addr := default "" (ai_address addressInfo) in
    now ← date_now;
    let wallet := MkWalletInfo addr lbl nzero nzero (Some privKey) None now None None in
    s ← this;
    modify_this (set_wallets (map_set addr wallet (wallets s)));;
    js_when (negb (truthy_str (activeWallet s))) (modify_this (set_active (Some addr)));;
    saveWalletsToStorage;;
    updateWalletBalance addr;;
    (* the returned object is the stored one, balances included *)
    s ← this;
    mret (default wallet (map_get addr (wallets s)))).

(** *** History *)

Definition txDetails (tx : WalletTransaction) :
    M (option (list (option string * option num) * list (option string * option num))) :=
  js_try (
    raw ← rpc (λ n, getRawTransaction api n (wt_txid tx) true);
    mret (match raw with
          | RawHex _ => None
          | RawTx vin vout =>
              Some ((λ _, (None, None)) <$> default [] vin, default [] vout)
          end)) (λ _, mret None).

Definition str_is (s : string) (o : option string) : bool := bool_decide (o = Some s).

Definition recordType (tx : WalletTransaction) : TxType :=
  if str_is "send" (wt_category tx) || SFltb (wt_amount tx) nzero then sent
  else if str_is "receive" (wt_category tx) then received
  else other.

(** [a || b] on optional integers: zero is falsy. *)
Definition timestampSeconds (tx : WalletTransaction) : option Z :=
  match wt_time tx with
  | Some 0 | None => wt_timereceived tx
  | t => t
  end.

Definition historyRecord (tx : WalletTransaction)
    (d : option (list (option string * option num) * list (option string * option num))) :
    WalletTransactionRecord :=
  {| rec_txid := wt_txid tx;
     rec_address := wt_address tx;
     rec_amount := nabs (wt_amount tx);
     rec_confirmations := wt_confirmations tx;
     rec_fee := match wt_fee tx with
                | Some f => if truthy_num f then Some (nabs f) else None
                | None => None
                end;
     rec_type := recordType tx;
     rec_timestamp := match timestampSeconds tx with
                      | Some 0 | None => None
                      | Some t => Some (t * 1000)
                      end;
     rec_inputs := fst <$> d;
     rec_outputs := snd <$> d |}.

Definition getTransactionHistory (addr : string) (limit : Z) : M (list WalletTransactionRecord) :=
  rethrow "Failed to get transaction history: " (
    list ← rpc (λ n, listTransactions api n addr limit 0 true);
    detailed ← js_mapM txDetails list;
    mret (zip_with historyRecord list detailed)).

Definition getUtxos (addr : string) (minConfirmations : Z) : M (list UTXO) :=
  rethrow "Failed to get UTXOs: " (
    rpc (λ n, listUnspent api n minConfirmations 9999999 [addr])).

(** *** Fees *)

Definition default_fee_rate : num := lit 1 5.

Definition estimateFee (targetBlocks : Z) : M num :=
  js_try (
    feeRate ← rpc (λ n, estimateSmartFee api n targetBlocks);
    mret (num_or feeRate default_fee_rate)) (λ _, mret default_fee_rate).

(** [feeRate || (await this.estimateFee(6))] *)
Definition feeRateOr (feeRate : option num) : M num :=
  match feeRate with
  | Some r => if truthy_num r then mret r else estimateFee 6
  | None => estimateFee 6
  end.

(** [(rate * size) / 100000000] *)
Definition feeFor (rate : num) (size : Z) : num := ndiv (nmul rate (of_Z size)) (of_Z 100000000).

Definition dustThreshold : num := lit 1 5.

(** *** Transactions *)

(** The loop that takes outputs in the order the node lists them until the
    running sum reaches [target]; returns the outputs taken and their sum. *)
Definition selectUntil (target acc : num) (utxos : list UTXO) : list UTXO * num :=
  take_until u_amount target acc utxos.

Definition toInput (addr : string) (u : UTXO) : TransactionInput :=
  MkInput (u_txid u) (u_vout u) (u_scriptPubKey u) (u_amount u) addr.

Definition createTransaction (fromAddress toAddress : string) (amount : num)
    (feeRate : option num) : M UnsignedTransaction :=
  rethrow "Failed to create transaction: " (
    fromValid ← rpc (λ n, validateAddress api n fromAddress);
    toValid ← rpc (λ n, validateAddress api n toAddress);
    if negb (isvalid fromValid) then js_throw "Invalid sender address"
    else if negb (isvalid toValid) then js_throw "Invalid recipient address"
    else
      utxos ← rpc (λ n, listUnspent api n 1 9999999 [fromAddress]);
      if Nat.eqb (length utxos) 0 then js_throw "No spendable UTXOs available"
      else
        let totalAvailable := sum_by u_amount utxos in
        rate ← feeRateOr feeRate;
        let '(selected, selectedAmount) :=
          selectUntil (nadd amount (feeFor rate 250)) nzero utxos in
        let selectedUtxos := toInput fromAddress <$> selected in
        if SFltb selectedAmount amount then
          js_throw ("Insufficient funds. Available: " +:+ to_fixed 8 totalAvailable +:+
                    " KBC, Required: " +:+ to_fixed 8 amount +:+ " KBC")
        else
          let estimatedSize := 148 * Z.of_nat (length selectedUtxos) + 34 * 2 + 10 in
          let fee := feeFor rate estimatedSize in
          if SFltb selectedAmount (nadd amount fee) then
            js_throw ("Insufficient funds to cover fee. Available: " +:+
                      to_fixed 8 totalAvailable +:+ " KBC, Required: " +:+
                      to_fixed 8 (nadd amount fee) +:+ " KBC")
          else
            let change := nsub (nsub selectedAmount amount) fee in
            mret (MkUnsigned selectedUtxos
              (MkOutput toAddress amount ::
               (if SFltb dustThreshold change then [MkOutput fromAddress change] else []))
              fee)).

(** The [Record<string, number>] handed to [createrawtransaction]: one entry per
    address, the last amount given for it. *)
Definition outputRecord (outs : list TransactionOutput) : list (string * num) :=
  object_order (map_of_entries ((λ o, (out_address o, out_amount o)) <$> outs)).

Definition signTransaction (unsignedTx : UnsignedTransaction) : M SignedTransaction :=
  rethrow "Failed to sign transaction: " (
    let ins := (λ i, (in_txid i, in_vout i)) <$> inputs unsignedTx in
    rawTx ← rpc (λ n, createRawTransaction api n ins (outputRecord (outputs unsignedTx)));
    signedTx ← rpc (λ n, signRawTransactionWithWallet api n rawTx);
    mret (MkSigned (fst signedTx) "" (snd signedTx))).

Definition broadcastTransaction (signedTx : SignedTransaction) : M string :=
  rethrow "Failed to broadcast transaction: " (
    rpc (λ n, sendRawTransaction api n (hex signedTx))).

Definition sendTransaction (fromAddress toAddress : string) (amount : num)
    (feeRate : option num) : M string :=
  rethrow "Failed to send transaction: " (
    unsignedTx ← createTransaction fromAddress toAddress amount feeRate;
    signedTx ← signTransaction unsignedTx;
    if negb (complete signedTx) then js_throw "Transaction signing incomplete"
    else
      txid ← broadcastTransaction signedTx;
      updateWalletBalance fromAddress;;
      mret txid).

Definition consolidateUtxos (fromAddress : string) (utxos : list UTXO)
    (destinationAddress : string) (feeRate : option num) : M string :=
  if Nat.eqb (length utxos) 0 then js_throw "No UTXOs selected for consolidation"
  else
    toValid ← rpc (λ n, validateAddress api n destinationAddress);
    if negb (isvalid toValid) then js_throw "Invalid destination address"
    else
      effectiveFeeRate ← feeRateOr feeRate;
      let totalAmount := sum_by u_amount utxos in
      let estimatedSize := 148 * Z.of_nat (length utxos) + 34 + 10 in
      let fee := feeFor effectiveFeeRate estimatedSize in
      let outputAmount := nsub totalAmount fee in
      if SFleb outputAmount nzero then
        js_throw "Insufficient funds to cover consolidation fee"
      else
        let ins := (λ u, (u_txid u, u_vout u)) <$> utxos in
        rawTx ← rpc (λ n, createRawTransaction api n ins [(destinationAddress, outputAmount)]);
        signedTx ← rpc (λ n, signRawTransactionWithWallet api n rawTx);
        if negb (snd signedTx) then js_throw "Failed to sign consolidation transaction"
        else
          txid ← rpc (λ n, sendRawTransaction api n (fst signedTx));
          updateWalletBalance fromAddress;;
          mret txid.

Definition validateRecipient (r : TransactionOutput) : M () :=
  validation ← rpc (λ n, validateAddress api n (out_address r));
  if negb (isvalid validation) then
    js_throw ("Invalid recipient address: " +:+ out_address r)
  else if SFleb (out_amount r) nzero then
    js_throw ("Invalid amount for " +:+ out_address r)
  else mret ().

Definition batchSend (fromAddress : string) (recipients : list TransactionOutput)
    (feeRate : option num) : M string :=
  rethrow "Failed to batch send: " (
    s ← this;
    if negb (map_has fromAddress (wallets s)) then js_throw "Wallet not found"
    else
      let totalAmount := sum_by out_amount recipients in
      js_forEach validateRecipient recipients;;
      utxos ← rpc (λ n, listUnspent api n 0 9999999 [fromAddress]);
      if Nat.eqb (length utxos) 0 then js_throw "No UTXOs available"
      else
        let estimatedSize :=
          148 * Z.of_nat (length utxos) + 34 * (Z.of_nat (length recipients) + 1) + 10 in
        let effectiveFeeRate := num_or feeRate default_fee_rate in
        let estimatedFee := feeFor effectiveFeeRate estimatedSize in
        let requiredAmount := nadd totalAmount estimatedFee in
        let '(selected, selectedAmount) := selectUntil requiredAmount nzero utxos in
        if SFltb selectedAmount requiredAmount then
          js_throw ("Insufficient funds. Need " +:+ to_fixed 8 requiredAmount +:+ ", have " +:+
                    to_fixed 8 selectedAmount +:+ " KBC")
        else
          let change := nsub (nsub selectedAmount totalAmount) estimatedFee in
          signedTx ← signTransaction (MkUnsigned
            ((λ u, toInput (u_address u) u) <$> selected)
            (recipients ++
             (if SFltb dustThreshold change then [MkOutput fromAddress change] else []))
            estimatedFee);
          if negb (complete signedTx) then js_throw "Transaction signing incomplete"
          else
            txid ← broadcastTransaction signedTx;
            updateWalletBalance fromAddress;;
            mret txid).

Definition replaceTransaction (originalTxid : string) (newFeeRate : num) : M string :=
  rethrow "Failed to replace transaction: " (
    js_throw "RBF requires transaction indexing. Use the send page to create a new transaction with higher fee.").

Definition bumpFee (parentTxid : string) (parentVout : Z) (feeRate : num) : M string :=
  rethrow "Failed to bump fee: " (
    js_throw "CPFP requires spending unconfirmed outputs. Use the send page to spend from this transaction with higher fee.").
End Node.
