(* ===== verification/WalletFacts.v ===== *)
(** * Properties of [WalletService]

    The operations as steps of a transition system, the invariants every step
    preserves (no private key in storage; the list keyed by address, with the
    active wallet in it), the storage round trip, what a created transaction
    spends and pays, and the interleaving of a balance update with a deletion. *)

From S2P Require Import Prelude JsMap JsNumber JsString Wallet.

(** ** Operations as steps *)

(** Every public operation of the service, and the second half of a balance
    update, which runs when the node's reply arrives. *)
Inductive operation :=
  | OpReload
  | OpStorageEvent (key : option string)
  | OpGetWallets
  | OpGetActive
  | OpSetActive (addr : string)
  | OpRegister (w : WalletInfo) (setActive : option bool)
  | OpDelete (addr : string)
  | OpExport (addr : string)
  | OpGetWallet (addr : string)
  | OpWatchOnly (addr lbl : string) (xp : option string)
  | OpGenerate (lbl : string)
  | OpImport (privKey lbl : string) (rescan : bool)
  | OpUpdateBalance (addr : string)
  | OpResumeBalance (addr : string) (w : WalletInfo) (utxos : list UTXO)
  | OpSend (fromAddr toAddr : string) (amount : num) (rate : option num)
  | OpBatchSend (fromAddr : string) (recipients : list TransactionOutput) (rate : option num)
  | OpConsolidate (fromAddr : string) (utxos : list UTXO) (dest : string) (rate : option num).

Definition ignore {A} (m : M A) : M () := m;; mret ().

Definition exec (api : Api) (o : operation) : M () :=
  match o with
  | OpReload => reloadFromStorage
  | OpStorageEvent key => onStorageEvent key
  | OpGetWallets => ignore getWallets
  | OpGetActive => ignore getActiveWallet
  | OpSetActive a => ignore (setActiveWallet a)
  | OpRegister w sa => ignore (registerWallet w sa)
  | OpDelete a => ignore (deleteWallet a)
  | OpExport a => ignore (exportWallet a)
  | OpGetWallet a => ignore (getWallet a)
  | OpWatchOnly a l x => ignore (importWatchOnlyWallet a l x)
  | OpGenerate l => ignore (generateWallet api l)
  | OpImport p l r => ignore (importWallet api p l r)
  | OpUpdateBalance a => updateWalletBalance api a
  | OpResumeBalance a w us => updateWalletBalance_resume a w us
  | OpSend f t a r => ignore (sendTransaction api f t a r)
  | OpBatchSend f rs r => ignore (batchSend api f rs r)
  | OpConsolidate f us d r => ignore (consolidateUtxos api f us d r)
  end.

(** A stored object without private keys, its wallets under their own addresses. *)
Definition cell_keyless (c : cell stored_wallets) : Prop :=
  match c with
  | Some (TJson l) => js_some has_private_key l = false
  | _ => True
  end.

Definition own_key (k : string) (w : WalletInfo) : Prop := address w = k.

Definition cell_ok (c : cell stored_wallets) : Prop :=
  match c with
  | Some (TJson l) => Forall (λ kv, match kv.2 with Some w => own_key kv.1 w | None => True end) l
  | _ => True
  end.

(** A step runs one operation, or another tab that runs the same service writes
    the storage. The wallet of a balance update was read from the list under its
    address. *)
Inductive step (api : Api) : WalletService * Env → WalletService * Env → Prop :=
  | step_op o w :
      match o with OpResumeBalance a wl _ => address wl = a | _ => True end →
      step api w (exec api o w).2
  | step_external c a w :
      cell_ok c → cell_keyless c → step api w (externalWrite c a w).2.

(** ** No private key reaches the storage *)

Definition keyless (s : WalletService) : Prop := cell_keyless (ls_wallets s).

Lemma sanitized_keyless (m : jsmap WalletInfo) :
  js_some has_private_key (object_order (map_of_entries
    ((λ kv, (kv.1, Some (sanitizeWalletForStorage kv.2))) <$> m))) = false.
Proof.
  apply js_some_false. intros kv. rewrite object_order_perm. intros Hin.
  assert (map_all (λ _ o, has_private_key ("", o) = false)
            (map_of_entries ((λ kv, (kv.1, Some (sanitizeWalletForStorage kv.2))) <$> m))) as H.
  { apply map_all_of_entries; [|apply map_all_nil].
    intros x ([k w] & -> & _)%list_elem_of_fmap. done. }
  unfold map_all in H. rewrite Forall_forall in H. by apply H in Hin.
Qed.

Lemma keyless_set_wallets m s : keyless s → keyless (set_wallets m s).
Proof. done. Qed.
Lemma keyless_set_active a s : keyless s → keyless (set_active a s).
Proof. done. Qed.
Lemma keyless_set_snapshot p s : keyless s → keyless (set_snapshot p s).
Proof. done. Qed.
Lemma keyless_set_ls_active a s : keyless s → keyless (set_ls_active a s).
Proof. done. Qed.
Lemma keyless_save m s :
  keyless (set_ls_wallets (Some (TJson (object_order (map_of_entries
    ((λ kv, (kv.1, Some (sanitizeWalletForStorage kv.2))) <$> m))))) s).
Proof. apply sanitized_keyless. Qed.

#[local] Hint Resolve keyless_set_wallets keyless_set_active keyless_set_snapshot
  keyless_set_ls_active keyless_save : js.

Lemma preserves_snapshot I : preserves I readStorageSnapshot.
Proof. unfold readStorageSnapshot. js_preserve. Qed.
#[local] Hint Resolve preserves_snapshot : js.

Lemma keyless_saveWallets : preserves keyless saveWalletsToStorage.
Proof. unfold saveWalletsToStorage. js_preserve. Qed.
#[local] Hint Resolve keyless_saveWallets : js.

Lemma keyless_load : preserves keyless loadWalletsFromStorage.
Proof. unfold loadWalletsFromStorage. js_preserve. Qed.
#[local] Hint Resolve keyless_load : js.

Lemma keyless_refresh : preserves keyless refreshFromStorageIfNeeded.
Proof. unfold refreshFromStorageIfNeeded. js_preserve. Qed.
#[local] Hint Resolve keyless_refresh : js.

Lemma keyless_getWallets : preserves keyless getWallets.
Proof. unfold getWallets. js_preserve. Qed.
#[local] Hint Resolve keyless_getWallets : js.

Lemma keyless_resume a w us : preserves keyless (updateWalletBalance_resume a w us).
Proof. unfold updateWalletBalance_resume. js_preserve. Qed.
#[local] Hint Resolve keyless_resume : js.

Lemma keyless_updateBalance api a : preserves keyless (updateWalletBalance api a).
Proof. unfold updateWalletBalance. js_preserve. Qed.
#[local] Hint Resolve keyless_updateBalance : js.

(** Building, signing and broadcasting a transaction leave the service's fields
    and the storage alone, whatever the node replies. *)
Section Neutral.
Context (I : WalletService → Prop) (api : Api).

Lemma neutral_feeRateOr r : preserves I (feeRateOr api r).
Proof. unfold feeRateOr, estimateFee. js_preserve. Qed.
Hint Resolve neutral_feeRateOr : js.

Lemma neutral_createTransaction f t a r : preserves I (createTransaction api f t a r).
Proof. unfold createTransaction, rethrow. js_preserve. Qed.

Lemma neutral_signTransaction tx : preserves I (signTransaction api tx).
Proof. unfold signTransaction, rethrow. js_preserve. Qed.

Lemma neutral_broadcast tx : preserves I (broadcastTransaction api tx).
Proof. unfold broadcastTransaction, rethrow. js_preserve. Qed.

Lemma neutral_validateRecipient r : preserves I (validateRecipient api r).
Proof. unfold validateRecipient. js_preserve. Qed.
Hint Resolve neutral_createTransaction neutral_signTransaction neutral_broadcast
  neutral_validateRecipient : js.

(** The three sending operations change the service only through the balance
    update that follows the broadcast. *)
Context (Hupdate : ∀ a, preserves I (updateWalletBalance api a)).
Hint Resolve Hupdate : js.

Lemma sends_sendTransaction f t a r : preserves I (sendTransaction api f t a r).
Proof. unfold sendTransaction, rethrow. js_preserve. Qed.
Lemma sends_batchSend f rs r : preserves I (batchSend api f rs r).
Proof. unfold batchSend, rethrow. js_preserve. Qed.
Lemma sends_consolidate f us d r : preserves I (consolidateUtxos api f us d r).
Proof. unfold consolidateUtxos. js_preserve. Qed.
End Neutral.

#[local] Hint Resolve sends_sendTransaction sends_batchSend sends_consolidate : js.

Lemma keyless_exec api o : preserves keyless (exec api o).
Proof.
  destruct o; unfold exec, ignore, reloadFromStorage, onStorageEvent, getActiveWallet,
    setActiveWallet, registerWallet, deleteWallet, exportWallet, getWallet, importWatchOnlyWallet,
    generateWallet, importWallet, rethrow; js_preserve.
Qed.

Lemma keyless_steps api w w' : rtc (step api) w w' → keyless w.1 → keyless w'.1.
Proof.
  induction 1 as [|w1 w2 w3 [o w1' _|c a w1' _ Hc] _ IH]; [done|..]; intros H.
  - by apply IH, keyless_exec.
  - by apply IH.
Qed.

(** ** Saving and loading as functions of the state *)

(** The object [saveWalletsToStorage] serialises. *)
Definition stored_object (m : jsmap WalletInfo) : stored_wallets :=
  object_order (map_of_entries ((λ kv, (kv.1, Some (sanitizeWalletForStorage kv.2))) <$> m)).

Definition stored_active (a : option string) : option string := if truthy_str a then a else None.

(** The state after a successful save. *)
Definition saved (s : WalletService) : WalletService :=
  let c := Some (TJson (stored_object (wallets s))) in
  let a := stored_active (activeWallet s) in
  MkService (wallets s) (activeWallet s) (MkSnapshot c a) c a.

Definition save_result (e : Env) (s : WalletService) : WalletService :=
  if browser e && writable e then saved s else s.

Lemma save_run s e : saveWalletsToStorage (s, e) = (Ok (), (save_result e s, e)).
Proof.
  unfold saveWalletsToStorage, save_result. js_run. destruct (browser e) eqn:Hb; [|done].
  unfold js_when. destruct (writable e) eqn:Hw.
  - erewrite run_try_Ok; [reflexivity|]. js_run. rewrite Hw. js_run.
    unfold saved, stored_active. cbn [activeWallet].
    destruct (truthy_str (activeWallet s)); js_run; rewrite ?Hw;
      unfold readStorageSnapshot; js_run; rewrite ?Hb; done.
  - erewrite run_try_Throw; [reflexivity|]. js_run. by rewrite Hw.
Qed.

(** The state after loading the storage [c], [a]; [e] says whether a rewrite of
    the storage succeeds. *)
Definition loaded (e : Env) (c : cell stored_wallets) (a : option string) : WalletService :=
  let base m act := MkService m act (MkSnapshot c a) c a in
  match truthy_cell c with
  | Some (TRaw _) => base [] None
  | t =>
      let l := match t with Some (TJson l) => l | _ => [] end in
      let m := map_of_entries (sanitizedEntries l) in
      match a with
      | Some addr =>
          if str_eqb addr "" then
            if js_some has_private_key l then save_result e (base m None) else base m None
          else if map_has addr m then
            if js_some has_private_key l then save_result e (base m a) else base m a
          else save_result e (base m None)
      | None => if js_some has_private_key l then save_result e (base m None) else base m None
      end
  end.

Local Ltac load_leaf :=
  try destruct (js_some _ _); cbn [js_when]; rewrite ?save_run; reflexivity.

Lemma load_run s e : browser e = true →
  loadWalletsFromStorage (s, e) = (Ok (), (loaded e (ls_wallets s) (ls_active s), e)).
Proof.
  intros Hb. destruct s as [ws act snap lw la]. unfold loadWalletsFromStorage, loaded. js_run.
  rewrite Hb. cbn [negb]. unfold readStorageSnapshot. js_run. rewrite Hb. cbn.
  destruct (truthy_cell lw) as [[l|raw]|] eqn:Ht.
  - erewrite run_try_Ok; [reflexivity|]. js_run. cbn. rewrite Ht. unfold JSON_parse. js_run. cbn.
    destruct la as [addr|]; js_run; [|load_leaf].
    destruct (str_eqb addr ""); js_run; [load_leaf|]. cbn.
    destruct (map_has addr _); js_run; load_leaf.
  - erewrite run_try_Throw
      by (js_run; cbn; rewrite Ht; unfold JSON_parse; js_run; reflexivity).
    reflexivity.
  - erewrite run_try_Ok; [reflexivity|]. js_run. cbn. rewrite Ht. js_run. cbn.
    destruct la as [addr|]; js_run; [|load_leaf].
    destruct (str_eqb addr ""); js_run; load_leaf.
Qed.

Lemma saved_keyless s : keyless (saved s).
Proof. apply sanitized_keyless. Qed.

Lemma loaded_keyless e c a : browser e = true → writable e = true → keyless (loaded e c a).
Proof.
  intros Hb Hw. unfold loaded, save_result. rewrite Hb, Hw. cbn [andb].
  destruct c as [[l|raw]|]; simpl.
  - destruct a as [addr|]; [destruct (str_eqb addr ""); [|destruct (map_has addr _)]|];
      destruct (js_some has_private_key l) eqn:E; auto using saved_keyless.
  - destruct (bool_decide (raw = "")); [|done].
    destruct a as [addr|]; [destruct (str_eqb addr "")|]; done || apply saved_keyless.
  - destruct a as [addr|]; [destruct (str_eqb addr "")|]; done || apply saved_keyless.
Qed.

Lemma run_save {B} (k : () → M B) s e :
  (saveWalletsToStorage ≫= k) (s, e) = k () (save_result e s, e).
Proof. by rewrite (run_Ok _ _ _ _ _ (save_run s e)). Qed.

Lemma rethrow_state {A} prefix (m : M A) w : (rethrow prefix m w).2 = (m w).2.
Proof. unfold rethrow, js_try. by destruct (m w) as [[|] ?]. Qed.

(** ** The invariant of the wallet list

    Keys are unique, each wallet is stored under its own address (in memory and
    in storage), and the active wallet, if any, is in the list. *)
Definition active_ok (a : option string) (m : jsmap WalletInfo) : Prop :=
  match a with Some a => map_has a m = true | None => True end.

Record wallet_inv (s : WalletService) : Prop := {
  inv_wf : map_wf (wallets s);
  inv_keys : map_all own_key (wallets s);
  inv_active : active_ok (activeWallet s) (wallets s);
  inv_cell : cell_ok (ls_wallets s);
}.

Lemma inv_set_wallets_active s m a :
  wallet_inv s → map_wf m → map_all own_key m → active_ok a m →
  wallet_inv (set_wallets m (set_active a s)).
Proof. by intros [????]; constructor. Qed.

Lemma map_has_set k k' w (m : jsmap WalletInfo) :
  map_has k' m = true → map_has k' (map_set k w m) = true.
Proof.
  rewrite !map_has_true. intros [v Hv]. destruct (decide (k = k')) as [->|].
  - rewrite map_get_set_eq. eauto.
  - rewrite map_get_set_ne by done. eauto.
Qed.

Lemma map_has_set_eq k w (m : jsmap WalletInfo) : map_has k (map_set k w m) = true.
Proof. apply map_has_true. rewrite map_get_set_eq. eauto. Qed.

Lemma active_ok_set a k w m : active_ok a m → active_ok a (map_set k w m).
Proof. destruct a; simpl; [apply map_has_set|done]. Qed.

Lemma inv_add s k w : wallet_inv s → address w = k → wallet_inv (set_wallets (map_set k w (wallets s)) s).
Proof.
  intros [Hwf Hk Ha Hc] Hw. constructor; cbn; auto using map_wf_set, map_all_set, active_ok_set.
Qed.

Lemma inv_select s a : wallet_inv s → map_has a (wallets s) = true → wallet_inv (set_active (Some a) s).
Proof. by intros [????] ?; constructor. Qed.

Lemma inv_save_result e s : wallet_inv s → wallet_inv (save_result e s).
Proof.
  unfold save_result. destruct (browser e && writable e); [|done].
  intros [Hwf Hk Ha Hc]. constructor; cbn; [done..|].
  unfold stored_object. rewrite object_order_perm.
  change (map_all (λ k o, match o with Some w => own_key k w | None => True end)
    (map_of_entries ((λ kv, (kv.1, Some (sanitizeWalletForStorage kv.2))) <$> wallets s))).
  apply map_all_of_entries; [|apply map_all_nil].
  intros x ([k w] & -> & Hin)%list_elem_of_fmap. cbn.
  unfold map_all in Hk. rewrite Forall_forall in Hk. exact (Hk _ Hin).
Qed.

Lemma inv_loaded e c a : cell_ok c → wallet_inv (loaded e c a).
Proof.
  intros Hc.
  assert (∀ l, Forall (λ kv, match kv.2 with Some w => own_key kv.1 w | None => True end) l →
               map_all own_key (map_of_entries (sanitizedEntries l))) as Hentries.
  { intros l Hl. apply map_all_of_entries; [|apply map_all_nil].
    intros [k w] Hin. unfold sanitizedEntries in Hin.
    apply list_elem_of_omap in Hin as ([k' o] & Hin & Ho). rewrite Forall_forall in Hl.
    specialize (Hl _ Hin). destruct o; simplify_eq/=. done. }
  assert (∀ l act, cell_ok (Some (TJson l)) → active_ok act (map_of_entries (sanitizedEntries l)) →
    wallet_inv (MkService (map_of_entries (sanitizedEntries l)) act (MkSnapshot c a) c a)) as Hbase.
  { intros l act Hl Hact. constructor; cbn; auto using map_wf_of_entries. }
  unfold loaded. destruct (truthy_cell c) as [[l|raw]|] eqn:Ht.
  - assert (cell_ok (Some (TJson l))).
    { destruct c as [[|raw]|]; simplify_eq/=; [done|]. by destruct (bool_decide _). }
    destruct a as [addr|]; [destruct (str_eqb addr ""); [|destruct (map_has addr _) eqn:?]|];
      try destruct (js_some _ _); try apply inv_save_result; by apply Hbase.
  - by constructor; cbn; try constructor.
  - assert (cell_ok (Some (TJson []))) by constructor.
    destruct a as [addr|]; [destruct (str_eqb addr "")|]; cbn; try apply inv_save_result;
      by apply (Hbase []).
Qed.

Lemma inv_load : preserves wallet_inv loadWalletsFromStorage.
Proof.
  intros [s e] Hs. destruct (browser e) eqn:Hb.
  - rewrite load_run by done. apply inv_loaded, Hs.
  - unfold loadWalletsFromStorage. js_run. rewrite Hb. cbn. by destruct Hs.
Qed.

(** ** Refreshing *)

(** The snapshot is what the storage holds. *)
Definition synced (s : WalletService) : Prop :=
  storageSnapshot s = MkSnapshot (ls_wallets s) (ls_active s).

Definition refreshed (e : Env) (s : WalletService) : WalletService :=
  if browser e && negb (bool_decide (synced s)) then loaded e (ls_wallets s) (ls_active s) else s.

#[local] Instance synced_dec s : Decision (synced s).
Proof. unfold synced. apply _. Defined.

Lemma refresh_run s e : refreshFromStorageIfNeeded (s, e) = (Ok (), (refreshed e s, e)).
Proof.
  unfold refreshFromStorageIfNeeded, refreshed. js_run. destruct (browser e) eqn:Hb; [|done].
  cbn [js_when andb]. unfold readStorageSnapshot. js_run. rewrite Hb. cbn [snap_wallets snap_active].
  destruct s as [ws act [sw sa] lw la]. cbn.
  destruct (bool_decide (synced _)) eqn:Hs;
    [apply bool_decide_eq_true in Hs|apply bool_decide_eq_false in Hs];
    unfold synced in Hs; cbn in Hs; cbn [negb].
  - simplify_eq. by rewrite !bool_decide_false by tauto.
  - assert (bool_decide (lw ≠ sw) || bool_decide (la ≠ sa) = true) as ->.
    { apply orb_true_iff. rewrite !bool_decide_eq_true.
      destruct (decide (lw = sw)), (decide (la = sa)); subst; auto. }
    cbn [js_when]. by rewrite load_run.
Qed.

Lemma run_refresh {B} (k : () → M B) s e :
  (refreshFromStorageIfNeeded ≫= k) (s, e) = k () (refreshed e s, e).
Proof. by rewrite (run_Ok _ _ _ _ _ (refresh_run s e)). Qed.

Lemma saved_synced s : synced (saved s).
Proof. done. Qed.

Lemma loaded_synced e c a : synced (loaded e c a).
Proof.
  unfold loaded, save_result.
  destruct (truthy_cell c) as [[l|raw]|]; [..|]; try done;
    destruct a as [addr|]; try destruct (str_eqb addr ""); try destruct (map_has addr _);
    try destruct (js_some _ _); try destruct (browser e && writable e); done.
Qed.

Lemma refreshed_synced e s : browser e = true → synced (refreshed e s).
Proof.
  intros Hb. unfold refreshed. rewrite Hb. case_bool_decide; cbn; [done|apply loaded_synced].
Qed.

Lemma refreshed_idle e s : browser e = false ∨ synced s → refreshed e s = s.
Proof.
  unfold refreshed. intros [->|H]; [done|]. rewrite bool_decide_true by done. by rewrite andb_false_r.
Qed.

Lemma refreshed_idem e s m : refreshed e (set_wallets m (refreshed e s)) = set_wallets m (refreshed e s).
Proof.
  apply refreshed_idle. destruct (browser e) eqn:Hb; [right|by left].
  by apply (refreshed_synced e s) in Hb.
Qed.

Lemma inv_refreshed e s : wallet_inv s → wallet_inv (refreshed e s).
Proof. unfold refreshed. destruct (_ && _); [intros H; apply inv_loaded, H|done]. Qed.

Lemma inv_refresh : preserves wallet_inv refreshFromStorageIfNeeded.
Proof. intros [s e] Hs. rewrite refresh_run. by apply inv_refreshed. Qed.

Lemma inv_getWallets : preserves wallet_inv getWallets.
Proof. intros [s e] Hs. unfold getWallets. rewrite run_refresh. by apply inv_refreshed. Qed.

(** The active wallet after [addr] is removed from [m]. *)
Definition next_active (addr : string) (m : jsmap WalletInfo) (a : option string) : option string :=
  if bool_decide (a = Some addr) then address <$> head (map_values (map_delete addr m)) else a.

Lemma deleteWallet_run addr s e :
  deleteWallet addr (s, e) =
  let s1 := refreshed e s in
  if map_has addr (wallets s1) then
    (Ok true, (save_result e (set_wallets (map_delete addr (wallets s1))
       (set_active (next_active addr (wallets s1) (activeWallet s1)) s1)), e))
  else (Ok false, (s1, e)).
Proof.
  unfold deleteWallet, next_active. rewrite run_refresh. js_run.
  destruct (map_has addr (wallets (refreshed e s))) eqn:Hh; cbn [negb]; [|done].
  js_run. cbn [activeWallet set_wallets]. case_bool_decide; js_run.
  - unfold getWallets. js_run. rewrite run_refresh. js_run. rewrite refreshed_idem.
    rewrite run_save. done.
  - rewrite run_save. by destruct (refreshed e s).
Qed.

Lemma next_active_ok addr m a :
  map_wf m → map_all own_key m → active_ok a m →
  active_ok (next_active addr m a) (map_delete addr m).
Proof.
  intros Hwf Hk Ha. unfold next_active. case_bool_decide as E.
  - destruct (map_delete addr m) as [|[k w] m'] eqn:Em; cbn; [done|].
    assert (map_all own_key (map_delete addr m)) as Hk' by auto with jsmap.
    rewrite Em in Hk'. inversion Hk' as [|?? Hw]. cbn in Hw. unfold own_key in Hw. subst.
    unfold map_has. simpl. by rewrite str_eqb_refl.
  - destruct a as [b|]; [|done]. simpl in *. apply map_has_true in Ha.
    apply map_has_true. by rewrite map_get_delete_ne by congruence.
Qed.

Lemma inv_deleteWallet addr : preserves wallet_inv (deleteWallet addr).
Proof.
  intros [s e] Hs. rewrite deleteWallet_run. pose proof (inv_refreshed e s Hs) as [????].
  cbv zeta. destruct (map_has addr _); [|by constructor].
  apply inv_save_result, inv_set_wallets_active; [by constructor|auto with jsmap..|].
  by apply next_active_ok.
Qed.

(** ** Every operation preserves the invariant *)

Lemma inv_resume addr w us :
  address w = addr → preserves wallet_inv (updateWalletBalance_resume addr w us).
Proof.
  intros Hw [s e] Hs. unfold updateWalletBalance_resume. js_run. rewrite save_run.
  by apply inv_save_result, inv_add.
Qed.

Lemma inv_updateBalance api addr : preserves wallet_inv (updateWalletBalance api addr).
Proof.
  unfold updateWalletBalance. apply preserves_try; [|intros; apply preserves_ret].
  apply preserves_this. intros s Hs. destruct (map_get addr (wallets s)) as [w|] eqn:Hg; js_preserve.
  apply inv_resume. exact (map_all_get _ _ _ _ (inv_keys _ Hs) Hg).
Qed.

(** [generateWallet] and [importWallet] store a new wallet and select it when no
    wallet is active. *)
Lemma inv_store addr w s e :
  wallet_inv s → address w = addr →
  wallet_inv (save_result e (if negb (truthy_str (activeWallet s))
    then set_active (Some addr) (set_wallets (map_set addr w (wallets s)) s)
    else set_wallets (map_set addr w (wallets s)) s)).
Proof.
  intros Hs Hw. apply inv_save_result. destruct (negb _); [|by apply inv_add].
  apply inv_select; [by apply inv_add|]. apply map_has_set_eq.
Qed.

Lemma inv_generateWallet api lbl : preserves wallet_inv (generateWallet api lbl).
Proof.
  intros [s e] Hs. unfold generateWallet. rewrite rethrow_state. js_run.
  destruct (getNewAddress api _ _) as [addr|]; [|done]. js_run.
  pose proof (inv_store addr (MkWalletInfo addr lbl nzero nzero None None (clock (call e)
    (ticks (call e))) None None) s (tick (call e)) Hs eq_refl) as H.
  destruct (negb _); js_run; rewrite run_save; exact H.
Qed.

Lemma inv_importWallet api p lbl r : preserves wallet_inv (importWallet api p lbl r).
Proof.
  intros [s e] Hs. unfold importWallet. rewrite rethrow_state. js_run.
  destruct (importPrivKey api _ _ _ _); [|done]. js_run.
  destruct (validateAddress api _ _) as [info|]; [|done]. js_run.
  set (addr := default "" (ai_address info)).
  set (w := MkWalletInfo addr _ _ _ _ _ _ _ _).
  pose proof (inv_store addr w s (tick (call (call e))) Hs eq_refl) as H.
  destruct (negb _); js_run; rewrite run_save;
    (refine (preserves_bind _ _ _ (inv_updateBalance _ _) _ (_, _) H); intros; js_preserve).
Qed.

Lemma inv_registerWallet w sa : preserves wallet_inv (registerWallet w sa).
Proof.
  intros [s e] Hs. unfold registerWallet. js_run.
  pose proof (inv_add s _ (sanitizeWalletForStorage w) Hs eq_refl) as H.
  destruct (_ || _); js_run; rewrite run_save; apply inv_save_result; [|done].
  apply inv_select; [done|]. apply map_has_set_eq.
Qed.

Lemma inv_setActiveWallet a : preserves wallet_inv (setActiveWallet a).
Proof.
  intros [s e] Hs. unfold setActiveWallet. rewrite run_refresh. js_run.
  pose proof (inv_refreshed e s Hs) as H.
  destruct (map_has a (wallets (refreshed e s))) eqn:Ha; cbn [negb]; [|done].
  js_run. rewrite run_save. by apply inv_save_result, inv_select.
Qed.

Lemma inv_importWatchOnly a l x : preserves wallet_inv (importWatchOnlyWallet a l x).
Proof.
  intros [s e] Hs. unfold importWatchOnlyWallet. js_run.
  destruct (map_has a (wallets s)); [done|]. js_run. rewrite run_save. js_run.
  set (w := MkWalletInfo a _ _ _ _ _ _ _ _).
  pose proof (inv_save_result (tick e) _ (inv_add s a w Hs eq_refl)) as H.
  destruct (Nat.eqb _ 1); js_run; [|done]. apply inv_select; [done|].
  unfold save_result. destruct (_ && _); apply map_has_set_eq.
Qed.

#[local] Hint Resolve inv_load inv_refresh inv_getWallets inv_updateBalance inv_deleteWallet
  inv_generateWallet inv_importWallet inv_registerWallet inv_setActiveWallet
  inv_importWatchOnly : js.

Lemma inv_exec api o :
  match o with OpResumeBalance a wl _ => address wl = a | _ => True end →
  preserves wallet_inv (exec api o).
Proof.
  intros Ho. destruct o; unfold exec, ignore, reloadFromStorage, onStorageEvent, getActiveWallet,
    exportWallet, getWallet; try (by apply inv_resume); js_preserve.
Qed.

Lemma inv_steps api w w' : rtc (step api) w w' → wallet_inv w.1 → wallet_inv w'.1.
Proof.
  induction 1 as [|w1 w2 w3 [o w1' Ho|c a w1' Hc _] _ IH]; [done|..]; intros H.
  - by apply IH, inv_exec.
  - apply IH. destruct H as [????]. by constructor.
Qed.

(** ** The storage round trip *)

Definition sanitized_list (m : jsmap WalletInfo) : jsmap WalletInfo :=
  object_order ((λ kv, (kv.1, sanitizeWalletForStorage kv.2)) <$> m).

Lemma map_wf_fmap {V W} (f : V → W) (m : jsmap V) :
  map_wf m → map_wf ((λ kv, (kv.1, f kv.2)) <$> m).
Proof. unfold map_wf, map_keys. by rewrite <- list_fmap_compose. Qed.

Lemma map_get_fmap {V W} (f : V → W) k (m : jsmap V) :
  map_get k ((λ kv, (kv.1, f kv.2)) <$> m) = f <$> map_get k m.
Proof. induction m as [|[k' v] m IH]; csimpl; [done|]. by destruct (str_eqb k k'). Qed.

Lemma stored_entries m : map_wf m →
  map_of_entries (sanitizedEntries (stored_object m)) = sanitized_list m.
Proof.
  intros Hwf. unfold stored_object, sanitized_list.
  assert (map_of_entries ((λ kv, (kv.1, Some (sanitizeWalletForStorage kv.2))) <$> m)
          = (λ kv, (kv.1, Some (sanitizeWalletForStorage kv.2))) <$> m) as ->.
  { apply (map_of_entries_id []). by apply (map_wf_fmap (λ w, Some (sanitizeWalletForStorage w))). }
  rewrite (object_order_fmap (λ w, Some (sanitizeWalletForStorage w))).
  rewrite (object_order_fmap sanitizeWalletForStorage).
  assert (∀ l : jsmap WalletInfo,
    sanitizedEntries ((λ kv, (kv.1, Some (sanitizeWalletForStorage kv.2))) <$> l)
    = (λ kv, (kv.1, sanitizeWalletForStorage kv.2)) <$> l) as ->.
  { unfold sanitizedEntries. induction l as [|kv l IH]; csimpl; [done|]. simpl. rewrite <- IH. done. }
  apply (map_of_entries_id []). by apply map_wf_fmap, map_wf_object_order.
Qed.

Lemma stored_object_keyless m : js_some has_private_key (stored_object m) = false.
Proof. apply sanitized_keyless. Qed.

Lemma stored_active_cases s : wallet_inv s →
  stored_active (activeWallet s) = None ∨
  ∃ a, stored_active (activeWallet s) = Some a ∧ str_eqb a "" = false ∧
       map_has a (sanitized_list (wallets s)) = true.
Proof.
  intros [Hwf Hk Ha Hc]. unfold stored_active, truthy_str.
  destruct (activeWallet s) as [a|]; [|by left].
  destruct (str_eqb a "") eqn:E; cbn; [by left|]. right. exists a. split_and!; [done|done|].
  apply map_has_true. unfold sanitized_list.
  rewrite <- (map_get_perm ((λ kv, (kv.1, sanitizeWalletForStorage kv.2)) <$> wallets s))
    by (by apply map_wf_fmap || by rewrite object_order_perm).
  rewrite map_get_fmap. apply map_has_true in Ha as [w ->]. eauto.
Qed.

Lemma loaded_saved e s : wallet_inv s →
  loaded e (ls_wallets (saved s)) (ls_active (saved s)) =
  MkService (sanitized_list (wallets s)) (stored_active (activeWallet s))
    (storageSnapshot (saved s)) (ls_wallets (saved s)) (ls_active (saved s)).
Proof.
  intros Hs. unfold loaded, saved. cbn [ls_wallets ls_active truthy_cell storageSnapshot].
  rewrite stored_object_keyless, stored_entries by apply Hs.
  destruct (stored_active_cases s Hs) as [->|(a & -> & -> & ->)]; done.
Qed.

(** ** Selecting outputs *)

Lemma sum_by_fmap {A B} (g : B → num) (f : A → B) l : sum_by g (f <$> l) = sum_by (λ x, g (f x)) l.
Proof. unfold sum_by. generalize nzero. induction l; intros; csimpl; auto. Qed.

Definition change_outputs (addr : string) (change : num) : list TransactionOutput :=
  if SFltb dustThreshold change then [MkOutput addr change] else [].

Lemma rethrow_Ok {A} prefix (m : M A) w a w' : rethrow prefix m w = (Ok a, w') → m w = (Ok a, w').
Proof. unfold rethrow, js_try. by destruct (m w) as [[|] ?]. Qed.

(** A rate that was asked for is the one used. *)
Lemma feeRateOr_given api r w : truthy_num r = true → feeRateOr api (Some r) w = (Ok r, w).
Proof. unfold feeRateOr. by intros ->. Qed.

(** [tx] is what [createTransaction] builds from [utxos] at [rate]. *)
Record built_from (fromAddr toAddr : string) (amount rate : num) (utxos : list UTXO)
    (tx : UnsignedTransaction) : Prop := {
  bf_inputs : ∃ sel, inputs tx = (toInput fromAddr <$> sel) ∧
    covering_prefix u_amount (nadd amount (feeFor rate 250)) utxos sel;
  bf_fee : fee tx = feeFor rate (148 * Z.of_nat (length (inputs tx)) + 78);
  bf_covered : SFltb (sum_by in_amount (inputs tx)) (nadd amount (fee tx)) = false;
  bf_outputs : outputs tx = MkOutput toAddr amount ::
    change_outputs fromAddr (nsub (nsub (sum_by in_amount (inputs tx)) amount) (fee tx));
}.

(** C2: [createTransaction] leaves the service alone and, when it succeeds, both
    addresses were accepted by the node and the transaction spends the shortest
    prefix of the outputs the node lists for the sender that reaches the amount
    plus the rough fee, with the fee of its size at the requested rate, pays the
    recipient the amount first, returns the rest to the sender when it exceeds
    the dust threshold, and its inputs are not below amount plus fee. *)
Theorem createTransaction_sound api fromAddr toAddr amount feeRate w tx w'
    (H : createTransaction api fromAddr toAddr amount feeRate w = (Ok tx, w')) :
  w'.1 = w.1 ∧
  ∃ fromValid toValid utxos rate,
    validateAddress api (calls w.2) fromAddr = Ok fromValid ∧ isvalid fromValid = true ∧
    validateAddress api (S (calls w.2)) toAddr = Ok toValid ∧ isvalid toValid = true ∧
    listUnspent api (S (S (calls w.2))) 1 9999999 [fromAddr] = Ok utxos ∧ utxos ≠ [] ∧
    (∀ r, feeRate = Some r → truthy_num r = true → rate = r) ∧
    built_from fromAddr toAddr amount rate utxos tx.
Proof.
  split.
  { pose proof (neutral_createTransaction (λ s, s = w.1) api fromAddr toAddr amount feeRate w eq_refl) as E.
    by rewrite H in E. }
  apply rethrow_Ok in H.
  apply run_rpc_inv in H as (fv & H1 & H). apply run_rpc_inv in H as (tv & H2 & H).
  destruct (isvalid fv) eqn:Hf; cbn [negb] in H; [|done].
  destruct (isvalid tv) eqn:Ht; cbn [negb] in H; [|done].
  apply run_rpc_inv in H as (utxos & H3 & H).
  destruct (Nat.eqb _ 0) eqn:Hlen; [done|].
  apply run_bind_inv in H as (rate & w1 & Hrate & H).
  destruct (selectUntil _ _ _) as [sel total] eqn:Hsel.
  apply take_until_prefix in Hsel as [Hsel ->].
  destruct (SFltb _ amount); [done|]. destruct (SFltb _ (nadd _ _)) eqn:Hcov; [done|].
  apply run_ret_inv in H as [<- _]. exists fv, tv, utxos, rate. split_and!; try done.
  - by intros ->.
  - intros r -> Hr. rewrite feeRateOr_given in Hrate by done. congruence.
  - split; cbn [inputs fee outputs]; rewrite ?sum_by_fmap; cbn [in_amount toInput];
      [eauto| |exact Hcov|done].
    f_equal. lia.
Qed.

(** ** A concrete node *)

Definition demo_utxo (vout : Z) (addr : string) (amount : num) : UTXO :=
  MkUTXO "f4184fc5" vout addr "76a914" amount 3.

(** A node that accepts every address, lists three outputs of one coin and signs
    what it is given. *)
Definition demo_api : Api := {|
  getNewAddress _ lbl := Ok ("kc1" +:+ lbl);
  importPrivKey _ _ _ _ := Ok ();
  validateAddress _ a := Ok (MkAddressInfo true (Some a));
  listUnspent _ _ _ addrs :=
    Ok ((λ v, demo_utxo v (default "" (head addrs)) (of_Z 1)) <$> [0; 1; 2]);
  listTransactions _ _ _ _ _ := Ok [];
  getRawTransaction _ _ _ := Ok (RawHex "00");
  estimateSmartFee _ _ := Throw "no estimate";
  createRawTransaction _ _ _ := Ok "0100";
  signRawTransactionWithWallet _ h := Ok (h, true);
  sendRawTransaction _ _ := Ok "d5ada064";
|}.

Definition demo_wallet (a : string) : WalletInfo :=
  MkWalletInfo a "demo" (of_Z 5) nzero (Some "L1secret") None 1 None None.

(** Storage an old release left: the entry still carries a private key. *)
Definition legacy_cell : cell stored_wallets :=
  Some (TJson [("kc1a", Some (demo_wallet "kc1a")); ("kc1b", None)]).

Lemma createTransaction_sound_witness :
  ∃ tx w', createTransaction demo_api "kc1a" "kc1b" (lit 15 1) None (fresh None None, demo_env) = (Ok tx, w') ∧
  w'.1 = fresh None None ∧ length (inputs tx) = 2%nat.
Proof.
  eexists _, _. split; [vm_compute; reflexivity|]. split; [|reflexivity].
  refine (proj1 (createTransaction_sound demo_api "kc1a" "kc1b" (lit 15 1) None
    (fresh None None, demo_env) _ _ _)).
  vm_compute. reflexivity.
Defined.

(** ** Reachable states *)

Lemma inv_fresh c a : cell_ok c → wallet_inv (fresh c a).
Proof. intros Hc. constructor; cbn; auto using map_wf_nil, map_all_nil. Qed.

(** C1: in a browser whose storage accepts writes, from the moment the service is
    constructed over any stored data and after any sequence of operations
    (importing private keys included), balance replies and writes of other tabs
    that run the same service, the stored wallet object contains no private key. *)
Theorem storage_has_no_private_key api e c a w
    (Hbrowser : browser e = true) (Hwritable : writable e = true)
    (Hreach : rtc (step api) (constructor (fresh c a, e)).2 w) :
  keyless w.1.
Proof.
  apply (keyless_steps _ _ _ Hreach). unfold constructor. rewrite load_run by done.
  by apply loaded_keyless.
Qed.

Lemma storage_has_no_private_key_witness :
  browser demo_env = true ∧ writable demo_env = true ∧
  keyless (exec demo_api (OpImport "L1other" "x" false) (constructor (fresh legacy_cell None, demo_env)).2).2.1.
Proof.
  split_and!; [reflexivity..|].
  apply (storage_has_no_private_key demo_api demo_env legacy_cell None); [reflexivity..|].
  apply rtc_once. by constructor.
Defined.

(** C3: from construction over storage whose wallets are under their own addresses,
    every state the service reaches has unique keys, each wallet under its own
    address in memory and in storage, and an active wallet that is in the list. *)
Theorem reachable_wallets_consistent api e c a w
    (Hcell : cell_ok c) (Hreach : rtc (step api) (constructor (fresh c a, e)).2 w) :
  wallet_inv w.1.
Proof. by apply (inv_steps _ _ _ Hreach), inv_load, inv_fresh. Qed.

Lemma reachable_wallets_consistent_witness :
  wallet_inv (exec demo_api (OpDelete "kc1a") (constructor (fresh legacy_cell (Some "kc1a"), demo_env)).2).2.1.
Proof.
  apply (reachable_wallets_consistent demo_api demo_env legacy_cell (Some "kc1a")).
  - repeat constructor.
  - apply rtc_once. by constructor.
Defined.

(** C6: a service constructed over what another one saved holds the saved wallets,
    each without its private key, in the key order of a JavaScript object, and
    has the same active wallet. *)
Theorem save_then_load_roundtrip s e
    (Hs : wallet_inv s) (Hbrowser : browser e = true) (Hwritable : writable e = true) :
  let s1 := (saveWalletsToStorage (s, e)).2.1 in
  let s2 := (constructor (fresh (ls_wallets s1) (ls_active s1), e)).2.1 in
  wallets s2 = sanitized_list (wallets s) ∧
  (∀ k, map_get k (wallets s2) = sanitizeWalletForStorage <$> map_get k (wallets s)) ∧
  activeWallet s2 = stored_active (activeWallet s).
Proof.
  rewrite save_run. unfold save_result. rewrite Hbrowser, Hwritable. cbv zeta. cbn [andb fst snd].
  unfold constructor. rewrite load_run by done. cbn [fst snd].
  change (loaded e _ _) with (loaded e (ls_wallets (saved s)) (ls_active (saved s))).
  rewrite loaded_saved by done. split_and!; [done| |done]. intros k. cbn [wallets].
  unfold sanitized_list.
  rewrite <- (map_get_perm ((λ kv, (kv.1, sanitizeWalletForStorage kv.2)) <$> wallets s))
    by (by apply map_wf_fmap, Hs || by rewrite object_order_perm).
  apply map_get_fmap.
Qed.

Definition demo_service : WalletService :=
  MkService [("kc1a", demo_wallet "kc1a"); ("7", demo_wallet "7")] (Some "7") no_snapshot None None.

Lemma demo_service_inv : wallet_inv demo_service.
Proof. constructor; [by apply NoDup_ListNoDup; repeat constructor; set_solver|by repeat constructor|done|done]. Qed.

Lemma save_then_load_roundtrip_witness :
  let s1 := (saveWalletsToStorage (demo_service, demo_env)).2.1 in
  map_keys (wallets (constructor (fresh (ls_wallets s1) (ls_active s1), demo_env)).2.1) = ["7"; "kc1a"].
Proof.
  exact (f_equal map_keys (proj1 (save_then_load_roundtrip demo_service demo_env
    demo_service_inv eq_refl eq_refl))).
Defined.

(** ** Deleting a wallet *)

(** [deleteWallet] on a service in step with its storage answers whether the
    address was in the list, removes exactly that wallet, moves the active
    selection to the first remaining wallet when it was the deleted one and keeps
    it otherwise, and in a browser with room writes the new list. *)
Theorem deleteWallet_removes addr s e
    (Hs : wallet_inv s) (Hsync : synced s) (Hbrowser : browser e = true) (Hwritable : writable e = true) :
  let '(r, (s', e')) := deleteWallet addr (s, e) in
  r = Ok (map_has addr (wallets s)) ∧
  map_get addr (wallets s') = None ∧
  (∀ k, k ≠ addr → map_get k (wallets s') = map_get k (wallets s)) ∧
  activeWallet s' = (if bool_decide (activeWallet s = Some addr)
                     then address <$> head (map_values (wallets s')) else activeWallet s) ∧
  (map_has addr (wallets s) = true → ls_wallets s' = Some (TJson (stored_object (wallets s')))) ∧
  synced s'.
Proof.
  rewrite deleteWallet_run, refreshed_idle by auto. cbv zeta.
  unfold save_result. rewrite Hbrowser, Hwritable. cbn [andb].
  destruct (map_has addr (wallets s)) eqn:Hh; cbn.
  - split_and!; auto using map_get_delete_eq, map_get_delete_ne. done.
  - apply map_has_false in Hh. split_and!; try done.
    case_bool_decide as Ha; [|done]. destruct Hs as [_ _ Hact _]. rewrite Ha in Hact. simpl in Hact.
    apply map_has_true in Hact as [? ?]. congruence.
Qed.

Lemma deleteWallet_removes_witness :
  map_get "7" (wallets (deleteWallet "7" (saved demo_service, demo_env)).2.1) = None.
Proof.
  exact (proj1 (proj2 (deleteWallet_removes "7" (saved demo_service) demo_env
    (inv_save_result demo_env _ demo_service_inv) (saved_synced _) eq_refl eq_refl))).
Defined.

(** a balance update that read the wallet before it was deleted puts it back
    when the node's reply arrives: after [deleteWallet] returned true, the resumed
    update leaves the wallet in the list again, with the replied balances. *)
Theorem balance_reply_restores_deleted_wallet addr s e wl utxos
    (Hread : map_get addr (wallets s) = Some wl) (Hsync : synced s) :
  let w1 := (deleteWallet addr (s, e)).2 in
  let w2 := (updateWalletBalance_resume addr wl utxos w1).2 in
  (deleteWallet addr (s, e)).1 = Ok true ∧
  map_get addr (wallets w1.1) = None ∧
  map_get addr (wallets w2.1) = Some (with_balance (confirmedBalance utxos) (unconfirmedOf utxos) wl).
Proof.
  rewrite deleteWallet_run, refreshed_idle by auto. cbv zeta.
  assert (map_has addr (wallets s) = true) as -> by (apply map_has_true; eauto). cbn [fst snd].
  split_and!; [done| |].
  - unfold save_result. destruct (_ && _); apply map_get_delete_eq.
  - unfold updateWalletBalance_resume. js_run. rewrite save_run. cbn [fst snd].
    unfold save_result at 1. destruct (_ && _); apply map_get_set_eq.
Qed.

Lemma balance_reply_restores_deleted_wallet_witness :
  let w1 := (deleteWallet "7" (saved demo_service, demo_env)).2 in
  map_get "7" (wallets w1.1) = None ∧
  is_Some (map_get "7" (wallets (updateWalletBalance_resume "7" (demo_wallet "7") [] w1).2.1)).
Proof.
  destruct (balance_reply_restores_deleted_wallet "7" (saved demo_service) demo_env
    (demo_wallet "7") [] eq_refl (saved_synced _)) as (_ & H1 & H2).
  split; [exact H1|]. eexists. exact H2.
Defined.

(** ** Fees *)

(** when the node gives no estimate, the fee of a transaction with up to 500
    inputs is positive but less than one satoshi (0.00000001 coin), although the
    default rate is meant as 1 satoshi per byte, for which the fee would be the
    size in satoshis: the rate, already in coins, is divided by 10^8 again. *)
Theorem default_fee_below_one_satoshi n (Hn : (n <= 500)%nat) :
  let size := 148 * Z.of_nat n + 78 in
  SFltb nzero (feeFor default_fee_rate size) = true ∧
  SFltb (feeFor default_fee_rate size) (lit 1 8) = true ∧
  SFltb (lit 1 8) (lit size 8) = true.
Proof.
  assert (forallb (λ n, let size := 148 * Z.of_nat n + 78 in
    SFltb nzero (feeFor default_fee_rate size) && SFltb (feeFor default_fee_rate size) (lit 1 8)
    && SFltb (lit 1 8) (lit size 8)) (seq 0 501) = true) as H by (vm_compute; reflexivity).
  rewrite forallb_forall in H. specialize (H n ltac:(apply in_seq; lia)). cbv zeta in *.
  apply andb_true_iff in H as [H H3]. apply andb_true_iff in H as [H1 H2].
  split; [exact H1|split; [exact H2|exact H3]].
Qed.

Lemma default_fee_below_one_satoshi_witness :
  SFltb (feeFor default_fee_rate 374) (lit 1 8) = true.
Proof. exact (proj1 (proj2 (default_fee_below_one_satoshi 2 ltac:(lia)))). Defined.

(** ** The outputs handed to the node *)

Lemma map_get_of_pairs k (l : list (string * num)) (m : jsmap num) :
  map_get k (foldl (λ m kv, map_set kv.1 kv.2 m) m l) =
  match last (js_filter (λ kv, str_eqb kv.1 k) l) with Some kv => Some kv.2 | None => map_get k m end.
Proof.
  revert m. induction l as [|[k' v] l IH]; intros m; [done|]. cbn [foldl]. rewrite IH.
  unfold js_filter. cbn [List.filter fst]. destruct (str_eqb k' k) eqn:E.
  - apply str_eqb_true in E as ->. rewrite last_cons. destruct (last _); [done|]. apply map_get_set_eq.
  - apply str_eqb_false in E. destruct (last _); [done|]. by apply map_get_set_ne.
Qed.

(** in the record handed to [createrawtransaction] each address is paid the
    amount of the last output that names it, and the record is exactly the
    transaction's outputs when no address occurs twice. *)
Theorem outputRecord_pays_last outs :
  (∀ a, map_get a (outputRecord outs) =
        out_amount <$> last (js_filter (λ o, str_eqb (out_address o) a) outs)) ∧
  (NoDup (out_address <$> outs) →
   outputRecord outs ≡ₚ ((λ o, (out_address o, out_amount o)) <$> outs)).
Proof.
  unfold outputRecord. split.
  - intros a. rewrite <- (map_get_perm (map_of_entries ((λ o, (out_address o, out_amount o)) <$> outs)))
      by (by apply map_wf_of_entries || by rewrite object_order_perm).
    unfold map_of_entries. rewrite map_get_of_pairs.
    rewrite (js_filter_fmap _ _ (λ o, str_eqb (out_address o) a)) by done.
    rewrite fmap_last. by destruct (last _).
  - intros Hnd. rewrite object_order_perm. unfold map_of_entries.
    rewrite (map_of_entries_id []); [done|]. unfold map_wf, map_keys. simpl.
    by rewrite <- list_fmap_compose.
Qed.

Lemma outputRecord_pays_last_witness :
  outputRecord [MkOutput "kc1b" (of_Z 1); MkOutput "kc1a" (of_Z 2)] ≡ₚ [("kc1b", of_Z 1); ("kc1a", of_Z 2)].
Proof.
  apply (proj2 (outputRecord_pays_last [MkOutput "kc1b" (of_Z 1); MkOutput "kc1a" (of_Z 2)])).
  vm_compute. repeat constructor; set_solver.
Defined.

(** a transaction an address sends to itself, with change, asks the node to pay
    only the change: the payment is left to the miners as fee. *)
Theorem self_send_drops_payment addr amount change
    (Hchange : SFltb dustThreshold change = true) :
  outputRecord (MkOutput addr amount :: change_outputs addr change) = [(addr, change)].
Proof.
  unfold change_outputs. rewrite Hchange. unfold outputRecord, map_of_entries. cbn.
  rewrite str_eqb_refl. unfold object_order, js_filter. cbn. by destruct (is_index addr).
Qed.

Lemma self_send_drops_payment_witness :
  SFltb dustThreshold (of_Z 2) = true ∧
  outputRecord (MkOutput "kc1a" (of_Z 1) :: change_outputs "kc1a" (of_Z 2)) = [("kc1a", of_Z 2)].
Proof. split; [vm_compute; reflexivity|]. apply self_send_drops_payment. vm_compute. reflexivity. Defined.
