(* ===== verification/UtxoManager.v ===== *)
(** * [UTXOManagerService] (apps/web/wallet/src/services/utxoManager.ts)

    Coin control: locked outputs, labels, filters, and the selection of outputs for
    a payment by four strategies. *)

From S2P Require Import Prelude JsMap JsNumber JsString Store FloatFacts.
Record UTXO := MkUTXO {
  u_id : string;
  txid : string;
  vout : Z;
  address : string;
  amount : num;
  confirmations : Z;
  script : string;
  locked : bool;
  label : option string;
  note : option string;
  privacyScore : num;
  ageInBlocks : num;
}.

Record UTXOFilter := MkFilter {
  minAmount : option num;
  maxAmount : option num;
  minConfirmations : option Z;
  f_address : option string;
  f_locked : option bool;
}.

Record UTXOManager := MkManager { utxos : jsmap UTXO; ls_utxos : cell (list UTXO) }.

#[export] Instance utxo_store : Store UTXOManager UTXO := {|
  key := u_id;
  items := utxos;
  set_items m s := MkManager m (ls_utxos s);
  stored := ls_utxos;
  set_stored c s := MkManager (utxos s) c;
|}.

#[export] Instance utxo_store_laws : StoreLaws UTXOManager UTXO.
Proof. by split. Qed.

Abbreviation M := (js (UTXOManager * Env)).

Definition loadUTXOs : M () := b ← is_browser; js_when b load_items.
Definition saveUTXOs : M () := b ← is_browser; js_when b save_items.

Definition fresh (c : cell (list UTXO)) : UTXOManager := MkManager [] c.
Definition constructor : M () := loadUTXOs.

(** [utxos.filter(...)] when the field of the filter is given. *)
Definition filter_by {A} (o : option A) (p : A → UTXO → bool) (l : list UTXO) : list UTXO :=
  match o with Some a => js_filter (p a) l | None => l end.

Definition apply_filter (f : UTXOFilter) (l : list UTXO) : list UTXO :=
  let l := filter_by (minAmount f) (λ a u, SFleb a (amount u)) l in
  let l := filter_by (maxAmount f) (λ a u, SFleb (amount u) a) l in
  let l := filter_by (minConfirmations f) (λ n u, n <=? confirmations u) l in
  let l := if truthy_str (f_address f)
           then js_filter (λ u, includes (default "" (f_address f)) (address u)) l else l in
  filter_by (f_locked f) (λ b u, Bool.eqb (locked u) b) l.

Definition getAllUTXOs (filter : option UTXOFilter) : M (list UTXO) :=
  s ← this;
  let l := map_values (utxos s) in
  mret (match filter with Some f => apply_filter f l | None => l end).

Definition getUTXO (id : string) : M (option UTXO) := s ← this; mret (map_get id (utxos s)).

(** [const utxo = this.utxos.get(id); if (utxo) { change; this.saveUTXOs(); }] *)
Definition change_utxo (id : string) (f : UTXO → UTXO) : M () :=
  s ← this;
  js_when (map_has id (utxos s))
    (modify_this (λ s, set_items (map_update id f (utxos s)) s);; saveUTXOs).

Definition with_locked (b : bool) (u : UTXO) : UTXO :=
  MkUTXO (u_id u) (txid u) (vout u) (address u) (amount u) (confirmations u) (script u) b
    (label u) (note u) (privacyScore u) (ageInBlocks u).
Definition with_label (l : string) (u : UTXO) : UTXO :=
  MkUTXO (u_id u) (txid u) (vout u) (address u) (amount u) (confirmations u) (script u) (locked u)
    (Some l) (note u) (privacyScore u) (ageInBlocks u).
Definition with_note (n : string) (u : UTXO) : UTXO :=
  MkUTXO (u_id u) (txid u) (vout u) (address u) (amount u) (confirmations u) (script u) (locked u)
    (label u) (Some n) (privacyScore u) (ageInBlocks u).

Definition lockUTXO (id : string) : M () := change_utxo id (with_locked true).
Definition unlockUTXO (id : string) : M () := change_utxo id (with_locked false).
Definition setUTXOLabel (id l : string) : M () := change_utxo id (with_label l).
Definition setUTXONote (id n : string) : M () := change_utxo id (with_note n).

Inductive Strategy := largest_first | smallest_first | oldest_first | best_privacy.

(** Is the comparator of the strategy positive on [a], [b]? *)
Definition strategy_gt (st : Strategy) (a b : UTXO) : bool :=
  match st with
  | largest_first => SFltb nzero (nsub (amount b) (amount a))
  | smallest_first => SFltb nzero (nsub (amount a) (amount b))
  | oldest_first => SFltb nzero (nsub (ageInBlocks b) (ageInBlocks a))
  | best_privacy => SFltb nzero (nsub (privacyScore b) (privacyScore a))
  end.

Definition unlocked_only : UTXOFilter := MkFilter None None None None (Some false).

Definition selectUTXOs (targetAmount : num) (st : Strategy) : M (list UTXO) :=
  available ← getAllUTXOs (Some unlocked_only);
  let '(selected, total) := take_until amount targetAmount nzero (js_sort (strategy_gt st) available) in
  if SFltb total targetAmount then js_throw "Insufficient funds" else mret selected.

Definition consolidateDust (dustThreshold : num) : M (list UTXO * num) :=
  dust ← getAllUTXOs (Some (MkFilter None (Some dustThreshold) None None (Some false)));
  mret (dust, sum_by amount dust).

Record Statistics := MkStatistics {
  totalUTXOs : nat;
  totalValue : num;
  lockedUTXOs : nat;
  lockedValue : num;
  averageValue : num;
  averageAge : num;
}.

Definition average (f : UTXO → num) (l : list UTXO) : num :=
  if Nat.eqb (length l) 0 then nzero else ndiv (sum_by f l) (of_Z (Z.of_nat (length l))).

Definition getStatistics : M Statistics :=
  all ← getAllUTXOs None;
  let lock := js_filter locked all in
  mret (MkStatistics (length all) (sum_by amount all) (length lock) (sum_by amount lock)
          (average amount all) (average ageInBlocks all)).

Definition clearAllData : M () :=
  modify_this (set_items []);;
  ls_removeItem (set_stored None).

(** * Theorems *)

(** The outputs a selection may use, in the order of the strategy. *)
Definition candidates (st : Strategy) (s : UTXOManager) : list UTXO :=
  js_sort (strategy_gt st) (js_filter (λ u, negb (locked u)) (map_values (utxos s))).

Lemma apply_unlocked l : apply_filter unlocked_only l = js_filter (λ u, negb (locked u)) l.
Proof.
  unfold apply_filter. cbn. unfold js_filter. apply List.filter_ext. intros u. by destruct (locked u).
Qed.

Lemma candidates_unlocked st s u : u ∈ candidates st s → locked u = false ∧ u ∈ map_values (utxos s).
Proof.
  unfold candidates. rewrite elem_of_js_sort, elem_of_js_filter. intros [H1 H2].
  by apply negb_true_iff in H2.
Qed.

Lemma nltb_not_leb x y : SFltb x y = true → SFleb y x = false.
Proof. intros H. apply nltb_asym in H as H'. unfold SFltb, SFleb in *.
  rewrite (SFcompare_sym x y). destruct (SFcompare x y) as [[]|]; done. Qed.

Lemma covering_prefix_in {A} (f : A → num) t l sel : covering_prefix f t l sel → sel `prefix_of` l.
Proof. intros (n & -> & _). exists (drop n l). by rewrite take_drop. Qed.

(** Does [a] go before [b] under the strategy? *)
Definition goes_before (st : Strategy) (a b : UTXO) : Prop :=
  match st with
  | largest_first => SFltb (amount a) (amount b) = false
  | smallest_first => SFltb (amount b) (amount a) = false
  | oldest_first => SFltb (ageInBlocks a) (ageInBlocks b) = false
  | best_privacy => SFltb (privacyScore a) (privacyScore b) = false
  end.

Definition plain_utxo (u : UTXO) : Prop := plain_number (amount u) ∧ plain_number (ageInBlocks u) ∧ plain_number (privacyScore u).

Lemma sorted_by_strategy st l : Forall plain_utxo l → StronglySorted (goes_before st) (js_sort (strategy_gt st) l).
Proof.
  intros H. destruct st.
  - apply (sorted_down amount). eapply Forall_impl; [exact H|]. by intros u [].
  - apply (sorted_up amount). eapply Forall_impl; [exact H|]. by intros u [].
  - apply (sorted_down ageInBlocks). eapply Forall_impl; [exact H|]. by intros u (_ & ? & _).
  - apply (sorted_down privacyScore). eapply Forall_impl; [exact H|]. by intros u (_ & _ & ?).
Qed.

(** C9: [selectUTXOs] changes nothing, and either returns the shortest prefix, in
    the strategy's order, of the outputs that are not locked whose sum is not below
    the target, each of them an unlocked output of the wallet; or it reports
    insufficient funds, and then all unlocked outputs together are below the target. The order
    is that of the largest amounts, the smallest, the highest ages or the highest scores first,
    where these are finite numbers. *)
Theorem selectUTXOs_covers target st s e :
  let '(r, w') := selectUTXOs target st (s, e) in
  w' = (s, e) ∧
  match r with
  | Ok sel =>
      covering_prefix amount target (candidates st s) sel ∧
      SFltb (sum_by amount sel) target = false ∧
      Forall (λ u, locked u = false ∧ u ∈ map_values (utxos s)) sel
  | Throw msg =>
      msg = "Insufficient funds" ∧ SFltb (sum_by amount (candidates st s)) target = true
  end ∧
  candidates st s ≡ₚ js_filter (λ u, negb (locked u)) (map_values (utxos s)) ∧
  (Forall (λ kv, plain_utxo kv.2) (utxos s) → StronglySorted (goes_before st) (candidates st s)).
Proof.
  assert (Forall (λ kv, plain_utxo kv.2) (utxos s) → StronglySorted (goes_before st) (candidates st s)) as Hord.
  { intros H. apply sorted_by_strategy. apply Forall_forall. intros u [Hu _]%elem_of_js_filter.
    apply list_elem_of_fmap in Hu as (kv & -> & Hkv). rewrite Forall_forall in H. by apply H. }
  unfold selectUTXOs, getAllUTXOs. js_run. rewrite apply_unlocked. fold (candidates st s).
  destruct (take_until amount target nzero (candidates st s)) as [sel total] eqn:Hsel.
  apply take_until_prefix in Hsel as [Hsel ->].
  destruct (SFltb (sum_by amount sel) target) eqn:Hlt; cbn; split_and!; try done; try apply js_sort_perm.
  - destruct Hsel as (n & -> & _ & [->|Hreach]); [by rewrite firstn_all in Hlt|].
    apply nltb_not_leb in Hlt. congruence.
  - apply covering_prefix_in in Hsel as [rest Hl]. apply Forall_forall. intros u Hu.
    apply (candidates_unlocked st). rewrite Hl, elem_of_app. by left.
Qed.
