(* ===== verification/Optimizer.v ===== *)
(** * [Optimizer] (apps/web/wallet/src/services/optimizer.ts)

    Dust consolidation, output selection and stuck-transaction helpers, all on the
    active wallet of [WalletService]: its operations run in that service's state. *)

From S2P Require Import Prelude JsMap JsNumber JsString Wallet.

Definition DUST_THRESHOLD : num := lit 1 4.
Definition MIN_FEE : num := lit 1 5.

Section Node.
Context (api : Api).

Definition getUTXOs : M (list UTXO) :=
  wallet ← getActiveWallet;
  match wallet with
  | None => mret []
  | Some w => getUtxos api (address w) 0
  end.

Definition getTransaction (txId : string) : M (option WalletTransactionRecord) :=
  wallet ← getActiveWallet;
  match wallet with
  | None => mret None
  | Some w =>
      transactions ← getTransactionHistory api (address w) 50;
      mret (js_find (λ tx, str_eqb (rec_txid tx) txId) transactions)
  end.

Definition estimateOptimalFeeRate : M num :=
  js_try (estimateFee api 6) (λ _, mret MIN_FEE).

Definition estimateConsolidationFee (utxoCount : nat) : M num :=
  let txSize := Z.of_nat utxoCount * 150 + 50 + 10 in
  feeRate ← estimateOptimalFeeRate;
  mret (nmul (ndiv (of_Z txSize) (of_Z 1000)) feeRate).

Record DustAnalysis := MkDust {
  dustUtxoCount : nat;
  totalDustAmount : num;
  d_estimatedFee : num;
  worthConsolidating : bool;
}.

Definition is_dust (u : UTXO) : bool := SFltb (u_amount u) DUST_THRESHOLD.

Definition analyzeDustConsolidation : M DustAnalysis :=
  utxos ← getUTXOs;
  let dustUtxos := js_filter is_dust utxos in
  let total := sum_by u_amount dustUtxos in
  estimatedFee ← estimateConsolidationFee (length dustUtxos);
  mret (MkDust (length dustUtxos) total estimatedFee
          (SFltb (nmul estimatedFee (of_Z 2)) total)).

Definition consolidateDust : M string :=
  analysis ← analyzeDustConsolidation;
  if negb (worthConsolidating analysis) then
    js_throw "Dust consolidation is not worth it at current fee rates"
  else if Nat.eqb (dustUtxoCount analysis) 0 then js_throw "No dust UTXOs to consolidate"
  else
    wallet ← getActiveWallet;
    match wallet with
    | None => js_throw "No active wallet"
    | Some w =>
        utxos ← getUTXOs;
        consolidateUtxos api (address w) (js_filter is_dust utxos) (address w) None
    end.

Definition optimizeUTXOs : M string :=
  utxos ← getUTXOs;
  if Nat.leb (length utxos) 5 then js_throw "Not enough UTXOs to optimize (already optimal)"
  else
    let totalAmount := sum_by u_amount utxos in
    estimatedFee ← estimateConsolidationFee (length utxos);
    if SFleb totalAmount estimatedFee then
      js_throw "Insufficient balance to cover consolidation fee"
    else
      wallet ← getActiveWallet;
      match wallet with
      | None => js_throw "No active wallet"
      | Some w => consolidateUtxos api (address w) utxos (address w) None
      end.

(** [tx.fee || MIN_FEE] *)
Definition current_fee (tx : WalletTransactionRecord) : num := num_or (rec_fee tx) MIN_FEE.

Definition resolveStuckTransactionCPFP (parentTxId : string) : M string :=
  parentTx ← getTransaction parentTxId;
  match parentTx with
  | None => js_throw "Parent transaction not found"
  | Some tx =>
      let childFee := nadd (nmul (current_fee tx) (of_Z 3)) MIN_FEE in
      bumpFee parentTxId 0 childFee
  end.

(** A history record has no [rbfEnabled] property: reading it gives [undefined]. *)
Definition rbfEnabled (tx : WalletTransactionRecord) : option bool := None.

Definition resolveStuckTransactionRBF (txId : string) : M string :=
  tx ← getTransaction txId;
  match tx with
  | None => js_throw "Transaction not found"
  | Some tx =>
      if negb (default false (rbfEnabled tx)) then
        js_throw "Transaction does not support RBF (Replace-By-Fee)"
      else replaceTransaction txId (nmul (current_fee tx) (of_Z 2))
  end.

(** Estimated size, fee and rate. *)
Definition analyzeTransactionSize (inputCount outputCount : Z) : M (Z * num * num) :=
  let estimatedSize := inputCount * 150 + outputCount * 50 + 10 in
  feeRate ← estimateOptimalFeeRate;
  mret (estimatedSize, nmul (ndiv (of_Z estimatedSize) (of_Z 1000)) feeRate, feeRate).

Record Suggestion := MkSuggestion {
  s_utxos : list UTXO;
  s_totalAmount : num;
  s_estimatedFee : num;
  s_change : num;
}.

(** The loop: an output is taken before the total is compared. *)
Fixpoint take_reaching (target total : num) (l : list UTXO) : list UTXO * num :=
  match l with
  | [] => ([], total)
  | u :: l' =>
      let total' := nadd total (u_amount u) in
      if SFleb target total' then ([u], total')
      else let '(sel, t) := take_reaching target total' l' in (u :: sel, t)
  end.

Definition larger (a b : UTXO) : bool := SFltb nzero (nsub (u_amount b) (u_amount a)).

Definition suggestOptimalUTXOSelection (targetAmount : num) : M Suggestion :=
  utxos ← getUTXOs;
  let '(selected, totalAmount) := take_reaching targetAmount nzero (js_sort larger utxos) in
  if SFltb totalAmount targetAmount then js_throw "Insufficient balance"
  else
    estimatedFee ← estimateConsolidationFee (length selected);
    mret (MkSuggestion selected totalAmount estimatedFee
            (nsub (nsub totalAmount targetAmount) estimatedFee)).
End Node.

(** * Theorems *)

Definition throws {A} (r : result A) : Prop := ∃ msg, r = Throw msg.

Lemma bind_throws {A B} (m : M A) (k : A → M B) w :
  (∀ a w', throws (k a w').1) → throws ((m ≫= k) w).1.
Proof. intros Hk. unfold mbind, js_bind. destruct (m w) as [[a|msg] w']; [apply Hk|by exists msg]. Qed.

(** whatever the node replies and whatever the wallet holds, resolving a stuck
    transaction throws: child-pays-for-parent ends in the wallet's unimplemented
    [bumpFee], and replace-by-fee looks for a property no history record has. *)
Theorem stuck_transactions_stay_stuck api txId w :
  throws (resolveStuckTransactionCPFP api txId w).1 ∧
  throws (resolveStuckTransactionRBF api txId w).1.
Proof.
  split; apply bind_throws; intros [tx|] w'; by eexists.
Qed.
