(* ===== verification/Multisig.v ===== *)
(** * [MultiSigService] (apps/web/wallet/src/services/multisig.ts)

    Multi-signature wallets with their co-signers, and the transactions that wait
    for signatures. Both collections are written to [localStorage] without a
    guard, so a full storage makes an operation throw after its change in memory.
    Signature counts are integers. *)

From S2P Require Import Prelude JsMap JsNumber JsString Store.
Record CoSigner := MkCoSigner {
  cs_id : string;
  cs_name : string;
  cs_publicKey : string;
  cs_email : option string;
  cs_addedAt : Z;
}.

Record MultiSigWallet := MkMultiSigWallet {
  w_id : string;
  w_label : string;
  w_address : string;
  requiredSignatures : Z;
  totalSigners : Z;
  coSigners : list CoSigner;
  w_createdAt : Z;
  w_balance : num;
}.

Inductive TxStatus := pending | completed | expired | cancelled.

#[export] Instance TxStatus_eq_dec : EqDecision TxStatus.
Proof. solve_decision. Defined.

Record Signature := MkSignature { signerId : string; signature : string; signedAt : Z }.

Record PendingTransaction := MkPending {
  tx_id : string;
  walletId : string;
  tx_to : string;
  amount : num;
  fee : num;
  createdBy : string;
  createdAt : Z;
  expiresAt : Z;
  signatures : list Signature;
  status : TxStatus;
  description : option string;
}.

Record MultiSigService := MkMultiSigService {
  wallets : jsmap MultiSigWallet;
  pendingTxs : jsmap PendingTransaction;
  ls_wallets : cell (list MultiSigWallet);
  ls_pending : cell (list PendingTransaction);
}.

#[export] Instance wallet_store : Store MultiSigService MultiSigWallet := {|
  key := w_id;
  items := wallets;
  set_items m s := MkMultiSigService m (pendingTxs s) (ls_wallets s) (ls_pending s);
  stored := ls_wallets;
  set_stored c s := MkMultiSigService (wallets s) (pendingTxs s) c (ls_pending s);
|}.

#[export] Instance pending_store : Store MultiSigService PendingTransaction := {|
  key := tx_id;
  items := pendingTxs;
  set_items m s := MkMultiSigService (wallets s) m (ls_wallets s) (ls_pending s);
  stored := ls_pending;
  set_stored c s := MkMultiSigService (wallets s) (pendingTxs s) (ls_wallets s) c;
|}.

#[export] Instance wallet_store_laws : StoreLaws MultiSigService MultiSigWallet.
Proof. by split. Qed.
#[export] Instance pending_store_laws : StoreLaws MultiSigService PendingTransaction.
Proof. by split. Qed.

Abbreviation M := (js (MultiSigService * Env)).

Definition loadWallets : M () := load_items (V:=MultiSigWallet).
Definition saveWallets : M () := save_items (V:=MultiSigWallet).
Definition loadPendingTransactions : M () := load_items (V:=PendingTransaction).
Definition savePendingTransactions : M () := save_items (V:=PendingTransaction).

Definition constructor : M () := loadWallets;; loadPendingTransactions.

(** Changing an object of a collection through a reference to it. *)
Definition update_wallet (id : string) (f : MultiSigWallet → MultiSigWallet) : M () :=
  modify_this (λ s, set_items (map_update id f (wallets s)) s).
Definition update_pending (id : string) (f : PendingTransaction → PendingTransaction) : M () :=
  modify_this (λ s, set_items (map_update id f (pendingTxs s)) s).

Definition find_wallet (id : string) : M MultiSigWallet :=
  s ← this;
  match map_get id (wallets s) with
  | Some w => mret w
  | None => js_throw "Wallet not found"
  end.

Definition find_pending (id : string) : M PendingTransaction :=
  s ← this;
  match map_get id (pendingTxs s) with
  | Some tx => mret tx
  | None => js_throw "Transaction not found"
  end.

(** Creation validates the threshold and then refuses: an address cannot be
    derived without the node. The co-signers are given by name, key and e-mail. *)
Definition createMultiSigWallet (label : string) (required : Z)
    (signers : list (string * string * option string)) : M MultiSigWallet :=
  if (required <? 1) || (Z.of_nat (length signers) <? required) then
    js_throw "Invalid signature requirement"
  else js_throw ("Multisig wallet creation is not yet integrated with the blockchain node. " +:+
                 "Please use the node CLI to create a multisig wallet.").

Definition getMultiSigWallets : M (list MultiSigWallet) :=
  s ← this; mret (map_values (wallets s)).

Definition getMultiSigWallet (id : string) : M (option MultiSigWallet) :=
  s ← this; mret (map_get id (wallets s)).

Definition with_signers (l : list CoSigner) (w : MultiSigWallet) : MultiSigWallet :=
  MkMultiSigWallet (w_id w) (w_label w) (w_address w) (requiredSignatures w)
    (Z.of_nat (length l)) l (w_createdAt w) (w_balance w).

Definition addCoSigner (id name publicKey : string) (email : option string) : M () :=
  wallet ← find_wallet id;
  now ← date_now;
  added ← date_now;
  let newCoSigner := MkCoSigner
    ("signer_" +:+ pretty (length (coSigners wallet)) +:+ "_" +:+ pretty now)
    name publicKey email added in
  update_wallet id (with_signers (coSigners wallet ++ [newCoSigner]));;
  saveWallets.

Definition removeCoSigner (id signer : string) : M () :=
  wallet ← find_wallet id;
  let rest := js_filter (λ cs, negb (str_eqb (cs_id cs) signer)) (coSigners wallet) in
  update_wallet id (with_signers rest);;
  if Z.of_nat (length rest) <? requiredSignatures wallet then
    js_throw "Cannot remove signer: would make wallet unusable"
  else saveWallets.

Definition week : Z := 7 * 24 * 60 * 60 * 1000.

Definition createPendingTransaction (wid to : string) (amt fee : num) (by_ : string)
    (desc : option string) : M PendingTransaction :=
  find_wallet wid;;
  t0 ← date_now;
  r ← random36;
  t1 ← date_now;
  t2 ← date_now;
  let tx := MkPending ("pending_" +:+ pretty t0 +:+ "_" +:+ r) wid to amt fee by_ t1
              (t2 + week) [] pending desc in
  put_item tx;;
  savePendingTransactions;;
  mret tx.

Definition with_signatures (l : list Signature) (st : TxStatus) (tx : PendingTransaction) :=
  MkPending (tx_id tx) (walletId tx) (tx_to tx) (amount tx) (fee tx) (createdBy tx)
    (createdAt tx) (expiresAt tx) l st (description tx).

Definition with_status (st : TxStatus) (tx : PendingTransaction) : PendingTransaction :=
  with_signatures (signatures tx) st tx.

Definition signTransaction (txId signer sig : string) : M PendingTransaction :=
  tx ← find_pending txId;
  if negb (bool_decide (status tx = pending)) then js_throw "Transaction is not pending" else
  wallet ← find_wallet (walletId tx);
  if negb (js_some (λ cs, str_eqb (cs_id cs) signer) (coSigners wallet)) then
    js_throw "Invalid signer"
  else if js_some (λ s, str_eqb (signerId s) signer) (signatures tx) then
    js_throw "Already signed by this signer"
  else
    now ← date_now;
    let sigs := signatures tx ++ [MkSignature signer sig now] in
    let st := if requiredSignatures wallet <=? Z.of_nat (length sigs) then completed
              else status tx in
    update_pending txId (with_signatures sigs st);;
    savePendingTransactions;;
    mret (with_signatures sigs st tx).

Definition getPendingTransactions (wid : option string) : M (list PendingTransaction) :=
  s ← this;
  let txs := map_values (pendingTxs s) in
  let txs := if truthy_str wid
             then js_filter (λ tx, bool_decide (Some (walletId tx) = wid)) txs else txs in
  mret (js_sort (λ a b, createdAt a <? createdAt b) txs).

Definition cancelTransaction (txId : string) : M () :=
  find_pending txId;;
  update_pending txId (with_status cancelled);;
  savePendingTransactions.

Definition with_required (n : Z) (w : MultiSigWallet) : MultiSigWallet :=
  MkMultiSigWallet (w_id w) (w_label w) (w_address w) n (totalSigners w) (coSigners w)
    (w_createdAt w) (w_balance w).

Definition updateThreshold (id : string) (newThreshold : Z) : M () :=
  wallet ← find_wallet id;
  if (newThreshold <? 1) || (totalSigners wallet <? newThreshold) then
    js_throw "Invalid threshold"
  else
    update_wallet id (with_required newThreshold);;
    saveWallets.

Definition deleteWallet (id : string) : M () :=
  modify_this (λ s, set_items (map_delete id (wallets s)) s);;
  s ← this;
  let doomed := js_filter (λ tx, str_eqb (walletId tx) id) (map_values (pendingTxs s)) in
  modify_this (λ s, set_items
    (foldl (λ m tx, map_delete (tx_id tx) m) (pendingTxs s) doomed) s);;
  saveWallets;;
  savePendingTransactions.

(** * Theorems *)

(** ** The invariant *)

Definition tx_ok (tx : PendingTransaction) : Prop := NoDup (signerId <$> signatures tx).
Definition signers_counted (w : MultiSigWallet) : Prop :=
  totalSigners w = Z.of_nat (length (coSigners w)).

Record ms_inv (s : MultiSigService) : Prop := {
  ms_wallets : keyed (wallets s);
  ms_counted : map_all (λ _, signers_counted) (wallets s);
  ms_pending : keyed (pendingTxs s);
  ms_txs : map_all (λ _, tx_ok) (pendingTxs s);
}.

Lemma ms_inv_set_wallets s m :
  ms_inv s → keyed m → map_all (λ _, signers_counted) m → ms_inv (set_items m s).
Proof. by intros [????]; constructor. Qed.

Lemma ms_inv_set_pending s m :
  ms_inv s → keyed m → map_all (λ _, tx_ok) m → ms_inv (set_items m s).
Proof. by intros [????]; constructor. Qed.

Lemma ms_saveWallets : preserves ms_inv saveWallets.
Proof. apply preserves_save_items. by intros c s [????]; constructor. Qed.
Lemma ms_savePending : preserves ms_inv savePendingTransactions.
Proof. apply preserves_save_items. by intros c s [????]; constructor. Qed.

Lemma ms_find_wallet id : preserves ms_inv (find_wallet id).
Proof. unfold find_wallet. js_preserve. Qed.
Lemma ms_find_pending id : preserves ms_inv (find_pending id).
Proof. unfold find_pending. js_preserve. Qed.

Lemma ms_update_wallet id f :
  (∀ w, w_id (f w) = w_id w) → (∀ w, signers_counted w → signers_counted (f w)) →
  preserves ms_inv (update_wallet id f).
Proof.
  intros Hid Hf. apply preserves_modify. intros s [Hw Hc Hp Ht].
  apply ms_inv_set_wallets; [by constructor|by apply keyed_update|]. by apply map_all_update.
Qed.

Lemma ms_update_pending id f :
  (∀ tx, tx_id (f tx) = tx_id tx) → (∀ tx, tx_ok tx → tx_ok (f tx)) →
  preserves ms_inv (update_pending id f).
Proof.
  intros Hid Hf. apply preserves_modify. intros s [Hw Hc Hp Ht].
  apply ms_inv_set_pending; [by constructor|by apply keyed_update|]. by apply map_all_update.
Qed.

#[local] Hint Resolve ms_saveWallets ms_savePending ms_find_wallet ms_find_pending : js.

Lemma ms_addCoSigner id n p m : preserves ms_inv (addCoSigner id n p m).
Proof. unfold addCoSigner. js_preserve. by apply ms_update_wallet. Qed.

Lemma ms_removeCoSigner id c : preserves ms_inv (removeCoSigner id c).
Proof. unfold removeCoSigner. js_preserve. by apply ms_update_wallet. Qed.

Lemma ms_updateThreshold id n : preserves ms_inv (updateThreshold id n).
Proof. unfold updateThreshold. js_preserve. by apply ms_update_wallet. Qed.

Lemma ms_cancel id : preserves ms_inv (cancelTransaction id).
Proof. unfold cancelTransaction. js_preserve. by apply ms_update_pending. Qed.

Lemma ms_createPending w t a f b d : preserves ms_inv (createPendingTransaction w t a f b d).
Proof.
  unfold createPendingTransaction, put_item. js_preserve. apply preserves_modify.
  intros s Hs. apply ms_inv_set_pending; [done|apply keyed_set, Hs|].
  apply map_all_set; [|apply Hs]. apply NoDup_nil_2.
Qed.

Lemma not_yet_signed signer l :
  js_some (λ s, str_eqb (signerId s) signer) l = false ↔ signer ∉ (signerId <$> l).
Proof.
  rewrite js_some_false. split.
  - intros H (x & -> & Hx)%list_elem_of_fmap. specialize (H x Hx). cbv beta in H.
    by rewrite str_eqb_refl in H.
  - intros H x Hx. apply str_eqb_false. intros <-. apply H. by apply list_elem_of_fmap_2.
Qed.

Lemma NoDup_sign l signer sig now :
  NoDup (signerId <$> l) → signer ∉ (signerId <$> l) →
  NoDup (signerId <$> l ++ [MkSignature signer sig now]).
Proof.
  intros Hl Hs. rewrite fmap_app. apply NoDup_app. split_and!; [done| |apply NoDup_singleton].
  intros x Hx ->%list_elem_of_singleton. done.
Qed.

Lemma ms_sign txId signer sig : preserves ms_inv (signTransaction txId signer sig).
Proof.
  intros [s e] Hs. unfold signTransaction, find_pending. js_run.
  destruct (map_get txId (pendingTxs s)) as [tx|] eqn:Hg; [|done]. js_run.
  destruct (bool_decide _); cbn [negb]; [|done]. unfold find_wallet. js_run.
  destruct (map_get _ (wallets s)) as [w|]; [|done]. js_run.
  destruct (negb _); [done|]. destruct (js_some _ (signatures tx)) eqn:Hd; [done|]. js_run.
  apply not_yet_signed in Hd.
  refine (preserves_bind ms_inv _ _ _ _ (s, tick e) Hs).
  - apply preserves_modify. intros s0 Hs0. apply ms_inv_set_pending; [done|by apply keyed_update, Hs0|].
    apply map_all_update; [|apply Hs0]. intros v _. apply NoDup_sign; [|done].
    exact (map_all_get _ _ _ _ (ms_txs _ Hs) Hg).
  - intros _. js_preserve.
Qed.

Lemma keyed_delete_list (l : list PendingTransaction) m :
  keyed m → map_all (λ _, tx_ok) m →
  let m' := foldl (λ m tx, map_delete (tx_id tx) m) m l in
  keyed m' ∧ map_all (λ _, tx_ok) m'.
Proof.
  revert m. induction l as [|tx l IH]; intros m Hk Ht; [done|]. apply IH; auto with jsmap.
Qed.

Lemma ms_deleteWallet id : preserves ms_inv (deleteWallet id).
Proof.
  unfold deleteWallet. apply preserves_bind.
  { apply preserves_modify. intros s Hs. apply ms_inv_set_wallets; [done|apply keyed_delete, Hs|].
    apply map_all_delete, Hs. }
  intros _. apply preserves_this. intros s1 _. cbv zeta. apply preserves_bind.
  { apply preserves_modify. intros s Hs.
    destruct (keyed_delete_list (js_filter (λ tx, str_eqb (walletId tx) id) (map_values (pendingTxs s1)))
      (pendingTxs s)) as [??]; [apply Hs..|]. by apply ms_inv_set_pending. }
  intros _. js_preserve.
Qed.

(** ** Operations as steps *)

Inductive operation :=
  | OpAddCoSigner (id name publicKey : string) (email : option string)
  | OpRemoveCoSigner (id signer : string)
  | OpCreatePending (wid to : string) (amt fee : num) (by_ : string) (desc : option string)
  | OpSign (txId signer sig : string)
  | OpCancel (txId : string)
  | OpThreshold (id : string) (n : Z)
  | OpDelete (id : string).

Definition exec (o : operation) : M () :=
  match o with
  | OpAddCoSigner i n p m => addCoSigner i n p m
  | OpRemoveCoSigner i c => removeCoSigner i c
  | OpCreatePending w t a f b d => createPendingTransaction w t a f b d;; mret ()
  | OpSign t c g => signTransaction t c g;; mret ()
  | OpCancel t => cancelTransaction t
  | OpThreshold i n => updateThreshold i n
  | OpDelete i => deleteWallet i
  end.

Inductive step : MultiSigService * Env → MultiSigService * Env → Prop :=
  | step_op o w : step w (exec o w).2.

#[local] Hint Resolve ms_addCoSigner ms_removeCoSigner ms_createPending ms_sign ms_cancel
  ms_updateThreshold ms_deleteWallet : js.

Lemma ms_exec o : preserves ms_inv (exec o).
Proof. destruct o; unfold exec; js_preserve. Qed.

Definition fresh (cw : cell (list MultiSigWallet)) (cp : cell (list PendingTransaction)) :=
  MkMultiSigService [] [] cw cp.

Lemma ms_constructor cw cp e :
  cell_all signers_counted cw → cell_all tx_ok cp →
  ms_inv (constructor (fresh cw cp, e)).2.1.
Proof.
  intros Hw Hp.
  assert (ms_inv (fresh cw cp)) as H0 by (constructor; auto using keyed_nil, map_all_nil).
  unfold constructor, loadWallets, loadPendingTransactions.
  destruct (load_items_cases (V:=MultiSigWallet) (fresh cw cp) e) as (r & s1 & E1 & Hs1).
  unfold mbind, js_bind. rewrite E1.
  assert (ms_inv s1 ∧ ls_pending s1 = cp) as [H1 Hc].
  { destruct Hs1 as [->|(l & Hl & ->)]; [done|]. split; [|done]. cbn in Hl. subst cw.
    apply ms_inv_set_wallets; [done|by apply keyed_set_all, keyed_nil|].
    apply map_all_set_all_list; [apply map_all_nil|exact Hw]. }
  destruct r; [|done].
  destruct (load_items_cases (V:=PendingTransaction) s1 e) as (r2 & s2 & -> & Hs2).
  destruct Hs2 as [->|(l & Hl & ->)]; [done|].
  change (ls_pending s1 = Some (TJson l)) in Hl. rewrite Hl in Hc. subst cp.
  apply (ms_inv_set_pending s1); [done|apply (keyed_set_all (S:=MultiSigService)), H1|].
  apply map_all_set_all_list; [apply H1|exact Hp].
Qed.

(** C4: from storage whose transactions carry at most one signature per signer and
    whose wallets count their signers, every state reached by any sequence of
    operations, failed ones included, keeps each wallet's signer count equal to its
    signers, each object under its identifier, and at most one signature per signer
    on every transaction. *)
Theorem multisig_reachable_consistent cw cp e w
    (Hw : cell_all signers_counted cw) (Hp : cell_all tx_ok cp)
    (Hreach : rtc step (constructor (fresh cw cp, e)).2 w) :
  ms_inv w.1.
Proof.
  pose proof (ms_constructor cw cp e Hw Hp) as H.
  induction Hreach as [|w1 w2 w3 [o w1'] _ IH]; [done|]. by apply IH, ms_exec.
Qed.

(** ** A concrete wallet *)

Definition demo_signer (id : string) : CoSigner := MkCoSigner id "name" "02ab" None 1.
Definition demo_msw : MultiSigWallet :=
  MkMultiSigWallet "w" "joint" "kc1m" 2 2 (demo_signer <$> ["a"; "b"]) 1 (of_Z 10).
Definition demo_tx : PendingTransaction :=
  MkPending "t" "w" "kc1x" (of_Z 1) (lit 1 4) "a" 1 1000 [MkSignature "a" "3045" 5] pending None.
Definition demo_ms : MultiSigService :=
  MkMultiSigService [("w", demo_msw)] [("t", demo_tx)] None None.

Lemma multisig_reachable_consistent_witness :
  ms_inv (exec (OpSign "t" "b" "3046")
    (constructor (fresh (Some (TJson [demo_msw])) (Some (TJson [demo_tx])), demo_env)).2).2.1.
Proof.
  apply (multisig_reachable_consistent (Some (TJson [demo_msw])) (Some (TJson [demo_tx])) demo_env).
  - by repeat constructor.
  - repeat constructor. set_solver.
  - apply rtc_once. by constructor.
Defined.

(** ** Signing *)

(** C5: when [signTransaction] returns a transaction, the stored one was pending,
    the signer is a co-signer of its wallet who had not signed, the new signature
    is appended, every signature is by a different signer, the status becomes
    completed exactly when their number reaches the wallet's threshold, and the
    updated collection is what storage holds. *)
Theorem signTransaction_accepts txId signer sig s e tx' s' e'
    (Hs : ms_inv s) (H : signTransaction txId signer sig (s, e) = (Ok tx', (s', e'))) :
  ∃ tx w,
    map_get txId (pendingTxs s) = Some tx ∧ status tx = pending ∧
    map_get (walletId tx) (wallets s) = Some w ∧
    (∃ cs, cs ∈ coSigners w ∧ cs_id cs = signer) ∧
    signer ∉ (signerId <$> signatures tx) ∧
    signatures tx' = signatures tx ++ [MkSignature signer sig (reading e 0)] ∧
    NoDup (signerId <$> signatures tx') ∧
    (status tx' = completed ↔ requiredSignatures w <= Z.of_nat (length (signatures tx'))) ∧
    (status tx' = completed ∨ status tx' = pending) ∧
    map_get txId (pendingTxs s') = Some tx' ∧
    (∀ k, k ≠ txId → map_get k (pendingTxs s') = map_get k (pendingTxs s)) ∧
    wallets s' = wallets s ∧ ls_pending s' = Some (TJson (map_values (pendingTxs s'))).
Proof.
  unfold signTransaction, find_pending in H. rewrite run_bind, run_this in H. cbn [fst] in H.
  destruct (map_get txId (pendingTxs s)) as [tx|] eqn:Hg; [|done]. rewrite run_ret in H.
  destruct (bool_decide (status tx = pending)) eqn:Hst; cbn [negb] in H; [|done].
  apply bool_decide_eq_true in Hst. unfold find_wallet in H. rewrite run_bind, run_this in H. cbn [fst] in H.
  destruct (map_get (walletId tx) (wallets s)) as [w|] eqn:Hw; [|done]. rewrite run_ret in H.
  destruct (js_some _ (coSigners w)) eqn:Hc; cbn [negb] in H; [|done].
  destruct (js_some _ (signatures tx)) eqn:Hd; [done|].
  apply js_some_true in Hc as (cs & Hcs & Hid%str_eqb_true). apply not_yet_signed in Hd.
  rewrite run_date_now in H. cbv zeta in H. unfold update_pending in H. rewrite run_modify in H.
  unfold savePendingTransactions in H. unfold mbind, js_bind in H. rewrite save_items_run in H.
  cbn [fst snd] in H. destruct (writable (tick e)) eqn:Hwr; [|done]. injection H as <- <- <-.
  exists tx, w. unfold reading. rewrite Nat.add_0_r. cbn [pendingTxs wallets ls_pending set_items set_stored
    pending_store status signatures with_signatures items].
  split_and!; try done.
  - by exists cs.
  - apply NoDup_sign; [|done]. exact (map_all_get _ _ _ _ (ms_txs _ Hs) Hg).
  - rewrite Hst. destruct (Z.leb_spec (requiredSignatures w)
      (Z.of_nat (length (signatures tx ++ [MkSignature signer sig (clock e (ticks e))]))));
      split; intros; try done; lia.
  - rewrite Hst. destruct (_ <=? _); auto.
  - by rewrite map_get_update, Hg.
  - intros k Hk. by apply map_get_update_ne.
Qed.

Lemma signTransaction_accepts_witness :
  ∃ tx' w', signTransaction "t" "b" "3046" (demo_ms, demo_env) = (Ok tx', w') ∧ status tx' = completed.
Proof.
  eexists _, (_, _). split; [vm_compute; reflexivity|].
  destruct (signTransaction_accepts "t" "b" "3046" demo_ms demo_env _ _ _
    ltac:(constructor; repeat constructor; set_solver) eq_refl)
    as (tx & w & Htx & _ & Hw & _ & _ & _ & _ & Hiff & _).
  apply Hiff. cbn in Htx. injection Htx as <-. cbn in Hw. injection Hw as <-. vm_compute. done.
Defined.

(** when [signTransaction] throws and storage is writable, nothing changed:
    an unknown or finished transaction, an unknown signer and a second signature by
    the same signer are refused without effect. *)
Theorem signTransaction_refuses_unchanged txId signer sig s e msg w'
    (Hwritable : writable e = true)
    (H : signTransaction txId signer sig (s, e) = (Throw msg, w')) : w'.1 = s.
Proof.
  unfold signTransaction, find_pending in H. rewrite run_bind, run_this in H. cbn [fst] in H.
  destruct (map_get txId (pendingTxs s)) as [tx|]; [|by injection H as _ <-]. rewrite run_ret in H.
  destruct (negb _) in H; [by injection H as _ <-|]. unfold find_wallet in H.
  rewrite run_bind, run_this in H. cbn [fst] in H.
  destruct (map_get (walletId tx) (wallets s)) as [w|]; [|by injection H as _ <-]. rewrite run_ret in H.
  destruct (negb _) in H; [by injection H as _ <-|]. destruct (js_some _ _); [by injection H as _ <-|].
  rewrite run_date_now in H. cbv zeta in H. unfold update_pending in H. rewrite run_modify in H.
  unfold savePendingTransactions in H. unfold mbind, js_bind in H. rewrite save_items_run in H.
  cbn [snd] in H. change (writable (tick e)) with (writable e) in H. by rewrite Hwritable in H.
Qed.

Lemma signTransaction_refuses_unchanged_witness :
  ∃ msg w', signTransaction "t" "a" "3046" (demo_ms, demo_env) = (Throw msg, w') ∧ w'.1 = demo_ms.
Proof.
  eexists "Already signed by this signer", _. split; [vm_compute; reflexivity|].
  by apply (signTransaction_refuses_unchanged "t" "a" "3046" demo_ms demo_env "Already signed by this signer").
Defined.

(** a removal that is refused because it would leave fewer signers than the
    threshold has already removed the signer: after the error the wallet in memory
    needs more signatures than it has signers, so none of its transactions can
    complete any more. *)
Theorem refused_removal_takes_effect id signer s e w
    (Hw : map_get id (wallets s) = Some w)
    (Hlast : Z.of_nat (length (js_filter (λ cs, negb (str_eqb (cs_id cs) signer)) (coSigners w)))
             < requiredSignatures w) :
  let '(r, (s', _)) := removeCoSigner id signer (s, e) in
  r = Throw "Cannot remove signer: would make wallet unusable" ∧
  ∃ w', map_get id (wallets s') = Some w' ∧
    signer ∉ (cs_id <$> coSigners w') ∧ totalSigners w' < requiredSignatures w'.
Proof.
  unfold removeCoSigner, find_wallet. js_run. rewrite Hw. js_run.
  unfold update_wallet. js_run. rewrite (proj2 (Z.ltb_lt _ _) Hlast). cbn.
  split; [done|]. rewrite map_get_update, Hw. eexists. split; [done|]. split; [|done].
  intros (cs & -> & [_ Hcs]%elem_of_js_filter)%list_elem_of_fmap. by rewrite str_eqb_refl in Hcs.
Qed.

Lemma refused_removal_takes_effect_witness :
  ∃ w', map_get "w" (wallets (removeCoSigner "w" "b" (demo_ms, demo_env)).2.1) = Some w' ∧
    totalSigners w' < requiredSignatures w'.
Proof.
  destruct (refused_removal_takes_effect "w" "b" demo_ms demo_env demo_msw eq_refl eq_refl)
    as (_ & w' & H1 & _ & H2). exists w'. split; [exact H1|exact H2].
Defined.
