(* ===== verification/MultisigWallet.v ===== *)
(** * [MultiSigWalletService] (apps/web/wallet/src/services/multisigWallet.ts)

    The in-memory multi-signature service with signer roles, spending limits and
    rejections. Creating a wallet validates its arguments and then refuses, so the
    wallet map starts and stays empty; the other operations are stated over any map. *)

From S2P Require Import Prelude JsMap JsNumber JsString.
Inductive Role := admin | signer | viewer.

#[export] Instance Role_eq_dec : EqDecision Role.
Proof. solve_decision. Defined.

Record CoSigner := MkCoSigner {
  cs_id : string;
  cs_name : string;
  cs_address : string;
  role : Role;
  addedDate : Z;
}.

Record MultiSigWallet := MkMultiSigWallet {
  w_id : string;
  w_name : string;
  w_address : string;
  requiredSignatures : Z;
  totalSigners : Z;
  coSigners : list CoSigner;
  w_balance : num;
  spendingLimit : option num;
  timeLockHours : option num;
  w_createdDate : Z;
}.

Inductive TxStatus := pending | approved | rejected | executed | expired.

#[export] Instance TxStatus_eq_dec : EqDecision TxStatus.
Proof. solve_decision. Defined.

Record Signature := MkSignature {
  signerId : string; signerName : string; signature : string; signedDate : Z }.
Record Rejection := MkRejection {
  rejId : string; rejName : string; rejectedDate : Z; reason : option string }.

Record PendingTransaction := MkPending {
  tx_id : string;
  walletId : string;
  tx_to : string;
  amount : num;
  fee : num;
  description : string;
  createdBy : string;
  createdDate : Z;
  executionDate : option num;
  signatures : list Signature;
  rejections : list Rejection;
  status : TxStatus;
}.

Record MultiSigWalletService := MkService {
  wallets : jsmap MultiSigWallet;
  pendingTransactions : jsmap PendingTransaction;
}.

Definition set_wallets m s := MkService m (pendingTransactions s).
Definition set_pending m s := MkService (wallets s) m.

Abbreviation M := (js (MultiSigWalletService * Env)).

Definition constructor : MultiSigWalletService := MkService [] [].

Definition getAllWallets : M (list MultiSigWallet) := s ← this; mret (map_values (wallets s)).
Definition getWallet (id : string) : M (option MultiSigWallet) :=
  s ← this; mret (map_get id (wallets s)).

(** The co-signers are given by name, address and role. *)
Definition createWallet (name : string) (required : Z) (signers : list (string * string * Role))
    (limit hours : option num) : M MultiSigWallet :=
  if Z.of_nat (length signers) <? required then
    js_throw "Required signatures cannot exceed total signers"
  else if required <? 1 then js_throw "At least 1 signature is required"
  else js_throw ("Multisig wallet creation is not yet integrated with the blockchain node. " +:+
                 "Please use the node CLI to create a multisig wallet.").

Definition find_wallet (id : string) : M MultiSigWallet :=
  s ← this;
  match map_get id (wallets s) with
  | Some w => mret w
  | None => js_throw "Wallet not found"
  end.

Definition find_tx (id : string) : M PendingTransaction :=
  s ← this;
  match map_get id (pendingTransactions s) with
  | Some tx => mret tx
  | None => js_throw "Transaction not found"
  end.

Definition find_signer (w : MultiSigWallet) (id : string) : M CoSigner :=
  match js_find (λ cs, str_eqb (cs_id cs) id) (coSigners w) with
  | Some cs => mret cs
  | None => js_throw "Signer not found in wallet"
  end.

Definition put_tx (id : string) (tx : PendingTransaction) : M () :=
  modify_this (λ s, set_pending (map_set id tx (pendingTransactions s)) s).
Definition put_wallet (id : string) (w : MultiSigWallet) : M () :=
  modify_this (λ s, set_wallets (map_set id w (wallets s)) s).

Definition createTransaction (wid to : string) (amt : num) (desc by_ : string) : M PendingTransaction :=
  wallet ← find_wallet wid;
  let limit := num_or (spendingLimit wallet) nzero in
  if truthy_num limit && SFltb limit amt then
    js_throw ("Amount exceeds spending limit of " +:+ num_to_string limit +:+ " KC")
  else if SFltb (w_balance wallet) amt then js_throw "Insufficient balance"
  else
    t0 ← date_now;
    let txId := "tx_pending_" +:+ pretty t0 in
    let fee := nmax (lit 1 1) (nmul amt (lit 1 4)) in
    let hours := num_or (timeLockHours wallet) nzero in
    exec ← (if truthy_num hours then
              t ← date_now;
              mret (Some (nadd (of_Z t)
                (nmul (nmul (nmul hours (of_Z 60)) (of_Z 60)) (of_Z 1000))))
            else mret None);
    t1 ← date_now;
    let tx := MkPending txId wid to amt fee desc by_ t1 exec [] [] pending in
    put_tx txId tx;;
    mret tx.

Definition is_pending (tx : PendingTransaction) : bool := bool_decide (status tx = pending).

Definition getPendingTransactions (wid : option string) : M (list PendingTransaction) :=
  s ← this;
  let all := map_values (pendingTransactions s) in
  mret (if truthy_str wid
        then js_filter (λ tx, bool_decide (Some (walletId tx) = wid) && is_pending tx) all
        else js_filter is_pending all).

Definition with_signatures (l : list Signature) (st : TxStatus) (tx : PendingTransaction) :=
  MkPending (tx_id tx) (walletId tx) (tx_to tx) (amount tx) (fee tx) (description tx)
    (createdBy tx) (createdDate tx) (executionDate tx) l (rejections tx) st.

Definition with_rejections (l : list Rejection) (st : TxStatus) (tx : PendingTransaction) :=
  MkPending (tx_id tx) (walletId tx) (tx_to tx) (amount tx) (fee tx) (description tx)
    (createdBy tx) (createdDate tx) (executionDate tx) (signatures tx) l st.

Definition signTransaction (txId sid sig : string) : M PendingTransaction :=
  tx ← find_tx txId;
  wallet ← find_wallet (walletId tx);
  cs ← find_signer wallet sid;
  if bool_decide (role cs = viewer) then js_throw "Viewers cannot sign transactions"
  else if js_some (λ s, str_eqb (signerId s) sid) (signatures tx) then
    js_throw "Already signed by this signer"
  else
    now ← date_now;
    let sigs := signatures tx ++ [MkSignature sid (cs_name cs) sig now] in
    let st := if requiredSignatures wallet <=? Z.of_nat (length sigs) then approved
              else status tx in
    let tx' := with_signatures sigs st tx in
    put_tx txId tx';;
    mret tx'.

Definition rejectTransaction (txId sid : string) (why : option string) : M PendingTransaction :=
  tx ← find_tx txId;
  wallet ← find_wallet (walletId tx);
  cs ← find_signer wallet sid;
  now ← date_now;
  let tx' := with_rejections (rejections tx ++ [MkRejection sid (cs_name cs) now why]) rejected tx in
  put_tx txId tx';;
  mret tx'.

Definition with_signers (l : list CoSigner) (w : MultiSigWallet) : MultiSigWallet :=
  MkMultiSigWallet (w_id w) (w_name w) (w_address w) (requiredSignatures w) (Z.of_nat (length l)) l
    (w_balance w) (spendingLimit w) (timeLockHours w) (w_createdDate w).

Definition addCoSigner (id name addr : string) (r : Role) : M MultiSigWallet :=
  wallet ← find_wallet id;
  if js_some (λ cs, str_eqb (cs_address cs) addr) (coSigners wallet) then
    js_throw "Co-signer already exists"
  else
    t0 ← date_now;
    t1 ← date_now;
    let cs := MkCoSigner ("cs_" +:+ id +:+ "_" +:+ pretty t0) name addr r t1 in
    let w' := with_signers (coSigners wallet ++ [cs]) wallet in
    put_wallet id w';;
    mret w'.

Definition removeCoSigner (id csId : string) : M MultiSigWallet :=
  wallet ← find_wallet id;
  let newCoSigners := js_filter (λ cs, negb (str_eqb (cs_id cs) csId)) (coSigners wallet) in
  if Z.of_nat (length newCoSigners) <? requiredSignatures wallet then
    js_throw "Cannot remove co-signer: would drop below required signatures"
  else
    let w' := with_signers newCoSigners wallet in
    put_wallet id w';;
    mret w'.

Definition updateSpendingLimit (id : string) (limit : option num) : M MultiSigWallet :=
  w ← find_wallet id;
  let w' := MkMultiSigWallet (w_id w) (w_name w) (w_address w) (requiredSignatures w)
    (totalSigners w) (coSigners w) (w_balance w) limit (timeLockHours w) (w_createdDate w) in
  put_wallet id w';;
  mret w'.

Definition updateTimeLock (id : string) (hours : option num) : M MultiSigWallet :=
  w ← find_wallet id;
  let w' := MkMultiSigWallet (w_id w) (w_name w) (w_address w) (requiredSignatures w)
    (totalSigners w) (coSigners w) (w_balance w) (spendingLimit w) hours (w_createdDate w) in
  put_wallet id w';;
  mret w'.

Definition getTotalBalance : M num :=
  s ← this; mret (sum_by w_balance (map_values (wallets s))).

Definition getPendingApprovalsCount : M nat :=
  s ← this; mret (length (js_filter is_pending (map_values (pendingTransactions s)))).

(** * Theorems *)

(** A wallet that can still collect its signatures. *)
Definition usable (w : MultiSigWallet) : Prop :=
  requiredSignatures w <= Z.of_nat (length (coSigners w)) ∧
  totalSigners w = Z.of_nat (length (coSigners w)).

Definition signed_once (tx : PendingTransaction) : Prop := NoDup (signerId <$> signatures tx).

Record msw_inv (s : MultiSigWalletService) : Prop := {
  msw_wallets : map_all (λ _, usable) (wallets s);
  msw_txs : map_all (λ _, signed_once) (pendingTransactions s);
}.

Lemma msw_find_wallet {A} id (k : MultiSigWallet → M A) :
  (∀ w, usable w → preserves msw_inv (k w)) → preserves msw_inv (find_wallet id ≫= k).
Proof.
  intros Hk [s e] Hs. unfold find_wallet. js_run.
  destruct (map_get id (wallets s)) as [w|] eqn:Hg; js_run; [|done].
  apply Hk; [|done]. exact (map_all_get _ _ _ _ (msw_wallets _ Hs) Hg).
Qed.

Lemma msw_find_tx {A} id (k : PendingTransaction → M A) :
  (∀ tx, signed_once tx → preserves msw_inv (k tx)) → preserves msw_inv (find_tx id ≫= k).
Proof.
  intros Hk [s e] Hs. unfold find_tx. js_run.
  destruct (map_get id (pendingTransactions s)) as [tx|] eqn:Hg; js_run; [|done].
  apply Hk; [|done]. exact (map_all_get _ _ _ _ (msw_txs _ Hs) Hg).
Qed.

Lemma msw_find_signer w id : preserves msw_inv (find_signer w id).
Proof. unfold find_signer. js_preserve. Qed.

Lemma msw_put_tx id tx : signed_once tx → preserves msw_inv (put_tx id tx).
Proof. intros Htx. apply preserves_modify. intros s [Hw Ht]. constructor; [done|]. by apply map_all_set. Qed.

Lemma msw_put_wallet id w : usable w → preserves msw_inv (put_wallet id w).
Proof. intros Hw'. apply preserves_modify. intros s [Hw Ht]. constructor; [|done]. by apply map_all_set. Qed.

#[local] Hint Resolve msw_find_signer msw_put_tx msw_put_wallet : js.

Lemma msw_not_yet l sid :
  js_some (λ s, str_eqb (signerId s) sid) l = false → sid ∉ (signerId <$> l).
Proof.
  rewrite js_some_false. intros H (x & -> & Hx)%list_elem_of_fmap. specialize (H x Hx).
  cbv beta in H. by rewrite str_eqb_refl in H.
Qed.

Lemma msw_sign txId sid sig : preserves msw_inv (signTransaction txId sid sig).
Proof.
  apply msw_find_tx. intros tx Htx. apply msw_find_wallet. intros w Hw. js_preserve.
  apply msw_put_tx. unfold signed_once. simpl. rewrite fmap_app. apply NoDup_app.
  split_and!; [done| |apply NoDup_singleton]. intros x Hx ->%list_elem_of_singleton.
  by eapply msw_not_yet.
Qed.

Lemma msw_reject txId sid why : preserves msw_inv (rejectTransaction txId sid why).
Proof. apply msw_find_tx. intros tx Htx. apply msw_find_wallet. intros w Hw. js_preserve. Qed.

Lemma msw_createTransaction w t a d b : preserves msw_inv (createTransaction w t a d b).
Proof.
  apply msw_find_wallet. intros wallet Hw. js_preserve; apply msw_put_tx; apply NoDup_nil_2.
Qed.

Lemma msw_addCoSigner id n a r : preserves msw_inv (addCoSigner id n a r).
Proof.
  apply msw_find_wallet. intros w [Hw Ht]. js_preserve. apply msw_put_wallet.
  split; simpl; [rewrite length_app; lia|done].
Qed.

Lemma msw_removeCoSigner id c : preserves msw_inv (removeCoSigner id c).
Proof.
  apply msw_find_wallet. intros w [Hw Ht]. js_preserve. apply msw_put_wallet.
  split; simpl; [lia|done].
Qed.

Lemma msw_limit id l : preserves msw_inv (updateSpendingLimit id l).
Proof. apply msw_find_wallet. intros w Hw. js_preserve. Qed.
Lemma msw_lock id h : preserves msw_inv (updateTimeLock id h).
Proof. apply msw_find_wallet. intros w Hw. js_preserve. Qed.

(** ** Operations as steps *)

Inductive operation :=
  | OpCreateWallet (name : string) (required : Z) (signers : list (string * string * Role))
      (limit hours : option num)
  | OpCreate (wid to : string) (amt : num) (desc by_ : string)
  | OpSign (txId sid sig : string)
  | OpReject (txId sid : string) (why : option string)
  | OpAdd (id name addr : string) (r : Role)
  | OpRemove (id csId : string)
  | OpLimit (id : string) (limit : option num)
  | OpLock (id : string) (hours : option num).

Definition exec (o : operation) : M () :=
  match o with
  | OpCreateWallet n r c l h => createWallet n r c l h;; mret ()
  | OpCreate w t a d b => createTransaction w t a d b;; mret ()
  | OpSign t c g => signTransaction t c g;; mret ()
  | OpReject t c y => rejectTransaction t c y;; mret ()
  | OpAdd i n a r => addCoSigner i n a r;; mret ()
  | OpRemove i c => removeCoSigner i c;; mret ()
  | OpLimit i l => updateSpendingLimit i l;; mret ()
  | OpLock i h => updateTimeLock i h;; mret ()
  end.

Inductive step : MultiSigWalletService * Env → MultiSigWalletService * Env → Prop :=
  | step_op o w : step w (exec o w).2.

#[local] Hint Resolve msw_sign msw_reject msw_createTransaction msw_addCoSigner
  msw_removeCoSigner msw_limit msw_lock : js.

Lemma msw_exec o : preserves msw_inv (exec o).
Proof. destruct o; unfold exec, createWallet; js_preserve. Qed.

(** From any map of usable wallets, every sequence of operations keeps each wallet with at least as many signers as its
    threshold, its signer count right, and at most one signature per signer on each transaction. The program starts with
    no wallet ([msw_service_inert]); this is what would hold if it could create one. *)
Lemma msw_reachable_usable w0 w
    (H0 : msw_inv w0.1) (Hreach : rtc step w0 w) : msw_inv w.1.
Proof. induction Hreach as [|w1 w2 w3 [o w1'] _ IH]; [done|]. by apply IH, msw_exec. Qed.

(** Why each operation is refused when there is no wallet. *)
Definition refusal (o : operation) : string :=
  match o with
  | OpCreateWallet _ required signers _ _ =>
      if decide (Z.of_nat (length signers) < required) then "Required signatures cannot exceed total signers"
      else if decide (required < 1) then "At least 1 signature is required"
      else "Multisig wallet creation is not yet integrated with the blockchain node. Please use the node CLI to create a multisig wallet."
  | OpCreate _ _ _ _ _ | OpAdd _ _ _ _ | OpRemove _ _ | OpLimit _ _ | OpLock _ _ => "Wallet not found"
  | OpSign _ _ _ | OpReject _ _ _ => "Transaction not found"
  end.

Lemma find_wallet_none {A} id (k : MultiSigWallet → M A) e :
  (find_wallet id ≫= k) (constructor, e) = (Throw "Wallet not found", (constructor, e)).
Proof. unfold find_wallet. by js_run. Qed.

Lemma find_tx_none {A} id (k : PendingTransaction → M A) e :
  (find_tx id ≫= k) (constructor, e) = (Throw "Transaction not found", (constructor, e)).
Proof. unfold find_tx. by js_run. Qed.

Lemma exec_refused o e : exec o (constructor, e) = (Throw (refusal o), (constructor, e)).
Proof.
  destruct o; cbn [exec refusal]; unfold createWallet, createTransaction, signTransaction, rejectTransaction, addCoSigner, removeCoSigner, updateSpendingLimit, updateTimeLock;
    try (rewrite run_bind; first [apply find_wallet_none | apply find_tx_none]).
  repeat case_decide; [replace (_ <? required) with true by lia|replace (_ <? required) with false by lia; replace (required <? 1) with true by lia|
    replace (_ <? required) with false by lia; replace (required <? 1) with false by lia]; reflexivity.
Qed.

(** C14: The service never gets a wallet: from the constructor on, whatever is called in whatever order, every operation
    throws (creating a wallet as well, for a wrong threshold or because the node is not asked yet; the others because
    there is no wallet or no transaction), nothing changes, and every reading finds nothing. *)
Theorem msw_service_inert e w (Hreach : rtc step (constructor, e) w) :
  w = (constructor, e) ∧ (∀ o, exec o w = (Throw (refusal o), w)) ∧
  getAllWallets w = (Ok [], w) ∧ (∀ wid, getPendingTransactions wid w = (Ok [], w)) ∧ getTotalBalance w = (Ok nzero, w) ∧
  getPendingApprovalsCount w = (Ok 0%nat, w).
Proof.
  assert (w = (constructor, e)) as ->.
  { remember (constructor, e) as w0 eqn:E0. induction Hreach as [|w1 w2 w3 [o w1'] _ IH]; [done|]. subst. rewrite exec_refused in *. by apply IH. }
  split; [done|]. split; [intros o; apply exec_refused|]. split; [done|]. split; [|done]. intros wid. unfold getPendingTransactions. js_run. by destruct (truthy_str wid).
Qed.

(** ** A concrete wallet *)

Definition demo_cs (id : string) (r : Role) : CoSigner := MkCoSigner id "name" ("kc1" +:+ id) r 1.
Definition demo_msw : MultiSigWallet :=
  MkMultiSigWallet "w" "joint" "kc1m" 2 3
    [demo_cs "a" admin; demo_cs "b" signer; demo_cs "v" viewer] (of_Z 10) None None 1.
Definition demo_tx : PendingTransaction :=
  MkPending "t" "w" "kc1x" (of_Z 1) (lit 1 1) "rent" "a" 1 None [] [] pending.
Definition demo_state : MultiSigWalletService := MkService [("w", demo_msw)] [("t", demo_tx)].

Lemma demo_state_inv : msw_inv demo_state.
Proof. constructor; repeat constructor; vm_compute; congruence. Qed.

Lemma msw_reachable_usable_witness :
  msw_inv (exec (OpRemove "w" "a") (exec (OpRemove "w" "b") (demo_state, demo_env)).2).2.1.
Proof.
  apply (msw_reachable_usable (demo_state, demo_env)); [exact demo_state_inv|].
  eapply rtc_l; [by constructor|]. apply rtc_once. by constructor.
Defined.

Lemma msw_service_inert_witness :
  let w := (exec (OpSign "t" "a" "3045") (exec (OpCreateWallet "joint" 2 [("a", "kc1a", admin); ("b", "kc1b", signer)] None None) (constructor, demo_env)).2).2 in
  w = (constructor, demo_env) ∧ exec (OpRemove "w" "a") w = (Throw "Wallet not found", w).
Proof.
  intros w. assert (rtc step (constructor, demo_env) w) as H by (eapply rtc_l; [by constructor|]; apply rtc_once; by constructor).
  destruct (msw_service_inert demo_env w H) as (Hw & Ho & _). split; [exact Hw|]. apply (Ho (OpRemove "w" "a")).
Defined.

(** ** Signing and rejecting *)

(** a transaction that signers have rejected can still be approved: signing
    does not look at the status, so once enough non-viewers sign, in any order and
    whatever was rejected before, the status becomes approved. *)
Theorem rejected_transaction_can_be_approved txId sid sig s e tx w cs
    (Htx : map_get txId (pendingTransactions s) = Some tx) (Hst : status tx = rejected)
    (Hw : map_get (walletId tx) (wallets s) = Some w)
    (Hcs : js_find (λ c, str_eqb (cs_id c) sid) (coSigners w) = Some cs) (Hrole : role cs ≠ viewer)
    (Hnew : sid ∉ (signerId <$> signatures tx))
    (Henough : requiredSignatures w <= Z.of_nat (length (signatures tx)) + 1) :
  ∃ tx' w', signTransaction txId sid sig (s, e) = (Ok tx', w') ∧
    status tx' = approved ∧ rejections tx' = rejections tx.
Proof.
  unfold signTransaction, find_tx, find_wallet, find_signer. js_run. rewrite Htx. js_run.
  rewrite Hw. js_run. rewrite Hcs. js_run. rewrite bool_decide_false by done.
  assert (js_some (λ s, str_eqb (signerId s) sid) (signatures tx) = false) as ->.
  { apply js_some_false. intros x Hx. apply str_eqb_false. intros <-. apply Hnew.
    by apply list_elem_of_fmap_2. }
  unfold put_tx. js_run. eexists _, _. split; [reflexivity|]. simpl. split; [|done].
  rewrite length_app. simpl. destruct (Z.leb_spec (requiredSignatures w)
    (Z.of_nat (length (signatures tx) + 1))); [done|lia].
Qed.

Lemma rejected_transaction_can_be_approved_witness :
  let w1 := (rejectTransaction "t" "b" (Some "no") (demo_state, demo_env)).2 in
  let w2 := (signTransaction "t" "a" "3045" w1).2 in
  ∃ tx' w3, signTransaction "t" "b" "3046" w2 = (Ok tx', w3) ∧ status tx' = approved.
Proof.
  intros w1 w2.
  destruct (rejected_transaction_can_be_approved "t" "b" "3046" w2.1 w2.2
    (MkPending "t" "w" "kc1x" (of_Z 1) (lit 1 1) "rent" "a" 1 None
      [MkSignature "a" "name" "3045" 1700000001000]
      [MkRejection "b" "name" 1700000000000 (Some "no")] rejected)
    demo_msw (demo_cs "b" signer)) as (tx' & w3 & H & Hs & _); [reflexivity..| | | |].
  - done.
  - set_solver.
  - vm_compute. congruence.
  - exists tx', w3. by split.
Defined.

(** [signTransaction] succeeds only for a co-signer that is not a viewer and
    has not signed, and the status it returns is approved exactly when it already
    was or when the number of signatures, each by a different signer, reaches the
    threshold. *)
Theorem msw_signTransaction_accepts txId sid sig s e tx' w'
    (Hs : msw_inv s) (H : signTransaction txId sid sig (s, e) = (Ok tx', w')) :
  ∃ tx w cs,
    map_get txId (pendingTransactions s) = Some tx ∧ map_get (walletId tx) (wallets s) = Some w ∧
    cs ∈ coSigners w ∧ cs_id cs = sid ∧ role cs ≠ viewer ∧
    signatures tx' = signatures tx ++ [MkSignature sid (cs_name cs) sig (reading e 0)] ∧
    NoDup (signerId <$> signatures tx') ∧
    (status tx' = approved ↔
      status tx = approved ∨ requiredSignatures w <= Z.of_nat (length (signatures tx'))) ∧
    map_get txId (pendingTransactions w'.1) = Some tx'.
Proof.
  pose proof (msw_sign txId sid sig (s, e) Hs) as Hinv. rewrite H in Hinv.
  unfold signTransaction, find_tx in H. rewrite run_bind, run_this in H. cbn [fst] in H.
  destruct (map_get txId (pendingTransactions s)) as [tx|] eqn:Hg; [|done]. rewrite run_ret in H.
  unfold find_wallet in H. rewrite run_bind, run_this in H. cbn [fst] in H.
  destruct (map_get (walletId tx) (wallets s)) as [w|] eqn:Hw; [|done]. rewrite run_ret in H.
  unfold find_signer in H. destruct (js_find _ _) as [cs|] eqn:Hc; [|done]. rewrite run_ret in H.
  apply js_find_Some in Hc as [Hcs Hid%str_eqb_true].
  case_bool_decide as Hrole; [done|]. destruct (js_some _ _); [done|].
  rewrite run_date_now in H. cbv zeta in H. unfold put_tx in H. rewrite run_modify in H.
  apply run_ret_inv in H as [<- ->].
  exists tx, w, cs. unfold reading. rewrite Nat.add_0_r. cbn [fst snd] in *.
  split_and!; try done.
  - cbn [pendingTransactions set_pending] in Hinv. destruct Hinv as [_ Ht].
    exact (map_all_get _ _ _ _ Ht (map_get_set_eq _ _ _)).
  - cbn [status with_signatures signatures]. destruct (Z.leb_spec (requiredSignatures w)
      (Z.of_nat (length (signatures tx ++ [MkSignature sid (cs_name cs) sig (clock e (ticks e))]))));
      split; intros; try tauto; try lia. destruct H0; [done|lia].
  - apply map_get_set_eq.
Qed.

Lemma msw_signTransaction_accepts_witness :
  ∃ tx' w', signTransaction "t" "a" "3045" (demo_state, demo_env) = (Ok tx', w') ∧
    NoDup (signerId <$> signatures tx').
Proof.
  eexists _, _. split; [vm_compute; reflexivity|].
  destruct (msw_signTransaction_accepts "t" "a" "3045" demo_state demo_env _ _ demo_state_inv eq_refl)
    as (tx & w & cs & _ & _ & _ & _ & _ & _ & Hnd & _).
  exact Hnd.
Defined.
