(* ===== verification/SocialRecovery.v ===== *)
(** * [SocialRecovery] (apps/web/wallet/src/services/socialRecovery.ts)

    Trusted contacts and the recovery requests they approve or reject. Both
    collections are saved and loaded inside a guard that swallows storage errors. *)

From S2P Require Import Prelude JsMap JsString Store.
Record TrustedContact := MkContact {
  c_id : string;
  c_name : string;
  email : string;
  phone : option string;
  c_address : string;
  addedDate : Z;
  verified : bool;
  shareAssigned : bool;
}.

Inductive RequestStatus := pending | approved | rejected | completed.

#[export] Instance RequestStatus_eq_dec : EqDecision RequestStatus.
Proof. solve_decision. Defined.

Record Approval := MkApproval {
  a_contactId : string; a_contactName : string; approvedDate : Z; a_signature : string }.
Record Refusal := MkRefusal {
  r_contactId : string; r_contactName : string; rejectedDate : Z; reason : option string }.

Record RecoveryRequest := MkRequest {
  q_id : string;
  status : RequestStatus;
  initiatedDate : Z;
  requiredApprovals : Z;
  approvals : list Approval;
  rejections : list Refusal;
}.

Record SocialRecovery := MkSocialRecovery {
  trustedContacts : jsmap TrustedContact;
  recoveryRequests : jsmap RecoveryRequest;
  ls_contacts : cell (list TrustedContact);
  ls_requests : cell (list RecoveryRequest);
}.

#[export] Instance contact_store : Store SocialRecovery TrustedContact := {|
  key := c_id;
  items := trustedContacts;
  set_items m s := MkSocialRecovery m (recoveryRequests s) (ls_contacts s) (ls_requests s);
  stored := ls_contacts;
  set_stored c s := MkSocialRecovery (trustedContacts s) (recoveryRequests s) c (ls_requests s);
|}.

#[export] Instance request_store : Store SocialRecovery RecoveryRequest := {|
  key := q_id;
  items := recoveryRequests;
  set_items m s := MkSocialRecovery (trustedContacts s) m (ls_contacts s) (ls_requests s);
  stored := ls_requests;
  set_stored c s := MkSocialRecovery (trustedContacts s) (recoveryRequests s) (ls_contacts s) c;
|}.

#[export] Instance contact_store_laws : StoreLaws SocialRecovery TrustedContact.
Proof. by split. Qed.
#[export] Instance request_store_laws : StoreLaws SocialRecovery RecoveryRequest.
Proof. by split. Qed.

Abbreviation M := (js (SocialRecovery * Env)).

Definition loadContacts : M () := guarded (load_items (V:=TrustedContact)).
Definition saveContacts : M () := guarded (save_items (V:=TrustedContact)).
Definition loadRequests : M () := guarded (load_items (V:=RecoveryRequest)).
Definition saveRequests : M () := guarded (save_items (V:=RecoveryRequest)).

Definition constructor : M () := loadContacts;; loadRequests.

Definition fresh (c : cell (list TrustedContact)) (q : cell (list RecoveryRequest)) :=
  MkSocialRecovery [] [] c q.

Definition getTrustedContacts : M (list TrustedContact) :=
  s ← this; mret (map_values (trustedContacts s)).

Definition addTrustedContact (name mail ph addr : string) : M TrustedContact :=
  t0 ← date_now;
  t1 ← date_now;
  let contact := MkContact ("tc_" +:+ pretty t0) name mail (Some ph) addr t1 false false in
  put_item contact;;
  saveContacts;;
  mret contact.

Definition find_contact (id : string) : M TrustedContact :=
  s ← this;
  match map_get id (trustedContacts s) with
  | Some c => mret c
  | None => js_throw "Contact not found"
  end.

Definition find_request (id : string) : M RecoveryRequest :=
  s ← this;
  match map_get id (recoveryRequests s) with
  | Some q => mret q
  | None => js_throw "Recovery request not found"
  end.

Definition put_contact (id : string) (c : TrustedContact) : M () :=
  modify_this (λ s, set_items (map_set id c (trustedContacts s)) s).
Definition put_request (id : string) (q : RecoveryRequest) : M () :=
  modify_this (λ s, set_items (map_set id q (recoveryRequests s)) s).

Definition with_flags (v a : bool) (c : TrustedContact) : TrustedContact :=
  MkContact (c_id c) (c_name c) (email c) (phone c) (c_address c) (addedDate c) v a.

Definition verifyContact (id : string) : M bool :=
  contact ← find_contact id;
  put_contact id (with_flags true (shareAssigned contact) contact);;
  saveContacts;;
  mret true.

(** The share itself is not kept. *)
Definition assignShare (id shareData : string) : M bool :=
  contact ← find_contact id;
  if negb (verified contact) then js_throw "Contact must be verified before assigning share"
  else
    put_contact id (with_flags (verified contact) true contact);;
    saveContacts;;
    mret true.

Definition initiateRecovery (required : Z) : M RecoveryRequest :=
  t0 ← date_now;
  t1 ← date_now;
  let request := MkRequest ("recovery_" +:+ pretty t0) pending t1 required [] [] in
  put_item request;;
  saveRequests;;
  mret request.

Definition approveRecovery (requestId contactId sig : string) : M RecoveryRequest :=
  request ← find_request requestId;
  contact ← find_contact contactId;
  now ← date_now;
  let l := approvals request ++ [MkApproval contactId (c_name contact) now sig] in
  let st := if requiredApprovals request <=? Z.of_nat (length l) then approved
            else status request in
  let request' := MkRequest (q_id request) st (initiatedDate request) (requiredApprovals request)
                    l (rejections request) in
  put_request requestId request';;
  saveRequests;;
  mret request'.

Definition rejectRecovery (requestId contactId : string) (why : option string) : M RecoveryRequest :=
  request ← find_request requestId;
  contact ← find_contact contactId;
  now ← date_now;
  let request' := MkRequest (q_id request) rejected (initiatedDate request)
    (requiredApprovals request) (approvals request)
    (rejections request ++ [MkRefusal contactId (c_name contact) now why]) in
  put_request requestId request';;
  saveRequests;;
  mret request'.

Definition getRecoveryRequest (id : string) : M (option RecoveryRequest) :=
  s ← this; mret (map_get id (recoveryRequests s)).

Definition removeTrustedContact (id : string) : M bool :=
  s ← this;
  let removed := map_has id (trustedContacts s) in
  modify_this (λ s, set_items (map_delete id (trustedContacts s)) s);;
  js_when removed saveContacts;;
  mret removed.

(** * Theorems *)

Definition contact_ok (c : TrustedContact) : Prop := shareAssigned c = true → verified c = true.
Definition request_ok (q : RecoveryRequest) : Prop :=
  status q = approved → requiredApprovals q <= Z.of_nat (length (approvals q)).

Record sr_inv (s : SocialRecovery) : Prop := {
  sr_contacts : mirrored (V:=TrustedContact) s;
  sr_requests : mirrored (V:=RecoveryRequest) s;
  sr_shares : map_all (λ _, contact_ok) (trustedContacts s);
  sr_approved : map_all (λ _, request_ok) (recoveryRequests s);
}.

Lemma sr_fresh : sr_inv (fresh None None).
Proof. constructor; try (split; [apply keyed_nil|done]); apply map_all_nil. Qed.

(** Storing a contact or a request under its identifier, and saving. *)
Lemma sr_commit_contact s c :
  sr_inv s → contact_ok c →
  sr_inv (committed (V:=TrustedContact) (set_items (map_set (c_id c) c (trustedContacts s)) s)).
Proof.
  intros [Hc Hq Hs Ha] Hok. constructor; [|exact Hq|by apply map_all_set|exact Ha].
  exact (mirrored_put s c Hc).
Qed.

Lemma sr_commit_request s q :
  sr_inv s → request_ok q →
  sr_inv (committed (V:=RecoveryRequest) (set_items (map_set (q_id q) q (recoveryRequests s)) s)).
Proof.
  intros [Hc Hq Hs Ha] Hok. constructor; [exact Hc| |exact Hs|by apply map_all_set].
  exact (mirrored_put s q Hq).
Qed.

(** ** Operations as steps *)

Inductive operation :=
  | OpAdd (name mail ph addr : string)
  | OpVerify (id : string)
  | OpAssign (id shareData : string)
  | OpInitiate (required : Z)
  | OpApprove (requestId contactId sig : string)
  | OpReject (requestId contactId : string) (why : option string)
  | OpRemove (id : string).

Definition exec (o : operation) : M () :=
  match o with
  | OpAdd n m p a => addTrustedContact n m p a;; mret ()
  | OpVerify i => verifyContact i;; mret ()
  | OpAssign i d => assignShare i d;; mret ()
  | OpInitiate r => initiateRecovery r;; mret ()
  | OpApprove q c g => approveRecovery q c g;; mret ()
  | OpReject q c y => rejectRecovery q c y;; mret ()
  | OpRemove i => removeTrustedContact i;; mret ()
  end.

Inductive step : SocialRecovery * Env → SocialRecovery * Env → Prop :=
  | step_op o w : step w (exec o w).2.

Definition good (w : SocialRecovery * Env) : Prop :=
  sr_inv w.1 ∧ browser w.2 = true ∧ writable w.2 = true.

Lemma sr_contact_id s id c : sr_inv s → map_get id (trustedContacts s) = Some c → c_id c = id.
Proof. intros Hs. exact (keyed_get (S:=SocialRecovery) _ _ _ (proj1 (sr_contacts _ Hs))). Qed.
Lemma sr_request_id s id q : sr_inv s → map_get id (recoveryRequests s) = Some q → q_id q = id.
Proof. intros Hs. exact (keyed_get (S:=SocialRecovery) _ _ _ (proj1 (sr_requests _ Hs))). Qed.

Lemma approveRecovery_run requestId contactId sig s e q c :
  browser e = true → writable e = true →
  map_get requestId (recoveryRequests s) = Some q → map_get contactId (trustedContacts s) = Some c →
  approveRecovery requestId contactId sig (s, e) =
    let l := approvals q ++ [MkApproval contactId (c_name c) (reading e 0) sig] in
    let q' := MkRequest (q_id q) (if requiredApprovals q <=? Z.of_nat (length l) then approved
      else status q) (initiatedDate q) (requiredApprovals q) l (rejections q) in
    (Ok q', (committed (V:=RecoveryRequest)
      (set_items (map_set requestId q' (recoveryRequests s)) s), tick e)).
Proof.
  intros Hb Hw Hq Hc. unfold approveRecovery, find_request, find_contact, put_request, saveRequests.
  js_run. rewrite Hq. js_run. rewrite Hc. js_run. rewrite guarded_save_bind by done.
  unfold reading. by rewrite Nat.add_0_r.
Qed.

Lemma good_exec o w : good w → good (exec o w).2.
Proof.
  destruct w as [s e]. intros (Hs & Hb & Hw). destruct o; simpl in *.
  - unfold addTrustedContact, put_item, saveContacts. js_run.
    rewrite guarded_save_bind by done. js_run. split; [|done]. by apply sr_commit_contact.
  - unfold verifyContact, find_contact, put_contact, saveContacts. js_run.
    destruct (map_get id (trustedContacts s)) as [c|] eqn:Hg; js_run; [|done].
    rewrite guarded_save_bind by done. js_run. split; [|done]. apply sr_contact_id in Hg as <-; [|done].
    by apply (sr_commit_contact s (with_flags true (shareAssigned c) c)).
  - unfold assignShare, find_contact, put_contact, saveContacts. js_run.
    destruct (map_get id (trustedContacts s)) as [c|] eqn:Hg; js_run; [|done].
    destruct (verified c) eqn:Hv; cbn [negb]; [|done]. js_run.
    rewrite guarded_save_bind by done. js_run. split; [|done]. apply sr_contact_id in Hg as <-; [|done].
    by apply (sr_commit_contact s (with_flags true true c)).
  - unfold initiateRecovery, put_item, saveRequests. js_run.
    rewrite guarded_save_bind by done. js_run. split; [|done]. by apply sr_commit_request.
  - destruct (map_get requestId (recoveryRequests s)) as [q|] eqn:Hq.
    + destruct (map_get contactId (trustedContacts s)) as [c|] eqn:Hc.
      * rewrite (run_Ok _ _ _ _ _ (approveRecovery_run _ _ sig _ _ _ _ Hb Hw Hq Hc)). cbv zeta.
        split; [|done]. pose proof (map_all_get _ _ _ _ (sr_approved _ Hs) Hq) as Hok.
        pose proof (sr_request_id _ _ _ Hs Hq) as <-.
        match goal with |- context [map_set _ ?q' _] => apply (sr_commit_request s q'); [done|] end.
        unfold request_ok in *. cbn. destruct (Z.leb_spec (requiredApprovals q)
          (Z.of_nat (length (approvals q ++ [MkApproval contactId (c_name c) (reading e 0) sig]))));
          [done|]. rewrite length_app in *. intros ?%Hok. lia.
      * unfold approveRecovery, find_request, find_contact. js_run. rewrite Hq. js_run. by rewrite Hc.
    + unfold approveRecovery, find_request. js_run. by rewrite Hq.
  - unfold rejectRecovery, find_request, find_contact, put_request, saveRequests. js_run.
    destruct (map_get requestId (recoveryRequests s)) as [q|] eqn:Hq; js_run; [|done].
    destruct (map_get contactId (trustedContacts s)) as [c|] eqn:Hc; js_run; [|done].
    rewrite guarded_save_bind by done. js_run. split; [|done].
    pose proof (sr_request_id _ _ _ Hs Hq) as <-.
    match goal with |- context [map_set _ ?q' _] => by apply (sr_commit_request s q') end.
  - unfold removeTrustedContact, saveContacts. js_run.
    destruct (map_has id (trustedContacts s)) eqn:Hg; js_run.
    + rewrite guarded_save_bind by done. js_run. split; [|done]. destruct Hs as [Hc Hq Hsh Ha].
      constructor; [|exact Hq|by apply map_all_delete|exact Ha].
      exact (mirrored_delete (V:=TrustedContact) s id Hc).
    + split; [|done]. apply map_has_false in Hg. simpl. rewrite map_delete_absent by done.
      by destruct s.
Qed.

Lemma good_steps w w' : rtc step w w' → good w → good w'.
Proof. induction 1 as [|w1 w2 w3 [o w1'] _ IH]; [done|]. intros H. by apply IH, good_exec. Qed.

(** C13: in a browser with room in its storage, starting from empty storage, after
    any sequence of operations a service constructed anew over the storage has the
    same contacts and the same requests, and the state satisfies: a share is
    assigned only to a verified contact, and a request that is approved has at
    least the approvals it requires. *)
Theorem recovery_state_survives_reload e w
    (Hbrowser : browser e = true) (Hwritable : writable e = true)
    (Hreach : rtc step (fresh None None, e) w) :
  let s' := (constructor (fresh (ls_contacts w.1) (ls_requests w.1), w.2)).2.1 in
  trustedContacts s' = trustedContacts w.1 ∧ recoveryRequests s' = recoveryRequests w.1 ∧
  map_all (λ _, contact_ok) (trustedContacts w.1) ∧ map_all (λ _, request_ok) (recoveryRequests w.1).
Proof.
  destruct (good_steps _ _ Hreach) as (Hs & Hb & Hw).
  { split; [apply sr_fresh|done]. }
  cbv zeta. unfold constructor, loadContacts, loadRequests.
  rewrite (run_Ok _ _ _ _ _ (guarded_load_run _ _ Hb)). rewrite guarded_load_run by done. cbn [fst snd].
  set (s1 := (load_items (V:=TrustedContact) (fresh _ _, w.2)).2.1).
  assert (trustedContacts s1 = trustedContacts w.1) as H1.
  { exact (mirrored_reload (V:=TrustedContact) w.1 (fresh (ls_contacts w.1) (ls_requests w.1)) w.2
      (sr_contacts _ Hs) eq_refl eq_refl). }
  assert (recoveryRequests s1 = [] ∧ ls_requests s1 = ls_requests w.1) as [H2 H3].
  { unfold s1. destruct (load_items_cases (V:=TrustedContact) (fresh (ls_contacts w.1) (ls_requests w.1)) w.2)
      as (r & s' & -> & [->|(l & _ & ->)]); done. }
  assert (recoveryRequests (load_items (V:=RecoveryRequest) (s1, w.2)).2.1 = recoveryRequests w.1) as H4.
  { exact (mirrored_reload (V:=RecoveryRequest) w.1 s1 w.2 (sr_requests _ Hs) H2 H3). }
  split_and!; [|exact H4|apply Hs..]. rewrite <- H1.
  destruct (load_items_cases (V:=RecoveryRequest) s1 w.2) as (r & s' & -> & [->|(l & _ & ->)]); done.
Qed.

Lemma recovery_state_survives_reload_witness :
  let w := (exec (OpAdd "Ann" "ann@x" "" "kc1a") (fresh None None, demo_env)).2 in
  map_keys (trustedContacts (constructor (fresh (ls_contacts w.1) (ls_requests w.1), w.2)).2.1)
  = ["tc_1700000000000"].
Proof.
  exact (f_equal map_keys (proj1 (recovery_state_survives_reload demo_env _ eq_refl eq_refl
    (rtc_once _ _ (step_op (OpAdd "Ann" "ann@x" "" "kc1a") (fresh None None, demo_env)))))).
Defined.

(** ** Approvals *)

Fixpoint approve_times (n : nat) (requestId contactId : string) : M () :=
  match n with
  | O => mret ()
  | S n' => approveRecovery requestId contactId "";; approve_times n' requestId contactId
  end.

(** a single contact can approve a recovery request alone: approving as many
    times as approvals are missing makes the request approved, because an approval
    is counted whether or not its contact has approved before. *)
Theorem one_contact_approves_alone n requestId contactId s e q c
    (Hbrowser : browser e = true) (Hwritable : writable e = true)
    (Hq : map_get requestId (recoveryRequests s) = Some q)
    (Hc : map_get contactId (trustedContacts s) = Some c)
    (Hn : (0 < n)%nat) (Hreq : requiredApprovals q <= Z.of_nat (length (approvals q) + n)) :
  ∃ q', map_get requestId (recoveryRequests (approve_times n requestId contactId (s, e)).2.1) = Some q' ∧
    status q' = approved ∧ length (approvals q') = (length (approvals q) + n)%nat.
Proof.
  revert s e q Hbrowser Hwritable Hq Hc Hreq. induction n as [|n IH]; [lia|].
  intros s e q Hb Hw Hq Hc Hreq. simpl.
  rewrite (run_Ok _ _ _ _ _ (approveRecovery_run _ _ "" _ _ _ _ Hb Hw Hq Hc)). cbv zeta.
  set (l := approvals q ++ _). assert (length l = S (length (approvals q))) as Hl.
  { unfold l. rewrite length_app. simpl. lia. }
  set (q' := MkRequest _ _ _ _ _ _). destruct n as [|n].
  - exists q'. simpl. rewrite map_get_set_eq. split; [done|]. unfold q'. cbn. rewrite Hl.
    rewrite (proj2 (Z.leb_le _ _)) by lia. split; [done|lia].
  - destruct (IH ltac:(lia) (committed (V:=RecoveryRequest)
        (set_items (map_set requestId q' (recoveryRequests s)) s)) (tick e) q') as (q2 & H1 & H2 & H3);
      [done|done|apply map_get_set_eq|exact Hc|unfold q'; cbn; rewrite Hl; lia|].
    exists q2. split_and!; [exact H1|done|]. rewrite H3. unfold q'. cbn. lia.
Qed.

Lemma one_contact_approves_alone_witness :
  let w := (initiateRecovery 3 (exec (OpAdd "Ann" "ann@x" "" "kc1a") (fresh None None, demo_env)).2).2 in
  ∃ q', map_get "recovery_1700000002000" (recoveryRequests
      (approve_times 3 "recovery_1700000002000" "tc_1700000000000" w).2.1) = Some q' ∧ status q' = approved.
Proof.
  intros w.
  destruct (one_contact_approves_alone 3 "recovery_1700000002000" "tc_1700000000000" w.1 w.2
    (MkRequest "recovery_1700000002000" pending 1700000002000 3 [] [])
    (MkContact "tc_1700000000000" "Ann" "ann@x" (Some "") "kc1a" 1700000001000 false false))
    as (q' & H1 & H2 & _); [reflexivity|reflexivity|vm_compute; reflexivity|vm_compute; reflexivity|lia|vm_compute; congruence|].
  exists q'. split; [exact H1|exact H2].
Defined.
