(* ===== verification/Security.v ===== *)
(** * [SecurityService] (apps/web/wallet/src/services/security.ts)

    Encryption with a password, the stored password hash, and the lock of the
    wallet with its session timeout. The Web Cryptography API is the record
    [WebCrypto] of its operations on byte arrays: random bytes (a function of the
    number of draws made and of the length), PBKDF2-SHA-256 (password, salt,
    iterations, length in bytes) and AES-GCM (key, initialisation vector, data).

    The settings are the JSON object under the key 'kubercoin_security_settings',
    which the session manager (sessionManager.ts) reads and writes too: the object
    is modelled with the fields of both services, each possibly missing. *)

From Stdlib Require Import Ascii String.
From S2P Require Import Prelude JsString Bytes.
Record WebCrypto := MkWebCrypto {
  randomBytes : nat → nat → list Z;
  pbkdf2 : list Z → list Z → Z → nat → list Z;
  gcm_encrypt : list Z → list Z → list Z → result (list Z);
  gcm_decrypt : list Z → list Z → list Z → result (list Z);
}.

(** ** Settings *)

Record StoredSettings := MkSettings {
  (* security.ts *)
  passwordEnabled : option bool;
  sessionTimeout : option Z;
  requireConfirmation : option bool;
  biometricEnabled : option bool;
  (* sessionManager.ts; it has biometricEnabled too *)
  autoLockMinutes : option Z;
  requirePasswordOnSend : option bool;
  require2FA : option bool;
  loginNotifications : option bool;
  suspiciousActivityAlerts : option bool;
}.

Definition with_passwordEnabled (b : bool) (c : StoredSettings) : StoredSettings :=
  MkSettings (Some b) (sessionTimeout c) (requireConfirmation c) (biometricEnabled c)
    (autoLockMinutes c) (requirePasswordOnSend c) (require2FA c) (loginNotifications c)
    (suspiciousActivityAlerts c).

Record SecurityService := MkSecurity {
  password : option string;
  sessionStartTime : Z;
  isLocked : bool;
  ls_settings : cell StoredSettings;
  ls_password_hash : option string;
}.

Definition set_session (p : option string) (t : Z) (l : bool) (s : SecurityService) :=
  MkSecurity p t l (ls_settings s) (ls_password_hash s).
Definition set_ls_settings (c : cell StoredSettings) (s : SecurityService) :=
  MkSecurity (password s) (sessionStartTime s) (isLocked s) c (ls_password_hash s).
Definition set_ls_hash (h : option string) (s : SecurityService) :=
  MkSecurity (password s) (sessionStartTime s) (isLocked s) (ls_settings s) h.

Abbreviation M := (js (SecurityService * Env)).

(** The service after its constructor, which reads the settings and drops them. *)
Definition fresh (c : cell StoredSettings) (h : option string) : SecurityService :=
  MkSecurity None 0 true c h.

Definition getDefaultSettings : StoredSettings :=
  MkSettings (Some false) (Some 15) (Some true) (Some false) None None None None None.

Definition loadSettings : M StoredSettings :=
  b ← is_browser;
  if negb b then mret getDefaultSettings
  else
    r ← js_try (
      s ← this;
      match truthy_cell (ls_settings s) with
      | Some t => v ← JSON_parse t; mret (Some v)
      | None => mret None
      end) (λ _, mret None);
    mret (default getDefaultSettings r).

Definition saveSettings (settings : StoredSettings) : M () :=
  b ← is_browser;
  js_when b (js_try (ls_setItem (set_ls_settings (Some (TJson settings)))) (λ _, mret ())).

Definition getSettings : M StoredSettings := loadSettings.

Section Crypto.
Context (wc : WebCrypto).

(** [crypto.getRandomValues(new Uint8Array(n))] *)
Definition getRandomValues (n : nat) : M (list Z) := λ w,
  (Ok (randomBytes wc (draws w.2) n), (w.1, draw w.2)).

Definition lift_result {A} (r : result A) : M A :=
  match r with Ok a => mret a | Throw msg => js_throw msg end.

Definition encrypt (data pass : string) : M string :=
  js_try (
    salt ← getRandomValues 16;
    let key := pbkdf2 wc (bytes_of pass) salt 100000 32 in
    iv ← getRandomValues 12;
    encryptedData ← lift_result (gcm_encrypt wc key iv (bytes_of data));
    mret (btoa (salt ++ iv ++ encryptedData)))
  (λ msg, js_throw ("Encryption failed: " +:+ msg)).

Definition decrypt (encryptedData pass : string) : M string :=
  js_try (
    combined ← match atob encryptedData with
      | Some l => mret l
      | None => js_throw "The string to be decoded is not correctly encoded."
      end;
    let salt := take 16 combined in
    let iv := take 12 (drop 16 combined) in
    let data := drop 28 combined in
    let key := pbkdf2 wc (bytes_of pass) salt 100000 32 in
    decryptedData ← lift_result (gcm_decrypt wc key iv data);
    mret (string_of decryptedData))
  (λ _, js_throw "Decryption failed: Invalid password or corrupted data").

(** [deriveKey]: the salt is drawn when [saltHex] is absent or empty. *)
Definition deriveKey (pass : string) (saltHex : option string) : M string :=
  salt ← (if truthy_str saltHex then
            match fromHex (default "" saltHex) with
            | Some l => mret l
            | None => js_throw "Cannot read properties of null"
            end
          else getRandomValues 16);
  let derived := pbkdf2 wc (bytes_of pass) salt 200000 32 in
  mret ("pbkdf2:" +:+ toHex salt +:+ ":" +:+ toHex derived).

Definition hashPassword (pass : string) : M string := deriveKey pass None.

Definition setPassword (newPassword : string) : M () :=
  b ← is_browser;
  if negb b then mret ()
  else js_try (
    encoded ← deriveKey newPassword None;
    ls_setItem (set_ls_hash (Some encoded));;
    settings ← getSettings;
    saveSettings (with_passwordEnabled true settings))
  (λ msg, js_throw ("Failed to set password: " +:+ msg)).

(** The comparison loop: [diff |= expected.charCodeAt(i) ^ candidate.charCodeAt(i)]. *)
Definition timing_safe_eq (candidate expected : string) : bool :=
  if negb (Nat.eqb (String.length candidate) (String.length expected)) then false
  else foldl (λ diff p, Z.lor diff (Z.lxor p.1 p.2)) 0
         (zip (bytes_of expected) (bytes_of candidate)) =? 0.

Definition verifyPassword (pass : string) : M bool :=
  b ← is_browser;
  if negb b then mret false
  else js_try (
    s ← this;
    match ls_password_hash s with
    | None => mret false
    | Some stored =>
        if str_eqb stored "" then mret false
        else if negb (startsWith "pbkdf2:" stored) then mret false
        else
          let parts := split_on ":"%char stored in
          candidate ← deriveKey pass (parts !! 1%nat);
          match split_on ":"%char candidate !! 2%nat, parts !! 2%nat with
          | Some candidateKeyHex, Some expectedKeyHex =>
              mret (timing_safe_eq candidateKeyHex expectedKeyHex)
          | _, _ => js_throw "Cannot read properties of undefined"
          end
    end) (λ _, mret false).

Definition unlock (pass : string) : M bool :=
  isValid ← verifyPassword pass;
  if isValid : bool then
    now ← date_now;
    modify_this (set_session (Some pass) now false);;
    mret true
  else mret false.

Definition lock : M () := modify_this (set_session None 0 true).

(** [settings.sessionTimeout > 0] is false when the field is missing. *)
Definition isWalletLocked : M bool :=
  settings ← getSettings;
  s ← this;
  let timeout := default 0 (sessionTimeout settings) in
  if (0 <? timeout) && (0 <? sessionStartTime s) then
    now ← date_now;
    if timeout * 60 * 1000 <? now - sessionStartTime s then lock;; mret true
    else s ← this; mret (isLocked s)
  else mret (isLocked s).

Definition changePassword (oldPassword newPassword : string) : M bool :=
  isValid ← verifyPassword oldPassword;
  if negb isValid then js_throw "Current password is incorrect"
  else setPassword newPassword;; mret true.

Definition removePassword (pass : string) : M bool :=
  b ← is_browser;
  if negb b then mret false
  else
    isValid ← verifyPassword pass;
    if negb isValid then js_throw "Password is incorrect"
    else
      ls_removeItem (set_ls_hash None);;
      settings ← getSettings;
      saveSettings (with_passwordEnabled false settings);;
      lock;;
      mret true.
End Crypto.

Definition hasPassword : M bool :=
  b ← is_browser;
  s ← this;
  mret (if b : bool then bool_decide (is_Some (ls_password_hash s)) else false).

Definition updateActivity : M () :=
  s ← this;
  if isLocked s then mret ()
  else now ← date_now; modify_this (set_session (password s) now (isLocked s)).

(** Seconds left; [None] is NaN, when the timeout is missing from the settings. *)
Definition getTimeUntilExpiry : M (option Z) :=
  s ← this;
  if isLocked s || (sessionStartTime s =? 0) then mret (Some 0)
  else
    settings ← getSettings;
    now ← date_now;
    mret ((λ timeout, Z.max 0 ((timeout * 60 * 1000 - (now - sessionStartTime s)) / 1000))
            <$> sessionTimeout settings).

(** * Theorems *)

(** What the services rely on: random bytes and derived keys are byte arrays of
    the requested length, and AES-GCM decryption with the key and vector of an
    encryption returns its data. *)
Class WebCryptoLaws (wc : WebCrypto) : Prop := {
  random_bytes : ∀ k n, Forall is_byte (randomBytes wc k n) ∧ length (randomBytes wc k n) = n;
  derived_bytes : ∀ p s i n, Forall is_byte (pbkdf2 wc p s i n) ∧ length (pbkdf2 wc p s i n) = n;
  gcm_correct : ∀ key iv d c, gcm_encrypt wc key iv d = Ok c →
    Forall is_byte c ∧ gcm_decrypt wc key iv c = Ok d;
}.

(** A toy instance: derived keys are the leading bytes of password and salt, and
    encryption adds 1 modulo 256. *)
Definition toy_crypto : WebCrypto := {|
  randomBytes k n := repeat (Z.of_nat k mod 256) n;
  pbkdf2 p s _ n := take n ((λ b, b mod 256) <$> (p ++ s ++ repeat 0 n));
  gcm_encrypt _ _ d :=
    if forallb (λ b, (0 <=? b) && (b <? 256)) d then Ok ((λ b, (b + 1) mod 256) <$> d) else Throw "data";
  gcm_decrypt _ _ c := Ok ((λ b, (b - 1) mod 256) <$> c);
|}.

Lemma mod_byte z : is_byte (z mod 256).
Proof. unfold is_byte. apply Z.mod_pos_bound. lia. Qed.

#[export] Instance toy_laws : WebCryptoLaws toy_crypto.
Proof.
  split; simpl.
  - intros k n. split; [|apply repeat_length]. apply Forall_forall. intros b Hb.
    apply list_elem_of_In, repeat_spec in Hb as ->. apply mod_byte.
  - intros p s _ n. split.
    + apply Forall_take, Forall_fmap, Forall_forall. intros. apply mod_byte.
    + rewrite length_take, length_fmap, !length_app, repeat_length. lia.
  - intros _ _ d c. destruct (forallb _ d) eqn:Hd; [|done]. intros [= <-]. split.
    + apply Forall_fmap, Forall_forall. intros. apply mod_byte.
    + f_equal. rewrite <- list_fmap_compose. rewrite <- (list_fmap_id d) at 2.
      apply list_fmap_ext. intros i b Hb. simpl. rewrite forallb_forall in Hd.
      specialize (Hd b). rewrite andb_true_iff, Z.leb_le, Z.ltb_lt in Hd.
      specialize (Hd ltac:(apply list_elem_of_In; by eapply list_elem_of_lookup_2)).
      rewrite Zminus_mod_idemp_l. replace (b + 1 - 1) with b by lia. by apply Z.mod_small.
Qed.

(** ** Passwords *)

Lemma timing_safe_eq_spec s1 s2 : timing_safe_eq s1 s2 = str_eqb s1 s2.
Proof.
  unfold timing_safe_eq. destruct (Nat.eqb_spec (String.length s1) (String.length s2)) as [Hl|Hl]; cbn [negb].
  - rewrite xor_compare by done. apply bool_decide_ext. by split.
  - symmetry. apply str_eqb_false. by intros ->.
Qed.

Lemma split_encoded salt key :
  Forall is_byte salt → Forall is_byte key →
  split_on ":" ("pbkdf2:" +:+ toHex salt +:+ ":" +:+ toHex key) = ["pbkdf2"; toHex salt; toHex key].
Proof.
  intros Hs Hk. change ("pbkdf2:" +:+ ?x) with ("pbkdf2" +:+ String ":" x).
  rewrite split_on_join by done. f_equal.
  change (":" +:+ toHex key) with (String ":" (toHex key)).
  rewrite split_on_join by (by apply toHex_no_colon). f_equal.
  apply split_on_none. by apply toHex_no_colon.
Qed.

(** The salt [deriveKey] draws, and the key of a password under it. *)
Definition drawn_salt (wc : WebCrypto) (e : Env) : list Z := randomBytes wc (draws e) 16.
Definition password_key (wc : WebCrypto) (p : string) (salt : list Z) : list Z :=
  pbkdf2 wc (bytes_of p) salt 200000 32.

Definition encoded_password (wc : WebCrypto) (p : string) (salt : list Z) : string :=
  "pbkdf2:" +:+ toHex salt +:+ ":" +:+ toHex (password_key wc p salt).

Lemma getSettings_run s e : ∃ c, getSettings (s, e) = (Ok c, (s, e)).
Proof.
  unfold getSettings, loadSettings. js_run. destruct (negb _); [by eexists|].
  unfold js_try, mbind, js_bind, this. cbn [fst].
  destruct (truthy_cell (ls_settings s)) as [[v|raw]|]; eexists; reflexivity.
Qed.

Lemma saveSettings_run c s e : browser e = true → writable e = true →
  saveSettings c (s, e) = (Ok (), (set_ls_settings (Some (TJson c)) s, e)).
Proof.
  intros Hb Hw. unfold saveSettings. js_run. rewrite Hb. cbn [js_when].
  unfold js_try, ls_setItem. cbn [snd]. by rewrite Hw.
Qed.

Lemma setPassword_run wc p s e : browser e = true → writable e = true →
  ∃ c, setPassword wc p (s, e) =
    (Ok (), (set_ls_settings c (set_ls_hash (Some (encoded_password wc p (drawn_salt wc e))) s), draw e)).
Proof.
  intros Hb Hw. unfold setPassword. js_run. rewrite Hb. cbn [negb].
  destruct (getSettings_run (set_ls_hash (Some (encoded_password wc p (drawn_salt wc e))) s) (draw e)) as [c Hc].
  eexists. erewrite run_try_Ok; [reflexivity|].
  unfold deriveKey. js_run. cbn [truthy_str]. unfold getRandomValues, mbind, js_bind, mret, js_ret, ls_setItem.
  cbn [fst snd]. change (writable (draw e)) with (writable e). rewrite Hw.
  fold (drawn_salt wc e). fold (password_key wc p (drawn_salt wc e)).
  fold (encoded_password wc p (drawn_salt wc e)). rewrite Hc. by apply saveSettings_run.
Qed.

Lemma toHex_truthy l : l ≠ [] → truthy_str (Some (toHex l)) = true.
Proof. destruct l; [done|]. intros _. by unfold truthy_str, str_eqb; rewrite bool_decide_false. Qed.

Lemma verifyPassword_run wc p p' salt s e
    `{!WebCryptoLaws wc} :
  browser e = true → Forall is_byte salt → salt ≠ [] →
  ls_password_hash s = Some (encoded_password wc p salt) →
  verifyPassword wc p' (s, e) =
    (Ok (bool_decide (password_key wc p' salt = password_key wc p salt)), (s, e)).
Proof.
  intros Hb Hs Hne Hhash.
  assert (∀ q, Forall is_byte (password_key wc q salt)) as Hk by (intros; apply derived_bytes).
  unfold verifyPassword. js_run. rewrite Hb. cbn [negb]. erewrite run_try_Ok; [reflexivity|].
  js_run. rewrite Hhash. unfold encoded_password at 1 2.
  unfold str_eqb. rewrite bool_decide_false by done.
  change ("pbkdf2:" +:+ ?x) with ("pbkdf2:" +:+ x) at 1.
  rewrite startsWith_app. cbn [negb]. unfold encoded_password.
  rewrite split_encoded by done. cbn [lookup list_lookup].
  unfold deriveKey. js_run. rewrite toHex_truthy by done. cbn [default from_option id].
  rewrite fromHex_toHex by done. js_run. fold (password_key wc p' salt).
  rewrite split_encoded by done. cbn [lookup list_lookup].
  rewrite timing_safe_eq_spec. unfold mret, js_ret. do 2 f_equal.
  destruct (bool_decide (password_key _ _ _ = _)) eqn:E.
  - apply bool_decide_eq_true in E as ->. by apply bool_decide_eq_true.
  - apply bool_decide_eq_false in E. apply bool_decide_eq_false. intros Heq. apply E.
    by apply toHex_inj.
Qed.

(** C8: after [setPassword p] in a browser with room in its storage, [verifyPassword p']
    answers exactly whether PBKDF2 derives the same key from both passwords under
    the salt that was drawn: the right password is accepted, and any password that
    derives another key is refused. *)
Theorem set_password_then_verify wc p p' s e
    (Hwc : WebCryptoLaws wc) (Hbrowser : browser e = true) (Hwritable : writable e = true) :
  let salt := drawn_salt wc e in
  let w1 := (setPassword wc p (s, e)).2 in
  (setPassword wc p (s, e)).1 = Ok () ∧
  (verifyPassword wc p' w1).1 = Ok (bool_decide (password_key wc p' salt = password_key wc p salt)).
Proof.
  destruct (setPassword_run wc p s e Hbrowser Hwritable) as [c ->]. cbn [fst snd]. split; [done|].
  destruct (random_bytes (wc:=wc) (draws e) 16) as [Hb Hlen].
  assert (drawn_salt wc e ≠ []) by (unfold drawn_salt; by destruct (randomBytes wc (draws e) 16)).
  by rewrite (verifyPassword_run wc p p' (drawn_salt wc e)).
Qed.

Lemma set_password_then_verify_witness :
  let w1 := (setPassword toy_crypto "secret" (fresh None None, demo_env)).2 in
  (verifyPassword toy_crypto "secret" w1).1 = Ok true ∧ (verifyPassword toy_crypto "guess" w1).1 = Ok false.
Proof.
  intros w1. split.
  - exact (proj2 (set_password_then_verify toy_crypto "secret" "secret" (fresh None None) demo_env
      toy_laws eq_refl eq_refl)).
  - exact (proj2 (set_password_then_verify toy_crypto "secret" "guess" (fresh None None) demo_env
      toy_laws eq_refl eq_refl)).
Defined.

(** ** Encryption *)

Lemma decrypt_of_encrypt wc data pass w text w1 w2
    (Hwc : WebCryptoLaws wc) (H : encrypt wc data pass w = (Ok text, w1)) :
  decrypt wc text pass w2 = (Ok data, w2).
Proof.
  unfold encrypt, js_try in H. destruct w as [s e].
  unfold getRandomValues, mbind, js_bind, mret, js_ret, lift_result in H. cbn [fst snd] in H.
  set (salt := randomBytes wc (draws e) 16) in *. set (iv := randomBytes wc (draws (draw e)) 12) in *.
  destruct (random_bytes (wc:=wc) (draws e) 16) as [Hs Hsl].
  destruct (random_bytes (wc:=wc) (draws (draw e)) 12) as [Hi Hil]. fold salt iv in Hs, Hsl, Hi, Hil.
  destruct (gcm_encrypt _ _ _ _) as [c|msg] eqn:Hc; [|done]. simplify_eq/=.
  destruct (gcm_correct _ _ _ _ Hc) as [Hcb Hdec].
  unfold decrypt. erewrite run_try_Ok; [reflexivity|].
  rewrite atob_btoa by (rewrite !Forall_app; done). js_run.
  rewrite take_app_length', drop_app_length' by done.
  rewrite take_app_length' by done.
  replace (drop 28 (salt ++ iv ++ c)) with c
    by (rewrite app_assoc, drop_app_length'; [done|rewrite length_app; lia]).
  unfold lift_result. rewrite Hdec. js_run. unfold mret, js_ret. by rewrite string_of_bytes.
Qed.

(** C7: whenever [encrypt data pass] returns a text, [decrypt] of that text with
    the same password returns [data], in any later state: the salt and the vector
    survive the concatenation, the base64 encoding and the slicing. *)
Theorem decrypt_encrypt wc data pass w text w1 w2
    (Hwc : WebCryptoLaws wc) (H : encrypt wc data pass w = (Ok text, w1)) :
  decrypt wc text pass w2 = (Ok data, w2).
Proof. exact (decrypt_of_encrypt wc data pass w text w1 w2 Hwc H). Qed.

Lemma decrypt_encrypt_witness :
  ∃ text w1, encrypt toy_crypto "seed words" "pw" (fresh None None, demo_env) = (Ok text, w1) ∧
    decrypt toy_crypto text "pw" w1 = (Ok "seed words", w1).
Proof.
  eexists _, _. split; [vm_compute; reflexivity|].
  refine (decrypt_encrypt toy_crypto "seed words" "pw" (fresh None None, demo_env) _ _ _ toy_laws _).
  vm_compute. reflexivity.
Defined.

(** ** The lock *)

(** Operations, with the passwords the user types. *)
Inductive operation :=
  | OpSetPassword (p : string)
  | OpUnlock (p : string)
  | OpLock
  | OpIsLocked
  | OpChange (p q : string)
  | OpRemove (p : string)
  | OpActivity
  | OpSaveSettings (c : StoredSettings)
  | OpExpiry.

Definition exec (wc : WebCrypto) (o : operation) : M () :=
  match o with
  | OpSetPassword p => setPassword wc p
  | OpUnlock p => unlock wc p;; mret ()
  | OpLock => lock
  | OpIsLocked => isWalletLocked;; mret ()
  | OpChange p q => changePassword wc p q;; mret ()
  | OpRemove p => removePassword wc p;; mret ()
  | OpActivity => updateActivity
  | OpSaveSettings c => saveSettings c
  | OpExpiry => getTimeUntilExpiry;; mret ()
  end.

Inductive step (wc : WebCrypto) : SecurityService * Env → SecurityService * Env → Prop :=
  | step_op o w : step wc w (exec wc o w).2.

(** Locked exactly when no password is held; a locked wallet has no session. *)
Definition lock_inv (s : SecurityService) : Prop :=
  (isLocked s = true ↔ password s = None) ∧ (isLocked s = true → sessionStartTime s = 0).

Lemma lock_settings c s : lock_inv s → lock_inv (set_ls_settings c s).
Proof. done. Qed.
Lemma lock_hash h s : lock_inv s → lock_inv (set_ls_hash h s).
Proof. done. Qed.
Lemma lock_unlocked p t s : lock_inv s → lock_inv (set_session (Some p) t false s).
Proof. done. Qed.
Lemma lock_locked s : lock_inv s → lock_inv (set_session None 0 true s).
Proof. done. Qed.

#[local] Hint Resolve lock_settings lock_hash lock_unlocked lock_locked : js.

Lemma lock_getSettings : preserves lock_inv getSettings.
Proof. unfold getSettings, loadSettings. js_preserve. Qed.
Lemma lock_saveSettings c : preserves lock_inv (saveSettings c).
Proof. unfold saveSettings. js_preserve. Qed.
Lemma lock_lock : preserves lock_inv lock.
Proof. unfold lock. js_preserve. Qed.
Lemma lock_random wc n : preserves lock_inv (getRandomValues wc n).
Proof. by intros w. Qed.
#[local] Hint Resolve lock_getSettings lock_saveSettings lock_lock lock_random : js.

Lemma lock_deriveKey wc p h : preserves lock_inv (deriveKey wc p h).
Proof. unfold deriveKey. js_preserve. Qed.
#[local] Hint Resolve lock_deriveKey : js.
Lemma lock_setPassword wc p : preserves lock_inv (setPassword wc p).
Proof. unfold setPassword. js_preserve. Qed.
Lemma lock_verify wc p : preserves lock_inv (verifyPassword wc p).
Proof. unfold verifyPassword. js_preserve. Qed.
#[local] Hint Resolve lock_setPassword lock_verify : js.

Lemma lock_isLocked : preserves lock_inv isWalletLocked.
Proof. unfold isWalletLocked. js_preserve. Qed.

Lemma lock_activity : preserves lock_inv updateActivity.
Proof.
  intros [s e] [H1 H2]. unfold updateActivity. js_run. destruct (isLocked s) eqn:E; [unfold mret, js_ret, lock_inv; cbn; rewrite E; tauto|].
  js_run. unfold lock_inv. cbn in *. rewrite E in H1. split; [exact H1|done].
Qed.
#[local] Hint Resolve lock_isLocked lock_activity : js.

Lemma lock_exec wc o : preserves lock_inv (exec wc o).
Proof.
  destruct o; unfold exec, unlock, changePassword, removePassword, getTimeUntilExpiry; js_preserve.
Qed.

(** over any stored settings and hash, after any sequence of operations, the
    service is locked exactly when it holds no password, and a locked service has
    no session: locking by hand, by timeout or by removing the password always
    drops the password from memory. *)
Theorem locked_keeps_no_password wc c h e w
    (Hreach : rtc (step wc) (fresh c h, e) w) : lock_inv w.1.
Proof.
  assert (lock_inv (fresh c h, e).1) as H0 by done. revert H0.
  induction Hreach as [|w1 w2 w3 [o w1'] _ IH]; [done|]. intros H. by apply IH, lock_exec.
Qed.

Lemma locked_keeps_no_password_witness :
  lock_inv (exec toy_crypto (OpRemove "pw")
    (exec toy_crypto (OpUnlock "pw") (exec toy_crypto (OpSetPassword "pw") (fresh None None, demo_env)).2).2).2.1.
Proof.
  apply (locked_keeps_no_password toy_crypto None None demo_env).
  eapply rtc_l; [by constructor|]. eapply rtc_l; [by constructor|]. apply rtc_once. by constructor.
Defined.
