(* ===== verification/SessionManager.v ===== *)
(** * [SessionManager] (apps/web/wallet/src/services/sessionManager.ts)

    The sessions of the wallet on this device, the security event log, and the
    automatic lock. The current session is the same object as the entry of the
    session map under its identifier, until the map is cleared: a change made through
    either reference is made in both places. [ua] is [navigator.userAgent] and
    [granted] says that notifications may be shown; shown notifications are kept in
    [notified]. A timer is its delay in milliseconds, [None] inside standing for NaN. *)

From Stdlib Require Import Ascii String.
From S2P Require Import Prelude JsMap JsString Bytes Store Security.
Record Session := MkSession {
  s_id : string;
  deviceId : string;
  deviceName : string;
  userAgent : string;
  ipAddress : string;
  createdAt : Z;
  s_lastActivity : Z;
  isActive : bool;
}.

Inductive EventType :=
  login | logout | failed_login | password_change | settings_change | suspicious_activity.

#[export] Instance EventType_eq_dec : EqDecision EventType.
Proof. solve_decision. Defined.

Record SecurityEvent := MkEvent {
  ev_id : string;
  ev_type : EventType;
  ev_description : string;
  ev_timestamp : Z;
  ev_ipAddress : option string;
  ev_deviceId : option string;
}.

Record SessionManager := MkManager {
  currentSession : option Session;
  sessions : jsmap Session;
  securityEvents : list SecurityEvent;
  settings : StoredSettings;
  lastActivity : Z;
  lockTimeout : option (option Z);
  notified : list string;
  ls_sessions : cell (list Session);
  ls_events : cell (list SecurityEvent);
  ls_settings : cell StoredSettings;
  ls_device : option string;
}.

Definition set_current c s :=
  MkManager c (sessions s) (securityEvents s) (settings s) (lastActivity s) (lockTimeout s)
    (notified s) (ls_sessions s) (ls_events s) (ls_settings s) (ls_device s).
Definition set_sessions m s :=
  MkManager (currentSession s) m (securityEvents s) (settings s) (lastActivity s) (lockTimeout s)
    (notified s) (ls_sessions s) (ls_events s) (ls_settings s) (ls_device s).
Definition set_events l s :=
  MkManager (currentSession s) (sessions s) l (settings s) (lastActivity s) (lockTimeout s)
    (notified s) (ls_sessions s) (ls_events s) (ls_settings s) (ls_device s).
Definition set_settings c s :=
  MkManager (currentSession s) (sessions s) (securityEvents s) c (lastActivity s) (lockTimeout s)
    (notified s) (ls_sessions s) (ls_events s) (ls_settings s) (ls_device s).
Definition set_lastActivity t s :=
  MkManager (currentSession s) (sessions s) (securityEvents s) (settings s) t (lockTimeout s)
    (notified s) (ls_sessions s) (ls_events s) (ls_settings s) (ls_device s).
Definition set_lockTimeout d s :=
  MkManager (currentSession s) (sessions s) (securityEvents s) (settings s) (lastActivity s) d
    (notified s) (ls_sessions s) (ls_events s) (ls_settings s) (ls_device s).
Definition set_notified l s :=
  MkManager (currentSession s) (sessions s) (securityEvents s) (settings s) (lastActivity s)
    (lockTimeout s) l (ls_sessions s) (ls_events s) (ls_settings s) (ls_device s).
Definition set_ls_sessions c s :=
  MkManager (currentSession s) (sessions s) (securityEvents s) (settings s) (lastActivity s)
    (lockTimeout s) (notified s) c (ls_events s) (ls_settings s) (ls_device s).
Definition set_ls_events c s :=
  MkManager (currentSession s) (sessions s) (securityEvents s) (settings s) (lastActivity s)
    (lockTimeout s) (notified s) (ls_sessions s) c (ls_settings s) (ls_device s).
Definition set_ls_settings c s :=
  MkManager (currentSession s) (sessions s) (securityEvents s) (settings s) (lastActivity s)
    (lockTimeout s) (notified s) (ls_sessions s) (ls_events s) c (ls_device s).
Definition set_ls_device d s :=
  MkManager (currentSession s) (sessions s) (securityEvents s) (settings s) (lastActivity s)
    (lockTimeout s) (notified s) (ls_sessions s) (ls_events s) (ls_settings s) d.

Abbreviation M := (js (SessionManager * Env)).

#[export] Instance session_store : Store SessionManager Session := {|
  key := s_id;
  items := sessions;
  set_items := set_sessions;
  stored := ls_sessions;
  set_stored := set_ls_sessions;
|}.

#[export] Instance session_store_laws : StoreLaws SessionManager Session.
Proof. by split. Qed.

Definition default_settings : StoredSettings :=
  MkSettings None None None (Some false) (Some 15) (Some true) (Some false) (Some true) (Some true).

(** The fields before the constructor runs, over the storage. *)
Definition fresh (cs : cell (list Session)) (ce : cell (list SecurityEvent))
    (cc : cell StoredSettings) (d : option string) : SessionManager :=
  MkManager None [] [] default_settings 0 None [] cs ce cc d.

Definition loadSettings : M StoredSettings :=
  s ← this;
  match truthy_cell (ls_settings s) with
  | Some t => JSON_parse t
  | None => mret default_settings
  end.

Definition saveSettings : M () := write_json set_ls_settings settings.
Definition loadSessions : M () := load_items.
Definition saveSessions : M () := save_items.

Definition loadSecurityEvents : M () :=
  s ← this;
  match truthy_cell (ls_events s) with
  | Some t => l ← JSON_parse t; modify_this (set_events l)
  | None => mret ()
  end.

Definition saveSecurityEvents : M () :=
  s ← this;
  js_when (1000 <? Z.of_nat (length (securityEvents s)))
    (modify_this (λ s, set_events (slice_last 1000 (securityEvents s)) s));;
  write_json set_ls_events securityEvents.

(** Changing the current session through [this.currentSession], and the session
    under an identifier through the map. *)
Definition change_current (f : Session → Session) : M () :=
  modify_this (λ s,
    match currentSession s with
    | Some c => set_current (Some (f c)) (set_sessions (map_update (s_id c) f (sessions s)) s)
    | None => s
    end).

Definition change_session (id : string) (f : Session → Session) : M () :=
  modify_this (λ s,
    set_current
      ((λ c, if str_eqb (s_id c) id && map_has id (sessions s) then f c else c) <$> currentSession s)
      (set_sessions (map_update id f (sessions s)) s)).

Definition with_active (b : bool) (c : Session) : Session :=
  MkSession (s_id c) (deviceId c) (deviceName c) (userAgent c) (ipAddress c) (createdAt c)
    (s_lastActivity c) b.
Definition with_lastActivity (t : Z) (c : Session) : Session :=
  MkSession (s_id c) (deviceId c) (deviceName c) (userAgent c) (ipAddress c) (createdAt c)
    t (isActive c).

Section Host.
Context (ua : string) (granted : bool).

Definition getDeviceName : string :=
  if includes "Windows" ua then "Windows PC"
  else if includes "Mac" ua then "Mac"
  else if includes "Linux" ua then "Linux PC"
  else if includes "Android" ua then "Android Device"
  else if includes "iPhone" ua || includes "iPad" ua then "iOS Device"
  else "Unknown Device".

Definition getOrCreateDeviceId : M string :=
  s ← this;
  if truthy_str (ls_device s) then mret (default "" (ls_device s))
  else
    t ← date_now;
    r ← random36;
    let id := "device_" +:+ pretty t +:+ "_" +:+ r in
    ls_setItem (set_ls_device (Some id));;
    mret id.

Definition notifySecurityEvent (ev : SecurityEvent) : M () :=
  js_when granted (modify_this (λ s, set_notified (notified s ++ [ev_description ev]) s)).

(** [this.securityEvents.push(event); this.saveSecurityEvents();] *)
Definition pushEvent (event : SecurityEvent) : M () :=
  modify_this (λ s, set_events (securityEvents s ++ [event]) s);;
  saveSecurityEvents.

Definition logSecurityEvent (type : EventType) (desc : string) (ip : option string) : M () :=
  t0 ← date_now;
  r ← random36;
  t1 ← date_now;
  s ← this;
  let event := MkEvent ("event_" +:+ pretty t0 +:+ "_" +:+ r) type desc t1 ip
                 (deviceId <$> currentSession s) in
  pushEvent event;;
  s ← this;
  js_when (default false (loginNotifications (settings s)) && bool_decide (type = login))
    (notifySecurityEvent event);;
  js_when (default false (suspiciousActivityAlerts (settings s))
           && bool_decide (type = suspicious_activity)) (notifySecurityEvent event).

Definition initializeSession : M () :=
  device ← getOrCreateDeviceId;
  t0 ← date_now;
  r ← random36;
  let sessionId := "session_" +:+ pretty t0 +:+ "_" +:+ r in
  t1 ← date_now;
  t2 ← date_now;
  let session := MkSession sessionId device getDeviceName ua "Unknown" t1 t2 true in
  modify_this (set_current (Some session));;
  modify_this (λ s, set_sessions (map_set sessionId session (sessions s)) s);;
  saveSessions;;
  logSecurityEvent login "User logged in" None.

(** The constructor; [startActivityMonitoring] registers [updateActivity] for user
    events and [checkAutoLock] for every minute. *)
Definition constructor : M () :=
  t ← date_now;
  modify_this (set_lastActivity t);;
  c ← loadSettings;
  modify_this (set_settings c);;
  loadSessions;;
  loadSecurityEvents;;
  initializeSession.

Definition lockSession : M () :=
  logSecurityEvent logout "Session locked due to inactivity" None;;
  s ← this;
  js_when (bool_decide (is_Some (currentSession s)))
    (change_current (with_active false);; saveSessions).

(** Replaces the pending timer by one of [autoLockMinutes * 60 * 1000] ms. *)
Definition resetLockTimer : M () :=
  modify_this (λ s, set_lockTimeout
    (Some ((λ m, m * 60 * 1000) <$> autoLockMinutes (settings s))) s).

Definition fireLockTimer : M () :=
  s ← this;
  js_when (bool_decide (is_Some (lockTimeout s))) lockSession.

Definition updateActivity : M () :=
  t ← date_now;
  modify_this (set_lastActivity t);;
  s ← this;
  js_when (bool_decide (is_Some (currentSession s)))
    (t1 ← date_now; change_current (with_lastActivity t1);; saveSessions);;
  resetLockTimer.

Definition checkAutoLock : M () :=
  s ← this;
  if bool_decide (autoLockMinutes (settings s) = Some 0) then mret ()
  else
    now ← date_now;
    js_when (match autoLockMinutes (settings s) with
             | Some m => m * 60 * 1000 <=? now - lastActivity s
             | None => false
             end) lockSession.

Definition unlockSession : M () :=
  s ← this;
  js_when (bool_decide (is_Some (currentSession s)))
    (change_current (with_active true);;
     t ← date_now;
     modify_this (set_lastActivity t);;
     saveSessions;;
     resetLockTimer).

Definition getCurrentSession : M (option Session) := s ← this; mret (currentSession s).

Definition getAllSessions : M (list Session) :=
  s ← this;
  mret (js_sort (λ a b, s_lastActivity a <? s_lastActivity b) (map_values (sessions s))).

Definition terminateSession (id : string) : M bool :=
  s ← this;
  if negb (map_has id (sessions s)) then mret false
  else
    change_session id (with_active false);;
    saveSessions;;
    logSecurityEvent logout ("Session " +:+ id +:+ " terminated") None;;
    mret true.

(** Is this an active session other than the current one? *)
Definition is_other (cur : option Session) (c : Session) : bool :=
  negb (bool_decide (Some (s_id c) = (s_id <$> cur))) && isActive c.

Definition terminateAllOtherSessions : M nat :=
  s ← this;
  let terminated := length (js_filter (is_other (currentSession s)) (map_values (sessions s))) in
  modify_this (λ s, set_sessions
    ((λ kv, (kv.1, if is_other (currentSession s) kv.2 then with_active false kv.2 else kv.2))
       <$> sessions s) s);;
  saveSessions;;
  logSecurityEvent logout ("Terminated " +:+ pretty terminated +:+ " other sessions") None;;
  mret terminated.

(** [slice(-limit)]: the last [limit] elements, all of them for zero, and all but
    the first [-limit] for a negative limit. *)
Definition slice_neg {A} (limit : Z) (l : list A) : list A :=
  if 0 <? limit then slice_last (Z.to_nat limit) l else drop (Z.to_nat (- limit)) l.

Definition getSecurityEvents (limit : Z) : M (list SecurityEvent) :=
  s ← this; mret (rev (slice_neg limit (securityEvents s))).

Definition of_type (t : EventType) (ev : SecurityEvent) : bool := bool_decide (ev_type ev = t).

Definition getSecurityEventsByType (t : EventType) : M (list SecurityEvent) :=
  s ← this; mret (js_filter (of_type t) (securityEvents s)).

Definition getSettings : M StoredSettings := s ← this; mret (settings s).

(** [Object.assign(settings, updates)] on the fields of this service. *)
Definition assign_settings (c u : StoredSettings) : StoredSettings :=
  let pick {A} (n o : option A) := match n with Some _ => n | None => o end in
  MkSettings (passwordEnabled c) (sessionTimeout c) (requireConfirmation c)
    (pick (biometricEnabled u) (biometricEnabled c)) (pick (autoLockMinutes u) (autoLockMinutes c))
    (pick (requirePasswordOnSend u) (requirePasswordOnSend c)) (pick (require2FA u) (require2FA c))
    (pick (loginNotifications u) (loginNotifications c))
    (pick (suspiciousActivityAlerts u) (suspiciousActivityAlerts c)).

Definition updateSettings (updates : StoredSettings) : M () :=
  modify_this (λ s, set_settings (assign_settings (settings s) updates) s);;
  saveSettings;;
  js_when (bool_decide (is_Some (autoLockMinutes updates))) resetLockTimer;;
  logSecurityEvent settings_change "Security settings updated" None.

Definition base32 : string := "ABCDEFGHIJKLMNOPQRSTUVWXYZ234567".

Definition base32_char (b : Z) : ascii :=
  default "A"%char (list_ascii_of_string base32 !! Z.to_nat (Z.land b 31)).

(** The secret and its QR text, from the sixteen random bytes drawn. *)
Definition generate2FASecret (bytes : list Z) : string * string :=
  let secret := string_of_list_ascii (base32_char <$> take 16 bytes) in
  (secret, "otpauth://totp/KuberCoin?secret=" +:+ secret +:+ "&issuer=KuberCoin").

Definition verify2FAToken (token secret : string) : bool := false.

Definition set_biometric (b : bool) (c : StoredSettings) : StoredSettings :=
  assign_settings c (MkSettings None None None (Some b) None None None None None).

(** [supported]: does [window.PublicKeyCredential] exist? *)
Definition registerBiometric (supported : bool) : M bool :=
  if negb supported then js_throw "WebAuthn not supported in this browser"
  else js_try (
    modify_this (λ s, set_settings (set_biometric true (settings s)) s);;
    saveSettings;;
    logSecurityEvent settings_change "Biometric authentication enabled" None;;
    mret true) (λ _, mret false).

Definition authenticateWithBiometric : M bool :=
  s ← this;
  if negb (default false (biometricEnabled (settings s))) then mret false
  else js_try (
    logSecurityEvent login "Authenticated with biometric" None;;
    mret true) (λ _, mret false).

(** The clock is read once per failed login. *)
Definition detectSuspiciousActivity : M () :=
  fails ← getSecurityEventsByType failed_login;
  recent ← js_mapM (λ ev, now ← date_now; mret (now - 15 * 60 * 1000 <? ev_timestamp ev)) fails;
  js_when (5 <=? Z.of_nat (length (js_filter id recent)))
    (logSecurityEvent suspicious_activity "Multiple failed login attempts detected" None);;
  all ← getAllSessions;
  js_when (5 <? Z.of_nat (length (remove_dups (deviceId <$> js_filter isActive all))))
    (logSecurityEvent suspicious_activity "Unusual number of active devices detected" None).

Definition clearAllData : M () :=
  modify_this (set_sessions []);;
  modify_this (set_events []);;
  ls_removeItem (set_ls_sessions None);;
  ls_removeItem (set_ls_events None).
End Host.

(** * Theorems *)

(** The current session, when it is in the map, is the object the map holds. *)
Definition aliased (s : SessionManager) : Prop :=
  match currentSession s with
  | Some c => map_get (s_id c) (sessions s) = Some c ∨ map_get (s_id c) (sessions s) = None
  | None => True
  end.

Record sm_inv (s : SessionManager) : Prop := {
  sm_alias : aliased s;
  sm_keyed : keyed (sessions s);
  sm_events : (length (securityEvents s) <= 1000)%nat;
}.

(** State changes that touch neither the sessions nor the events. *)
Lemma sm_neutral s s' :
  currentSession s' = currentSession s → sessions s' = sessions s →
  securityEvents s' = securityEvents s → sm_inv s → sm_inv s'.
Proof. intros E1 E2 E3 [H1 H2 H3]. constructor; unfold aliased in *; by rewrite ?E1, ?E2, ?E3. Qed.

Lemma sm_set f : (∀ s, currentSession (f s) = currentSession s ∧ sessions (f s) = sessions s ∧
    securityEvents (f s) = securityEvents s) → ∀ s, sm_inv s → sm_inv (f s).
Proof. intros Hf s. destruct (Hf s) as (?&?&?). by apply sm_neutral. Qed.

Lemma sm_modify f : (∀ s, currentSession (f s) = currentSession s ∧ sessions (f s) = sessions s ∧
    securityEvents (f s) = securityEvents s) → preserves sm_inv (modify_this f).
Proof. intros Hf. apply preserves_modify. by apply sm_set. Qed.

Lemma sm_setItem f : (∀ s, currentSession (f s) = currentSession s ∧ sessions (f s) = sessions s ∧
    securityEvents (f s) = securityEvents s) → preserves sm_inv (ls_setItem f).
Proof. intros Hf. apply preserves_setItem. by apply sm_set. Qed.

#[local] Hint Extern 1 (preserves sm_inv (modify_this _)) => apply sm_modify; done : js.
#[local] Hint Extern 1 (preserves sm_inv (ls_removeItem _)) => apply sm_modify; done : js.
#[local] Hint Extern 1 (preserves sm_inv (ls_setItem _)) => apply sm_setItem; done : js.

Lemma sm_write {A} set (v : SessionManager → A) :
  (∀ c s, currentSession (set c s) = currentSession s ∧ sessions (set c s) = sessions s ∧
    securityEvents (set c s) = securityEvents s) → preserves sm_inv (write_json set v).
Proof. intros Hs. unfold write_json. apply preserves_this. intros s _. apply sm_setItem. auto. Qed.

Lemma sm_saveSessions : preserves sm_inv saveSessions.
Proof. by apply sm_write. Qed.
Lemma sm_saveSettings : preserves sm_inv saveSettings.
Proof. by apply sm_write. Qed.

(** Appending an event and saving keeps the last thousand. *)
Lemma sm_push_event ev :
  preserves sm_inv (pushEvent ev).
Proof.
  intros [s e] [Ha Hk He]. cbn [fst] in *. unfold pushEvent, saveSecurityEvents, write_json. js_run.
  assert (∀ l, (length l <= 1000)%nat → sm_inv (set_events l s)) as H by (intros; by constructor).
  assert (length (slice_last 1000 (securityEvents s ++ [ev])) <= 1000)%nat by (rewrite slice_last_length; lia).
  destruct (Z.ltb_spec 1000 (Z.of_nat (length (securityEvents (set_events (securityEvents s ++ [ev]) s)))));
    js_run; unfold ls_setItem; cbn [fst snd securityEvents set_events] in *;
    destruct (writable e); cbn [fst snd];
    try (by apply H); try (apply (sm_set (set_ls_events _)); [done|]); apply H; try done; lia.
Qed.

#[local] Hint Resolve sm_saveSessions sm_saveSettings sm_push_event : js.

Lemma sm_log granted t d ip : preserves sm_inv (logSecurityEvent granted t d ip).
Proof. unfold logSecurityEvent, notifySecurityEvent. js_preserve. Qed.
#[local] Hint Resolve sm_log : js.

(** A change through either reference that keeps the identifier. *)
Lemma map_get_keyed_ne (m : jsmap Session) k id f :
  str_eqb k id = false → map_get k (map_update id f m) = map_get k m.
Proof. intros H%str_eqb_false. by apply map_get_update_ne. Qed.

Lemma sm_change_current f : (∀ c, s_id (f c) = s_id c) → preserves sm_inv (change_current f).
Proof.
  intros Hf. apply preserves_modify. intros s [Ha Hk He]. unfold aliased in Ha.
  destruct (currentSession s) as [c|] eqn:Ec; [|by constructor; unfold aliased; rewrite ?Ec].
  constructor; [|by apply (keyed_update (S:=SessionManager))|done]. unfold aliased. cbn.
  rewrite Hf, map_get_update. destruct Ha as [->| ->]; auto.
Qed.

Lemma sm_change_session id f : (∀ c, s_id (f c) = s_id c) → preserves sm_inv (change_session id f).
Proof.
  intros Hf. apply preserves_modify. intros s [Ha Hk He]. unfold aliased in Ha.
  constructor; [|by apply (keyed_update (S:=SessionManager))|done]. unfold aliased. cbn.
  destruct (currentSession s) as [c|] eqn:Ec; [|done]. cbn.
  destruct (str_eqb (s_id c) id) eqn:E; cbn [andb].
  - apply str_eqb_true in E as <-. destruct (map_has (s_id c) (sessions s)) eqn:Eh.
    + rewrite Hf, map_get_update. destruct Ha as [->| ->]; auto.
    + rewrite map_get_update. apply map_has_false in Eh as ->. auto.
  - by rewrite map_get_keyed_ne.
Qed.

Lemma sm_others cur s : sm_inv s → currentSession s = cur →
  sm_inv (set_sessions ((λ kv : string * Session,
    (kv.1, if is_other cur kv.2 then with_active false kv.2 else kv.2)) <$> sessions s) s).
Proof.
  intros [Ha Hk He] <-. destruct Hk as [Hwf Hkeys].
  set (g := λ c, if is_other (currentSession s) c then with_active false c else c).
  change (λ kv : string * Session, (kv.1, if is_other (currentSession s) kv.2
    then with_active false kv.2 else kv.2)) with (λ kv : string * Session, (kv.1, g kv.2)).
  assert (∀ k (m : jsmap Session), map_get k ((λ kv, (kv.1, g kv.2)) <$> m) = g <$> map_get k m) as Hget.
  { intros k m. induction m as [|[k' v] m IH]; csimpl; [done|]. by destruct (str_eqb k k'). }
  constructor; [| |done].
  - unfold aliased in *. cbn. destruct (currentSession s) as [c|] eqn:Ec; [|done]. rewrite Hget.
    destruct Ha as [->| ->]; [left|by right]. cbn. f_equal. unfold g, is_other. cbn.
    by rewrite bool_decide_true.
  - split; cbn.
    + unfold map_wf, map_keys. by rewrite <- list_fmap_compose.
    + unfold map_all. apply Forall_fmap. eapply Forall_impl; [exact Hkeys|]. intros [k v] Hkv. simpl in *. rewrite <- Hkv.
      unfold g. by destruct (is_other _ v).
Qed.

Lemma sm_terminateOthers granted : preserves sm_inv (terminateAllOtherSessions granted).
Proof.
  intros [s e] Hs. unfold terminateAllOtherSessions. rewrite run_this. cbv zeta.
  rewrite run_modify. cbn [fst snd].
  match goal with |- sm_inv (?m ?w).2.1 =>
    enough (preserves sm_inv m) as Hm by (apply (Hm w); by apply sm_others) end.
  js_preserve.
Qed.

Lemma sm_lock granted : preserves sm_inv (lockSession granted).
Proof. unfold lockSession. js_preserve. by apply sm_change_current. Qed.
Lemma sm_timer : preserves sm_inv resetLockTimer.
Proof. unfold resetLockTimer. js_preserve. Qed.
#[local] Hint Resolve sm_lock sm_timer : js.

Lemma sm_clear : preserves sm_inv clearAllData.
Proof.
  unfold clearAllData. intros [s e] [Ha Hk He]. js_run. unfold ls_removeItem, modify_this. cbn [fst snd].
  constructor; [|apply (keyed_nil (S:=SessionManager))|cbn; lia].
  unfold aliased. cbn. destruct (currentSession s); auto.
Qed.

(** ** Operations and events as steps *)

Inductive operation :=
  | OpActivity | OpCheck | OpTimer | OpLock | OpUnlock | OpTerminate (id : string)
  | OpTerminateOthers | OpLog (t : EventType) (d : string) (ip : option string)
  | OpSettings (u : StoredSettings) | OpRegister (supported : bool) | OpBiometric | OpClear.

Definition exec (granted : bool) (o : operation) : M () :=
  match o with
  | OpActivity => updateActivity
  | OpCheck => checkAutoLock granted
  | OpTimer => fireLockTimer granted
  | OpLock => lockSession granted
  | OpUnlock => unlockSession
  | OpTerminate id => terminateSession granted id;; mret ()
  | OpTerminateOthers => terminateAllOtherSessions granted;; mret ()
  | OpLog t d ip => logSecurityEvent granted t d ip
  | OpSettings u => updateSettings granted u
  | OpRegister b => registerBiometric granted b;; mret ()
  | OpBiometric => authenticateWithBiometric granted;; mret ()
  | OpClear => clearAllData
  end.

Inductive step (granted : bool) : SessionManager * Env → SessionManager * Env → Prop :=
  | step_op o w : step granted w (exec granted o w).2.

#[local] Hint Resolve sm_clear sm_terminateOthers : js.
#[local] Hint Extern 2 (preserves sm_inv (change_current _)) => by apply sm_change_current : js.
#[local] Hint Extern 2 (preserves sm_inv (change_session _ _)) => by apply sm_change_session : js.

Lemma sm_exec granted o : preserves sm_inv (exec granted o).
Proof.
  destruct o; unfold exec, updateActivity, checkAutoLock, fireLockTimer, unlockSession,
    terminateSession, updateSettings, registerBiometric, authenticateWithBiometric; js_preserve.
Qed.

(** The new session is put in the map under its identifier. *)
Lemma sm_initialize ua granted s e : keyed (sessions s) →
  (length (securityEvents s) <= 1000)%nat →
  (initializeSession ua granted (s, e)).1 = Ok () → sm_inv (initializeSession ua granted (s, e)).2.1.
Proof.
  intros Hk He. unfold initializeSession, getOrCreateDeviceId. js_run.
  assert (∀ s1 c e1, sessions s1 = sessions s → securityEvents s1 = securityEvents s →
    let k : M () := saveSessions;; logSecurityEvent granted login "User logged in" None in
    sm_inv (k (set_sessions (map_set (s_id c) c (sessions s1)) (set_current (Some c) s1), e1)).2.1) as Hgo.
  { intros s1 c e1 E1 E2 k.
    assert (preserves sm_inv k) as Hp by (unfold k; js_preserve). apply Hp. cbn [fst].
    constructor; cbn; rewrite ?E1, ?E2; [|exact (keyed_set (S:=SessionManager) c _ Hk)|done].
    unfold aliased. cbn. rewrite map_get_set_eq. by left. }
  destruct (truthy_str (ls_device s)); js_run.
  - intros _. apply (Hgo s (MkSession _ _ _ _ _ _ _ _)); done.
  - destruct (writable _); js_run; [|done].
    intros _. apply (Hgo (set_ls_device _ s) (MkSession _ _ _ _ _ _ _ _)); done.
Qed.

(** The state of a manager before [initializeSession]: no session is current. *)
Definition starting (s : SessionManager) : Prop :=
  currentSession s = None ∧ keyed (sessions s) ∧ (length (securityEvents s) <= 1000)%nat.

(** once [initializeSession] has run, whatever activity, timers, terminations,
    settings changes and clearings follow, the current session is the very object
    the map holds under its identifier (or the map no longer has it), each session
    is under its identifier, and at most a thousand security events are kept. *)
Theorem session_state_consistent ua granted s e w
    (Hstart : starting s) (Hinit : (initializeSession ua granted (s, e)).1 = Ok ())
    (Hreach : rtc (step granted) (initializeSession ua granted (s, e)).2 w) :
  sm_inv w.1.
Proof.
  destruct Hstart as (_ & Hk & He). pose proof (sm_initialize ua granted s e Hk He Hinit) as H.
  induction Hreach as [|w1 w2 w3 [o w1'] _ IH]; [done|]. by apply IH, sm_exec.
Qed.

Definition demo_ua : string := "Mozilla/5.0 (X11; Linux x86_64)".

Lemma session_state_consistent_witness :
  sm_inv (exec true OpTerminateOthers (exec true OpActivity
    (initializeSession demo_ua true (fresh None None None None, demo_env)).2).2).2.1.
Proof.
  apply (session_state_consistent demo_ua true (fresh None None None None) demo_env).
  - split_and!; [done|apply (keyed_nil (S:=SessionManager))|cbn; lia].
  - vm_compute. reflexivity.
  - eapply rtc_l; [by constructor|]. apply rtc_once. by constructor.
Defined.

(** ** Terminating the other sessions *)

(** Logging leaves the sessions alone. *)
Lemma log_sessions granted t d ip w :
  sessions (logSecurityEvent granted t d ip w).2.1 = sessions w.1 ∧
  currentSession (logSecurityEvent granted t d ip w).2.1 = currentSession w.1.
Proof.
  pose (I := λ s : SessionManager, sessions s = sessions w.1 ∧ currentSession s = currentSession w.1).
  assert (preserves I (logSecurityEvent granted t d ip)) as H.
  { unfold logSecurityEvent, notifySecurityEvent, pushEvent, saveSecurityEvents, write_json.
    js_preserve; try (apply preserves_modify; done); try (apply preserves_setItem; done). }
  by apply H.
Qed.

(** when [terminateAllOtherSessions] returns, the number it returns is that of
    the other active sessions, every session that is still active is the current
    one, the current session is untouched, and no session was added or removed. *)
Theorem terminateAllOtherSessions_effect granted s e n w'
    (H : terminateAllOtherSessions granted (s, e) = (Ok n, w')) :
  n = length (js_filter (is_other (currentSession s)) (map_values (sessions s))) ∧
  map_keys (sessions w'.1) = map_keys (sessions s) ∧
  currentSession w'.1 = currentSession s ∧
  (∀ c, c ∈ map_values (sessions w'.1) → isActive c = true →
    Some (s_id c) = s_id <$> currentSession s) ∧
  (∀ k c, map_get k (sessions s) = Some c → Some (s_id c) = s_id <$> currentSession s →
    map_get k (sessions w'.1) = Some c).
Proof.
  unfold terminateAllOtherSessions in H. rewrite run_this in H. cbv zeta in H. rewrite run_modify in H.
  cbn [fst snd] in H. set (cur := currentSession s) in *.
  set (m := (λ kv : string * Session, (kv.1, if is_other cur kv.2 then with_active false kv.2 else kv.2)) <$> sessions s) in H.
  unfold saveSessions in H. apply run_bind_inv in H as (u & w1 & H1 & H).
  rewrite save_items_run in H1. destruct (writable e); [|done]. injection H1 as _ <-.
  apply run_bind_inv in H as (u' & w2 & H2 & H). apply run_ret_inv in H as [<- ->].
  match type of H2 with logSecurityEvent _ ?t ?d ?ip ?w = _ =>
    pose proof (log_sessions granted t d ip w) as [E1 E2] end.
  rewrite H2 in E1, E2. cbn in E1, E2. rewrite E1, E2.
  split_and!; [done| |done| |].
  - unfold m, map_keys. by rewrite <- list_fmap_compose.
  - intros c Hc Hact. unfold map_values, m in Hc. rewrite <- list_fmap_compose in Hc.
    apply list_elem_of_fmap in Hc as ([k v] & -> & _). cbn in *. destruct (is_other cur v) eqn:Ho; [done|].
    unfold is_other in Ho. rewrite Hact, andb_true_r in Ho. apply negb_false_iff in Ho.
    by apply bool_decide_eq_true in Ho.
  - intros k c Hg Hid. unfold m. clear -Hg Hid. induction (sessions s) as [|[k' v] l IH]; [done|].
    csimpl. simpl in Hg. destruct (str_eqb k k'); [|by apply IH]. simplify_eq.
    unfold is_other. by rewrite bool_decide_true.
Qed.

Definition demo_session (id : string) (active : bool) : Session :=
  MkSession id ("dev-" +:+ id) "Mac" demo_ua "Unknown" 1 2 active.

Definition demo_manager : SessionManager :=
  set_current (Some (demo_session "a" true))
    (set_sessions ((λ p, (p.1, demo_session p.1 p.2)) <$> [("a", true); ("b", true); ("c", false)])
       (fresh None None None None)).

Lemma terminateAllOtherSessions_effect_witness :
  ∃ w', terminateAllOtherSessions true (demo_manager, demo_env) = (Ok 1%nat, w') ∧
    map_keys (sessions w'.1) = ["a"; "b"; "c"].
Proof.
  eexists. split; [vm_compute; reflexivity|].
  refine (proj1 (proj2 (terminateAllOtherSessions_effect true demo_manager demo_env 1%nat _ _))).
  vm_compute. reflexivity.
Defined.

(** ** Settings shared with [SecurityService] *)

(** What the security service reads from a stored settings object. *)
Lemma getSettings_stored t e c : browser e = true →
  Security.ls_settings t = Some (TJson c) → Security.getSettings (t, e) = (Ok c, (t, e)).
Proof.
  intros Hb Hc. unfold Security.getSettings, Security.loadSettings. js_run. rewrite Hb. cbn [negb].
  unfold js_try, mbind, js_bind, this. cbn [fst]. by rewrite Hc.
Qed.

(** the session manager writes its settings under the key the security service
    reads: after [updateSettings] by a manager whose own settings have no
    [sessionTimeout] (its defaults have none, and updating never adds one), an
    unlocked [SecurityService] on that storage stays unlocked however much time
    passes, although its own default is to lock after 15 minutes. *)
Theorem shared_settings_disable_timeout granted u s e w' t e2
    (Hnone : sessionTimeout (settings s) = None)
    (Hupdate : updateSettings granted u (s, e) = (Ok (), w'))
    (Hshared : Security.ls_settings t = SessionManager.ls_settings w'.1)
    (Hbrowser : browser e2 = true) (Hunlocked : isLocked t = false) :
  sessionTimeout Security.getDefaultSettings = Some 15 ∧
  isWalletLocked (t, e2) = (Ok false, (t, e2)).
Proof.
  split; [done|].
  assert (SessionManager.ls_settings w'.1 = Some (TJson (assign_settings (settings s) u))) as Hc.
  { unfold updateSettings in Hupdate. rewrite run_modify in Hupdate.
    apply run_bind_inv in Hupdate as (x & w1 & H1 & H). unfold saveSettings, write_json in H1.
    rewrite run_this in H1. unfold ls_setItem in H1. cbn [fst snd] in H1.
    destruct (writable e); [|done]. injection H1 as _ <-.
    match type of H with ?m ?w = _ => assert (preserves
      (λ s0, SessionManager.ls_settings s0 = Some (TJson (assign_settings (settings s) u))) m) as Hp end.
    { unfold resetLockTimer, logSecurityEvent, notifySecurityEvent, pushEvent, saveSecurityEvents, write_json.
      js_preserve; try (apply preserves_modify; done); try (apply preserves_setItem; done). }
    match type of H with ?m ?w = _ => pose proof (Hp w eq_refl) as E; rewrite H in E; exact E end. }
  rewrite Hc in Hshared. unfold isWalletLocked.
  rewrite (run_Ok _ _ _ _ _ (getSettings_stored _ _ _ Hbrowser Hshared)). js_run.
  cbn [sessionTimeout assign_settings]. rewrite Hnone. cbn. by rewrite Hunlocked.
Qed.

Lemma shared_settings_disable_timeout_witness :
  let w' := (updateSettings true (MkSettings None None None None (Some 5) None None None None)
    (demo_manager, demo_env)).2 in
  (isWalletLocked (MkSecurity (Some "pw") 1 false (SessionManager.ls_settings w'.1) None, demo_env)).1
  = Ok false.
Proof.
  intros w'.
  rewrite (proj2 (shared_settings_disable_timeout true
    (MkSettings None None None None (Some 5) None None None None) demo_manager demo_env w'
    (MkSecurity (Some "pw") 1 false (SessionManager.ls_settings w'.1) None) demo_env
    eq_refl ltac:(vm_compute; reflexivity) eq_refl eq_refl eq_refl)).
  reflexivity.
Defined.
