(* ===== verification/AddressBook.v ===== *)
(** * [AddressBookService] (apps/web/wallet/src/services/addressBook.ts)

    Contacts by identifier, stored as a JSON object. Storage errors are swallowed.
    A partial update gives for each field an optional new value. *)

From S2P Require Import Prelude JsMap JsString Store.
Record Contact := MkContact {
  id : string;
  name : string;
  address : string;
  label : option string;
  tags : list string;
  notes : option string;
  favorite : bool;
  createdAt : Z;
  lastUsed : option Z;
  useCount : Z;
}.

Record AddressBook := MkBook {
  contacts : jsmap Contact;
  ls_book : cell (list (string * Contact));
}.

Definition set_contacts m s := MkBook m (ls_book s).
Definition set_ls_book c s := MkBook (contacts s) c.

Abbreviation M := (js (AddressBook * Env)).

Definition fresh (c : cell (list (string * Contact))) : AddressBook := MkBook [] c.

Definition loadContacts : M () :=
  guarded (
    s ← this;
    match truthy_cell (ls_book s) with
    | Some t => l ← JSON_parse t; modify_this (set_contacts (map_of_entries l))
    | None => mret ()
    end).

Definition constructor : M () := loadContacts.

Definition saveContacts : M () :=
  guarded (write_json set_ls_book (λ s, object_order (contacts s))).

Definition generateId : M string :=
  t ← date_now;
  r ← random36;
  mret ("contact_" +:+ pretty t +:+ "_" +:+ r).

Definition by_address (addr : string) (c : Contact) : bool := str_eqb (address c) addr.

Definition addContact (nm addr : string) (lbl : option string) (tgs : list string)
    (nts : option string) : M Contact :=
  s ← this;
  if js_some (by_address addr) (map_values (contacts s)) then
    js_throw "This address is already in your address book"
  else
    newId ← generateId;
    now ← date_now;
    let contact := MkContact newId nm addr lbl tgs nts false now None 0 in
    modify_this (λ s, set_contacts (map_set newId contact (contacts s)) s);;
    saveContacts;;
    mret contact.

Record Updates := MkUpdates {
  u_name : option string;
  u_address : option string;
  u_label : option (option string);
  u_tags : option (list string);
  u_notes : option (option string);
  u_favorite : option bool;
  u_lastUsed : option (option Z);
}.

(** [{ ...contact, ...updates }] *)
Definition apply_updates (u : Updates) (c : Contact) : Contact :=
  MkContact (id c) (default (name c) (u_name u)) (default (address c) (u_address u))
    (default (label c) (u_label u)) (default (tags c) (u_tags u)) (default (notes c) (u_notes u))
    (default (favorite c) (u_favorite u)) (createdAt c) (default (lastUsed c) (u_lastUsed u))
    (useCount c).

Definition updateContact (cid : string) (u : Updates) : M (option Contact) :=
  s ← this;
  match map_get cid (contacts s) with
  | None => mret None
  | Some contact =>
      let updated := apply_updates u contact in
      modify_this (λ s, set_contacts (map_set cid updated (contacts s)) s);;
      saveContacts;;
      mret (Some updated)
  end.

Definition deleteContact (cid : string) : M bool :=
  s ← this;
  let deleted := map_has cid (contacts s) in
  modify_this (λ s, set_contacts (map_delete cid (contacts s)) s);;
  js_when deleted saveContacts;;
  mret deleted.

Definition getContact (cid : string) : M (option Contact) := s ← this; mret (map_get cid (contacts s)).

Definition find_by_address (addr : string) (s : AddressBook) : option Contact :=
  js_find (by_address addr) (map_values (contacts s)).

Definition getContactByAddress (addr : string) : M (option Contact) :=
  s ← this; mret (find_by_address addr s).

Definition getAllContacts : M (list Contact) := s ← this; mret (map_values (contacts s)).

Definition getFavorites : M (list Contact) := l ← getAllContacts; mret (js_filter favorite l).

(** [c.lastUsed || 0] *)
Definition last_use (c : Contact) : Z := default 0 (lastUsed c).

(** [l.slice(0, limit)]: a negative limit counts from the end. *)
Definition slice_to {A} (limit : Z) (l : list A) : list A :=
  take (if 0 <=? limit then Z.to_nat limit else length l - Z.to_nat (- limit)) l.

Definition getRecentlyUsed (limit : Z) : M (list Contact) :=
  l ← getAllContacts;
  mret (slice_to limit (js_sort (λ a b, last_use a <? last_use b)
          (js_filter (λ c, negb (last_use c =? 0)) l))).

Definition getFrequentlyUsed (limit : Z) : M (list Contact) :=
  l ← getAllContacts;
  mret (slice_to limit (js_sort (λ a b, useCount a <? useCount b) l)).

(** Does the lower-case text of a field contain the query? *)
Definition field_has (q : string) (s : string) : bool := includes q (toLowerCase s).
Definition opt_has (q : string) (o : option string) : bool :=
  match o with Some s => field_has q s | None => false end.

Definition matches (q : string) (c : Contact) : bool :=
  field_has q (name c) || field_has q (address c) || opt_has q (label c)
  || js_some (field_has q) (tags c) || opt_has q (notes c).

Definition searchContacts (query : string) : M (list Contact) :=
  l ← getAllContacts; mret (js_filter (matches (toLowerCase query)) l).

Definition getContactsByTag (tag : string) : M (list Contact) :=
  l ← getAllContacts; mret (js_filter (λ c, js_some (str_eqb tag) (tags c)) l).

Definition with_favorite (b : bool) (c : Contact) : Contact :=
  MkContact (id c) (name c) (address c) (label c) (tags c) (notes c) b (createdAt c) (lastUsed c)
    (useCount c).

Definition toggleFavorite (cid : string) : M bool :=
  s ← this;
  match map_get cid (contacts s) with
  | None => mret false
  | Some contact =>
      let c' := with_favorite (negb (favorite contact)) contact in
      modify_this (λ s, set_contacts (map_set cid c' (contacts s)) s);;
      saveContacts;;
      mret (favorite c')
  end.

Definition with_use (now : Z) (c : Contact) : Contact :=
  MkContact (id c) (name c) (address c) (label c) (tags c) (notes c) (favorite c) (createdAt c)
    (Some now) (useCount c + 1).

(** The contact found is changed in place and set under its own identifier, which is
    its key: every operation keeps it so, and stored texts that mix them up are not
    considered. *)
Definition recordUsage (addr : string) : M () :=
  s ← this;
  match find_by_address addr s with
  | None => mret ()
  | Some contact =>
      now ← date_now;
      let c' := with_use now contact in
      modify_this (λ s, set_contacts (map_set (id contact) c' (contacts s)) s);;
      saveContacts
  end.

Definition getAllTags : M (list string) :=
  l ← getAllContacts; mret (sort_strings (set_of (concat (tags <$> l)))).

(** The JSON text of the contacts. *)
Definition exportAddressBook : M (text (list Contact)) :=
  s ← this; mret (TJson (map_values (contacts s))).

(** One contact of an import: how many were added and refused so far. *)
Definition import_one (st : jsmap Contact * Z * Z) (c : Contact) : jsmap Contact * Z * Z :=
  let '(m, success, failed) := st in
  if js_some (by_address (address c)) (map_values m) then (m, success, failed + 1)
  else (map_set (id c) c m, success + 1, failed).

Definition importAddressBook (jsonData : text (list Contact)) : M (Z * Z) :=
  js_try (
    l ← JSON_parse jsonData;
    s ← this;
    let '(m, success, failed) := foldl import_one (contacts s, 0, 0) l in
    modify_this (set_contacts m);;
    saveContacts;;
    mret (success, failed))
  (λ _, js_throw "Invalid address book data").

(** * Theorems *)

Definition addresses (m : jsmap Contact) : list string := address <$> map_values m.

(** No two contacts share an address, and each is under its identifier. *)
Record book_ok (m : jsmap Contact) : Prop := {
  ok_wf : map_wf m;
  ok_ids : map_all (λ k c, id c = k) m;
  ok_unique : NoDup (addresses m);
}.

Lemma by_address_false addr m :
  js_some (by_address addr) (map_values m) = false ↔ addr ∉ addresses m.
Proof.
  unfold addresses, by_address. rewrite js_some_false. split.
  - intros H (c & -> & Hc)%list_elem_of_fmap. specialize (H c Hc). cbv beta in H.
    by rewrite str_eqb_refl in H.
  - intros H c Hc. apply str_eqb_false. intros <-. apply H. by apply list_elem_of_fmap_2.
Qed.

Lemma addresses_set_incl k c m : addresses (map_set k c m) ⊆ address c :: addresses m.
Proof.
  induction m as [|[k' c'] m IH]; simpl; [done|].
  destruct (str_eqb k k'); unfold addresses in *; csimpl; set_solver.
Qed.

Lemma NoDup_addresses_set k c m :
  NoDup (addresses m) → address c ∉ addresses m → NoDup (addresses (map_set k c m)).
Proof.
  induction m as [|[k' c'] m IH]; unfold addresses in *; csimpl; intros Hnd Hni.
  - apply NoDup_singleton.
  - apply NoDup_cons in Hnd as [Hc' Hnd]. destruct (str_eqb k k'); csimpl.
    + apply NoDup_cons. split; [set_solver|done].
    + apply NoDup_cons. split; [|apply IH; set_solver].
      intros Hin. pose proof (addresses_set_incl k c m) as Hincl. unfold addresses in Hincl.
      apply Hincl in Hin. set_solver.
Qed.

(** Replacing the contact under a key by one with the same address. *)
Lemma addresses_replace k c c' m :
  map_get k m = Some c → address c' = address c → addresses (map_set k c' m) = addresses m.
Proof.
  induction m as [|[k' v] m IH]; simpl; [done|]. unfold addresses in *.
  destruct (str_eqb k k'); intros H E; csimpl; [by simplify_eq; rewrite E|by rewrite IH].
Qed.

Lemma book_ok_add c m : book_ok m → address c ∉ addresses m → book_ok (map_set (id c) c m).
Proof.
  intros [H1 H2 H3] Hc. constructor; [by apply map_wf_set|by apply map_all_set|].
  by apply NoDup_addresses_set.
Qed.

Lemma book_ok_replace k c c' m :
  book_ok m → map_get k m = Some c → id c' = id c → address c' = address c → book_ok (map_set k c' m).
Proof.
  intros [H1 H2 H3] Hg Hi Ha. constructor; [by apply map_wf_set| |].
  - apply map_all_set; [|done]. rewrite Hi. exact (map_all_get _ _ _ _ H2 Hg).
  - by rewrite (addresses_replace k c).
Qed.

Lemma addresses_delete k m : addresses (map_delete k m) `sublist_of` addresses m.
Proof.
  unfold addresses, map_values, map_delete. apply fmap_sublist, fmap_sublist, js_filter_sublist.
Qed.

Lemma book_ok_delete k m : book_ok m → book_ok (map_delete k m).
Proof.
  intros [H1 H2 H3]. constructor; auto with jsmap. eapply sublist_NoDup; [exact H3|apply addresses_delete].
Qed.

Lemma import_ok l m a b : book_ok m → book_ok (foldl import_one (m, a, b) l).1.1.
Proof.
  revert m a b. induction l as [|c l IH]; intros m a b Hm; [done|]. cbn [foldl]. unfold import_one at 2.
  destruct (js_some _ _) eqn:E; apply IH; [done|]. apply book_ok_add; [done|]. by apply by_address_false.
Qed.

(** ** Operations as steps *)

Inductive operation :=
  | OpAdd (nm addr : string) (lbl : option string) (tgs : list string) (nts : option string)
  | OpUpdate (cid : string) (u : Updates)
  | OpDelete (cid : string)
  | OpToggle (cid : string)
  | OpUse (addr : string)
  | OpImport (data : text (list Contact)).

Definition exec (o : operation) : M () :=
  match o with
  | OpAdd n a l t x => addContact n a l t x;; mret ()
  | OpUpdate i u => updateContact i u;; mret ()
  | OpDelete i => deleteContact i;; mret ()
  | OpToggle i => toggleFavorite i;; mret ()
  | OpUse a => recordUsage a
  | OpImport d => importAddressBook d;; mret ()
  end.

(** Every operation, updates that change an address apart. *)
Inductive step : AddressBook * Env → AddressBook * Env → Prop :=
  | step_op o w :
      match o with OpUpdate _ u => u_address u = None | _ => True end →
      step w (exec o w).2.

Definition ab_inv (s : AddressBook) : Prop := book_ok (contacts s).

Lemma ab_save : preserves ab_inv saveContacts.
Proof. unfold saveContacts, write_json. js_preserve. Qed.
#[local] Hint Resolve ab_save : js.

Lemma ab_exec o : match o with OpUpdate _ u => u_address u = None | _ => True end →
  preserves ab_inv (exec o).
Proof.
  intros Ho. destruct o; unfold exec.
  - intros [s e] Hs. unfold addContact, generateId. js_run. destruct (js_some _ _) eqn:E; [done|]. js_run.
    set (c := MkContact _ _ _ _ _ _ _ _ _ _).
    refine (preserves_bind ab_inv _ _ ab_save (λ _, preserves_ret _ _) (_, _) _).
    apply (book_ok_add c); [done|by apply by_address_false].
  - intros [s e] Hs. unfold updateContact. js_run. destruct (map_get cid (contacts s)) as [c|] eqn:Hg; js_run; [|done].
    refine (preserves_bind ab_inv _ _ ab_save (λ _, preserves_ret _ _) (_, _) _).
    apply (book_ok_replace _ c); [done|done|done|]. simpl. by rewrite Ho.
  - intros [s e] Hs. unfold deleteContact. js_run.
    assert (ab_inv (set_contacts (map_delete cid (contacts s)) s)) by (by apply book_ok_delete).
    destruct (map_has _ _); js_run; [|done].
    by refine (preserves_bind ab_inv _ _ ab_save (λ _, preserves_ret _ _) (_, _) _).
  - intros [s e] Hs. unfold toggleFavorite. js_run. destruct (map_get cid (contacts s)) as [c|] eqn:Hg; js_run; [|done].
    refine (preserves_bind ab_inv _ _ ab_save (λ _, preserves_ret _ _) (_, _) _).
    by apply (book_ok_replace _ c).
  - intros [s e] Hs. unfold recordUsage. js_run. destruct (find_by_address addr s) as [c|] eqn:Hf; js_run; [|done].
    apply ab_save. apply js_find_Some in Hf as [Hc _]. apply elem_of_map_values in Hc as [k Hc].
    cbn. apply (book_ok_replace _ c); [done| |done..]. apply map_get_elem; [apply Hs|].
    assert (id c = k) as ->; [|done]. destruct Hs as [_ Hids _]. unfold map_all in Hids.
    rewrite Forall_forall in Hids. exact (Hids _ Hc).
  - apply preserves_bind; [|intros; js_preserve]. apply preserves_try; [|intros; js_preserve].
    apply preserves_bind; [js_preserve|]. intros l. apply preserves_this. intros s Hs.
    pose proof (import_ok l (contacts s) 0 0 Hs) as Hi. destruct (foldl _ _ _) as [[m a] b]. js_preserve.
Qed.

(** from any book without repeated addresses, every sequence of additions,
    imports, deletions, uses, favourite switches and updates that leave the address
    alone keeps the addresses unique and each contact under its own identifier. *)
Theorem addresses_stay_unique w0 w (H0 : book_ok (contacts w0.1)) (Hreach : rtc step w0 w) :
  book_ok (contacts w.1).
Proof.
  revert H0. induction Hreach as [|w1 w2 w3 [o w1' Ho] _ IH]; [done|]. intros H. by apply IH, (ab_exec o).
Qed.

Lemma addresses_stay_unique_witness :
  book_ok (contacts (exec (OpUse "kc1a")
    (exec (OpAdd "Ann" "kc1a" None [] None) (fresh None, demo_env)).2).2.1).
Proof.
  apply (addresses_stay_unique (fresh None, demo_env)).
  - constructor; [apply map_wf_nil|apply map_all_nil|apply NoDup_nil_2].
  - eapply rtc_l; [by apply (step_op (OpAdd "Ann" "kc1a" None [] None))|].
    apply rtc_once. by apply (step_op (OpUse "kc1a")).
Defined.

(** ** Updating an address *)

Definition set_address (a : string) : Updates := MkUpdates None (Some a) None None None None None.

(** [updateContact] does not check the new address: giving a contact the address
    of another one makes two contacts with the same address, which [addContact]
    would have refused. *)
Theorem updateContact_can_duplicate cid other s e c c2
    (Hc : map_get cid (contacts s) = Some c) (H2 : map_get other (contacts s) = Some c2)
    (Hne : cid ≠ other) :
  let w' := (updateContact cid (set_address (address c2)) (s, e)).2 in
  (∃ c', map_get cid (contacts w'.1) = Some c' ∧ address c' = address c2) ∧
  map_get other (contacts w'.1) = Some c2 ∧
  (addContact "" (address c2) None [] None (s, e)).1 = Throw "This address is already in your address book".
Proof.
  assert (∀ P : jsmap Contact → Prop, P (map_set cid (apply_updates (set_address (address c2)) c) (contacts s)) →
    P (contacts (updateContact cid (set_address (address c2)) (s, e)).2.1)) as HP.
  { intros P HP. unfold updateContact. js_run. rewrite Hc. js_run.
    match goal with |- P (contacts (?m ?w).2.1) =>
      assert (preserves (λ s, P (contacts s)) m) as Hp; [|exact (Hp w HP)] end.
    unfold saveContacts, write_json. js_preserve. }
  cbv zeta. split_and!.
  - apply (HP (λ m, ∃ c', map_get cid m = Some c' ∧ address c' = address c2)).
    rewrite map_get_set_eq. by eexists.
  - apply (HP (λ m, map_get other m = Some c2)). by rewrite map_get_set_ne.
  - unfold addContact. js_run. assert (js_some (by_address (address c2)) (map_values (contacts s)) = true) as ->; [|done].
    apply js_some_true. exists c2. split; [|apply str_eqb_refl]. apply elem_of_map_values.
    exists other. by apply map_get_Some_elem.
Qed.

Definition demo_contact (i a : string) : Contact := MkContact i "name" a None [] None false 1 None 0.
Definition demo_book : AddressBook :=
  MkBook [("1", demo_contact "1" "kc1a"); ("2", demo_contact "2" "kc1b")] None.

Lemma updateContact_can_duplicate_witness :
  let w' := (updateContact "2" (set_address "kc1a") (demo_book, demo_env)).2 in
  map_get "1" (contacts w'.1) = Some (demo_contact "1" "kc1a") ∧
  ∃ c', map_get "2" (contacts w'.1) = Some c' ∧ address c' = "kc1a".
Proof.
  destruct (updateContact_can_duplicate "2" "1" demo_book demo_env (demo_contact "2" "kc1b")
    (demo_contact "1" "kc1a") eq_refl eq_refl ltac:(done)) as (H1 & H2 & _).
  split; [exact H2|exact H1].
Defined.

(** ** Export and import *)

Lemma import_fresh l m a b :
  NoDup (address <$> l) → (∀ c, c ∈ l → address c ∉ addresses m) →
  foldl import_one (m, a, b) l = (map_set_all id m l, a + Z.of_nat (length l), b).
Proof.
  revert m a. induction l as [|c l IH]; intros m a Hnd Hd; [simpl; by rewrite Z.add_0_r|].
  csimpl. apply NoDup_cons in Hnd as [Hc Hnd].
  assert (js_some (by_address (address c)) (map_values m) = false) as ->
    by (apply by_address_false, Hd; by left).
  rewrite IH; [|done|].
  { unfold map_set_all. cbn [foldl length]. rewrite Nat2Z.inj_succ. do 2 f_equal. lia. }
  intros c2 Hc2 Hin%addresses_set_incl. apply elem_of_cons in Hin as [E|Hin].
  - apply Hc. rewrite <- E. by apply list_elem_of_fmap_2.
  - by apply (Hd c2 (list_elem_of_further _ _ _ Hc2)).
Qed.

(** importing the export of a book into an empty one restores every contact
    under its identifier, reports one success per contact and no failure. *)
Theorem export_import_roundtrip s e s0 e0
    (Hs : book_ok (contacts s)) (Hempty : contacts s0 = []) :
  ∃ data, (exportAddressBook (s, e)).1 = Ok data ∧
    let '(r, w') := importAddressBook data (s0, e0) in
    r = Ok (Z.of_nat (map_size (contacts s)), 0) ∧ contacts w'.1 = contacts s.
Proof.
  exists (TJson (map_values (contacts s))). split; [done|].
  destruct Hs as [Hwf Hids Hnd].
  assert (foldl import_one (contacts s0, 0, 0) (map_values (contacts s))
    = (contacts s, Z.of_nat (map_size (contacts s)), 0)) as Hfold.
  { rewrite Hempty, import_fresh; [|exact Hnd|intros c _; unfold addresses; simpl; set_solver].
    rewrite (map_set_all_values id [] (contacts s)) by done.
    unfold map_values, map_size. by rewrite length_fmap. }
  assert (∀ s e, ∃ w', (saveContacts (s, e) : result () * (AddressBook * Env)) = (Ok (), w') ∧ contacts w'.1 = contacts s) as Hsave.
  { intros s1 e1. unfold saveContacts, guarded. js_run. destruct (browser e1); [|by eexists].
    cbn [js_when]. unfold js_try, write_json. js_run. unfold ls_setItem. cbn [fst snd].
    destruct (writable e1); by eexists. }
  destruct (Hsave (set_contacts (contacts s) s0) e0) as (w' & E & Hw').
  unfold importAddressBook. erewrite run_try_Ok; [split; [reflexivity|exact Hw']|].
  unfold JSON_parse. js_run. rewrite Hfold. js_run. by rewrite (run_Ok _ _ _ _ _ E).
Qed.

Lemma export_import_roundtrip_witness :
  ∃ data, (exportAddressBook (demo_book, demo_env)).1 = Ok data ∧
    (importAddressBook data (fresh None, demo_env)).1 = Ok (2, 0).
Proof.
  destruct (export_import_roundtrip demo_book demo_env (fresh None) demo_env) as (data & H & H2).
  - constructor; [apply NoDup_ListNoDup; repeat constructor; set_solver|by repeat constructor|].
    apply NoDup_ListNoDup. repeat constructor; set_solver.
  - reflexivity.
  - exists data. split; [exact H|]. destruct (importAddressBook data (fresh None, demo_env)). apply H2.
Defined.
