(* ===== verification/AddressBookPage.v ===== *)
(** * The address book page (apps/web/wallet/app/wallet/address-book/page.tsx)

    The page keeps a copy of the contacts of [AddressBook] with filters, dialogs and messages. Each event
    runs a handler, and the rendering after it runs the effect that fills the list when one of its
    dependencies has changed ([stale]). The host's collation is a parameter. *)

From Stdlib Require Import Ascii String Btauto.
From S2P Require Import Prelude JsMap JsString Store Counting Page AddressBook.

(** ** State *)

Record Form := MkForm { f_name : string; f_address : string; f_label : string; f_tags : string; f_notes : string }.
Definition empty_form : Form := MkForm "" "" "" "" "".

Record BookPage := MkPage {
  shown_contacts : list Contact;
  filteredContacts : list Contact;
  searchTerm : string;
  selectedTag : option string;
  showFavoritesOnly : bool;
  showAddDialog : bool;
  showEditDialog : bool;
  editingContact : option Contact;
  formData : Form;
  error : option string;
  success : option string;
  stale : bool;
}.

Definition blank : BookPage := MkPage [] [] "" None false false false None empty_form None None true.

Definition set_shown x p := MkPage x (filteredContacts p) (searchTerm p) (selectedTag p) (showFavoritesOnly p) (showAddDialog p) (showEditDialog p) (editingContact p) (formData p) (error p) (success p) true.
Definition set_filtered x p := MkPage (shown_contacts p) x (searchTerm p) (selectedTag p) (showFavoritesOnly p) (showAddDialog p) (showEditDialog p) (editingContact p) (formData p) (error p) (success p) false.
Definition setSearchTerm x p := MkPage (shown_contacts p) (filteredContacts p) x (selectedTag p) (showFavoritesOnly p) (showAddDialog p) (showEditDialog p) (editingContact p) (formData p) (error p) (success p) (stale p || negb (str_eqb x (searchTerm p))).
Definition setSelectedTag x p := MkPage (shown_contacts p) (filteredContacts p) (searchTerm p) x (showFavoritesOnly p) (showAddDialog p) (showEditDialog p) (editingContact p) (formData p) (error p) (success p) (stale p || negb (bool_decide (x = selectedTag p))).
Definition setShowFavoritesOnly x p := MkPage (shown_contacts p) (filteredContacts p) (searchTerm p) (selectedTag p) x (showAddDialog p) (showEditDialog p) (editingContact p) (formData p) (error p) (success p) (stale p || negb (eqb x (showFavoritesOnly p))).
Definition setShowAddDialog x p := MkPage (shown_contacts p) (filteredContacts p) (searchTerm p) (selectedTag p) (showFavoritesOnly p) x (showEditDialog p) (editingContact p) (formData p) (error p) (success p) (stale p).
Definition set_editing open c p := MkPage (shown_contacts p) (filteredContacts p) (searchTerm p) (selectedTag p) (showFavoritesOnly p) (showAddDialog p) open c (formData p) (error p) (success p) (stale p).
Definition setFormData x p := MkPage (shown_contacts p) (filteredContacts p) (searchTerm p) (selectedTag p) (showFavoritesOnly p) (showAddDialog p) (showEditDialog p) (editingContact p) x (error p) (success p) (stale p).
Definition setError x p := MkPage (shown_contacts p) (filteredContacts p) (searchTerm p) (selectedTag p) (showFavoritesOnly p) (showAddDialog p) (showEditDialog p) (editingContact p) (formData p) x (success p) (stale p).
Definition setSuccess x p := MkPage (shown_contacts p) (filteredContacts p) (searchTerm p) (selectedTag p) (showFavoritesOnly p) (showAddDialog p) (showEditDialog p) (editingContact p) (formData p) (error p) x (stale p).

Abbreviation W := (World BookPage AddressBook).
Abbreviation M := (js (W * Env)).

Section Host.
(** [a.localeCompare(b) > 0] *)
Context (collates_after : string → string → bool).

(** ** Effects *)

Definition loadContacts : M () := l ← service getAllContacts; set_page (set_shown l).

(** Is the comparator positive: favourites first, then by name? *)
Definition after (a b : Contact) : bool :=
  if favorite a && negb (favorite b) then false
  else if negb (favorite a) && favorite b then true
  else collates_after (name a) (name b).

Definition kept (p : BookPage) (c : Contact) : bool :=
  (negb (showFavoritesOnly p) || favorite c) &&
  match selectedTag p with Some t => str_eqb t "" || js_some (str_eqb t) (tags c) | None => true end.

Definition applyFilters : M () :=
  p ← get_page;
  let filtered := shown_contacts p in
  let filtered := if showFavoritesOnly p then js_filter favorite filtered else filtered in
  let filtered := match selectedTag p with
    | Some t => if str_eqb t "" then filtered else js_filter (λ c, js_some (str_eqb t) (tags c)) filtered
    | None => filtered
    end in
  filtered ← (if str_eqb (searchTerm p) "" then mret filtered else service (searchContacts (searchTerm p)));
  set_page (set_filtered (js_sort after filtered)).

Definition render : M () := p ← get_page; js_when (stale p) applyFilters.

(** ** Handlers *)

Definition tags_of (s : string) : list string :=
  js_filter (λ t, (0 <? String.length t)%nat) (trim <$> split_on "," s).

Definition message (m : M ()) : M () := js_try m (λ msg, set_page (setError (Some msg))).

Definition handleAddContact : M () :=
  set_page (setError None);;
  set_page (setSuccess None);;
  p ← get_page;
  let f := formData p in
  if str_eqb (trim (f_name f)) "" then set_page (setError (Some "Contact name is required"))
  else if str_eqb (trim (f_address f)) "" then set_page (setError (Some "Address is required"))
  else message (
    service (addContact (f_name f) (f_address f) (Some (f_label f)) (tags_of (f_tags f)) (Some (f_notes f)));;
    set_page (setSuccess (Some "Contact added successfully"));;
    set_page (setShowAddDialog false);;
    set_page (setFormData empty_form);;
    loadContacts).

Definition handleEditContact : M () :=
  p0 ← get_page;
  match editingContact p0 with
  | None => mret ()
  | Some c =>
      set_page (setError None);;
      set_page (setSuccess None);;
      let f := formData p0 in
      if str_eqb (trim (f_name f)) "" then set_page (setError (Some "Contact name is required"))
      else message (
        service (updateContact (id c) (MkUpdates (Some (f_name f)) None (Some (Some (f_label f))) (Some (tags_of (f_tags f))) (Some (Some (f_notes f))) None None));;
        set_page (setSuccess (Some "Contact updated successfully"));;
        set_page (set_editing false None);;
        set_page (setFormData empty_form);;
        loadContacts)
  end.

(** [agreed]: the browser is automated, or the user confirms. *)
Definition handleDeleteContact (agreed : bool) (cid : string) : M () :=
  if agreed then
    done ← service (deleteContact cid);
    if done : bool then set_page (setSuccess (Some "Contact deleted successfully"));; loadContacts
    else set_page (setError (Some "Failed to delete contact"))
  else mret ().

Definition handleToggleFavorite (cid : string) : M () := service (toggleFavorite cid);; loadContacts.

(** The file that is saved. *)
Definition handleExport : M (text (list Contact)) :=
  data ← service exportAddressBook;
  set_page (setSuccess (Some "Address book exported successfully"));;
  mret data.

Definition handleCopyAddress : M () := set_page (setSuccess (Some "Address copied to clipboard")).

Definition openEditDialog (c : Contact) : M () :=
  set_page (λ p, set_editing true (Some c)
    (setFormData (MkForm (name c) (address c) (default "" (label c)) (join ", " (tags c)) (default "" (notes c))) p)).

Inductive event :=
  | Add | Edit | Delete (agreed : bool) (cid : string) | ToggleFavorite (cid : string) | Export | Copy
  | Open (c : Contact) | Search (s : string) | Tag (t : option string) | FavoritesOnly (b : bool)
  | Type_ (f : Form) | AddDialog (b : bool) | Forget.

Definition handle (ev : event) : M () :=
  match ev with
  | Add => handleAddContact
  | Edit => handleEditContact
  | Delete agreed cid => handleDeleteContact agreed cid
  | ToggleFavorite cid => handleToggleFavorite cid
  | Export => handleExport;; mret ()
  | Copy => handleCopyAddress
  | Open c => openEditDialog c
  | Search s => set_page (setSearchTerm s)
  | Tag t => set_page (setSelectedTag t)
  | FavoritesOnly b => set_page (setShowFavoritesOnly b)
  | Type_ f => set_page (setFormData f)
  | AddDialog b => set_page (setShowAddDialog b)
  | Forget => set_page (setSuccess None)
  end.

Definition exec (ev : event) : M () := handle ev;; render.
Definition mount : M () := loadContacts;; render.
End Host.

(** * Theorems *)

Section Theorems.
Context (collates_after : string → string → bool).

(** ** What the page should show *)

(** The contacts of the book that the filters keep; a search replaces them. *)
Definition shown (p : BookPage) (s : AddressBook) : list Contact :=
  js_sort (after collates_after)
    (js_filter (if str_eqb (searchTerm p) "" then kept p else matches (toLowerCase (searchTerm p))) (map_values (contacts s))).

Record in_step (w : W) : Prop := {
  step_copy : shown_contacts (page w) = map_values (contacts (services w));
  step_list : stale (page w) = false → filteredContacts (page w) = shown (page w) (services w);
}.

Lemma kept_filters p l :
  match selectedTag p with
  | Some t => if str_eqb t "" then (if showFavoritesOnly p then js_filter favorite l else l)
              else js_filter (λ c, js_some (str_eqb t) (tags c)) (if showFavoritesOnly p then js_filter favorite l else l)
  | None => if showFavoritesOnly p then js_filter favorite l else l
  end = js_filter (kept p) l.
Proof.
  assert (∀ b : bool, (if b then js_filter favorite l else l) = js_filter (λ c, negb b || favorite c) l) as ->.
  { intros []; [by apply filter_same|]. symmetry. by apply js_filter_all. }
  unfold kept. destruct (selectedTag p) as [t|]; [destruct (str_eqb t "")|]; rewrite ?filter_twice; apply filter_same; intros x; btauto.
Qed.

Lemma book_render_run w : in_step w.1 → ∃ w', render collates_after w = (Ok (), w') ∧ in_step w'.1 ∧ stale (page w'.1) = false ∧ services w'.1 = services w.1.
Proof.
  destruct w as [[p s] e]. intros [Hc Hl]. unfold render. page_run. cbn in Hc, Hl. destruct (stale p) eqn:Hs; cbn [js_when]; [|eexists; split; [reflexivity|]; split; [constructor; [done|by intros _; apply Hl]|done]].
  unfold applyFilters. page_run. rewrite kept_filters, Hc. destruct (str_eqb (searchTerm p) "") eqn:Eq; page_run.
  - eexists. split; [reflexivity|]. split; [|done]. constructor; [exact Hc|]. intros _. cbn. unfold shown. cbn. by rewrite Eq.
  - erewrite run_service by reflexivity. cbv iota. eexists. split; [reflexivity|]. split; [|done]. constructor; [exact Hc|].
    intros _. cbn. unfold shown. cbn. by rewrite Eq.
Qed.

(** ** Calls of the book *)

Lemma book_save_run s e : ∃ s', saveContacts (s, e) = (Ok (), (s', e)) ∧ contacts s' = contacts s.
Proof. unfold saveContacts. rewrite guarded_write_run. eexists. split; [reflexivity|]. unfold written. by destruct (_ && _). Qed.

Ltac save_step := match goal with |- context [(saveContacts ≫= ?k) (?s, ?e)] =>
  let H := fresh in let H' := fresh in destruct (book_save_run s e) as (? & H & H'); rewrite (run_Ok _ _ _ _ _ H); cbn in H' end.

Lemma add_cases n a l t x s e : (∃ msg, addContact n a l t x (s, e) = (Throw msg, (s, e))) ∨
  ∃ c s' e', addContact n a l t x (s, e) = (Ok c, (s', e')).
Proof.
  unfold addContact, generateId. js_run. destruct (js_some _ _); [left; by eexists|right]. js_run. save_step. by eauto.
Qed.

Lemma update_cases i u s e : ∃ r s', updateContact i u (s, e) = (Ok r, (s', e)).
Proof. unfold updateContact. js_run. destruct (map_get i _); [|by eauto]. js_run. save_step. by eauto. Qed.

Lemma toggle_cases i s e : ∃ r s', toggleFavorite i (s, e) = (Ok r, (s', e)).
Proof. unfold toggleFavorite. js_run. destruct (map_get i _); [|by eauto]. js_run. save_step. by eauto. Qed.

Lemma map_delete_without {V} k (m : jsmap V) : map_has k m = false → map_delete k m = m.
Proof.
  unfold map_has. intros H. apply js_filter_all. intros [k' v] Hin. cbn. destruct (str_eqb k k') eqn:E; [|done].
  apply str_eqb_true in E as <-. destruct (map_get k m) eqn:Hg; [done|]. apply map_get_None_keys in Hg. destruct Hg.
  apply list_elem_of_fmap. by exists (k, v).
Qed.

Lemma delete_cases i s e : ∃ r s', deleteContact i (s, e) = (Ok r, (s', e)) ∧ (r = false → contacts s' = contacts s).
Proof.
  unfold deleteContact. js_run. destruct (map_has i (contacts s)) eqn:E; js_run.
  - save_step. eexists _, _. split; [reflexivity|done].
  - eexists _, _. split; [reflexivity|]. intros _. cbn. by apply map_delete_without.
Qed.

(** ** Handlers keep the page in step *)

Lemma load_step w : ∃ a w', loadContacts w = (Ok a, w') ∧ in_step w'.1.
Proof. destruct w as [[p s] e]. eexists _, _. split; [reflexivity|]. by constructor. Qed.

(** Changes of the page that leave the list alone. *)
Definition neutral (f : BookPage → BookPage) : Prop := ∀ p,
  shown_contacts (f p) = shown_contacts p ∧ filteredContacts (f p) = filteredContacts p ∧ searchTerm (f p) = searchTerm p ∧
  selectedTag (f p) = selectedTag p ∧ showFavoritesOnly (f p) = showFavoritesOnly p ∧ stale (f p) = stale p.

Lemma book_neutral_step f p s : neutral f → in_step (MkWorld p s) → in_step (MkWorld (f p) s).
Proof.
  intros Hf [Hc Hl]. destruct (Hf p) as (H1 & H2 & H3 & H4 & H5 & H6). constructor; cbn in *; [by rewrite H1|].
  rewrite H6, H2. intros Hs. rewrite Hl by done. unfold shown, kept. by rewrite H3, H4, H5.
Qed.

Abbreviation fine := (keeps in_step).

Lemma fine_neutral f : neutral f → fine (set_page f).
Proof. intros Hf. apply keeps_set. intros p s. by apply book_neutral_step. Qed.

Lemma fine_bind f (m : M ()) : neutral f → fine m → fine (set_page f;; m).
Proof. intros Hf Hm. apply keeps_bind; [by apply fine_neutral|done]. Qed.

Lemma fine_message (m : M ()) :
  (∀ w, in_step w.1 → (∃ a w', m w = (Ok a, w') ∧ in_step w'.1) ∨ ∃ msg, m w = (Throw msg, w)) → fine (message m).
Proof.
  intros Hm w H. unfold message. destruct (Hm w H) as [(a & w' & E & H')|(msg & E)].
  - exists a, w'. by rewrite (run_try_Ok _ _ _ _ _ E).
  - rewrite (run_try_Throw _ _ _ _ _ E). by apply (fine_neutral (setError (Some msg))).
Qed.

Lemma handleAdd_fine : fine handleAddContact.
Proof.
  unfold handleAddContact. apply fine_bind; [done|]. apply fine_bind; [done|]. apply keeps_get. intros p.
  repeat case_match; try by apply fine_neutral. apply fine_message. intros [[q s] e] Hin.
  destruct (add_cases (f_name (formData p)) (f_address (formData p)) (Some (f_label (formData p))) (tags_of (f_tags (formData p)))
    (Some (f_notes (formData p))) s e) as [(msg & E)|(c & s' & e' & E)]; rewrite (run_service _ _ (MkWorld q s, e) _ _ _ E); cbv iota; [right; by exists msg|left].
  page_run. apply load_step.
Qed.

Lemma handleEdit_fine : fine handleEditContact.
Proof.
  unfold handleEditContact. apply keeps_get. intros p. destruct (editingContact p) as [c|]; [|apply keeps_ret].
  apply fine_bind; [done|]. apply fine_bind; [done|]. cbv zeta. case_match; [by apply fine_neutral|]. apply fine_message.
  intros [[q s] e] Hin. match goal with |- context [updateContact ?i ?u] => destruct (update_cases i u s e) as (r & s' & E) end.
  left. rewrite (run_service _ _ (MkWorld q s, e) _ _ _ E). cbv iota. page_run. apply load_step.
Qed.

Lemma handleDelete_fine agreed cid : fine (handleDeleteContact agreed cid).
Proof.
  unfold handleDeleteContact. destruct agreed; [|apply keeps_ret]. intros [[p s] e] [Hc Hl]. cbn in Hc, Hl.
  destruct (delete_cases cid s e) as (r & s' & E & Hr). rewrite (run_service _ _ (MkWorld p s, e) _ _ _ E). cbv iota.
  destruct r; [page_run; apply load_step|]. specialize (Hr eq_refl). eexists _, _. split; [reflexivity|]. apply (book_neutral_step (setError _) p s'); [done|].
  constructor; cbn; [by rewrite Hr|]. intros Hs. rewrite Hl by done. unfold shown. by rewrite Hr.
Qed.

Lemma handle_fine ev : fine (handle ev).
Proof.
  destruct ev; cbn [handle]; try by apply fine_neutral.
  - apply handleAdd_fine.
  - apply handleEdit_fine.
  - apply handleDelete_fine.
  - intros [[p q] e] _. unfold handleToggleFavorite. destruct (toggle_cases cid q e) as (r & s' & E).
    rewrite (run_service _ _ (MkWorld p q, e) _ _ _ E). apply load_step.
  - intros [[p q] e] [Hc Hl]. eexists _, _. split; [reflexivity|]. constructor; [exact Hc|]. cbn in Hl |- *. intros [Hs E]%orb_false_iff.
    apply negb_false_iff, str_eqb_true in E as ->. rewrite (Hl Hs). reflexivity.
  - intros [[p q] e] [Hc Hl]. eexists _, _. split; [reflexivity|]. constructor; [exact Hc|]. cbn in Hl |- *. intros [Hs E]%orb_false_iff.
    apply negb_false_iff, bool_decide_eq_true in E as ->. rewrite (Hl Hs). reflexivity.
  - intros [[p q] e] [Hc Hl]. eexists _, _. split; [reflexivity|]. constructor; [exact Hc|]. cbn in Hl |- *. intros [Hs E]%orb_false_iff.
    apply negb_false_iff, eqb_prop in E as ->. rewrite (Hl Hs). reflexivity.
Qed.

Lemma book_exec_run ev w : in_step w.1 → ∃ w', exec collates_after ev w = (Ok (), w') ∧ in_step w'.1 ∧ stale (page w'.1) = false.
Proof.
  intros H. destruct (handle_fine ev w H) as ([] & w1 & E & H1). unfold exec. rewrite (run_Ok _ _ _ _ _ E).
  destruct (book_render_run w1 H1) as (w2 & -> & H2 & Hs & _). eauto.
Qed.

(** *** What the list is, without the page's comparator *)

(** The contacts that the page selects: a search replaces both filters. *)
Definition selected (p : BookPage) (c : Contact) : bool :=
  if str_eqb (searchTerm p) "" then
    (if showFavoritesOnly p then favorite c else true) &&
    match selectedTag p with Some t => if str_eqb t "" then true else bool_decide (t ∈ tags c) | None => true end
  else
    js_some (λ text, includes (toLowerCase (searchTerm p)) (toLowerCase text))
      (name c :: address c :: option_list (label c) ++ tags c ++ option_list (notes c)).

Lemma selected_shown p c : (if str_eqb (searchTerm p) "" then kept p else matches (toLowerCase (searchTerm p))) c = selected p c.
Proof.
  unfold selected. destruct (str_eqb (searchTerm p) "").
  - unfold kept. destruct (showFavoritesOnly p), (selectedTag p) as [t|]; cbn; rewrite ?andb_true_r; try done; destruct (str_eqb t ""); cbn; by rewrite ?js_some_str_eqb.
  - unfold matches, opt_has, field_has, js_some. cbn [existsb]. rewrite !existsb_app. destruct (label c), (notes c); cbn; btauto.
Qed.

Abbreviation by_names := (λ a b, collates_after (name a) (name b) = false).

(** A collation orders all texts. *)
Record collation : Prop := {
  collation_asym : ∀ a b, collates_after a b = true → collates_after b a = false;
  collation_trans : ∀ a b c, collates_after a b = false → collates_after b c = false → collates_after a c = false;
}.

Lemma after_sorted l : collation → StronglySorted (λ a b, after collates_after a b = false) (js_sort (after collates_after) l).
Proof.
  intros [Ha Ht]. apply (js_sort_sorted _ (λ _, True)); [| |by apply Forall_true].
  - intros x y _ _. unfold after. destruct (favorite x), (favorite y); cbn; auto; done.
  - intros x y z _ _ _. unfold after. destruct (favorite x), (favorite y), (favorite z); cbn; try done; apply Ht.
Qed.

(** A list in that order is the favourites and then the others, each by name. *)
Lemma favourites_split l : StronglySorted (λ a b, after collates_after a b = false) l →
  ∃ favs rest, l = favs ++ rest ∧ Forall (λ c, favorite c = true) favs ∧ Forall (λ c, favorite c = false) rest ∧
    StronglySorted by_names favs ∧ StronglySorted by_names rest.
Proof.
  assert (∀ c l, Forall (λ b, after collates_after c b = false) l → Forall (λ b, favorite b = favorite c) l → Forall (λ b, by_names c b) l) as Hn.
  { intros c l0 H1 H2. rewrite Forall_forall in *. intros b Hb. specialize (H1 b Hb). unfold after in H1.
    rewrite (H2 b Hb) in H1. by destruct (favorite c). }
  induction 1 as [|c l _ (favs & rest & -> & Hf & Hr & Sf & Sr) Hc]; [exists [], []; by repeat constructor|].
  apply Forall_app in Hc as [Hcf Hcr]. destruct (favorite c) eqn:Ec.
  - exists (c :: favs), rest. split_and!; [done|by constructor|done| |done]. constructor; [done|]. apply Hn; [done|]. by rewrite Ec.
  - destruct favs as [|b favs].
    + exists [], (c :: rest). split_and!; [done|constructor|by constructor|constructor|]. constructor; [done|]. apply Hn; [done|]. by rewrite Ec.
    + inversion Hcf as [|?? Hb _]; inversion Hf as [|?? Eb _]; subst. unfold after in Hb. by rewrite Ec, Eb in Hb.
Qed.

(** C28: After every event the page has all contacts of the book and lists the selected ones: those that its filters keep
    or, when something is searched for, those with a text that contains it, whatever the filters; first the favourites,
    then the others, each by name in the host's collation, which orders all texts: whatever was added, edited, deleted or
    refused. *)
Theorem page_shows_book evs p s e : collation →
  let w := (mount collates_after;; js_forEach (exec collates_after) evs) (MkWorld p s, e) in
  let q := page w.2.1 in
  w.1 = Ok () ∧ shown_contacts q = map_values (contacts (services w.2.1)) ∧
  filteredContacts q ≡ₚ js_filter (selected q) (map_values (contacts (services w.2.1))) ∧
  ∃ favs rest, filteredContacts q = favs ++ rest ∧ Forall (λ c, favorite c = true) favs ∧ Forall (λ c, favorite c = false) rest ∧
    StronglySorted (λ a b, collates_after (name a) (name b) = false) favs ∧ StronglySorted (λ a b, collates_after (name a) (name b) = false) rest.
Proof.
  intros Hcol. assert (∀ w0, in_step w0.1 → stale (page w0.1) = false → ∃ w1, js_forEach (exec collates_after) evs w0 = (Ok (), w1) ∧ in_step w1.1 ∧ stale (page w1.1) = false) as H.
  { induction evs as [|ev evs IH]; intros w0 H0 Hs; cbn [js_forEach]; [by exists w0|].
    destruct (book_exec_run ev w0 H0) as (w1 & E & H1 & Hs1). rewrite (run_Ok _ _ _ _ _ E). by apply IH. }
  cbv zeta. unfold mount. rewrite run_bind. destruct (load_step (MkWorld p s, e)) as ([] & w1 & E & H1). rewrite (run_Ok _ _ _ _ _ E).
  destruct (book_render_run w1 H1) as (w2 & E2 & H2 & Hs2 & _). rewrite (run_Ok _ _ _ _ _ E2).
  destruct (H w2 H2 Hs2) as (w3 & -> & H3 & Hs3). cbn [fst snd]. split; [done|]. split; [apply H3|]. rewrite (step_list _ H3 Hs3). unfold shown. split.
  - rewrite js_sort_perm. by rewrite (filter_same _ _ _ (selected_shown (page w3.1))).
  - by apply favourites_split, after_sorted.
Qed.
End Theorems.

(** ** Examples *)

Definition by_name (a b : string) : bool := str_gtb a b.
Definition demo_page : W := MkWorld blank (MkBook [("1", demo_contact "1" "kc1a"); ("2", demo_contact "2" "kc1b")] None).
Definition run (evs : list event) : BookPage := page (((mount by_name;; js_forEach (exec by_name) evs) (demo_page, demo_env)).2.1).

(** A search shows contacts that the filter for favourites hides, and hides nothing for the tag. *)
Example search_drops_filters :
  (length (filteredContacts (run [FavoritesOnly true])), length (filteredContacts (run [FavoritesOnly true; Search "kc1"]))) = (0%nat, 2%nat).
Proof. vm_compute. reflexivity. Qed.

(** The fields are trimmed to be checked and not to be stored: an address with a blank before it is another one. *)
Example blank_makes_another_address :
  let p := run [Type_ (MkForm "Ann" " kc1a" "" "" ""); Add] in
  (success p, address <$> filteredContacts p) = (Some "Contact added successfully", [" kc1a"; "kc1a"; "kc1b"]).
Proof. vm_compute. reflexivity. Qed.

Lemma page_shows_book_witness :
  let q := run [Type_ (MkForm "Ann" "kc1c" "" "" ""); Add; ToggleFavorite "2"] in
  address <$> shown_contacts q = ["kc1a"; "kc1b"; "kc1c"] ∧ ∃ favs rest, filteredContacts q = favs ++ rest ∧ Forall (λ c, favorite c = true) favs ∧
    Forall (λ c, favorite c = false) rest.
Proof.
  assert (collation by_name) as Hc by (split; [apply str_gtb_asym|apply str_gtb_trans]). intros q. split; [vm_compute; reflexivity|].
  destruct (page_shows_book by_name [Type_ (MkForm "Ann" "kc1c" "" "" ""); Add; ToggleFavorite "2"] (page demo_page) (services demo_page) demo_env Hc)
    as (_ & _ & _ & favs & rest & E & Hf & Hr & _). exists favs, rest. by split_and!.
Defined.

(** Known addresses are refused with a message, and the list stays. *)
Example known_address_refused :
  let p := run [Type_ (MkForm "Ann" "kc1a" "" "" ""); Add] in
  (error p, length (filteredContacts p)) = (Some "This address is already in your address book", 2%nat).
Proof. vm_compute. reflexivity. Qed.
