(* ===== verification/ContactManager.v ===== *)
(** * [ContactManager] (apps/web/wallet/src/services/contactManager.ts)

    Contacts and contact groups kept only in [localStorage]: every operation parses
    the stored arrays and writes them back. Statistics come from the active wallet
    of [WalletService], whose state is a field here. Dates are milliseconds. *)

From Stdlib Require Import Ascii String.
From S2P Require Import Prelude JsMap JsNumber JsString Wallet.
Record Contact := MkContact {
  c_id : string;
  c_name : string;
  c_address : string;
  email : option string;
  phone : option string;
  notes : option string;
  tags : option (list string);
  groupIds : option (list string);
  isFavorite : option bool;
  c_createdAt : Z;
  lastTransactionAt : option Z;
}.

Record ContactGroup := MkGroup {
  g_id : string;
  g_name : string;
  description : option string;
  color : string;
  g_createdAt : Z;
}.

Record TransactionStats := MkStats { totalSent : num; totalReceived : num; transactionCount : nat }.

Record ContactManager := MkManager {
  ls_contacts : cell (list Contact);
  ls_groups : cell (list ContactGroup);
  wallet : WalletService;
}.

Definition set_ls_contacts c s := MkManager c (ls_groups s) (wallet s).
Definition set_ls_groups c s := MkManager (ls_contacts s) c (wallet s).
Definition set_wallet w s := MkManager (ls_contacts s) (ls_groups s) w.

Abbreviation M := (js (ContactManager * Env)).

(** An operation of the wallet service, run on its state. *)
Definition in_wallet {A} (m : js (WalletService * Env) A) : M A := λ w,
  let '(r, (ws, e)) := m (wallet w.1, w.2) in (r, (set_wallet ws w.1, e)).

Definition getAllContacts : M (list Contact) :=
  s ← this;
  match truthy_cell (ls_contacts s) with
  | None => mret []
  | Some t => JSON_parse t
  end.

Definition getAllGroups : M (list ContactGroup) :=
  s ← this;
  match truthy_cell (ls_groups s) with
  | None => mret []
  | Some t => JSON_parse t
  end.

Definition saveContacts (l : list Contact) : M () := ls_setItem (set_ls_contacts (Some (TJson l))).
Definition saveGroups (l : list ContactGroup) : M () := ls_setItem (set_ls_groups (Some (TJson l))).

Definition random_id (prefix : string) : M string :=
  t ← date_now;
  r ← random36;
  mret (prefix +:+ pretty t +:+ "_" +:+ r).

(** A contact without its identifier and creation date. *)
Record ContactData := MkData {
  d_name : string;
  d_address : string;
  d_email : option string;
  d_phone : option string;
  d_notes : option string;
  d_tags : option (list string);
  d_groupIds : option (list string);
  d_isFavorite : option bool;
  d_lastTransactionAt : option Z;
}.

Definition addContact (d : ContactData) : M Contact :=
  if str_eqb (trim (d_name d)) "" then js_throw "Contact name is required"
  else if negb (startsWith "KC" (d_address d)) then js_throw "Valid Kubercoin address is required"
  else
    contacts ← getAllContacts;
    if js_some (λ c, str_eqb (c_address c) (d_address d)) contacts then
      js_throw "Contact with this address already exists"
    else
      newId ← random_id "contact_";
      now ← date_now;
      let contact := MkContact newId (d_name d) (d_address d) (d_email d) (d_phone d) (d_notes d)
        (d_tags d) (d_groupIds d) (d_isFavorite d) now (d_lastTransactionAt d) in
      saveContacts (contacts ++ [contact]);;
      mret contact.

(** Each field of a partial update: absent, or a new value. *)
Record Updates := MkUpdates {
  u_name : option string;
  u_address : option string;
  u_email : option (option string);
  u_phone : option (option string);
  u_notes : option (option string);
  u_tags : option (option (list string));
  u_groupIds : option (option (list string));
  u_isFavorite : option (option bool);
  u_lastTransactionAt : option (option Z);
}.

Definition apply_updates (u : Updates) (c : Contact) : Contact :=
  MkContact (c_id c) (default (c_name c) (u_name u)) (default (c_address c) (u_address u))
    (default (email c) (u_email u)) (default (phone c) (u_phone u)) (default (notes c) (u_notes u))
    (default (tags c) (u_tags u)) (default (groupIds c) (u_groupIds u))
    (default (isFavorite c) (u_isFavorite u)) (c_createdAt c)
    (default (lastTransactionAt c) (u_lastTransactionAt u)).

Definition has_id (cid : string) (c : Contact) : bool := str_eqb (c_id c) cid.

(** Is the address new, and used by a contact with another identifier? *)
Definition address_taken (cid : string) (u : Updates) (contact : Contact) (l : list Contact) : bool :=
  match u_address u with
  | Some a =>
      negb (str_eqb a "") && negb (str_eqb a (c_address contact))
      && js_some (λ c, negb (has_id cid c) && str_eqb (c_address c) a) l
  | None => false
  end.

Definition updateContact (cid : string) (u : Updates) : M Contact :=
  contacts ← getAllContacts;
  match js_find (has_id cid) contacts with
  | None => js_throw "Contact not found"
  | Some contact =>
      if address_taken cid u contact contacts then
        js_throw "Contact with this address already exists"
      else
        saveContacts (update_first (has_id cid) (apply_updates u) contacts);;
        mret (apply_updates u contact)
  end.

Definition deleteContact (cid : string) : M bool :=
  contacts ← getAllContacts;
  let filtered := js_filter (λ c, negb (has_id cid c)) contacts in
  if Nat.eqb (length filtered) (length contacts) then mret false
  else saveContacts filtered;; mret true.

Definition getContactByAddress (addr : string) : M (option Contact) :=
  contacts ← getAllContacts; mret (js_find (λ c, str_eqb (c_address c) addr) contacts).

Definition field_has (q s : string) : bool := includes q (toLowerCase s).

Definition matches (q : string) (c : Contact) : bool :=
  field_has q (c_name c) || field_has q (c_address c) || field_has q (default "" (email c))
  || js_some (field_has q) (default [] (tags c)) || field_has q (default "" (notes c)).

Definition searchContacts (query : string) : M (list Contact) :=
  contacts ← getAllContacts; mret (js_filter (matches (toLowerCase query)) contacts).

Definition getContactsByTag (tag : string) : M (list Contact) :=
  contacts ← getAllContacts; mret (js_filter (λ c, js_some (str_eqb tag) (default [] (tags c))) contacts).

Definition in_group (gid : string) (c : Contact) : bool := js_some (str_eqb gid) (default [] (groupIds c)).

Definition getContactsByGroup (gid : string) : M (list Contact) :=
  contacts ← getAllContacts; mret (js_filter (in_group gid) contacts).

Definition getFavoriteContacts : M (list Contact) :=
  contacts ← getAllContacts; mret (js_filter (λ c, default false (isFavorite c)) contacts).

(** ** Groups *)

Definition createGroup (name : string) (desc : option string) (col : string) : M ContactGroup :=
  if str_eqb (trim name) "" then js_throw "Group name is required"
  else
    groups ← getAllGroups;
    if js_some (λ g, str_eqb (g_name g) name) groups then
      js_throw "Group with this name already exists"
    else
      newId ← random_id "group_";
      now ← date_now;
      let group := MkGroup newId name desc col now in
      saveGroups (groups ++ [group]);;
      mret group.

Definition has_gid (gid : string) (g : ContactGroup) : bool := str_eqb (g_id g) gid.

Definition updateGroup (gid : string) (name : option string) (desc : option (option string))
    (col : option string) : M ContactGroup :=
  groups ← getAllGroups;
  let f g := MkGroup (g_id g) (default (g_name g) name) (default (description g) desc)
               (default (color g) col) (g_createdAt g) in
  match js_find (has_gid gid) groups with
  | None => js_throw "Group not found"
  | Some group => saveGroups (update_first (has_gid gid) f groups);; mret (f group)
  end.

Definition without_group (gid : string) (c : Contact) : Contact :=
  if in_group gid c then
    MkContact (c_id c) (c_name c) (c_address c) (email c) (phone c) (notes c) (tags c)
      (js_filter (λ g, negb (str_eqb g gid)) <$> groupIds c) (isFavorite c) (c_createdAt c)
      (lastTransactionAt c)
  else c.

Definition deleteGroup (gid : string) : M bool :=
  groups ← getAllGroups;
  let filtered := js_filter (λ g, negb (has_gid gid g)) groups in
  if Nat.eqb (length filtered) (length groups) then mret false
  else
    contacts ← getAllContacts;
    saveContacts (without_group gid <$> contacts);;
    saveGroups filtered;;
    mret true.

(** ** Statistics *)

Definition no_stats : TransactionStats := MkStats nzero nzero 0.

Definition party_is (addr : string) (p : option string * option num) : bool :=
  bool_decide (p.1 = Some addr).

Definition parties (o : option (list (option string * option num))) := default [] o.

(** The amount of a party, NaN when missing. *)
Definition amount_of (p : option string * option num) : num := default S754_nan p.2.

Definition amount_with (addr : string) (l : list (option string * option num)) : num :=
  sum_by amount_of (js_filter (party_is addr) l).

Definition involves (addr : string) (tx : WalletTransactionRecord) : bool :=
  js_some (party_is addr) (parties (rec_outputs tx)) || js_some (party_is addr) (parties (rec_inputs tx)).

Definition stats_of (addr : string) (txs : list WalletTransactionRecord) : TransactionStats :=
  let contactTxs := js_filter (involves addr) txs in
  MkStats (sum_by (λ tx, amount_with addr (parties (rec_outputs tx))) contactTxs)
    (sum_by (λ tx, amount_with addr (parties (rec_inputs tx))) contactTxs)
    (length contactTxs).

Section Node.
Context (api : Api).

Definition getContactTransactionStats (addr : string) : M TransactionStats :=
  js_try (
    w ← in_wallet getActiveWallet;
    match w with
    | None => mret no_stats
    | Some w =>
        allTxs ← in_wallet (getTransactionHistory api (address w) 50);
        mret (stats_of addr allTxs)
    end) (λ _, mret no_stats).

(** [l.slice(0, limit)] for [limit >= 0]. *)
Definition first {A} (limit : Z) (l : list A) : list A := take (Z.to_nat limit) l.

Definition getRecentContacts (limit : Z) : M (list Contact) :=
  contacts ← getAllContacts;
  let dated := js_filter (λ c, bool_decide (is_Some (lastTransactionAt c))) contacts in
  mret (first limit (js_sort (λ a b,
    default 0 (lastTransactionAt a) <? default 0 (lastTransactionAt b)) dated)).

Definition volume (cs : Contact * TransactionStats) : num := nadd (totalSent cs.2) (totalReceived cs.2).

Definition getTopContacts (limit : Z) : M (list (Contact * TransactionStats)) :=
  contacts ← getAllContacts;
  stats ← js_mapM (λ c, getContactTransactionStats (c_address c)) contacts;
  mret (first limit (js_sort (λ a b, SFltb nzero (nsub (volume b) (volume a))) (zip contacts stats))).
End Node.

Definition getAllTags : M (list string) :=
  contacts ← getAllContacts;
  mret (sort_strings (set_of (concat ((λ c, default [] (tags c)) <$> contacts)))).

(** ** CSV *)

Definition quote : ascii := ascii_of_nat 34.
Definition newline : string := String (ascii_of_nat 10) "".

Definition csv_cell (s : string) : string := String quote (s +:+ String quote "").

Definition csv_row (c : Contact) : string :=
  join "," (csv_cell <$> [c_name c; c_address c; default "" (email c); default "" (phone c);
    default "" (notes c); join ";" (default [] (tags c));
    if default false (isFavorite c) then "true" else "false"]).

Definition exportToCSV : M string :=
  contacts ← getAllContacts;
  mret (join newline ("name,address,email,phone,notes,tags,favorite" :: (csv_row <$> contacts))).

(** The lookahead [(?=\s*,|\s*$)]. *)
Definition at_cell_end (s : string) : bool :=
  match trimStart s with EmptyString => true | String c _ => Ascii.eqb c "," end.

(** [.*?] followed by a quote where a cell can end, after an opening quote. *)
Fixpoint match_quoted (s : string) : option (string * string) :=
  match s with
  | EmptyString => None
  | String c s' =>
      if Ascii.eqb c quote && at_cell_end s' then Some (String c "", s')
      else if (char_code c =? 10) || (char_code c =? 13) then None
      else (λ p, (String c p.1, p.2)) <$> match_quoted s'
  end.

(** The longest run without quotes and commas that stops where a cell can end. *)
Fixpoint match_plain (s : string) : option (string * string) :=
  match s with
  | EmptyString => None
  | String c s' =>
      if Ascii.eqb c quote || Ascii.eqb c "," then None
      else match match_plain s' with
           | Some (p, r) => Some (String c p, r)
           | None => if at_cell_end s' then Some (String c "", s') else None
           end
  end.

Definition match_cell (s : string) : option (string * string) :=
  match s with
  | String c s' =>
      if Ascii.eqb c quote then (λ p, (String c p.1, p.2)) <$> match_quoted s' else match_plain s
  | EmptyString => None
  end.

(** The global match of a quoted or plain cell followed by the lookahead; a match is
    not empty, so the length of the line is enough fuel. *)
Fixpoint match_cells (fuel : nat) (s : string) : list string :=
  match fuel, s with
  | S n, String c s' =>
      match match_cell s with
      | Some (p, r) => p :: match_cells n r
      | None => match_cells n s'
      end
  | _, _ => []
  end.

(** Removing a leading and a trailing quote. *)
Definition strip_last_quote (s : string) : string :=
  match rev (list_ascii_of_string s) with
  | c :: r => if Ascii.eqb c quote then string_of_list_ascii (rev r) else s
  | [] => s
  end.
Definition strip_quotes (s : string) : string :=
  strip_last_quote match s with
                   | String c s' => if Ascii.eqb c quote then s' else s
                   | EmptyString => s
                   end.

Definition nonempty (o : option string) : option string :=
  match o with Some s => if str_eqb s "" then None else Some s | None => None end.

(** One line of an import; [Some true] when a contact was added or updated. *)
Definition import_line (line : string) : M bool :=
  let cells := match_cells (String.length line) line in
  if Nat.ltb (length cells) 2 then mret false
  else
    let values := (λ v, trim (strip_quotes v)) <$> cells in
    let value n := nonempty (values !! n) in
    match value 0%nat, value 1%nat with
    | Some name, Some addr =>
        let tgs := (λ t, js_filter (λ x, negb (str_eqb x "")) (split_on ";" t)) <$> value 5%nat in
        let fav := bool_decide (values !! 6%nat = Some "true") in
        existing ← getContactByAddress addr;
        match existing with
        | Some c =>
            updateContact (c_id c) (MkUpdates (Some name) (Some addr) (Some (value 2%nat))
              (Some (value 3%nat)) (Some (value 4%nat)) (Some tgs) None (Some (Some fav)) None);;
            mret true
        | None =>
            addContact (MkData name addr (value 2%nat) (value 3%nat) (value 4%nat) tgs None
              (Some fav) None);;
            mret true
        end
    | _, _ => mret false
    end.

Definition importFromCSV (csv : string) : M nat :=
  let lines := js_filter (λ l, negb (str_eqb (trim l) "")) (split_on (ascii_of_nat 10) csv) in
  if Nat.ltb (length lines) 2 then js_throw "Invalid CSV format"
  else
    done ← js_mapM (λ l, js_try (import_line l) (λ _, mret false)) (drop 1 lines);
    mret (length (js_filter id done)).

(** * Theorems *)

(** The contacts and groups in storage. *)
Definition stored_contacts (s : ContactManager) : list Contact :=
  match ls_contacts s with Some (TJson l) => l | _ => [] end.
Definition stored_groups (s : ContactManager) : list ContactGroup :=
  match ls_groups s with Some (TJson l) => l | _ => [] end.

Record contacts_ok (l : list Contact) : Prop := {
  co_ids : NoDup (c_id <$> l);
  co_addresses : NoDup (c_address <$> l);
}.

Definition cm_inv (s : ContactManager) : Prop := contacts_ok (stored_contacts s).

(** Reading the contacts either throws or returns the stored list. *)
Lemma getAllContacts_cases s e :
  getAllContacts (s, e) = (Ok (stored_contacts s), (s, e)) ∨
  ∃ msg, getAllContacts (s, e) = (Throw msg, (s, e)).
Proof.
  unfold getAllContacts, stored_contacts. js_run. destruct (ls_contacts s) as [[l|raw]|]; cbn [truthy_cell].
  - by left.
  - case_bool_decide; [by left|right; by eexists].
  - by left.
Qed.

Lemma getAllGroups_cases s e :
  getAllGroups (s, e) = (Ok (stored_groups s), (s, e)) ∨
  ∃ msg, getAllGroups (s, e) = (Throw msg, (s, e)).
Proof.
  unfold getAllGroups, stored_groups. js_run. destruct (ls_groups s) as [[l|raw]|]; cbn [truthy_cell].
  - by left.
  - case_bool_decide; [by left|right; by eexists].
  - by left.
Qed.

Lemma preserves_contacts (I : ContactManager → Prop) {A} (k : list Contact → M A) :
  (∀ s e, I s → I (k (stored_contacts s) (s, e)).2.1) → preserves I (getAllContacts ≫= k).
Proof.
  intros Hk [s e] Hs. destruct (getAllContacts_cases s e) as [E|[msg E]].
  - rewrite (run_Ok _ _ _ _ _ E). by apply Hk.
  - by rewrite (run_Throw _ _ _ _ _ E).
Qed.

Lemma preserves_groups (I : ContactManager → Prop) {A} (k : list ContactGroup → M A) :
  (∀ s e, I s → I (k (stored_groups s) (s, e)).2.1) → preserves I (getAllGroups ≫= k).
Proof.
  intros Hk [s e] Hs. destruct (getAllGroups_cases s e) as [E|[msg E]].
  - rewrite (run_Ok _ _ _ _ _ E). by apply Hk.
  - by rewrite (run_Throw _ _ _ _ _ E).
Qed.

Lemma cm_saveContacts l : contacts_ok l → preserves cm_inv (saveContacts l).
Proof. intros Hl. by apply preserves_setItem. Qed.
Lemma cm_saveGroups l : preserves cm_inv (saveGroups l).
Proof. by apply preserves_setItem. Qed.

(** ** The lists the operations write *)

Lemma some_address_false a l :
  js_some (λ c, str_eqb (c_address c) a) l = false ↔ a ∉ (c_address <$> l).
Proof.
  rewrite js_some_false. split.
  - intros H (c & -> & Hc)%list_elem_of_fmap. specialize (H c Hc). cbv beta in H. by rewrite str_eqb_refl in H.
  - intros H c Hc. apply str_eqb_false. intros <-. apply H. by apply list_elem_of_fmap_2.
Qed.

Lemma NoDup_snoc {A} (l : list A) x : NoDup l → x ∉ l → NoDup (l ++ [x]).
Proof.
  intros Hl Hx. apply NoDup_app. split_and!; [done| |apply NoDup_singleton].
  by intros y Hy ->%list_elem_of_singleton.
Qed.

Lemma ok_append l c : contacts_ok l → c_id c ∉ (c_id <$> l) → c_address c ∉ (c_address <$> l) →
  contacts_ok (l ++ [c]).
Proof. intros [H1 H2] Hi Ha. constructor; rewrite fmap_app; by apply NoDup_snoc. Qed.

Lemma ok_filter p l : contacts_ok l → contacts_ok (js_filter p l).
Proof.
  intros [H1 H2]. constructor; (eapply sublist_NoDup; [|apply fmap_sublist, js_filter_sublist]; done).
Qed.

Lemma ok_fmap f l : (∀ c, c_id (f c) = c_id c) → (∀ c, c_address (f c) = c_address c) →
  contacts_ok l → contacts_ok (f <$> l).
Proof.
  intros Hi Ha [H1 H2]. constructor; rewrite <- list_fmap_compose.
  - by rewrite (list_fmap_ext (c_id ∘ f) c_id) by (intros; apply Hi).
  - by rewrite (list_fmap_ext (c_address ∘ f) c_address) by (intros; apply Ha).
Qed.

Lemma update_addresses cid u l c : NoDup (c_id <$> l) → NoDup (c_address <$> l) →
  js_find (has_id cid) l = Some c →
  (c_address (apply_updates u c) = c_address c ∨
   ∀ c', c' ∈ l → c_id c' ≠ cid → c_address c' ≠ c_address (apply_updates u c)) →
  NoDup (c_address <$> update_first (has_id cid) (apply_updates u) l).
Proof.
  induction l as [|c0 l IH]; simpl; [done|]. intros Hi Ha Hf Hu.
  change (has_id cid c0) with (str_eqb (c_id c0) cid) in *.
  apply NoDup_cons in Hi as [Hi0 Hi]. apply NoDup_cons in Ha as [Ha0 Ha].
  destruct (str_eqb (c_id c0) cid) eqn:E; csimpl.
  - injection Hf as <-. apply str_eqb_true in E. apply NoDup_cons. split; [|done].
    intros (c' & Hc' & Hin)%list_elem_of_fmap. destruct Hu as [Hu|Hu].
    + apply Ha0. rewrite <- Hu, Hc'. by apply list_elem_of_fmap_2.
    + apply (Hu c'); [by right| |done]. intros E'. apply Hi0. rewrite E, <- E'. by apply list_elem_of_fmap_2.
  - apply NoDup_cons. split; [|apply IH; [done..|]; destruct Hu as [Hu|Hu]; [by left|right; intros; apply Hu; [by right|done]]].
    intros (c' & Hc' & Hin)%list_elem_of_fmap.
    assert (c' = apply_updates u c ∨ c' ∈ l) as [->|Hin'].
    { clear -Hf Hin. induction l as [|c1 l IH]; simpl in *; [done|]. destruct (has_id cid c1).
      - simplify_eq. apply elem_of_cons in Hin as [->|]; [by left|right; by right].
      - apply elem_of_cons in Hin as [->|Hin]; [right; by left|]. destruct (IH Hf Hin); [by left|right; by right]. }
    + apply js_find_Some in Hf as [Hc Hcid]. destruct Hu as [Hu|Hu].
      * apply Ha0. assert (c_address c0 = c_address c) as -> by (rewrite Hc'; exact Hu).
        by apply list_elem_of_fmap_2.
      * apply (Hu c0); [by left| |done]. by apply str_eqb_false.
    + apply Ha0. rewrite Hc'. by apply list_elem_of_fmap_2.
Qed.

Lemma ok_update cid u l c : contacts_ok l → js_find (has_id cid) l = Some c →
  address_taken cid u c l = false → (u_address u ≠ Some "") →
  contacts_ok (update_first (has_id cid) (apply_updates u) l).
Proof.
  intros [H1 H2] Hf Ht Hne. constructor; [by rewrite map_update_first|].
  apply (update_addresses cid u l c); [done..|]. unfold address_taken in Ht. simpl.
  destruct (u_address u) as [a|]; [|by left]. simpl.
  destruct (str_eqb a "") eqn:E1; [apply str_eqb_true in E1; by subst|].
  destruct (str_eqb a (c_address c)) eqn:E2; [apply str_eqb_true in E2; by left|]. right.
  cbn in Ht. rewrite js_some_false in Ht. intros c' Hc' Hid. specialize (Ht c' Hc'). cbv beta in Ht.
  unfold has_id in Ht. apply str_eqb_false in Hid. rewrite Hid in Ht. cbn in Ht. by apply str_eqb_false.
Qed.

(** ** Operations as steps *)

Inductive operation :=
  | OpAdd (d : ContactData)
  | OpUpdate (cid : string) (u : Updates)
  | OpDelete (cid : string)
  | OpCreateGroup (name : string) (desc : option string) (col : string)
  | OpUpdateGroup (gid : string) (name : option string) (desc : option (option string)) (col : option string)
  | OpDeleteGroup (gid : string).

Definition exec (o : operation) : M () :=
  match o with
  | OpAdd d => addContact d;; mret ()
  | OpUpdate i u => updateContact i u;; mret ()
  | OpDelete i => deleteContact i;; mret ()
  | OpCreateGroup n d c => createGroup n d c;; mret ()
  | OpUpdateGroup g n d c => updateGroup g n d c;; mret ()
  | OpDeleteGroup g => deleteGroup g;; mret ()
  end.

(** The identifier the next contact gets: time and random suffix. *)
Definition next_id (e : Env) : string :=
  "contact_" +:+ pretty (reading e 0) +:+ "_" +:+ entropy e (draws e).

(** A step; the random identifier of a new contact is not one in use, and an
    address is not updated to the empty text. *)
Inductive step : ContactManager * Env → ContactManager * Env → Prop :=
  | step_op o w :
      match o with
      | OpAdd _ => next_id w.2 ∉ (c_id <$> stored_contacts w.1)
      | OpUpdate _ u => u_address u ≠ Some ""
      | _ => True
      end → step w (exec o w).2.

#[local] Hint Resolve cm_saveGroups : js.

Lemma cm_addContact d s e : cm_inv s → next_id e ∉ (c_id <$> stored_contacts s) →
  cm_inv (addContact d (s, e)).2.1.
Proof.
  intros Hs Hid. unfold addContact. destruct (str_eqb _ ""); [done|]. destruct (negb _); [done|].
  destruct (getAllContacts_cases s e) as [E|[msg E]];
    [rewrite (run_Ok _ _ _ _ _ E)|by rewrite (run_Throw _ _ _ _ _ E)].
  destruct (js_some _ _) eqn:Ha; [done|]. unfold random_id. js_run.
  apply some_address_false in Ha. unfold next_id, reading in Hid. rewrite Nat.add_0_r in Hid.
  match goal with |- cm_inv ((saveContacts ?l ≫= ?k) ?w).2.1 =>
    apply (preserves_bind cm_inv (saveContacts l) k) end; [|intros; js_preserve|done].
  apply cm_saveContacts. by apply ok_append.
Qed.

Lemma cm_exec o : match o with OpAdd _ => False | OpUpdate _ u => u_address u ≠ Some "" | _ => True end →
  preserves cm_inv (exec o).
Proof.
  intros Ho. destruct o; unfold exec; [done| | | | |].
  - apply preserves_bind; [|intros; js_preserve]. apply preserves_contacts. intros s e Hs.
    destruct (js_find _ _) as [c|] eqn:Hf; [|done]. destruct (address_taken _ _ _ _) eqn:Ht; [done|].
    match goal with |- cm_inv (?m (s, e)).2.1 => enough (preserves cm_inv m) as Hm by (by apply (Hm (s, e))) end.
    apply preserves_bind; [|intros; js_preserve]. apply cm_saveContacts. by apply (ok_update _ _ _ c).
  - apply preserves_bind; [|intros; js_preserve]. apply preserves_contacts. intros s e Hs.
    cbv zeta. destruct (Nat.eqb _ _); [done|].
    match goal with |- cm_inv (?m (s, e)).2.1 => enough (preserves cm_inv m) as Hm by (by apply (Hm (s, e))) end.
    apply preserves_bind; [|intros; js_preserve]. by apply cm_saveContacts, ok_filter.
  - unfold createGroup, random_id, getAllGroups. js_preserve.
  - unfold updateGroup, getAllGroups. js_preserve.
  - apply preserves_bind; [|intros; js_preserve]. unfold deleteGroup. apply preserves_groups. intros s e Hs.
    cbv zeta. destruct (Nat.eqb _ _); [done|]. revert s e Hs. 
    enough (∀ l, preserves cm_inv (contacts ← getAllContacts; saveContacts (without_group gid <$> contacts);;
      saveGroups l;; mret true)) as H by (intros s e Hs; by apply (H _ (s, e))).
    intros l. apply preserves_contacts. intros s e Hs.
    match goal with |- cm_inv (?m (s, e)).2.1 => enough (preserves cm_inv m) as Hm by (by apply (Hm (s, e))) end.
    apply preserves_bind; [|intros; js_preserve]. apply cm_saveContacts, ok_fmap; [| |done];
      intros c; unfold without_group; by destruct (in_group gid c).
Qed.

(** as long as random identifiers are not repeated and no address is set to the
    empty text, every sequence of contact and group operations keeps the stored
    contacts with pairwise different identifiers and addresses: [addContact] and
    [updateContact] both refuse an address that another contact has. *)
Theorem contacts_stay_distinct w0 w
    (H0 : contacts_ok (stored_contacts w0.1)) (Hreach : rtc step w0 w) :
  contacts_ok (stored_contacts w.1).
Proof.
  revert H0. induction Hreach as [|w1 w2 w3 [o w1' Ho] _ IH]; [done|]. intros H. apply IH.
  destruct w1' as [s e].
  destruct o as [d| | | | |];
    [|match goal with |- context [exec ?o] => exact (cm_exec o Ho (s, e) H) end..].
  unfold exec. pose proof (cm_addContact d s e H Ho) as Ha. unfold mbind, js_bind.
  by destruct (addContact d (s, e)) as [[] ?].
Qed.

Definition demo_data (name addr : string) : ContactData := MkData name addr None None None None None None None.
Definition demo_service : WalletService := Wallet.fresh None None.
Definition demo_manager : ContactManager := MkManager None None demo_service.

Lemma contacts_stay_distinct_witness :
  contacts_ok (stored_contacts (exec (OpAdd (demo_data "Bob" "KC2"))
    (exec (OpAdd (demo_data "Ann" "KC1")) (demo_manager, demo_env)).2).2.1).
Proof.
  apply (contacts_stay_distinct (demo_manager, demo_env)).
  - constructor; apply NoDup_nil_2.
  - eapply rtc_l; [apply (step_op (OpAdd (demo_data "Ann" "KC1"))); vm_compute; apply not_elem_of_nil|].
    apply rtc_once, (step_op (OpAdd (demo_data "Bob" "KC2"))).
    apply (bool_decide_eq_true_1 (_ ∉ _)). vm_compute. reflexivity.
Defined.

(** ** Deleting a group *)

Lemma in_group_without gid c : in_group gid (without_group gid c) = false.
Proof.
  unfold without_group. destruct (in_group gid c) eqn:E; [|done]. unfold in_group. simpl.
  destruct (groupIds c) as [l|]; [|done]. simpl. apply js_some_false. intros g Hg.
  apply elem_of_js_filter in Hg as [_ Hg]. apply negb_true_iff, str_eqb_false in Hg.
  by apply str_eqb_false.
Qed.

(** when [deleteGroup] returns true, the stored groups are those with another
    identifier, no stored contact refers to the group any more, and the contacts
    that did not refer to it are unchanged and in place. *)
Theorem deleteGroup_removes_references gid s e w'
    (H : deleteGroup gid (s, e) = (Ok true, w')) :
  stored_groups w'.1 = js_filter (λ g, negb (has_gid gid g)) (stored_groups s) ∧
  Forall (λ c, in_group gid c = false) (stored_contacts w'.1) ∧
  (∀ i c, stored_contacts s !! i = Some c → in_group gid c = false → stored_contacts w'.1 !! i = Some c) ∧
  length (stored_contacts w'.1) = length (stored_contacts s).
Proof.
  unfold deleteGroup in H. destruct (getAllGroups_cases s e) as [E|[msg E]];
    [rewrite (run_Ok _ _ _ _ _ E) in H|by rewrite (run_Throw _ _ _ _ _ E) in H].
  destruct (Nat.eqb _ _); [done|].
  destruct (getAllContacts_cases s e) as [E2|[msg E2]];
    [rewrite (run_Ok _ _ _ _ _ E2) in H|by rewrite (run_Throw _ _ _ _ _ E2) in H].
  unfold saveContacts, saveGroups in H. rewrite run_setItem in H. cbn [fst snd] in H.
  destruct (writable e) eqn:Hw; [|done]. rewrite run_setItem in H. cbn [fst snd] in H. rewrite Hw in H.
  apply run_ret_inv in H as [_ ->]. cbn. split_and!; [done| | |by rewrite length_fmap].
  - apply Forall_fmap, Forall_forall. intros c _. apply in_group_without.
  - intros i c Hi Hg. rewrite list_lookup_fmap, Hi. simpl. unfold without_group. by rewrite Hg.
Qed.

Definition demo_contact (i a : string) (gs : list string) : Contact :=
  MkContact i "name" a None None None None (Some gs) None 1 None.
Definition demo_groups : ContactManager :=
  MkManager (Some (TJson [demo_contact "1" "KC1" ["g"; "h"]; demo_contact "2" "KC2" ["h"]]))
    (Some (TJson [MkGroup "g" "Friends" None "#fff" 1; MkGroup "h" "Work" None "#000" 1])) demo_service.

Lemma deleteGroup_removes_references_witness :
  ∃ w', deleteGroup "g" (demo_groups, demo_env) = (Ok true, w') ∧
    Forall (λ c, in_group "g" c = false) (stored_contacts w'.1) ∧
    stored_contacts w'.1 !! 1%nat = Some (demo_contact "2" "KC2" ["h"]).
Proof.
  eexists. split; [vm_compute; reflexivity|].
  destruct (deleteGroup_removes_references "g" demo_groups demo_env _ ltac:(vm_compute; reflexivity))
    as (_ & H1 & H2 & _).
  split; [exact H1|]. exact (H2 1%nat (demo_contact "2" "KC2" ["h"]) eq_refl eq_refl).
Defined.

(** ** Statistics *)

Definition no_input_address (tx : WalletTransactionRecord) : Prop :=
  Forall (λ p : option string * option num, p.1 = None) (parties (rec_inputs tx)).

(** The history of the wallet service never names the address of an input. *)
Lemma txDetails_inputs api tx w d :
  (txDetails api tx w).1 = Ok d → ∀ ins outs, d = Some (ins, outs) →
  Forall (λ p : option string * option num, p.1 = None) ins.
Proof.
  unfold txDetails, js_try. destruct w as [s e]. js_run.
  destruct (getRawTransaction api _ _ _) as [[raw|vin vout]|]; intros [= <-] ins outs E; simplify_eq.
  apply Forall_fmap, Forall_forall. done.
Qed.

Lemma mapM_details api txs w ds :
  (js_mapM (txDetails api) txs w).1 = Ok ds →
  Forall (λ d, ∀ ins outs, d = Some (ins, outs) → Forall (λ p : option string * option num, p.1 = None) ins) ds.
Proof.
  revert w ds. induction txs as [|tx txs IH]; intros w ds; simpl; [by intros [= <-]|].
  unfold mbind, js_bind. destruct (txDetails api tx w) as [[d|] w1] eqn:Ed; [|done].
  destruct (js_mapM (txDetails api) txs w1) as [[ds'|] w2] eqn:E2; [|done]. intros [= <-]. constructor.
  - apply (txDetails_inputs api tx w). by rewrite Ed.
  - apply (IH w1). by rewrite E2.
Qed.

Lemma history_inputs api a n w txs :
  (getTransactionHistory api a n w).1 = Ok txs → Forall no_input_address txs.
Proof.
  unfold getTransactionHistory, rethrow, js_try, mbind, js_bind, rpc, mret, js_ret, js_throw.
  destruct (listTransactions api _ _ _ _ _) as [l|]; [|done].
  destruct (js_mapM (txDetails api) l _) as [[ds|] w2] eqn:E; [|done]. intros [= <-].
  match type of E with js_mapM _ _ ?w0 = _ => pose proof (mapM_details api l w0 ds) as Hd end.
  rewrite E in Hd. specialize (Hd eq_refl). clear E.
  revert ds Hd. induction l as [|tx l IH]; intros [|d ds] Hd; simpl; constructor;
    inversion Hd as [|?? Hd1 Hd2]; subst; [|by apply IH].
  unfold no_input_address, historyRecord, parties. simpl. destruct d as [[ins outs]|]; [|done].
  by apply (Hd1 ins outs).
Qed.

Lemma amount_with_none a l : Forall (λ p : option string * option num, p.1 = None) l → amount_with a l = nzero.
Proof.
  intros Hl. unfold amount_with. assert (js_filter (party_is a) l = []) as ->; [|done].
  induction Hl as [|p l Hp _ IH]; [done|]. unfold js_filter in *. simpl. unfold party_is at 1.
  by rewrite Hp.
Qed.

Lemma sum_zero {A} (f : A → num) l : Forall (λ x, f x = nzero) l → sum_by f l = nzero.
Proof.
  intros Hl. unfold sum_by. induction Hl as [|x l Hx _ IH]; [done|]. simpl. rewrite Hx.
  change (nadd nzero nzero) with nzero. exact IH.
Qed.

(** whatever the node replies, the total received from a contact is zero: the
    wallet's history records inputs without their addresses, so no input can match
    the contact. *)
Theorem received_total_is_zero api addr s e :
  match (getContactTransactionStats api addr (s, e)).1 with
  | Ok st => totalReceived st = nzero
  | Throw _ => False
  end.
Proof.
  unfold getContactTransactionStats, js_try, mbind, js_bind.
  destruct (in_wallet getActiveWallet (s, e)) as [[[w|]|] w1]; [|done..].
  destruct (in_wallet (getTransactionHistory api (address w) 50) w1) as [[txs|] w2] eqn:E; [|done].
  simpl. assert (Forall no_input_address txs) as Htxs.
  { unfold in_wallet in E.
    destruct (getTransactionHistory api (address w) 50 (wallet w1.1, w1.2)) as [r [ws e2]] eqn:E2.
    injection E as -> <-. apply (history_inputs api (address w) 50 (wallet w1.1, w1.2)). by rewrite E2. }
  apply sum_zero. apply Forall_forall. intros tx [Htx _]%elem_of_js_filter. apply amount_with_none.
  rewrite Forall_forall in Htxs. by apply Htxs.
Qed.
