(* ===== verification/Tax.v ===== *)
(** * [TaxCalculator] and [CapitalGains] (apps/web/wallet/src/services/taxCalculator.ts,
      apps/web/wallet/src/services/capitalGains.ts)

    Lots are matched with sales by FIFO, LIFO or HIFO; gains, holding periods and a
    tax estimate follow. Dates are milliseconds. Both services are without state:
    their methods are pure functions. The price that [priceService] reports is an
    argument of [optimizeTaxLoss]. *)

From S2P Require Import Prelude JsNumber JsString FloatFacts.
Inductive TaxMethod := FIFO | LIFO | HIFO | SpecificID.
Inductive TxType := buy | sell | mining | staking | airdrop | interest.

#[export] Instance TxType_eq_dec : EqDecision TxType.
Proof. solve_decision. Defined.

Record TaxTransaction := MkTax {
  id : string;
  date : Z;
  type : TxType;
  amount : num;
  price : num;
  costBasis : option num;
  proceeds : option num;
  gainLoss : option num;
  holdingPeriod : option num;
}.

Definition is_type (t : TxType) (tx : TaxTransaction) : bool := bool_decide (type tx = t).

Definition with_amount (a : num) (tx : TaxTransaction) : TaxTransaction :=
  MkTax (id tx) (date tx) (type tx) a (price tx) (costBasis tx) (proceeds tx) (gainLoss tx)
    (holdingPeriod tx).

(** ** Matching a sale with the inventory *)

(** Is the comparator of the method positive on [a], [b]? *)
Definition method_gt (m : TaxMethod) (a b : TaxTransaction) : bool :=
  match m with
  | FIFO | SpecificID => date b <? date a
  | LIFO => date a <? date b
  | HIFO => SFltb nzero (nsub (price b) (price a))
  end.

(** The lots are objects shared by the inventory and its sorted copy: each has a
    reference, its position when the routine starts. *)
Abbreviation lot := (nat * TaxTransaction)%type.

Definition set_lot (i : nat) (a : num) (inv : list lot) : list lot :=
  (λ p : lot, if Nat.eqb p.1 i then (p.1, with_amount a p.2) else p) <$> inv.
Definition remove_lot (i : nat) (inv : list lot) : list lot :=
  js_filter (λ p : lot, negb (Nat.eqb p.1 i)) inv.

(** The loop over the sorted lots, with the matched lots and the inventory left. *)
Fixpoint match_loop (sorted inv : list lot) (remaining : num) : list TaxTransaction * list lot :=
  match sorted with
  | [] => ([], inv)
  | (i, l) :: sorted' =>
      if SFltb nzero remaining then
        let toTake := nmin (amount l) remaining in
        let left := nsub (amount l) toTake in
        let inv := set_lot i left inv in
        let inv := if SFeqb left nzero then remove_lot i inv else inv in
        let '(matched, inv) := match_loop sorted' inv (nsub remaining toTake) in
        (with_amount toTake l :: matched, inv)
      else ([], inv)
  end.

(** The matched lots, and the inventory after the call. *)
Definition matchInventory (inventory : list TaxTransaction) (amt : num) (m : TaxMethod)
    : list TaxTransaction * list TaxTransaction :=
  let inv := zip (seq 0 (length inventory)) inventory in
  let sorted := js_sort (λ a b, method_gt m a.2 b.2) inv in
  let '(matched, inv) := match_loop sorted inv amt in
  (matched, inv.*2).

Definition DAY : Z := 1000 * 60 * 60 * 24.

(** The sale with its basis, proceeds, gain and average holding period. *)
Definition sale_entry (tx : TaxTransaction) (matched : list TaxTransaction) : TaxTransaction :=
  let basis := sum_by (λ m, nmul (amount m) (price m)) matched in
  let procs := nmul (amount tx) (price tx) in
  let avg := ndiv (sum_by (λ m, nmul (of_Z ((date tx - date m) / DAY)) (amount m)) matched)
               (amount tx) in
  MkTax (id tx) (date tx) (type tx) (amount tx) (price tx) (Some basis) (Some procs)
    (Some (nsub procs basis)) (Some avg).

Fixpoint capital_gains_loop (m : TaxMethod) (inventory txs : list TaxTransaction)
    : list TaxTransaction :=
  match txs with
  | [] => []
  | tx :: txs' =>
      match type tx with
      | buy | mining | staking | airdrop => tx :: capital_gains_loop m (inventory ++ [tx]) txs'
      | sell =>
          let '(matched, inventory) := matchInventory inventory (amount tx) m in
          sale_entry tx matched :: capital_gains_loop m inventory txs'
      | interest => tx :: capital_gains_loop m inventory txs'
      end
  end.

Definition calculateCapitalGains (transactions : list TaxTransaction) (m : TaxMethod)
    : list TaxTransaction := capital_gains_loop m [] transactions.

(** ** The tax year *)

(** [None] is [undefined]. *)
Record Rates := MkRates { shortTerm : option num; longTerm : option num; ordinary : option num }.

Definition rates_of (s l o : num) : Rates := MkRates (Some s) (Some l) (Some o).

(** The properties every object inherits: reading one of them gives an object
    without rates. *)
Definition inherited : list string :=
  ["constructor"; "toString"; "toLocaleString"; "valueOf"; "hasOwnProperty"; "isPrototypeOf";
   "propertyIsEnumerable"; "__proto__"; "__defineGetter__"; "__defineSetter__";
   "__lookupGetter__"; "__lookupSetter__"].

Definition US_rates : Rates := rates_of (of_Z 24) (of_Z 15) (of_Z 24).

Definition getTaxRates (jurisdiction : string) : Rates :=
  if str_eqb jurisdiction "US" then US_rates
  else if str_eqb jurisdiction "UK" then rates_of (of_Z 20) (of_Z 20) (of_Z 20)
  else if str_eqb jurisdiction "EU" then rates_of (of_Z 25) (of_Z 15) (of_Z 25)
  else if str_eqb jurisdiction "CA" then rates_of (lit 265 1) (lit 1325 2) (lit 265 1)
  else if str_eqb jurisdiction "AU" then rates_of (lit 325 1) (lit 1625 2) (lit 325 1)
  else if js_some (str_eqb jurisdiction) inherited then MkRates None None None
  else US_rates.

Record TaxYear := MkYear {
  year : Z;
  method : TaxMethod;
  y_jurisdiction : string;
  transactions : list TaxTransaction;
  totalCapitalGains : num;
  shortTermGains : num;
  longTermGains : num;
  shortTermRate : option num;
  longTermRate : option num;
  miningIncome : num;
  stakingIncome : num;
  interestIncome : num;
  airdropIncome : num;
  otherIncome : num;
  taxableIncome : num;
  estimatedTax : num;
}.

(** [tx.gainLoss || 0] *)
Definition gain_or_zero (tx : TaxTransaction) : num := num_or (gainLoss tx) nzero.

Definition held (p : num → bool) (tx : TaxTransaction) : bool :=
  match holdingPeriod tx with Some d => p d | None => false end.

Definition gains_of (p : num → bool) (l : list TaxTransaction) : num :=
  sum_by gain_or_zero (js_filter (held p) l).

Definition income_of (t : TxType) (l : list TaxTransaction) : num :=
  sum_by (λ tx, nmul (amount tx) (price tx)) (js_filter (is_type t) l).

(** [x > 0 ? x * rate / 100 : 0] *)
Definition taxed (x : num) (rate : option num) : num :=
  if SFltb nzero x then ndiv (nmul x (default S754_nan rate)) (of_Z 100) else nzero.

Definition tax_year (y : Z) (m : TaxMethod) (jurisdiction : string) (txs : list TaxTransaction)
    : TaxYear :=
  let processed := calculateCapitalGains txs m in
  let short := gains_of (λ d, SFleb d (of_Z 365)) processed in
  let long := gains_of (λ d, SFltb (of_Z 365) d) processed in
  let mined := income_of mining processed in
  let staked := income_of staking processed in
  let earned := income_of interest processed in
  let dropped := income_of airdrop processed in
  let other := nadd (nadd (nadd mined staked) earned) dropped in
  let rates := getTaxRates jurisdiction in
  let total := nadd short long in
  MkYear y m jurisdiction processed total short long (shortTerm rates) (longTerm rates)
    mined staked earned dropped other (nadd total other)
    (nadd (nadd (taxed short (shortTerm rates)) (taxed long (longTerm rates)))
       (taxed other (ordinary rates))).

Definition loadTransactions (y : Z) : list TaxTransaction := [].

Definition calculateTaxYear (y : Z) (m : TaxMethod) (jurisdiction : string) : TaxYear :=
  tax_year y m jurisdiction (loadTransactions y).

(** ** [CapitalGains] *)

Record WashSale := MkWash {
  saleDate : Z;
  w_amount : num;
  disallowedLoss : num;
  repurchaseDate : Z;
}.

Definition washWindow : Z := 30 * 24 * 60 * 60 * 1000.

Definition loss_sale (tx : TaxTransaction) : bool :=
  is_type sell tx && SFltb (gain_or_zero tx) nzero.

Definition repurchase_of (sale tx : TaxTransaction) : bool :=
  is_type buy tx && (Z.abs (date tx - date sale) <=? washWindow) && negb (date tx =? date sale).

Definition wash_of (sale repurchase : TaxTransaction) : WashSale :=
  MkWash (date sale) (amount sale) (nabs (gain_or_zero sale)) (date repurchase).

(** The wash sales of the remaining loss sales, in order. *)
Fixpoint wash_loop (txs sales : list TaxTransaction) : list WashSale :=
  match sales with
  | [] => []
  | sale :: sales' =>
      match js_filter (repurchase_of sale) txs with
      | [] => wash_loop txs sales'
      | r :: _ => wash_of sale r :: wash_loop txs sales'
      end
  end.

Definition detectWashSales (txs : list TaxTransaction) : list WashSale :=
  wash_loop txs (js_filter loss_sale txs).

Definition calculateCostBasis (purchases : list TaxTransaction) (m : TaxMethod) : num :=
  match purchases with
  | [] => nzero
  | _ => ndiv (sum_by (λ p, nmul (amount p) (price p)) purchases) (sum_by amount purchases)
  end.

Definition adjustForWashSales (gains : num) (ws : list WashSale) : num :=
  nadd gains (sum_by disallowedLoss ws).

Definition calculateHoldingPeriod (buyDate sellDate : Z) : Z := (sellDate - buyDate) / DAY.
Definition isLongTerm (days : Z) : bool := 365 <? days.

Definition expected_loss (currentPrice : num) (tx : TaxTransaction) : num :=
  nmul (nsub currentPrice (price tx)) (amount tx).

(** Recommendations with their expected loss, and the loss to harvest. *)
Definition optimizeTaxLoss (reported : option num) (txs : list TaxTransaction)
    : list (TaxTransaction * num) * num :=
  let currentPrice := num_or reported nzero in
  if SFleb currentPrice nzero then ([], nzero)
  else
    let held := js_filter (λ tx, is_type buy tx && SFltb currentPrice (price tx)) txs in
    let recs := js_sort (λ a b : TaxTransaction * num, SFltb nzero (nsub a.2 b.2))
                  ((λ tx, (tx, expected_loss currentPrice tx)) <$> held) in
    (recs, sum_by (λ r, nabs r.2) recs).

(** * Theorems *)

(** ** Matching lots *)

(** The specification: whole lots from the front while they do not exceed what is
    left to match, then a part of the next one. A remainder equal to zero leaves
    no lot. *)
Fixpoint consume (remaining : num) (lots : list TaxTransaction)
    : list TaxTransaction * list TaxTransaction :=
  match lots with
  | [] => ([], [])
  | l :: ls =>
      if SFltb nzero remaining then
        if SFltb remaining (amount l) then
          let rest := nsub (amount l) remaining in
          ([with_amount remaining l], if SFeqb rest nzero then ls else with_amount rest l :: ls)
        else let '(taken, kept) := consume (nsub remaining (amount l)) ls in (l :: taken, kept)
      else ([], lots)
  end.

Lemma with_amount_same l : with_amount (amount l) l = l.
Proof. by destruct l. Qed.

Lemma nmin_positive a r : is_finite a = true → SFltb nzero r = true →
  nmin a r = if SFltb r a then r else a.
Proof. by destruct a as [|[]| |], r as [|[]| |]. Qed.

Lemma below_finite a r : is_finite a = true → SFltb nzero r = true → SFltb r a = true → is_finite r = true.
Proof. by destruct a as [|[]| |[]], r as [|[]| |[]]. Qed.

Lemma fmap_others (l : list lot) i a :
  i ∉ l.*1 → (λ p : lot, if Nat.eqb p.1 i then (p.1, with_amount a p.2) else p) <$> l = l.
Proof.
  intros Hi. rewrite <- (list_fmap_id l) at 2. apply list_fmap_ext. intros k p Hp. simpl.
  destruct (Nat.eqb_spec p.1 i) as [<-|]; [|done]. destruct Hi.
  apply list_elem_of_fmap_2. by eapply list_elem_of_lookup_2.
Qed.

Lemma remove_others (l : list lot) i : i ∉ l.*1 → remove_lot i l = l.
Proof.
  intros Hi. apply js_filter_all. intros p Hp. apply negb_true_iff, Nat.eqb_neq. intros <-.
  destruct Hi. by apply list_elem_of_fmap_2.
Qed.

Lemma remove_lot_perm i l1 l2 : l1 ≡ₚ l2 → remove_lot i l1 ≡ₚ remove_lot i l2.
Proof. intros H. unfold remove_lot, js_filter. induction H; simpl; repeat case_match; eauto using perm_swap, Permutation_trans. Qed.

(** One step on an inventory that holds the lots still to be visited. *)
Lemma set_lot_step i l sorted inv a :
  inv ≡ₚ (i, l) :: sorted → i ∉ sorted.*1 → set_lot i a inv ≡ₚ (i, with_amount a l) :: sorted.
Proof.
  intros Hp Hi. unfold set_lot. rewrite Hp. csimpl. rewrite Nat.eqb_refl. simpl. by rewrite fmap_others.
Qed.

Lemma remove_lot_step i l sorted inv :
  inv ≡ₚ (i, l) :: sorted → i ∉ sorted.*1 → remove_lot i inv ≡ₚ sorted.
Proof.
  intros Hp Hi. rewrite (remove_lot_perm _ _ _ Hp). unfold remove_lot, js_filter. simpl.
  rewrite Nat.eqb_refl. simpl. fold (js_filter (λ p : lot, negb (Nat.eqb p.1 i)) sorted). fold (remove_lot i sorted).
  by rewrite remove_others.
Qed.

Lemma match_loop_zero sorted inv : match_loop sorted inv (S754_zero false) = ([], inv).
Proof. by destruct sorted as [|[i l] sorted]. Qed.

Lemma match_loop_consume sorted inv r :
  NoDup sorted.*1 → Forall (λ p : lot, is_finite (amount p.2) = true) sorted → inv ≡ₚ sorted →
  (match_loop sorted inv r).1 = (consume r sorted.*2).1 ∧
  (match_loop sorted inv r).2.*2 ≡ₚ (consume r sorted.*2).2.
Proof.
  revert inv r. induction sorted as [|[i l] sorted IH]; intros inv r Hnd Hfin Hp; csimpl.
  { apply Permutation_nil_r in Hp. by subst. }
  apply NoDup_cons in Hnd as [Hi Hnd]. inversion Hfin as [|?? Hl Hfin']; subst.
  destruct (SFltb nzero r) eqn:Hr; [|by rewrite Hp]. simpl in Hl.
  rewrite (nmin_positive _ _ Hl Hr). destruct (SFltb r (amount l)) eqn:Hlt.
  - rewrite (nsub_self_finite r) by (by eapply below_finite). rewrite match_loop_zero. simpl.
    split; [done|]. pose proof (set_lot_step i l sorted inv (nsub (amount l) r) Hp Hi) as Hs.
    destruct (SFeqb _ nzero); [|by rewrite Hs]. by rewrite (remove_lot_step _ _ _ _ Hs Hi).
  - rewrite (nsub_self_finite (amount l)) by done. change (SFeqb (S754_zero false) nzero) with true.
    cbv iota beta. pose proof (set_lot_step i l sorted inv (S754_zero false) Hp Hi) as Hs.
    destruct (IH (remove_lot i (set_lot i (S754_zero false) inv)) (nsub r (amount l)) Hnd Hfin'
      (remove_lot_step _ _ _ _ Hs Hi)) as [H1 H2].
    destruct (match_loop _ _ _) as [matched inv']. destruct (consume _ _) as [taken kept].
    simpl in *. by rewrite H1, with_amount_same.
Qed.

(** Does [a] go before [b] under the method? *)
Definition goes_before (m : TaxMethod) (a b : TaxTransaction) : Prop :=
  match m with
  | FIFO | SpecificID => date a <= date b
  | LIFO => date b <= date a
  | HIFO => SFltb (price a) (price b) = false
  end.

Lemma sorted_by_method m l : Forall (λ x, plain_number (price x)) l → StronglySorted (goes_before m) (js_sort (method_gt m) l).
Proof.
  intros H. destruct m; try (by apply (sorted_down price));
    (eapply (strongly_sorted_impl (λ _, True)); [|by apply Forall_true|apply js_sort_sorted with (P := λ _, True); [| |by apply Forall_true]]; cbn; intros; lia).
Qed.

(** C10: for lots of finite amounts, [matchInventory], which sorts references and
    updates the shared lots in place, agrees with the specification: in the order
    of the method it takes whole lots until the next one exceeds what is left, then
    a part of that one; the inventory keeps exactly the lots not taken, up to order.
    The order is that of the earliest, the latest or the highest price first, where
    prices are finite numbers. *)
Theorem matchInventory_refines inventory amt m
    (H : Forall (λ l, is_finite (amount l) = true) inventory) :
  let sorted := js_sort (method_gt m) inventory in
  (matchInventory inventory amt m).1 = (consume amt sorted).1 ∧
  (matchInventory inventory amt m).2 ≡ₚ (consume amt sorted).2 ∧
  (Forall (λ l, plain_number (price l)) inventory → StronglySorted (goes_before m) sorted).
Proof.
  cbv zeta. rewrite (assoc (∧)). split; [|apply sorted_by_method].
  unfold matchInventory. set (inv := zip (seq 0 (length inventory)) inventory).
  assert (inv.*2 = inventory) as Hinv by (apply snd_zip; by rewrite length_seq).
  assert (inv.*1 = seq 0 (length inventory)) as Href by (apply fst_zip; by rewrite length_seq).
  set (sorted := js_sort _ inv).
  assert (sorted ≡ₚ inv) as Hp by apply js_sort_perm.
  replace (js_sort (method_gt m) inventory) with sorted.*2
    by (rewrite <- Hinv; symmetry; by apply (js_sort_fmap snd)).
  cbv zeta. destruct (match_loop_consume sorted inv amt) as [H1 H2].
  - rewrite Hp, Href. apply NoDup_seq.
  - rewrite Hp. rewrite <- Hinv in H. by apply Forall_fmap in H.
  - by rewrite Hp.
  - destruct (match_loop sorted inv amt). by split.
Qed.

Definition demo_lot (i : string) (d amt pr : Z) : TaxTransaction :=
  MkTax i d buy (of_Z amt) (of_Z pr) None None None None.

Lemma matchInventory_refines_witness :
  (matchInventory [demo_lot "a" 1 5 100; demo_lot "b" 2 5 200] (of_Z 7) HIFO).1
  = [demo_lot "b" 2 5 200; demo_lot "a" 1 2 100].
Proof.
  destruct (matchInventory_refines [demo_lot "a" 1 5 100; demo_lot "b" 2 5 200] (of_Z 7) HIFO
    ltac:(repeat constructor)) as [H _].
  rewrite H. vm_compute. reflexivity.
Defined.

(** ** The processed transactions *)

(** What an entry keeps of its transaction. *)
Definition same_trade (a b : TaxTransaction) : Prop :=
  id a = id b ∧ date a = date b ∧ type a = type b ∧ amount a = amount b ∧ price a = price b.

Definition entry_of (tx p : TaxTransaction) : Prop :=
  if is_type sell tx then
    same_trade tx p ∧
    ∃ basis, costBasis p = Some basis ∧ proceeds p = Some (nmul (amount tx) (price tx)) ∧
      gainLoss p = Some (nsub (nmul (amount tx) (price tx)) basis) ∧ is_Some (holdingPeriod p)
  else p = tx.

(** the processed transactions are the transactions in order: every one that is
    not a sale is unchanged, and every sale keeps its identity and gets a cost basis,
    its amount times its price as proceeds, the difference as gain, and a holding
    period. *)
Theorem calculateCapitalGains_entries txs m :
  Forall2 entry_of txs (calculateCapitalGains txs m).
Proof.
  unfold calculateCapitalGains. generalize (@nil TaxTransaction).
  induction txs as [|tx txs IH]; intros inv; simpl; [constructor|].
  destruct (type tx) eqn:Et.
  2:{ destruct (matchInventory inv (amount tx) m) as [matched inv']. constructor; [|done].
      unfold entry_of, is_type. rewrite Et. cbn [sale_entry]. split; [by repeat split|].
      eexists. repeat split; try reflexivity. by eexists. }
  all: constructor; [|done]; unfold entry_of, is_type; by rewrite Et.
Qed.

(** Whatever the year, the method and the jurisdiction, the tax year has no
    transaction, no gain, no income and an estimated tax of zero: the calculator
    loads an empty list of transactions. *)
Lemma calculateTaxYear_is_empty y m jurisdiction :
  let t := calculateTaxYear y m jurisdiction in
  transactions t = [] ∧ totalCapitalGains t = nzero ∧ taxableIncome t = nzero ∧ estimatedTax t = nzero.
Proof. done. Qed.

(** ** Wash sales *)

Lemma js_find_head {A} (p : A → bool) l : js_find p l = head (js_filter p l).
Proof. unfold js_filter. induction l as [|x l IH]; simpl; [done|]. by destruct (p x). Qed.

Lemma elem_of_wash_loop ws txs sales :
  ws ∈ wash_loop txs sales ↔
  ∃ sale r, sale ∈ sales ∧ js_find (repurchase_of sale) txs = Some r ∧ ws = wash_of sale r.
Proof.
  induction sales as [|sale sales IH]; simpl.
  { split; [by intros ?%elem_of_nil|]. by intros (? & ? & ?%elem_of_nil & _). }
  pose proof (js_find_head (repurchase_of sale) txs) as Hf.
  destruct (js_filter (repurchase_of sale) txs) as [|r rs]; simpl in Hf.
  - rewrite IH. split.
    + intros (s & r & Hs & Hr & ->). exists s, r. split_and!; [by right|done..].
    + intros (s & r & [->|Hs]%elem_of_cons & Hr & ->); [by rewrite Hf in Hr|]. by exists s, r.
  - rewrite elem_of_cons, IH. split.
    + intros [->|(s & r' & Hs & Hr & ->)]; [exists sale, r|exists s, r']; (split_and!; [|done..]); [by left|by right].
    + intros (s & r' & [->|Hs]%elem_of_cons & Hr & ->); [left; congruence|right; by exists s, r'].
Qed.

(** a wash sale is reported exactly for each sale at a loss that has a purchase
    at most thirty days before or after it and not at the same instant; it carries
    the sale's date, amount and absolute loss, and the date of the first such
    purchase in the list. *)
Theorem detectWashSales_exact txs ws :
  ws ∈ detectWashSales txs ↔
  ∃ sale r, sale ∈ txs ∧ type sale = sell ∧ SFltb (num_or (gainLoss sale) nzero) nzero = true ∧
    js_find (repurchase_of sale) txs = Some r ∧
    type r = buy ∧ Z.abs (date r - date sale) ≤ 2592000000 ∧ date r ≠ date sale ∧
    ws = MkWash (date sale) (amount sale) (nabs (num_or (gainLoss sale) nzero)) (date r).
Proof.
  unfold detectWashSales. rewrite elem_of_wash_loop. split.
  - intros (sale & r & [Hin Hs]%elem_of_js_filter & Hr & ->).
    apply andb_true_iff in Hs as [Ht Hl]. apply bool_decide_eq_true in Ht.
    pose proof (js_find_Some _ _ _ Hr) as [_ Hrp]. unfold repurchase_of in Hrp.
    rewrite !andb_true_iff, negb_true_iff, Z.leb_le, Z.eqb_neq in Hrp.
    destruct Hrp as [[Hb%bool_decide_eq_true Hd] Hne]. by exists sale, r.
  - intros (sale & r & Hin & Ht & Hl & Hr & _ & _ & _ & ->). exists sale, r. split_and!; [|done..].
    apply elem_of_js_filter. split; [done|]. unfold loss_sale, is_type, gain_or_zero.
    by rewrite Ht, Hl.
Qed.
