(* ===== verification/TransactionLabels.v ===== *)
(** * [TransactionLabelsService] (apps/web/wallet/src/services/transactionLabels.ts)

    Notes, tags and categories of transactions, by transaction identifier, and the
    templates for them. Storage errors are swallowed. A listener is an opaque callback
    with an identity; the calls made are kept in [notified], in order. *)

From S2P Require Import Prelude JsMap JsString Store.
Record TransactionLabel := MkLabel {
  l_txid : string;
  l_note : option string;
  l_tags : list string;
  l_category : option string;
  createdAt : Z;
  updatedAt : Z;
}.

Record LabelTemplate := MkTemplate {
  t_id : string;
  t_name : string;
  t_note : string;
  t_tags : list string;
  t_category : option string;
}.

Record TransactionLabels := MkLabels {
  labels : jsmap TransactionLabel;
  templates : list LabelTemplate;
  listeners : list nat;
  notified : list nat;
  ls_labels : cell (list TransactionLabel);
  ls_templates : cell (list LabelTemplate);
}.

Definition set_labels m s :=
  MkLabels m (templates s) (listeners s) (notified s) (ls_labels s) (ls_templates s).
Definition set_templates l s :=
  MkLabels (labels s) l (listeners s) (notified s) (ls_labels s) (ls_templates s).
Definition set_listeners l s :=
  MkLabels (labels s) (templates s) l (notified s) (ls_labels s) (ls_templates s).
Definition set_notified l s :=
  MkLabels (labels s) (templates s) (listeners s) l (ls_labels s) (ls_templates s).
Definition set_ls_labels c s :=
  MkLabels (labels s) (templates s) (listeners s) (notified s) c (ls_templates s).
Definition set_ls_templates c s :=
  MkLabels (labels s) (templates s) (listeners s) (notified s) (ls_labels s) c.

Abbreviation M := (js (TransactionLabels * Env)).

Definition fresh (c : cell (list TransactionLabel)) (ct : cell (list LabelTemplate))
    : TransactionLabels := MkLabels [] [] [] [] c ct.

(** ** Loading and saving *)

Definition loadLabels : M () :=
  guarded (
    s ← this;
    match truthy_cell (ls_labels s) with
    | Some t => l ← JSON_parse t; modify_this (set_labels (map_set_all l_txid [] l))
    | None => mret ()
    end).

Definition notifyListeners : M () := modify_this (λ s, set_notified (notified s ++ listeners s) s).

Definition saveLabels : M () :=
  guarded (write_json set_ls_labels (λ s, map_values (labels s));; notifyListeners).

Definition saveTemplates : M () := guarded (write_json set_ls_templates templates).

Definition default_templates : list LabelTemplate := [
  MkTemplate "personal" "Personal" "Personal transaction" ["personal"] (Some "personal");
  MkTemplate "business" "Business" "Business expense" ["business"; "expense"] (Some "business");
  MkTemplate "mining" "Mining" "Mining reward" ["mining"; "income"] (Some "mining");
  MkTemplate "exchange" "Exchange" "Exchange transfer" ["exchange"] (Some "exchange");
  MkTemplate "payment" "Payment" "Payment received" ["payment"; "income"] (Some "income")].

Definition loadTemplates : M () :=
  guarded (
    s ← this;
    match truthy_cell (ls_templates s) with
    | Some t => l ← JSON_parse t; modify_this (set_templates l)
    | None => modify_this (set_templates default_templates);; saveTemplates
    end).

Definition constructor : M () :=
  b ← is_browser;
  js_when b (loadLabels;; loadTemplates).

Definition subscribe (listener : nat) : M () :=
  modify_this (λ s,
    if bool_decide (listener ∈ listeners s) then s else set_listeners (listeners s ++ [listener]) s).
Definition unsubscribe (listener : nat) : M () :=
  modify_this (λ s, set_listeners (js_filter (λ l, negb (Nat.eqb l listener)) (listeners s)) s).

(** ** Labels *)

Definition addLabel (txid : string) (note : option string) (tags : option (list string))
    (category : option string) : M TransactionLabel :=
  now ← date_now;
  let label := MkLabel txid note (default [] tags) category now now in
  modify_this (λ s, set_labels (map_set txid label (labels s)) s);;
  saveLabels;;
  mret label.

Record Updates := MkUpdates {
  u_note : option (option string);
  u_tags : option (list string);
  u_category : option (option string);
}.

Definition apply_updates (u : Updates) (now : Z) (l : TransactionLabel) : TransactionLabel :=
  MkLabel (l_txid l) (default (l_note l) (u_note u)) (default (l_tags l) (u_tags u))
    (default (l_category l) (u_category u)) (createdAt l) now.

Definition updateLabel (txid : string) (u : Updates) : M bool :=
  s ← this;
  match map_get txid (labels s) with
  | None => mret false
  | Some label =>
      now ← date_now;
      modify_this (λ s, set_labels (map_set txid (apply_updates u now label) (labels s)) s);;
      saveLabels;;
      mret true
  end.

Definition deleteLabel (txid : string) : M bool :=
  s ← this;
  let deleted := map_has txid (labels s) in
  modify_this (λ s, set_labels (map_delete txid (labels s)) s);;
  js_when deleted saveLabels;;
  mret deleted.

Definition getLabel (txid : string) : M (option TransactionLabel) :=
  s ← this; mret (map_get txid (labels s)).
Definition getAllLabels : M (list TransactionLabel) := s ← this; mret (map_values (labels s)).

(** [a.toLowerCase() === b.toLowerCase()] *)
Definition same_text (a b : string) : bool := str_eqb (toLowerCase a) (toLowerCase b).

Definition getLabelsByTag (tag : string) : M (list TransactionLabel) :=
  l ← getAllLabels; mret (js_filter (λ x, js_some (λ t, same_text t tag) (l_tags x)) l).

Definition getLabelsByCategory (category : string) : M (list TransactionLabel) :=
  l ← getAllLabels;
  mret (js_filter (λ x, match l_category x with Some c => same_text c category | None => false end) l).

Definition has_text (q s : string) : bool := includes q (toLowerCase s).
Definition opt_has_text (q : string) (o : option string) : bool :=
  match o with Some s => has_text q s | None => false end.

Definition searchLabels (query : string) : M (list TransactionLabel) :=
  let q := toLowerCase query in
  l ← getAllLabels;
  mret (js_filter (λ x, opt_has_text q (l_note x) || js_some (has_text q) (l_tags x)
    || opt_has_text q (l_category x) || has_text q (l_txid x)) l).

Definition getAllTags : M (list string) :=
  l ← getAllLabels; mret (sort_strings (set_of (concat (l_tags <$> l)))).

(** The categories that are present and not empty. *)
Definition categories_of (l : list TransactionLabel) : list string :=
  concat ((λ x, if truthy_str (l_category x) then [default "" (l_category x)] else []) <$> l).

Definition getAllCategories : M (list string) :=
  l ← getAllLabels; mret (sort_strings (set_of (categories_of l))).

(** ** Templates *)

Definition has_tid (tid : string) (t : LabelTemplate) : bool := str_eqb (t_id t) tid.

Definition getTemplates : M (list LabelTemplate) := s ← this; mret (templates s).
Definition getTemplate (tid : string) : M (option LabelTemplate) :=
  s ← this; mret (js_find (has_tid tid) (templates s)).

Definition applyTemplate (txid tid : string) : M (option TransactionLabel) :=
  template ← getTemplate tid;
  match template with
  | None => mret None
  | Some t =>
      label ← addLabel txid (Some (t_note t)) (Some (t_tags t)) (t_category t);
      mret (Some label)
  end.

Definition addTemplate (name note : string) (tags : list string) (category : option string)
    : M LabelTemplate :=
  t ← date_now;
  r ← random36;
  let newTemplate := MkTemplate ("template_" +:+ pretty t +:+ "_" +:+ r) name note tags category in
  modify_this (λ s, set_templates (templates s ++ [newTemplate]) s);;
  saveTemplates;;
  mret newTemplate.

Record TemplateUpdates := MkTemplateUpdates {
  tu_name : option string;
  tu_note : option string;
  tu_tags : option (list string);
  tu_category : option (option string);
}.

Definition update_template (u : TemplateUpdates) (t : LabelTemplate) : LabelTemplate :=
  MkTemplate (t_id t) (default (t_name t) (tu_name u)) (default (t_note t) (tu_note u))
    (default (t_tags t) (tu_tags u)) (default (t_category t) (tu_category u)).

Definition updateTemplate (tid : string) (u : TemplateUpdates) : M bool :=
  s ← this;
  if negb (js_some (has_tid tid) (templates s)) then mret false
  else
    modify_this (λ s, set_templates (update_first (has_tid tid) (update_template u) (templates s)) s);;
    saveTemplates;;
    mret true.

Definition deleteTemplate (tid : string) : M bool :=
  s ← this;
  let kept := js_filter (λ t, negb (has_tid tid t)) (templates s) in
  modify_this (set_templates kept);;
  if Nat.ltb (length kept) (length (templates s)) then saveTemplates;; mret true else mret false.

(** ** Export and import *)

(** The exported object; an imported one may lack its arrays. *)
Record ExportData := MkExport {
  x_labels : option (list TransactionLabel);
  x_templates : option (list LabelTemplate);
  x_exportedAt : option Z;
}.

Definition exportLabels : M (text ExportData) :=
  s ← this;
  now ← date_now;
  mret (TJson (MkExport (Some (map_values (labels s))) (Some (templates s)) (Some now))).

(** One label: the map and the counts of labels added and refused. *)
Definition import_label (st : jsmap TransactionLabel * Z * Z) (l : TransactionLabel) :=
  let '(m, success, failed) := st in
  if negb (map_has (l_txid l) m) then (map_set (l_txid l) l m, success + 1, failed)
  else (m, success, failed + 1).

(** One template: one whose identifier is present is skipped and not counted. *)
Definition import_template (st : list LabelTemplate * Z) (t : LabelTemplate) :=
  let '(l, success) := st in
  if js_some (has_tid (t_id t)) l then (l, success) else (l ++ [t], success + 1).

Definition importLabels (jsonData : text ExportData) : M (Z * Z) :=
  js_try (
    data ← JSON_parse jsonData;
    s ← this;
    let '(m, success, failed) := foldl import_label (labels s, 0, 0) (default [] (x_labels data)) in
    modify_this (set_labels m);;
    let '(l, success) := foldl import_template (templates s, success) (default [] (x_templates data)) in
    modify_this (set_templates l);;
    saveLabels;;
    saveTemplates;;
    mret (success, failed))
  (λ _, mret (0, 0)).

(** ** Bulk operations *)

Record NewLabel := MkNew {
  n_txid : string;
  n_note : option string;
  n_tags : option (list string);
  n_category : option string;
}.

Definition bulkAddLabels (l : list NewLabel) : M nat :=
  added ← js_mapM (λ n, js_try
    (addLabel (n_txid n) (n_note n) (n_tags n) (n_category n);; mret true) (λ _, mret false)) l;
  mret (length (js_filter id added)).

Definition bulkDeleteLabels (txids : list string) : M nat :=
  deleted ← js_mapM deleteLabel txids;
  mret (length (js_filter id deleted)).

Definition clearAllLabels : M () :=
  modify_this (set_labels []);;
  saveLabels.

(** * Theorems *)

(** ** Saving touches only the storage and the listeners' log *)

Lemma saveLabels_run s e : ∃ s', saveLabels (s, e) = (Ok (), (s', e)) ∧
  labels s' = labels s ∧ templates s' = templates s.
Proof.
  unfold saveLabels, guarded, write_json, notifyListeners. js_run.
  destruct (browser e); [|by eexists]. cbn [js_when]. unfold js_try. js_run.
  destruct (writable e); by eexists.
Qed.

Lemma saveTemplates_run s e : ∃ s', saveTemplates (s, e) = (Ok (), (s', e)) ∧
  labels s' = labels s ∧ templates s' = templates s.
Proof.
  unfold saveTemplates, guarded, write_json. js_run.
  destruct (browser e); [|by eexists]. cbn [js_when]. unfold js_try. js_run. unfold ls_setItem. simpl.
  destruct (writable e); by eexists.
Qed.

(** ** The two loops of an import *)

Definition of_txid (k : string) (l : TransactionLabel) : bool := str_eqb (l_txid l) k.

Lemma import_labels_spec l m a b m' a' b' :
  foldl import_label (m, a, b) l = (m', a', b') →
  (∀ k x, map_get k m = Some x → map_get k m' = Some x) ∧
  (∀ k, map_get k m = None → map_get k m' = js_find (of_txid k) l) ∧
  a' = a + (Z.of_nat (map_size m') - Z.of_nat (map_size m)) ∧
  (a' - a) + (b' - b) = Z.of_nat (length l).
Proof.
  revert m a b. induction l as [|x l IH]; intros m a b; simpl.
  { intros [= <- <- <-]. split_and!; [done..| |]; lia. }
  destruct (map_has (l_txid x) m) eqn:Eh; simpl; intros H; destruct (IH _ _ _ H) as (H1 & H2 & H3 & H4).
  - split_and!; [done| |lia..]. intros k Hk. rewrite H2 by done.
    change (of_txid k x) with (str_eqb (l_txid x) k).
    destruct (str_eqb (l_txid x) k) eqn:E; [|done]. apply str_eqb_true in E as <-.
    apply map_has_true in Eh as [? Eh]. congruence.
  - rewrite map_size_set, Eh in H3. apply map_has_false in Eh. split_and!; [| |lia..].
    + intros k y Hy. apply H1. rewrite map_get_set_ne; [done|]. intros <-. congruence.
    + intros k Hk. change (of_txid k x) with (str_eqb (l_txid x) k). destruct (str_eqb (l_txid x) k) eqn:E.
      * apply str_eqb_true in E as <-. apply H1, map_get_set_eq.
      * apply str_eqb_false in E. apply H2. by rewrite map_get_set_ne.
Qed.

Lemma import_templates_spec l ts a ts' a' :
  foldl import_template (ts, a) l = (ts', a') →
  ∃ added, ts' = ts ++ added ∧ a' = a + Z.of_nat (length added) ∧ added `sublist_of` l ∧
    (∀ t, t ∈ l → t_id t ∈ (t_id <$> ts')).
Proof.
  revert ts a. induction l as [|t l IH]; intros ts a; simpl.
  { intros [= <- <-]. exists []. rewrite app_nil_r. split_and!; [done|simpl; lia|done|].
    by intros t ?%elem_of_nil. }
  destruct (js_some (has_tid (t_id t)) ts) eqn:E; intros H; destruct (IH _ _ H) as (added & -> & -> & Hs & Hl).
  - exists added. split_and!; [done|done|by constructor|]. intros t' [->|Ht]%elem_of_cons; [|by apply Hl].
    apply js_some_true in E as (t2 & Ht2 & E%str_eqb_true). rewrite fmap_app, elem_of_app. left.
    rewrite <- E. by apply list_elem_of_fmap_2.
  - exists (t :: added). rewrite <- app_assoc in *. split_and!; [done|simpl; lia|by constructor|].
    intros t' [->|Ht]%elem_of_cons; [|by apply Hl]. apply list_elem_of_fmap_2.
    apply elem_of_app. right. by left.
Qed.

Lemma importLabels_run data s e : ∃ m l success failed s',
  importLabels (TJson data) (s, e) = (Ok (success + (Z.of_nat (length l) - Z.of_nat (length (templates s))), failed), (s', e)) ∧
  foldl import_label (labels s, 0, 0) (default [] (x_labels data)) = (m, success, failed) ∧
  labels s' = m ∧ templates s' = l ∧
  foldl import_template (templates s, success) (default [] (x_templates data))
    = (l, success + (Z.of_nat (length l) - Z.of_nat (length (templates s)))).
Proof.
  unfold importLabels, js_try. cbn [JSON_parse]. js_run.
  destruct (foldl import_label _ _) as [[m success] failed] eqn:E1. js_run.
  destruct (foldl import_template _ _) as [l total] eqn:E2. js_run.
  pose proof (import_templates_spec _ _ _ _ _ E2) as (added & -> & -> & _).
  match goal with |- context [(saveLabels ≫= _) (?s0, e)] =>
    destruct (saveLabels_run s0 e) as (s1 & Es1 & Hl1 & Ht1) end.
  rewrite (run_Ok _ _ _ _ _ Es1).
  destruct (saveTemplates_run s1 e) as (s2 & Es2 & Hl2 & Ht2). rewrite (run_Ok _ _ _ _ _ Es2).
  assert (success + Z.of_nat (length added) =
    success + (Z.of_nat (length (templates s ++ added)) - Z.of_nat (length (templates s)))) as E
    by (rewrite length_app, Nat2Z.inj_add; lia).
  rewrite E in *. exists m, (templates s ++ added), success, failed, s2.
  split_and!; [done|done|by rewrite Hl2, Hl1|by rewrite Ht2, Ht1|done].
Qed.

(** importing never fails on a parsed object and never overwrites: every label
    present stays, a transaction without a label gets the first one imported for it,
    and nothing else appears; the templates present stay in front and every imported
    template's identifier is then present. The counts are exact: successes are the
    labels and templates added, failures the labels that found one in place. *)
Theorem importLabels_merges data s e :
  match importLabels (TJson data) (s, e) with
  | (Ok (success, failed), (s', _)) =>
      let ls := default [] (x_labels data) in
      let added := Z.of_nat (map_size (labels s')) - Z.of_nat (map_size (labels s)) in
      (∀ k x, map_get k (labels s) = Some x → map_get k (labels s') = Some x) ∧
      (∀ k, map_get k (labels s) = None → map_get k (labels s') = js_find (of_txid k) ls) ∧
      templates s `prefix_of` templates s' ∧
      (∀ t, t ∈ default [] (x_templates data) → t_id t ∈ (t_id <$> templates s')) ∧
      success = added + (Z.of_nat (length (templates s')) - Z.of_nat (length (templates s))) ∧
      failed = Z.of_nat (length ls) - added
  | (Throw _, _) => False
  end.
Proof.
  destruct (importLabels_run data s e) as (m & l & success & failed & s' & -> & E1 & <- & <- & E2).
  destruct (import_labels_spec _ _ _ _ _ _ _ E1) as (H1 & H2 & H3 & H4).
  destruct (import_templates_spec _ _ _ _ _ E2) as (added & H5 & H6 & _ & H7).
  split_and!; [done|done|by exists added|done|lia|lia].
Qed.

(** ** Export and import *)

Lemma import_labels_fresh m0 m a b :
  map_all (λ k l, l_txid l = k) m → map_wf (m0 ++ m) →
  (foldl import_label (m0, a, b) (map_values m)).1.1 = m0 ++ m.
Proof.
  revert m0 a. induction m as [|[k x] m IH]; intros m0 a Hk Hwf; simpl; [by rewrite app_nil_r|].
  inversion Hk as [|?? Hx Hk']; subst. simpl in Hx. subst.
  assert (map_get (l_txid x) m0 = None) as Hn.
  { apply map_get_None_keys. unfold map_wf, map_keys in *. rewrite fmap_app in Hwf.
    apply NoDup_app in Hwf as (_ & Hd & _). intros Hin. apply (Hd _ Hin). by left. }
  rewrite (proj2 (map_has_false _ _) Hn). simpl. rewrite map_set_app by done. rewrite IH; [|done|];
    by rewrite <- app_assoc.
Qed.

Lemma import_templates_fresh ts0 ts a :
  NoDup (t_id <$> (ts0 ++ ts)) → (foldl import_template (ts0, a) ts).1 = ts0 ++ ts.
Proof.
  revert ts0 a. induction ts as [|t ts IH]; intros ts0 a Hnd; simpl; [by rewrite app_nil_r|].
  assert (js_some (has_tid (t_id t)) ts0 = false) as ->.
  { apply js_some_false. intros t' Ht'. apply str_eqb_false. intros E.
    rewrite fmap_app in Hnd. apply NoDup_app in Hnd as (_ & Hd & _).
    apply (Hd (t_id t')); [by apply list_elem_of_fmap_2|]. rewrite E. by left. }
  rewrite IH; by rewrite <- app_assoc.
Qed.

(** importing an export into a service without labels and templates restores
    both: the labels stored under their transaction identifiers, in order, and the
    templates, when their identifiers differ. *)
Theorem labels_export_import_roundtrip s e t w s0 e0
    (Hk : map_wf (labels s) ∧ map_all (λ k l, l_txid l = k) (labels s))
    (Ht : NoDup (t_id <$> templates s))
    (H0 : labels s0 = [] ∧ templates s0 = [])
    (Hx : exportLabels (s, e) = (Ok t, w)) :
  let s' := (importLabels t (s0, e0)).2.1 in
  labels s' = labels s ∧ templates s' = templates s.
Proof.
  unfold exportLabels in Hx. rewrite run_this in Hx. rewrite run_date_now in Hx.
  apply run_ret_inv in Hx as [<- _]. destruct H0 as [Hl0 Ht0], Hk as [Hwf Hk].
  match goal with |- context [importLabels (TJson ?d) _] =>
    destruct (importLabels_run d s0 e0) as (m & l & a & b & s' & -> & E1 & Hm & Hl & E2) end.
  cbn [fst snd x_labels x_templates default from_option id] in *. subst m l. split.
  - rewrite Hl0 in E1. etransitivity; [|exact (import_labels_fresh [] (labels s) 0 0 Hk Hwf)].
    exact (f_equal (λ p, p.1.1) (eq_sym E1)).
  - rewrite Ht0 in E2. etransitivity; [|exact (import_templates_fresh [] (templates s) a Ht)].
    exact (f_equal fst (eq_sym E2)).
Qed.

Definition demo_label (i : string) : TransactionLabel := MkLabel i (Some "note") ["tag"] None 1 2.
Definition demo_labels : TransactionLabels :=
  MkLabels [("a", demo_label "a"); ("b", demo_label "b")] default_templates [] [] None None.

Lemma labels_export_import_roundtrip_witness :
  ∃ t w, exportLabels (demo_labels, demo_env) = (Ok t, w) ∧
    labels (importLabels t (fresh None None, demo_env)).2.1 = labels demo_labels.
Proof.
  eexists _, _. split; [reflexivity|].
  refine (proj1 (labels_export_import_roundtrip demo_labels demo_env _ _ (fresh None None) demo_env
    _ _ (conj eq_refl eq_refl) eq_refl)).
  - split; [|by repeat constructor]. apply (bool_decide_eq_true_1 (NoDup _)). vm_compute. reflexivity.
  - apply (bool_decide_eq_true_1 (NoDup _)). vm_compute. reflexivity.
Defined.
