(* ===== verification/Rebalancer.v ===== *)
(** * [RebalancerService] (apps/web/wallet/src/services/rebalancer.ts)

    Target allocations in percent, the transfers that bring a portfolio to them, and
    the history of the rebalancings. The loop that pairs sellers with buyers has a
    bound on its iterations as an extra argument; it answers [None] when the bound is
    reached, which [rebalance_terminates] shows not to happen. *)

From Stdlib Require Import String.
From S2P Require Import Prelude JsMap JsNumber JsString Store FloatFacts Wallet.
Record Asset := MkAsset { symbol : string; a_balance : num; value : num; percentage : num }.
Record TargetAllocation := MkTarget { t_symbol : string; targetPercentage : num }.
Record RebalanceAction := MkAction { from : string; to : string; a_amount : num; a_value : num }.
Record RebalanceLog := MkLog {
  id : string;
  timestamp : Z;
  actions : list RebalanceAction;
  portfolioValueBefore : num;
  portfolioValueAfter : num;
  gainsLosses : num;
}.

Record Rebalancer := MkRebalancer {
  targetAllocations : jsmap num;
  rebalanceHistory : list RebalanceLog;
  ls_targets : cell (list TargetAllocation);
  ls_history : cell (list RebalanceLog);
}.

Definition set_targets m s := MkRebalancer m (rebalanceHistory s) (ls_targets s) (ls_history s).
Definition set_history l s := MkRebalancer (targetAllocations s) l (ls_targets s) (ls_history s).
Definition set_ls_targets c s := MkRebalancer (targetAllocations s) (rebalanceHistory s) c (ls_history s).
Definition set_ls_history c s := MkRebalancer (targetAllocations s) (rebalanceHistory s) (ls_targets s) c.

Abbreviation M := (js (Rebalancer * Env)).

Definition fresh (ct : cell (list TargetAllocation)) (ch : cell (list RebalanceLog)) : Rebalancer :=
  MkRebalancer [] [] ct ch.

(** ** Storage *)

Definition loadTargetAllocations : M () :=
  guarded (
    s ← this;
    match truthy_cell (ls_targets s) with
    | Some t =>
        l ← JSON_parse t;
        modify_this (λ s, set_targets
          (foldl (λ m a, map_set (t_symbol a) (targetPercentage a) m) (targetAllocations s) l) s)
    | None => mret ()
    end).

Definition getAllTargets (s : Rebalancer) : list TargetAllocation :=
  (λ kv, MkTarget kv.1 kv.2) <$> targetAllocations s.

Definition saveTargetAllocations : M () := guarded (write_json set_ls_targets getAllTargets).

Definition loadHistory : M () :=
  guarded (
    s ← this;
    match truthy_cell (ls_history s) with
    | Some t => l ← JSON_parse t; modify_this (set_history l)
    | None => mret ()
    end).

Definition saveHistory : M () := guarded (write_json set_ls_history rebalanceHistory).

Definition constructor : M () :=
  b ← is_browser;
  js_when b (loadTargetAllocations;; loadHistory).

(** ** Allocations *)

(** [label || address.substring(0, 8)] *)
Definition wallet_symbol (w : WalletInfo) : string :=
  if str_eqb (label w) "" then String.substring 0 8 (address w) else label w.

Definition calculateCurrentAllocation (wallets : list WalletInfo) : list Asset :=
  let totalValue := sum_by balance wallets in
  (λ w, MkAsset (wallet_symbol w) (balance w) (balance w)
          (if SFltb nzero totalValue then nmul (ndiv (balance w) totalValue) (of_Z 100) else nzero))
    <$> wallets.

Definition setTargetAllocation (sym : string) (pct : num) : M () :=
  if SFltb pct nzero || SFltb (of_Z 100) pct then js_throw "Percentage must be between 0 and 100"
  else
    modify_this (λ s, set_targets (map_set sym pct (targetAllocations s)) s);;
    saveTargetAllocations.

(** [this.targetAllocations.get(symbol) || 0] *)
Definition target_of (s : Rebalancer) (sym : string) : num :=
  num_or (map_get sym (targetAllocations s)) nzero.

Definition getTargetAllocation (sym : string) : M num := s ← this; mret (target_of s sym).
Definition getAllTargetAllocations : M (list TargetAllocation) := s ← this; mret (getAllTargets s).

(** ** The transfers *)

(** What the loop reads of a difference: the asset and what it lacks. *)
Record Difference := MkDiff { d_symbol : string; diff : num }.

Definition difference (target : string → num) (totalValue : num) (a : Asset) : Difference :=
  let targetValue := ndiv (nmul totalValue (target (symbol a))) (of_Z 100) in
  MkDiff (symbol a) (nsub targetValue (value a)).

(** [Math.abs(x) < 0.01] *)
Definition settled (x : num) : bool := SFltb (nabs x) (lit 1 2).

(** The loop, from the current seller and buyer on. *)
Fixpoint transfers (fuel : nat) (totalValue : num) (toSell toBuy : list Difference)
    : option (list RebalanceAction) :=
  match toSell, toBuy with
  | seller :: toSell', buyer :: toBuy' =>
      match fuel with
      | O => None
      | S fuel' =>
          let transferAmount := nmin (nabs (diff seller)) (diff buyer) in
          let action := MkAction (d_symbol seller) (d_symbol buyer)
                          (ndiv transferAmount totalValue) transferAmount in
          let sd := nadd (diff seller) transferAmount in
          let bd := nsub (diff buyer) transferAmount in
          let sells := if settled sd then toSell' else MkDiff (d_symbol seller) sd :: toSell' in
          let buys := if settled bd then toBuy' else MkDiff (d_symbol buyer) bd :: toBuy' in
          cons action <$> transfers fuel' totalValue sells buys
      end
  | _, _ => Some []
  end.

Definition sellers (l : list Difference) : list Difference :=
  js_sort (λ a b, SFltb nzero (nsub (diff a) (diff b))) (js_filter (λ d, SFltb (diff d) nzero) l).
Definition buyers (l : list Difference) : list Difference :=
  js_sort (λ a b, SFltb nzero (nsub (diff b) (diff a))) (js_filter (λ d, SFltb nzero (diff d)) l).

Definition rebalance_actions (fuel : nat) (target : string → num) (currentAssets : list Asset)
    : option (list RebalanceAction) :=
  let totalValue := sum_by value currentAssets in
  if SFeqb totalValue nzero then Some []
  else
    let differences := difference target totalValue <$> currentAssets in
    transfers fuel totalValue (sellers differences) (buyers differences).

(** One iteration for each asset is enough. *)
Definition calculateRebalanceActions (currentAssets : list Asset) : M (option (list RebalanceAction)) :=
  s ← this; mret (rebalance_actions (length currentAssets) (target_of s) currentAssets).

(** ** History and metrics *)

Definition executeRebalance (currentAssets : list Asset) (acts : list RebalanceAction) : M RebalanceLog :=
  let total := sum_by value currentAssets in
  t0 ← date_now;
  r ← random36;
  t1 ← date_now;
  let log := MkLog ("rebalance_" +:+ pretty t0 +:+ "_" +:+ r) t1 acts total total nzero in
  modify_this (λ s, set_history (rebalanceHistory s ++ [log]) s);;
  saveHistory;;
  mret log.

(** [sort] works on the history itself. *)
Definition getRebalanceHistory : M (list RebalanceLog) :=
  modify_this (λ s, set_history (js_sort (λ a b, timestamp a <? timestamp b) (rebalanceHistory s)) s);;
  s ← this;
  mret (rebalanceHistory s).

Record Metrics := MkMetrics { totalValue : num; diversification : num; imbalanceScore : num }.

(** The host's approximation of powers. *)
Section Pow.
Context (Math_pow : num → num → num).

Definition metrics (target : string → num) (l : list Asset) : Metrics :=
  let herfindahl := sum_by (λ a, Math_pow (ndiv (percentage a) (of_Z 100)) (of_Z 2)) l in
  MkMetrics (sum_by value l) (nmul (nsub (of_Z 1) herfindahl) (of_Z 100))
    (sum_by (λ a, nabs (nsub (percentage a) (target (symbol a)))) l).

Definition calculateMetrics (l : list Asset) : M Metrics := s ← this; mret (metrics (target_of s) l).

Definition shouldRebalance (l : list Asset) (threshold : num) : M bool :=
  m ← calculateMetrics l; mret (SFltb threshold (imbalanceScore m)).
End Pow.

Definition clearAllData : M () :=
  modify_this (λ s, set_history [] (set_targets [] s));;
  ls_removeItem (set_ls_targets None);;
  ls_removeItem (set_ls_history None).

(** * Theorems *)

(** ** One iteration *)

(** What the loop keeps true of a seller and of a buyer. *)
Definition seller_ok (d : Difference) : Prop :=
  valid (diff d) = true ∧ is_finite (diff d) = true ∧ SFltb (diff d) nzero = true.
Definition buyer_ok (d : Difference) : Prop := valid (diff d) = true ∧ SFltb nzero (diff d) = true.

Lemma settled_zero x : SFcompare x nzero = Some Eq → settled x = true.
Proof. by destruct x as [[]|[]| |[] ? ?]. Qed.

Lemma seller_form x : valid x = true → is_finite x = true → SFltb x nzero = true →
  ∃ m e, x = S754_finite true m e.
Proof. destruct x as [?|?| |[] m e]; try done. eauto. Qed.

Lemma compare_opp x y : SFcompare (SFopp x) (SFopp y) = SFcompare y x.
Proof.
  destruct x as [?|[]| |[] mx ex], y as [?|[]| |[] my ey]; try done; cbn;
    rewrite (Z.compare_antisym ey ex); change (Pos.compare_cont Eq) with Pos.compare;
    rewrite (Pos.compare_antisym my mx); by destruct (ey ?= ex), (my ?= mx)%positive.
Qed.

(** The smaller of the two is settled, the other keeps its sign. *)
Lemma transfer_step s b : valid s = true → is_finite s = true → SFltb s nzero = true →
  valid b = true → SFltb nzero b = true →
  let t := nmin (nabs s) b in
  SFltb nzero t = true ∧
  (settled (nadd s t) = true ∧ (settled (nsub b t) = true ∨ valid (nsub b t) = true ∧ SFltb nzero (nsub b t) = true) ∨
   settled (nsub b t) = true ∧
   valid (nadd s t) = true ∧ is_finite (nadd s t) = true ∧ SFltb (nadd s t) nzero = true).
Proof.
  intros Vs Fs Ns Vb Pb. destruct (seller_form s Vs Fs Ns) as (m & e & ->). cbv zeta.
  set (a := nabs _). assert (valid a = true) as Va by (rewrite <- Vs; reflexivity).
  assert (SFltb nzero a = true) as Pa by done.
  assert (nmin a b = if SFltb b a then b else a) as ->
    by (unfold a; by destruct b as [?|[]| |[] ? ?]).
  destruct (SFltb b a) eqn:E.
  - assert (is_finite b = true) as Fb by (by destruct b as [?|[]| |[] ? ?]).
    split; [done|]. right. split; [by rewrite nsub_self_finite|].
    split_and!; [by apply nadd_valid| |].
    + rewrite nadd_nsub. apply nsub_same_sign_finite; rewrite ?opp_valid, ?opp_finite; try done.
      right. split; [done|]. by destruct b as [?|[]| |[] ? ?].
    + unfold SFltb. rewrite nadd_sign by done. change (S754_finite true m e) with (SFopp a).
      by rewrite compare_opp.
  - split; [done|]. left. split.
    { unfold a. by rewrite nadd_abs_neg. }
    destruct (is_finite b) eqn:Fb.
    + destruct (SFcompare b a) as [[]|] eqn:C.
      * left. apply settled_zero. by rewrite nsub_sign.
      * unfold SFltb in E. by rewrite C in E.
      * right. split; [by apply nsub_valid|]. rewrite nlt_sub by done.
        unfold SFltb. by rewrite SFcompare_sym, C.
      * by destruct b as [?|[]| |[] ? ?].
    + right. by destruct b as [?|[]| |[] ? ?].
Qed.

(** ** The loop *)

(** An action that a list of sellers and a list of buyers justify. *)
Definition action_between (S B : list string) (a : RebalanceAction) : Prop :=
  from a ∈ S ∧ to a ∈ B ∧ SFltb nzero (a_value a) = true.

Lemma action_between_mono S B S' B' a :
  S ⊆ S' → B ⊆ B' → action_between S B a → action_between S' B' a.
Proof. intros HS HB (?&?&?). split_and!; auto. Qed.

Lemma transfers_ends fuel tv (S B : list Difference) :
  Forall seller_ok S → Forall buyer_ok B → (length S + length B <= fuel)%nat →
  ∃ l, transfers fuel tv S B = Some l ∧ (length l <= length S + length B)%nat ∧
       Forall (action_between (d_symbol <$> S) (d_symbol <$> B)) l.
Proof.
  revert S B. induction fuel as [|fuel IH]; intros S B HS HB Hf.
  { destruct S, B; simpl in Hf; try lia. by exists []. }
  destruct HS as [|s S (Vs & Fs & Ns) HS]; [exists []; split; [by destruct B|by split; [cbn; lia|]]|].
  destruct HB as [|b B (Vb & Pb) HB]; [exists []; split; [done|by split; [cbn; lia|]]|].
  cbn [transfers]. cbv zeta. destruct (transfer_step (diff s) (diff b) Vs Fs Ns Vb Pb) as [Ht Hstep].
  cbv zeta in Ht, Hstep. set (t := nmin _ _) in *. set (act := MkAction _ _ _ _).
  set (S' := if settled (nadd _ _) then S else _). set (B' := if settled (nsub _ _) then B else _).
  assert (Forall seller_ok S' ∧ Forall buyer_ok B' ∧
    (length S' + length B' < length (s :: S) + length (b :: B))%nat) as (HS' & HB' & Hlen).
  { unfold S', B'. destruct Hstep as [[-> [->|[Vd Pd]]]|(-> & Vd & Fd & Nd)].
    - split_and!; [done..|simpl; lia].
    - split; [done|]. destruct (settled (nsub _ _)); split; simpl; try done; try lia.
      by constructor.
    - split; [|split; [done|]]; destruct (settled (nadd _ _)); simpl; try done; try lia.
      by constructor. }
  assert ((d_symbol <$> S') ⊆ d_symbol <$> (s :: S)) as HsS.
  { unfold S'. destruct (settled (nadd _ _)); set_solver. }
  assert ((d_symbol <$> B') ⊆ d_symbol <$> (b :: B)) as HsB.
  { unfold B'. destruct (settled (nsub _ _)); set_solver. }
  destruct (IH S' B' HS' HB') as (l & -> & Hl & Hacts); [lia|].
  exists (act :: l). split; [done|]. split; [cbn [length] in *; lia|]. constructor.
  - split_and!; [by left..|done].
  - eapply Forall_impl; [exact Hacts|]. intros a. by apply action_between_mono.
Qed.

(** ** The allocations a service can hold *)

(** A JavaScript number that passes the guard of [setTargetAllocation]: NaN or one from
    0 to 100. *)
Definition pct_ok (x : num) : Prop := valid x = true ∧ SFltb x nzero = false ∧ SFltb (of_Z 100) x = false.

Definition targets_ok (s : Rebalancer) : Prop :=
  map_all (λ _, pct_ok) (targetAllocations s) ∧ cell_all (λ t, pct_ok (targetPercentage t)) (ls_targets s).

Lemma ok_save : preserves targets_ok saveTargetAllocations.
Proof.
  apply preserves_guarded. unfold write_json. apply preserves_this. intros s [Hm _].
  apply preserves_setItem. intros s' [Hm' _]. split; [done|]. cbn. unfold getAllTargets.
  by rewrite Forall_fmap.
Qed.

Lemma targets_ok_loaded (m : jsmap num) l :
  map_all (λ _, pct_ok) m → Forall (λ t, pct_ok (targetPercentage t)) l →
  map_all (λ _, pct_ok) (foldl (λ m a, map_set (t_symbol a) (targetPercentage a) m) m l).
Proof.
  revert m. induction l as [|t l IH]; intros m Hm Hl; simpl; [done|]. inversion Hl; subst.
  apply IH; [by apply map_all_set|done].
Qed.

Lemma ok_load : preserves targets_ok loadTargetAllocations.
Proof.
  apply preserves_guarded. intros [s e] [Hm Hc]. js_run.
  destruct (ls_targets s) as [[l|raw]|] eqn:E; cbn [truthy_cell]; [|case_bool_decide|]; try (by split).
  cbn [fst] in Hm, Hc. rewrite E in Hc. split; [by apply targets_ok_loaded|].
  change (cell_all (λ t, pct_ok (targetPercentage t)) (ls_targets s)). by rewrite E.
Qed.

Lemma ok_loadHistory : preserves targets_ok loadHistory.
Proof. apply preserves_guarded. js_preserve. Qed.

Lemma ok_setTarget sym pct : valid pct = true → preserves targets_ok (setTargetAllocation sym pct).
Proof.
  intros Hv. unfold setTargetAllocation. destruct (_ || _) eqn:E; [apply preserves_throw|].
  apply orb_false_iff in E as [E1 E2].
  apply preserves_bind; [|intros; apply ok_save]. apply preserves_modify. intros s [Hm Hc].
  split; [by apply map_all_set|done].
Qed.

Lemma ok_saveHistory : preserves targets_ok saveHistory.
Proof. apply preserves_guarded. unfold write_json. js_preserve. Qed.
#[local] Hint Resolve ok_saveHistory : js.

Lemma ok_execute assets acts : preserves targets_ok (executeRebalance assets acts).
Proof. unfold executeRebalance. js_preserve. Qed.

Lemma ok_history : preserves targets_ok getRebalanceHistory.
Proof. unfold getRebalanceHistory. js_preserve. Qed.

Lemma ok_clear : preserves targets_ok clearAllData.
Proof.
  unfold clearAllData. apply preserves_bind; [|intros; apply preserves_bind; [|intros]];
    apply preserves_modify; intros s [Hm Hc]; split; cbn; auto using map_all_nil.
Qed.

(** A service after construction and any run of its operations. *)
Inductive reachable : Rebalancer * Env → Prop :=
  | start ct ch e : cell_all (λ t, pct_ok (targetPercentage t)) ct →
      reachable (constructor (fresh ct ch, e)).2
  | set_target sym pct w : valid pct = true → reachable w → reachable (setTargetAllocation sym pct w).2
  | execute assets acts w : reachable w → reachable (executeRebalance assets acts w).2
  | history w : reachable w → reachable (getRebalanceHistory w).2
  | clear w : reachable w → reachable (clearAllData w).2.

Lemma reachable_ok w : reachable w → targets_ok w.1.
Proof.
  induction 1 as [ct ch e H|sym pct w Hv _ IH|assets acts w _ IH|w _ IH|w _ IH].
  - unfold constructor. js_run. apply preserves_when; [intros _|by split; [apply map_all_nil|]].
    apply preserves_bind; [apply ok_load|intros; apply ok_loadHistory].
  - by apply ok_setTarget.
  - by apply ok_execute.
  - by apply ok_history.
  - by apply ok_clear.
Qed.

Lemma target_of_ok s sym : targets_ok s → valid (target_of s sym) = true ∧ nonneg (target_of s sym) = true.
Proof.
  intros [Hm _]. unfold target_of. destruct (map_get _ _) as [x|] eqn:E; [|done].
  destruct (map_all_get _ _ _ _ Hm E) as (Hv & Hn & _). cbn [num_or].
  by destruct x as [?|[]| |[] ? ?].
Qed.

(** ** The transfers of a portfolio *)

Definition asset_ok (a : Asset) : Prop :=
  valid (value a) = true ∧ is_finite (value a) = true ∧ nonneg (value a) = true.

Lemma difference_ok target tv a :
  valid tv = true → nonneg tv = true → valid (target (symbol a)) = true →
  nonneg (target (symbol a)) = true → asset_ok a →
  let d := difference target tv a in
  valid (diff d) = true ∧ (SFltb (diff d) nzero = true → is_finite (diff d) = true).
Proof.
  intros Vt Nt Vp Np (Va & Fa & Na). cbv zeta. unfold difference. cbn [diff].
  set (x := ndiv _ _).
  assert (valid x = true) as Vx by (apply ndiv_valid; [by apply nmul_valid|apply of_Z_valid]).
  assert (nonneg x = true ∨ is_nan x = true) as Nx.
  { destruct (nmul_nonneg _ _ Nt Np) as [H|H]; [by apply ndiv_nonneg|]. right. unfold x.
    by destruct (nmul _ _). }
  split; [by apply nsub_valid|]. destruct Nx as [Nx|Nx]; [|by destruct x].
  destruct (is_finite x) eqn:Fx.
  - intros _. apply nsub_same_sign_finite; auto.
  - by destruct x as [?|[]| |[] ? ?], (value a) as [?|[]| |[] ? ?].
Qed.

Lemma signs_disjoint (l : list Difference) :
  (length (js_filter (λ d, SFltb (diff d) nzero) l) + length (js_filter (λ d, SFltb nzero (diff d)) l)
   <= length l)%nat.
Proof.
  unfold js_filter. induction l as [|d l IH]; simpl; [lia|].
  destruct (SFltb (diff d) nzero) eqn:E; [apply nltb_asym in E; rewrite E; simpl; lia|].
  destruct (SFltb nzero (diff d)); simpl; lia.
Qed.

(** The symbols of the assets whose difference satisfies [p]. *)
Definition symbols_with (p : num → bool) (target : string → num) (tv : num) (l : list Asset) : list string :=
  symbol <$> js_filter (λ a, p (diff (difference target tv a))) l.

Lemma symbols_of_filter p gt target tv l :
  d_symbol <$> js_sort gt (js_filter (λ d, p (diff d)) (difference target tv <$> l))
  ≡ₚ symbols_with p target tv l.
Proof.
  rewrite js_sort_perm, (js_filter_fmap _ _ (λ a, p (diff (difference target tv a)))) by done.
  by rewrite <- list_fmap_compose.
Qed.

Lemma rebalance_actions_end target l :
  (∀ sym, valid (target sym) = true ∧ nonneg (target sym) = true) → Forall asset_ok l →
  ∃ acts, rebalance_actions (length l) target l = Some acts ∧ (length acts <= length l)%nat ∧
    Forall (action_between
      (symbols_with (λ x, SFltb x nzero) target (sum_by value l) l)
      (symbols_with (λ x, SFltb nzero x) target (sum_by value l) l)) acts.
Proof.
  intros Ht Hl. unfold rebalance_actions. cbv zeta. set (tv := sum_by value l).
  destruct (SFeqb tv nzero); [exists []; split; [done|]; split; [cbn; lia|done]|].
  assert (valid tv = true ∧ nonneg tv = true) as [Vt Nt].
  { rewrite Forall_forall in Hl. split; [apply sum_by_valid|apply sum_by_nonneg]; intros a Ha;
      by destruct (Hl a Ha) as (?&?&?). }
  assert (Forall (λ d, valid (diff d) = true ∧ (SFltb (diff d) nzero = true → is_finite (diff d) = true))
    (difference target tv <$> l)) as Hd.
  { rewrite Forall_fmap. eapply Forall_impl; [exact Hl|]. intros a Ha. destruct (Ht (symbol a)).
    by apply difference_ok. }
  rewrite Forall_forall in Hd.
  pose proof (signs_disjoint (difference target tv <$> l)) as Hlen. rewrite length_fmap in Hlen.
  destruct (transfers_ends (length l) tv (sellers (difference target tv <$> l))
    (buyers (difference target tv <$> l))) as (acts & -> & Hacts & Hb).
  - apply Forall_forall. unfold sellers. intros d. rewrite elem_of_js_sort, elem_of_js_filter.
    intros [Hin Hneg]. destruct (Hd d Hin). split_and!; auto.
  - apply Forall_forall. unfold buyers. intros d. rewrite elem_of_js_sort, elem_of_js_filter.
    intros [Hin Hpos]. destruct (Hd d Hin). by split.
  - unfold sellers, buyers. by rewrite !js_sort_length.
  - exists acts. split; [done|]. split.
    { unfold sellers, buyers in Hacts. rewrite !js_sort_length in Hacts. lia. }
    eapply Forall_impl; [exact Hb|]. intros a. apply action_between_mono; intros x Hx.
    + by rewrite <- (symbols_of_filter (λ x, SFltb x nzero) (λ a b, SFltb nzero (nsub (diff a) (diff b)))).
    + by rewrite <- (symbols_of_filter (λ x, SFltb nzero x) (λ a b, SFltb nzero (nsub (diff b) (diff a)))).
Qed.

(** C11: From any state a service reaches and for any assets with finite values that are
    not negative, the loop of [calculateRebalanceActions] ends within one iteration for
    each asset: there are at most as many transfers as assets, each with a positive
    value, from an asset above its target to one below it. *)
Theorem rebalance_terminates w l : reachable w → Forall asset_ok l →
  let target := target_of w.1 in
  ∃ acts, calculateRebalanceActions l w = (Ok (Some acts), w) ∧ (length acts <= length l)%nat ∧
    Forall (action_between
      (symbols_with (λ x, SFltb x nzero) target (sum_by value l) l)
      (symbols_with (λ x, SFltb nzero x) target (sum_by value l) l)) acts.
Proof.
  intros Hw Hl. cbv zeta. apply reachable_ok in Hw.
  destruct (rebalance_actions_end (target_of w.1) l) as (acts & E & Hacts); [|done|].
  { intros sym. by apply target_of_ok. }
  exists acts. split; [|done]. unfold calculateRebalanceActions. js_run. by rewrite E.
Qed.

Definition demo_assets : list Asset :=
  [MkAsset "KC" (of_Z 70) (of_Z 70) (of_Z 70); MkAsset "savings" (of_Z 20) (of_Z 20) (of_Z 20);
   MkAsset "cold" (of_Z 10) (of_Z 10) (of_Z 10)].

Definition demo_world : Rebalancer * Env :=
  (setTargetAllocation "cold" (of_Z 40)
    (setTargetAllocation "savings" (of_Z 30)
      (setTargetAllocation "KC" (of_Z 30) (constructor (fresh None None, demo_env)).2).2).2).2.

Example demo_transfers :
  (λ a, (from a, to a, a_value a)) <$>
    default [] (rebalance_actions 3 (target_of demo_world.1) demo_assets) =
  [("KC", "cold", of_Z 30); ("KC", "savings", of_Z 10)].
Proof. vm_compute. reflexivity. Qed.

Lemma rebalance_terminates_witness :
  ∃ acts, calculateRebalanceActions demo_assets demo_world = (Ok (Some acts), demo_world) ∧
    (length acts <= 3)%nat.
Proof.
  destruct (rebalance_terminates demo_world demo_assets) as (acts & E & Hlen & _).
  - unfold demo_world. do 3 (apply set_target; [reflexivity|]). apply start. exact I.
  - repeat constructor.
  - exists acts. split; [exact E|exact Hlen].
Defined.
