(* ===== verification/Lightning.v ===== *)
(** * [LightningService] (apps/web/wallet/src/services/lightning.ts)

    Payment channels, invoices and payments. The service simulates the network with
    timers whose callbacks hold references to channel and payment objects, so objects
    live in a heap ([chan_heap], [pay_heap]): the maps and the pending timers refer to
    them by their place in it, and an object a timer holds may no longer be in a map. *)

From Stdlib Require Import Ascii String.
From S2P Require Import Prelude JsMap JsNumber JsString Store.

(** ** Data *)

Inductive ChannelState := opening | active | closing | closed.
#[export] Instance ChannelState_eq_dec : EqDecision ChannelState.
Proof. solve_decision. Defined.

Record LightningChannel := MkChannel {
  id : string;
  nodeId : string;
  nodeName : string;
  capacity : num;
  localBalance : num;
  remoteBalance : num;
  state : ChannelState;
  createdAt : Z;
  closedAt : option Z;
  fee : num;
}.

Record LightningInvoice := MkInvoice {
  i_id : string;
  paymentRequest : string;
  i_amount : num;
  description : string;
  i_createdAt : Z;
  expiresAt : num;
  paid : bool;
  paidAt : option Z;
}.

Inductive PaymentStatus := pending | succeeded | failed.
#[export] Instance PaymentStatus_eq_dec : EqDecision PaymentStatus.
Proof. solve_decision. Defined.

Record LightningPayment := MkPayment {
  p_id : string;
  invoice : string;
  amount : num;
  p_fee : num;
  destination : string;
  status : PaymentStatus;
  p_createdAt : Z;
  completedAt : option Z;
  failureReason : option string;
}.

(** What is pending in the host: the second halves of [openChannel] and [closeChannel],
    the callback that activates a channel and the one that settles a payment. *)
Inductive Timer :=
  | FinishOpen (node name : string) (cap local : num)
  | Activate (c : nat)
  | FinishClose (c : nat)
  | Settle (p : nat).

Record Lightning := MkLightning {
  enabled : bool;
  chan_heap : list LightningChannel;
  pay_heap : list LightningPayment;
  channels : jsmap nat;
  invoices : jsmap LightningInvoice;
  payments : jsmap nat;
  timers : list Timer;
  ls_channels : cell (list LightningChannel);
  ls_invoices : cell (list LightningInvoice);
  ls_payments : cell (list LightningPayment);
}.

Definition set_chan_heap h s := MkLightning (enabled s) h (pay_heap s) (channels s) (invoices s)
  (payments s) (timers s) (ls_channels s) (ls_invoices s) (ls_payments s).
Definition set_pay_heap h s := MkLightning (enabled s) (chan_heap s) h (channels s) (invoices s)
  (payments s) (timers s) (ls_channels s) (ls_invoices s) (ls_payments s).
Definition set_channels m s := MkLightning (enabled s) (chan_heap s) (pay_heap s) m (invoices s)
  (payments s) (timers s) (ls_channels s) (ls_invoices s) (ls_payments s).
Definition set_invoices m s := MkLightning (enabled s) (chan_heap s) (pay_heap s) (channels s) m
  (payments s) (timers s) (ls_channels s) (ls_invoices s) (ls_payments s).
Definition set_payments m s := MkLightning (enabled s) (chan_heap s) (pay_heap s) (channels s)
  (invoices s) m (timers s) (ls_channels s) (ls_invoices s) (ls_payments s).
Definition set_timers t s := MkLightning (enabled s) (chan_heap s) (pay_heap s) (channels s)
  (invoices s) (payments s) t (ls_channels s) (ls_invoices s) (ls_payments s).
Definition set_ls_channels c s := MkLightning (enabled s) (chan_heap s) (pay_heap s) (channels s)
  (invoices s) (payments s) (timers s) c (ls_invoices s) (ls_payments s).
Definition set_ls_invoices c s := MkLightning (enabled s) (chan_heap s) (pay_heap s) (channels s)
  (invoices s) (payments s) (timers s) (ls_channels s) c (ls_payments s).
Definition set_ls_payments c s := MkLightning (enabled s) (chan_heap s) (pay_heap s) (channels s)
  (invoices s) (payments s) (timers s) (ls_channels s) (ls_invoices s) c.

Abbreviation M := (js (Lightning * Env)).

Definition fresh (en : bool) cc ci cp : Lightning := MkLightning en [] [] [] [] [] [] cc ci cp.

(** [Array.from(map.values())] *)
Definition all_channels (s : Lightning) : list LightningChannel :=
  omap (λ i, chan_heap s !! i) (map_values (channels s)).
Definition all_payments (s : Lightning) : list LightningPayment :=
  omap (λ i, pay_heap s !! i) (map_values (payments s)).

(** A new object, entered in the map under its id. *)
Definition put_channel (c : LightningChannel) (s : Lightning) : Lightning :=
  set_channels (map_set (id c) (length (chan_heap s)) (channels s)) (set_chan_heap (chan_heap s ++ [c]) s).
Definition put_payment (p : LightningPayment) (s : Lightning) : Lightning :=
  set_payments (map_set (p_id p) (length (pay_heap s)) (payments s)) (set_pay_heap (pay_heap s ++ [p]) s).

(** [setTimeout] *)
Definition schedule (t : Timer) : M () := modify_this (λ s, set_timers (timers s ++ [t]) s).

(** ** Storage *)

Definition loadChannels : M () :=
  guarded (
    s ← this;
    match truthy_cell (ls_channels s) with
    | Some t => l ← JSON_parse t; modify_this (λ s, foldl (λ s c, put_channel c s) s l)
    | None => mret ()
    end).
Definition saveChannels : M () := guarded (write_json set_ls_channels all_channels).

Definition loadInvoices : M () :=
  guarded (
    s ← this;
    match truthy_cell (ls_invoices s) with
    | Some t => l ← JSON_parse t; modify_this (λ s, set_invoices (map_set_all i_id (invoices s) l) s)
    | None => mret ()
    end).
Definition saveInvoices : M () := guarded (write_json set_ls_invoices (λ s, map_values (invoices s))).

Definition loadPayments : M () :=
  guarded (
    s ← this;
    match truthy_cell (ls_payments s) with
    | Some t => l ← JSON_parse t; modify_this (λ s, foldl (λ s p, put_payment p s) s l)
    | None => mret ()
    end).
Definition savePayments : M () := guarded (write_json set_ls_payments all_payments).

Definition constructor : M () :=
  b ← is_browser;
  s ← this;
  js_when (b && enabled s) (loadChannels;; loadInvoices;; loadPayments).

(** [if (!this.enabled) throw new Error('Lightning API not configured')] *)
Definition when_enabled {A} (m : M A) : M A :=
  s ← this;
  if enabled s then m else js_throw "Lightning API not configured".

(** ** Channels *)

Definition openChannel (node name : string) (cap local : num) : M () :=
  when_enabled (schedule (FinishOpen node name cap local)).

Definition openChannel_resume (node name : string) (cap local : num) : M LightningChannel :=
  t0 ← date_now;
  r ← random36;
  t1 ← date_now;
  let channel := MkChannel ("chan_" +:+ pretty t0 +:+ "_" +:+ r) node name cap local nzero opening t1 None
    (nmul cap (lit 1 3)) in
  s ← this;
  modify_this (put_channel channel);;
  saveChannels;;
  schedule (Activate (length (chan_heap s)));;
  mret channel.

Definition set_state (st : ChannelState) (c : LightningChannel) : LightningChannel :=
  MkChannel (id c) (nodeId c) (nodeName c) (capacity c) (localBalance c) (remoteBalance c) st
    (createdAt c) (closedAt c) (fee c).
Definition set_closedAt (t : Z) (c : LightningChannel) : LightningChannel :=
  MkChannel (id c) (nodeId c) (nodeName c) (capacity c) (localBalance c) (remoteBalance c) (state c)
    (createdAt c) (Some t) (fee c).

Definition write_channel (i : nat) (f : LightningChannel → LightningChannel) : M () :=
  modify_this (λ s, set_chan_heap (alter f i (chan_heap s)) s).

Definition activate (i : nat) : M () :=
  write_channel i (set_state active);;
  saveChannels.

(** The first half answers [false] for an unknown channel; otherwise the second half
    answers [true]. *)
Definition closeChannel (channelId : string) : M (option bool) :=
  when_enabled (
    s ← this;
    match map_get channelId (channels s) with
    | None => mret (Some false)
    | Some i =>
        write_channel i (set_state closing);;
        saveChannels;;
        schedule (FinishClose i);;
        mret None
    end).

Definition closeChannel_resume (i : nat) : M bool :=
  write_channel i (set_state closed);;
  t ← date_now;
  write_channel i (set_closedAt t);;
  saveChannels;;
  mret true.

Definition getChannel (channelId : string) : M (option LightningChannel) :=
  s ← this; mret (map_get channelId (channels s) ≫= λ i, chan_heap s !! i).

Definition getAllChannels : M (list LightningChannel) :=
  s ← this;
  mret (if enabled s then js_sort (λ a b, createdAt a <? createdAt b) (all_channels s) else []).

Definition getActiveChannels : M (list LightningChannel) :=
  l ← getAllChannels; mret (js_filter (λ c, bool_decide (state c = active)) l).
Definition getTotalLightningBalance : M num := l ← getActiveChannels; mret (sum_by localBalance l).
Definition getTotalChannelCapacity : M num := l ← getActiveChannels; mret (sum_by capacity l).

(** ** Invoices *)

(** [`lnkc${Math.round(amount * 100000000 * 1000)}${random}`] *)
Definition payment_request (amt : num) (random : string) : string :=
  "lnkc" +:+ num_to_string (nround (nmul (nmul amt (of_Z 100000000)) (of_Z 1000))) +:+ random.

Definition generatePaymentRequest (amt : num) : M string :=
  r ← random36; mret (payment_request amt r).

Definition createInvoice (amt : num) (desc : string) (expiryMinutes : num) : M LightningInvoice :=
  when_enabled (
    t0 ← date_now;
    r ← random36;
    req ← generatePaymentRequest amt;
    t1 ← date_now;
    t2 ← date_now;
    let inv := MkInvoice ("inv_" +:+ pretty t0 +:+ "_" +:+ r) req amt desc t1
      (nadd (of_Z t2) (nmul (nmul expiryMinutes (of_Z 60)) (of_Z 1000))) false None in
    modify_this (λ s, set_invoices (map_set (i_id inv) inv (invoices s)) s);;
    saveInvoices;;
    mret inv).

Definition getInvoice (invoiceId : string) : M (option LightningInvoice) :=
  s ← this; mret (map_get invoiceId (invoices s)).

Definition getAllInvoices : M (list LightningInvoice) :=
  s ← this;
  mret (if enabled s then js_sort (λ a b, i_createdAt a <? i_createdAt b) (map_values (invoices s)) else []).

Definition getPendingInvoices : M (list LightningInvoice) :=
  t ← date_now;
  l ← getAllInvoices;
  mret (js_filter (λ i, negb (paid i) && SFltb (of_Z t) (expiresAt i)) l).

Definition mark_paid (t : Z) (i : LightningInvoice) : LightningInvoice :=
  MkInvoice (i_id i) (paymentRequest i) (i_amount i) (description i) (i_createdAt i) (expiresAt i)
    true (Some t).

Definition markInvoicePaid (invoiceId : string) : M bool :=
  when_enabled (
    s ← this;
    match map_get invoiceId (invoices s) with
    | None => mret false
    | Some _ =>
        t ← date_now;
        modify_this (λ s, set_invoices (map_update invoiceId (mark_paid t) (invoices s)) s);;
        saveInvoices;;
        mret true
    end).

(** ** Payments *)

Fixpoint take_digits (s : string) : string :=
  match s with
  | String c s' => if is_digit c then String c (take_digits s') else ""
  | EmptyString => ""
  end.

(** [request.match(/\d+/)]: the first run of digits. *)
Fixpoint first_number (s : string) : option string :=
  match s with
  | EmptyString => None
  | String c s' => if is_digit c then Some (take_digits s) else first_number s'
  end.

Definition parsePaymentRequest (request : string) : num :=
  match first_number request with
  | Some ds => ndiv (ndiv (of_Z (default 0 (index_value 0 ds))) (of_Z 100000000)) (of_Z 1000)
  | None => nzero
  end.

Definition payInvoice (req : string) : M LightningPayment :=
  when_enabled (
    let amt := parsePaymentRequest req in
    t0 ← date_now;
    r ← random36;
    t1 ← date_now;
    let payment := MkPayment ("pay_" +:+ pretty t0 +:+ "_" +:+ r) req amt (nmul amt (lit 1 3)) "Unknown"
      pending t1 None None in
    s ← this;
    modify_this (put_payment payment);;
    savePayments;;
    schedule (Settle (length (pay_heap s)));;
    mret payment).

Definition settle (ok : bool) (t : Z) (p : LightningPayment) : LightningPayment :=
  MkPayment (p_id p) (invoice p) (amount p) (p_fee p) (destination p)
    (if ok then succeeded else failed) (p_createdAt p) (Some t)
    (if ok then failureReason p else Some "No route found").

Definition getPayment (paymentId : string) : M (option LightningPayment) :=
  s ← this; mret (map_get paymentId (payments s) ≫= λ i, pay_heap s !! i).

Definition getAllPayments : M (list LightningPayment) :=
  s ← this;
  mret (if enabled s then js_sort (λ a b, p_createdAt a <? p_createdAt b) (all_payments s) else []).

Definition getSuccessfulPayments : M (list LightningPayment) :=
  l ← getAllPayments; mret (js_filter (λ p, bool_decide (status p = succeeded)) l).

(** ** Statistics *)

Record Statistics := MkStatistics {
  channelCount : nat;
  totalCapacity : num;
  totalBalance : num;
  utilizationPercent : num;
  paymentCount : nat;
  totalPaymentVolume : num;
  totalFeesPaid : num;
  averageFee : num;
}.

Definition getStatistics : M Statistics :=
  activeChannels ← getActiveChannels;
  totalCap ← getTotalChannelCapacity;
  totalBal ← getTotalLightningBalance;
  successful ← getSuccessfulPayments;
  let fees := sum_by p_fee successful in
  mret (MkStatistics (length activeChannels) totalCap totalBal
    (if SFltb nzero totalCap then nmul (ndiv totalBal totalCap) (of_Z 100) else nzero)
    (length successful) (sum_by amount successful) fees
    (if (0 <? length successful)%nat then ndiv fees (of_Z (Z.of_nat (length successful))) else nzero)).

Definition clearAllData : M () :=
  modify_this (λ s, set_payments [] (set_invoices [] (set_channels [] s)));;
  ls_removeItem (set_ls_channels None);;
  ls_removeItem (set_ls_invoices None);;
  ls_removeItem (set_ls_payments None).

(** ** Timers *)

Section Random.
(** Is the [n]-th number drawn above 0.1? *)
Context (above : nat → bool).

Definition payInvoice_settle (i : nat) : M () := λ w,
  (random36;;
   t ← date_now;
   modify_this (λ s, set_pay_heap (alter (settle (above (draws w.2)) t) i (pay_heap s)) s);;
   savePayments) w.

Definition run_timer (t : Timer) : M () :=
  match t with
  | FinishOpen node name cap local => openChannel_resume node name cap local;; mret ()
  | Activate i => activate i
  | FinishClose i => closeChannel_resume i;; mret ()
  | Settle i => payInvoice_settle i
  end.

(** The host takes a pending continuation and runs it. *)
Definition fire (n : nat) (t : Timer) (w : Lightning * Env) : Lightning * Env :=
  (run_timer t (set_timers (delete n (timers w.1)) w.1, w.2)).2.

Definition fires (w w' : Lightning * Env) : Prop :=
  ∃ n t, timers w.1 !! n = Some t ∧ w' = fire n t w.
End Random.

(** * Theorems *)

Local Open Scope stdpp_scope.

(** ** What waits has a timer *)

Record cov (ch : list LightningChannel) (ph : list LightningPayment) (ts : list Timer) : Prop := {
  cov_pending : ∀ i p, ph !! i = Some p → status p = pending → Settle i ∈ ts;
  cov_opening : ∀ i c, ch !! i = Some c → state c = opening → Activate i ∈ ts;
  cov_closing : ∀ i c, ch !! i = Some c → state c = closing → FinishClose i ∈ ts;
}.

Definition covered (s : Lightning) : Prop := cov (chan_heap s) (pay_heap s) (timers s).

Lemma elem_of_delete_other {A} (l : list A) n t x : l !! n = Some t → x ∈ l → x ≠ t → x ∈ delete n l.
Proof. intros Hn Hx Hne. rewrite (delete_Permutation l n t Hn), elem_of_cons in Hx. by destruct Hx. Qed.

Lemma cov_more ch ph ts t : cov ch ph ts → cov ch ph (ts ++ [t]).
Proof. intros []. split; intros; apply elem_of_app; left; eauto. Qed.

Lemma cov_new_channel ch ph ts c : cov ch ph ts → state c = opening →
  cov (ch ++ [c]) ph (ts ++ [Activate (length ch)]).
Proof.
  intros [Hp Ho Hc] Hs. split; [intros; apply elem_of_app; left; by eapply Hp|..];
    intros i c' [Hi|[Hi Hi']]%lookup_app_Some Hs'; apply elem_of_app; try (left; by eauto).
  - right. apply list_lookup_singleton_Some in Hi' as [Hz ->]. apply list_elem_of_singleton.
    f_equal. lia.
  - apply list_lookup_singleton_Some in Hi' as [_ <-]. congruence.
Qed.

Lemma cov_new_payment ch ph ts p : cov ch ph ts → cov ch (ph ++ [p]) (ts ++ [Settle (length ph)]).
Proof.
  intros [Hp Ho Hc]. split; try (intros; apply elem_of_app; left; by eauto).
  intros i p' [Hi|[Hi Hi']]%lookup_app_Some Hs'; apply elem_of_app; [left; by eauto|right].
  apply list_lookup_singleton_Some in Hi' as [Hz ->]. apply list_elem_of_singleton. f_equal. lia.
Qed.

(** A loaded object that does not wait needs no timer. *)
Lemma cov_old_payment ch ph ts p : status p ≠ pending → cov ch ph ts → cov ch (ph ++ [p]) ts.
Proof.
  intros Hne [Hp Ho Hc]. split; eauto.
  intros i p' [Hi|[Hi Hi']]%lookup_app_Some Hs'; [by eauto|].
  by apply list_lookup_singleton_Some in Hi' as [_ <-].
Qed.

Lemma cov_old_channel ch ph ts c : state c ≠ opening → state c ≠ closing →
  cov ch ph ts → cov (ch ++ [c]) ph ts.
Proof.
  intros Hno Hnc [Hp Ho Hc]. split; eauto;
    intros i c' [Hi|[Hi Hi']]%lookup_app_Some Hs'; eauto;
    by apply list_lookup_singleton_Some in Hi' as [_ <-].
Qed.

Lemma alter_lookup_cases {A} (f : A → A) i (l : list A) j x :
  alter f i l !! j = Some x → (j = i ∧ ∃ y, x = f y) ∨ (j ≠ i ∧ l !! j = Some x).
Proof.
  destruct (decide (i = j)) as [->|Hne].
  - rewrite list_lookup_alter_eq. destruct (l !! j) as [y|]; intros [= <-]. eauto.
  - rewrite list_lookup_alter_ne by done. eauto.
Qed.

Lemma alter_alter {A} (f g : A → A) i (l : list A) : alter f i (alter g i l) = alter (λ x, f (g x)) i l.
Proof. revert i. induction l as [|x l IH]; intros [|i]; try done. cbn. f_equal. apply IH. Qed.

Lemma cov_closing_channel ch ph ts i : cov ch ph ts →
  cov (alter (set_state closing) i ch) ph (ts ++ [FinishClose i]).
Proof.
  intros [Hp Ho Hc]. split; [intros; apply elem_of_app; left; by eauto|..];
    intros j c [(-> & y & ->)|[Hne Hj]]%alter_lookup_cases Hs; try done; apply elem_of_app; eauto.
  right. by apply list_elem_of_singleton.
Qed.

(** The three callbacks leave what their own timer covered in a final state. *)
Lemma cov_settle ch ph ts n i f : cov ch ph ts → ts !! n = Some (Settle i) →
  (∀ p, status (f p) ≠ pending) → cov ch (alter f i ph) (delete n ts).
Proof.
  intros [Hp Ho Hc] Hn Hf. split; [|intros; eapply elem_of_delete_other; by eauto..].
  intros j p [(-> & y & ->)|[Hne Hj]]%alter_lookup_cases Hs; [by destruct (Hf y)|].
  eapply elem_of_delete_other; [done|by eauto|congruence].
Qed.

Lemma cov_channel_done ch ph ts n i f : cov ch ph ts →
  ts !! n = Some (Activate i) ∨ ts !! n = Some (FinishClose i) →
  (∀ c, state (f c) ≠ opening ∧ state (f c) ≠ closing) → cov (alter f i ch) ph (delete n ts).
Proof.
  intros [Hp Ho Hc] Hn Hf.
  split; intros j x Hj Hs; [destruct Hn; eapply elem_of_delete_other; by eauto|..];
    apply alter_lookup_cases in Hj as [(-> & y & ->)|[Hne Hj]]; try (by destruct (Hf y));
    destruct Hn; (eapply elem_of_delete_other; [done|by eauto|congruence]).
Qed.

Lemma cov_finish_open ch ph ts n a b c d : cov ch ph ts → ts !! n = Some (FinishOpen a b c d) →
  cov ch ph (delete n ts).
Proof. intros [Hp Ho Hc] Hn. split; intros; (eapply elem_of_delete_other; [done|by eauto|done]). Qed.

(** ** Runs *)

(** Saving touches neither objects nor timers. *)
Definition core (s : Lightning) := (chan_heap s, pay_heap s, timers s).

Lemma written_core {A} (set : cell A → Lightning → Lightning) v e s :
  (∀ c s, core (set c s) = core s) → core (written set v e s) = core s.
Proof. intros H. unfold written. by destruct (_ && _). Qed.

Lemma saved_channels e s : core (written set_ls_channels all_channels e s) = core s.
Proof. by apply written_core. Qed.
Lemma saved_payments e s : core (written set_ls_payments all_payments e s) = core s.
Proof. by apply written_core. Qed.
Lemma saved_invoices e s : core (written set_ls_invoices (λ s, map_values (invoices s)) e s) = core s.
Proof. by apply written_core. Qed.

Definition weight_of (t : Timer) : nat := match t with FinishOpen _ _ _ _ => 2 | _ => 1 end.
Definition weight_list (ts : list Timer) : nat := foldr (λ t n, weight_of t + n)%nat 0%nat ts.
Definition weight (w : Lightning * Env) : nat := weight_list (timers w.1).

Lemma weight_app ts ts' : weight_list (ts ++ ts') = (weight_list ts + weight_list ts')%nat.
Proof. induction ts as [|t ts IH]; simpl; [done|]. rewrite IH. lia. Qed.

Lemma weight_delete ts n t : ts !! n = Some t → weight_list ts = (weight_of t + weight_list (delete n ts))%nat.
Proof.
  revert n. induction ts as [|t' ts IH]; intros [|n]; simpl; intros H; simplify_eq; [done|].
  rewrite (IH n H). lia.
Qed.

Lemma left_covered s ch ph ts n : core s = (ch, ph, ts) → cov ch ph ts → (weight_list ts < n)%nat →
  covered s ∧ (weight_list (timers s) < n)%nat.
Proof. unfold core, covered. by intros [= -> -> ->]. Qed.

Section Fire.
Context (above : nat → bool).

(** What firing a timer leaves, in heap and timers. *)
Lemma fire_core n t s e : timers s !! n = Some t → covered s →
  let s' := (fire above n t (s, e)).1 in
  covered s' ∧ (weight_list (timers s') < weight_list (timers s))%nat.
Proof.
  intros Hn Hs. cbv zeta. rewrite (weight_delete _ _ _ Hn).
  unfold fire. destruct t as [node name cap local|i|i|i]; cbn [run_timer fst].
  - unfold openChannel_resume, saveChannels, schedule. js_run. rewrite guarded_write_bind. js_run.
    cbn [fst snd mret js_ret].
    match goal with |- context [written ?a ?b ?c ?d] => pose proof (saved_channels c d) as E end.
    cbn in E |- *. injection E as E1 E2 E3. unfold covered. cbn. rewrite E1, E2, E3.
    split; [|rewrite weight_app; simpl; lia].
    apply cov_new_channel; [|done]. by eapply cov_finish_open.
  - unfold activate, write_channel, saveChannels. js_run. rewrite guarded_write_run. cbn [fst snd].
    eapply left_covered; [apply saved_channels| |apply Nat.lt_succ_diag_r].
    eapply cov_channel_done; [exact Hs|left; exact Hn|done].
  - unfold closeChannel_resume, write_channel, saveChannels. js_run. rewrite guarded_write_bind. cbn [fst snd].
    eapply left_covered; [apply saved_channels| |apply Nat.lt_succ_diag_r].
    cbn. rewrite alter_alter. eapply cov_channel_done; [exact Hs|right; exact Hn|done].
  - unfold payInvoice_settle, savePayments. js_run. rewrite guarded_write_run. cbn [fst snd].
    eapply left_covered; [apply saved_payments| |apply Nat.lt_succ_diag_r].
    eapply cov_settle; [exact Hs|exact Hn|]. intros p. cbn. by destruct (above _).
Qed.
End Fire.

(** ** The operations *)

#[local] Hint Extern 1 (covered _) => assumption : js.

Lemma covered_saveChannels : preserves covered saveChannels.
Proof. apply preserves_guarded_write. intros c s H. exact H. Qed.
Lemma covered_saveInvoices : preserves covered saveInvoices.
Proof. apply preserves_guarded_write. intros c s H. exact H. Qed.
Lemma covered_savePayments : preserves covered savePayments.
Proof. apply preserves_guarded_write. intros c s H. exact H. Qed.
#[local] Hint Resolve covered_saveChannels covered_saveInvoices covered_savePayments : js.

Lemma covered_enabled {A} (m : M A) : preserves covered m → preserves covered (when_enabled m).
Proof. intros Hm. unfold when_enabled. js_preserve. Qed.

Lemma covered_openChannel a b c d : preserves covered (openChannel a b c d).
Proof. apply covered_enabled, preserves_modify. intros s. apply cov_more. Qed.

Lemma covered_closeChannel cid : preserves covered (closeChannel cid).
Proof.
  apply covered_enabled, preserves_this. intros s _. destruct (map_get cid (channels s)) as [i|]; [|js_preserve].
  intros [s' e] Hs. unfold write_channel, saveChannels, schedule. js_run. rewrite guarded_write_bind. js_run.
  cbn [fst snd mret js_ret].
  match goal with |- context [written ?a ?b ?c ?d] => pose proof (saved_channels c d) as E end.
  cbn in E |- *. injection E as E1 E2 E3. unfold covered. cbn. rewrite E1, E2, E3.
  by apply cov_closing_channel.
Qed.

Lemma covered_createInvoice a d m : preserves covered (createInvoice a d m).
Proof. apply covered_enabled. unfold generatePaymentRequest. js_preserve. Qed.

Lemma covered_markInvoicePaid i : preserves covered (markInvoicePaid i).
Proof. apply covered_enabled. js_preserve. Qed.

Lemma covered_payInvoice req : preserves covered (payInvoice req).
Proof.
  apply covered_enabled. intros [s e] Hs. unfold savePayments, schedule. js_run.
  rewrite guarded_write_bind. js_run. cbn [fst snd mret js_ret].
  match goal with |- context [written ?a ?b ?c ?d] => pose proof (saved_payments c d) as E end.
  cbn in E |- *. injection E as E1 E2 E3. unfold covered. cbn. rewrite E1, E2, E3.
  by apply cov_new_payment.
Qed.

Lemma covered_clear : preserves covered clearAllData.
Proof. unfold clearAllData. js_preserve. Qed.

(** Storage in which nothing waits. *)
Definition channel_final (c : LightningChannel) : Prop := state c ≠ opening ∧ state c ≠ closing.
Definition payment_final (p : LightningPayment) : Prop := status p ≠ pending.

Definition loads (s : Lightning) : Prop :=
  covered s ∧ cell_all channel_final (ls_channels s) ∧ cell_all payment_final (ls_payments s).

Lemma loads_put_channels l s : Forall channel_final l → loads s → loads (foldl (λ s c, put_channel c s) s l).
Proof.
  intros Hl. revert s. induction Hl as [|c l [Ho Hc] _ IH]; intros s Hs; simpl; [done|].
  apply IH. destruct Hs as (Hs & ?). split; [by apply cov_old_channel|done].
Qed.

Lemma loads_put_payments l s : Forall payment_final l → loads s → loads (foldl (λ s p, put_payment p s) s l).
Proof.
  intros Hl. revert s. induction Hl as [|p l Hp _ IH]; intros s Hs; simpl; [done|].
  apply IH. destruct Hs as (Hs & ?). split; [by apply cov_old_payment|done].
Qed.

Lemma loads_channels : preserves loads loadChannels.
Proof.
  apply preserves_guarded. intros [s e] Hs. js_run. cbn [fst] in *.
  destruct (ls_channels s) as [[l|raw]|] eqn:E; cbn [truthy_cell]; [|case_bool_decide|]; try done.
  apply loads_put_channels; [|done]. destruct Hs as (_ & Hc & _). by rewrite E in Hc.
Qed.

Lemma loads_payments : preserves loads loadPayments.
Proof.
  apply preserves_guarded. intros [s e] Hs. js_run. cbn [fst] in *.
  destruct (ls_payments s) as [[l|raw]|] eqn:E; cbn [truthy_cell]; [|case_bool_decide|]; try done.
  apply loads_put_payments; [|done]. destruct Hs as (_ & _ & Hp). by rewrite E in Hp.
Qed.

Lemma loads_invoices : preserves loads loadInvoices.
Proof. apply preserves_guarded. js_preserve. Qed.

Lemma covered_constructor en cc ci cp e : cell_all channel_final cc → cell_all payment_final cp →
  covered (constructor (fresh en cc ci cp, e)).2.1.
Proof.
  intros Hc Hp. assert (preserves loads constructor) as H.
  { unfold constructor. apply preserves_bind; [apply preserves_is_browser|]. intros b.
    apply preserves_this. intros s Hs. apply preserves_when. intros _.
    apply preserves_bind; [apply loads_channels|intros _].
    apply preserves_bind; [apply loads_invoices|intros _; apply loads_payments]. }
  apply (H (fresh en cc ci cp, e)). split; [by split|by split].
Qed.

(** The operations a page can call, and the firing of timers. *)
Inductive operation :=
  | OpOpen (node name : string) (cap local : num)
  | OpClose (cid : string)
  | OpInvoice (amt : num) (desc : string) (mins : num)
  | OpMarkPaid (i : string)
  | OpPay (req : string)
  | OpClear.

Definition exec (o : operation) : M () :=
  match o with
  | OpOpen a b c d => openChannel a b c d
  | OpClose c => closeChannel c;; mret ()
  | OpInvoice a d m => createInvoice a d m;; mret ()
  | OpMarkPaid i => markInvoicePaid i;; mret ()
  | OpPay r => payInvoice r;; mret ()
  | OpClear => clearAllData
  end.

#[local] Hint Resolve covered_openChannel covered_closeChannel covered_createInvoice covered_markInvoicePaid
  covered_payInvoice covered_clear : js.

Lemma covered_exec o : preserves covered (exec o).
Proof. destruct o; unfold exec; js_preserve. Qed.

Section Reach.
Context (above : nat → bool).

Inductive reachable : Lightning * Env → Prop :=
  | start en cc ci cp e : cell_all channel_final cc → cell_all payment_final cp →
      reachable (constructor (fresh en cc ci cp, e)).2
  | operate o w : reachable w → reachable (exec o w).2
  | timer w w' : reachable w → fires above w w' → reachable w'.

Lemma reachable_covered w : reachable w → covered w.1.
Proof.
  induction 1 as [en cc ci cp e Hc Hp|o w _ IH|w w' _ IH (n & t & Hn & ->)].
  - by apply covered_constructor.
  - by apply covered_exec.
  - destruct w as [s e]. by apply fire_core.
Qed.

(** Nothing waits. *)
Definition at_rest (w : Lightning * Env) : Prop :=
  timers w.1 = [] ∧
  Forall (λ p, status p = succeeded ∨ status p = failed) (all_payments w.1) ∧
  Forall (λ c, state c = active ∨ state c = closed) (all_channels w.1).

Lemma no_timers_at_rest w : covered w.1 → timers w.1 = [] → at_rest w.
Proof.
  intros [Hp Ho Hc] Ht. rewrite Ht in *. split_and!; [done|..]; apply Forall_forall; intros x
    (i & _ & Hi)%list_elem_of_omap.
  - specialize (Hp i x Hi). destruct (status x); auto. exfalso. by eapply not_elem_of_nil, Hp.
  - specialize (Ho i x Hi). specialize (Hc i x Hi). destruct (state x); auto; exfalso;
      [by eapply not_elem_of_nil, Ho|by eapply not_elem_of_nil, Hc].
Qed.

(** ** Runs of timers

    Firing a pending timer is a step of its own; the order in which the host fires them is not fixed by the code.
    [inevitably] is what holds, sooner or later, whichever timer fires next. *)

Section Inevitably.
Context {W : Type} (fires : W → W → Prop).

(** Every run of firings from [w] meets [P], and no run stops before. *)
Inductive inevitably (P : W → Prop) (w : W) : Prop :=
  | now : P w → inevitably P w
  | later : (∃ w', fires w w') → (∀ w', fires w w' → inevitably P w') → inevitably P w.

(** Runs that end, because a measure decreases, meet what holds where they end. *)
Lemma inevitably_at_end (I P : W → Prop) (weight : W → nat) :
  (∀ w w', I w → fires w w' → I w' ∧ (weight w' < weight w)%nat) →
  (∀ w, I w → P w ∨ ∃ w', fires w w') →
  ∀ w, I w → inevitably P w.
Proof.
  intros Hstep Hend w. remember (weight w) as n eqn:Hn. revert w Hn.
  induction (lt_wf n) as [n _ IH]. intros w -> Hw.
  destruct (Hend w Hw) as [HP|Hfire]; [by apply now|]. apply later; [done|].
  intros w' Hw'. destruct (Hstep w w' Hw Hw') as [HI Hlt]. by apply (IH (weight w')).
Qed.

Lemma inevitably_mono (P Q : W → Prop) w : (∀ w, P w → Q w) → inevitably P w → inevitably Q w.
Proof. intros HPQ. induction 1; [by apply now, HPQ|by apply later]. Qed.
End Inevitably.

(** C12: From every state the service reaches over a storage in which nothing waits, and
    in whichever order the host fires the pending timers, all timers have run after
    finitely many firings, every payment has succeeded or failed and every channel is
    active or closed. *)
Theorem payments_and_channels_settle w : reachable w → inevitably (fires above) at_rest w.
Proof.
  intros Hw%reachable_covered.
  apply (inevitably_at_end (fires above) (λ w, covered w.1) at_rest weight); [|..|done].
  - intros [s e] w' Hs (n & t & Hn & ->). by apply fire_core.
  - intros w0 Hs. destruct (timers w0.1) as [|t ts] eqn:E; [left; by apply no_timers_at_rest|].
    right. exists (fire above 0 t w0), 0%nat, t. by rewrite E.
Qed.
End Reach.

Definition demo_ops : Lightning * Env :=
  (exec (OpPay "lnkc100000000000abc") (exec (OpOpen "02ab" "Alice" (of_Z 5) (of_Z 1))
    (constructor (fresh true None None None, demo_env)).2).2).2.

Lemma payments_and_channels_settle_witness :
  timers demo_ops.1 = [FinishOpen "02ab" "Alice" (of_Z 5) (of_Z 1); Settle 0] ∧
  inevitably (fires (λ _, true)) at_rest demo_ops.
Proof.
  split; [reflexivity|]. apply payments_and_channels_settle. apply operate, operate.
  exact (start (λ _, true) true None None None demo_env I I).
Defined.

(** ** Defects *)

(** A channel that is opened, closed within three seconds of the opening, and then
    activated by the callback that the opening left pending: the callback does not look
    at the state. *)
Definition alice : Timer := FinishOpen "02ab" "Alice" (of_Z 5) (of_Z 1).
Definition run_opened := (exec (OpOpen "02ab" "Alice" (of_Z 5) (of_Z 1))
  (constructor (fresh true None None None, demo_env)).2).2.
Definition run_opening := fire (λ _, true) 0 alice run_opened.
Definition run_closing := (exec (OpClose "chan_1700000000000_ra") run_opening).2.
Definition run_closed := fire (λ _, true) 1 (FinishClose 0) run_closing.
Definition run_reopened := fire (λ _, true) 0 (Activate 0) run_closed.

Lemma reachable_closed : reachable (λ _, true) run_closed.
Proof.
  apply (timer _ run_closing); [apply (operate _ (OpClose _)), (timer _ run_opened)|].
  - apply (operate _ (OpOpen _ _ _ _)). exact (start (λ _, true) true None None None demo_env I I).
  - exists 0%nat, alice. split; [by vm_compute|reflexivity].
  - exists 1%nat, (FinishClose 0). split; [by vm_compute|reflexivity].
Qed.

(** A closed channel can become active again: [closeChannel] leaves the pending
    activation of [openChannel] in place. *)
Theorem closed_channel_reopens : ∃ w w',
  reachable (λ _, true) w ∧ state <$> all_channels w.1 = [closed] ∧
  fires (λ _, true) w w' ∧ state <$> all_channels w'.1 = [active].
Proof.
  exists run_closed, run_reopened. split_and!; [apply reachable_closed|by vm_compute| |by vm_compute].
  exists 0%nat, (Activate 0). split; [by vm_compute|reflexivity].
Qed.

Lemma take_digits_app ds r : str_all is_digit ds = true → take_digits (ds +:+ r) = ds +:+ take_digits r.
Proof.
  induction ds as [|c ds IH]; [done|].
  change (is_digit c && str_all is_digit ds = true →
    (if is_digit c then String c (take_digits (ds +:+ r)) else "") = String c (ds +:+ take_digits r)).
  intros [-> Hds]%andb_true_iff. f_equal. by apply IH.
Qed.

(** The amount a payment request is read with takes the leading digits of the random
    suffix as digits of the amount. *)
Theorem payment_request_reads_suffix amt r :
  let ds := num_to_string (nround (nmul (nmul amt (of_Z 100000000)) (of_Z 1000))) in
  str_all is_digit ds = true → ds ≠ "" →
  parsePaymentRequest (payment_request amt r) =
  ndiv (ndiv (of_Z (default 0 (index_value 0 (ds +:+ take_digits r)))) (of_Z 100000000)) (of_Z 1000).
Proof.
  cbv zeta. unfold payment_request. set (ds := num_to_string _). intros Hds Hne.
  unfold parsePaymentRequest.
  assert (first_number ("lnkc" +:+ ds +:+ r) = Some (ds +:+ take_digits r)) as ->; [|done].
  transitivity (first_number (ds +:+ r)); [reflexivity|].
  rewrite <- take_digits_app by done. destruct ds as [|c ds']; [done|].
  change (is_digit c && str_all is_digit ds' = true) in Hds. apply andb_true_iff in Hds as [Hc _].
  change ((if is_digit c then Some (take_digits (String c ds' +:+ r)) else first_number (ds' +:+ r)) =
    Some (take_digits (String c ds' +:+ r))). by rewrite Hc.
Qed.

(** An invoice for 1 KC whose random suffix starts with the digit 5 is paid with more
    than 10 KC. *)
Example ten_times_the_amount :
  SFltb (of_Z 10) (parsePaymentRequest (payment_request (of_Z 1) "5k2j")) = true.
Proof. vm_compute. reflexivity. Qed.
