(* ===== verification/WalletApi.v ===== *)
(** * The wallet API client (apps/web/wallet/src/services/walletApi.ts)

    [request] turns an HTTP reply into the data it carries or into an error. The network
    is a parameter: a service has a record of the replies of the endpoints it calls, each
    a function of the number of the call and of its arguments. A reply whose text parses
    has the fields its declared type names; a reply can also be missing, unparsable or
    [null].

    Several services answer from their own state when the API fails, if the build allows
    it ([allowFallback]), and keep a cached list in which an object replaces the one with
    its id. Both are stated here once, with their laws. *)

From Stdlib Require Import String.
From S2P Require Import Prelude.

(** ** Requests *)

(** [fetch]: no response (network failure, or the abort after two seconds), or a response
    with its status, its text, what the text parses to ([None] when it does not parse or
    is [null]) and the [error] field of an error reply. *)
Inductive Reply (T : Type) : Type :=
  | Unreachable (msg : string)
  | Response (ok : bool) (body : string) (data : option T) (error : option string).
Arguments Unreachable {T} msg.
Arguments Response {T} ok body data error.

Definition request {T} (r : Reply T) : result (option T) :=
  match r with
  | Unreachable msg => Throw msg
  | Response ok body data error =>
      let data' := if str_eqb body "" then None else data in
      let error' := if str_eqb body "" then None else error in
      if ok then Ok data'
      else Throw (if truthy_str error' then default "" error'
                  else if str_eqb body "" then "Wallet API request failed" else body)
  end.

(** [await walletApi.get(path)] and [await walletApi.post(path, body)] *)
Definition fetch {S T} (reply : nat → Reply T) : js (S * Env) (option T) := rpc (λ n, request (reply n)).

(** Reading a field of a reply: a TypeError when there is none. *)
Definition fields {W T} (r : option T) : js W T :=
  match r with Some d => mret d | None => js_throw "Cannot read properties of undefined" end.

(** [try { m } catch (error) { if (!allowFallback) throw error; h }] *)
Definition or_fallback {W A} (allowFallback : bool) (m h : js W A) : js W A :=
  js_try m (λ msg, if allowFallback then h else js_throw msg).

(** A failed request is an error with a message; with no body, the default one. *)
Lemma request_error_message {T} body (data : option T) error :
  request (Response false "" data error) = Throw "Wallet API request failed" ∧
  ∃ msg, request (Response false body data error) = Throw msg ∧ msg ≠ "".
Proof.
  split; [done|]. cbn. eexists. split; [reflexivity|].
  destruct (str_eqb body "") eqn:E; cbn; [done|].
  destruct error as [e|]; cbn; [|by apply str_eqb_false].
  destruct (str_eqb e "") eqn:E'; cbn; by apply str_eqb_false.
Qed.

(** ** Operations that never throw *)

Definition total {S A} (m : js (S * Env) A) : Prop := ∀ w, ∃ a w', m w = (Ok a, w').

Create HintDb total.

Section Total.
Context {S : Type}.

Lemma total_ret {A} (a : A) : total (S:=S) (mret a).
Proof. intros w. by exists a, w. Qed.
Lemma total_this : total (S:=S) this.
Proof. intros w. by exists w.1, w. Qed.
Lemma total_modify f : total (S:=S) (modify_this f).
Proof. intros w. by eexists _, _. Qed.
Lemma total_date_now : total (S:=S) date_now.
Proof. intros w. by eexists _, _. Qed.
Lemma total_random36 : total (S:=S) random36.
Proof. intros w. by eexists _, _. Qed.
Lemma total_is_browser : total (S:=S) is_browser.
Proof. intros w. by eexists _, _. Qed.
Lemma total_bind {A B} (m : js (S * Env) A) (k : A → js (S * Env) B) :
  total m → (∀ a, total (k a)) → total (m ≫= k).
Proof. intros Hm Hk w. destruct (Hm w) as (a & w' & E). rewrite (run_Ok _ _ _ _ _ E). apply Hk. Qed.
Lemma total_try {A} (m : js (S * Env) A) h : (∀ msg, total (h msg)) → total (js_try m h).
Proof.
  intros Hh w. unfold js_try. destruct (m w) as [[a|msg] w']; [by exists a, w'|apply Hh].
Qed.
Lemma total_fallback {A} (m h : js (S * Env) A) : total h → total (or_fallback true m h).
Proof. intros Hh. by apply total_try. Qed.
Lemma total_when c (m : js (S * Env) ()) : total m → total (js_when c m).
Proof. destruct c; [done|intros _; apply total_ret]. Qed.
Lemma total_forEach {A} (f : A → js (S * Env) ()) l : (∀ x, total (f x)) → total (js_forEach f l).
Proof.
  intros Hf. induction l as [|x l IH]; cbn [js_forEach]; [apply total_ret|by apply total_bind].
Qed.
Lemma total_mapM {A B} (f : A → js (S * Env) B) l : (∀ x, total (f x)) → total (js_mapM f l).
Proof.
  intros Hf. induction l as [|x l IH]; cbn [js_mapM]; [apply total_ret|].
  apply total_bind; [done|]. intros y. apply total_bind; [done|]. intros ys. apply total_ret.
Qed.
End Total.

#[export] Hint Resolve total_ret total_this total_modify total_date_now total_random36
  total_is_browser total_try total_fallback total_when total_forEach total_mapM : total.

(** The rules of [total], from the front of a body. *)
Ltac js_total :=
  repeat lazymatch goal with
  | |- total (mbind _ _) => apply total_bind; [|intros ?]
  | |- total (if ?b then _ else _) => destruct b eqn:?
  | |- total (match ?x with _ => _ end) => destruct x eqn:?
  | |- total (or_fallback true _ _) => apply total_fallback
  | |- total (js_forEach _ _) => apply total_forEach; intros ?
  | |- total (let _ := _ in _) => cbv zeta
  | |- total _ => solve [auto 4 with total nocore]
  end.

Lemma preserves_fallback {S A} (I : S → Prop) allow (m h : js (S * Env) A) :
  preserves I m → preserves I h → preserves I (or_fallback allow m h).
Proof.
  intros Hm Hh. apply preserves_try; [done|]. intros msg. destruct allow; [done|apply preserves_throw].
Qed.

Lemma preserves_fields {S T} (I : S → Prop) (r : option T) : preserves I (fields r).
Proof. destruct r; [apply preserves_ret|apply preserves_throw]. Qed.

Lemma preserves_fetch {S T} (I : S → Prop) (reply : nat → Reply T) : preserves I (fetch reply).
Proof. apply preserves_rpc. Qed.

#[export] Hint Resolve preserves_fallback preserves_fields preserves_fetch : js.

(** [js_preserve] with the rule of fallbacks. *)
Ltac api_preserve :=
  js_preserve;
  repeat (lazymatch goal with
    | |- preserves _ (or_fallback _ _ _) => apply preserves_fallback; js_preserve
    end).

(** A failed request: the fallback runs, in the world the call leaves. *)
Lemma run_fallback_failed {S A T} (reply : nat → Reply T) msg (k : option T → js (S * Env) A) h w :
  request (reply (calls w.2)) = Throw msg →
  or_fallback true (fetch reply ≫= k) h w = h (w.1, call w.2).
Proof. intros E. unfold or_fallback, js_try, fetch. rewrite run_rpc. by rewrite E. Qed.

(** ** Cached lists

    [this.xs = [x, ...this.xs.filter((y) => y.id !== x.id)]] *)
Class Cache (S V : Type) := MkCache {
  cache_id : V → string;
  cached : S → list V;
  set_cached : list V → S → S;
}.

Class CacheLaws (S V : Type) `{Cache S V} := MkCacheLaws {
  cached_set_cached : ∀ l (s : S), cached (set_cached l s) = l;
}.

(** The ids of the cached objects are distinct. *)
Definition distinct {S V} `{Cache S V} (l : list V) : Prop := NoDup (cache_id <$> l).

Section Cache.
Context {S V : Type} `{CacheLaws S V}.
Implicit Types (s : S) (v : V) (l : list V).

Definition replace_front v l : list V := v :: js_filter (λ x, negb (str_eqb (cache_id x) (cache_id v))) l.
Definition push_front v : js (S * Env) () :=
  modify_this (λ s, set_cached (replace_front v (cached s)) s).

(** [find((x) => x.id === id)], and a change through what it returns *)
Definition find_id (i : string) l : option V := js_find (λ x, str_eqb (cache_id x) i) l.
Definition change_id (i : string) (f : V → V) : js (S * Env) () :=
  modify_this (λ s, set_cached (update_first (λ x, str_eqb (cache_id x) i) f (cached s)) s).

Lemma distinct_replace_front v l : distinct (S:=S) l → distinct (S:=S) (replace_front v l).
Proof.
  unfold distinct, replace_front. intros Hl. csimpl. constructor.
  - intros (x & Hx & Hin)%list_elem_of_fmap. apply elem_of_js_filter in Hin as [_ Hne].
    rewrite negb_true_iff, str_eqb_false in Hne. congruence.
  - eapply sublist_NoDup; [exact Hl|]. apply fmap_sublist, js_filter_sublist.
Qed.

Lemma replace_front_find v l : find_id (cache_id v) (replace_front v l) = Some v.
Proof. unfold find_id, replace_front. cbn. by rewrite str_eqb_refl. Qed.

Lemma replace_front_other v l i : i ≠ cache_id v → find_id i (replace_front v l) = find_id i l.
Proof.
  intros Hne. unfold find_id, replace_front. cbn [js_find].
  rewrite (proj2 (str_eqb_false (cache_id v) i)) by done. unfold js_filter.
  induction l as [|x l IH]; cbn; [done|].
  destruct (str_eqb (cache_id x) (cache_id v)) eqn:E; cbn.
  - apply str_eqb_true in E. rewrite IH. rewrite (proj2 (str_eqb_false (cache_id x) i)); congruence.
  - by rewrite IH.
Qed.

Lemma find_id_changed i f l : (∀ v, cache_id (f v) = cache_id v) →
  find_id i (update_first (λ x, str_eqb (cache_id x) i) f l) = f <$> find_id i l.
Proof.
  intros Hf. unfold find_id. induction l as [|v l IH]; cbn; [done|].
  destruct (str_eqb (cache_id v) i) eqn:E; cbn; by rewrite ?Hf, E.
Qed.

Lemma preserves_push_front v : preserves (λ s, distinct (S:=S) (cached s)) (push_front v).
Proof. apply preserves_modify. intros s Hs. rewrite cached_set_cached. by apply distinct_replace_front. Qed.

Lemma preserves_change_id i f : (∀ v, cache_id (f v) = cache_id v) →
  preserves (λ s, distinct (S:=S) (cached s)) (change_id i f).
Proof.
  intros Hf. apply preserves_modify. intros s Hs. rewrite cached_set_cached. unfold distinct in *.
  by rewrite (map_update_first _ _ _ _ Hf).
Qed.

Lemma total_push_front v : total (push_front v).
Proof. apply total_modify. Qed.
Lemma total_change_id i f : total (change_id i f).
Proof. apply total_modify. Qed.
End Cache.

#[export] Hint Resolve preserves_push_front preserves_change_id : js.
#[export] Hint Resolve total_push_front total_change_id : total.

(** [createId(prefix)] *)
Definition createId {S} (prefix : string) : js (S * Env) string :=
  t ← date_now;
  r ← random36;
  mret (prefix +:+ "-" +:+ pretty t +:+ "-" +:+ r).

(** [createAddress(prefix)] *)
Definition createAddress {S} (prefix : string) : js (S * Env) string :=
  r ← random36; mret (prefix +:+ r).

Lemma total_createId {S} p : total (createId (S:=S) p).
Proof. unfold createId. js_total. Qed.
Lemma total_createAddress {S} p : total (createAddress (S:=S) p).
Proof. unfold createAddress. js_total. Qed.
Lemma preserves_createId {S} (I : S → Prop) p : preserves I (createId p).
Proof. unfold createId. js_preserve. Qed.
Lemma preserves_createAddress {S} (I : S → Prop) p : preserves I (createAddress p).
Proof. unfold createAddress. js_preserve. Qed.
#[export] Hint Resolve total_createId total_createAddress : total.
#[export] Hint Resolve preserves_createId preserves_createAddress : js.
