(* ===== verification/Staking.v ===== *)
(** * [StakingService] (apps/web/wallet/src/services/staking.ts)

    Staking pools and positions, asked of the wallet API, with an answer from the cached
    pools and positions when the API fails and the build allows it. *)

From Stdlib Require Import String.
From S2P Require Import Prelude JsNumber FloatFacts WalletApi.

Inductive PoolStatus := PoolActive | PoolFull | PoolMaintenance.

Record StakingPool := MkPool {
  id : string;
  name : string;
  validatorAddress : string;
  apy : num;
  minStake : num;
  lockPeriod : num;
  totalStaked : num;
  stakerCount : Z;
  pool_status : PoolStatus;
}.

Inductive PositionStatus := active | unlocking | unlocked.

Record StakingPosition := MkPosition {
  p_id : string;
  poolId : string;
  amount : num;
  stakedAt : Z;
  unlocksAt : num;
  rewards : num;
  autoCompound : bool;
  status : PositionStatus;
}.

Record Staking := MkStaking { pools : list StakingPool; positions : list StakingPosition }.

Definition set_pools l s := MkStaking l (positions s).
Definition set_positions l s := MkStaking (pools s) l.

#[export] Instance staking_cache : Cache Staking StakingPosition := {|
  cache_id := p_id; cached := positions; set_cached := set_positions;
|}.
#[export] Instance staking_cache_laws : CacheLaws Staking StakingPosition.
Proof. by constructor. Qed.

Abbreviation M := (js (Staking * Env)).

Definition fresh : Staking := MkStaking [] [].

(** The replies of the endpoints under /api/staking. *)
Record StakingApi := MkStakingApi {
  get_pools : nat → Reply (option (list StakingPool));
  get_positions : nat → Reply (option (list StakingPosition));
  post_stake : nat → string → num → bool → Reply StakingPosition;
  post_unstake : nat → string → Reply ();
  post_claim : nat → string → Reply (option num);
}.

Definition defaultPools : list StakingPool := [
  MkPool "flexible-pool" "Flexible Pool" "KC1validatorflex" (lit 85 1) (of_Z 1) (of_Z 0)
    (of_Z 125000) 320 PoolActive;
  MkPool "growth-pool" "Growth Pool" "KC1validatorgrowth" (lit 122 1) (of_Z 10) (of_Z 30)
    (of_Z 540000) 1280 PoolActive;
  MkPool "secure-pool" "Secure Pool" "KC1validatorsecure" (lit 60 1) (of_Z 5) (of_Z 90)
    (of_Z 820000) 450 PoolActive
].

Definition getStakingPools : M (list StakingPool) :=
  s ← this; mret (js_sort (λ a b, SFltb nzero (nsub (apy b) (apy a))) (pools s)).

Definition getPositions : M (list StakingPosition) :=
  s ← this; mret (js_sort (λ a b, stakedAt a <? stakedAt b) (positions s)).

Definition set_status (st : PositionStatus) (p : StakingPosition) : StakingPosition :=
  MkPosition (p_id p) (poolId p) (amount p) (stakedAt p) (unlocksAt p) (rewards p) (autoCompound p) st.
Definition set_rewards (r : num) (p : StakingPosition) : StakingPosition :=
  MkPosition (p_id p) (poolId p) (amount p) (stakedAt p) (unlocksAt p) r (autoCompound p) (status p).
Definition joined (amt : num) (p : StakingPool) : StakingPool :=
  MkPool (id p) (name p) (validatorAddress p) (apy p) (minStake p) (lockPeriod p)
    (nadd (totalStaked p) amt) (stakerCount p + 1) (pool_status p).

Definition find_pool (i : string) (s : Staking) : option StakingPool :=
  js_find (λ p, str_eqb (id p) i) (pools s).

Section Api.
Context (allowFallback : bool) (api : StakingApi).

Definition refreshPools : M (list StakingPool) :=
  or_fallback allowFallback
    (r ← fetch (get_pools api);
     l ← fields r;
     modify_this (set_pools (default [] l)))
    (s ← this; js_when (length (pools s) =? 0)%nat (modify_this (set_pools defaultPools)));;
  getStakingPools.

Definition refreshPositions : M (list StakingPosition) :=
  or_fallback allowFallback
    (r ← fetch (get_positions api);
     l ← fields r;
     modify_this (set_positions (default [] l)))
    (mret ());;
  getPositions.

(** [now + lockDays * 24 * 60 * 60 * 1000] *)
Definition unlock_time (now : Z) (lockDays : num) : num :=
  nadd (of_Z now) (nmul (nmul (nmul (nmul lockDays (of_Z 24)) (of_Z 60)) (of_Z 60)) (of_Z 1000)).

Definition stake_offline (pool_id : string) (amt : num) (auto : bool) : M StakingPosition :=
  now ← date_now;
  s ← this;
  let pool := find_pool pool_id s in
  let lockDays := default nzero (lockPeriod <$> pool) in
  i ← createId "stake";
  let position := MkPosition i pool_id amt now (unlock_time now lockDays) nzero auto active in
  push_front position;;
  modify_this (λ s, set_pools (update_first (λ p, str_eqb (id p) pool_id) (joined amt) (pools s)) s);;
  mret position.

Definition stake (pool_id : string) (amt : num) (auto : bool) : M StakingPosition :=
  or_fallback allowFallback
    (r ← fetch (λ n, post_stake api n pool_id amt auto);
     position ← fields r;
     push_front position;;
     mret position)
    (stake_offline pool_id amt auto).

Definition unstake (positionId : string) : M () :=
  or_fallback allowFallback
    (fetch (λ n, post_unstake api n positionId);;
     refreshPositions;;
     mret ())
    (change_id positionId (set_status unlocked)).

(** [(position.amount * pool.apy / 100 / 365) * daysStaked] *)
Definition reward (amt pool_apy : num) (elapsed : Z) : num :=
  nmul (ndiv (ndiv (nmul amt pool_apy) (of_Z 100)) (of_Z 365)) (ndiv (of_Z elapsed) (of_Z 86400000)).

Definition calculateRewards (positionId : string) : M num :=
  s ← this;
  match find_id (S:=Staking) positionId (positions s) with
  | None => mret nzero
  | Some position =>
      match find_pool (poolId position) s with
      | None => mret nzero
      | Some pool =>
          t ← date_now;
          let r := reward (amount position) (apy pool) (t - stakedAt position) in
          change_id positionId (set_rewards r);;
          mret r
      end
  end.

Definition claimRewards (positionId : string) : M num :=
  or_fallback allowFallback
    (r ← fetch (λ n, post_claim api n positionId);
     refreshPositions;;
     reply ← fields r;
     mret (num_or reply nzero))
    (s ← this;
     let rs := default nzero (rewards <$> find_id (S:=Staking) positionId (positions s)) in
     change_id positionId (set_rewards nzero);;
     mret rs).

Definition getTotalStaked : M num := s ← this; mret (sum_by amount (positions s)).

(** The callback recomputes the rewards of the position with the id of the element, then
    reads those of the element. *)
Fixpoint total_rewards (n i : nat) (sum : num) : M num :=
  match n with
  | O => mret sum
  | S n' =>
      s ← this;
      match positions s !! i with
      | None => mret sum
      | Some p =>
          calculateRewards (p_id p);;
          s' ← this;
          total_rewards n' (S i) (nadd sum (default nzero (rewards <$> positions s' !! i)))
      end
  end.

Definition getTotalRewards : M num :=
  s ← this; total_rewards (length (positions s)) 0 nzero.
End Api.

(** * Theorems *)

(** ** The operations *)

Inductive operation :=
  | OpRefreshPools | OpRefreshPositions
  | OpStake (pool : string) (amt : num) (auto : bool)
  | OpUnstake (i : string) | OpCalculate (i : string) | OpClaim (i : string) | OpTotalRewards.

Definition exec (allow : bool) (api : StakingApi) (o : operation) : M () :=
  match o with
  | OpRefreshPools => refreshPools allow api;; mret ()
  | OpRefreshPositions => refreshPositions allow api;; mret ()
  | OpStake p a c => stake allow api p a c;; mret ()
  | OpUnstake i => unstake allow api i
  | OpCalculate i => calculateRewards i;; mret ()
  | OpClaim i => claimRewards allow api i;; mret ()
  | OpTotalRewards => getTotalRewards;; mret ()
  end.

Lemma total_calculateRewards i : total (calculateRewards i).
Proof. unfold calculateRewards. js_total. Qed.
#[local] Hint Resolve total_calculateRewards : total.

Lemma total_total_rewards n i sum : total (total_rewards n i sum).
Proof. revert i sum. induction n as [|n IH]; intros i sum; cbn [total_rewards]; js_total. Qed.
#[local] Hint Resolve total_total_rewards : total.

(** With fallbacks allowed no operation throws, whatever the API replies. *)
Theorem staking_never_throws api o : total (exec true api o).
Proof.
  destruct o; cbn [exec]; unfold refreshPools, refreshPositions, stake, stake_offline, unstake, claimRewards,
    getStakingPools, getPositions, getTotalRewards; js_total.
Qed.

(** ** Positions stay distinct *)

Definition positions_distinct (s : Staking) : Prop := distinct (S:=Staking) (positions s).

Section Distinct.
Context (allow : bool) (api : StakingApi).
Context (Hapi : ∀ n l, request (get_positions api n) = Ok (Some (Some l)) → distinct (S:=Staking) l).

Lemma pd_push p : preserves positions_distinct (push_front p).
Proof. exact (preserves_push_front (S:=Staking) p). Qed.
Lemma pd_change i f : (∀ p, p_id (f p) = p_id p) → preserves positions_distinct (change_id i f).
Proof. intros Hf. exact (preserves_change_id (S:=Staking) i f Hf). Qed.
#[local] Hint Resolve pd_push : js.
#[local] Hint Extern 1 (preserves _ (change_id _ _)) => by apply pd_change : js.

Lemma pd_refreshPositions : preserves positions_distinct (refreshPositions allow api).
Proof.
  unfold refreshPositions, getPositions. apply preserves_bind; [|intros _; js_preserve].
  apply preserves_fallback; [|apply preserves_ret]. intros [s e] Hs. unfold fetch. js_run.
  destruct (request (get_positions api (calls e))) as [[[l|]|]|msg] eqn:E; try done; cbn.
  - by eapply Hapi.
  - apply NoDup_nil_2.
Qed.
#[local] Hint Resolve pd_refreshPositions : js.

Lemma pd_calculateRewards i : preserves positions_distinct (calculateRewards i).
Proof. unfold calculateRewards. js_preserve. Qed.
#[local] Hint Resolve pd_calculateRewards : js.

Lemma pd_total_rewards n i sum : preserves positions_distinct (total_rewards n i sum).
Proof. revert i sum. induction n as [|n IH]; intros i sum; cbn [total_rewards]; js_preserve. Qed.
#[local] Hint Resolve pd_total_rewards : js.

Lemma pd_exec o : preserves positions_distinct (exec allow api o).
Proof.
  destruct o; cbn [exec]; unfold refreshPools, stake, stake_offline, unstake, claimRewards,
    getStakingPools, getTotalRewards; api_preserve.
Qed.
End Distinct.

(** ** Offline staking *)

(** The API is down: every request is an error. *)
Definition down (api : StakingApi) : Prop :=
  (∀ n i, ∃ msg, request (post_unstake api n i) = Throw msg) ∧
  (∀ n i, ∃ msg, request (post_claim api n i) = Throw msg).

Lemma find_position i f l : (∀ p, p_id (f p) = p_id p) →
  find_id (S:=Staking) i (update_first (λ x, str_eqb (p_id x) i) f l) = f <$> find_id (S:=Staking) i l.
Proof. exact (find_id_changed (S:=Staking) i f l). Qed.

(** When the API is down, [unstake] unlocks a position at once, whatever its lock. *)
Theorem unstake_ignores_lock api i p s e : down api →
  find_id (S:=Staking) i (positions s) = Some p →
  ∃ s' e', unstake true api i (s, e) = (Ok (), (s', e')) ∧
    find_id (S:=Staking) i (positions s') = Some (set_status unlocked p) ∧ pools s' = pools s.
Proof.
  intros [Hd _] Hp. destruct (Hd (calls e) i) as [msg E].
  unfold unstake. rewrite (run_fallback_failed (λ n, post_unstake api n i) msg) by exact E. eexists _, _. split; [reflexivity|].
  cbn [fst snd set_positions positions pools]. split; [|done].
  etransitivity; [by apply find_position|]. exact (f_equal (fmap (set_status unlocked)) Hp).
Qed.

Lemma change_position i f s q : (∀ p, p_id (f p) = p_id p) → find_id (S:=Staking) i (positions s) = Some q →
  find_id (S:=Staking) i (update_first (λ x, str_eqb (p_id x) i) f (positions s)) = Some (f q).
Proof. intros Hf Hq. etransitivity; [by apply find_position|]. exact (f_equal (fmap f) Hq). Qed.

Lemma calculateRewards_run i q pool s e :
  find_id (S:=Staking) i (positions s) = Some q → find_pool (poolId q) s = Some pool →
  let r := reward (amount q) (apy pool) (clock e (ticks e) - stakedAt q) in
  calculateRewards i (s, e) =
  (Ok r, (set_positions (update_first (λ x, str_eqb (p_id x) i) (set_rewards r) (positions s)) s, tick e)).
Proof.
  intros Hq Hpool. cbv zeta. unfold calculateRewards. rewrite run_this. cbn [fst].
  destruct (find_id i (positions s)) as [q'|]; [injection Hq as ->|done].
  destruct (find_pool (poolId q) s) as [pool'|]; [injection Hpool as ->|done]. reflexivity.
Qed.

Lemma claimRewards_down api i q s e : down api → find_id (S:=Staking) i (positions s) = Some q →
  claimRewards true api i (s, e) =
  (Ok (rewards q), (set_positions (update_first (λ x, str_eqb (p_id x) i) (set_rewards nzero) (positions s)) s, call e)).
Proof.
  intros [_ Hd] Hq. destruct (Hd (calls e) i) as [msg E]. unfold claimRewards.
  rewrite (run_fallback_failed (λ n, post_claim api n i) msg) by exact E. rewrite run_this. cbn [fst].
  destruct (find_id i (positions s)) as [q'|]; [by injection Hq as ->|done].
Qed.

(** A position whose rewards are computed and claimed. *)
Lemma claim_round api i q pool s e : down api →
  find_id (S:=Staking) i (positions s) = Some q → find_pool (poolId q) s = Some pool →
  let r := reward (amount q) (apy pool) (clock e (ticks e) - stakedAt q) in
  ∃ s', (calculateRewards i;; claimRewards true api i) (s, e) = (Ok r, (s', call (tick e))) ∧
    find_id (S:=Staking) i (positions s') = Some (set_rewards nzero (set_rewards r q)) ∧ pools s' = pools s.
Proof.
  intros Hd Hq Hpool. cbv zeta. rewrite (run_Ok _ _ _ _ _ (calculateRewards_run _ _ _ _ _ Hq Hpool)). cbv beta.
  set (r := reward _ _ _). pose proof (change_position i (set_rewards r) s q (λ _, eq_refl) Hq) as H1.
  set (s1 := set_positions _ s). rewrite (claimRewards_down api i (set_rewards r q) s1 (tick e) Hd H1).
  eexists. split; [reflexivity|]. split; [|done].
  exact (change_position i (set_rewards nzero) s1 (set_rewards r q) (λ _, eq_refl) H1).
Qed.

(** A claim leaves the time of staking as it is, so that the rewards computed from it
    can be claimed once more: the second claim pays for the whole time again. *)
Theorem rewards_claimed_again api i p pool s e : down api →
  find_id (S:=Staking) i (positions s) = Some p → find_pool (poolId p) s = Some pool →
  let r n := reward (amount p) (apy pool) (reading e n - stakedAt p) in
  ∃ s1 s2 e2,
    (calculateRewards i;; claimRewards true api i) (s, e) = (Ok (r 0%nat), (s1, call (tick e))) ∧
    (calculateRewards i;; claimRewards true api i) (s1, call (tick e)) = (Ok (r 1%nat), (s2, e2)).
Proof.
  intros Hd Hp Hpool. cbv zeta. destruct (claim_round api i p pool s e Hd Hp Hpool) as (s1 & E1 & Hp1 & Hpools).
  destruct (claim_round api i _ pool s1 (call (tick e)) Hd Hp1) as (s2 & E2 & _).
  { unfold find_pool in *. by rewrite Hpools. }
  exists s1, s2, (call (tick (call (tick e)))). rewrite E1, E2. unfold reading.
  split; do 2 f_equal; cbn; repeat f_equal; lia.
Qed.

(** ** A concrete service *)

Definition offline : StakingApi :=
  MkStakingApi (λ _, Unreachable "down") (λ _, Unreachable "down") (λ _ _ _ _, Unreachable "down")
    (λ _ _, Unreachable "down") (λ _ _, Unreachable "down").

Lemma offline_down : down offline.
Proof. split; intros; by eexists. Qed.

(** Staked in the pool with a lock of 90 days. *)
Definition demo : Staking * Env :=
  (stake true offline "secure-pool" (of_Z 100) false (refreshPools true offline (fresh, demo_env)).2).2.
Definition demo_id : string := default "" (p_id <$> head (positions demo.1)).

Definition demo_position : StakingPosition :=
  default (MkPosition "" "" nzero 0 nzero nzero false active) (head (positions demo.1)).

(** The lock of the position ends later than the unstaking. *)
Lemma unstake_ignores_lock_witness :
  SFltb (of_Z (reading demo.2 0)) (unlocksAt demo_position) = true ∧
  ∃ s' e', unstake true offline demo_id (demo.1, demo.2) = (Ok (), (s', e')) ∧
    find_id (S:=Staking) demo_id (positions s') = Some (set_status unlocked demo_position).
Proof.
  split; [vm_compute; reflexivity|].
  destruct (unstake_ignores_lock offline demo_id demo_position demo.1 demo.2 offline_down)
    as (s' & e' & E & H & _); [vm_compute; reflexivity|].
  exists s', e'. split; [exact E|exact H].
Defined.

(** A day after staking. *)
Definition day_later : Env :=
  MkEnv (λ n, 1700000000000 + 86400000 * (1 + Z.of_nat n)) (entropy demo.2) 0 0 0 true true.

Lemma rewards_claimed_again_witness : ∃ s1 s2 e2 r0 r1,
  (calculateRewards demo_id;; claimRewards true offline demo_id) (demo.1, day_later) =
    (Ok r0, (s1, call (tick day_later))) ∧
  (calculateRewards demo_id;; claimRewards true offline demo_id) (s1, call (tick day_later)) = (Ok r1, (s2, e2)).
Proof.
  destruct (rewards_claimed_again offline demo_id demo_position
    (default (MkPool "" "" "" nzero nzero nzero nzero 0 PoolFull) (find_pool "secure-pool" demo.1))
    demo.1 day_later offline_down) as (s1 & s2 & e2 & E1 & E2); [vm_compute; reflexivity..|].
  eexists s1, s2, e2, _, _. split; [exact E1|exact E2].
Defined.

Section Reach.
Context (allow : bool) (api : StakingApi).
Inductive reachable : Staking * Env → Prop :=
  | start e : reachable (fresh, e)
  | operate o w : reachable w → reachable (exec allow api o w).2.
End Reach.

(** In every state the service reaches, provided that the API never lists two positions
    under one id, the ids of its positions are distinct. *)
Theorem positions_stay_distinct allow api w :
  (∀ n l, request (get_positions api n) = Ok (Some (Some l)) → distinct (S:=Staking) l) →
  reachable allow api w → NoDup (p_id <$> positions w.1).
Proof.
  intros Hapi. induction 1 as [e|o w _ IH]; [apply NoDup_nil_2|]. by apply (pd_exec allow api Hapi).
Qed.
