(* ===== verification/AtomicSwap.v ===== *)
(** * [AtomicSwapService] (apps/web/wallet/src/services/atomicSwap.ts)

    Swap offers and exchange rates, asked of the wallet API, with an answer from the
    cached ones when the API fails and the build allows it. *)

From Stdlib Require Import String.
From S2P Require Import Prelude JsMap JsNumber WalletApi.

Inductive SwapStatus := open | pending | completed | expired | cancelled.
#[export] Instance SwapStatus_eq_dec : EqDecision SwapStatus.
Proof. solve_decision. Defined.

Record SwapOffer := MkOffer {
  id : string;
  offeredCurrency : string;
  offeredAmount : num;
  requestedCurrency : string;
  requestedAmount : num;
  exchangeRate : num;
  creatorAddress : string;
  status : SwapStatus;
  createdAt : Z;
  expiresAt : Z;
  htlcHash : option string;
  htlcSecret : option string;
  acceptedBy : option string;
  completedAt : option Z;
}.

Record AtomicSwap := MkAtomicSwap { offers : list SwapOffer; exchangeRates : jsmap num }.

Definition set_offers l s := MkAtomicSwap l (exchangeRates s).
Definition set_rates m s := MkAtomicSwap (offers s) m.

#[export] Instance swap_cache : Cache AtomicSwap SwapOffer := {|
  cache_id := id; cached := offers; set_cached := set_offers;
|}.
#[export] Instance swap_cache_laws : CacheLaws AtomicSwap SwapOffer.
Proof. by constructor. Qed.

Abbreviation M := (js (AtomicSwap * Env)).

Definition fresh : AtomicSwap := MkAtomicSwap [] [].

(** The replies of the endpoints under /api/swaps; [post_accept] is the reply of
    /api/swaps/offers/accept to an id and an acceptor. *)
Record SwapApi := MkSwapApi {
  get_offers : nat → option SwapStatus → Reply (option (list SwapOffer));
  get_rate : nat → string → string → Reply (option num);
  post_offer : nat → string → num → string → num → string → Reply SwapOffer;
  post_accept : nat → string → string → Reply ();
  post_cancel : nat → string → Reply ();
}.

(** [getSwapOffers]; an empty currency filters nothing. *)
Definition getSwapOffers (f_status : option SwapStatus) (f_currency : option string) : M (list SwapOffer) :=
  s ← this;
  let l1 := match f_status with
            | Some st => js_filter (λ o, bool_decide (status o = st)) (offers s)
            | None => offers s
            end in
  let l2 := if truthy_str f_currency then
              let c := default "" f_currency in
              js_filter (λ o, str_eqb (offeredCurrency o) c || str_eqb (requestedCurrency o) c) l1
            else l1 in
  mret (js_sort (λ a b, createdAt a <? createdAt b) l2).

Definition rate_key (fromCurrency toCurrency : string) : string := fromCurrency +:+ "_" +:+ toCurrency.

Definition with_status (st : SwapStatus) (by_ : option string) (at_ : option Z) (o : SwapOffer) : SwapOffer :=
  MkOffer (id o) (offeredCurrency o) (offeredAmount o) (requestedCurrency o) (requestedAmount o)
    (exchangeRate o) (creatorAddress o) st (createdAt o) (expiresAt o) (htlcHash o) (htlcSecret o) by_ at_.

Section Api.
Context (allowFallback : bool) (api : SwapApi).

Definition refreshOffers (st : option SwapStatus) : M (list SwapOffer) :=
  or_fallback allowFallback
    (r ← fetch (λ n, get_offers api n st);
     l ← fields r;
     modify_this (set_offers (default [] l)))
    (mret ());;
  getSwapOffers None None.

Definition refreshRates (fromCurrency toCurrency : string) : M num :=
  let k := rate_key fromCurrency toCurrency in
  or_fallback allowFallback
    (r ← fetch (λ n, get_rate api n fromCurrency toCurrency);
     rate ← fields r;
     modify_this (λ s, set_rates (map_set k (num_or rate nzero) (exchangeRates s)) s))
    (s ← this;
     js_when (negb (map_has k (exchangeRates s)))
       (modify_this (λ s, set_rates (map_set k (lit 1 4) (exchangeRates s)) s)));;
  s ← this;
  mret (default nzero (map_get k (exchangeRates s))).

Definition createSwapOffer (oc : string) (oa : num) (rc : string) (ra : num) (creator : string) : M SwapOffer :=
  or_fallback allowFallback
    (r ← fetch (λ n, post_offer api n oc oa rc ra creator);
     offer ← fields r;
     push_front offer;;
     mret offer)
    (i ← createId "swap";
     t1 ← date_now;
     t2 ← date_now;
     let offer := MkOffer i oc oa rc ra (ndiv ra oa) creator open t1 (t2 + 86400000) None None None None in
     push_front offer;;
     mret offer).

Definition acceptSwapOffer (offerId acceptor : string) : M () :=
  or_fallback allowFallback
    (fetch (λ n, post_accept api n offerId acceptor);;
     refreshOffers None;;
     mret ())
    (change_id offerId (λ o, with_status pending (Some acceptor) (completedAt o) o)).

Definition completeSwap (offerId : string) : M () :=
  or_fallback allowFallback
    (fetch (λ n, post_accept api n offerId "self");;
     refreshOffers None;;
     mret ())
    (s ← this;
     match find_id (S:=AtomicSwap) offerId (offers s) with
     | None => mret ()
     | Some _ =>
         t ← date_now;
         change_id offerId (λ o, with_status completed (acceptedBy o) (Some t) o)
     end).

Definition cancelSwapOffer (offerId : string) : M () :=
  or_fallback allowFallback
    (fetch (λ n, post_cancel api n offerId);;
     refreshOffers None;;
     mret ())
    (change_id offerId (λ o, with_status cancelled (acceptedBy o) (completedAt o) o)).

Definition getExchangeRate (fromCurrency toCurrency : string) : M num :=
  s ← this; mret (default nzero (map_get (rate_key fromCurrency toCurrency) (exchangeRates s))).
End Api.

(** * Theorems *)

Inductive operation :=
  | OpRefresh (st : option SwapStatus)
  | OpRates (a b : string)
  | OpCreate (oc : string) (oa : num) (rc : string) (ra : num) (creator : string)
  | OpAccept (i acceptor : string)
  | OpComplete (i : string)
  | OpCancel (i : string).

Definition exec (allow : bool) (api : SwapApi) (o : operation) : M () :=
  match o with
  | OpRefresh st => refreshOffers allow api st;; mret ()
  | OpRates a b => refreshRates allow api a b;; mret ()
  | OpCreate oc oa rc ra c => createSwapOffer allow api oc oa rc ra c;; mret ()
  | OpAccept i a => acceptSwapOffer allow api i a
  | OpComplete i => completeSwap allow api i
  | OpCancel i => cancelSwapOffer allow api i
  end.

(** With fallbacks allowed no operation throws, whatever the API replies. *)
Theorem swap_never_throws api o : total (exec true api o).
Proof.
  destruct o; cbn [exec]; unfold refreshOffers, refreshRates, createSwapOffer, acceptSwapOffer, completeSwap,
    cancelSwapOffer, getSwapOffers; js_total.
Qed.

(** ** Offers stay distinct *)

Definition offers_distinct (s : AtomicSwap) : Prop := distinct (S:=AtomicSwap) (offers s).

Section Distinct.
Context (allow : bool) (api : SwapApi).
Context (Hapi : ∀ n st l, request (get_offers api n st) = Ok (Some (Some l)) → distinct (S:=AtomicSwap) l).

Lemma od_push o : preserves offers_distinct (push_front o).
Proof. exact (preserves_push_front (S:=AtomicSwap) o). Qed.
Lemma od_change i f : (∀ o, id (f o) = id o) → preserves offers_distinct (change_id i f).
Proof. intros Hf. exact (preserves_change_id (S:=AtomicSwap) i f Hf). Qed.
#[local] Hint Resolve od_push : js.
#[local] Hint Extern 1 (preserves _ (change_id _ _)) => by apply od_change : js.

Lemma od_refreshOffers st : preserves offers_distinct (refreshOffers allow api st).
Proof.
  unfold refreshOffers, getSwapOffers. apply preserves_bind; [|intros _; js_preserve].
  apply preserves_fallback; [|apply preserves_ret]. intros [s e] Hs. unfold fetch. js_run.
  destruct (request (get_offers api (calls e) st)) as [[[l|]|]|msg] eqn:E; try done; cbn.
  - by eapply Hapi.
  - apply NoDup_nil_2.
Qed.
#[local] Hint Resolve od_refreshOffers : js.

Lemma od_exec o : preserves offers_distinct (exec allow api o).
Proof.
  destruct o; cbn [exec]; unfold refreshRates, createSwapOffer, acceptSwapOffer, completeSwap,
    cancelSwapOffer; api_preserve.
Qed.

Inductive reachable : AtomicSwap * Env → Prop :=
  | start e : reachable (fresh, e)
  | operate o w : reachable w → reachable (exec allow api o w).2.

(** In every state the service reaches, provided that the API never lists two offers
    under one id, the ids of its offers are distinct. *)
Theorem offers_stay_distinct w : reachable w → NoDup (id <$> offers w.1).
Proof. induction 1 as [e|o w _ IH]; [apply NoDup_nil_2|by apply od_exec]. Qed.
End Distinct.

(** ** What completing does *)

(** When the API answers, to complete a swap is to accept the offer again, as 'self'. *)
Theorem completeSwap_accepts allow api i w : is_Some (match request (post_accept api (calls w.2) i "self") with
    Ok a => Some a | Throw _ => None end) → 
  (∀ n st, ∃ l, request (get_offers api n st) = Ok (Some l)) →
  completeSwap allow api i w = acceptSwapOffer allow api i "self" w.
Proof.
  intros Hok Hoffers. unfold completeSwap, acceptSwapOffer, or_fallback, js_try, fetch. rewrite !run_rpc.
  destruct (request _) as [r|msg]; [|by destruct Hok].
  unfold refreshOffers, or_fallback, js_try, fetch. rewrite !run_bind.
  unfold mbind, js_bind, rpc. cbn [snd fst]. by destruct (Hoffers (calls (call w.2)) None) as (l & ->).
Qed.

(** Offline, a change of status looks at no status: a completed swap can be cancelled
    and accepted again. *)
Theorem completed_offer_reopens api i o s e :
  (∀ n j a, ∃ msg, request (post_accept api n j a) = Throw msg) →
  (∀ n j, ∃ msg, request (post_cancel api n j) = Throw msg) →
  find_id (S:=AtomicSwap) i (offers s) = Some o → status o = completed →
  ∃ s1 s2 e2 o1 o2,
    cancelSwapOffer true api i (s, e) = (Ok (), (s1, call e)) ∧
    find_id (S:=AtomicSwap) i (offers s1) = Some o1 ∧ status o1 = cancelled ∧
    acceptSwapOffer true api i "mallory" (s1, call e) = (Ok (), (s2, e2)) ∧
    find_id (S:=AtomicSwap) i (offers s2) = Some o2 ∧ status o2 = pending ∧ completedAt o2 = completedAt o.
Proof.
  intros Ha Hc Ho _. destruct (Hc (calls e) i) as [m1 E1].
  destruct (Ha (calls (call e)) i "mallory") as [m2 E2].
  set (f := λ o, with_status cancelled (acceptedBy o) (completedAt o) o).
  set (g := λ o, with_status pending (Some "mallory") (completedAt o) o).
  assert (∀ h l q, (∀ o, id (h o) = id o) → find_id (S:=AtomicSwap) i l = Some q →
    find_id (S:=AtomicSwap) i (update_first (λ x, str_eqb (id x) i) h l) = Some (h q)) as Hfind.
  { intros h l q Hh Hq. etransitivity; [exact (find_id_changed (S:=AtomicSwap) i h l Hh)|].
    exact (f_equal (fmap h) Hq). }
  pose proof (Hfind f _ _ (λ _, eq_refl) Ho) as H1. pose proof (Hfind g _ _ (λ _, eq_refl) H1) as H2.
  eexists _, _, _, (f o), (g (f o)). split_and!; [| |reflexivity| | |reflexivity|reflexivity].
  - unfold cancelSwapOffer. rewrite (run_fallback_failed (λ n, post_cancel api n i) m1) by exact E1. reflexivity.
  - exact H1.
  - unfold acceptSwapOffer.
    rewrite (run_fallback_failed (λ n, post_accept api n i "mallory") m2) by exact E2. reflexivity.
  - exact H2.
Qed.
