(* ===== verification/JsDate.v ===== *)
(** * Dates

    The calendar arithmetic of ECMAScript's [Date] on time values in milliseconds:
    days, years, months, [MakeDay], the setters on local time, and [toISOString]. The
    host's time zone is a parameter: a pair of functions between time values and local
    time values. Time values are assumed to stay within the range of [Date]. *)

From Stdlib Require Import String.
From S2P Require Import Prelude JsMap JsString.

Definition msPerDay : Z := 86400000.
Definition Day (t : Z) : Z := t / msPerDay.
Definition TimeWithinDay (t : Z) : Z := t mod msPerDay.

(** ** Years *)

Definition leap (y : Z) : bool := (y mod 4 =? 0) && (negb (y mod 100 =? 0) || (y mod 400 =? 0)).

(** The day number of the first of January. *)
Definition DayFromYear (y : Z) : Z :=
  365 * (y - 1970) + (y - 1969) / 4 - (y - 1901) / 100 + (y - 1601) / 400.

(** The year of a day: an estimate from the mean length of a year, corrected. *)
Definition YearFromDay (d : Z) : Z :=
  let e := 1970 + (400 * d) / 146097 in
  if d <? DayFromYear e then e - 1 else if DayFromYear (e + 1) <=? d then e + 1 else e.

Lemma DayFromYear_succ y : DayFromYear (y + 1) = DayFromYear y + if leap y then 366 else 365.
Proof.
  unfold DayFromYear, leap.
  destruct (Z.eqb_spec (y mod 4) 0), (Z.eqb_spec (y mod 100) 0), (Z.eqb_spec (y mod 400) 0); cbn [andb orb negb];
    Z.to_euclidean_division_equations; lia.
Qed.

Lemma DayFromYear_step y : DayFromYear y + 365 <= DayFromYear (y + 1) <= DayFromYear y + 366.
Proof. rewrite DayFromYear_succ. destruct (leap y); lia. Qed.

(** The year found is the one the day falls in. *)
Lemma YearFromDay_spec d : DayFromYear (YearFromDay d) <= d < DayFromYear (YearFromDay d + 1).
Proof.
  unfold YearFromDay. cbv zeta. set (e := 1970 + _).
  assert (DayFromYear e <= d + 300 ∧ d < DayFromYear (e + 1) + 300) as [H1 H2].
  { unfold e, DayFromYear. Z.to_euclidean_division_equations. lia. }
  pose proof (DayFromYear_step e) as H3. pose proof (DayFromYear_step (e - 1)) as H4.
  pose proof (DayFromYear_step (e + 1)) as H5. replace (e - 1 + 1) with e in * by lia.
  destruct (Z.ltb_spec d (DayFromYear e)); [replace (e - 1 + 1) with e by lia; lia|].
  destruct (Z.leb_spec (DayFromYear (e + 1)) d); lia.
Qed.

Lemma DayFromYear_mono y1 y2 : y1 <= y2 → DayFromYear y1 <= DayFromYear y2.
Proof.
  intros H. replace y2 with (y1 + (y2 - y1)) by lia. assert (0 <= y2 - y1) as Hn by lia.
  revert Hn. generalize (y2 - y1). apply natlike_ind; [by rewrite Z.add_0_r|].
  intros n Hn IH. replace (y1 + Z.succ n) with (y1 + n + 1) by lia.
  pose proof (DayFromYear_step (y1 + n)). lia.
Qed.

Lemma YearFromDay_unique y d : DayFromYear y <= d < DayFromYear (y + 1) → YearFromDay d = y.
Proof.
  intros H. pose proof (YearFromDay_spec d). destruct (Z.lt_trichotomy (YearFromDay d) y) as [Hl|[?|Hl]]; [|done|].
  - pose proof (DayFromYear_mono (YearFromDay d + 1) y). lia.
  - pose proof (DayFromYear_mono (y + 1) (YearFromDay d)). lia.
Qed.

(** ** Months *)

(** The days of a year before its month [m], from 0. *)
Definition DaysBeforeMonth (l : bool) (m : Z) : Z :=
  nth (Z.to_nat m) [0; 31; 59; 90; 120; 151; 181; 212; 243; 273; 304; 334; 365] 365
  + if l && (2 <=? m) then 1 else 0.

(** The month of a day of the year: the last that starts no later. *)
Definition MonthInYear (l : bool) (n : Z) : Z :=
  Z.of_nat (length (js_filter (λ m, DaysBeforeMonth l m <=? n) [1; 2; 3; 4; 5; 6; 7; 8; 9; 10; 11])).

Definition DayWithinYear (d : Z) : Z := d - DayFromYear (YearFromDay d).
Definition InLeapYear (d : Z) : bool := leap (YearFromDay d).
Definition MonthFromDay (d : Z) : Z := MonthInYear (InLeapYear d) (DayWithinYear d).
Definition DateFromDay (d : Z) : Z :=
  DayWithinYear d - DaysBeforeMonth (InLeapYear d) (MonthFromDay d) + 1.

Definition MakeDay (year month date : Z) : Z :=
  let ym := year + month / 12 in
  let mn := month mod 12 in
  DayFromYear ym + DaysBeforeMonth (leap ym) mn + date - 1.

Definition month_check (l : bool) (n : nat) : bool :=
  let m := MonthInYear l (Z.of_nat n) in
  (0 <=? m) && (m <=? 11) && (DaysBeforeMonth l m <=? Z.of_nat n) && (Z.of_nat n <? DaysBeforeMonth l (m + 1)).

Lemma month_checks : forallb (month_check true) (seq 0 366) && forallb (month_check false) (seq 0 365) = true.
Proof. vm_compute. reflexivity. Qed.

Lemma month_in_year_cases (l : bool) n : 0 <= n < (if l then 366 else 365) →
  let m := MonthInYear l n in 0 <= m <= 11 ∧ DaysBeforeMonth l m <= n < DaysBeforeMonth l (m + 1).
Proof.
  intros Hn. assert (month_check l (Z.to_nat n) = true) as H.
  { pose proof month_checks as [H1 H2]%andb_true_iff. rewrite !forallb_forall in *.
    destruct l; cbv iota in Hn; [apply H1|apply H2]; apply in_seq; lia. }
  unfold month_check in H. rewrite Z2Nat.id in H by lia. cbv zeta in H |- *.
  rewrite !andb_true_iff, !Z.leb_le, Z.ltb_lt in H. lia.
Qed.

(** Year, month and date determine the day. *)
Lemma MakeDay_of_fields d : MakeDay (YearFromDay d) (MonthFromDay d) (DateFromDay d) = d.
Proof.
  pose proof (YearFromDay_spec d) as Hy. rewrite DayFromYear_succ in Hy.
  destruct (month_in_year_cases (InLeapYear d) (DayWithinYear d)) as [Hm _].
  { unfold InLeapYear, DayWithinYear. lia. }
  unfold MakeDay. fold (MonthFromDay d) in Hm.
  rewrite Z.div_small, Z.mod_small, Z.add_0_r by lia. fold (InLeapYear d).
  unfold DateFromDay, DayWithinYear. lia.
Qed.

Lemma MakeDay_date y m a b : MakeDay y m (a + b) = MakeDay y m a + b.
Proof. unfold MakeDay. lia. Qed.

Local Ltac month_lengths :=
  repeat match goal with
  | |- context [DaysBeforeMonth ?l ?k] =>
      let v := eval vm_compute in (DaysBeforeMonth l k) in change (DaysBeforeMonth l k) with v
  end; lia.

(** The next month starts 28 to 31 days later. *)
Lemma MakeDay_month_step y m date :
  MakeDay y m date + 28 <= MakeDay y (m + 1) date <= MakeDay y m date + 31.
Proof.
  unfold MakeDay. pose proof (Z.mod_pos_bound m 12 ltac:(lia)) as Hb.
  pose proof (Z.div_mod m 12 ltac:(lia)) as Hm.
  destruct (Z.eq_dec (m mod 12) 11) as [E|E].
  - assert ((m + 1) / 12 = m / 12 + 1) as -> by (Z.to_euclidean_division_equations; lia).
    assert ((m + 1) mod 12 = 0) as -> by (Z.to_euclidean_division_equations; lia).
    rewrite E, Z.add_assoc, DayFromYear_succ. destruct (leap (y + m / 12)), (leap (y + m / 12 + 1)); month_lengths.
  - assert ((m + 1) / 12 = m / 12) as -> by (Z.to_euclidean_division_equations; lia).
    assert ((m + 1) mod 12 = m mod 12 + 1) as -> by (Z.to_euclidean_division_equations; lia).
    set (k := m mod 12) in *. assert (k = 0 ∨ k = 1 ∨ k = 2 ∨ k = 3 ∨ k = 4 ∨ k = 5 ∨ k = 6 ∨ k = 7 ∨ k = 8 ∨ k = 9 ∨ k = 10) as Hk by lia.
    clearbody k.
    destruct (leap _); repeat (destruct Hk as [->|Hk]; [month_lengths|]); subst; month_lengths.
Qed.

(** ** Local time *)

(** The host's time zone: [t + LocalTZA] in both directions. *)
Record Zone := MkZone { LocalTime : Z → Z; UTC : Z → Z }.

Definition utc_zone : Zone := MkZone (λ t, t) (λ t, t).

(** The offset from UTC varies by less than a day. *)
Definition steady (z : Zone) : Prop :=
  ∀ t l, Z.abs ((LocalTime z t - t) - (l - UTC z l)) < msPerDay.

Section Zone.
Context (z : Zone).

Definition MakeDate (day time : Z) : Z := day * msPerDay + time.

Definition getFullYear (t : Z) : Z := YearFromDay (Day (LocalTime z t)).
Definition getMonth (t : Z) : Z := MonthFromDay (Day (LocalTime z t)).
Definition getDate (t : Z) : Z := DateFromDay (Day (LocalTime z t)).

(** [date.setDate(n)] and [date.setMonth(n)], as functions of the time value. *)
Definition setDate (n t : Z) : Z :=
  let l := LocalTime z t in
  UTC z (MakeDate (MakeDay (getFullYear t) (getMonth t) n) (TimeWithinDay l)).
Definition setMonth (n t : Z) : Z :=
  let l := LocalTime z t in
  UTC z (MakeDate (MakeDay (getFullYear t) n (getDate t)) (TimeWithinDay l)).

(** [date.setHours(23, 59, 59, 999)] *)
Definition endOfDay (t : Z) : Z :=
  let l := LocalTime z t in UTC z (MakeDate (Day l) (msPerDay - 1)).

(** Moving the date by [n] moves local time by [n] days. *)
Lemma setDate_days n t : setDate (getDate t + n) t = UTC z (LocalTime z t + n * msPerDay).
Proof.
  unfold setDate, getFullYear, getMonth, getDate. cbv zeta. rewrite MakeDay_date, MakeDay_of_fields.
  unfold MakeDate, Day, TimeWithinDay, msPerDay. f_equal.
  pose proof (Z.div_mod (LocalTime z t) 86400000). lia.
Qed.

Lemma setMonth_days t : ∃ n, 28 <= n <= 31 ∧
  setMonth (getMonth t + 1) t = UTC z (LocalTime z t + n * msPerDay).
Proof.
  unfold setMonth, getFullYear, getMonth, getDate. cbv zeta. set (d := Day (LocalTime z t)).
  pose proof (MakeDay_month_step (YearFromDay d) (MonthFromDay d) (DateFromDay d)) as H.
  rewrite MakeDay_of_fields in H. exists (MakeDay (YearFromDay d) (MonthFromDay d + 1) (DateFromDay d) - d).
  split; [lia|]. unfold MakeDate, TimeWithinDay, d, Day, msPerDay. f_equal.
  pose proof (Z.div_mod (LocalTime z t) 86400000). lia.
Qed.

(** In a steady zone a date moved forward is later. *)
Lemma moved_later t n : steady z → 1 <= n → t < UTC z (LocalTime z t + n * msPerDay).
Proof. intros Hz Hn. specialize (Hz t (LocalTime z t + n * msPerDay)). unfold msPerDay in *. lia. Qed.
End Zone.

Lemma utc_steady : steady utc_zone.
Proof. intros t l. cbn. unfold msPerDay. lia. Qed.

(** ** [toISOString] *)

Definition two (n : Z) : string := digits_padded 2 n.

(** Years outside 0..9999 have a sign and six digits. *)
Definition iso_year (y : Z) : string :=
  if (0 <=? y) && (y <=? 9999) then digits_padded 4 y
  else (if y <? 0 then "-" else "+") +:+ digits_padded 6 (Z.abs y).

Definition iso_date (d : Z) : string :=
  iso_year (YearFromDay d) +:+ "-" +:+ two (MonthFromDay d + 1) +:+ "-" +:+ two (DateFromDay d).

Definition toISOString (t : Z) : string :=
  let ms := TimeWithinDay t in
  iso_date (Day t) +:+ "T" +:+ two (ms / 3600000) +:+ ":" +:+ two (ms / 60000 mod 60) +:+ ":" +:+
  two (ms / 1000 mod 60) +:+ "." +:+ digits_padded 3 (ms mod 1000) +:+ "Z".

Example iso_example : toISOString 1709210096789 = "2024-02-29T12:34:56.789Z".
Proof. vm_compute. reflexivity. Qed.
Example iso_epoch : toISOString (-1) = "1969-12-31T23:59:59.999Z".
Proof. vm_compute. reflexivity. Qed.

(** ** Reading [toISOString] back

    [Date.parse] on the format of [toISOString] with a year of four digits; [None] for a
    text of another form, which is left to the implementation. *)

(** The first [n] characters. *)
Fixpoint take_exact (n : nat) (s : string) : option (string * string) :=
  match n, s with
  | O, _ => Some (EmptyString, s)
  | S n', String c s' => '(a, b) ← take_exact n' s'; Some (String c a, b)
  | S _, EmptyString => None
  end.

Definition take_digits (n : nat) (s : string) : option (Z * string) :=
  '(a, b) ← take_exact n s;
  if str_all is_digit a then z ← index_value 0 a; Some (z, b) else None.

Definition expect (p s : string) : option string :=
  '(a, b) ← take_exact (String.length p) s; if str_eqb a p then Some b else None.

Definition within (lo hi z : Z) : option () := if (lo <=? z) && (z <=? hi) then Some () else None.

Definition Date_parse (s : string) : option Z :=
  '(y, s) ← take_digits 4 s; s ← expect "-" s;
  '(m, s) ← take_digits 2 s; s ← expect "-" s;
  '(d, s) ← take_digits 2 s; s ← expect "T" s;
  '(h, s) ← take_digits 2 s; s ← expect ":" s;
  '(mi, s) ← take_digits 2 s; s ← expect ":" s;
  '(se, s) ← take_digits 2 s; s ← expect "." s;
  '(ms, s) ← take_digits 3 s; s ← expect "Z" s;
  if str_eqb s "" then
    within 1 12 m;; within 1 31 d;; within 0 23 h;; within 0 59 mi;; within 0 59 se;;
    Some (MakeDate (MakeDay y (m - 1) d) (((h * 60 + mi) * 60 + se) * 1000 + ms))
  else None.

Lemma within_true lo hi z : lo <= z <= hi → within lo hi z = Some ().
Proof. intros H. unfold within. by rewrite (proj2 (Z.leb_le lo z)), (proj2 (Z.leb_le z hi)) by lia. Qed.

Lemma take_exact_app a b : take_exact (String.length a) (a +:+ b) = Some (a, b).
Proof.
  induction a as [|c a IH]; [done|].
  change (take_exact (String.length (String c a)) (String c a +:+ b))
    with ('(x, y) ← take_exact (String.length a) (a +:+ b); Some (String c x, y)). by rewrite IH.
Qed.

Lemma expect_app p s : expect p (p +:+ s) = Some s.
Proof. unfold expect. rewrite take_exact_app. cbn. by rewrite str_eqb_refl. Qed.

Definition digits_check (n k : nat) : bool :=
  let s := digits_padded n (Z.of_nat k) in
  (String.length s =? n)%nat && str_all is_digit s && bool_decide (index_value 0 s = Some (Z.of_nat k)).

Lemma digits_checks : forallb (digits_check 2) (seq 0 100) && forallb (digits_check 3) (seq 0 (Z.to_nat 1000))
  && forallb (digits_check 4) (seq 0 (Z.to_nat 10000)) = true.
Proof. vm_compute. reflexivity. Qed.

Lemma take_digits_padded n z s : (n = 2 ∨ n = 3 ∨ n = 4)%nat → 0 <= z < 10 ^ Z.of_nat n →
  take_digits n (digits_padded n z +:+ s) = Some (z, s).
Proof.
  intros Hn Hz. assert (digits_check n (Z.to_nat z) = true) as H.
  { pose proof digits_checks as [[H2 H3]%andb_true_iff H4]%andb_true_iff. rewrite forallb_forall in H2, H3, H4.
    destruct Hn as [->|[->| ->]].
    - change (10 ^ Z.of_nat 2) with 100 in Hz. apply H2, in_seq. lia.
    - change (10 ^ Z.of_nat 3) with 1000 in Hz. apply H3, in_seq. lia.
    - change (10 ^ Z.of_nat 4) with 10000 in Hz. apply H4, in_seq. lia. }
  unfold digits_check in H. cbv zeta in H. rewrite Z2Nat.id in H by lia.
  rewrite !andb_true_iff, Nat.eqb_eq, bool_decide_eq_true in H. destruct H as [[Hl Hd] Hv].
  unfold take_digits. rewrite <- Hl at 1. rewrite take_exact_app. cbn. by rewrite Hd, Hv.
Qed.

Lemma month_lengths_check : forallb (λ n, forallb (λ l : bool,
    DaysBeforeMonth l (Z.of_nat n + 1) - DaysBeforeMonth l (Z.of_nat n) <=? 31) [true; false]) (seq 0 12) = true.
Proof. vm_compute. reflexivity. Qed.

Lemma month_length (l : bool) m : 0 <= m <= 11 → DaysBeforeMonth l (m + 1) - DaysBeforeMonth l m <= 31.
Proof.
  intros Hm. pose proof month_lengths_check as H. rewrite forallb_forall in H.
  specialize (H (Z.to_nat m)). rewrite Z2Nat.id in H by lia. apply Z.leb_le.
  assert (In (Z.to_nat m) (seq 0 12)) as Hin by (apply in_seq; lia). specialize (H Hin).
  rewrite forallb_forall in H. apply H. destruct l; cbn; auto.
Qed.

(** The fields of a day are in their ranges. *)
Lemma month_date_bounds d : 0 <= MonthFromDay d <= 11 ∧ 1 <= DateFromDay d <= 31.
Proof.
  pose proof (YearFromDay_spec d) as Hy. rewrite DayFromYear_succ in Hy.
  destruct (month_in_year_cases (InLeapYear d) (DayWithinYear d)) as [Hm Hd].
  { unfold InLeapYear, DayWithinYear. lia. }
  fold (MonthFromDay d) in Hm, Hd. split; [done|]. unfold DateFromDay.
  pose proof (month_length (InLeapYear d) _ Hm). lia.
Qed.

(** Reading the text of a time value of the years 0 to 9999 gives the time value. *)
Lemma Date_parse_ISO t : 0 <= YearFromDay (Day t) <= 9999 → Date_parse (toISOString t) = Some t.
Proof.
  intros Hy. unfold toISOString, iso_date, iso_year. cbv zeta.
  assert ((0 <=? YearFromDay (Day t)) && (YearFromDay (Day t) <=? 9999) = true) as -> by (rewrite andb_true_iff, !Z.leb_le; lia).
  pose proof (month_date_bounds (Day t)) as [Hm Hd]. pose proof (Z.mod_pos_bound t msPerDay ltac:(done)) as Hms.
  fold (TimeWithinDay t) in Hms. set (ms := TimeWithinDay t) in *. unfold two, msPerDay in *.
  assert (0 <= ms / 3600000 <= 23 ∧ 0 <= ms / 60000 mod 60 <= 59 ∧ 0 <= ms / 1000 mod 60 <= 59 ∧ 0 <= ms mod 1000 < 1000) as (Hh & Hmi & Hse & Hmm).
  { Z.to_euclidean_division_equations. lia. }
  unfold Date_parse. rewrite !str_app_assoc.
  repeat (rewrite take_digits_padded by (auto; cbn; lia); cbn [mbind option_bind]; rewrite expect_app; cbn [mbind option_bind]).
  rewrite take_digits_padded by (auto; cbn; lia). cbn [mbind option_bind].
  assert (expect "Z" "Z" = Some "") as -> by reflexivity. cbn [mbind option_bind].
  rewrite str_eqb_refl, !within_true by lia. cbn [mbind option_bind]. do 2 f_equal.
  replace (MonthFromDay (Day t) + 1 - 1) with (MonthFromDay (Day t)) by lia. rewrite MakeDay_of_fields.
  unfold MakeDate, Day, msPerDay. pose proof (Z.div_mod t 86400000 ltac:(lia)) as Et. change (t mod 86400000) with ms in Et.
  assert (((ms / 3600000 * 60 + ms / 60000 mod 60) * 60 + ms / 1000 mod 60) * 1000 + ms mod 1000 = ms); [|lia].
  Z.to_euclidean_division_equations. lia.
Qed.

Example parse_example : Date_parse "2024-02-29T12:34:56.789Z" = Some 1709210096789.
Proof. vm_compute. reflexivity. Qed.
