(* ===== verification/Scheduler.v ===== *)
(** * [SchedulerService] and [BudgetManagerService]

    apps/web/wallet/src/services/scheduler.ts and budgetManager.ts: scheduled and
    recurring transactions, and budgets over a period. Both keep a map and its stored
    array, without guarding their use of [localStorage], and move dates by the calendar
    of the host's time zone. *)

From Stdlib Require Import String.
From S2P Require Import Prelude JsMap JsNumber JsString Store JsDate.
Inductive Frequency := daily | weekly | monthly.

(** [calculateNextExecution] and [calculateEndDate] *)
Definition calculateNextExecution (z : Zone) (current : Z) (frequency : Frequency) : Z :=
  match frequency with
  | daily => setDate z (getDate z current + 1) current
  | weekly => setDate z (getDate z current + 7) current
  | monthly => setMonth z (getMonth z current + 1) current
  end.

Definition calculateEndDate (z : Zone) (startDate : Z) (period : Frequency) : Z :=
  match period with
  | daily => setDate z (getDate z startDate + 1) startDate
  | weekly => setDate z (getDate z startDate + 7) startDate
  | monthly => setMonth z (getMonth z startDate + 1) startDate
  end.

(** ** Scheduled transactions *)

Record ScheduledTransaction := MkScheduled {
  id : string;
  to : string;
  amount : num;
  fee : num;
  label : option string;
  scheduledDate : Z;
  recurring : bool;
  frequency : option Frequency;
  nextExecution : option Z;
  executed : bool;
  executedAt : option Z;
  txid : option string;
  createdAt : Z;
}.

Record Scheduler := MkScheduler {
  scheduled : jsmap ScheduledTransaction;
  ls_scheduled : cell (list ScheduledTransaction);
}.

#[export] Instance scheduler_store : Store Scheduler ScheduledTransaction := {|
  key := id;
  items := scheduled;
  set_items := λ m s, MkScheduler m (ls_scheduled s);
  stored := ls_scheduled;
  set_stored := λ c s, MkScheduler (scheduled s) c;
|}.
#[export] Instance scheduler_laws : StoreLaws Scheduler ScheduledTransaction.
Proof. by constructor. Qed.

Definition fresh (c : cell (list ScheduledTransaction)) : Scheduler := MkScheduler [] c.

Abbreviation M := (js (Scheduler * Env)).

Definition loadScheduled : M () := ls_use load_items.
Definition saveScheduled : M () := ls_use save_items.
Definition constructor : M () := loadScheduled.

Section Zone.
Context (z : Zone).

Definition scheduleTransaction (dest : string) (amt f : num) (date : Z) (lbl : option string)
    (rec : option Frequency) : M ScheduledTransaction :=
  t0 ← date_now;
  r ← random36;
  t1 ← date_now;
  let tx := MkScheduled ("sched_" +:+ pretty t0 +:+ "_" +:+ r) dest amt f lbl date
    (bool_decide (is_Some rec)) rec (calculateNextExecution z date <$> rec) false None None t1 in
  put_item tx;;
  saveScheduled;;
  mret tx.

Definition getScheduledTransactions : M (list ScheduledTransaction) :=
  s ← this; mret (js_sort (λ a b, scheduledDate b <? scheduledDate a) (map_values (scheduled s))).

Definition mark_executed (t : Z) (r : string) (tx : ScheduledTransaction) : ScheduledTransaction :=
  MkScheduled (id tx) (to tx) (amount tx) (fee tx) (label tx) (scheduledDate tx) (recurring tx)
    (frequency tx) (nextExecution tx) true (Some t) (Some ("tx" +:+ r)) (createdAt tx).

(** The date and frequency of the next transaction, when the object asks for one. *)
Definition next_of (tx : ScheduledTransaction) : option (Z * Frequency) :=
  if recurring tx then
    match frequency tx, nextExecution tx with
    | Some fr, Some n => if n =? 0 then None else Some (n, fr)
    | _, _ => None
    end
  else None.

Definition executeTransaction (i : string) : M () :=
  s ← this;
  match map_get i (scheduled s) with
  | None => js_throw "Scheduled transaction not found"
  | Some tx =>
      t ← date_now;
      r ← random36;
      modify_this (λ s, set_items (map_update i (mark_executed t r) (scheduled s)) s);;
      match next_of tx with
      | Some (n, fr) => scheduleTransaction (to tx) (amount tx) (fee tx) n (label tx) (Some fr);; mret ()
      | None => mret ()
      end;;
      saveScheduled
  end.

Definition cancelScheduled (i : string) : M () :=
  modify_this (λ s, set_items (map_delete i (scheduled s)) s);;
  saveScheduled.
End Zone.

(** ** Budgets *)

Module Budgets.

Record Budget := MkBudget {
  id : string;
  name : string;
  category : string;
  limit : num;
  period : Frequency;
  spent : num;
  startDate : Z;
  endDate : Z;
  alertThreshold : num;
}.

Record BudgetManager := MkManager { budgets : jsmap Budget; ls_budgets : cell (list Budget) }.

#[export] Instance budget_store : Store BudgetManager Budget := {|
  key := id;
  items := budgets;
  set_items := λ m s, MkManager m (ls_budgets s);
  stored := ls_budgets;
  set_stored := λ c s, MkManager (budgets s) c;
|}.
#[export] Instance budget_laws : StoreLaws BudgetManager Budget.
Proof. by constructor. Qed.

Definition fresh (c : cell (list Budget)) : BudgetManager := MkManager [] c.

Abbreviation M := (js (BudgetManager * Env)).

Definition loadBudgets : M () := ls_use load_items.
Definition saveBudgets : M () := ls_use save_items.
Definition constructor : M () := loadBudgets.

Definition with_spent (x : num) (b : Budget) : Budget :=
  MkBudget (id b) (name b) (category b) (limit b) (period b) x (startDate b) (endDate b) (alertThreshold b).
Definition with_dates (t e : Z) (b : Budget) : Budget :=
  MkBudget (id b) (name b) (category b) (limit b) (period b) (spent b) t e (alertThreshold b).

Section Zone.
Context (z : Zone).

Definition createBudget (nm cat : string) (lim : num) (per : Frequency) (alert : num) : M Budget :=
  now ← date_now;
  t0 ← date_now;
  r ← random36;
  let b := MkBudget ("budget_" +:+ pretty t0 +:+ "_" +:+ r) nm cat lim per nzero now
    (calculateEndDate z now per) alert in
  put_item b;;
  saveBudgets;;
  mret b.

Definition getBudgets : M (list Budget) := s ← this; mret (map_values (budgets s)).

Definition percentageUsed (b : Budget) : num := nmul (ndiv (spent b) (limit b)) (of_Z 100).

(** The quotation mark. *)
Definition quote : string := String (Ascii.ascii_of_nat 34) EmptyString.

(** The warning, when the threshold is reached. *)
Definition alert_of (b : Budget) : option string :=
  if SFleb (alertThreshold b) (percentageUsed b) then
    Some ("Budget " +:+ quote +:+ name b +:+ quote +:+ " has reached " +:+ to_fixed 0 (percentageUsed b) +:+ "% of limit")
  else None.

Definition addSpending (budgetId : string) (amt : num) : M (option string) :=
  s ← this;
  match map_get budgetId (budgets s) with
  | None => js_throw "Budget not found"
  | Some b =>
      let b' := with_spent (nadd (spent b) amt) b in
      modify_this (λ s, set_items (map_update budgetId (λ _, b') (budgets s)) s);;
      saveBudgets;;
      mret (alert_of b')
  end.

Definition deleteBudget (i : string) : M () :=
  modify_this (λ s, set_items (map_delete i (budgets s)) s);;
  saveBudgets.

Definition resetBudget (i : string) : M () :=
  s ← this;
  match map_get i (budgets s) with
  | None => js_throw "Budget not found"
  | Some b =>
      modify_this (λ s, set_items (map_update i (with_spent nzero) (budgets s)) s);;
      t ← date_now;
      modify_this (λ s, set_items (map_update i (with_dates t (calculateEndDate z t (period b))) (budgets s)) s);;
      saveBudgets
  end.
End Zone.
End Budgets.

(** * Theorems *)

(** ** The next date *)

Lemma next_is_moved z t f : ∃ n, 1 <= n <= 31 ∧
  calculateNextExecution z t f = UTC z (LocalTime z t + n * msPerDay).
Proof.
  destruct f; cbn [calculateNextExecution].
  - exists 1. split; [lia|apply setDate_days].
  - exists 7. split; [lia|apply setDate_days].
  - destruct (setMonth_days z t) as (n & Hn & ->). exists n. split; [lia|done].
Qed.

(** In a time zone whose offset varies by less than a day, the next execution and the
    end of a period come after the date they are computed from, by less than 32 days. *)
Theorem next_execution_bounds z t f : steady z →
  t < calculateNextExecution z t f < t + 32 * msPerDay ∧
  calculateEndDate z t f = calculateNextExecution z t f.
Proof.
  intros Hz. split; [|by destruct f]. destruct (next_is_moved z t f) as (n & Hn & ->).
  pose proof (moved_later z t n Hz ltac:(lia)) as Hlt. split; [done|].
  specialize (Hz t (LocalTime z t + n * msPerDay)). unfold msPerDay in *. lia.
Qed.

(** The 31st of January moves to March: February has no schedule. *)
Example monthly_skips_february :
  toISOString (calculateNextExecution utc_zone 1738281600000 monthly) = "2025-03-03T00:00:00.000Z" ∧
  toISOString 1738281600000 = "2025-01-31T00:00:00.000Z".
Proof. vm_compute. done. Qed.

(** ** Recurring transactions move forward *)

Definition recurrence_ok (tx : ScheduledTransaction) : Prop :=
  recurring tx = bool_decide (is_Some (frequency tx)) ∧
  (is_Some (frequency tx) ↔ is_Some (nextExecution tx)) ∧
  ∀ n, nextExecution tx = Some n → scheduledDate tx < n.

Definition schedule_ok (s : Scheduler) : Prop :=
  keyed (scheduled s) ∧ Forall recurrence_ok (map_values (scheduled s)).

Lemma schedule_ok_save : preserves schedule_ok saveScheduled.
Proof. unfold saveScheduled, ls_use. js_preserve. apply preserves_save_items. by intros c s. Qed.
#[local] Hint Resolve schedule_ok_save : js.

Lemma values_set_ok (P : ScheduledTransaction → Prop) k v (m : jsmap ScheduledTransaction) :
  P v → Forall P (map_values m) → Forall P (map_values (map_set k v m)).
Proof. rewrite <- !map_values_all. by apply (map_all_set (λ _, P)). Qed.

Section Zone.
Context (z : Zone) (Hz : steady z).

Lemma scheduled_ok i dest amt f date lbl rec t :
  recurrence_ok (MkScheduled i dest amt f lbl date (bool_decide (is_Some rec)) rec
    (calculateNextExecution z date <$> rec) false None None t).
Proof.
  split; [done|]. split; cbn; [by rewrite fmap_is_Some|]. intros n. destruct rec as [fr|]; intros [= <-].
  by apply next_execution_bounds.
Qed.

Lemma schedule_ok_schedule dest amt f date lbl rec :
  preserves schedule_ok (scheduleTransaction z dest amt f date lbl rec).
Proof.
  unfold scheduleTransaction. js_preserve. apply preserves_modify. intros s [Hk Hall]. split.
  - exact (keyed_set (S:=Scheduler) _ _ Hk).
  - apply values_set_ok; [apply scheduled_ok|done].
Qed.
#[local] Hint Resolve schedule_ok_schedule : js.

Lemma schedule_ok_execute i : preserves schedule_ok (executeTransaction z i).
Proof.
  unfold executeTransaction. js_preserve. apply preserves_modify. intros s' [Hk Hall]. split.
  - by apply (keyed_update (S:=Scheduler)).
  - rewrite <- map_values_all in *. by apply map_all_update.
Qed.

Lemma schedule_ok_cancel i : preserves schedule_ok (cancelScheduled i).
Proof.
  unfold cancelScheduled. js_preserve. apply preserves_modify. intros s' [Hk Hall]. split.
  - by apply (keyed_delete (S:=Scheduler)).
  - rewrite <- map_values_all in *. by apply map_all_delete.
Qed.

Lemma schedule_ok_constructor c e : cell_all recurrence_ok c → schedule_ok (constructor (fresh c, e)).2.1.
Proof.
  intros Hc. unfold constructor, loadScheduled, ls_use. js_run.
  destruct (browser e); [|split; [apply (keyed_nil (S:=Scheduler))|done]].
  destruct (load_items_cases (fresh c) e) as (r & s' & -> & [->|(l & Hl & ->)]);
    [split; [apply (keyed_nil (S:=Scheduler))|done]|].
  cbn in Hl. subst c. split.
  - apply (keyed_set_all (S:=Scheduler)), (keyed_nil (S:=Scheduler)).
  - change (Forall recurrence_ok (map_values (map_set_all (key (S:=Scheduler)) [] l))).
    rewrite <- map_values_all. by apply map_all_set_all_list; [apply map_all_nil|].
Qed.

Inductive reachable : Scheduler * Env → Prop :=
  | start c e : cell_all recurrence_ok c → reachable (constructor (fresh c, e)).2
  | schedule dest amt f date lbl rec w : reachable w →
      reachable (scheduleTransaction z dest amt f date lbl rec w).2
  | execute i w : reachable w → reachable (executeTransaction z i w).2
  | cancel i w : reachable w → reachable (cancelScheduled i w).2.

(** In every state the service reaches over a storage that has this property, a
    transaction has a next execution exactly when it recurs, and it is later than its
    date: what recurs moves forward. *)
Theorem recurring_moves_forward w i tx : reachable w → map_get i (scheduled w.1) = Some tx →
  id tx = i ∧ (recurring tx = true ↔ is_Some (nextExecution tx)) ∧
  ∀ n, nextExecution tx = Some n → scheduledDate tx < n.
Proof.
  intros Hw Hi. assert (schedule_ok w.1) as [Hk Hall].
  { clear Hi. induction Hw as [c e Hc|dest amt f date lbl rec w _ IH|j w _ IH|j w _ IH].
    - by apply schedule_ok_constructor.
    - by apply schedule_ok_schedule.
    - by apply schedule_ok_execute.
    - by apply schedule_ok_cancel. }
  split; [exact (keyed_get (S:=Scheduler) _ _ _ Hk Hi)|].
  rewrite Forall_forall in Hall. destruct (Hall tx) as (Hr & Hn & Hd).
  { apply elem_of_map_values. exists i. by apply map_get_Some_elem. }
  split; [|done]. by rewrite Hr, bool_decide_eq_true, Hn.
Qed.

(** ** Execution *)

(** The transaction that an execution schedules. *)
Definition successor (tx : ScheduledTransaction) (n : Z) (fr : Frequency) (e : Env) : ScheduledTransaction :=
  MkScheduled ("sched_" +:+ pretty (reading e 1) +:+ "_" +:+ entropy e (draws e + 1)%nat)
    (to tx) (amount tx) (fee tx) (label tx) n true (Some fr) (Some (calculateNextExecution z n fr))
    false None None (reading e 2).

(** [executeTransaction] marks the transaction and, when it recurs, schedules the next
    one; both are stored. It does not look at whether the transaction was executed. *)
Theorem executeTransaction_effect i tx s e : browser e = true → writable e = true →
  map_get i (scheduled s) = Some tx →
  let marked := map_update i (mark_executed (reading e 0) (entropy e (draws e))) (scheduled s) in
  let m := match next_of tx with
           | Some (n, fr) => let tx' := successor tx n fr e in map_set (id tx') tx' marked
           | None => marked
           end in
  ∃ e', executeTransaction z i (s, e) = (Ok (), (MkScheduler m (Some (TJson (map_values m))), e')).
Proof.
  intros Hb Hw Hi. cbv zeta. unfold executeTransaction. rewrite run_this. cbn [fst]. rewrite Hi.
  rewrite run_date_now, run_random36, run_modify. cbn [fst snd].
  assert (reading e 0 = clock e (ticks e)) as -> by (unfold reading; f_equal; lia).
  assert (∀ s e, browser e = true → writable e = true → saveScheduled (s, e) =
    (Ok (), (MkScheduler (scheduled s) (Some (TJson (map_values (scheduled s)))), e))) as Hsave.
  { clear. intros s e Hb Hw. unfold saveScheduled, ls_use. js_run. rewrite Hb.
    rewrite (save_items_run s e), Hw. done. }
  destruct (next_of tx) as [[n fr]|].
  - unfold scheduleTransaction. js_run. unfold put_item. js_run.
    rewrite (run_Ok _ _ _ _ _ (Hsave _ (tick (draw (tick (draw (tick e))))) Hb Hw)). js_run.
    rewrite (Hsave _ (tick (draw (tick (draw (tick e))))) Hb Hw). eexists. unfold successor, reading. cbn.
    rewrite !Nat.add_1_r. 
    replace (ticks e + 2)%nat with (S (S (ticks e))) by lia. reflexivity.
  - js_run. rewrite (Hsave _ (draw (tick e)) Hb Hw). by eexists.
Qed.
End Zone.

Lemma next_execution_bounds_witness :
  steady utc_zone ∧ 1738281600000 < calculateNextExecution utc_zone 1738281600000 weekly < 1738281600000 + 32 * msPerDay.
Proof. split; [exact utc_steady|]. apply (next_execution_bounds utc_zone 1738281600000 weekly utc_steady). Defined.

Definition demo_scheduler : Scheduler * Env :=
  (scheduleTransaction utc_zone "kc1rent" (of_Z 5) (lit 1 4) 1738281600000 None (Some monthly)
    (constructor (fresh None, demo_env)).2).2.
Definition demo_tx : ScheduledTransaction :=
  default (MkScheduled "" "" nzero nzero None 0 false None None false None None 0)
    (head (map_values (scheduled demo_scheduler.1))).

Lemma demo_lookup : map_get "sched_1700000000000_ra" (scheduled demo_scheduler.1) = Some demo_tx.
Proof. vm_compute. reflexivity. Qed.

Lemma recurring_moves_forward_witness :
  scheduledDate demo_tx < default 0 (nextExecution demo_tx).
Proof.
  destruct (recurring_moves_forward utc_zone utc_steady demo_scheduler "sched_1700000000000_ra" demo_tx)
    as (_ & _ & H).
  - apply schedule, start. exact I.
  - exact demo_lookup.
  - apply H. vm_compute. reflexivity.
Defined.

Lemma executeTransaction_effect_witness : ∃ s' e',
  executeTransaction utc_zone "sched_1700000000000_ra" (demo_scheduler.1, demo_scheduler.2) = (Ok (), (s', e')).
Proof.
  destruct (executeTransaction_effect utc_zone "sched_1700000000000_ra" demo_tx demo_scheduler.1 demo_scheduler.2)
    as (e' & E); [reflexivity|reflexivity|exact demo_lookup|].
  eexists _, e'. exact E.
Defined.

(** Executed twice, the same transaction is scheduled twice for the following month. *)
Example executed_twice_schedules_twice :
  let w := (executeTransaction utc_zone "sched_1700000000000_ra"
    (executeTransaction utc_zone "sched_1700000000000_ra" demo_scheduler).2).2 in
  scheduledDate <$> map_values (scheduled w.1) = [1738281600000; 1740960000000; 1740960000000].
Proof. vm_compute. reflexivity. Qed.

(** ** Budgets *)

Module BudgetFacts.
Import Budgets.

Section Zone.
Context (z : Zone).

(** The end of a budget's period is the one its start determines. *)
Definition period_ok (b : Budget) : Prop := endDate b = calculateEndDate z (startDate b) (period b).
Definition budgets_ok (s : BudgetManager) : Prop :=
  keyed (budgets s) ∧ map_all (λ _, period_ok) (budgets s).

Lemma budgets_ok_save : preserves budgets_ok saveBudgets.
Proof. unfold saveBudgets, ls_use. js_preserve. apply preserves_save_items. by intros c s. Qed.
#[local] Hint Resolve budgets_ok_save : js.

Lemma ok_create nm cat lim per alert : preserves budgets_ok (createBudget z nm cat lim per alert).
Proof.
  unfold createBudget. js_preserve. apply preserves_modify. intros s [Hk Hall].
  split; [by apply (keyed_set (S:=BudgetManager))|by apply map_all_set].
Qed.

Lemma ok_spend i amt : preserves budgets_ok (addSpending i amt).
Proof.
  unfold addSpending. apply preserves_this. intros s [Hk Hall].
  destruct (map_get i (budgets s)) as [b|] eqn:E; [|js_preserve]. 
  apply preserves_bind; [|intros; js_preserve]. apply preserves_modify. intros s' [Hk' Hall']. split.
  - unfold map_update, items, set_items. cbn. destruct (map_get i (budgets s')); [|done].
    pose proof (keyed_get (S:=BudgetManager) _ _ _ Hk E) as Hb.
    pose proof (keyed_set (S:=BudgetManager) (with_spent (nadd (spent b) amt) b) _ Hk') as H.
    unfold key in H. cbn in H, Hb. by rewrite Hb in H.
  - cbn. unfold map_update. destruct (map_get i (budgets s')); [|done].
    apply map_all_set; [exact (map_all_get _ _ _ _ Hall E)|done].
Qed.

Lemma ok_delete i : preserves budgets_ok (deleteBudget i).
Proof.
  unfold deleteBudget. js_preserve. apply preserves_modify. intros s [Hk Hall].
  split; [by apply (keyed_delete (S:=BudgetManager))|by apply map_all_delete].
Qed.

Lemma ok_reset i : preserves budgets_ok (resetBudget z i).
Proof.
  intros [s e] [Hk Hall]. unfold resetBudget. rewrite run_this. cbn [fst].
  destruct (map_get i (budgets s)) as [b|] eqn:E; [|by split]. js_run. apply budgets_ok_save. split; cbn.
  - apply (keyed_update (S:=BudgetManager)); [done|]. by apply (keyed_update (S:=BudgetManager)).
  - unfold map_update at 1. rewrite map_get_update, E. cbn. apply map_all_set; [done|].
    apply map_all_update; [|done]. by intros v.
Qed.

Lemma ok_constructor c e : cell_all period_ok c → budgets_ok (constructor (fresh c, e)).2.1.
Proof.
  intros Hc. unfold constructor, loadBudgets, ls_use. js_run.
  destruct (browser e); [|split; [apply (keyed_nil (S:=BudgetManager))|apply map_all_nil]].
  destruct (load_items_cases (fresh c) e) as (r & s' & -> & [->|(l & Hl & ->)]);
    [split; [apply (keyed_nil (S:=BudgetManager))|apply map_all_nil]|].
  cbn in Hl. subst c. split.
  - apply (keyed_set_all (S:=BudgetManager)), (keyed_nil (S:=BudgetManager)).
  - by apply map_all_set_all_list; [apply map_all_nil|].
Qed.

Inductive reachable : BudgetManager * Env → Prop :=
  | start c e : cell_all period_ok c → reachable (constructor (fresh c, e)).2
  | create nm cat lim per alert w : reachable w → reachable (createBudget z nm cat lim per alert w).2
  | spend i amt w : reachable w → reachable (addSpending i amt w).2
  | delete i w : reachable w → reachable (deleteBudget i w).2
  | reset i w : reachable w → reachable (resetBudget z i w).2.

(** In every state the service reaches, the end of a budget's period is the one computed
    from its start, later than it and by less than 32 days. *)
Theorem budget_periods w i b : steady z → reachable w → map_get i (budgets w.1) = Some b →
  endDate b = calculateEndDate z (startDate b) (period b) ∧
  startDate b < endDate b < startDate b + 32 * msPerDay.
Proof.
  intros Hz Hw Hb. assert (budgets_ok w.1) as [_ Hall].
  { clear Hb. induction Hw as [c e Hc|nm cat lim per alert w _ IH|j amt w _ IH|j w _ IH|j w _ IH].
    - by apply ok_constructor.
    - by apply ok_create.
    - by apply ok_spend.
    - by apply ok_delete.
    - by apply ok_reset. }
  pose proof (map_all_get _ _ _ _ Hall Hb) as H. red in H. split; [done|]. rewrite H.
  destruct (next_execution_bounds z (startDate b) (period b) Hz) as [H1 ->]. done.
Qed.
End Zone.
End BudgetFacts.
