(* ===== verification/TradingEngine.v ===== *)
(** * [TradingEngine] (apps/web/wallet/src/services/tradingEngine.ts)

    Orders, trades and positions over market data that the pages set. Nothing is stored. *)

From Stdlib Require Import String.
From S2P Require Import Prelude JsMap JsNumber FloatFacts WalletApi.
Inductive OrderType := market | limit | stop_loss | take_profit.
Inductive Side := buy | sell.
Inductive OrderStatus := pending | active | filled_status | cancelled.
Inductive PositionSide := long | short.
#[export] Instance OrderType_eq_dec : EqDecision OrderType.
Proof. solve_decision. Defined.
#[export] Instance Side_eq_dec : EqDecision Side.
Proof. solve_decision. Defined.
#[export] Instance OrderStatus_eq_dec : EqDecision OrderStatus.
Proof. solve_decision. Defined.
#[export] Instance PositionSide_eq_dec : EqDecision PositionSide.
Proof. solve_decision. Defined.

Record Order := MkOrder {
  o_id : string;
  o_pair : string;
  o_type : OrderType;
  o_side : Side;
  o_price : option num;
  o_amount : num;
  filled : num;
  status : OrderStatus;
  o_timestamp : Z;
}.

Record Trade := MkTrade {
  t_id : string;
  t_pair : string;
  t_side : Side;
  t_price : num;
  t_amount : num;
  t_timestamp : Z;
}.

Record Position := MkPosition {
  pair : string;
  side : PositionSide;
  entryPrice : num;
  size : num;
  unrealizedPnL : num;
  leverage : num;
}.

Record Ticker := MkTicker { price : num; change24h : num; volume24h : num; high24h : num; low24h : num }.
Record OrderBook := MkBook { bids : list (num * num); asks : list (num * num) }.
Record Candle := MkCandle { timestamp : Z; open : num; high : num; low : num; close : num; volume : num }.

Record Engine := MkEngine {
  orders : jsmap Order;
  trades : list Trade;
  positions : jsmap Position;
  priceCache : jsmap num;
  tickers : jsmap Ticker;
  orderBooks : jsmap OrderBook;
  priceHistory : jsmap (list Candle);
}.

Definition set_orders m s :=
  MkEngine m (trades s) (positions s) (priceCache s) (tickers s) (orderBooks s) (priceHistory s).
Definition set_trades l s :=
  MkEngine (orders s) l (positions s) (priceCache s) (tickers s) (orderBooks s) (priceHistory s).
Definition set_positions m s :=
  MkEngine (orders s) (trades s) m (priceCache s) (tickers s) (orderBooks s) (priceHistory s).

Abbreviation M := (js (Engine * Env)).

Definition fresh : Engine := MkEngine [] [] [] [] [] [] [].

(** ** Market data *)

Definition setTicker (p : string) (data : Ticker) : M () :=
  modify_this (λ s, MkEngine (orders s) (trades s) (positions s) (map_set p (price data) (priceCache s))
    (map_set p data (tickers s)) (orderBooks s) (priceHistory s)).
Definition setOrderBook (p : string) (data : OrderBook) : M () :=
  modify_this (λ s, MkEngine (orders s) (trades s) (positions s) (priceCache s) (tickers s)
    (map_set p data (orderBooks s)) (priceHistory s)).
Definition setPriceHistory (p : string) (data : list Candle) : M () :=
  modify_this (λ s, MkEngine (orders s) (trades s) (positions s) (priceCache s) (tickers s) (orderBooks s)
    (map_set p data (priceHistory s))).

Definition getCurrentPrice (p : string) (s : Engine) : num := default nzero (map_get p (priceCache s)).
Definition get24HourChange (p : string) (s : Engine) : num :=
  default nzero (change24h <$> map_get p (tickers s)).
Definition get24HourVolume (p : string) (s : Engine) : num :=
  default nzero (volume24h <$> map_get p (tickers s)).
Definition get24HourHigh (p : string) (s : Engine) : num :=
  default nzero (high24h <$> map_get p (tickers s)).
Definition get24HourLow (p : string) (s : Engine) : num :=
  default nzero (low24h <$> map_get p (tickers s)).
Definition getOrderBook (p : string) (s : Engine) : OrderBook :=
  default (MkBook [] []) (map_get p (orderBooks s)).
Definition getPriceHistory (p : string) (lim : Z) (s : Engine) : list Candle :=
  let history := default [] (map_get p (priceHistory s)) in
  if lim <=? 0 then [] else slice_last (Z.to_nat lim) history.

(** ** Positions *)

Definition calculateUnrealizedPnL (s : Engine) (p : Position) : num :=
  let currentPrice := getCurrentPrice (pair p) s in
  if SFleb currentPrice nzero then nzero
  else
    let priceDiff := if bool_decide (side p = long) then nsub currentPrice (entryPrice p)
                     else nsub (entryPrice p) currentPrice in
    nmul priceDiff (size p).

Definition with_size (sz entry : num) (p : Position) : Position :=
  MkPosition (pair p) (side p) entry sz (unrealizedPnL p) (leverage p).
Definition with_pnl (x : num) (p : Position) : Position :=
  MkPosition (pair p) (side p) (entryPrice p) (size p) x (leverage p).

(** Does an order on this side add to the position? *)
Definition adds (p : Position) (sd : Side) : bool :=
  match side p, sd with long, buy | short, sell => true | _, _ => false end.

Definition resized (p : Position) (sd : Side) (pr amt : num) : Position :=
  if adds p sd then
    let totalSize := nadd (size p) amt in
    with_size totalSize (ndiv (nadd (nmul (entryPrice p) (size p)) (nmul pr amt)) totalSize) p
  else with_size (nmax nzero (nsub (size p) amt)) (entryPrice p) p.

Definition updatePosition (p : string) (sd : Side) (pr amt : num) (s : Engine) : Engine :=
  match map_get p (positions s) with
  | Some existing =>
      let p1 := resized existing sd pr amt in
      let p2 := if SFltb nzero (size p1) then with_pnl (calculateUnrealizedPnL s p1) p1 else p1 in
      if negb (adds existing sd) && SFeqb (size p1) nzero then set_positions (map_delete p (positions s)) s
      else set_positions (map_set p p2 (positions s)) s
  | None =>
      let sd' := match sd with buy => long | sell => short end in
      set_positions (map_set p (MkPosition p sd' pr amt nzero (of_Z 1)) (positions s)) s
  end.

(** ** Orders *)

Definition placeOrder (p : string) (ty : OrderType) (sd : Side) (pr : option num) (amt : num) : M string :=
  t0 ← date_now;
  r ← random36;
  t1 ← date_now;
  let orderId := "order_" +:+ pretty t0 +:+ "_" +:+ r in
  if bool_decide (ty = market) then
    s ← this;
    let marketPrice := getCurrentPrice p s in
    if SFleb marketPrice nzero then js_throw "Market data unavailable"
    else
      t2 ← date_now;
      t3 ← date_now;
      modify_this (λ s, set_trades (MkTrade ("trade_" +:+ pretty t2) p sd marketPrice amt t3 :: trades s) s);;
      modify_this (updatePosition p sd marketPrice amt);;
      mret orderId
  else
    modify_this (λ s, set_orders (map_set orderId (MkOrder orderId p ty sd pr amt nzero active t1) (orders s)) s);;
    mret orderId.

Definition set_status (st : OrderStatus) (o : Order) : Order :=
  MkOrder (o_id o) (o_pair o) (o_type o) (o_side o) (o_price o) (o_amount o) (filled o) st (o_timestamp o).

Definition is_active (o : Order) : bool := bool_decide (status o = active).

Definition cancelOrder (orderId : string) : M bool :=
  s ← this;
  match map_get orderId (orders s) with
  | Some o =>
      if is_active o then
        modify_this (λ s, set_orders (map_update orderId (set_status cancelled) (orders s)) s);;
        mret true
      else mret false
  | None => mret false
  end.

(** With an empty pair nothing is filtered. *)
Definition for_pair {A} (f : A → string) (p : option string) (l : list A) : list A :=
  if truthy_str p then js_filter (λ x, str_eqb (f x) (default "" p)) l else l.

Definition getActiveOrders (p : option string) : M (list Order) :=
  s ← this; mret (for_pair o_pair p (js_filter is_active (map_values (orders s)))).
Definition getTradeHistory (p : option string) : M (list Trade) :=
  s ← this; mret (for_pair t_pair p (trades s)).
Definition getOpenPositions : M (list Position) := s ← this; mret (map_values (positions s)).

(** * Theorems *)

(** ** Sizes *)

(** An amount a page can order: a finite positive number. *)
Definition amount_ok (a : num) : Prop := valid a = true ∧ is_finite a = true ∧ SFltb nzero a = true.

Definition positive (x : num) : Prop := valid x = true ∧ SFltb nzero x = true.

Lemma positive_nonneg x : SFltb nzero x = true → nonneg x = true.
Proof. apply nltb_leb. Qed.

(** What is left of a size is nothing or positive. *)
Lemma reduced_size x a : positive x → amount_ok a →
  let r := nmax nzero (nsub x a) in SFeqb r nzero = true ∨ positive r.
Proof.
  intros [Vx Px] (Va & Fa & Pa). cbv zeta. destruct (is_finite x) eqn:Fx.
  - pose proof (nsub_sign x a Vx Va Fx Fa) as Hs. pose proof (nsub_valid x a Vx Va) as Hv.
    unfold positive. destruct (nsub x a) as [[]|[]| |[] m e]; auto.
    assert (is_Some (SFcompare x a)) as [? H]; [|by rewrite H in Hs].
    destruct x as [[]|[]| |[] ? ?], a as [[]|[]| |[] ? ?]; try done; eauto.
  - right. by destruct x as [[]|[]| |[] ? ?], a as [[]|[]| |[] ? ?].
Qed.

Lemma grown_size x a : positive x → amount_ok a → positive (nadd x a).
Proof.
  intros [Vx Px] (Va & Fa & Pa). split; [by apply nadd_valid|].
  apply nadd_positive; auto using positive_nonneg.
Qed.

Definition position_ok (k : string) (p : Position) : Prop := pair p = k ∧ positive (size p).
Definition order_ok (k : string) (o : Order) : Prop :=
  o_id o = k ∧ o_type o ≠ market ∧ filled o = nzero ∧ (status o = active ∨ status o = cancelled).

Definition engine_ok (s : Engine) : Prop :=
  map_wf (positions s) ∧ map_all position_ok (positions s) ∧ map_all order_ok (orders s).

Lemma engine_updatePosition p sd pr amt s : amount_ok amt → engine_ok s → engine_ok (updatePosition p sd pr amt s).
Proof.
  intros Ha (Hwf & Hp & Ho). unfold updatePosition. destruct (map_get p (positions s)) as [x|] eqn:E.
  - destruct (map_all_get _ _ _ _ Hp E) as [Hk Hx]. cbv zeta. unfold resized. destruct (adds x sd); cbn [negb andb].
    + set (p1 := with_size _ _ x). assert (positive (size p1)) as Hp1 by (by apply grown_size).
      split_and!; [by apply map_wf_set| |done]. apply map_all_set; [|done].
      by destruct (SFltb nzero (size p1)).
    + set (p1 := with_size _ _ x). destruct (SFeqb (size p1) nzero) eqn:Ez.
      * split_and!; [by apply map_wf_delete|by apply map_all_delete|done].
      * destruct (reduced_size _ _ Hx Ha) as [H|Hp1]; [change (SFeqb (size p1) nzero = true) in H; congruence|].
        split_and!; [by apply map_wf_set| |done]. apply map_all_set; [|done].
        by destruct (SFltb nzero (size p1)).
  - destruct Ha as (?&?&?). split_and!; [by apply map_wf_set| |done]. by apply map_all_set.
Qed.

Lemma engine_placeOrder p ty sd pr amt : amount_ok amt → preserves engine_ok (placeOrder p ty sd pr amt).
Proof.
  intros Ha. unfold placeOrder. js_preserve; apply preserves_modify.
  - intros s' Hs. by apply engine_updatePosition.
  - intros s' (?&?&?). split_and!; [done..|]. apply map_all_set; [|done].
    apply bool_decide_eq_false in Heqb. split_and!; [done..|by left].
Qed.

Lemma engine_cancelOrder i : preserves engine_ok (cancelOrder i).
Proof.
  unfold cancelOrder. js_preserve. apply preserves_modify. intros s' (?&?&?). split_and!; [done..|].
  apply map_all_update; [|done]. intros o' (?&?&?&_). split_and!; [done..|by right].
Qed.

Inductive operation :=
  | OpTicker (p : string) (t : Ticker)
  | OpBook (p : string) (b : OrderBook)
  | OpHistory (p : string) (h : list Candle)
  | OpPlace (p : string) (ty : OrderType) (sd : Side) (pr : option num) (amt : num)
  | OpCancel (i : string).

Definition exec (o : operation) : M () :=
  match o with
  | OpTicker p t => setTicker p t
  | OpBook p b => setOrderBook p b
  | OpHistory p h => setPriceHistory p h
  | OpPlace p ty sd pr amt => placeOrder p ty sd pr amt;; mret ()
  | OpCancel i => cancelOrder i;; mret ()
  end.

Definition op_ok (o : operation) : Prop := match o with OpPlace _ _ _ _ amt => amount_ok amt | _ => True end.

Inductive reachable : Engine * Env → Prop :=
  | start e : reachable (fresh, e)
  | operate o w : op_ok o → reachable w → reachable (exec o w).2.

Lemma engine_exec o : op_ok o → preserves engine_ok (exec o).
Proof.
  intros Ho. destruct o as [p t|p b|p h|p ty sd pr amt|i]; cbn [exec]; try by (apply preserves_modify; intros s).
  - apply preserves_bind; [by apply engine_placeOrder|]. intros ?. apply preserves_ret.
  - apply preserves_bind; [by apply engine_cancelOrder|]. intros ?. apply preserves_ret.
Qed.

Lemma engine_reachable_ok w : reachable w → engine_ok w.1.
Proof. induction 1 as [e|o w Ho _ IH]; [by repeat constructor|by apply engine_exec]. Qed.

(** When every amount ordered is finite and positive, every open position has a positive
    size, in whichever order positions are opened, increased, reduced and closed, and is
    the only one of its pair. *)
Theorem positions_stay_positive w k p : reachable w → map_get k (positions w.1) = Some p →
  pair p = k ∧ SFltb nzero (size p) = true ∧ NoDup (map_keys (positions w.1)).
Proof.
  intros Hw Hk. apply engine_reachable_ok in Hw as (Hwf & Hp & _).
  destruct (map_all_get _ _ _ _ Hp Hk) as (? & _ & ?). done.
Qed.

(** The stored orders are limit, stop-loss and take-profit orders that are active or
    cancelled: none is ever filled, at whatever prices. *)
Theorem waiting_orders_never_fill w k o : reachable w → map_get k (orders w.1) = Some o →
  o_type o ≠ market ∧ filled o = nzero ∧ (status o = active ∨ status o = cancelled).
Proof.
  intros Hw Hk. apply engine_reachable_ok in Hw as (_ & _ & Ho).
  destruct (map_all_get _ _ _ _ Ho Hk) as (_ & ? & ? & ?). done.
Qed.

Definition demo_ticker : Ticker := MkTicker (of_Z 2) nzero nzero nzero nzero.
Definition demo_run : Engine * Env :=
  (exec (OpPlace "KC/USD" limit buy (Some (of_Z 1)) (of_Z 3))
    (exec (OpPlace "KC/USD" market buy None (of_Z 5)) (exec (OpTicker "KC/USD" demo_ticker) (fresh, demo_env)).2).2).2.

Lemma demo_reachable : reachable demo_run.
Proof. do 3 (apply operate; [by repeat constructor|]). apply start. Qed.

Lemma positions_stay_positive_witness :
  ∃ p, map_get "KC/USD" (positions demo_run.1) = Some p ∧ SFltb nzero (size p) = true.
Proof.
  destruct (map_get "KC/USD" (positions demo_run.1)) as [p|] eqn:E; [|vm_compute in E; discriminate E].
  exists p. split; [reflexivity|]. apply (positions_stay_positive demo_run "KC/USD" p demo_reachable E).
Defined.

Lemma waiting_orders_never_fill_witness :
  ∃ o, map_get "order_1700000002000_rb" (orders demo_run.1) = Some o ∧ filled o = nzero.
Proof.
  destruct (map_get "order_1700000002000_rb" (orders demo_run.1)) as [o|] eqn:E; [|vm_compute in E; discriminate E].
  exists o. split; [reflexivity|]. apply (waiting_orders_never_fill demo_run "order_1700000002000_rb" o demo_reachable E).
Defined.

(** ** Selling more than a position holds *)

(** A market order against a position that is not larger closes it: what the order has
    beyond the size opens no position on the other side, though the trade is recorded
    in full. *)
Theorem oversell_drops_excess p sd amt s e x :
  map_get p (positions s) = Some x → adds x sd = false →
  positive (size x) → amount_ok amt → SFleb (size x) amt = true → SFleb (getCurrentPrice p s) nzero = false →
  ∃ i s' e', placeOrder p market sd None amt (s, e) = (Ok i, (s', e')) ∧
    map_get p (positions s') = None ∧ t_amount <$> head (trades s') = Some amt.
Proof.
  intros Hx Hadds [Vx Px] (Va & Fa & Pa) Hle Hprice. unfold placeOrder. rewrite bool_decide_eq_true_2 by done.
  js_run. rewrite Hprice. js_run. eexists _, _, _. split; [reflexivity|].
  unfold updatePosition. cbn [positions set_trades]. rewrite Hx. cbv zeta.
  unfold resized. rewrite Hadds. cbn [negb andb size with_size].
  assert (SFeqb (nmax nzero (nsub (size x) amt)) nzero = true) as ->.
  { assert (is_finite (size x) = true) as Fx.
    { by destruct (size x) as [[]|[]| |[] ? ?], amt as [[]|[]| |[] ? ?]. }
    pose proof (nsub_sign _ _ Vx Va Fx Fa) as Hs. unfold SFleb in Hle.
    destruct (SFcompare (size x) amt) as [[]|]; try done;
      by destruct (nsub (size x) amt) as [[]|[]| |[] ? ?]. }
  cbn [positions set_positions trades set_trades]. split; [apply map_get_delete_eq|done].
Qed.

Definition long_five : Engine := updatePosition "KC/USD" buy (of_Z 2) (of_Z 5)
  (exec (OpTicker "KC/USD" demo_ticker) (fresh, demo_env)).2.1.

Lemma oversell_drops_excess_witness : ∃ i s' e',
  placeOrder "KC/USD" market sell None (of_Z 12) (long_five, demo_env) = (Ok i, (s', e')) ∧
  map_get "KC/USD" (positions s') = None.
Proof.
  destruct (oversell_drops_excess "KC/USD" sell (of_Z 12) long_five demo_env
    (MkPosition "KC/USD" long (of_Z 2) (of_Z 5) nzero (of_Z 1))) as (i & s' & e' & E & H & _);
    [reflexivity|reflexivity|split; reflexivity|repeat split|reflexivity|reflexivity|].
  exists i, s', e'. split; [exact E|exact H].
Defined.
