(* ===== verification/Batcher.v ===== *)
(** * [BatcherService] and [TemplatesService]

    apps/web/wallet/src/services/batcher.ts and templates.ts: batches of payments, with
    an import from comma-separated text, and reusable payment templates. *)

From Stdlib Require Import Ascii String.
From S2P Require Import Prelude JsMap JsNumber JsString Store.
(** ** Batches *)

Record Recipient := MkRecipient { address : string; amount : num; label : option string }.
Record BatchRecipient := MkBatchRecipient { r_id : string; recipient : Recipient }.

Record Batch := MkBatch {
  id : string;
  name : string;
  recipients : list BatchRecipient;
  totalAmount : num;
  estimatedFee : num;
  createdAt : Z;
  executed : bool;
  executedAt : option Z;
  txid : option string;
}.

Record Batcher := MkBatcher { batches : jsmap Batch; ls_batches : cell (list Batch) }.

#[export] Instance batch_store : Store Batcher Batch := {|
  key := id;
  items := batches;
  set_items := λ m s, MkBatcher m (ls_batches s);
  stored := ls_batches;
  set_stored := λ c s, MkBatcher (batches s) c;
|}.
#[export] Instance batch_laws : StoreLaws Batcher Batch.
Proof. by constructor. Qed.

Definition fresh (c : cell (list Batch)) : Batcher := MkBatcher [] c.

Abbreviation M := (js (Batcher * Env)).

Definition loadBatches : M () := ls_use load_items.
Definition saveBatches : M () := ls_use save_items.
Definition constructor : M () := loadBatches.

(** [recipients.map((r, i) => ({ ...r, id: `recipient_${i}_${Date.now()}` }))] *)
Fixpoint number_recipients (i : nat) (l : list Recipient) : M (list BatchRecipient) :=
  match l with
  | [] => mret []
  | r :: l' =>
      t ← date_now;
      rs ← number_recipients (S i) l';
      mret (MkBatchRecipient ("recipient_" +:+ pretty i +:+ "_" +:+ pretty t) r :: rs)
  end.

Definition createBatch (nm : string) (l : list Recipient) : M Batch :=
  t0 ← date_now;
  r ← random36;
  rs ← number_recipients 0 l;
  t1 ← date_now;
  let b := MkBatch ("batch_" +:+ pretty t0 +:+ "_" +:+ r) nm rs (sum_by amount l)
    (nmul (of_Z (Z.of_nat (length l))) (lit 1 4)) t1 false None None in
  put_item b;;
  saveBatches;;
  mret b.

Definition getBatches : M (list Batch) :=
  s ← this; mret (js_sort (λ a b, createdAt a <? createdAt b) (map_values (batches s))).
Definition getBatch (i : string) : M (option Batch) := s ← this; mret (map_get i (batches s)).

Definition executeBatch (i : string) : M () :=
  s ← this;
  match map_get i (batches s) with
  | None => js_throw "Batch not found"
  | Some b =>
      if executed b then js_throw "Batch already executed"
      else js_throw ("Batch execution is not yet integrated with the blockchain node. " +:+
        "Submit each transaction individually via the Send page.")
  end.

Definition deleteBatch (i : string) : M () :=
  modify_this (λ s, set_items (map_delete i (batches s)) s);;
  saveBatches.

(** One line of the text: address, amount and an optional label. *)
Definition parse_line (line : string) : option Recipient :=
  let fields := trim <$> split_on "," line in
  let addr := fields !! 0%nat in
  let amt := fields !! 1%nat in
  let lbl := fields !! 2%nat in
  if truthy_str addr && truthy_str amt then
    Some (MkRecipient (default "" addr) (parseFloat (default "" amt))
      (if truthy_str lbl then lbl else None))
  else None.

Definition newline : ascii := ascii_of_nat 10.

Definition importCSV (csv : string) : list Recipient :=
  let lines := js_filter (λ l, negb (str_eqb (trim l) "")) (split_on newline csv) in
  omap parse_line (drop 1 lines).

(** ** Templates *)

Module Templates.

Inductive Frequency := daily | weekly | monthly.
Record Recurring := MkRecurring { enabled : bool; frequency : Frequency; nextExecution : option Z }.

Record TransactionTemplate := MkTemplate {
  id : string;
  name : string;
  recipient : string;
  amount : num;
  note : string;
  category : string;
  tags : list string;
  recurring : option Recurring;
  createdAt : Z;
  lastUsed : option Z;
  useCount : Z;
}.

Record TemplatesService := MkService {
  templates : jsmap TransactionTemplate;
  ls_templates : cell (list TransactionTemplate);
}.

#[export] Instance template_store : Store TemplatesService TransactionTemplate := {|
  key := id;
  items := templates;
  set_items := λ m s, MkService m (ls_templates s);
  stored := ls_templates;
  set_stored := λ c s, MkService (templates s) c;
|}.
#[export] Instance template_laws : StoreLaws TemplatesService TransactionTemplate.
Proof. by constructor. Qed.

Definition fresh (c : cell (list TransactionTemplate)) : TemplatesService := MkService [] c.

Abbreviation M := (js (TemplatesService * Env)).

Definition loadTemplates : M () := guarded load_items.
Definition saveTemplates : M () := guarded save_items.
Definition constructor : M () := loadTemplates.

Definition createTemplate (nm rcp : string) (amt : num) (nt cat : string) (tgs : list string) : M TransactionTemplate :=
  t0 ← date_now;
  r ← random36;
  t1 ← date_now;
  let t := MkTemplate ("tmpl_" +:+ pretty t0 +:+ "_" +:+ r) nm rcp amt nt cat tgs None t1 None 0 in
  put_item t;;
  saveTemplates;;
  mret t.

Definition getTemplate (i : string) : M (option TransactionTemplate) :=
  s ← this; mret (map_get i (templates s)).
Definition sorted (s : TemplatesService) : list TransactionTemplate :=
  js_sort (λ a b, createdAt a <? createdAt b) (map_values (templates s)).
Definition getAllTemplates : M (list TransactionTemplate) := s ← this; mret (sorted s).

(** [Partial<TransactionTemplate>]: the identifier can be among the updates. *)
Record Updates := MkUpdates {
  u_id : option string;
  u_name : option string;
  u_recipient : option string;
  u_amount : option num;
  u_note : option string;
  u_category : option string;
  u_tags : option (list string);
  u_recurring : option (option Recurring);
  u_createdAt : option Z;
  u_lastUsed : option (option Z);
  u_useCount : option Z;
}.

(** [Object.assign(template, updates)] *)
Definition assign (u : Updates) (t : TransactionTemplate) : TransactionTemplate :=
  MkTemplate (default (id t) (u_id u)) (default (name t) (u_name u)) (default (recipient t) (u_recipient u))
    (default (amount t) (u_amount u)) (default (note t) (u_note u)) (default (category t) (u_category u))
    (default (tags t) (u_tags u)) (default (recurring t) (u_recurring u)) (default (createdAt t) (u_createdAt u))
    (default (lastUsed t) (u_lastUsed u)) (default (useCount t) (u_useCount u)).

(** A change through the reference that [get] returns, then a save; [false] for an
    unknown template. *)
Definition change_template (i : string) (f : TransactionTemplate → TransactionTemplate) : M bool :=
  s ← this;
  if map_has i (templates s) then
    modify_this (λ s, set_items (map_update i f (templates s)) s);;
    saveTemplates;;
    mret true
  else mret false.

Definition updateTemplate (i : string) (u : Updates) : M bool := change_template i (assign u).

Definition deleteTemplate (i : string) : M bool :=
  s ← this;
  let deleted := map_has i (templates s) in
  modify_this (λ s, set_items (map_delete i (templates s)) s);;
  js_when deleted saveTemplates;;
  mret deleted.

Definition use (t : Z) (x : TransactionTemplate) : TransactionTemplate :=
  MkTemplate (id x) (name x) (recipient x) (amount x) (note x) (category x) (tags x) (recurring x)
    (createdAt x) (Some t) (useCount x + 1).

Definition useTemplate (i : string) : M (option TransactionTemplate) :=
  s ← this;
  if map_has i (templates s) then
    t ← date_now;
    modify_this (λ s, set_items (map_update i (use t) (templates s)) s);;
    saveTemplates;;
    s' ← this;
    mret (map_get i (templates s'))
  else mret None.

Definition matches_query (q : string) (t : TransactionTemplate) : bool :=
  includes q (toLowerCase (name t)) || includes q (toLowerCase (recipient t))
  || includes q (toLowerCase (note t)) || js_some (λ tag, includes q (toLowerCase tag)) (tags t).

Definition searchTemplates (query : string) : M (list TransactionTemplate) :=
  l ← getAllTemplates; mret (js_filter (matches_query (toLowerCase query)) l).
Definition getTemplatesByCategory (cat : string) : M (list TransactionTemplate) :=
  l ← getAllTemplates; mret (js_filter (λ t, str_eqb (category t) cat) l).
Definition getTemplatesByTag (tag : string) : M (list TransactionTemplate) :=
  l ← getAllTemplates; mret (js_filter (λ t, js_some (str_eqb tag) (tags t)) l).

Definition nextAfter (now : Z) (f : Frequency) : Z :=
  let day := 86400000 in
  match f with daily => now + day | weekly => now + 7 * day | monthly => now + 30 * day end.

Definition calculateNextExecution (f : Frequency) : M Z := t ← date_now; mret (nextAfter t f).

Definition with_recurring (r : Recurring) (x : TransactionTemplate) : TransactionTemplate :=
  MkTemplate (id x) (name x) (recipient x) (amount x) (note x) (category x) (tags x) (Some r)
    (createdAt x) (lastUsed x) (useCount x).

Definition setRecurring (i : string) (f : Frequency) : M bool :=
  s ← this;
  if map_has i (templates s) then
    n ← calculateNextExecution f;
    change_template i (with_recurring (MkRecurring true f (Some n)))
  else mret false.

Definition due (now : Z) (t : TransactionTemplate) : bool :=
  match recurring t with
  | Some r => enabled r && match nextExecution r with Some n => negb (n =? 0) && (n <=? now) | None => false end
  | None => false
  end.

Definition getDueTemplates : M (list TransactionTemplate) :=
  t ← date_now; l ← getAllTemplates; mret (js_filter (due t) l).

Definition exportTemplates : M (text (list TransactionTemplate)) :=
  s ← this; mret (TJson (map_values (templates s))).

(** One template of an imported list: only an unknown one is taken and counted. *)
Definition import_template (acc : jsmap TransactionTemplate * Z) (t : TransactionTemplate) :=
  if map_has (id t) acc.1 then acc else (map_set (id t) t acc.1, acc.2 + 1).

Definition importTemplates (jsonData : text (list TransactionTemplate)) : M Z :=
  js_try (
    l ← JSON_parse jsonData;
    s ← this;
    let r := foldl import_template (templates s, 0) l in
    modify_this (set_items r.1);;
    saveTemplates;;
    mret r.2
  ) (λ _, js_throw "Invalid template data").

Definition clearAllTemplates : M () :=
  modify_this (set_items []);;
  b ← is_browser;
  js_when b (ls_removeItem (set_stored None)).
End Templates.

(** * Theorems *)

(** ** Batches *)

(** [executeBatch] sends nothing and changes nothing: it always throws. *)
Theorem executeBatch_refuses i w : ∃ msg, executeBatch i w = (Throw msg, w).
Proof.
  unfold executeBatch. rewrite run_this. destruct (map_get i (batches w.1)) as [b|]; [|by eexists].
  destruct (executed b); by eexists.
Qed.

(** An amount that is not a number is imported as NaN, and makes the total of a batch
    NaN. *)
Example import_takes_nan :
  let csv := "address,amount" +:+ String newline ("kc1bob,1.5" +:+ String newline "kc1eve,lots") in
  amount <$> importCSV csv = [lit 15 1; S754_nan] ∧ sum_by amount (importCSV csv) = S754_nan.
Proof. vm_compute. done. Qed.

(** *** The text of a payment list *)

Definition plain (s : string) : Prop :=
  str_all (λ c, negb (Ascii.eqb c ",")) s = true ∧ str_all (λ c, negb (Ascii.eqb c newline)) s = true ∧ trim s = s.

(** A line: address, amount and label, none of which holds a separator. *)
Record Line := MkLine { l_address : string; l_amount : string; l_label : string }.

Definition line_ok (l : Line) : Prop :=
  plain (l_address l) ∧ plain (l_amount l) ∧ plain (l_label l) ∧ l_address l ≠ "" ∧ l_amount l ≠ "".

Definition write_line (l : Line) : string :=
  l_address l +:+ String "," (l_amount l +:+ String "," (l_label l)).

Fixpoint write_lines (header : string) (ls : list Line) : string :=
  match ls with
  | [] => header
  | l :: ls' => header +:+ String newline (write_lines (write_line l) ls')
  end.

Lemma split_line l : line_ok l → split_on "," (write_line l) = [l_address l; l_amount l; l_label l].
Proof.
  intros ((H1&_)&(H2&_)&(H3&_)&_). unfold write_line.
  by rewrite split_on_join, split_on_join, split_on_none.
Qed.

Lemma split_lines header ls : str_all (λ c, negb (Ascii.eqb c newline)) header = true → Forall line_ok ls →
  split_on newline (write_lines header ls) = header :: (write_line <$> ls).
Proof.
  intros Hh Hls. revert header Hh. induction Hls as [|l ls Hl _ IH]; intros header Hh; cbn [write_lines].
  - by apply split_on_none.
  - rewrite split_on_join by done. csimpl. f_equal. apply IH.
    destruct Hl as ((_&H1&_)&(_&H2&_)&(_&H3&_)&_). unfold write_line.
    rewrite str_all_app. cbn [str_all]. rewrite str_all_app. cbn [str_all]. by rewrite H1, H2, H3.
Qed.

Lemma trimEnd_space s : trimEnd s = "" → str_all is_space s = true.
Proof.
  induction s as [|c s IH]; [done|]. cbn [trimEnd str_all].
  destruct (trimEnd s); [|done]. destruct (is_space c); [|done]. intros _. by rewrite IH.
Qed.

Lemma trim_space s : trim s = "" → str_all is_space s = true.
Proof.
  unfold trim. induction s as [|c s IH]; [done|]. cbn [trimStart str_all].
  destruct (is_space c) eqn:E; [exact IH|]. intros H%trimEnd_space. cbn [str_all] in H. by rewrite E in H.
Qed.

Lemma space_trim s : str_all is_space s = true → trim s = "".
Proof.
  unfold trim. induction s as [|c s IH]; [done|]. cbn [trimStart str_all].
  intros [-> Hs]%andb_true_iff. by apply IH.
Qed.

Lemma line_not_blank l : line_ok l → str_eqb (trim (write_line l)) "" = false.
Proof.
  intros ((_&_&Ht)&_&_&Hne&_). apply str_eqb_false. intros H%trim_space. unfold write_line in H.
  rewrite str_all_app, andb_true_iff in H. destruct H as [H _]. apply space_trim in H. congruence.
Qed.

Lemma parse_written l : line_ok l → parse_line (write_line l) =
  Some (MkRecipient (l_address l) (parseFloat (l_amount l)) (if str_eqb (l_label l) "" then None else Some (l_label l))).
Proof.
  intros Hl. unfold parse_line. rewrite split_line by done. destruct Hl as ((_&_&H1)&(_&_&H2)&(_&_&H3)&Ha&Hm).
  csimpl. rewrite H1, H2, H3. cbn [lookup list_lookup truthy_str default].
  rewrite (proj2 (str_eqb_false _ _) Ha), (proj2 (str_eqb_false _ _) Hm). cbn [negb andb].
  by destruct (str_eqb (l_label l) "").
Qed.

(** A payment list written line by line below a header that is not blank is imported
    as it was written, amounts by [parseFloat]. *)
Theorem importCSV_written header ls :
  str_all (λ c, negb (Ascii.eqb c newline)) header = true → trim header ≠ "" → Forall line_ok ls →
  importCSV (write_lines header ls) =
  (λ l, MkRecipient (l_address l) (parseFloat (l_amount l))
    (if str_eqb (l_label l) "" then None else Some (l_label l))) <$> ls.
Proof.
  intros Hh Hne Hls. unfold importCSV. rewrite split_lines by done. cbv zeta. rewrite js_filter_all.
  - cbn [drop]. rewrite drop_0. induction Hls as [|l ls Hl _ IH]; [done|]. csimpl. rewrite parse_written by done. csimpl. by rewrite IH.
  - intros x [->|(l & -> & Hl)%list_elem_of_fmap]%elem_of_cons.
    + by rewrite (proj2 (str_eqb_false _ _) Hne).
    + rewrite line_not_blank; [done|]. rewrite Forall_forall in Hls. by apply Hls.
Qed.

Lemma importCSV_written_witness :
  importCSV (write_lines "address,amount,label" [MkLine "kc1bob" "1.5" "rent"; MkLine "kc1eve" "20" ""]) =
  [MkRecipient "kc1bob" (lit 15 1) (Some "rent"); MkRecipient "kc1eve" (of_Z 20) None].
Proof.
  transitivity ((λ l, MkRecipient (l_address l) (parseFloat (l_amount l))
    (if str_eqb (l_label l) "" then None else Some (l_label l))) <$>
    [MkLine "kc1bob" "1.5" "rent"; MkLine "kc1eve" "20" ""]); [|vm_compute; reflexivity].
  apply importCSV_written; [reflexivity|vm_compute; discriminate|].
  repeat constructor; vm_compute; discriminate.
Defined.

(** ** Templates *)

Module TemplateFacts.
Import Templates.

(** *** Imports *)

Lemma import_fold l m n : map_wf m →
  let r := foldl import_template (m, n) l in
  map_wf r.1 ∧ r.2 = n + (Z.of_nat (length r.1) - Z.of_nat (length m)) ∧
  (∀ i t, map_get i m = Some t → map_get i r.1 = Some t) ∧
  (∀ i, map_get i m = None → map_get i r.1 = js_find (λ t, str_eqb (id t) i) l).
Proof.
  revert m n. induction l as [|t l IH]; intros m n Hm; cbn [foldl]; cbv zeta.
  { cbn. split_and!; [done|lia|done|done]. }
  change (import_template (m, n) t) with (if map_has (id t) m then (m, n) else (map_set (id t) t m, n + 1)).
  destruct (map_has (id t) m) eqn:E.
  - destruct (IH m n Hm) as (H1 & H2 & H3 & H4). split_and!; [done..|].
    intros i Hi. rewrite H4 by done. cbn [js_find]. destruct (str_eqb (id t) i) eqn:Ei; [|done].
    apply str_eqb_true in Ei. subst i. apply map_has_true in E as [? E]. congruence.
  - destruct (IH (map_set (id t) t m) (n + 1) (map_wf_set _ _ _ Hm)) as (H1 & H2 & H3 & H4).
    split_and!; [done| | |].
    + rewrite H2. pose proof (map_size_set (id t) t m) as Hsz. rewrite E in Hsz. unfold map_size in Hsz.
      rewrite Hsz. lia.
    + intros i x Hi. apply H3. rewrite map_get_set_ne; [done|]. intros <-.
      apply map_has_false in E. congruence.
    + intros i Hi. cbn [js_find]. destruct (str_eqb (id t) i) eqn:Ei.
      * apply str_eqb_true in Ei as <-. apply H3, map_get_set_eq.
      * apply str_eqb_false in Ei. apply H4. by rewrite map_get_set_ne.
Qed.

(** An import keeps every template it finds, adds for every unknown id the first
    template with it, and answers how many it added; a text that does not parse is
    refused and changes nothing. *)
Theorem importTemplates_merges data s e : map_wf (templates s) →
  match data with
  | TRaw _ => importTemplates data (s, e) = (Throw "Invalid template data", (s, e))
  | TJson l => ∃ n s', importTemplates data (s, e) = (Ok n, (s', e)) ∧
      n = Z.of_nat (length (templates s')) - Z.of_nat (length (templates s)) ∧
      ∀ i, map_get i (templates s') =
        match map_get i (templates s) with
        | Some t => Some t
        | None => js_find (λ t, str_eqb (id t) i) l
        end
  end.
Proof.
  intros Hwf. destruct data as [l|raw]; [|done]. unfold importTemplates.
  destruct (import_fold l (templates s) 0 Hwf) as (_ & Hn & Hold & Hnew). cbv zeta in *.
  set (r := foldl import_template (templates s, 0) l) in *.
  erewrite run_try_Ok; [|cbn [JSON_parse]; js_run; unfold saveTemplates;
    rewrite (run_Ok _ _ _ _ _ (guarded_save_run _ _)); reflexivity].
  eexists _, _. split; [reflexivity|].
  match goal with |- context [templates ?x] =>
    assert (templates x = r.1) as -> by (unfold guarded_result; by destruct (_ && _)) end.
  split; [exact Hn|].
  intros i. destruct (map_get i (templates s)) eqn:Ei; [by apply Hold|by apply Hnew].
Qed.

(** *** Due templates *)

(** A template that is due stays due: using it moves no date. *)
Theorem used_template_stays_due t0 now later t : now <= later → due now t = true → due later (use t0 t) = true.
Proof.
  intros Hle. unfold due. cbn. destruct (recurring t) as [[en fr [n|]]|]; cbn; [|by rewrite andb_false_r|done].
  rewrite !andb_true_iff, !Z.leb_le. intros (?&?&?). split_and!; [done..|lia].
Qed.

(** An update that carries another identifier leaves the template under its old key. *)
Example update_changes_identifier :
  let w := (createTemplate "rent" "kc1bob" (of_Z 5) "" "" [] (fresh None, demo_env)).2 in
  let u := MkUpdates (Some "other") None None None None None None None None None None in
  let w' := (updateTemplate "tmpl_1700000000000_ra" u w).2 in
  (λ kt, (kt.1, id kt.2)) <$> templates w'.1 = [("tmpl_1700000000000_ra", "other")].
Proof. vm_compute. reflexivity. Qed.
End TemplateFacts.
