(* ===== verification/ColdStorage.v ===== *)
(** * [ColdStorageService] (apps/web/wallet/src/services/coldStorage.ts)

    Wallets kept off line and transactions to be signed elsewhere, over the wallet API
    with answers from the cached lists when it fails and the build allows it. *)

From Stdlib Require Import String.
From S2P Require Import Prelude JsNumber WalletApi.

Record ColdWallet := MkColdWallet {
  w_id : string;
  label : string;
  address : string;
  publicKey : string;
  w_createdAt : Z;
  lastUsed : option Z;
  balance : num;
}.

(** What [rawTx] holds as JSON. *)
Record RawTx := MkRawTx { raw_from : string; raw_to : string; raw_amount : num; raw_fee : num }.

Record UnsignedTransaction := MkUnsigned {
  id : string;
  to : string;
  amount : num;
  fee : num;
  fromAddress : string;
  createdAt : Z;
  rawTx : text RawTx;
  signed : bool;
  signature : option string;
}.

Record ColdStorage := MkCold { coldWallets : list ColdWallet; unsignedTxs : list UnsignedTransaction }.

Definition set_wallets l s := MkCold l (unsignedTxs s).
Definition set_txs l s := MkCold (coldWallets s) l.

#[export] Instance cold_cache : Cache ColdStorage UnsignedTransaction := {|
  cache_id := id; cached := unsignedTxs; set_cached := set_txs;
|}.
#[export] Instance cold_cache_laws : CacheLaws ColdStorage UnsignedTransaction.
Proof. by constructor. Qed.

Abbreviation M := (js (ColdStorage * Env)).

Definition fresh : ColdStorage := MkCold [] [].

Record PaperWallet := MkPaper { p_address : string; privateKey : string; qrData : string }.

(** The replies of the endpoints under /api/cold-storage. *)
Record ColdApi := MkColdApi {
  get_wallets : nat → Reply (option (list ColdWallet));
  get_unsigned : nat → Reply (option (list UnsignedTransaction));
  get_export : nat → string → Reply string;
  post_mnemonic : nat → Reply (option (list string));
  post_paper : nat → Reply PaperWallet;
}.

Definition getColdWallets : M (list ColdWallet) :=
  s ← this; mret (js_sort (λ a b, w_createdAt a <? w_createdAt b) (coldWallets s)).
Definition getUnsignedTransactions : M (list UnsignedTransaction) :=
  s ← this; mret (js_sort (λ a b, createdAt a <? createdAt b) (unsignedTxs s)).

(** An empty list from the API does not replace a list that is not empty. *)
Definition taken {A} (reply cached : list A) : list A :=
  if (0 <? length reply)%nat || (length cached =? 0)%nat then reply else cached.

Definition sign_with (sig : string) (t : UnsignedTransaction) : UnsignedTransaction :=
  MkUnsigned (id t) (to t) (amount t) (fee t) (fromAddress t) (createdAt t) (rawTx t) true (Some sig).

Definition generateColdWallet (_label : string) : M ColdWallet :=
  js_throw ("Cold wallet generation is not yet available through this UI. " +:+
    "Create a wallet via the main wallet creation page and treat it as your cold-storage wallet.").

Definition createUnsignedTransaction (from dest : string) (amt f : num) : M UnsignedTransaction :=
  i ← createId "unsigned";
  t ← date_now;
  let tx := MkUnsigned i dest amt f from t (TJson (MkRawTx from dest amt f)) false None in
  push_front tx;;
  mret tx.

Definition importSignedTransaction (txId sig : string) : M () := change_id txId (sign_with sig).

Definition fallback_words : list string :=
  ["alpha"; "bravo"; "charlie"; "delta"; "echo"; "foxtrot"; "golf"; "hotel"; "india"; "juliet"; "kilo"; "lima"].

Section Api.
Context (allowFallback : bool) (api : ColdApi).

Definition refreshColdWallets : M (list ColdWallet) :=
  or_fallback allowFallback
    (r ← fetch (get_wallets api);
     l ← fields r;
     modify_this (λ s, set_wallets (taken (default [] l) (coldWallets s)) s))
    (mret ());;
  getColdWallets.

Definition refreshUnsignedTransactions : M (list UnsignedTransaction) :=
  or_fallback allowFallback
    (r ← fetch (get_unsigned api);
     l ← fields r;
     modify_this (λ s, set_txs (taken (default [] l) (unsignedTxs s)) s))
    (mret ());;
  getUnsignedTransactions.

(** [tx?.rawTx || ''] *)
Definition raw_of (txId : string) (s : ColdStorage) : text RawTx :=
  default (TRaw "") (rawTx <$> find_id (S:=ColdStorage) txId (unsignedTxs s)).

Definition exportForSigning (txId : string) : M (text RawTx) :=
  or_fallback allowFallback
    (r ← fetch (λ n, get_export api n txId);
     e ← fields r;
     mret (TRaw e))
    (s ← this; mret (raw_of txId s)).

Definition generateMnemonic : M (list string) :=
  or_fallback allowFallback
    (r ← fetch (post_mnemonic api);
     l ← fields r;
     mret (default [] l))
    (mret fallback_words).

Definition generatePaperWallet : M (option PaperWallet) :=
  or_fallback allowFallback
    (fetch (post_paper api))
    (a ← createAddress "KC";
     k ← createAddress "PRIV";
     q ← createId "paper";
     mret (Some (MkPaper a k q))).
End Api.

(** * Theorems *)

Inductive operation :=
  | OpRefreshWallets | OpRefreshUnsigned
  | OpCreate (from dest : string) (amt f : num)
  | OpImport (i sig : string)
  | OpExport (i : string) | OpMnemonic | OpPaper.

Definition exec (allow : bool) (api : ColdApi) (o : operation) : M () :=
  match o with
  | OpRefreshWallets => refreshColdWallets allow api;; mret ()
  | OpRefreshUnsigned => refreshUnsignedTransactions allow api;; mret ()
  | OpCreate a b c d => createUnsignedTransaction a b c d;; mret ()
  | OpImport i g => importSignedTransaction i g
  | OpExport i => exportForSigning allow api i;; mret ()
  | OpMnemonic => generateMnemonic allow api;; mret ()
  | OpPaper => generatePaperWallet allow api;; mret ()
  end.

(** With fallbacks allowed no operation throws, except the generation of a cold wallet,
    which always does. *)
Theorem cold_never_throws api o : total (exec true api o).
Proof.
  destruct o; cbn [exec]; unfold refreshColdWallets, refreshUnsignedTransactions, createUnsignedTransaction,
    importSignedTransaction, exportForSigning, generateMnemonic, generatePaperWallet, getColdWallets,
    getUnsignedTransactions; js_total.
Qed.

(** ** What the lists keep *)

Lemma taken_or {A} (r c : list A) : taken r c = r ∨ taken r c = c.
Proof. unfold taken. destruct ((0 <? length r)%nat || (length c =? 0)%nat); auto. Qed.

(** A refresh never empties a list of wallets or of transactions. *)
Theorem refresh_keeps_local allow api w :
  (coldWallets w.1 ≠ [] → coldWallets (refreshColdWallets allow api w).2.1 ≠ []) ∧
  (unsignedTxs w.1 ≠ [] → unsignedTxs (refreshUnsignedTransactions allow api w).2.1 ≠ []).
Proof.
  assert (∀ A (r c : list A), c ≠ [] → taken r c ≠ []) as Htaken.
  { intros A r c Hc. unfold taken. destruct r; [by destruct c|done]. }
  split; intros Hne.
  - apply (preserves_bind (λ s, coldWallets s ≠ [])); [|intros _; unfold getColdWallets; js_preserve|done].
    apply preserves_fallback; [|js_preserve]. js_preserve. apply preserves_modify. intros s. apply Htaken.
  - apply (preserves_bind (λ s, unsignedTxs s ≠ [])); [|intros _; unfold getUnsignedTransactions; js_preserve|done].
    apply preserves_fallback; [|js_preserve]. js_preserve. apply preserves_modify. intros s. apply Htaken.
Qed.

(** The signed transactions are those with a signature, as long as the API's are. *)
Definition signed_ok (t : UnsignedTransaction) : Prop := signed t = true ↔ is_Some (signature t).
Definition txs_ok (s : ColdStorage) : Prop :=
  distinct (S:=ColdStorage) (unsignedTxs s) ∧ Forall signed_ok (unsignedTxs s).

Section Invariant.
Context (allow : bool) (api : ColdApi).
Context (Hapi : ∀ n l, request (get_unsigned api n) = Ok (Some (Some l)) →
  distinct (S:=ColdStorage) l ∧ Forall signed_ok l).

Lemma txs_refresh : preserves txs_ok (refreshUnsignedTransactions allow api).
Proof.
  unfold refreshUnsignedTransactions, getUnsignedTransactions. apply preserves_bind; [|intros _; js_preserve].
  apply preserves_fallback; [|apply preserves_ret]. intros [s e] Hs. unfold fetch. js_run.
  destruct (request (get_unsigned api (calls e))) as [[[l|]|]|msg] eqn:E; try done;
    unfold txs_ok, fields, mbind, mret, js_bind, js_ret, modify_this; cbn -[taken].
  - destruct (taken_or l (unsignedTxs s)) as [-> | ->]; [by eapply Hapi|done].
  - destruct (taken_or [] (unsignedTxs s)) as [-> | ->]; [|done]. split; [apply NoDup_nil_2|done].
Qed.

Lemma txs_create a b c d : preserves txs_ok (createUnsignedTransaction a b c d).
Proof.
  unfold createUnsignedTransaction. js_preserve. apply preserves_modify. intros s [Hd Hall]. split.
  - by apply distinct_replace_front.
  - constructor; [split; [done|by intros []]|]. rewrite Forall_forall in *. 
    intros t [Ht _]%elem_of_js_filter. by apply Hall.
Qed.

Lemma Forall_update_first {A} (P : A → Prop) p f l : (∀ x, P x → P (f x)) → Forall P l → Forall P (update_first p f l).
Proof.
  intros Hf. induction 1 as [|x l Hx Hl IH]; cbn; [constructor|].
  destruct (p x); constructor; auto.
Qed.

Lemma txs_import i g : preserves txs_ok (importSignedTransaction i g).
Proof.
  unfold importSignedTransaction. apply preserves_modify. intros s [Hd Hall]. split.
  - unfold distinct in *. cbn. by rewrite map_update_first.
  - cbn. apply Forall_update_first; [|done]. intros t _. split; [by eexists|done].
Qed.

Lemma txs_exec o : preserves txs_ok (exec allow api o).
Proof.
  destruct o; cbn [exec]; (apply preserves_bind || idtac); try (intros; apply preserves_ret);
    try apply txs_refresh; try apply txs_create; try apply txs_import;
    unfold refreshColdWallets, getColdWallets, exportForSigning, generateMnemonic, generatePaperWallet; api_preserve.
Qed.

Inductive reachable : ColdStorage * Env → Prop :=
  | start e : reachable (fresh, e)
  | operate o w : reachable w → reachable (exec allow api o w).2.

(** In every state the service reaches, provided the API lists distinct transactions
    that are signed exactly when they carry a signature, so does the service. *)
Theorem cold_transactions_consistent w : reachable w →
  NoDup (id <$> unsignedTxs w.1) ∧ Forall signed_ok (unsignedTxs w.1).
Proof. induction 1 as [e|o w _ IH]; [split; [apply NoDup_nil_2|done]|by apply txs_exec]. Qed.
End Invariant.

(** ** Without the API *)

(** A transaction created and exported off line is exported as it was created. *)
Theorem offline_export_roundtrip api from dest amt f s e :
  (∀ n i, ∃ msg, request (get_export api n i) = Throw msg) →
  ∃ tx s' e', createUnsignedTransaction from dest amt f (s, e) = (Ok tx, (s', e')) ∧
    (exportForSigning true api (id tx) (s', e')).1 = Ok (TJson (MkRawTx from dest amt f)).
Proof.
  intros Hd. unfold createUnsignedTransaction, createId. js_run. eexists _, _, _. split; [reflexivity|].
  cbn [id]. match goal with |- (exportForSigning _ _ ?i (?s', ?e')).1 = _ => 
    destruct (Hd (calls e') i) as [msg E]; unfold exportForSigning;
    rewrite (run_fallback_failed (λ n, get_export api n i) msg) by exact E end.
  rewrite run_this. unfold raw_of, find_id. cbn -[str_eqb]. by rewrite str_eqb_refl.
Qed.

(** Off line, the mnemonic is the same for everyone, and the private key of a paper
    wallet is a random text that has nothing to do with its address, also random. *)
Theorem offline_secrets_are_made_up api s e :
  (∀ n, ∃ msg, request (post_mnemonic api n) = Throw msg) →
  (∀ n, ∃ msg, request (post_paper api n) = Throw msg) →
  (generateMnemonic true api (s, e)).1 = Ok fallback_words ∧
  ∃ q, (generatePaperWallet true api (s, e)).1 =
    Ok (Some (MkPaper ("KC" +:+ entropy e (draws e)) ("PRIV" +:+ entropy e (S (draws e))) q)).
Proof.
  intros Hm Hp. destruct (Hm (calls e)) as [m1 E1]. destruct (Hp (calls e)) as [m2 E2].
  unfold generateMnemonic, generatePaperWallet. split.
  - by rewrite (run_fallback_failed (post_mnemonic api) m1) by exact E1.
  - unfold or_fallback, js_try, fetch, rpc. cbn [snd fst]. rewrite E2. 
    unfold createAddress, createId. js_run. by eexists.
Qed.
