(* ===== verification/AuditLog.v ===== *)
(** * [AuditLogService] (apps/web/wallet/src/services/auditLog.ts)

    Security events, newest first, with statistics recomputed from them; the wallet API
    answers the refreshes and the export when it can. The details of an event are never
    inspected and are kept as a text. *)

From Stdlib Require Import Ascii String.
From S2P Require Import Prelude JsMap JsNumber JsString Counting WalletApi JsDate.
Inductive EventType :=
  | login | logout | transaction_created | transaction_signed | wallet_created | wallet_imported
  | settings_changed | backup_created | password_changed | suspicious_activity.
Inductive Severity := info | warning | critical.
#[export] Instance EventType_eq_dec : EqDecision EventType.
Proof. solve_decision. Defined.
#[export] Instance Severity_eq_dec : EqDecision Severity.
Proof. solve_decision. Defined.

Definition event_name (t : EventType) : string :=
  match t with
  | login => "login"
  | logout => "logout"
  | transaction_created => "transaction_created"
  | transaction_signed => "transaction_signed"
  | wallet_created => "wallet_created"
  | wallet_imported => "wallet_imported"
  | settings_changed => "settings_changed"
  | backup_created => "backup_created"
  | password_changed => "password_changed"
  | suspicious_activity => "suspicious_activity"
  end.

Definition severity_name (s : Severity) : string :=
  match s with info => "info" | warning => "warning" | critical => "critical" end.

Record DeviceInfo := MkDevice { userAgent : string; ip : option string; fingerprint : string }.

Record AuditEvent := MkEvent {
  id : string;
  timestamp : Z;
  eventType : EventType;
  severity : Severity;
  userId : option string;
  deviceInfo : option DeviceInfo;
  details : string;
  location : option string;
}.

Record Stats := MkStats {
  totalEvents : Z;
  criticalEvents : Z;
  uniqueDevices : Z;
  mostCommonEvent : string;
}.

Record AuditLog := MkAudit { events : list AuditEvent; stats : Stats }.

Definition set_events l s := MkAudit l (stats s).
Definition set_stats t s := MkAudit (events s) t.

#[export] Instance audit_cache : Cache AuditLog AuditEvent := {|
  cache_id := id; cached := events; set_cached := set_events;
|}.
#[export] Instance audit_cache_laws : CacheLaws AuditLog AuditEvent.
Proof. by constructor. Qed.

Abbreviation M := (js (AuditLog * Env)).

Definition fresh : AuditLog := MkAudit [] (MkStats 0 0 0 "none").

(** ** Statistics *)

(** [event.deviceInfo?.fingerprint || 'unknown'] *)
Definition device_of (e : AuditEvent) : string :=
  let f := fingerprint <$> deviceInfo e in
  if truthy_str f then default "" f else "unknown".

(** The three accumulators of the pass over the events. *)
Definition count_event (acc : Z * list string * jsmap Z) (e : AuditEvent) : Z * list string * jsmap Z :=
  let '(crit, devices, counts) := acc in
  let name := event_name (eventType e) in
  (if bool_decide (severity e = critical) then crit + 1 else crit,
   if js_some (str_eqb (device_of e)) devices then devices else devices ++ [device_of e],
   map_set name (default 0 (map_get name counts) + 1) counts).

(** The first entry with the largest count. *)
Definition most_common (counts : jsmap Z) : string * Z :=
  foldl (λ acc kn, if acc.2 <? kn.2 then kn else acc) ("none", 0) counts.

Definition stats_of (l : list AuditEvent) : Stats :=
  let '(crit, devices, counts) := foldl count_event (0, [], []) l in
  MkStats (Z.of_nat (length l)) crit (Z.of_nat (length devices)) (most_common counts).1.

Definition recalcStats : M () := modify_this (λ s, set_stats (stats_of (events s)) s).
Definition getStatistics : M Stats := s ← this; mret (stats s).

(** ** Events *)

Record Filter := MkFilter {
  startDate : option Z;
  endDate : option Z;
  f_eventType : option EventType;
  f_severity : option Severity;
}.

(** A missing date and zero filter nothing. *)
Definition on_date (d : option Z) (p : Z → bool) : bool :=
  match d with Some t => (t =? 0) || p t | None => true end.

Definition filtered (f : Filter) (l : list AuditEvent) : list AuditEvent :=
  let l1 := js_filter (λ e, on_date (startDate f) (λ t, t <=? timestamp e)) l in
  let l2 := js_filter (λ e, on_date (endDate f) (λ t, timestamp e <=? t)) l1 in
  let l3 := match f_eventType f with
            | Some ty => js_filter (λ e, bool_decide (eventType e = ty)) l2
            | None => l2
            end in
  let l4 := match f_severity f with
            | Some sv => js_filter (λ e, bool_decide (severity e = sv)) l3
            | None => l3
            end in
  js_sort (λ a b, timestamp a <? timestamp b) l4.

Definition getEvents (f : Filter) : M (list AuditEvent) := s ← this; mret (filtered f (events s)).

(** The replies of the endpoints under /api/audit; an exported JSON value is its text. *)
Record AuditApi := MkAuditApi {
  get_events : nat → Filter → Reply (option (list AuditEvent));
  get_stats : nat → Reply Stats;
  get_export : nat → bool → Reply (option string);
}.

(** [s.replace(/\s+/g, ' ')] *)
Fixpoint collapse (in_space : bool) (s : string) : string :=
  match s with
  | EmptyString => EmptyString
  | String c s' =>
      if is_space c then (if in_space then collapse true s' else String " " (collapse true s'))
      else String c (collapse false s')
  end.

Definition quote : string := String (ascii_of_nat 34) EmptyString.
Definition newline : string := String (ascii_of_nat 10) EmptyString.

Definition csv_row (e : AuditEvent) : string :=
  toISOString (timestamp e) +:+ "," +:+ event_name (eventType e) +:+ "," +:+ severity_name (severity e) +:+ "," +:+
  quote +:+ collapse false (default "" (userAgent <$> deviceInfo e)) +:+ quote.

Definition csv_of (l : list AuditEvent) : string :=
  "Timestamp,Event Type,Severity,User Agent" +:+ newline +:+ join newline (csv_row <$> l).

Section Api.
Context (allowFallback : bool) (api : AuditApi) (agent : string).

Definition refreshEvents (f : Filter) : M (list AuditEvent) :=
  or_fallback allowFallback
    (r ← fetch (λ n, get_events api n f);
     l ← fields r;
     modify_this (set_events (default [] l));;
     recalcStats)
    recalcStats;;
  getEvents f.

Definition refreshStats : M Stats :=
  or_fallback allowFallback
    (r ← fetch (get_stats api);
     match r with Some t => modify_this (set_stats t) | None => mret () end)
    recalcStats;;
  getStatistics.

(** [navigator] is there in a browser; [agent] is its user agent. *)
Definition logEvent (ty : EventType) (sv : Severity) (dt : string) : M AuditEvent :=
  i ← createId "audit";
  t ← date_now;
  b ← is_browser;
  fp ← createId "fp";
  let event := MkEvent i t ty sv None (Some (MkDevice (if b : bool then agent else "unknown") None fp)) dt None in
  push_front event;;
  recalcStats;;
  mret event.

Definition exportAuditLog (csv : bool) : M (text (list AuditEvent)) :=
  or_fallback allowFallback
    (r ← fetch (λ n, get_export api n csv);
     d ← fields r;
     mret (match d with Some t => TRaw t | None => if csv then TRaw "" else TJson [] end))
    (s ← this; mret (if csv then TRaw (csv_of (events s)) else TJson (events s))).
End Api.

(** * Theorems *)

(** ** The statistics, against their definition

    [stats_of] makes one pass with three accumulators and then looks for the largest
    count; here each figure is defined on its own. *)

Definition name_of (e : AuditEvent) : string := event_name (eventType e).

(** How often a type occurs. *)
Definition occurrences (n : string) (l : list AuditEvent) : Z :=
  occurs n (name_of <$> l).

(** The first of the types, in the order in which they first occur, that occurs most. *)
Definition commonest (n : string) (l : list AuditEvent) : Prop :=
  match l with
  | [] => n = "none"
  | _ => ∃ before after, set_of (name_of <$> l) = before ++ n :: after ∧
      Forall (λ m, occurrences m l < occurrences n l) before ∧
      Forall (λ m, occurrences m l <= occurrences n l) after
  end.

(** *** The pass *)

Definition critical_count (l : list AuditEvent) : Z :=
  Z.of_nat (length (js_filter (λ e, bool_decide (severity e = critical)) l)).

Lemma occurrences_snoc n l e :
  occurrences n (l ++ [e]) = occurrences n l + if str_eqb (name_of e) n then 1 else 0.
Proof. unfold occurrences. rewrite fmap_app. apply occurs_snoc. Qed.

Lemma count_events l :
  foldl count_event (0, [], []) l =
  (critical_count l, set_of (device_of <$> l), tabulate (λ n, occurrences n l) (set_of (name_of <$> l))).
Proof.
  induction l as [|e l IH] using rev_ind; [done|]. rewrite foldl_app, IH. cbn [foldl count_event].
  rewrite !fmap_app. csimpl. rewrite !set_of_snoc. fold (name_of e). f_equal; [f_equal|].
  - unfold critical_count. rewrite js_filter_snoc, length_app. case_bool_decide; cbn; lia.
  - rewrite js_some_str_eqb.
    assert (default 0 (map_get (name_of e) (tabulate (λ n, occurrences n l) (set_of (name_of <$> l)))) + 1
      = occurrences (name_of e) (l ++ [e])) as ->.
    { rewrite tabulate_get, occurrences_snoc, str_eqb_refl. case_bool_decide as Hn; [done|].
      unfold occurrences. rewrite occurs_absent; [done|]. by rewrite elem_of_set_of in Hn. }
    apply (tabulate_set (λ n, occurrences n l) (λ n, occurrences n (l ++ [e]))); [apply set_of_NoDup|].
    intros m _ Hm. rewrite occurrences_snoc, (proj2 (str_eqb_false (name_of e) m)); [lia|done].
Qed.

(** *** The largest count *)

Lemma most_common_spec f names (best : string * Z) :
  foldl (λ acc kn, if acc.2 <? kn.2 then kn else acc) best (tabulate f names) = best ∧
    Forall (λ m, f m <= best.2) names ∨
  ∃ before n after, names = before ++ n :: after ∧ best.2 < f n ∧
    foldl (λ acc kn, if acc.2 <? kn.2 then kn else acc) best (tabulate f names) = (n, f n) ∧
    Forall (λ m, f m < f n) before ∧ Forall (λ m, f m <= f n) after.
Proof.
  revert best. induction names as [|m names IH]; intros best; [by left|]. unfold tabulate. csimpl.
  destruct (Z.ltb_spec best.2 (f m)) as [Hlt|Hge].
  - right. destruct (IH (m, f m)) as [[E Hall]|(b & n & a & -> & Hn & E & Hb & Ha)]; cbn [snd] in *.
    + exists [], m, names. done.
    + exists (m :: b), n, a. split_and!; [done|lia|exact E|by constructor|done].
  - destruct (IH best) as [[E Hall]|(b & n & a & -> & Hn & E & Hb & Ha)].
    + left. split; [exact E|by constructor].
    + right. exists (m :: b), n, a. split_and!; [done..|constructor; [lia|done]|done].
Qed.

Lemma commonest_found l : commonest (most_common (tabulate (λ n, occurrences n l) (set_of (name_of <$> l)))).1 l.
Proof.
  destruct l as [|e l]; [done|]. set (l' := e :: l).
  assert (name_of e ∈ set_of (name_of <$> l')) as He by (apply elem_of_set_of; by left).
  unfold most_common.
  destruct (most_common_spec (λ n, occurrences n l') (set_of (name_of <$> l')) ("none", 0))
    as [[_ Hall]|(b & n & a & E & Hn & -> & Hb & Ha)].
  - rewrite Forall_forall in Hall. specialize (Hall _ He). cbn in Hall.
    pose proof (occurs_pos (name_of e) (name_of <$> l') ltac:(apply (elem_of_set_of (name_of e)), He)). unfold occurrences in Hall. lia.
  - exists b, a. done.
Qed.

(** The statistics that [recalcStats] computes in one pass are those defined figure by
    figure: the number of events, of critical events, of distinct devices, and the first
    of the types that occur most often. *)
Theorem recalcStats_reference w :
  let l := events w.1 in
  ∃ s, recalcStats w = (Ok (), (s, w.2)) ∧ events s = l ∧
    totalEvents (stats s) = Z.of_nat (length l) ∧
    criticalEvents (stats s) = Z.of_nat (length (js_filter (λ e, bool_decide (severity e = critical)) l)) ∧
    uniqueDevices (stats s) = Z.of_nat (length (set_of (device_of <$> l))) ∧
    commonest (mostCommonEvent (stats s)) l.
Proof.
  cbv zeta. destruct w as [s e]. eexists. split; [reflexivity|]. unfold stats_of. cbn [fst].
  rewrite count_events. cbn. split_and!; [done..|]. apply commonest_found.
Qed.

(** ** Operations *)

Inductive operation :=
  | OpRefresh (f : Filter) | OpRefreshStats
  | OpLog (ty : EventType) (sv : Severity) (dt : string)
  | OpExport (csv : bool).

Definition exec (allow : bool) (api : AuditApi) (agent : string) (o : operation) : M () :=
  match o with
  | OpRefresh f => refreshEvents allow api f;; mret ()
  | OpRefreshStats => refreshStats allow api;; mret ()
  | OpLog ty sv dt => logEvent agent ty sv dt;; mret ()
  | OpExport csv => exportAuditLog allow api csv;; mret ()
  end.

(** With fallbacks allowed no operation throws, whatever the API replies. *)
Theorem audit_never_throws api agent o : total (exec true api agent o).
Proof.
  destruct o; cbn [exec]; unfold refreshEvents, refreshStats, logEvent, exportAuditLog, getEvents, getStatistics,
    recalcStats; js_total.
Qed.

(** Every logged event counts as a device of its own: its fingerprint is made from the
    clock and a random text. *)
Theorem logEvent_counts_a_device agent ty sv dt s e :
  let fp := "fp" +:+ "-" +:+ pretty (clock e (S (S (ticks e)))) +:+ "-" +:+ entropy e (S (draws e)) in
  let i := "audit" +:+ "-" +:+ pretty (clock e (ticks e)) +:+ "-" +:+ entropy e (draws e) in
  fp ∉ device_of <$> events s → i ∉ id <$> events s →
  ∃ ev s' e', logEvent agent ty sv dt (s, e) = (Ok ev, (s', e')) ∧
    uniqueDevices (stats s') = Z.of_nat (length (set_of (device_of <$> events s))) + 1.
Proof.
  cbv zeta. intros Hfp Hi. unfold logEvent, createId. js_run. eexists _, _, _. split; [reflexivity|].
  cbn [stats events set_stats]. unfold stats_of. rewrite count_events. cbn [uniqueDevices].
  unfold replace_front. rewrite js_filter_all.
  2: { intros x Hx. apply negb_true_iff, str_eqb_false. intros E. apply Hi.
       apply list_elem_of_fmap. exists x. split; [symmetry; exact E|done]. }
  csimpl. set (d := device_of (MkEvent _ _ _ _ _ _ _ _)).
  assert (d ∉ device_of <$> events s) as Hd by exact Hfp.
  assert (set_of (d :: (device_of <$> events s)) ≡ₚ d :: set_of (device_of <$> events s)) as Hp.
  { apply NoDup_Permutation; [apply set_of_NoDup|constructor; [by rewrite elem_of_set_of|apply set_of_NoDup]|].
    intros x. by rewrite elem_of_cons, !elem_of_set_of, elem_of_cons. }
  rewrite Hp. cbn [length]. lia.
Qed.
