(* ===== verification/PrivacyTools.v ===== *)
(** * [PrivacyToolsService] (apps/web/wallet/src/services/privacyTools.ts)

    Mixing transactions, privacy settings and a privacy score, over the wallet API with
    answers made up locally when it fails and the build allows it. Numbers of
    participants, rounds, inputs and outputs are integers. *)

From Stdlib Require Import String.
From S2P Require Import Prelude JsNumber WalletApi.

Inductive PrivacyType := coinjoin | stealth | mixed.
Inductive TxStatus := pending | completed | failed.

Record PrivacyTransaction := MkPrivacyTx {
  id : string;
  txid : string;
  type : PrivacyType;
  amount : num;
  privacyScore : Z;
  participants : option Z;
  rounds : option Z;
  createdAt : Z;
  status : TxStatus;
}.

Record PrivacySettings := MkSettings {
  enableTor : bool;
  autoMixing : bool;
  minMixAmount : num;
  mixingRounds : Z;
  addressRotation : bool;
  stealthAddresses : bool;
}.

Record PrivacyTools := MkPrivacy { transactions : list PrivacyTransaction; settings : PrivacySettings }.

Definition set_transactions l s := MkPrivacy l (settings s).
Definition set_settings c s := MkPrivacy (transactions s) c.

#[export] Instance privacy_cache : Cache PrivacyTools PrivacyTransaction := {|
  cache_id := id; cached := transactions; set_cached := set_transactions;
|}.
#[export] Instance privacy_cache_laws : CacheLaws PrivacyTools PrivacyTransaction.
Proof. by constructor. Qed.

Abbreviation M := (js (PrivacyTools * Env)).

Definition fresh : PrivacyTools := MkPrivacy [] (MkSettings false false (lit 1 1) 3 true false).

Record StealthAddress := MkStealth { s_address : string; scanKey : string; spendKey : string }.

(** [Partial<PrivacySettings>] *)
Record Updates := MkUpdates {
  u_enableTor : option bool;
  u_autoMixing : option bool;
  u_minMixAmount : option num;
  u_mixingRounds : option Z;
  u_addressRotation : option bool;
  u_stealthAddresses : option bool;
}.
Definition no_updates : Updates := MkUpdates None None None None None None.

(** [{ ...this.settings, ...updates }] *)
Definition merge (c : PrivacySettings) (u : Updates) : PrivacySettings :=
  MkSettings (default (enableTor c) (u_enableTor u)) (default (autoMixing c) (u_autoMixing u))
    (default (minMixAmount c) (u_minMixAmount u)) (default (mixingRounds c) (u_mixingRounds u))
    (default (addressRotation c) (u_addressRotation u)) (default (stealthAddresses c) (u_stealthAddresses u)).

(** The replies of the endpoints under /api/privacy. *)
Record PrivacyApi := MkPrivacyApi {
  get_settings : nat → Reply (option PrivacySettings);
  get_transactions : nat → Reply (option (list PrivacyTransaction));
  post_coinjoin : nat → num → Z → Reply PrivacyTransaction;
  post_stealth : nat → Reply StealthAddress;
  post_settings : nat → Updates → Reply (option PrivacySettings);
}.

Definition getSettings : M PrivacySettings := s ← this; mret (settings s).
Definition getPrivacyTransactions : M (list PrivacyTransaction) :=
  s ← this; mret (js_sort (λ a b, createdAt a <? createdAt b) (transactions s)).

Record ScoreInput := MkScoreInput {
  inputs : Z;
  outputs : Z;
  usesStealthAddress : bool;
  usesCoinjoin : bool;
}.

Definition calculateTransactionPrivacyScore (tx : ScoreInput) : Z :=
  let score := 50 + Z.min (inputs tx * 5) 20 + Z.min (outputs tx * 5) 20
    + (if usesStealthAddress tx then 15 else 0) + (if usesCoinjoin tx then 20 else 0) in
  Z.min score 100.

Definition rotateAddress (currentAddress : string) : M string :=
  js_throw "Address rotation requires a configured wallet backend.".

Section Api.
Context (allowFallback : bool) (api : PrivacyApi).

Definition refreshSettings : M PrivacySettings :=
  or_fallback allowFallback
    (r ← fetch (get_settings api);
     c ← fields r;
     modify_this (λ s, set_settings (default (settings s) c) s))
    (mret ());;
  getSettings.

Definition refreshTransactions : M (list PrivacyTransaction) :=
  or_fallback allowFallback
    (r ← fetch (get_transactions api);
     l ← fields r;
     modify_this (set_transactions (default [] l)))
    (mret ());;
  getPrivacyTransactions.

Definition createCoinJoin (amt : num) (parts : Z) : M PrivacyTransaction :=
  or_fallback allowFallback
    (r ← fetch (λ n, post_coinjoin api n amt parts);
     tx ← fields r;
     push_front tx;;
     mret tx)
    (i ← createId "coinjoin";
     a ← createAddress "KC";
     s ← this;
     t ← date_now;
     let tx := MkPrivacyTx i a coinjoin amt (Z.min (50 + parts * 5) 95) (Some parts)
       (Some (mixingRounds (settings s))) t completed in
     push_front tx;;
     mret tx).

Definition createStealthAddress : M (option StealthAddress) :=
  or_fallback allowFallback
    (fetch (post_stealth api))
    (a ← createAddress "KC";
     sc ← createAddress "SCAN";
     sp ← createAddress "SPEND";
     mret (Some (MkStealth a sc sp))).

Definition mixTransaction (tid : string) : M PrivacyTransaction :=
  or_fallback allowFallback
    (s ← this;
     r ← fetch (λ n, post_coinjoin api n nzero (mixingRounds (settings s)));
     tx ← fields r;
     push_front tx;;
     mret tx)
    (i ← createId "mix";
     s ← this;
     t ← date_now;
     let n := mixingRounds (settings s) in
     let tx := MkPrivacyTx i tid mixed nzero 90 (Some n) (Some n) t completed in
     push_front tx;;
     mret tx).

Definition updateSettings (u : Updates) : M () :=
  or_fallback allowFallback
    (r ← fetch (λ n, post_settings api n u);
     c ← fields r;
     modify_this (λ s, set_settings (default (settings s) c) s))
    (modify_this (λ s, set_settings (merge (settings s) u) s)).

Definition enableTorRouting : M bool :=
  updateSettings (MkUpdates (Some true) None None None None None);; mret true.
Definition disableTorRouting : M () := updateSettings (MkUpdates (Some false) None None None None None).
End Api.

(** * Theorems *)

Inductive operation :=
  | OpRefreshSettings | OpRefreshTransactions
  | OpCoinJoin (amt : num) (parts : Z) | OpStealth | OpMix (tid : string)
  | OpUpdate (u : Updates) | OpEnableTor | OpDisableTor.

Definition exec (allow : bool) (api : PrivacyApi) (o : operation) : M () :=
  match o with
  | OpRefreshSettings => refreshSettings allow api;; mret ()
  | OpRefreshTransactions => refreshTransactions allow api;; mret ()
  | OpCoinJoin a n => createCoinJoin allow api a n;; mret ()
  | OpStealth => createStealthAddress allow api;; mret ()
  | OpMix t => mixTransaction allow api t;; mret ()
  | OpUpdate u => updateSettings allow api u
  | OpEnableTor => enableTorRouting allow api;; mret ()
  | OpDisableTor => disableTorRouting allow api
  end.

(** With fallbacks allowed no operation throws, whatever the API replies. *)
Theorem privacy_never_throws api o : total (exec true api o).
Proof.
  destruct o; cbn [exec]; unfold refreshSettings, refreshTransactions, createCoinJoin, createStealthAddress,
    mixTransaction, enableTorRouting, disableTorRouting, updateSettings, getSettings, getPrivacyTransactions;
    js_total.
Qed.

(** A privacy score is from 50 to 100, grows with inputs and outputs, and reaches 100
    only with stealth addresses or a coin join or both. *)
Theorem privacy_score_bounds tx : 0 <= inputs tx → 0 <= outputs tx →
  50 <= calculateTransactionPrivacyScore tx <= 100 ∧
  (∀ tx', inputs tx <= inputs tx' → outputs tx <= outputs tx' →
    usesStealthAddress tx' = usesStealthAddress tx → usesCoinjoin tx' = usesCoinjoin tx →
    calculateTransactionPrivacyScore tx <= calculateTransactionPrivacyScore tx') ∧
  (usesStealthAddress tx = false → usesCoinjoin tx = false → calculateTransactionPrivacyScore tx <= 90).
Proof.
  intros Hi Ho. unfold calculateTransactionPrivacyScore. cbv zeta. split_and!.
  - destruct (usesStealthAddress tx), (usesCoinjoin tx); lia.
  - destruct (usesStealthAddress tx), (usesCoinjoin tx); lia.
  - intros tx' ?? -> ->. destruct (usesStealthAddress tx), (usesCoinjoin tx); lia.
  - intros -> ->. lia.
Qed.

Lemma privacy_score_bounds_witness :
  50 <= calculateTransactionPrivacyScore (MkScoreInput 2 3 false true) <= 100.
Proof. apply (privacy_score_bounds (MkScoreInput 2 3 false true)); vm_compute; discriminate. Defined.

(** Off line a coin join is reported as completed, with a transaction id made from a
    random text: nothing was mixed. *)
Theorem offline_coinjoin_is_made_up api amt parts s e :
  (∀ n a p, ∃ msg, request (post_coinjoin api n a p) = Throw msg) →
  ∃ tx s' e', createCoinJoin true api amt parts (s, e) = (Ok tx, (s', e')) ∧
    status tx = completed ∧ txid tx = "KC" +:+ entropy e (S (draws e)) ∧
    head (transactions s') = Some tx ∧ settings s' = settings s.
Proof.
  intros Hd. destruct (Hd (calls e) amt parts) as [msg E]. unfold createCoinJoin.
  rewrite (run_fallback_failed (λ n, post_coinjoin api n amt parts) msg) by exact E.
  unfold createId, createAddress. js_run. eexists _, _, _. split; [reflexivity|]. done.
Qed.

(** Without the API an update of the settings changes the fields it names and no other. *)
Theorem offline_settings_merge api u s e :
  (∀ n v, ∃ msg, request (post_settings api n v) = Throw msg) →
  ∃ s' e', updateSettings true api u (s, e) = (Ok (), (s', e')) ∧
    settings s' = merge (settings s) u ∧ transactions s' = transactions s.
Proof.
  intros Hd. destruct (Hd (calls e) u) as [msg E]. unfold updateSettings.
  rewrite (run_fallback_failed (λ n, post_settings api n u) msg) by exact E. by eexists _, _.
Qed.
