(* ===== verification/TransactionSearch.v ===== *)
(** * [TransactionSearch] (apps/web/wallet/src/services/transactionSearch.ts)

    Notes, tags, categories and attachments of transactions, search presets, and the
    search, filter and export of the active wallet's history, which comes from
    [WalletService]. The metadata is a JSON object under one key, the presets an array
    under another; both are read from storage by every operation. Tags and transaction
    ids are assumed not to be names of properties of [Object.prototype]. *)

From Stdlib Require Import Ascii String.
From S2P Require Import Prelude JsMap JsNumber JsString Store Wallet JsDate.
Local Open Scope stdpp_scope.

Inductive Category := income | expense | transfer | trading | other.
#[export] Instance Category_eq_dec : EqDecision Category.
Proof. solve_decision. Defined.

Definition category_name (c : Category) : string :=
  match c with
  | income => "income" | expense => "expense" | transfer => "transfer" | trading => "trading" | other => "other"
  end.

Record SearchFilters := MkFilters {
  dateFrom : option Z;
  dateTo : option Z;
  amountMin : option num;
  amountMax : option num;
  feeMin : option num;
  feeMax : option num;
  confirmationsMin : option num;
  type : option string;
  categories : list Category;
  f_tags : list string;
  contactAddress : option string;
}.

Record SearchPreset := MkPreset {
  p_id : string;
  p_name : string;
  p_description : option string;
  filters : SearchFilters;
  p_createdAt : Z;
}.

Record Metadata := MkMetadata {
  txId : string;
  note : option string;
  tags : list string;
  category : option Category;
  attachments : option (list string);
}.

Definition stored_metadata : Type := list (string * Metadata).

Record Search := MkSearch {
  wallet : WalletService;
  ls_metadata : cell stored_metadata;
  ls_presets : cell (list SearchPreset);
}.

Definition set_wallet ws s := MkSearch ws (ls_metadata s) (ls_presets s).
Definition set_ls_metadata c s := MkSearch (wallet s) c (ls_presets s).
Definition set_ls_presets c s := MkSearch (wallet s) (ls_metadata s) c.

Abbreviation M := (js (Search * Env)).

(** An operation of the wallet service, run on its state. *)
Definition in_wallet {A} (m : js (WalletService * Env) A) : M A := λ w,
  let '(r, (ws, e)) := m (wallet w.1, w.2) in (r, (set_wallet ws w.1, e)).

(** ** Metadata *)

Definition getAllMetadata : M stored_metadata :=
  ls_use (
    s ← this;
    match truthy_cell (ls_metadata s) with
    | None => mret []
    | Some t => JSON_parse t
    end).

Definition saveMetadata (m : stored_metadata) : M () :=
  ls_use (ls_setItem (set_ls_metadata (Some (TJson (object_order m))))).

Definition no_metadata (t : string) : Metadata := MkMetadata t None [] None None.

Definition metadata_of (m : stored_metadata) (t : string) : Metadata := default (no_metadata t) (map_get t m).

Definition getMetadata (t : string) : M Metadata := m ← getAllMetadata; mret (metadata_of m t).

(** [metadata[txId] = f(metadata[txId] || { txId, tags: [] })] *)
Definition put_metadata (t : string) (f : Metadata → Metadata) (m : stored_metadata) : stored_metadata :=
  map_set t (f (metadata_of m t)) m.

Definition set_tags l (x : Metadata) := MkMetadata (txId x) (note x) l (category x) (attachments x).
Definition set_note n (x : Metadata) := MkMetadata (txId x) n (tags x) (category x) (attachments x).
Definition set_category c (x : Metadata) := MkMetadata (txId x) (note x) (tags x) c (attachments x).
Definition set_attachments l (x : Metadata) := MkMetadata (txId x) (note x) (tags x) (category x) l.

Definition has_tag (tag : string) (x : Metadata) : bool := js_some (str_eqb tag) (tags x).

Definition addTag (t tag : string) : M () :=
  if str_eqb tag "" || str_eqb (trim tag) "" then js_throw "Tag cannot be empty"
  else
    m ← getAllMetadata;
    if has_tag tag (metadata_of m t) then mret ()
    else saveMetadata (put_metadata t (λ x, set_tags (tags x ++ [tag]) x) m).

Definition removeTag (t tag : string) : M () :=
  m ← getAllMetadata;
  js_when (map_has t m)
    (saveMetadata (put_metadata t (λ x, set_tags (js_filter (λ g, negb (str_eqb g tag)) (tags x)) x) m)).

Definition setTags (t : string) (l : list string) : M () :=
  m ← getAllMetadata; saveMetadata (put_metadata t (set_tags l) m).
Definition setCategory (t : string) (c : Category) : M () :=
  m ← getAllMetadata; saveMetadata (put_metadata t (set_category (Some c)) m).
Definition setNote (t n : string) : M () :=
  m ← getAllMetadata; saveMetadata (put_metadata t (set_note (Some n)) m).
Definition addAttachment (t url : string) : M () :=
  m ← getAllMetadata;
  saveMetadata (put_metadata t (λ x, set_attachments (Some (default [] (attachments x) ++ [url])) x) m).

Definition removeAttachment (t url : string) : M () :=
  m ← getAllMetadata;
  match attachments (metadata_of m t) with
  | Some l =>
      saveMetadata (put_metadata t (set_attachments (Some (js_filter (λ a, negb (str_eqb a url)) l))) m)
  | None => mret ()
  end.

Definition bulkSetCategory (ts : list string) (c : Category) : M () := js_forEach (λ t, setCategory t c) ts.
Definition bulkAddTag (ts : list string) (tag : string) : M () := js_forEach (λ t, addTag t tag) ts.
Definition bulkRemoveTag (ts : list string) (tag : string) : M () := js_forEach (λ t, removeTag t tag) ts.

(** ** Presets *)

Definition getPresets : M (list SearchPreset) :=
  ls_use (
    s ← this;
    match truthy_cell (ls_presets s) with
    | None => mret []
    | Some t => JSON_parse t
    end).

Definition store_presets (l : list SearchPreset) : M () :=
  ls_use (ls_setItem (set_ls_presets (Some (TJson l)))).

Definition savePreset (nm : string) (desc : option string) (f : SearchFilters) : M SearchPreset :=
  if str_eqb nm "" || str_eqb (trim nm) "" then js_throw "Preset name is required"
  else
    presets ← getPresets;
    if js_some (λ p, str_eqb (p_name p) nm) presets then js_throw "Preset with this name already exists"
    else
      t0 ← date_now;
      r ← random36;
      t1 ← date_now;
      let preset := MkPreset ("preset_" +:+ pretty t0 +:+ "_" +:+ r) nm desc f t1 in
      store_presets (presets ++ [preset]);;
      mret preset.

Definition deletePreset (i : string) : M bool :=
  presets ← getPresets;
  let filtered := js_filter (λ p, negb (str_eqb (p_id p) i)) presets in
  if (length filtered =? length presets)%nat then mret false
  else store_presets filtered;; mret true.

(** ** The history with its metadata *)

Record FoundTx := MkFound { tx : WalletTransactionRecord; meta : Metadata }.

(** [text.toLowerCase().includes(query)] *)
Definition text_includes (q s : string) : bool := includes q (toLowerCase s).

(** [xs.some((x) => x.address.toLowerCase().includes(query))]: an error at the first
    element without an address, unless one before it matches. *)
Fixpoint some_address (q : string) (l : list (option string * option num)) : result bool :=
  match l with
  | [] => Ok false
  | (Some a, _) :: l' => if text_includes q a then Ok true else some_address q l'
  | (None, _) :: _ => Throw "Cannot read properties of undefined (reading 'toLowerCase')"
  end.

Definition address_in (q : string) (l : option (list (option string * option num))) : result bool :=
  match l with Some l => some_address q l | None => Ok false end.

(** The condition of the plain search, from left to right. *)
Definition plain_match (q : string) (x : FoundTx) : result bool :=
  if text_includes q (rec_txid (tx x)) || text_includes q (default "" (note (meta x)))
     || js_some (text_includes q) (tags (meta x)) then Ok true
  else
    match address_in q (rec_outputs (tx x)) with
    | Ok true => Ok true
    | Throw e => Throw e
    | Ok false => address_in q (rec_inputs (tx x))
    end.

(** [xs.filter(p)] with a condition that can throw. *)
Fixpoint filter_result {A} (p : A → result bool) (l : list A) : result (list A) :=
  match l with
  | [] => Ok []
  | x :: l' =>
      match p x with
      | Throw e => Throw e
      | Ok b => match filter_result p l' with
                | Ok r => Ok (if b then x :: r else r)
                | Throw e => Throw e
                end
      end
  end.

Definition lift {A} (r : result A) : M A := λ w, (r, w).

(** ** Filters *)

Definition or_zero (x : option num) : num := num_or x nzero.
Definition on {A} (o : option A) (p : A → bool) : bool := match o with Some a => p a | None => true end.

(** [xs?.some((x) => x.address === a)] *)
Definition has_address (a : string) (l : option (list (option string * option num))) : bool :=
  js_some (λ x, bool_decide (x.1 = Some a)) (default [] l).

(** The conditions of [filter], in its order. [type] is not among them. *)
Definition passes (z : Zone) (f : SearchFilters) (x : FoundTx) : bool :=
  let t := rec_timestamp (tx x) in
  on (dateFrom f) (λ d, match t with Some t => d <=? t | None => false end)
  && on (dateTo f) (λ d, match t with Some t => t <=? endOfDay z d | None => false end)
  && on (amountMin f) (λ m, SFleb m (or_zero (Some (rec_amount (tx x)))))
  && on (amountMax f) (λ m, SFleb (or_zero (Some (rec_amount (tx x)))) m)
  && on (feeMin f) (λ m, SFleb m (or_zero (rec_fee (tx x))))
  && on (feeMax f) (λ m, SFleb (or_zero (rec_fee (tx x))) m)
  && on (confirmationsMin f) (λ m, SFleb m (of_Z (rec_confirmations (tx x))))
  && (match categories f with
      | [] => true
      | cs => match category (meta x) with
              | Some c => js_some (λ d, bool_decide (d = c)) cs
              | None => false
              end
      end)
  && (match f_tags f with [] => true | ts => js_some (λ g, has_tag g (meta x)) ts end)
  && (if truthy_str (contactAddress f) then
        let a := default "" (contactAddress f) in
        has_address a (rec_outputs (tx x)) || has_address a (rec_inputs (tx x))
      else true).

Definition filter (z : Zone) (l : list FoundTx) (f : SearchFilters) : list FoundTx := js_filter (passes z f) l.

(** ** Statistics and export *)

Record CategoryStats := MkStats { count : Z; total : num }.

Definition categoryStats (l : list FoundTx) (c : Category) : CategoryStats :=
  let mine := js_filter (λ x, bool_decide (default other (category (meta x)) = c)) l in
  MkStats (Z.of_nat (length mine)) (sum_by (λ x, or_zero (Some (rec_amount (tx x)))) mine).

Definition count_tag (m : jsmap Z) (tag : string) : jsmap Z := map_set tag (default 0 (map_get tag m) + 1) m.
Definition tagStats (l : list FoundTx) : jsmap Z := foldl (λ m x, foldl count_tag m (tags (meta x))) [] l.

Definition quote : string := String (ascii_of_nat 34) EmptyString.
Definition newline : string := String (ascii_of_nat 10) EmptyString.

(** [x?.toString() || '0'] *)
Definition text_or_zero (o : option string) : string :=
  match o with Some s => if str_eqb s "" then "0" else s | None => "0" end.

(** The cells of a row: the records have no field [id], so the first is [undefined], and
    the date of a record without a time is not a date. *)
Definition csv_cells (x : FoundTx) : result (list string) :=
  match rec_timestamp (tx x) with
  | None => Throw "Invalid time value"
  | Some t => Ok [
      "undefined";
      toISOString t;
      text_or_zero (Some (num_to_string (rec_amount (tx x))));
      text_or_zero (num_to_string <$> rec_fee (tx x));
      text_or_zero (Some (pretty (rec_confirmations (tx x))));
      default "" (category_name <$> category (meta x));
      join ";" (tags (meta x));
      default "" (note (meta x))]
  end.

Definition csv_row (cells : list string) : string := join "," ((λ c, quote +:+ c +:+ quote) <$> cells).

Fixpoint map_result {A B} (f : A → result B) (l : list A) : result (list B) :=
  match l with
  | [] => Ok []
  | x :: l' =>
      match f x with
      | Throw e => Throw e
      | Ok y => match map_result f l' with Ok ys => Ok (y :: ys) | Throw e => Throw e end
      end
  end.

Definition exportToCSV (l : list FoundTx) : result string :=
  match map_result csv_cells l with
  | Throw e => Throw e
  | Ok rows => Ok (join newline
      ("Transaction ID,Date,Amount,Fee,Confirmations,Category,Tags,Note" :: (csv_row <$> rows)))
  end.

(** ** Searching *)

Section Node.
Context (api : Api).
(** [new RegExp(query, 'i')] and its [test]: the host's engine; [None] for a query that
    is not a regular expression. *)
Context (RegExp_test : string → option (string → bool)).

Definition getAllTransactions : M (list FoundTx) :=
  js_try (
    w ← in_wallet getActiveWallet;
    match w with
    | None => mret []
    | Some w =>
        txs ← in_wallet (getTransactionHistory api (address w) 50);
        js_mapM (λ t, m ← getMetadata (rec_txid t); mret (MkFound t m)) txs
    end) (λ _, mret []).

Definition regex_match (test : string → bool) (x : FoundTx) : bool :=
  test (rec_txid (tx x)) || test (default "" (note (meta x))) || js_some test (tags (meta x))
  || js_some (λ o, test (default "undefined" o.1)) (default [] (rec_outputs (tx x)))
  || js_some (λ o, test (default "undefined" o.1)) (default [] (rec_inputs (tx x))).

Definition search (query : string) (useRegex : bool) : M (list FoundTx) :=
  transactions ← getAllTransactions;
  if str_eqb query "" then mret transactions
  else if useRegex then
    mret (match RegExp_test query with
          | Some test => js_filter (regex_match test) transactions
          | None => []
          end)
  else lift (filter_result (plain_match (toLowerCase query)) transactions).

Definition getCategoryStats : M (Category → CategoryStats) :=
  l ← getAllTransactions; mret (categoryStats l).
Definition getTagStats : M (jsmap Z) := l ← getAllTransactions; mret (tagStats l).

(** [{ categories: [], tags: [], ...criteria.filters }] is given as complete filters. *)
Definition advancedSearch (z : Zone) (query : option string) (useRegex : bool) (f : option SearchFilters) :
    M (list FoundTx) :=
  all ← getAllTransactions;
  results ← (if truthy_str query then search (default "" query) useRegex else mret all);
  mret (match f with Some f => filter z results f | None => results end).
End Node.

(** * Theorems *)

Local Open Scope stdpp_scope.

(** ** Reading and writing the metadata *)

(** The stored metadata, unless the stored text does not parse. *)
Definition metadata_in (s : Search) : option stored_metadata :=
  match truthy_cell (ls_metadata s) with
  | None => Some []
  | Some (TJson m) => Some m
  | Some (TRaw _) => None
  end.

Lemma getAllMetadata_run s e m : browser e = true → metadata_in s = Some m → getAllMetadata (s, e) = (Ok m, (s, e)).
Proof.
  intros Hb Hm. unfold getAllMetadata, ls_use. js_run. rewrite Hb. js_run. unfold metadata_in in Hm.
  by destruct (truthy_cell (ls_metadata s)) as [[l|raw]|]; simplify_eq.
Qed.

Lemma getAllMetadata_bind {B} (k : stored_metadata → M B) s e m : browser e = true → metadata_in s = Some m →
  (getAllMetadata ≫= k) (s, e) = k m (s, e).
Proof. intros Hb Hm. by rewrite (run_Ok _ _ _ _ _ (getAllMetadata_run s e m Hb Hm)). Qed.

Definition saved (m : stored_metadata) (s : Search) : Search := set_ls_metadata (Some (TJson (object_order m))) s.

Lemma saveMetadata_run m s e : browser e = true → writable e = true → saveMetadata m (s, e) = (Ok (), (saved m s, e)).
Proof. intros Hb Hw. unfold saveMetadata, ls_use. js_run. rewrite Hb. unfold ls_setItem. cbn. by rewrite Hw. Qed.

Definition keyed_metadata (m : stored_metadata) : Prop := map_wf m ∧ map_all (λ k x, txId x = k) m.

Lemma metadata_of_saved m s t : map_wf m → metadata_in (saved m s) = Some (object_order m) ∧
  metadata_of (object_order m) t = metadata_of m t.
Proof.
  intros Hwf. split; [done|]. unfold metadata_of.
  by rewrite (map_get_perm (object_order m) m t (map_wf_object_order _ Hwf) (object_order_perm m)).
Qed.

Lemma metadata_of_put t f m u : metadata_of (put_metadata t f m) u = if str_eqb t u then f (metadata_of m t) else metadata_of m u.
Proof.
  unfold put_metadata. unfold metadata_of at 1. destruct (str_eqb t u) eqn:E.
  - apply str_eqb_true in E as ->. by rewrite map_get_set_eq.
  - apply str_eqb_false in E. by rewrite map_get_set_ne.
Qed.

(** A tag that is not blank is added once, at the end, to the transaction named and to
    no other; one it already has changes nothing. *)
Theorem addTag_effect t tag s e m : browser e = true → writable e = true → metadata_in s = Some m → map_wf m →
  trim tag ≠ "" → tag ≠ "" →
  ∃ s' m', addTag t tag (s, e) = (Ok (), (s', e)) ∧ metadata_in s' = Some m' ∧ map_wf m' ∧
    tags (metadata_of m' t) = (if has_tag tag (metadata_of m t) then tags (metadata_of m t)
                               else tags (metadata_of m t) ++ [tag]) ∧
    (∀ u, u ≠ t → metadata_of m' u = metadata_of m u) ∧
    (NoDup (tags (metadata_of m t)) → NoDup (tags (metadata_of m' t))).
Proof.
  intros Hb Hw Hm Hwf Htrim Hne. unfold addTag.
  rewrite (proj2 (str_eqb_false _ _) Hne), (proj2 (str_eqb_false _ _) Htrim). cbn [orb].
  rewrite (getAllMetadata_bind _ _ _ m Hb Hm). destruct (has_tag tag (metadata_of m t)) eqn:E.
  { exists s, m. done. }
  set (m1 := put_metadata t _ m). assert (map_wf m1) as Hwf1 by (by apply map_wf_set).
  rewrite (saveMetadata_run m1 s e Hb Hw).
  destruct (metadata_of_saved m1 s t Hwf1) as [H1 H2].
  exists (saved m1 s), (object_order m1). split_and!; [done|done|by apply map_wf_object_order|..].
  - rewrite H2. unfold m1. by rewrite metadata_of_put, str_eqb_refl.
  - intros u Hu. destruct (metadata_of_saved m1 s u Hwf1) as [_ ->]. unfold m1.
    by rewrite metadata_of_put, (proj2 (str_eqb_false t u)).
  - intros Hnd. rewrite H2. unfold m1. rewrite metadata_of_put, str_eqb_refl. cbn.
    apply NoDup_app. split_and!; [done| |apply NoDup_singleton].
    intros x Hx ->%list_elem_of_singleton. unfold has_tag in E. rewrite js_some_false in E.
    specialize (E tag Hx). by rewrite str_eqb_refl in E.
Qed.

Definition demo_search : Search := MkSearch (MkService [] None no_snapshot None None) None None.

Lemma addTag_effect_witness : ∃ s' m', addTag "ab12" "rent" (demo_search, demo_env) = (Ok (), (s', demo_env)) ∧
  metadata_in s' = Some m' ∧ tags (metadata_of m' "ab12") = ["rent"].
Proof.
  destruct (addTag_effect "ab12" "rent" demo_search demo_env []) as (s' & m' & E & Hm & _ & Ht & _);
    [reflexivity|reflexivity|reflexivity|apply map_wf_nil|vm_compute; discriminate|discriminate|].
  exists s', m'. split; [exact E|split; [exact Hm|exact Ht]].
Defined.

(** ** Presets keep distinct names *)

Definition presets_ok (s : Search) : Prop :=
  match ls_presets s with Some (TJson l) => NoDup (p_name <$> l) | _ => True end.

Lemma presets_ok_read s e l s' e' : getPresets (s, e) = (Ok l, (s', e')) → presets_ok s → s' = s ∧ e' = e ∧ NoDup (p_name <$> l).
Proof.
  unfold getPresets, ls_use, presets_ok. js_run. destruct (browser e); [|done]. js_run.
  destruct (ls_presets s) as [[l0|raw]|]; cbn [truthy_cell]; [|case_bool_decide|]; intros [= <- <- <-] Hok;
    split_and!; try done; apply NoDup_nil_2.
Qed.

Lemma presets_ok_store l s e : NoDup (p_name <$> l) → presets_ok s → presets_ok (store_presets l (s, e)).2.1.
Proof.
  intros Hl Hs. unfold store_presets, ls_use. js_run. destruct (browser e); [|done].
  unfold ls_setItem. cbn. by destruct (writable e).
Qed.

Lemma presets_ok_bind {B} (k : list SearchPreset → M B) :
  (∀ l, NoDup (p_name <$> l) → preserves presets_ok (k l)) → preserves presets_ok (getPresets ≫= k).
Proof.
  intros Hk [s e] Hs. unfold mbind, js_bind. destruct (getPresets (s, e)) as [[l|msg] [s' e']] eqn:E.
  - destruct (presets_ok_read _ _ _ _ _ E Hs) as (-> & -> & Hl). by apply Hk.
  - cbn. unfold getPresets, ls_use in E. revert E. js_run. destruct (browser e); [|by intros [= <- <-]]. js_run.
    destruct (ls_presets s) as [[l0|raw]|] eqn:El; cbn [truthy_cell]; [|case_bool_decide|]; intros E; try discriminate E.
    by injection E as _ <- _.
Qed.

Lemma presets_ok_save nm desc f : preserves presets_ok (savePreset nm desc f).
Proof.
  unfold savePreset. destruct (_ || _); [js_preserve|]. apply presets_ok_bind. intros l Hl.
  destruct (js_some _ l) eqn:E; [js_preserve|].
  intros [s e] Hs. js_run. apply preserves_bind; [|intros ?; js_preserve|done].
  intros [s' e'] Hs'. apply presets_ok_store; [|done]. rewrite fmap_app. apply NoDup_app.
  split_and!; [done| |apply NoDup_singleton]. intros x (p & -> & Hp)%list_elem_of_fmap Hx.
  apply list_elem_of_singleton in Hx. rewrite js_some_false in E. specialize (E p Hp).
  cbn in Hx. rewrite Hx in E. by rewrite str_eqb_refl in E.
Qed.

Lemma presets_ok_delete i : preserves presets_ok (deletePreset i).
Proof.
  unfold deletePreset. apply presets_ok_bind. intros l Hl. cbv zeta. destruct (_ =? _)%nat; [js_preserve|].
  apply preserves_bind; [|intros; js_preserve]. intros [s e] Hs. apply presets_ok_store; [|done].
  eapply sublist_NoDup; [exact Hl|]. apply fmap_sublist, js_filter_sublist.
Qed.

Inductive presets_reachable : Search * Env → Prop :=
  | start ws c e : presets_reachable (MkSearch ws c None, e)
  | save_preset nm desc f w : presets_reachable w → presets_reachable (savePreset nm desc f w).2
  | delete_preset i w : presets_reachable w → presets_reachable (deletePreset i w).2.

(** However presets are saved and deleted, the stored ones have distinct names. *)
Theorem preset_names_distinct w l : presets_reachable w → ls_presets w.1 = Some (TJson l) → NoDup (p_name <$> l).
Proof.
  intros Hw Hl. assert (presets_ok w.1) as H.
  { clear Hl. induction Hw as [ws c e|nm desc f w _ IH|i w _ IH]; [done|by apply presets_ok_save|by apply presets_ok_delete]. }
  unfold presets_ok in H. by rewrite Hl in H.
Qed.

(** ** Search *)

(** A transaction of the history with inputs: those have no address. *)
Definition unresolved_inputs (x : FoundTx) : Prop :=
  ∃ a l, rec_inputs (tx x) = Some ((None, a) :: l).

(** The inputs that [WalletService] finds for a transaction never have an address. *)
Lemma history_inputs_unresolved api t w d w' i :
  txDetails api t w = (Ok (Some d), w') → i ∈ d.1 → i = (None, None).
Proof.
  unfold txDetails, js_try. unfold mbind, js_bind, rpc. destruct (getRawTransaction _ _ _ _) as [[h|vin vout]|msg]; cbn;
    intros [= <- <-]; try done. intros (? & -> & _)%list_elem_of_fmap. done.
Qed.

(** The plain search is an error as soon as the history has a transaction with inputs
    that matches neither by id, note or tag nor by an output. *)
Theorem search_fails_on_inputs q l x : x ∈ l → unresolved_inputs x →
  plain_match q x ≠ Ok true → ∃ msg, filter_result (plain_match q) l = Throw msg.
Proof.
  intros Hx (a & i & Hi) Hno. assert (∃ msg, plain_match q x = Throw msg) as [msg E].
  { unfold plain_match in *. destruct (_ || _); [done|]. destruct (address_in q (rec_outputs (tx x))) as [[]|]; [done| |by eexists].
    rewrite Hi. by eexists. }
  clear Hno Hi. induction l as [|y l IH]; [by apply elem_of_nil in Hx|]. cbn.
  apply elem_of_cons in Hx as [<-|Hx]; [rewrite E; by eexists|].
  destruct (plain_match q y) as [b|m]; [|by eexists]. destruct (IH Hx) as [m ->]. by eexists.
Qed.

(** When it returns, the plain search returns the transactions that match, in order. *)
Theorem search_returns_matches q l r : filter_result (plain_match q) l = Ok r →
  r = js_filter (λ x, match plain_match q x with Ok b => b | Throw _ => false end) l ∧ ∀ x, x ∈ l → ∃ b, plain_match q x = Ok b.
Proof.
  revert r. induction l as [|x l IH]; intros r; cbn.
  { intros [= <-]. split; [done|]. by intros x ?%elem_of_nil. }
  destruct (plain_match q x) as [b|m] eqn:E; [|done]. destruct (filter_result (plain_match q) l) as [r'|m]; [|done].
  destruct (IH r' eq_refl) as [-> Hall]. intros [= <-]. split.
  - unfold js_filter. by destruct b.
  - intros y [->|Hy]%elem_of_cons; [by eexists|by apply Hall].
Qed.

Definition demo_found : FoundTx :=
  MkFound (MkRecord "ab12" None (of_Z 1) 6 None received (Some 1700000000000)
    (Some [(None, None)]) (Some [(Some "kc1bob", Some (of_Z 1))])) (no_metadata "ab12").

Lemma search_fails_on_inputs_witness : ∃ msg, filter_result (plain_match "alice") [demo_found] = Throw msg.
Proof.
  apply (search_fails_on_inputs "alice" [demo_found] demo_found).
  - constructor.
  - exists None, []. reflexivity.
  - vm_compute. discriminate.
Defined.

(** ** Filters and export *)

Definition with_type (t : option string) (f : SearchFilters) : SearchFilters :=
  MkFilters (dateFrom f) (dateTo f) (amountMin f) (amountMax f) (feeMin f) (feeMax f) (confirmationsMin f)
    t (categories f) (f_tags f) (contactAddress f).

(** A filter keeps a sublist of the transactions, whatever its type: the type is never
    looked at. *)
Theorem filter_ignores_type z l f t : filter z l (with_type t f) = filter z l f ∧ filter z l f `sublist_of` l.
Proof. split; [done|apply js_filter_sublist]. Qed.

(** No exported row carries the id of its transaction: the first cell of each is the
    text undefined. *)
Theorem export_has_no_ids x cells : csv_cells x = Ok cells → head cells = Some "undefined".
Proof. unfold csv_cells. destruct (rec_timestamp (tx x)); [|done]. by intros [= <-]. Qed.
