(* ===== verification/Validation.v ===== *)
(** * Validation and formatting helpers (apps/web/wallet/app/utils)

    validation.ts: the checks of the forms, each with its messages; formatters.ts: the
    texts made from numbers, times and hashes. The host's URL parser is a parameter; the
    formatters that ask the host's locale or logarithms ([formatCurrency], [formatDate],
    [formatBytes]) are not modelled. *)

From Stdlib Require Import Ascii String.
From S2P Require Import Prelude JsMap JsNumber JsString FloatFacts.
(** ** Validation *)

(** [{ valid: true }] or [{ valid: false, error }] *)
Definition ValidationResult : Type := option string.
Definition valid : ValidationResult := None.
Definition invalid (error : string) : ValidationResult := Some error.
Definition is_valid (r : ValidationResult) : bool := match r with None => true | Some _ => false end.

(** [!s || s.trim() === ''] *)
Definition blank (s : string) : bool := str_eqb s "" || str_eqb (trim s) "".

Definition is_hex (c : ascii) : bool := is_digit c || in_range 97 102 c || in_range 65 70 c.
Definition is_alnum (c : ascii) : bool := is_lower c || is_upper c || is_digit c.

(** [Number.parseInt(s, 10)]: NaN is [None]. *)
Definition parseInt (str : string) : option Z :=
  let s := trimStart str in
  let '(sg, s1) := match s with
    | String "-" t => (-1, t)
    | String "+" t => (1, t)
    | _ => (1, s)
    end in
  let ds := (span is_digit s1).1 in
  if str_eqb ds "" then None else Some (sg * digits_value ds).

Definition validateAmount (amount : string) (max : option num) : ValidationResult :=
  if blank amount then invalid "Amount is required"
  else
    let n := parseFloat amount in
    if is_nan n then invalid "Amount must be a valid number"
    else if SFleb n nzero then invalid "Amount must be greater than 0"
    else match max with
         | Some m => if SFltb m n then invalid ("Amount cannot exceed " +:+ num_to_string m) else valid
         | None => valid
         end.

Definition validateAddress (address : string) : ValidationResult :=
  if blank address then invalid "Address is required"
  else if (String.length address <? 26)%nat || (62 <? String.length address)%nat then invalid "Invalid address length"
  else if negb (str_all is_alnum address) then invalid "Address contains invalid characters"
  else valid.

Definition validateTxHash (hash : string) : ValidationResult :=
  if blank hash then invalid "Transaction hash is required"
  else if negb ((String.length hash =? 64)%nat && str_all is_hex hash) then invalid "Invalid transaction hash format"
  else valid.

Definition validateBlockHeight (height : string) : ValidationResult :=
  if blank height then invalid "Block height is required"
  else match parseInt height with
       | None => invalid "Block height must be a number"
       | Some n => if n <? 0 then invalid "Block height cannot be negative" else valid
       end.

(** The characters of [[^\s@]]. *)
Definition email_char (c : ascii) : bool := negb (is_space c) && negb (Ascii.eqb c "@").

(** Is there a dot with a character after it? *)
Fixpoint inner_dot (s : string) : bool :=
  match s with
  | String c (String _ _ as s') => Ascii.eqb c "." || inner_dot s'
  | _ => false
  end.

(** [/^[^\s@]+@[^\s@]+\.[^\s@]+$/]: what comes before the first [@] and after it. *)
Definition email_test (s : string) : bool :=
  let '(local, rest) := span email_char s in
  match rest with
  | String "@" (String _ d as domain) => negb (str_eqb local "") && str_all email_char domain && inner_dot d
  | _ => false
  end.

Definition validateEmail (email : string) : ValidationResult :=
  if blank email then invalid "Email is required"
  else if negb (email_test email) then invalid "Invalid email format"
  else valid.

Definition validatePassword (password : string) (minLength : nat) : ValidationResult :=
  if str_eqb password "" then invalid "Password is required"
  else if (String.length password <? minLength)%nat then
    invalid ("Password must be at least " +:+ pretty minLength +:+ " characters")
  else if negb (str_exists is_upper password) then invalid "Password must contain at least one uppercase letter"
  else if negb (str_exists is_lower password) then invalid "Password must contain at least one lowercase letter"
  else if negb (str_exists is_digit password) then invalid "Password must contain at least one number"
  else valid.

(** [is_url]: does the host's [new URL(url)] succeed? *)
Definition validateUrl (is_url : string → bool) (url : string) : ValidationResult :=
  if blank url then invalid "URL is required"
  else if is_url url then valid
  else invalid "Invalid URL format".

Definition validatePort (port : string) : ValidationResult :=
  match parseInt port with
  | None => invalid "Port must be a number"
  | Some n => if (n <? 1) || (65535 <? n) then invalid "Port must be between 1 and 65535" else valid
  end.

(** ** Formatting *)

Definition formatCompactNumber (n : num) : string :=
  if SFltb n (of_Z 1000) then num_to_string n
  else if SFltb n (of_Z 1000000) then to_fixed 1 (ndiv n (of_Z 1000)) +:+ "K"
  else if SFltb n (of_Z 1000000000) then to_fixed 1 (ndiv n (of_Z 1000000)) +:+ "M"
  else to_fixed 1 (ndiv n (of_Z 1000000000)) +:+ "B".

(** [now] and [date] are time values. *)
Definition formatRelativeTime (now date : Z) : string :=
  let seconds := (now - date) / 1000 in
  if seconds <? 60 then "just now"
  else if seconds <? 3600 then pretty (seconds / 60) +:+ " minutes ago"
  else if seconds <? 86400 then pretty (seconds / 3600) +:+ " hours ago"
  else if seconds <? 2592000 then pretty (seconds / 86400) +:+ " days ago"
  else if seconds <? 31536000 then pretty (seconds / 2592000) +:+ " months ago"
  else pretty (seconds / 31536000) +:+ " years ago".

(** [s.slice(-n)]: for [n = 0], the whole string. *)
Definition slice_end (n : nat) (s : string) : string :=
  if (n =? 0)%nat then s else String.substring (String.length s - n) n s.

Definition truncateHash (hash : string) (startLength endLength : nat) : string :=
  if (String.length hash <=? startLength + endLength)%nat then hash
  else String.substring 0 startLength hash +:+ "..." +:+ slice_end endLength hash.

Definition formatPercentage (value : num) (decimals : nat) : string := to_fixed decimals value +:+ "%".

(** For a whole number of seconds that is not negative. *)
Definition formatDuration (seconds : Z) : string :=
  if seconds <? 60 then pretty seconds +:+ "s"
  else if seconds <? 3600 then pretty (seconds / 60) +:+ "m " +:+ pretty (seconds mod 60) +:+ "s"
  else pretty (seconds / 3600) +:+ "h " +:+ pretty (seconds mod 3600 / 60) +:+ "m".

Definition formatAddress (address : string) : string :=
  if str_eqb address "" || (String.length address <? 10)%nat then address else toLowerCase address.

Fixpoint str_filter (p : ascii → bool) (s : string) : string :=
  match s with
  | EmptyString => EmptyString
  | String c s' => if p c then String c (str_filter p s') else str_filter p s'
  end.

Definition number_char (c : ascii) : bool := is_digit c || Ascii.eqb c ".".

Definition parseNumberInput (value : string) : option num :=
  let parsed := parseFloat (str_filter number_char value) in
  if is_nan parsed then None else Some parsed.

(** * Theorems *)

(** ** Strings *)

Lemma span_spec p s : s = (span p s).1 +:+ (span p s).2 ∧ str_all p (span p s).1 = true ∧
  match (span p s).2 with EmptyString => True | String c _ => p c = false end.
Proof.
  induction s as [|c s IH]; [done|]. cbn [span]. destruct (p c) eqn:E; [|done].
  destruct (span p s) as [a b] eqn:Es. cbn [fst snd] in *. destruct IH as (-> & H2 & H3).
  split_and!; [done| |done]. cbn [str_all]. by rewrite E, H2.
Qed.

Lemma spaces_trim s c : str_exists (λ c, negb (is_space c)) s = true → str_eqb (trim s) c = true → c ≠ "".
Proof.
  intros Hs Ht ->. apply str_eqb_true in Ht. revert Hs Ht. unfold trim.
  induction s as [|d s IH]; [done|]. cbn [str_exists trimStart].
  destruct (is_space d) eqn:E; [exact IH|]. intros _. cbn [trimEnd].
  destruct (trimEnd s); [by rewrite E|done].
Qed.

Lemma not_blank s : str_exists (λ c, negb (is_space c)) s = true → blank s = false.
Proof.
  intros Hs. unfold blank. destruct s as [|c s]; [done|]. cbn [orb].
  destruct (str_eqb (trim (String c s)) "") eqn:E; [|done]. by destruct (spaces_trim _ _ Hs E).
Qed.

Lemma blank_empty : blank "" = true.
Proof. done. Qed.

Lemma all_not_blank p s : (∀ c, p c = true → is_space c = false) → s ≠ "" → str_all p s = true → blank s = false.
Proof.
  intros Hp Hne Hs. apply not_blank. destruct s as [|c s]; [done|]. cbn [str_all str_exists] in *.
  apply andb_true_iff in Hs as [Hc _]. by rewrite (Hp c Hc).
Qed.

(** ** What the checks accept *)

Lemma hex_not_space c : is_hex c = true → is_space c = false.
Proof. unfold is_hex, is_space, is_digit, in_range. intros. lia. Qed.
Lemma alnum_not_space c : is_alnum c = true → is_space c = false.
Proof. unfold is_alnum, is_space, is_digit, is_lower, is_upper, in_range. intros. lia. Qed.

(** A transaction hash is accepted exactly when it is 64 hexadecimal digits, an address
    exactly when it is 26 to 62 letters and digits. *)
Theorem hash_and_address_accepted h a :
  (validateTxHash h = valid ↔ String.length h = 64%nat ∧ str_all is_hex h = true) ∧
  (validateAddress a = valid ↔ (26 <= String.length a <= 62)%nat ∧ str_all is_alnum a = true).
Proof.
  split.
  - unfold validateTxHash. split.
    + destruct (blank h); [done|]. destruct (_ && _) eqn:E; [|done]. intros _.
      apply andb_true_iff in E as [E1 E2]. by apply Nat.eqb_eq in E1.
    + intros [Hl Hh]. rewrite (all_not_blank is_hex h hex_not_space) by (done || by intros ->). by rewrite Hl, Hh.
  - unfold validateAddress. split.
    + destruct (blank a); [done|]. destruct (_ || _) eqn:E; [done|]. destruct (str_all is_alnum a); [|done].
      intros _. apply orb_false_iff in E as [E1%Nat.ltb_ge E2%Nat.ltb_ge]. done.
    + intros [Hl Ha]. rewrite (all_not_blank is_alnum a alnum_not_space) by (done || intros ->; cbn in Hl; lia).
      rewrite (proj2 (Nat.ltb_ge _ _)), (proj2 (Nat.ltb_ge _ _)), Ha by lia. done.
Qed.

(** *** Email addresses *)

Lemma inner_dot_spec p s : str_all p s = true → inner_dot s = true →
  ∃ a b, s = a +:+ String "." b ∧ b ≠ "" ∧ str_all p a = true ∧ str_all p b = true.
Proof.
  induction s as [|c s IH]; [done|]. intros Hs. cbn [str_all] in Hs. apply andb_true_iff in Hs as [Hc Hs].
  cbn [inner_dot]. destruct s as [|d s]; [done|]. destruct (Ascii.eqb_spec c ".") as [->|Hne]; cbn [orb].
  - intros _. exists "", (String d s). done.
  - intros Hd. destruct (IH Hs Hd) as (a & b & E & Hb & Ha & Hb'). exists (String c a), b. rewrite E.
    split_and!; [done|done| |done]. cbn [str_all]. by rewrite Hc, Ha.
Qed.

Lemma inner_dot_app a b : b ≠ "" → inner_dot (a +:+ String "." b) = true.
Proof.
  intros Hb. induction a as [|c a IH]; [destruct b; done|].
  change (inner_dot (String c (a +:+ String "." b)) = true). cbn [inner_dot].
  destruct (a +:+ String "." b) eqn:E; [by destruct a|]. rewrite IH. apply orb_true_r.
Qed.

(** An email address is accepted exactly when it is a name, an [@], a domain, a dot and
    an end, none of them empty and none with white space or an [@] in it. *)
Theorem email_accepted s : validateEmail s = valid ↔
  ∃ a b c, s = a +:+ String "@" (b +:+ String "." c) ∧ a ≠ "" ∧ b ≠ "" ∧ c ≠ "" ∧
    str_all email_char a = true ∧ str_all email_char b = true ∧ str_all email_char c = true.
Proof.
  unfold validateEmail, email_test. split.
  - destruct (blank s); [done|]. pose proof (span_spec email_char s) as (Hs & Ha & Hr).
    destruct (span email_char s) as [a r]. cbn [fst snd] in *.
    destruct r as [|c0 r]; [done|]. destruct (Ascii.eqb_spec c0 "@") as [->|Hc0].
    2: { intros H. exfalso. revert H. by destruct c0 as [[] [] [] [] [] [] [] []]. }
    destruct r as [|d r]; [done|]. destruct (negb (str_eqb a "") && str_all email_char (String d r) && inner_dot r) eqn:E; [|done].
    apply andb_true_iff in E as [E E3]. apply andb_true_iff in E as [E1 E2]. intros _.
    apply negb_true_iff, str_eqb_false in E1. cbn [str_all] in E2. apply andb_true_iff in E2 as [Ed Er].
    destruct (inner_dot_spec email_char r Er E3) as (b & c & -> & Hc & Hb & Hc').
    exists a, (String d b), c. split_and!; try done. cbn [str_all]. by rewrite Ed, Hb.
  - intros (a & b & c & -> & Ha & Hb & Hc & Pa & Pb & Pc).
    rewrite (not_blank _); [|destruct a as [|x a]; [done|]].
    2: { change (str_exists (λ c, negb (is_space c)) (String x (a +:+ String "@" (b +:+ String "." c))) = true).
         cbn [str_exists str_all] in *. apply andb_true_iff in Pa as [Px _]. unfold email_char in Px.
         apply andb_true_iff in Px as [-> _]. done. }
    rewrite span_app by done. rewrite (proj2 (str_eqb_false a "") Ha). cbn [negb andb].
    destruct b as [|y b]; [done|].
    cbn [str_all] in Pb. apply andb_true_iff in Pb as [Py Pb].
    assert (str_all email_char (String y (b +:+ String "." c)) && inner_dot (b +:+ String "." c) = true) as H.
    { rewrite inner_dot_app, andb_true_r by done. cbn [str_all]. rewrite Py, str_all_app, Pb. cbn [str_all]. by rewrite Pc. }
    change ((if negb (str_all email_char (String y (b +:+ String "." c)) && inner_dot (b +:+ String "." c))
             then invalid "Invalid email format" else valid) = valid). by rewrite H.
Qed.

(** *** Numbers *)

(** A port is accepted exactly when its leading integer is from 1 to 65535, an amount
    exactly when its leading number is positive and at most the maximum; what follows
    the number is not looked at. *)
Theorem port_and_amount_accepted p a max :
  (validatePort p = valid ↔ ∃ n, parseInt p = Some n ∧ 1 <= n <= 65535) ∧
  (validateAmount a max = valid → SFltb nzero (parseFloat a) = true ∧
    match max with Some m => SFltb m (parseFloat a) = false | None => True end).
Proof.
  split.
  - unfold validatePort. destruct (parseInt p) as [n|]; [|split; [done|by intros (? & [=] & _)]].
    destruct (_ || _) eqn:E; split; try done.
    + intros (m & [= <-] & Hm). lia.
    + intros _. exists n. split; [done|lia].
  - unfold validateAmount. destruct (blank a); [done|]. cbv zeta. destruct (is_nan (parseFloat a)) eqn:En; [done|].
    destruct (SFleb (parseFloat a) nzero) eqn:E; [done|]. intros H. split.
    + rewrite nltb_nleb by done. by rewrite E.
    + destruct max as [m|]; [|done]. by destruct (SFltb m (parseFloat a)).
Qed.

Lemma port_and_amount_accepted_witness :
  validateAmount "2.5" (Some (of_Z 10)) = valid ∧ SFltb nzero (parseFloat "2.5") = true.
Proof.
  split; [vm_compute; reflexivity|].
  apply (port_and_amount_accepted "80" "2.5" (Some (of_Z 10))). vm_compute. reflexivity.
Defined.

(** Text after the number: a thousands separator ends it. *)
Example trailing_text_accepted :
  validateAmount "1,000" (Some (of_Z 5)) = valid ∧ parseFloat "1,000" = of_Z 1 ∧
  validatePort "80;rm" = valid ∧ validateBlockHeight "12 blocks" = valid.
Proof. vm_compute. done. Qed.

(** ** Formatting *)

Lemma of_decimal_nonneg m p : 0 < m → nonneg (of_decimal m p) = true.
Proof.
  intros Hm. unfold of_decimal. destruct (0 <=? p) eqn:Hp.
  - assert (0 < m * 10 ^ p) as H by (apply Z.mul_pos_pos; [lia|apply Z.pow_pos_nonneg; lia]).
    apply compare_nonneg. rewrite normalize_sign by lia. left. f_equal. by apply Z.compare_gt_iff.
  - destruct (SFdiv_core_binary _ _ _ _ _ _) as [[mz ez] lz] eqn:E.
    apply round_aux_nonneg. unfold SFdiv_core_binary in E. cbv zeta in E.
    destruct (Z.div_eucl _ _) as [q r] eqn:Eq in E. injection E as <- _ _.
    match type of Eq with Z.div_eucl ?x ?y = _ => assert (q = x / y) as -> by (unfold Z.div; by rewrite Eq);
      apply Z.div_pos; [|apply Z.pow_pos_nonneg; lia] end.
    destruct (_ - _); [lia| |lia]. rewrite Z.shiftl_mul_pow2 by lia.
    apply Z.mul_nonneg_nonneg; [lia|apply Z.pow_nonneg; lia].
Qed.

Lemma index_value_nonneg acc s v : 0 <= acc → index_value acc s = Some v → 0 <= v.
Proof.
  revert acc. induction s as [|c s IH]; intros acc Ha; cbn [index_value]; [by intros [= <-]|].
  cbv zeta. destruct (_ && _) eqn:E; [|done]. apply IH. lia.
Qed.

Lemma signed_decimal_nonneg ds p : nonneg (signed_decimal false (digits_value ds) p) = true.
Proof.
  unfold signed_decimal. destruct (Z.eqb_spec (digits_value ds) 0) as [E|E]; [done|].
  apply of_decimal_nonneg. assert (0 <= digits_value ds); [|lia]. unfold digits_value.
  destruct (index_value 0 ds) as [v|] eqn:Ev; [|done]. cbn. by apply index_value_nonneg in Ev.
Qed.

Lemma str_filter_all p s : str_all p (str_filter p s) = true.
Proof. induction s as [|c s IH]; [done|]. cbn [str_filter]. destruct (p c) eqn:E; [|done]. cbn [str_all]. by rewrite E. Qed.

Lemma parseFloat_number_chars s : str_all number_char s = true →
  is_nan (parseFloat s) = true ∨ nonneg (parseFloat s) = true.
Proof.
  intros Hs. assert (parseFloat s = let '(ip, s2) := span is_digit s in
    let '(fp, s3) := match s2 with String "." t => span is_digit t | _ => (EmptyString, s2) end in
    let ds := ip +:+ fp in
    if str_eqb ds "" then S754_nan
    else signed_decimal false (digits_value ds) (exponent_part s3 - Z.of_nat (String.length fp))) as ->.
  { destruct s as [|c s]; [done|]. cbn [str_all] in Hs. apply andb_true_iff in Hs as [Hc _].
    destruct c as [[] [] [] [] [] [] [] []]; first [discriminate Hc|reflexivity]. }
  destruct (span is_digit s) as [ip s2].
  destruct (match s2 with String "." t => span is_digit t | _ => (EmptyString, s2) end) as [fp s3].
  cbv zeta. destruct (str_eqb _ _); [by left|right]. apply signed_decimal_nonneg.
Qed.

(** A number that is typed in loses its sign: what is parsed is never negative. *)
Theorem parsed_input_never_negative value x : parseNumberInput value = Some x → nonneg x = true.
Proof.
  unfold parseNumberInput. cbv zeta. destruct (is_nan _) eqn:E; [done|]. intros [= <-].
  destruct (parseFloat_number_chars (str_filter number_char value) (str_filter_all _ _)) as [H|H]; congruence.
Qed.

Lemma parsed_input_never_negative_witness :
  parseNumberInput "-5 KC" = Some (of_Z 5) ∧ nonneg (of_Z 5) = true.
Proof. split; [vm_compute; reflexivity|]. apply (parsed_input_never_negative "-5 KC"). vm_compute. reflexivity. Defined.

(** A thousand thousands are written with the suffix of a thousand. *)
Example compact_rounds_up : formatCompactNumber (of_Z 999999) = "1000.0K".
Proof. vm_compute. reflexivity. Qed.

Lemma substring_length n m s : (n + m <= String.length s)%nat → String.length (String.substring n m s) = m.
Proof.
  revert n m. induction s as [|c s IH]; intros [|n] [|m]; cbn; intros H; try lia; try done.
  - f_equal. apply (IH 0%nat). lia.
  - apply IH. lia.
  - apply (IH n (S m)). lia.
Qed.

(** A hash is written in full or with as many characters as asked for at both ends, and
    is not changed when it is short enough. *)
Theorem truncateHash_length h a b : (0 < b)%nat →
  String.length (truncateHash h a b) =
  if (String.length h <=? a + b)%nat then String.length h else (a + 3 + b)%nat.
Proof.
  intros Hb. unfold truncateHash. destruct (Nat.leb_spec (String.length h) (a + b)) as [|Hlt]; [done|].
  unfold slice_end. rewrite (proj2 (Nat.eqb_neq b 0)) by lia. rewrite !length_app_str.
  rewrite !substring_length by lia. cbn [String.length]. lia.
Qed.
