(* ===== verification/Invoicing.v ===== *)
(** * [InvoicingService] (apps/web/wallet/src/services/invoicing.ts)

    Invoices with line items, a running number and a stored copy of both. The text that
    [exportToPDF] makes asks the host's locale for its dates and is not modelled. *)

From Stdlib Require Import String.
From S2P Require Import Prelude JsMap JsNumber Store.
Inductive InvoiceStatus := draft | pending | paid | expired.

Inductive Frequency := weekly | monthly | yearly.

Record Recurring := MkRecurring { frequency : Frequency; nextInvoiceDate : Z }.

Record ItemInput := MkItemInput { description : string; quantity : num; unitPrice : num }.
Record InvoiceLineItem := MkItem { item_id : string; item : ItemInput; item_total : num }.

Record Invoice := MkInvoice {
  id : string;
  invoiceNumber : string;
  to : string;
  toName : option string;
  lineItems : list InvoiceLineItem;
  subtotal : num;
  tax : num;
  total : num;
  paymentAddress : string;
  createdAt : Z;
  dueDate : Z;
  paidAt : option Z;
  status : InvoiceStatus;
  notes : option string;
  recurring : option Recurring;
}.

(** The object under the storage key. *)
Record StoredInvoices := MkStored { st_invoices : list Invoice; counter : Z }.

Record Invoicing := MkInvoicing {
  invoices : jsmap Invoice;
  invoiceCounter : Z;
  ls_invoices : cell StoredInvoices;
}.

Definition set_invoices m s := MkInvoicing m (invoiceCounter s) (ls_invoices s).
Definition set_counter n s := MkInvoicing (invoices s) n (ls_invoices s).
Definition set_ls_invoices c s := MkInvoicing (invoices s) (invoiceCounter s) c.

Abbreviation M := (js (Invoicing * Env)).

Definition fresh (c : cell StoredInvoices) : Invoicing := MkInvoicing [] 1000 c.

Definition loadInvoices : M () :=
  ls_use (
    s ← this;
    match truthy_cell (ls_invoices s) with
    | None => mret ()
    | Some t =>
        d ← JSON_parse t;
        modify_this (λ s, set_invoices (map_set_all id (invoices s) (st_invoices d)) s);;
        modify_this (set_counter (if counter d =? 0 then 1000 else counter d))
    end).

Definition saveInvoices : M () :=
  ls_use (write_json set_ls_invoices (λ s, MkStored (map_values (invoices s)) (invoiceCounter s))).

Definition constructor : M () := loadInvoices.

(** [lineItems.map((item, i) => ({ ...item, id: `item_${i}`, total }))] *)
Definition number_items (l : list ItemInput) : list InvoiceLineItem :=
  imap (λ i x, MkItem ("item_" +:+ pretty i) x (nmul (quantity x) (unitPrice x))) l.

Definition number_text (n : Z) : string := "INV-" +:+ pretty n.

Definition createInvoice (dest : string) (l : list ItemInput) (addr : string) (due : Z)
    (nm : option string) (tx : option num) (nt : option string) : M Invoice :=
  let items := number_items l in
  let sub := sum_by item_total items in
  let t := num_or tx nzero in
  t0 ← date_now;
  r ← random36;
  s ← this;
  modify_this (λ s, set_counter (invoiceCounter s + 1) s);;
  t1 ← date_now;
  let inv := MkInvoice ("inv_" +:+ pretty t0 +:+ "_" +:+ r) (number_text (invoiceCounter s)) dest nm items sub t
    (nadd sub t) addr t1 due None pending nt None in
  modify_this (λ s, set_invoices (map_set (id inv) inv (invoices s)) s);;
  saveInvoices;;
  mret inv.

Definition getInvoices : M (list Invoice) :=
  s ← this; mret (js_sort (λ a b, createdAt a <? createdAt b) (map_values (invoices s))).
Definition getInvoice (i : string) : M (option Invoice) := s ← this; mret (map_get i (invoices s)).

Definition pay (t : Z) (x : Invoice) : Invoice :=
  MkInvoice (id x) (invoiceNumber x) (to x) (toName x) (lineItems x) (subtotal x) (tax x) (total x)
    (paymentAddress x) (createdAt x) (dueDate x) (Some t) paid (notes x) (recurring x).

Definition markAsPaid (i : string) : M () :=
  s ← this;
  match map_get i (invoices s) with
  | None => js_throw "Invoice not found"
  | Some _ =>
      t ← date_now;
      modify_this (λ s, set_invoices (map_update i (pay t) (invoices s)) s);;
      saveInvoices
  end.

(** * Theorems *)

(** ** Numbers *)

(** The invoice is numbered below the counter. *)
Definition numbered (n : Z) (x : Invoice) : Prop :=
  ∃ k, 0 < k < n ∧ invoiceNumber x = number_text k.

(** The amounts are those of the items. *)
Definition added_up (x : Invoice) : Prop :=
  subtotal x = sum_by item_total (lineItems x) ∧ total x = nadd (subtotal x) (tax x) ∧
  Forall (λ i, item_total i = nmul (quantity (item i)) (unitPrice (item i))) (lineItems x).

(** A list of invoices whose numbers are distinct and below the counter. *)
Definition issued (n : Z) (l : list Invoice) : Prop :=
  0 < n ∧ NoDup (invoiceNumber <$> l) ∧ Forall (numbered n) l ∧ Forall added_up l ∧ NoDup (id <$> l).

Definition invoicing_ok (s : Invoicing) : Prop :=
  map_wf (invoices s) ∧ map_all (λ k x, id x = k) (invoices s) ∧
  issued (invoiceCounter s) (map_values (invoices s)) ∧
  match ls_invoices s with Some (TJson d) => issued (counter d) (st_invoices d) | _ => True end.

Lemma number_text_inj a b : number_text a = number_text b → a = b.
Proof.
  unfold number_text. intros H. apply (inj pretty).
  cbn in H. by injection H.
Qed.

Lemma numbered_mono n m x : n <= m → numbered n x → numbered m x.
Proof. intros Hle (k & Hk & E). exists k. split; [lia|done]. Qed.

Lemma values_ids (m : jsmap Invoice) : map_all (λ k x, id x = k) m → id <$> map_values m = map_keys m.
Proof.
  unfold map_all, map_values, map_keys. rewrite Forall_forall. intros H. rewrite <- list_fmap_compose.
  apply list_fmap_ext. intros i [k x] Hi. apply list_elem_of_lookup_2 in Hi. exact (H _ Hi).
Qed.

Lemma values_absent (m : jsmap Invoice) x : map_get (id x) m = None → map_values (map_set (id x) x m) = map_values m ++ [x].
Proof. intros H. unfold map_values. rewrite map_set_app by done. by rewrite fmap_app. Qed.

Lemma issued_more n l x : issued n l → invoiceNumber x = number_text n → added_up x → id x ∉ id <$> l →
  issued (n + 1) (l ++ [x]).
Proof.
  intros (Hn & Hnd & Hnum & Hadd & Hid) Hx Hax Hix. split_and!.
  - lia.
  - rewrite fmap_app. apply NoDup_app. split_and!; [done| |apply NoDup_singleton].
    intros y (z & -> & Hz)%list_elem_of_fmap Hy. apply list_elem_of_singleton in Hy.
    rewrite Forall_forall in Hnum. destruct (Hnum z Hz) as (k & Hk & E). rewrite E, Hx in Hy.
    apply number_text_inj in Hy. lia.
  - apply Forall_app. split; [eapply Forall_impl; [exact Hnum|]; intros y; apply numbered_mono; lia|].
    constructor; [|done]. exists n. split; [lia|done].
  - apply Forall_app. split; [done|by constructor].
  - rewrite fmap_app. apply NoDup_app. split_and!; [done| |apply NoDup_singleton].
    by intros y Hy ->%list_elem_of_singleton.
Qed.

Lemma issued_counter n m l : n <= m → issued n l → issued m l.
Proof.
  intros Hle (Hn & Hnd & Hnum & Hadd & Hid). split_and!; [lia|done| |done|done].
  eapply Forall_impl; [exact Hnum|]. intros y. by apply numbered_mono.
Qed.

(** ** Operations *)

Lemma saved_ok s e : invoicing_ok s → invoicing_ok (saveInvoices (s, e)).2.1.
Proof.
  intros Hs. unfold saveInvoices, ls_use. js_run. destruct (browser e); [|done].
  unfold write_json. js_run. unfold ls_setItem. cbn. destruct (writable e); [|done].
  destruct Hs as (?&?&?&?). split_and!; done.
Qed.

Lemma number_items_ok l : Forall (λ i, item_total i = nmul (quantity (item i)) (unitPrice (item i))) (number_items l).
Proof.
  unfold number_items. apply Forall_forall. intros x Hx. apply elem_of_lookup_imap in Hx as (i & y & -> & _). done.
Qed.

(** Creating an invoice with a new identifier. *)
Lemma created_ok dest l addr due nm tx nt s e :
  map_get ("inv_" +:+ pretty (clock e (ticks e)) +:+ "_" +:+ entropy e (draws e)) (invoices s) = None →
  invoicing_ok s → invoicing_ok (createInvoice dest l addr due nm tx nt (s, e)).2.1.
Proof.
  intros Hnew (Hwf & Hk & Hi & Hst). unfold createInvoice. js_run.
  match goal with |- invoicing_ok ((_ ≫= _) (?s1, ?e1)).2.1 =>
    assert (invoicing_ok (saveInvoices (s1, e1)).2.1) as H; [apply saved_ok|] end.
  - set (inv := MkInvoice _ _ _ _ _ _ _ _ _ _ _ _ _ _ _). cbn [set_invoices set_counter invoices invoiceCounter ls_invoices].
    split_and!; [by apply map_wf_set|by apply map_all_set| |done].
    match goal with |- context [map_set ?k inv _] => change k with (id inv) end.
    cbn [set_invoices set_counter invoices invoiceCounter].
    rewrite values_absent by exact Hnew. apply issued_more; [done|done| |].
    + split_and!; [done|done|apply number_items_ok].
    + rewrite values_ids by done. by apply map_get_None_keys.
  - revert H. unfold mbind, js_bind. destruct (saveInvoices _) as [[[]|msg] w']; done.
Qed.

Lemma issued_update n (m : jsmap Invoice) i f : (∀ x, id (f x) = id x ∧ invoiceNumber (f x) = invoiceNumber x ∧
    subtotal (f x) = subtotal x ∧ lineItems (f x) = lineItems x ∧ total (f x) = total x ∧ tax (f x) = tax x) →
  map_wf m → map_all (λ k x, id x = k) m → issued n (map_values m) → issued n (map_values (map_update i f m)).
Proof.
  intros Hf Hwf Hk (Hn & Hnd & Hnum & Hadd & Hid). unfold map_update. destruct (map_get i m) as [x|] eqn:E; [|done].
  assert (∀ {A} (g : Invoice → A), g (f x) = g x → g <$> map_values (map_set i (f x) m) = g <$> map_values m) as Hsame.
  { intros A g Hg. clear -E Hg. unfold map_values. induction m as [|[k y] m IH]; [done|]. cbn [map_get map_set] in *.
    destruct (str_eqb i k); csimpl; [injection E as ->; by rewrite Hg|]. by rewrite IH. }
  destruct (Hf x) as (H1 & H2 & H3 & H4 & H5 & H6).
  split_and!; [done|by rewrite Hsame| | |by rewrite Hsame].
  - rewrite <- map_values_all in Hnum |- *. apply map_all_set; [|done]. 
    pose proof (map_all_get _ _ _ _ Hnum E) as (k & ? & ?). exists k. by rewrite H2.
  - rewrite <- map_values_all in Hadd |- *. apply map_all_set; [|done].
    pose proof (map_all_get _ _ _ _ Hadd E) as (Ha & Hb & Hc). unfold added_up. by rewrite H3, H4, H5, H6.
Qed.

Lemma paid_ok i : preserves invoicing_ok (markAsPaid i).
Proof.
  unfold markAsPaid. js_preserve; [|intros [s' e'] Hs'; by apply saved_ok].
  apply preserves_modify. intros s' (Hwf & Hk & Hi & Hst). split_and!.
  - by apply map_wf_update.
  - apply map_all_update; [|done]. by intros v.
  - apply issued_update; [|done..]. done.
  - done.
Qed.

Lemma loaded_ok c e :
  match c with Some (TJson d) => issued (counter d) (st_invoices d) | _ => True end →
  invoicing_ok (constructor (fresh c, e)).2.1.
Proof.
  intros Hc. assert (invoicing_ok (fresh c)) as Hf.
  { split_and!; [apply map_wf_nil|apply map_all_nil| |done]. split_and!; [cbn; lia|apply NoDup_nil_2|done|done|apply NoDup_nil_2]. }
  unfold constructor, loadInvoices, ls_use. js_run. destruct (browser e); [|done]. js_run. cbn [ls_invoices fresh].
  destruct c as [[d|raw]|]; cbn [truthy_cell]; [|by case_bool_decide|done].
  assert (map_values (map_set_all id [] (st_invoices d)) = st_invoices d) as E.
  { destruct Hc as (_ & _ & _ & _ & Hid). unfold map_set_all.
    pose proof (map_set_all_values id [] ((λ x, (id x, x)) <$> st_invoices d)) as H. unfold map_set_all in H.
    assert (map_values ((λ x, (id x, x)) <$> st_invoices d) = st_invoices d) as Ev.
    { unfold map_values. rewrite <- list_fmap_compose. by apply list_fmap_id. }
    rewrite Ev in H. rewrite H; [exact Ev|..].
    - unfold map_all. rewrite Forall_fmap. by apply Forall_forall.
    - unfold map_wf, map_keys. cbn [app]. rewrite <- list_fmap_compose. exact Hid. }
  cbn. split_and!.
  - apply map_wf_set_all, map_wf_nil.
  - apply map_all_set_all; [done|apply map_all_nil].
  - change (issued (if counter d =? 0 then 1000 else counter d) (map_values (map_set_all id [] (st_invoices d)))).
    rewrite E. eapply issued_counter; [|exact Hc]. destruct (Z.eqb_spec (counter d) 0); lia.
  - done.
Qed.

(** Runs of the service over one storage, reloads included; a created invoice gets an
    identifier that is not in use. *)
Inductive reachable : Invoicing * Env → Prop :=
  | start e : reachable (constructor (fresh None, e)).2
  | reload s e e' : reachable (s, e) → reachable (constructor (fresh (ls_invoices s), e')).2
  | create dest l addr due nm tx nt s e : reachable (s, e) →
      map_get ("inv_" +:+ pretty (clock e (ticks e)) +:+ "_" +:+ entropy e (draws e)) (invoices s) = None →
      reachable (createInvoice dest l addr due nm tx nt (s, e)).2
  | mark i w : reachable w → reachable (markAsPaid i w).2.

(** However invoices are created, paid and reloaded from storage, and whether or not
    storage takes the writes, no two invoices of the service carry the same number, and
    the amounts of each are those of its items. *)
Theorem invoice_numbers_distinct w : reachable w →
  NoDup (invoiceNumber <$> map_values (invoices w.1)) ∧ Forall added_up (map_values (invoices w.1)).
Proof.
  intros Hw. assert (invoicing_ok w.1) as (_ & _ & (_ & Hnd & _ & Hadd & _) & _); [|done].
  induction Hw as [e|s e e' _ IH|dest l addr due nm tx nt s e _ IH Hnew|i w _ IH].
  - by apply loaded_ok.
  - apply loaded_ok. by destruct IH as (_ & _ & _ & H).
  - by apply created_ok.
  - by apply paid_ok.
Qed.

Definition demo : Invoicing * Env :=
  (createInvoice "Alice" [MkItemInput "work" (of_Z 3) (of_Z 5)] "kc1bob" 1700086400000 None (Some (of_Z 2)) None
    (constructor (fresh None, demo_env)).2).2.

Lemma invoice_numbers_distinct_witness :
  NoDup (invoiceNumber <$> map_values (invoices demo.1)) ∧ Forall added_up (map_values (invoices demo.1)).
Proof.
  apply (invoice_numbers_distinct demo).
  exact (create "Alice" [MkItemInput "work" (of_Z 3) (of_Z 5)] "kc1bob" 1700086400000 None (Some (of_Z 2)) None
    _ _ (start demo_env) eq_refl).
Defined.

(** A paid invoice can be marked as paid again: the date of payment moves. *)
Example paid_twice :
  let w := (markAsPaid "inv_1700000000000_ra" (markAsPaid "inv_1700000000000_ra" demo).2).2 in
  (λ x, (total x, paidAt x)) <$> map_values (invoices w.1) = [(of_Z 17, Some 1700000002000)].
Proof. vm_compute. reflexivity. Qed.
