(* ===== verification/Json.v ===== *)
(** * JSON values as JavaScript sees them

    What [JSON.parse] returns and the conversions the route handlers apply to it: property
    access, truthiness, [String(x)] and [Number(x)]. [undefined] is [None] of an option. *)

From Stdlib Require Import Ascii String.
From S2P Require Import Prelude JsMap JsNumber JsString.

Inductive json :=
  | JNull
  | JBool (b : bool)
  | JNum (n : num)
  | JStr (s : string)
  | JArr (l : list json)
  | JObj (l : list (string * json)).

Definition truthy_json (j : json) : bool :=
  match j with
  | JNull => false
  | JBool b => b
  | JNum n => truthy_num n
  | JStr s => negb (str_eqb s "")
  | JArr _ | JObj _ => true
  end.

Definition truthy (o : option json) : bool := match o with Some j => truthy_json j | None => false end.

(** [x.key] for a value that is not null: [None] is [undefined]. An object's duplicate
    keys were merged by the parser. *)
Definition field (key : string) (j : json) : option json :=
  match j with JObj l => map_get key l | _ => None end.

(** [x?.key] *)
Definition opt_field (key : string) (o : option json) : option json := o ≫= field key.

Definition as_string (o : option json) : option string :=
  match o with Some (JStr s) => Some s | _ => None end.

(** [String(x)] *)
Fixpoint to_text (j : json) : string :=
  match j with
  | JNull => "null"
  | JBool b => if b then "true" else "false"
  | JNum n => num_to_string n
  | JStr s => s
  | JArr l => join "," ((λ x, match x with JNull => EmptyString | _ => to_text x end) <$> l)
  | JObj _ => "[object Object]"
  end.

(** [String(x || '')] *)
Definition text_or_empty (o : option json) : string :=
  match o with Some j => if truthy_json j then to_text j else "" | None => "" end.

(** ** [Number(s)] on strings *)

Definition digit_in (base : Z) (c : ascii) : option Z :=
  let d :=
    if is_digit c then char_code c - 48
    else if is_lower c then char_code c - 87
    else if is_upper c then char_code c - 55
    else base in
  if d <? base then Some d else None.

(** The value of a digit string in a base; [None] for anything else. *)
Fixpoint in_base (base acc : Z) (s : string) : option Z :=
  match s with
  | EmptyString => Some acc
  | String c s' => d ← digit_in base c; in_base base (acc * base + d) s'
  end.

Definition is_exponent (c : ascii) : bool := (char_code c =? 101) || (char_code c =? 69).

(** Is the whole text an exponent part, or empty? *)
Definition exponent_only (s : string) : bool :=
  match s with
  | EmptyString => true
  | String c s1 =>
      is_exponent c &&
      let s2 := match s1 with String "-" t | String "+" t => t | _ => s1 end in
      negb (str_eqb s2 "") && str_all is_digit s2
  end.

(** A decimal literal with nothing after it. *)
Definition decimal_literal (s : string) : bool :=
  let s1 := match s with String "-" t | String "+" t => t | _ => s end in
  str_eqb s1 "Infinity" ||
  let '(ip, s2) := span is_digit s1 in
  let '(fp, s3) := match s2 with String "." t => span is_digit t | _ => (EmptyString, s2) end in
  negb (str_eqb (ip +:+ fp) "") && exponent_only s3.

(** A literal with the prefix [0x], [0o] or [0b]. *)
Definition prefixed (s : string) : option Z :=
  match s with
  | String "0" (String x (String _ _ as ds)) =>
      if (char_code x =? 120) || (char_code x =? 88) then in_base 16 0 ds
      else if (char_code x =? 111) || (char_code x =? 79) then in_base 8 0 ds
      else if (char_code x =? 98) || (char_code x =? 66) then in_base 2 0 ds
      else None
  | _ => None
  end.

Definition Number_text (str : string) : num :=
  let s := trim str in
  if str_eqb s "" then nzero
  else match prefixed s with
       | Some z => of_Z z
       | None => if decimal_literal s then parseFloat s else S754_nan
       end.

(** [Number(x)] *)
Definition Number (o : option json) : num :=
  match o with
  | None => S754_nan
  | Some j =>
      match j with
      | JNull => nzero
      | JBool b => if b then of_Z 1 else nzero
      | JNum n => n
      | JStr s => Number_text s
      | JArr _ => Number_text (to_text j)
      | JObj _ => S754_nan
      end
  end.

Example number_texts :
  Number_text " 12.5 " = lit 125 1 ∧ Number_text "0x1F" = of_Z 31 ∧ Number_text "12KC" = S754_nan ∧
  Number_text "" = nzero ∧ Number_text "1e3" = of_Z 1000 ∧ Number_text "-.5" = SFopp (lit 5 1) ∧
  Number_text "0x" = S754_nan ∧ Number_text "1e" = S754_nan.
Proof. vm_compute. done. Qed.
