(* ===== verification/WalletRpc.v ===== *)
(** * The wallet's server routes (apps/web/wallet/app/api)

    _utils/rpc.ts and _utils/auth.ts, and the route handlers wallet/create, balance,
    history, send, export and wallets, which ask the node's wallet over JSON-RPC.

    A handler is a program: it ends with a value or an error, or sends requests and goes on
    with the replies. [Promise.all] sends several at once. The node has one wallet loaded at
    a time (core/node/src/rpc_wallet.rs), for all callers: [Node] is that slot and the effect
    of requests on it, and [serves] interleaves the handlers of one server. The [id] of a
    request, which nothing reads, is left out. *)

From Stdlib Require Import Ascii String.
From S2P Require Import Prelude JsMap JsNumber JsString Json.
Local Open Scope stdpp_scope.

(** ** Programs *)

Record Request := MkRequest { authorization : option string; method : string; params : list json }.

(** What [fetch] and [response.text()] give: an error, or a status and a text. *)
Inductive http :=
  | Rejected (message : string)
  | Answer (status : Z) (body : text json).

(** Replies in the order of the requests, and which of the failures comes in first. *)
Record replies := MkReplies { answers : list http; arrival : nat }.

Definition reply_at (i : nat) (r : replies) : http := default (Rejected "no reply") (answers r !! i).

(** A [WalletRpcError], or any other [Error]. *)
Inductive error :=
  | RpcError (message : string) (status : Z) (code : option json)
  | OtherError (message : string).

Inductive prog (A : Type) :=
  | Ret (a : A)
  | Err (e : error)
  | Send (qs : list Request) (k : replies → prog A).
Arguments Ret {A} a.
Arguments Err {A} e.
Arguments Send {A} qs k.

#[export] Instance prog_ret : MRet prog := @Ret.
#[export] Instance prog_bind : MBind prog := λ A B f,
  fix go (m : prog A) : prog B :=
    match m with
    | Ret a => f a
    | Err e => Err e
    | Send qs k => Send qs (λ r, go (k r))
    end.

(** [try { m } catch (e) { h(e) }] *)
Fixpoint try_catch {A} (m : prog A) (h : error → prog A) : prog A :=
  match m with
  | Ret a => Ret a
  | Err e => h e
  | Send qs k => Send qs (λ r, try_catch (k r) h)
  end.

(** [try { m } finally { f }] *)
Fixpoint try_finally {A} (m : prog A) (f : prog ()) : prog A :=
  match m with
  | Ret a => f ≫= λ _, Ret a
  | Err e => f ≫= λ _, Err e
  | Send qs k => Send qs (λ r, try_finally (k r) f)
  end.

Definition from_sum {A} (x : error + A) : prog A :=
  match x with inr a => Ret a | inl e => Err e end.

(** [for (const x of l) { b = f(b, x) }] *)
Fixpoint fold_prog {B} (f : B → json → prog B) (b : B) (l : list json) : prog B :=
  match l with
  | [] => Ret b
  | x :: l' => b' ← f b x; fold_prog f b' l'
  end.

(** ** Values *)

Definition type_error {A} (what : string) : error + A := inl (OtherError what).

(** [x.key] where [x] may be null or undefined. *)
Definition get (key : string) (o : option json) : error + option json :=
  match o with
  | None => type_error ("Cannot read properties of undefined (reading '" +:+ key +:+ "')")
  | Some JNull => type_error ("Cannot read properties of null (reading '" +:+ key +:+ "')")
  | Some j => inr (field key j)
  end.

(** [x ?? d] *)
Definition nullish (o : option json) (d : json) : json :=
  match o with None | Some JNull => d | Some j => j end.

(** [x || d] *)
Definition or_else (o : option json) (d : json) : json :=
  match o with Some j => if truthy_json j then j else d | None => d end.

(** [x[0]] *)
Definition index0 (o : option json) : error + option json :=
  match o with
  | None => type_error "Cannot read properties of undefined (reading '0')"
  | Some JNull => type_error "Cannot read properties of null (reading '0')"
  | Some (JArr l) => inr (head l)
  | Some (JStr (String c _)) => inr (Some (JStr (String c EmptyString)))
  | Some (JObj l) => inr (map_get "0" l)
  | Some _ => inr None
  end.

(** The elements [for (const x of v)] takes. *)
Definition iterate (what : string) (o : option json) : error + list json :=
  match o with
  | Some (JArr l) => inr l
  | Some (JStr s) => inr ((λ c, JStr (String c EmptyString)) <$> list_ascii_of_string s)
  | _ => type_error (what +:+ " is not iterable")
  end.

(** An object literal: [undefined] fields do not reach the JSON text. *)
Definition obj (l : list (string * option json)) : json :=
  JObj (omap (λ kv, pair kv.1 <$> kv.2) l).

(** An array or argument list: [undefined] becomes null. *)
Definition in_array (o : option json) : json := default JNull o.

(** [Math.trunc] *)
Definition trunc (x : num) : num :=
  match x with
  | S754_finite true m e => SFopp (nfloor (S754_finite false m e))
  | _ => nfloor x
  end.

(** [s.endsWith(p)] *)
Definition endsWith (p s : string) : bool :=
  (String.length p <=? String.length s)%nat &&
  str_eqb (String.substring (String.length s - String.length p) (String.length p) s) p.

Section Server.
(** [KUBERCOIN_WALLET_API_KEY] and the shared passphrase, empty when not configured. *)
Context (api_key shared_passphrase : string).

(** ** _utils *)

(** [/^(Bearer|ApiKey)\s/i.test(key)] *)
Definition has_scheme (key : string) : bool :=
  let scheme p := startsWith p (toLowerCase key) &&
    match String.substring (String.length p) 1 key with String c _ => is_space c | _ => false end in
  scheme "bearer" || scheme "apikey".

Definition getWalletAuthHeaders : option string :=
  if str_eqb api_key "" then None
  else Some (if has_scheme api_key then api_key else "Bearer " +:+ api_key).

Definition normalizeWalletName (name : string) : string :=
  let trimmed := trim name in
  if str_eqb trimmed "" then ""
  else if endsWith ".dat" (toLowerCase trimmed) || endsWith ".json" (toLowerCase trimmed) then trimmed
  else trimmed +:+ ".dat".

Definition resolveWalletPassphrase (passphrase : option json) : error + string :=
  let resolved o :=
    let candidate := if str_eqb o "" then trim shared_passphrase else o in
    if str_eqb candidate "" then
      inl (RpcError "wallet passphrase is required; set KUBERCOIN_WALLET_SHARED_PASSPHRASE or provide passphrase"
        400 None)
    else inr candidate in
  match passphrase with
  | None | Some JNull => resolved ""
  | Some (JStr s) => resolved (trim s)
  | Some _ => type_error "passphrase?.trim is not a function"
  end.

Definition is_code (code : option json) (n : Z) : bool :=
  match code with Some (JNum x) => SFeqb x (of_Z n) | _ => false end.

Definition http_text (status : Z) : string := "HTTP " +:+ pretty status.

(** [message || d] as the text of an [Error]. *)
Definition message_or (o : option json) (d : string) : string := to_text (or_else o (JStr d)).

(** What [callWalletRpc] makes of a reply. *)
Definition decode (r : http) : error + option json :=
  match r with
  | Rejected m => inl (OtherError m)
  | Answer status body =>
      let payload := match body with
        | TJson j => inr j
        | TRaw s => if str_eqb s "" then inr (JObj [])
                    else inl (RpcError s (if status =? 0 then 502 else status) None)
        end in
      match payload with
      | inl e => inl e
      | inr p =>
          match get "error" (Some p) with
          | inl e => inl e
          | inr err =>
              if negb ((200 <=? status) && (status <=? 299)) then
                inl (RpcError (message_or (opt_field "message" err) (http_text status)) status (opt_field "code" err))
              else if truthy err then
                let code := opt_field "code" err in
                let st := if existsb (is_code code) [-1; -4; -6; -13; -14; -15] then 400 else 502 in
                inl (RpcError (message_or (opt_field "message" err) "RPC request failed") st code)
              else inr (field "result" p)
          end
      end
  end.

Definition request (m : string) (ps : list json) : Request := MkRequest getWalletAuthHeaders m ps.

Definition callWalletRpc (m : string) (ps : list json) : prog (option json) :=
  Send [request m ps] (λ r, from_sum (decode (reply_at 0 r))).

(** [callWalletRpc(m, ps).catch(() => undefined)] *)
Definition quietly (m : string) (ps : list json) : prog () :=
  try_catch (callWalletRpc m ps ≫= λ _, Ret ()) (λ _, Ret ()).

(** [Promise.all] of calls, each with what makes a value of its reply. *)
Definition all_calls (cs : list (Request * (http → error + option json))) : prog (list (option json)) :=
  Send cs.*1 (λ r,
    let rs := imap (λ i c, c.2 (reply_at i r)) cs in
    let errors := omap (λ x, match x with inl e => Some e | inr _ => None end) rs in
    match errors !! (arrival r mod length errors)%nat with
    | Some e => Err e
    | None => Ret (omap (λ x, match x with inr v => Some v | inl _ => None end) rs)
    end).

Definition withLoadedWallet {A} (walletName : string) (handler : prog A) (passphrase : option json)
    (unlock : bool) : prog A :=
  let name := normalizeWalletName walletName in
  if str_eqb name "" then Err (RpcError "wallet name is required" 400 None)
  else
    pass ← from_sum (resolveWalletPassphrase passphrase);
    quietly "unloadwallet" [] ≫= λ _,
    callWalletRpc "loadwallet" [JStr name; JStr pass] ≫= λ _,
    try_finally
      ((if unlock then callWalletRpc "walletpassphrase" [JStr pass; JNum (of_Z 30)] ≫= λ _, handler else handler))
      ((if unlock then quietly "walletlock" [] else Ret ()) ≫= λ _, quietly "unloadwallet" []).

(** ** Routes *)

Record Response := MkResponse { status : Z; body : json; filename : option string }.

Definition json_response (st : Z) (j : json) : Response := MkResponse st j None.
Definition error_response (st : Z) (m : string) : Response := json_response st (JObj [("error", JStr m)]).

(** The [catch] of every route. *)
Definition route_error (d : string) (e : error) : prog Response :=
  Ret (match e with
       | RpcError m st _ => error_response st m
       | OtherError m => error_response 500 (if str_eqb m "" then d else m)
       end).

(** [await request.json()] *)
Definition request_json (t : text json) : prog json :=
  match t with TJson j => Ret j | TRaw _ => Err (OtherError "Unexpected token in JSON") end.

Definition create_POST (t : text json) : prog Response :=
  try_catch (
    b ← request_json t;
    let name := normalizeWalletName (text_or_empty (opt_field "name" (Some b))) in
    if str_eqb name "" then Ret (error_response 400 "Wallet name is required")
    else
      pass ← from_sum (resolveWalletPassphrase (opt_field "passphrase" (Some b)));
      quietly "unloadwallet" [] ≫= λ _,
      data ← callWalletRpc "createwallet" [JStr name; JStr pass; JBool false; JBool false];
      quietly "unloadwallet" [] ≫= λ _,
      address ← from_sum (get "address" data);
      Ret (json_response 200 (obj [("name", Some (JStr name)); ("address", address); ("mnemonic", Some JNull);
        ("encrypted", Some (JBool true))])))
    (route_error "Create wallet failed").

Definition plain (q : string) (ps : list json) : Request * (http → error + option json) := (request q ps, decode).

Definition nth_value (i : nat) (l : list (option json)) : option json := mjoin (l !! i).

Definition balance_GET (name : option string) : prog Response :=
  try_catch (
    if negb (truthy_str name) then Ret (error_response 400 "Wallet name is required")
    else
      data ← withLoadedWallet (default "" name) (
        vs ← all_calls [plain "getwalletinfo" []; plain "listreceivedbyaddress" [JNum nzero]; plain "getblockcount" []];
        entry ← from_sum (index0 (nth_value 1 vs));
        balance ← from_sum (get "balance" (nth_value 0 vs));
        let spendable := nullish balance (JNum nzero) in
        Ret (obj [("address", Some (or_else (opt_field "address" entry) (JStr ""))); ("height", nth_value 2 vs);
          ("spendable", Some spendable); ("total", Some spendable); ("immature", Some (JNum nzero))])) None false;
      Ret (json_response 200 data))
    (route_error "Failed to load balance").

(** One transaction of the history: kept unless it has no txid or was seen. *)
Definition see_tx (acc : list string * list json) (tx : json) : error + (list string * list json) :=
  match get "txid" (Some tx) with
  | inl e => inl e
  | inr t =>
      let txid := default "" (as_string t) in
      inr (if str_eqb txid "" || js_some (str_eqb txid) acc.1 then acc else (acc.1 ++ [txid], acc.2 ++ [tx]))
  end.

Definition history_GET (name : option string) : prog Response :=
  if negb (truthy_str name) then Ret (error_response 400 "Wallet name is required")
  else
    try_catch (
      data ← withLoadedWallet (default "" name) (
        addresses ← callWalletRpc "listreceivedbyaddress" [JNum nzero];
        entries ← from_sum (iterate "addresses" addresses);
        acc ← fold_prog (λ acc entry,
          address ← from_sum (get "address" (Some entry));
          found ← callWalletRpc "listtransactions" [in_array address; JNum (of_Z 100); JNum nzero; JBool true];
          txs ← from_sum (iterate "txs" found);
          fold_prog (λ acc tx, from_sum (see_tx acc tx)) acc txs) ([], []) entries;
        Ret (JObj [("transactions", JArr acc.2)])) None false;
      Ret (json_response 200 data))
      (route_error "Failed to load history").

(** The [txid] of the node's reply, a text or an object. *)
Definition txid_of (r : option json) : option json :=
  match r with
  | Some ((JObj _ | JArr _) as j) => field "txid" j
  | _ => r
  end.

Definition send_POST (t : text json) : prog Response :=
  try_catch (
    b ← request_json t;
    let from := text_or_empty (opt_field "from" (Some b)) in
    let to := text_or_empty (opt_field "to" (Some b)) in
    let amount := Number (opt_field "amount" (Some b)) in
    if str_eqb from "" || str_eqb to "" || negb (is_finite amount) || SFleb amount nzero then
      Ret (error_response 400 "from, to, and amount are required")
    else
      result ← withLoadedWallet from (callWalletRpc "sendtoaddress" [JStr to; JNum (trunc amount)]) None true;
      Ret (json_response 200 (obj [("ok", Some (JBool true)); ("txid", txid_of result)])))
    (route_error "Send transaction failed").

(** [addresses.map(f)]: only arrays have it. *)
Definition map_entries {A} (f : json → error + A) (o : option json) : error + list A :=
  match o with
  | Some (JArr l) => foldr (λ x acc, match f x, acc with
                                     | inr y, inr ys => inr (y :: ys)
                                     | inl e, _ => inl e
                                     | _, inl e => inl e
                                     end) (inr []) l
  | None => type_error "Cannot read properties of undefined (reading 'map')"
  | Some JNull => type_error "Cannot read properties of null (reading 'map')"
  | Some _ => type_error "map is not a function"
  end.

(** The key of a property made from a value. *)
Definition property_key (o : option json) : string := match o with Some j => to_text j | None => "undefined" end.

(** The labels: [Object.fromEntries] of the entries that have one. *)
Definition address_labels (l : list json) : json :=
  JObj (object_order (map_of_entries (omap (λ e,
    let label := field "label" e in
    if truthy label then pair (property_key (field "address" e)) <$> label else None) l))).

Definition elements (o : option json) : list json := match o with Some (JArr l) => l | _ => [] end.

Definition export_GET (name : option string) : prog Response :=
  if negb (truthy_str name) then Ret (error_response 400 "Wallet name is required")
  else
    let nm := default "" name in
    try_catch (
      wallet ← withLoadedWallet nm (
        vs ← all_calls [
          plain "getwalletinfo" [];
          plain "listreceivedbyaddress" [JNum nzero];
          (request "listdescriptors" [],
            λ r, match decode r with inr v => inr v | inl _ => inr (Some (JObj [("descriptors", JArr [])])) end)];
        let info := nth_value 0 vs in
        let addresses := nth_value 1 vs in
        watch_only ← from_sum (get "watch_only" info);
        keys ← (if truthy watch_only then Ret []
                else
                  entries ← from_sum (iterate "addresses" addresses);
                  fold_prog (λ ks entry,
                    try_catch (
                      address ← from_sum (get "address" (Some entry));
                      key ← callWalletRpc "dumpprivkey" [in_array address];
                      Ret (ks ++ [in_array key])) (λ _, Ret ks)) [] entries);
        version ← from_sum (get "walletversion" info);
        label ← from_sum (get "walletname" info);
        as_list ← from_sum (map_entries (λ e, get "address" (Some e)) addresses);
        descs ← from_sum (get "descriptors" (nth_value 2 vs));
        desc_list ← from_sum (map_entries (λ e, get "desc" (Some e)) (Some (or_else descs (JArr []))));
        Ret (JObj [
          ("version", nullish version (JNum (of_Z 1)));
          ("label", nullish label (JStr (normalizeWalletName nm)));
          ("network", JStr "mainnet");
          ("private_keys", JArr keys);
          ("addresses", JArr (in_array <$> as_list));
          ("address_labels", address_labels (elements addresses));
          ("birthday_height", JNum nzero);
          ("watch_only", JBool (truthy watch_only));
          ("mnemonic", JNull);
          ("xpub", JNull);
          ("descriptors", JArr (in_array <$> desc_list))])) None true;
      Ret (MkResponse 200 wallet (Some (normalizeWalletName nm))))
      (route_error "Export failed").

(** [w.endsWith('.dat.dat') ? w.slice(0, -4) : w] *)
Definition listed_name (w : json) : error + json :=
  match w with
  | JStr s => inr (JStr (if endsWith ".dat.dat" s then String.substring 0 (String.length s - 4) s else s))
  | JNull => type_error "Cannot read properties of null (reading 'endsWith')"
  | _ => type_error "w.endsWith is not a function"
  end.

Definition wallets_GET : prog Response :=
  try_catch (
    wallets ← callWalletRpc "listwallets" [];
    normalized ← from_sum (map_entries listed_name wallets);
    Ret (json_response 200 (JObj [("wallets", JArr normalized)])))
    (route_error "Failed to load wallets").
End Server.

(** ** The node's wallet slot *)

Record Node := MkNode { loaded : option string; unlocked : bool }.

Definition accepted (r : http) : bool := match decode r with inr _ => true | inl _ => false end.

(** The arms of the node's dispatcher, for encrypted wallets (the node keeps no others), on
    the slot; [ok] says that the reply is not an error. The time after which the node locks
    a wallet by itself is left out. *)
Definition loadwallet_effect (q : Request) (ok : bool) (s : Node) : Node :=
  match head (params q) with Some (JStr n) => if ok then MkNode (Some n) false else s | _ => s end.
Definition createwallet_effect (q : Request) (ok : bool) (s : Node) : Node :=
  match head (params q) with Some (JStr n) => if ok then MkNode (Some n) false else s | _ => s end.
Definition walletpassphrase_effect (ok : bool) (s : Node) : Node := if ok then MkNode (loaded s) true else s.
Definition walletlock_effect (ok : bool) (s : Node) : Node := if ok then MkNode (loaded s) false else s.
(** The dispatcher answers with status 200, errors included; any other status comes from what stands before it. *)
Definition dispatched (r : http) : bool := match r with Answer st _ => st =? 200 | Rejected _ => false end.
(** An error that the dispatcher gives to [unloadwallet] says that there was none to unload. *)
Definition unloadwallet_effect (reached : bool) (s : Node) : Node := if reached then MkNode None false else s.

(** The effect of a request; one whose reply is lost is taken as not carried out. *)
Definition effect (q : Request) (r : http) (s : Node) : Node :=
  match r with
  | Rejected _ => s
  | Answer _ _ =>
      if str_eqb (method q) "loadwallet" then loadwallet_effect q (accepted r) s
      else if str_eqb (method q) "createwallet" then createwallet_effect q (accepted r) s
      else if str_eqb (method q) "walletpassphrase" then walletpassphrase_effect (accepted r) s
      else if str_eqb (method q) "walletlock" then walletlock_effect (accepted r) s
      else if str_eqb (method q) "unloadwallet" then unloadwallet_effect (dispatched r) s
      else s
  end.

Fixpoint effects_from (i : nat) (qs : list Request) (r : replies) (s : Node) : Node :=
  match qs with
  | [] => s
  | q :: qs' => effects_from (S i) qs' r (effect q (reply_at i r) s)
  end.
Definition effects (qs : list Request) (r : replies) (s : Node) : Node := effects_from 0 qs r s.

(** ** The server: its handlers take turns at their requests *)

(** A request as it was sent: by which handler, and what the node held then. *)
Record Sent := MkSent { by_handler : nat; sent_request : Request; node_then : Node }.

Record Server := MkServer { handlers : list (prog Response); node : Node; sent : list Sent }.

Inductive serves (answer : list Request → replies → Prop) : Server → Server → Prop :=
  | serve hs n l i qs k r : hs !! i = Some (Send qs k) → answer qs r →
      serves answer (MkServer hs n l)
        (MkServer (<[i := k r]> hs) (effects qs r n) (l ++ ((λ q, MkSent i q n) <$> qs))).

(** * Theorems *)

Local Open Scope stdpp_scope.

(** ** What a handler does to the node

    [wp p Q n]: from the node state [n], whatever replies [answer] allows come in, every
    request of [p] is sent in a state that [allowed] accepts, and when [p] ends, [Q] holds
    of how it ended and of the node. *)
Section Wp.
Context (allowed : Node → Request → Prop) (answer : list Request → replies → Prop).

Fixpoint wp {A} (p : prog A) (Q : error + A → Node → Prop) (n : Node) : Prop :=
  match p with
  | Ret a => Q (inr a) n
  | Err e => Q (inl e) n
  | Send qs k => Forall (allowed n) qs ∧ ∀ r, answer qs r → wp (k r) Q (effects qs r n)
  end.

Lemma wp_mono {A} (p : prog A) (Q Q' : error + A → Node → Prop) n :
  (∀ o n', Q o n' → Q' o n') → wp p Q n → wp p Q' n.
Proof.
  intros HQ. revert n. induction p as [a|e|qs k IH]; cbn; intros n; [apply HQ..|].
  intros [Ha Hk]. split; [done|]. intros r Hr. by apply IH, Hk.
Qed.

Lemma wp_bind {A B} (p : prog A) (f : A → prog B) Q n :
  wp p (λ o n', match o with inr a => wp (f a) Q n' | inl e => Q (inl e) n' end) n → wp (p ≫= f) Q n.
Proof.
  revert n. induction p as [a|e|qs k IH]; cbn; intros n; [done..|].
  intros [Ha Hk]. split; [done|]. intros r Hr. by apply IH, Hk.
Qed.

Lemma wp_catch {A} (p : prog A) h Q n :
  wp p (λ o n', match o with inr a => Q (inr a) n' | inl e => wp (h e) Q n' end) n → wp (try_catch p h) Q n.
Proof.
  revert n. induction p as [a|e|qs k IH]; cbn; intros n; [done..|].
  intros [Ha Hk]. split; [done|]. intros r Hr. by apply IH, Hk.
Qed.

(** The last block runs however the first ended. *)
Lemma wp_finally {A} (p : prog A) f Q n :
  wp p (λ o n', wp f (λ o' n'', match o' with inr _ => Q o n'' | inl e => Q (inl e) n'' end) n') n →
  wp (try_finally p f) Q n.
Proof.
  revert n. induction p as [a|e|qs k IH]; cbn; intros n.
  - intros H. apply wp_bind. eapply wp_mono; [|exact H]. by intros [e|[]] n' HQ.
  - intros H. apply wp_bind. eapply wp_mono; [|exact H]. by intros [e'|[]] n' HQ.
  - intros [Ha Hk]. split; [done|]. intros r Hr. by apply IH, Hk.
Qed.

Lemma wp_from_sum {A} (x : error + A) Q n : Q x n → wp (from_sum x) Q n.
Proof. by destruct x. Qed.

Lemma wp_call key m ps Q n :
  allowed n (request key m ps) →
  (∀ r, answer [request key m ps] r →
    Q (decode (reply_at 0 r)) (effect (request key m ps) (reply_at 0 r) n)) →
  wp (callWalletRpc key m ps) Q n.
Proof.
  intros Ha HQ. split; [by repeat constructor|]. intros r Hr. apply wp_from_sum. by apply HQ.
Qed.

Lemma wp_quietly key m ps Q n :
  allowed n (request key m ps) →
  (∀ r, answer [request key m ps] r → Q (inr ()) (effect (request key m ps) (reply_at 0 r) n)) →
  wp (quietly key m ps) Q n.
Proof.
  intros Ha HQ. apply wp_catch, wp_bind, wp_call; [done|]. intros r Hr.
  specialize (HQ r Hr). by destruct (decode _).
Qed.

(** A handler alone on the server. *)
Lemma wp_alone (p : prog Response) Q n σ :
  rtc (serves answer) (MkServer [p] n []) σ → wp p Q n →
  Forall (λ s, allowed (node_then s) (sent_request s)) (sent σ) ∧
  ∀ resp, handlers σ = [Ret resp] → Q (inr resp) (node σ).
Proof.
  intros Hs Hp.
  assert (∃ p', handlers σ = [p'] ∧ wp p' Q (node σ) ∧
    Forall (λ s, allowed (node_then s) (sent_request s)) (sent σ)) as (p' & E & Hw & Ha).
  { revert σ Hs. refine (rtc_ind_r _ _ _ _); [by exists p|]. intros σ1 σ2 _ Hstep (p' & E & Hw & Ha).
    destruct Hstep as [hs n' l i qs k r Hi Hr]. cbn in *. subst hs.
    destruct i as [|i]; [|done]. injection Hi as ->. destruct Hw as [Hq Hk].
    exists (k r). split_and!; [done|by apply Hk|].
    apply Forall_app. split; [done|]. rewrite Forall_fmap. eapply Forall_impl; [exact Hq|]. done. }
  split; [done|]. intros resp Hresp. rewrite E in Hresp. injection Hresp as ->. exact Hw.
Qed.
End Wp.

(** ** Handlers that leave the node's wallet as it is *)

Definition slot_methods : list string :=
  ["unloadwallet"; "loadwallet"; "createwallet"; "walletpassphrase"; "walletlock"].

(** No request of the program changes which wallet is loaded or whether it is unlocked. *)
Fixpoint quiet {A} (p : prog A) : Prop :=
  match p with
  | Ret _ | Err _ => True
  | Send qs k => Forall (λ q, method q ∉ slot_methods) qs ∧ ∀ r, quiet (k r)
  end.

Lemma quiet_bind {A B} (p : prog A) (f : A → prog B) : quiet p → (∀ a, quiet (f a)) → quiet (p ≫= f).
Proof.
  intros Hp Hf. induction p as [a|e|qs k IH]; cbn; [apply Hf|done|].
  destruct Hp as [Hq Hk]. split; [done|]. intros r. apply IH, Hk.
Qed.

Lemma quiet_catch {A} (p : prog A) h : quiet p → (∀ e, quiet (h e)) → quiet (try_catch p h).
Proof.
  intros Hp Hh. induction p as [a|e|qs k IH]; cbn; [done|apply Hh|].
  destruct Hp as [Hq Hk]. split; [done|]. intros r. apply IH, Hk.
Qed.

Lemma quiet_from_sum {A} (x : error + A) : quiet (from_sum x).
Proof. by destruct x. Qed.

Lemma quiet_fold {B} (f : B → json → prog B) b l : (∀ b x, quiet (f b x)) → quiet (fold_prog f b l).
Proof. intros Hf. revert b. induction l as [|x l IH]; intros b; cbn; [done|]. apply quiet_bind; auto. Qed.

Lemma quiet_call key m ps : m ∉ slot_methods → quiet (callWalletRpc key m ps).
Proof. intros Hm. split; [by repeat constructor|]. intros r. apply quiet_from_sum. Qed.

Lemma quiet_all (cs : list (Request * (http → error + option json))) :
  Forall (λ c, method c.1 ∉ slot_methods) cs → quiet (all_calls cs).
Proof.
  intros Hc. split; [by rewrite Forall_fmap|]. intros r. cbv zeta. by destruct (_ !! _).
Qed.

#[local] Hint Resolve quiet_from_sum quiet_fold quiet_catch : quiet.

Ltac quiet_handler :=
  repeat first
    [ intros ?
    | apply quiet_bind
    | apply quiet_call; set_solver
    | apply quiet_all; repeat constructor; set_solver
    | apply quiet_from_sum
    | apply quiet_fold
    | apply quiet_catch
    | match goal with |- quiet (if ?b then _ else _) => destruct b end
    | exact I ].

Lemma effect_other q r n : method q ∉ slot_methods → effect q r n = n.
Proof.
  unfold slot_methods. intros Hm. unfold effect.
  assert (∀ m, m ∈ slot_methods → str_eqb (method q) m = false) as Hne.
  { intros m Hin. apply str_eqb_false. intros E. apply Hm. by rewrite E. }
  rewrite !Hne by set_solver. by destruct r.
Qed.

Lemma effects_other i qs r n : Forall (λ q, method q ∉ slot_methods) qs → effects_from i qs r n = n.
Proof.
  revert i n. induction qs as [|q qs IH]; intros i n Hq; cbn; [done|].
  inversion Hq; subst. rewrite effect_other by done. by apply IH.
Qed.

Lemma wp_quiet allowed answer {A} (p : prog A) n :
  quiet p → (∀ q, allowed n q) → wp allowed answer p (λ _ n', n' = n) n.
Proof.
  intros Hp Ha. induction p as [a|e|qs k IH]; cbn; [done..|]. destruct Hp as [Hq Hk].
  split; [by apply Forall_forall|]. intros r _. unfold effects. rewrite effects_other by done. by apply IH, Hk.
Qed.

(** ** A wallet is used alone *)

(** Every reply comes in, and that to an unloading from the node's dispatcher. *)
Definition answered (qs : list Request) (r : replies) : Prop :=
  ∀ i q, qs !! i = Some q → ∃ st b, reply_at i r = Answer st b ∧ (method q = "unloadwallet" → st = 200).

(** The request loads or unloads a wallet, or the wallet loaded is [name]. *)
Definition own (name : string) (n : Node) (q : Request) : Prop :=
  method q = "unloadwallet" ∨ (method q = "loadwallet" ∧ head (params q) = Some (JStr name)) ∨
  loaded n = Some name.

Section Bracket.
Context (key shared : string).

Lemma effect_unload ps r n : answered [request key "unloadwallet" ps] r →
  effect (request key "unloadwallet" ps) (reply_at 0 r) n = MkNode None false.
Proof. intros H. destruct (H 0%nat _ eq_refl) as (st & b & -> & Hd). by rewrite (Hd eq_refl). Qed.

Lemma effect_load nm ps r n : effect (request key "loadwallet" (JStr nm :: ps)) r n =
  match decode r with inr _ => MkNode (Some nm) false | inl _ => n end.
Proof. destruct r as [m|st b]; [done|]. unfold effect, loadwallet_effect, accepted. generalize (decode (Answer st b)). by intros []. Qed.

Lemma effect_lock ps r n : loaded (effect (request key "walletlock" ps) r n) = loaded n.
Proof. destruct r as [m|st b]; [done|]. unfold effect. generalize (accepted (Answer st b)). by intros []. Qed.

Lemma effect_passphrase ps r n : loaded (effect (request key "walletpassphrase" ps) r n) = loaded n.
Proof. destruct r as [m|st b]; [done|]. unfold effect. generalize (accepted (Answer st b)). by intros []. Qed.

(** [withLoadedWallet] around a handler that keeps the wallet: the handler's requests find
    the wallet that was asked for, and in the end none is loaded. *)
Lemma wp_withLoadedWallet {A} nm (h : prog A) pass unlock n0 : quiet h →
  wp (own (normalizeWalletName nm)) answered (withLoadedWallet key shared nm h pass unlock)
    (λ _ n, n = n0 ∨ n = MkNode None false) n0.
Proof.
  intros Hh. unfold withLoadedWallet. cbv zeta. set (name := normalizeWalletName nm).
  destruct (str_eqb name ""); [by left|].
  apply wp_bind, wp_from_sum. destruct (resolveWalletPassphrase _ _) as [e|p]; [by left|].
  apply wp_bind, wp_quietly; [by left|]. intros r Hr. rewrite (effect_unload _ _ _ Hr). clear r Hr.
  apply wp_bind, wp_call; [by right; left|]. intros r _.
  rewrite effect_load. destruct (decode (reply_at 0 r)) as [e|v]; [by right|].
  clear r v. apply wp_finally.
  assert (∀ n, loaded n = Some name → ∀ Q : error + () → Node → Prop,
    (∀ o, Q o (MkNode None false)) →
    wp (own name) answered ((if unlock then quietly key "walletlock" [] else Ret ()) ≫=
      λ _, quietly key "unloadwallet" []) Q n) as Hfin.
  { intros n Hn Q HQ.
    assert (∀ n', loaded n' = Some name → wp (own name) answered (quietly key "unloadwallet" []) Q n') as Hun.
    { intros n' _. apply wp_quietly; [by left|]. intros r Hr. by rewrite (effect_unload _ _ _ Hr). }
    apply wp_bind. destruct unlock; [|by apply Hun].
    apply wp_quietly; [by right; right|]. intros r _. apply Hun. by rewrite effect_lock. }
  assert (∀ n, loaded n = Some name → wp (own name) answered h
    (λ o n', wp (own name) answered ((if unlock then quietly key "walletlock" [] else Ret ()) ≫=
      λ _, quietly key "unloadwallet" [])
      (λ o' n'', match o' with inr _ => n'' = n0 ∨ n'' = MkNode None false
                             | inl e => n'' = n0 ∨ n'' = MkNode None false end) n') n) as Hhandler.
  { intros n Hn. eapply wp_mono; [|apply (wp_quiet (own name)); [exact Hh|]].
    - cbn. intros o n' ->. apply Hfin; [done|]. intros [e|[]]; by right.
    - intros q. by right; right. }
  destruct unlock; [|by apply Hhandler].
  apply wp_bind, wp_call; [by right; right|]. intros r _.
  destruct (decode _) as [e|v].
  - apply Hfin; [by rewrite effect_passphrase|]. intros [e'|[]]; by right.
  - apply Hhandler. by rewrite effect_passphrase.
Qed.

(** The routes that work on a wallet, and the wallet each is asked for. *)
Inductive route : string → prog Response → Prop :=
  | send_route b : route (text_or_empty (opt_field "from" (Some b))) (send_POST key shared (TJson b))
  | balance_route o : route (default "" o) (balance_GET key shared o)
  | history_route o : route (default "" o) (history_GET key shared o)
  | export_route o : route (default "" o) (export_GET key shared o).

Definition responds (n0 : Node) (o : error + Response) (n : Node) : Prop :=
  (∃ resp, o = inr resp) ∧ (n = n0 ∨ n = MkNode None false).

Lemma wp_answered name {A} nm (h : prog A) unlock (f : A → Response) d n0 :
  quiet h → name = normalizeWalletName nm →
  wp (own name) answered (withLoadedWallet key shared nm h None unlock) (λ o n,
    match match o with inr a => inr (f a) | inl e => inl e end with
    | inr r => responds n0 (inr r) n
    | inl e => wp (own name) answered (route_error d e) (responds n0) n
    end) n0.
Proof.
  intros Hh ->. eapply wp_mono; [|by apply wp_withLoadedWallet].
  intros [e|a] n Hn; cbn; (split; [by eexists|done]).
Qed.

Lemma wp_route nm p n0 : route nm p → wp (own (normalizeWalletName nm)) answered p (responds n0) n0.
Proof.
  assert (∀ st m, responds n0 (inr (error_response st m)) n0) as Hearly.
  { intros. split; [by eexists|by left]. }
  intros [b|o|o|o]; unfold send_POST, balance_GET, history_GET, export_GET; cbv zeta;
    try (match goal with |- wp _ _ (if ?b then _ else _) _ _ => destruct b; [by apply Hearly|] end);
    apply wp_catch.
  - apply wp_bind. cbn [request_json wp]. destruct (_ || _); [by apply Hearly|]. apply wp_bind.
    eapply wp_mono; [|apply (wp_answered _ _ _ _ (λ r, json_response 200 (obj [("ok", Some (JBool true));
      ("txid", txid_of r)])) "Send transaction failed"); [|done]].
    + by intros [e|r] n.
    + quiet_handler.
  - destruct (negb _); [by apply Hearly|]. apply wp_bind.
    eapply wp_mono; [|apply (wp_answered _ _ _ _ (json_response 200) "Failed to load balance"); [|done]].
    + by intros [e|r] n.
    + quiet_handler.
  - apply wp_bind.
    eapply wp_mono; [|apply (wp_answered _ _ _ _ (json_response 200) "Failed to load history"); [|done]].
    + by intros [e|r] n.
    + quiet_handler.
  - apply wp_bind.
    eapply wp_mono; [|apply (wp_answered _ _ _ _ (λ w, MkResponse 200 w (Some (normalizeWalletName (default "" o))))
      "Export failed"); [|done]].
    + by intros [e|r] n.
    + quiet_handler.
Qed.

(** C15: A route that is alone on the server and gets all its replies, those to its unloadings from the node itself: each of its requests
    loads or unloads a wallet or finds the wallet it was asked for, and when it responds the
    node has no wallet loaded, unless it is as it was. *)
Theorem route_uses_its_wallet nm p n0 σ : route nm p → rtc (serves answered) (MkServer [p] n0 []) σ →
  Forall (λ s, own (normalizeWalletName nm) (node_then s) (sent_request s)) (sent σ) ∧
  ∀ resp, handlers σ = [Ret resp] → node σ = n0 ∨ node σ = MkNode None false.
Proof.
  intros Hp Hs. destruct (wp_alone _ _ _ _ _ _ Hs (wp_route _ _ n0 Hp)) as [Ha Hr].
  split; [done|]. intros resp E. by destruct (Hr _ E).
Qed.
End Bracket.

(** ** Two requests at once *)

Section Race.
Context (key shared : string).

(** Every request is granted. *)
Definition granted (qs : list Request) (r : replies) : Prop :=
  ∀ i, (i < length qs)%nat → reply_at i r = Answer 200 (TJson (JObj [("result", JNull)])).

Definition all_granted : replies := MkReplies (replicate 3 (Answer 200 (TJson (JObj [("result", JNull)])))) 0.

Lemma all_granted_ok qs : (length qs <= 3)%nat → granted qs all_granted.
Proof.
  intros Hl i Hi. unfold reply_at, all_granted. cbn [answers]. by rewrite lookup_replicate_2 by lia.
Qed.


Definition send_body (from to : string) (amount : num) : json :=
  JObj [("from", JStr from); ("to", JStr to); ("amount", JNum amount)].


(** *** Which wallet a request finds *)












End Race.

(** ** Witnesses *)

Definition demo_send : prog Response := send_POST "" "pw" (TJson (send_body "alice" "kc1bob" (of_Z 5))).

Definition demo_end : Server := MkServer
  [Ret (json_response 200 (JObj [("ok", JBool true); ("txid", JNull)]))] (MkNode None false)
  [MkSent 0 (request "" "unloadwallet" []) (MkNode None false);
   MkSent 0 (request "" "loadwallet" [JStr "alice.dat"; JStr "pw"]) (MkNode None false);
   MkSent 0 (request "" "walletpassphrase" [JStr "pw"; JNum (of_Z 30)]) (MkNode (Some "alice.dat") false);
   MkSent 0 (request "" "sendtoaddress" [JStr "kc1bob"; JNum (of_Z 5)]) (MkNode (Some "alice.dat") true);
   MkSent 0 (request "" "walletlock" []) (MkNode (Some "alice.dat") true);
   MkSent 0 (request "" "unloadwallet" []) (MkNode (Some "alice.dat") false)].

Lemma granted_answered qs r : granted qs r → answered qs r.
Proof. intros H i q Hi%lookup_lt_Some. rewrite (H i Hi). eauto. Qed.

Lemma demo_run : rtc (serves answered) (MkServer [demo_send] (MkNode None false) []) demo_end.
Proof.
  do 6 (eapply rtc_l;
    [eapply (serve _ _ _ _ 0%nat _ _ all_granted); [reflexivity|by apply granted_answered, all_granted_ok; cbn; lia]|]).
  refine (eq_ind _ (λ y, rtc _ _ y) (rtc_refl _ _) _ _). vm_compute. reflexivity.
Qed.

Lemma route_uses_its_wallet_witness :
  Forall (λ s, own "alice.dat" (node_then s) (sent_request s)) (sent demo_end).
Proof. exact (proj1 (route_uses_its_wallet "" "pw" "alice" _ _ _ (send_route "" "pw" (send_body "alice" "kc1bob" (of_Z 5))) demo_run)). Defined.


(** ** Names, bad input, histories *)

Lemma endsWith_app a p : endsWith p (a +:+ p) = true.
Proof.
  unfold endsWith. rewrite length_app_str.
  replace (String.length a + String.length p - String.length p)%nat with (String.length a) by lia.
  rewrite substring_app, str_eqb_refl, andb_true_r. apply Nat.leb_le. lia.
Qed.

(** Normalising a wallet name a second time changes nothing. *)
Theorem normalizeWalletName_idem s : normalizeWalletName (normalizeWalletName s) = normalizeWalletName s.
Proof.
  unfold normalizeWalletName at 2 3. cbv zeta. destruct (str_eqb (trim s) "") eqn:Et; [done|].
  destruct (endsWith ".dat" (toLowerCase (trim s)) || endsWith ".json" (toLowerCase (trim s))) eqn:Ee.
  - unfold normalizeWalletName. cbv zeta. by rewrite trim_idem, Et, Ee.
  - destruct (trim_head s) as [E|(c & t & E & Hc)]; [by rewrite E in Et|]. rewrite E in *.
    assert (trim (String c t +:+ ".dat") = String c t +:+ ".dat") as Htrim.
    { unfold trim. assert (trimStart (String c t +:+ ".dat") = String c t +:+ ".dat") as ->
        by (change (trimStart (String c (t +:+ ".dat")) = String c (t +:+ ".dat")); cbn [trimStart]; by rewrite Hc).
      change ".dat" with (".da" +:+ "t"). rewrite <- str_app_assoc. by apply trimEnd_app. }
    unfold normalizeWalletName. cbv zeta. rewrite Htrim, toLowerCase_app.
    change (toLowerCase ".dat") with ".dat". rewrite endsWith_app. by destruct (str_eqb _ "").
Qed.

(** A payment without a sender, a recipient or a positive finite amount is refused before
    anything is sent to the node. *)
Theorem send_POST_refuses key shared b :
  text_or_empty (opt_field "from" (Some b)) = "" ∨ text_or_empty (opt_field "to" (Some b)) = "" ∨
  SFltb nzero (Number (opt_field "amount" (Some b))) = false ∨ is_finite (Number (opt_field "amount" (Some b))) = false →
  send_POST key shared (TJson b) = Ret (error_response 400 "from, to, and amount are required").
Proof.
  intros H. unfold send_POST. cbn [request_json]. change (Ret b ≫= ?f) with (f b). cbv beta zeta.
  match goal with |- context [if ?c then _ else _] => assert (c = true) as -> end; [|done].
  rewrite !orb_true_iff, !str_eqb_true, negb_true_iff.
  destruct H as [H|[H|[H|H]]]; [by left; left; left|by left; left; right| |by left; right].
  destruct (is_finite _) eqn:Hf; [|by left; right]. right.
  destruct (Number _) as [[]|[]| |[] m e]; try done.
Qed.

(** Amounts are cut down to whole units: half a unit is accepted and sent as zero. *)
Example half_is_sent_as_zero :
  SFleb (Number (Some (JStr "0.5"))) nzero = false ∧ trunc (Number (Some (JStr "0.5"))) = nzero.
Proof. vm_compute. done. Qed.

Definition txid_in (tx : json) (t : string) : Prop := field "txid" tx = Some (JStr t).

(** The transactions kept so far are those whose ids were seen, each once. *)
Definition seen_ok (acc : list string * list json) : Prop :=
  NoDup acc.1 ∧ Forall2 txid_in acc.2 acc.1.

Lemma see_tx_ok acc tx acc' : see_tx acc tx = inr acc' → seen_ok acc → seen_ok acc'.
Proof.
  unfold see_tx, get. intros H [Hnd Hf].
  destruct tx as [| | | | |l]; try done; cbn in H; try (by injection H as <-).
  destruct (map_get "txid" l) as [[| | |t| |]|] eqn:E; cbn in H; try (by injection H as <-).
  destruct (str_eqb t "" || js_some (str_eqb t) acc.1) eqn:Eb; injection H as <-; [done|].
  apply orb_false_iff in Eb as [_ Hs]. split; cbn.
  - apply NoDup_app. split_and!; [done| |apply NoDup_singleton].
    intros x Hx ->%list_elem_of_singleton. rewrite js_some_false in Hs. specialize (Hs t Hx). by rewrite str_eqb_refl in Hs.
  - apply Forall2_app; [done|]. by repeat constructor.
Qed.

Lemma wp_fold {B} allowed answer (f : B → json → prog B) (I : B → Prop) b l n :
  (∀ b x n, I b → wp allowed answer (f b x) (λ o _, match o with inr b' => I b' | inl _ => True end) n) →
  I b → wp allowed answer (fold_prog f b l) (λ o _, match o with inr b' => I b' | inl _ => True end) n.
Proof.
  intros Hf. revert b n. induction l as [|x l IH]; intros b n Hb; cbn; [done|].
  apply wp_bind. eapply wp_mono; [|by apply Hf]. intros [e|b'] n' Hb'; [done|]. by apply IH.
Qed.

Definition any_request (n : Node) (q : Request) : Prop := True.
Definition any_reply (qs : list Request) (r : replies) : Prop := True.

(** Whatever happens before the handler and after it, its value is what it returns. *)
Lemma wp_withLoadedWallet_value {A} key shared nm (h : prog A) pass unlock (I : A → Prop) n :
  (∀ n, wp any_request any_reply h (λ o _, match o with inr a => I a | inl _ => True end) n) →
  wp any_request any_reply (withLoadedWallet key shared nm h pass unlock)
    (λ o _, match o with inr a => I a | inl _ => True end) n.
Proof.
  intros Hh. unfold withLoadedWallet. cbv zeta. destruct (str_eqb _ ""); [done|].
  apply wp_bind, wp_from_sum. destruct (resolveWalletPassphrase _ _); [done|].
  apply wp_bind, wp_quietly; [done|]. intros r _. apply wp_bind, wp_call; [done|]. intros r' _.
  destruct (decode _); [done|]. apply wp_finally.
  assert (∀ Q : error + () → Node → Prop, (∀ o n, Q o n) → ∀ n, wp any_request any_reply
    ((if unlock then quietly key "walletlock" [] else Ret ()) ≫= λ _, quietly key "unloadwallet" []) Q n) as Hfin.
  { intros Q HQ n1. apply wp_bind. destruct unlock; repeat (apply wp_quietly; [done|]; intros ? _); apply HQ. }
  assert (∀ n, wp any_request any_reply h (λ o n', wp any_request any_reply
    ((if unlock then quietly key "walletlock" [] else Ret ()) ≫= λ _, quietly key "unloadwallet" [])
    (λ o' _, match o' with inr _ => match o with inr a => I a | inl _ => True end | inl _ => True end) n') n) as Hh'.
  { intros n1. eapply wp_mono; [|apply Hh]. intros o1 n2 Ho. apply (wp_mono _ _ _ (λ _ _, True)); [|by apply Hfin].
    by intros [e|[]] _ _. }
  destruct unlock; [|eapply wp_mono; [|apply Hh']; by intros].
  apply wp_bind, wp_call; [done|]. intros r'' _. destruct (decode _); [apply Hfin; by intros [|]|].
  eapply wp_mono; [|apply Hh']. by intros.
Qed.

(** Whatever the node replies, the history that is returned lists no transaction id twice,
    and only transactions that have one. *)
Theorem history_lists_each_once key shared o n σ resp l :
  rtc (serves any_reply) (MkServer [history_GET key shared o] n []) σ →
  handlers σ = [Ret resp] → body resp = JObj [("transactions", JArr l)] →
  ∃ ids, Forall2 txid_in l ids ∧ NoDup ids.
Proof.
  intros Hs Hr Hb.
  assert (wp any_request any_reply (history_GET key shared o) (λ o _,
    match o with
    | inr r => ∀ l, body r = JObj [("transactions", JArr l)] → ∃ ids, Forall2 txid_in l ids ∧ NoDup ids
    | inl _ => False
    end) n) as Hw.
  { unfold history_GET. destruct (negb _); [done|]. apply wp_catch, wp_bind.
    eapply wp_mono; [|apply (wp_withLoadedWallet_value _ _ _ _ _ _
      (λ d, ∀ l, d = JObj [("transactions", JArr l)] → ∃ ids, Forall2 txid_in l ids ∧ NoDup ids))].
    { intros [[]|d] n' Hd; cbn in *; [done..|]. exact Hd. }
    intros n1. apply wp_bind, wp_call; [done|]. intros r _. destruct (decode _); [done|].
    apply wp_bind, wp_from_sum. destruct (iterate _ _); [done|]. apply wp_bind.
    eapply wp_mono; [|apply (wp_fold _ _ _ seen_ok); [|by split; [apply NoDup_nil_2|constructor]]].
    { intros [e|acc] n' Hacc; [done|]. intros l' [= <-]. destruct Hacc. by exists acc.1. }
    intros acc x n2 Hacc. apply wp_bind, wp_from_sum. destruct (get _ _); [done|].
    apply wp_bind, wp_call; [done|]. intros r' _. destruct (decode _); [done|].
    apply wp_bind, wp_from_sum. destruct (iterate _ _); [done|]. apply (wp_fold _ _ _ seen_ok); [|done].
    intros acc' tx n3 Hacc'. apply wp_from_sum. destruct (see_tx acc' tx) as [e|acc''] eqn:E; [done|].
    by eapply see_tx_ok. }
  destruct (wp_alone _ _ _ _ _ _ Hs Hw) as [_ HQ]. exact (HQ _ Hr _ Hb).
Qed.
