(* ===== verification/OpsAuth.v ===== *)
(** * Access to the operations dashboard (apps/web/ops)

    middleware.ts decides which requests pass, app/api/auth/route.ts logs in and out. The
    configuration is the text of [KUBERCOIN_API_KEYS] and whether the server runs in
    production; a browser's session is the value of the token's cookie. *)

From Stdlib Require Import Ascii String.
From S2P Require Import Prelude JsMap JsNumber JsString Bytes Json.

Definition COOKIE_NAME : string := "kbc-ops-token".
Definition COOKIE_MAX_AGE : Z := 60 * 60 * 24 * 7.

Definition timingSafeEqual (a b : string) : bool :=
  if negb (String.length a =? String.length b)%nat then false
  else foldl (λ diff p, Z.lor diff (Z.lxor p.1 p.2)) 0 (zip (bytes_of a) (bytes_of b)) =? 0.

(** [keysEnv.split(',').map((k) => k.trim()).filter(Boolean)] *)
Definition keys_of (keysEnv : string) : list string :=
  js_filter (λ k, negb (str_eqb k "")) (trim <$> split_on "," keysEnv).

Definition validateKey (keysEnv token : string) : bool :=
  if str_eqb (trim keysEnv) "" then true
  else foldl (λ valid key, if timingSafeEqual token key then true else valid) false (keys_of keysEnv).

(** ** middleware.ts *)

Inductive Decision :=
  | Next
  | RedirectToLogin (from : string).

(** The paths that are always allowed. *)
Definition is_public (pathname : string) : bool :=
  startsWith "/login" pathname || startsWith "/api/auth" pathname || startsWith "/_next" pathname
  || str_eqb pathname "/favicon.ico".

(** [token] is the value of the cookie, if there is one. *)
Definition middleware (keysEnv : string) (pathname : string) (token : option string) : Decision :=
  if is_public pathname then Next
  else if negb (validateKey keysEnv (default "" token)) then RedirectToLogin pathname
  else Next.

(** The start [favicon.ico] of the matcher's pattern, where the dot is any character. *)
Definition favicon_like (s : string) : bool :=
  startsWith "favicon" s && startsWith "ico" (String.substring 8 3 s).

(** [config.matcher]: is the middleware asked about the path? *)
Definition matched (pathname : string) : bool :=
  match pathname with
  | String "/" rest =>
      negb (startsWith "_next/static" rest || startsWith "_next/image" rest || favicon_like rest)
  | _ => false
  end.

(** What a request to the dashboard meets. *)
Definition dispatch (keysEnv : string) (pathname : string) (token : option string) : Decision :=
  if matched pathname then middleware keysEnv pathname token else Next.

(** ** app/api/auth/route.ts *)

Record Cookie := MkCookie {
  name : string;
  value : string;
  httpOnly : bool;
  sameSite : string;
  secure : bool;
  path : string;
  maxAge : Z;
}.

Inductive CookieChange :=
  | SetCookie (c : Cookie)
  | DeleteCookie (n : string).

Record AuthResponse := MkAuthResponse { status : Z; body : json; cookie : option CookieChange }.

Definition refusal (st : Z) (m : string) : AuthResponse := MkAuthResponse st (JObj [("error", JStr m)]) None.
Definition ok_with (c : CookieChange) : AuthResponse := MkAuthResponse 200 (JObj [("ok", JBool true)]) (Some c).

(** The key of the body: white space around it is dropped, anything but a text is empty.
    Reading a property of null is an error, which the framework answers with 500. *)
Definition POST (keysEnv : string) (production : bool) (t : text json) : result AuthResponse :=
  match t with
  | TRaw _ => Ok (refusal 400 "Invalid request body")
  | TJson JNull => Throw "Cannot read properties of null (reading 'key')"
  | TJson b =>
      let key := match field "key" b with Some (JStr k) => trim k | _ => EmptyString end in
      if str_eqb key "" || negb (validateKey keysEnv key) then Ok (refusal 401 "Invalid API key")
      else Ok (ok_with (SetCookie (MkCookie COOKIE_NAME key true "strict" production "/" COOKIE_MAX_AGE)))
  end.

Definition GET : AuthResponse := ok_with (DeleteCookie COOKIE_NAME).

(** ** The browser's side *)

(** The token's cookie after a response. *)
Definition remember (token : option string) (r : AuthResponse) : option string :=
  match cookie r with
  | Some (SetCookie c) => if str_eqb (name c) COOKIE_NAME then Some (value c) else token
  | Some (DeleteCookie n) => if str_eqb n COOKIE_NAME then None else token
  | None => token
  end.

(** * Theorems *)

Lemma timingSafeEqual_spec a b : timingSafeEqual a b = str_eqb a b.
Proof.
  unfold timingSafeEqual. destruct (Nat.eqb_spec (String.length a) (String.length b)) as [Hl|Hl]; cbn [negb].
  - by apply xor_compare.
  - symmetry. apply str_eqb_false. by intros ->.
Qed.

Lemma any_key_spec token l b :
  foldl (λ valid key, if timingSafeEqual token key then true else valid) b l = b || js_some (str_eqb token) l.
Proof.
  revert b. induction l as [|k l IH]; intros b; cbn; [by rewrite orb_false_r|].
  rewrite IH, timingSafeEqual_spec. by destruct b, (str_eqb token k).
Qed.

(** A key is valid when none are configured or when it is one of them: a piece of the
    configured text between commas, white space dropped, that is not empty. *)
Lemma validateKey_spec env token :
  validateKey env token = true ↔ trim env = "" ∨ (token ≠ "" ∧ token ∈ trim <$> split_on "," env).
Proof.
  unfold validateKey. destruct (str_eqb (trim env) "") eqn:E.
  - apply str_eqb_true in E. tauto.
  - rewrite any_key_spec. cbn [orb]. rewrite js_some_true. unfold keys_of. apply str_eqb_false in E. split.
    + intros (k & Hk & ->%str_eqb_true). apply elem_of_js_filter in Hk as [Hk Hne].
      apply negb_true_iff, str_eqb_false in Hne. by right.
    + intros [|[Hne Hk]]; [done|]. exists token. split; [|apply str_eqb_refl].
      apply elem_of_js_filter. split; [done|]. by apply negb_true_iff, str_eqb_false.
Qed.

Lemma dispatch_protected env p token : matched p = true → is_public p = false →
  dispatch env p token = if validateKey env (default "" token) then Next else RedirectToLogin p.
Proof. intros Hm Hp. unfold dispatch, middleware. rewrite Hm, Hp. by destruct (validateKey _ _). Qed.

(** A request to a page that is not public passes exactly when no keys are configured or
    its cookie holds one of them; otherwise it is sent to the login page, which is told
    where it came from. *)
Theorem protected_path_needs_key env p token : matched p = true → is_public p = false →
  (dispatch env p token = Next ↔
    trim env = "" ∨ ∃ k, token = Some k ∧ k ≠ "" ∧ k ∈ trim <$> split_on "," env) ∧
  (dispatch env p token ≠ Next → dispatch env p token = RedirectToLogin p).
Proof.
  intros Hm Hp. rewrite dispatch_protected by done. destruct (validateKey env (default "" token)) eqn:E.
  - split; [|done]. split; [|done]. intros _. apply validateKey_spec in E as [E|[Hne Hk]]; [by left|].
    right. destruct token as [k|]; [by exists k|done].
  - split; [|done]. split; [done|]. intros H. assert (validateKey env (default "" token) = true); [|congruence].
    apply validateKey_spec. destruct H as [H|(k & -> & Hne & Hk)]; [by left|by right].
Qed.

(** C25: Logging in with a configured key, white space around it or not, opens every page from
    then on; any other key is refused and leaves the session as it was; logging out closes
    the pages again. *)
Theorem login_opens_session env production k token p : trim env ≠ "" → trim k ≠ "" →
  matched p = true → is_public p = false →
  ∃ r, POST env production (TJson (JObj [("key", JStr k)])) = Ok r ∧
    (if bool_decide (trim k ∈ trim <$> split_on "," env) then
       status r = 200 ∧ remember token r = Some (trim k) ∧ dispatch env p (remember token r) = Next ∧
       dispatch env p (remember (remember token r) GET) = RedirectToLogin p
     else status r = 401 ∧ remember token r = token).
Proof.
  intros Henv Hk Hm Hp. unfold POST.
  change (field "key" (JObj [("key", JStr k)])) with (Some (JStr k)). cbv beta iota zeta.
  rewrite (proj2 (str_eqb_false _ _) Hk). cbn [orb].
  destruct (validateKey env (trim k)) eqn:E; cbn [negb]; eexists; (split; [reflexivity|]).
  - apply validateKey_spec in E as [|[_ E]]; [done|]. rewrite bool_decide_eq_true_2 by done.
    assert (∀ t, remember t (ok_with (SetCookie (MkCookie COOKIE_NAME (trim k) true "strict" production "/" COOKIE_MAX_AGE)))
      = Some (trim k)) as Hr by done.
    rewrite Hr, !dispatch_protected by done.
    change (default "" (Some (trim k))) with (trim k). rewrite (proj2 (validateKey_spec env (trim k))) by (by right).
    split_and!; [done..|]. destruct (validateKey env _) eqn:E'; [|done].
    by apply validateKey_spec in E' as [|[]].
  - rewrite bool_decide_eq_false_2; [done|]. intros Hin.
    assert (validateKey env (trim k) = true); [|congruence]. apply validateKey_spec. by right.
Qed.

(** The public paths are prefixes: pages that only begin like them pass without a key. *)
Example any_login_prefix_is_open :
  dispatch "secret" "/login-records" None = Next ∧ dispatch "secret" "/api/authors" None = Next ∧
  dispatch "secret" "/records" None = RedirectToLogin "/records".
Proof. vm_compute. done. Qed.

Lemma protected_path_needs_key_witness :
  (dispatch "k1, k2" "/nodes" (Some "k2") = Next ↔
    trim "k1, k2" = "" ∨ ∃ k, Some "k2" = Some k ∧ k ≠ "" ∧ k ∈ trim <$> split_on "," "k1, k2").
Proof. exact (proj1 (protected_path_needs_key "k1, k2" "/nodes" (Some "k2") eq_refl eq_refl)). Defined.

Lemma login_opens_session_witness :
  ∃ r, POST "k1, k2" true (TJson (JObj [("key", JStr " k2 ")])) = Ok r ∧ remember None r = Some "k2".
Proof.
  destruct (login_opens_session "k1, k2" true " k2 " None "/nodes") as (r & Hr & H); [done..|].
  exists r. split; [exact Hr|]. rewrite bool_decide_eq_true_2 in H; [by destruct H as (_ & H & _)|].
  apply list_elem_of_In. right. left. reflexivity.
Defined.
