(* ===== verification/OpsDashboard.v ===== *)
(** * The operations dashboard (apps/web/ops/app/components/OpsClient.tsx)

    The node's metrics, read every five seconds from a text of lines [name value], with the alerts and the chart
    points made of them; the peers; the RPC console. Work stops while the Charts tab is open: a flag
    ([suspend]) is looked at before a request, after it and before its text is parsed. Requests, parsing and timers end
    with events of their own. *)

From Stdlib Require Import Ascii String.
From stdpp Require Import pretty.
From S2P Require Import Prelude JsMap JsNumber JsString Json.

(** ** Reading the metrics *)

Definition newline_char : ascii := ascii_of_nat 10.
Definition is_word (c : ascii) : bool := is_lower c || is_upper c || is_digit c || (char_code c =? 95).
Definition value_char (c : ascii) : bool := is_digit c || Ascii.eqb c ".".

(** [(?:\{[^}]*\})?] before a blank: what follows the braces. *)
Definition after_braces (s : string) : option string :=
  match s with
  | String "{" t => match (span (not_char "}") t).2 with String _ u => Some u | EmptyString => None end
  | _ => Some s
  end.

(** [METRIC_LINE_RE]: the name and the digits of a line. *)
Definition metric_line (line : string) : option (string * string) :=
  let '(name, s1) := span is_word line in
  match after_braces s1 with
  | None => None
  | Some s2 =>
      let '(blanks, s3) := span is_space s2 in
      let value := (span value_char s3).1 in
      if str_eqb name "" || str_eqb blanks "" || str_eqb value "" then None else Some (name, value)
  end.

Definition parse_line (parsed : jsmap num) (line : string) : jsmap num :=
  if negb (startsWith "kubercoin_" line) then parsed
  else match metric_line line with Some (key, value) => map_set key (parseFloat value) parsed | None => parsed end.

Definition parsePrometheusMetrics (rawMetrics : string) : jsmap num := foldl parse_line [] (split_on newline_char rawMetrics).

Record Metrics := MkMetrics {
  blockHeight : num; peers : num; mempoolSize : num; mempoolBytes : num; cpuUsage : num; memUsage : num; dataSize : num;
  rpcCallsTotal : num; rpcErrorsTotal : num; rpcAvgLatencyMs : num;
}.

Definition metric (parsed : jsmap num) (k : string) : num := num_or (map_get k parsed) nzero.

Definition read_metrics (parsed : jsmap num) : Metrics :=
  let m := metric parsed in
  MkMetrics (m "kubercoin_block_height") (m "kubercoin_peers") (m "kubercoin_mempool_size") (m "kubercoin_mempool_bytes")
    (m "kubercoin_node_cpu_usage") (m "kubercoin_node_memory_usage") (m "kubercoin_storage_blockchain_size")
    (m "kubercoin_rpc_calls_total") (m "kubercoin_rpc_errors_total") (m "kubercoin_rpc_avg_latency").

(** ** Alerts and chart points *)

Inductive Level := info | warning | error_level | critical.
Record Alert := MkAlert { alert_id : string; level : Level; message : string; alert_time : Z }.

Definition level_name (l : Level) : string :=
  match l with info => "info" | warning => "warning" | error_level => "error" | critical => "critical" end.

Definition alert_if (b : bool) (i : string) (l : Level) (msg : string) (t : Z) : list Alert := if b then [MkAlert i l msg t] else [].

Definition make_alerts (m : Metrics) (now : Z) : list Alert :=
  if SFleb (of_Z 100) (rpcErrorsTotal m) then
    [MkAlert "rpc-errors" critical ("High error rate detected: " +:+ num_to_string (rpcErrorsTotal m)) now]
  else
    alert_if (SFltb (peers m) (of_Z 3)) "peers" warning ("Low peer count: " +:+ num_to_string (peers m) +:+ " peers") now ++
    alert_if (SFltb (of_Z 80) (cpuUsage m)) "cpu" error_level ("High CPU usage: " +:+ to_fixed 1 (cpuUsage m) +:+ "%") now ++
    alert_if (SFltb (of_Z 80) (memUsage m)) "mem" error_level ("High memory usage: " +:+ to_fixed 1 (memUsage m) +:+ "%") now ++
    alert_if (SFltb (of_Z 1000) (mempoolSize m)) "mempool" warning ("Large mempool: " +:+ num_to_string (mempoolSize m) +:+ " transactions") now.

Record ChartPoint := MkPoint { ts : Z; p_blockHeight : num; p_peers : num; p_mempoolSize : num; p_cpuUsage : num; p_memUsage : num }.
Definition point_of (m : Metrics) (now : Z) : ChartPoint :=
  MkPoint now (blockHeight m) (peers m) (mempoolSize m) (cpuUsage m) (memUsage m).

(** [Sparkline]: the points of the line, or too few values. *)
Definition sparkline (values : list num) : option string :=
  if Z.of_nat (length values) <? 2 then None
  else
    let mn := foldl nmin (S754_infinity false) values in
    let mx := foldl nmax (S754_infinity true) values in
    let range := num_or (Some (nsub mx mn)) (of_Z 1) in
    let stepX := ndiv (of_Z 260) (of_Z (Z.of_nat (length values) - 1)) in
    Some (join " " (imap (λ i v,
      let x := nmul (of_Z (Z.of_nat i)) stepX in
      let y := nsub (nsub (of_Z 64) (nmul (ndiv (nsub v mn) range) (of_Z 56))) (of_Z 4) in
      to_fixed 2 x +:+ "," +:+ to_fixed 2 y) values)).

(** ** The RPC console *)

(** What [fetch] and [res.json()] give. *)
Inductive Response := Unreachable (msg : string) | Status (code : Z) | NotJson (msg : string) | Body (data : json).

(** [new Error(x || fallback)]; then [err.message || 'Network error']. *)
Definition or_text (o : option json) (fallback : string) : string :=
  match o with Some j => if truthy_json j then to_text j else fallback | None => fallback end.
Definition network (msg : string) : result (option json) := Throw (if str_eqb msg "" then "Network error" else msg).

Definition rpcCall (r : Response) : result (option json) :=
  match r with
  | Unreachable msg | NotJson msg => network msg
  | Status code => network ("HTTP " +:+ pretty code)
  | Body JNull => network "Cannot read properties of null (reading 'error')"
  | Body data =>
      match field "error" data with
      | Some JNull | None => Ok (field "result" data)
      | Some e => network (or_text (field "message" e) "RPC error")
      end
  end.

Section Host.
(** [JSON.stringify], plain and indented. *)
Context (JSON_stringify JSON_indented : json → string).

Definition stablePeerKey (peer : json) : string :=
  match peer with
  | JObj _ | JArr _ =>
      let text k := match field k peer with Some (JStr s) => [s] | _ => [] end in
      let parts :=
        match field "id" peer with Some (JNum n) => [num_to_string n] | Some (JStr s) => [s] | _ => [] end ++ text "addr" ++ text "subver" ++
        match field "inbound" peer with Some (JBool b) => [if b then "true" else "false"] | _ => [] end ++ text "services" in
      match parts with [] => JSON_stringify peer | _ => join "|" parts end
  | _ => to_text peer
  end.

(** What the console shows of a reply. *)
Definition rpc_shown (r : Response) : string :=
  match rpcCall r with
  | Ok (Some j) => JSON_indented j
  | Ok None => ""
  | Throw msg => if str_eqb msg "" then "RPC error" else msg
  end.
End Host.

(** ** The page *)

Inductive TabKey := overview | metrics_tab | rpc_tab | network_tab | charts.
#[export] Instance TabKey_eq_dec : EqDecision TabKey.
Proof. solve_decision. Defined.

(** A request for the metrics: is its text to be shown, and was it asked for by the Charts tab? *)
Record Fetch := MkFetch { includeRawText : bool; for_charts : bool }.

(** [fetches], [parses], [resuspends], [peer_calls] and [rpc_calls]: what is under way. *)
Record OpsPage := MkOps {
  metrics : option Metrics;
  alerts : list Alert;
  peerInfo : list json;
  error : option string;
  uptime : Z;
  activeTab : TabKey;
  filterQuery : string;
  rawMetricsText : string;
  lastUpdate : option Z;
  rpcCommand : string;
  rpcOutput : string;
  booted : bool;
  series : list ChartPoint;
  chartTick : Z;
  suspend : bool;
  fetches : list Fetch;
  parses : list string;
  resuspends : nat;
  peer_calls : nat;
  rpc_calls : list string;
}.

Definition blank : OpsPage := MkOps None [] [] None 0 overview "" "" None "getblockchaininfo" "" false [] 0 false [] [] 0 0 [].

Definition set_data m a s p := MkOps m a (peerInfo p) (error p) (uptime p) (activeTab p) (filterQuery p) (rawMetricsText p) (lastUpdate p) (rpcCommand p) (rpcOutput p) (booted p) s (chartTick p) (suspend p) (fetches p) (parses p) (resuspends p) (peer_calls p) (rpc_calls p).
Definition setPeerInfo x p := MkOps (metrics p) (alerts p) x (error p) (uptime p) (activeTab p) (filterQuery p) (rawMetricsText p) (lastUpdate p) (rpcCommand p) (rpcOutput p) (booted p) (series p) (chartTick p) (suspend p) (fetches p) (parses p) (resuspends p) (peer_calls p) (rpc_calls p).
Definition setError x p := MkOps (metrics p) (alerts p) (peerInfo p) x (uptime p) (activeTab p) (filterQuery p) (rawMetricsText p) (lastUpdate p) (rpcCommand p) (rpcOutput p) (booted p) (series p) (chartTick p) (suspend p) (fetches p) (parses p) (resuspends p) (peer_calls p) (rpc_calls p).
Definition setUptime x p := MkOps (metrics p) (alerts p) (peerInfo p) (error p) x (activeTab p) (filterQuery p) (rawMetricsText p) (lastUpdate p) (rpcCommand p) (rpcOutput p) (booted p) (series p) (chartTick p) (suspend p) (fetches p) (parses p) (resuspends p) (peer_calls p) (rpc_calls p).
Definition set_tab x b p := MkOps (metrics p) (alerts p) (peerInfo p) (error p) (uptime p) x (filterQuery p) (rawMetricsText p) (lastUpdate p) (rpcCommand p) (rpcOutput p) (booted p) (series p) (chartTick p) b (fetches p) (parses p) (resuspends p) (peer_calls p) (rpc_calls p).
Definition setFilterQuery x p := MkOps (metrics p) (alerts p) (peerInfo p) (error p) (uptime p) (activeTab p) x (rawMetricsText p) (lastUpdate p) (rpcCommand p) (rpcOutput p) (booted p) (series p) (chartTick p) (suspend p) (fetches p) (parses p) (resuspends p) (peer_calls p) (rpc_calls p).
Definition set_raw x u p := MkOps (metrics p) (alerts p) (peerInfo p) (error p) (uptime p) (activeTab p) (filterQuery p) x u (rpcCommand p) (rpcOutput p) (booted p) (series p) (chartTick p) (suspend p) (fetches p) (parses p) (resuspends p) (peer_calls p) (rpc_calls p).
Definition set_rpc c o l p := MkOps (metrics p) (alerts p) (peerInfo p) (error p) (uptime p) (activeTab p) (filterQuery p) (rawMetricsText p) (lastUpdate p) c o (booted p) (series p) (chartTick p) (suspend p) (fetches p) (parses p) (resuspends p) (peer_calls p) l.
Definition setBooted p := MkOps (metrics p) (alerts p) (peerInfo p) (error p) (uptime p) (activeTab p) (filterQuery p) (rawMetricsText p) (lastUpdate p) (rpcCommand p) (rpcOutput p) true (series p) (chartTick p) (suspend p) (fetches p) (parses p) (resuspends p) (peer_calls p) (rpc_calls p).
Definition setChartTick x p := MkOps (metrics p) (alerts p) (peerInfo p) (error p) (uptime p) (activeTab p) (filterQuery p) (rawMetricsText p) (lastUpdate p) (rpcCommand p) (rpcOutput p) (booted p) (series p) x (suspend p) (fetches p) (parses p) (resuspends p) (peer_calls p) (rpc_calls p).
Definition set_work f q r c p := MkOps (metrics p) (alerts p) (peerInfo p) (error p) (uptime p) (activeTab p) (filterQuery p) (rawMetricsText p) (lastUpdate p) (rpcCommand p) (rpcOutput p) (booted p) (series p) (chartTick p) (suspend p) f q r c (rpc_calls p).

(** *** Loading *)

(** [loadMetrics]; the timer of [refreshForCharts] is set when it is done. *)
Definition loadMetrics (f : Fetch) (p : OpsPage) : OpsPage :=
  if suspend p then set_work (fetches p) (parses p) (if for_charts f then S (resuspends p) else resuspends p) (peer_calls p) p
  else set_work (fetches p ++ [f]) (parses p) (resuspends p) (peer_calls p) p.

Definition refreshForCharts (p : OpsPage) : OpsPage := loadMetrics (MkFetch false true) (set_tab (activeTab p) false p).

(** The text is there, or the request failed: the status of the reply is not looked at. *)
Definition fetch_ends (n : nat) (now : Z) (r : result string) (p : OpsPage) : OpsPage :=
  match fetches p !! n with
  | None => p
  | Some f =>
      let rs := if for_charts f then S (resuspends p) else resuspends p in
      match r with
      | Throw msg => setError (Some msg) (set_work (delete n (fetches p)) (parses p) rs (peer_calls p) p)
      | Ok rawMetrics =>
          if suspend p then set_work (delete n (fetches p)) (parses p) rs (peer_calls p) p
          else
            let p := set_raw (if includeRawText f then rawMetrics else rawMetricsText p) (Some now) p in
            set_work (delete n (fetches p)) (parses p ++ [rawMetrics]) rs (peer_calls p) p
      end
  end.

(** [arr.slice(-180)] *)
Definition take_metrics (rawMetrics : string) (now : Z) (p : OpsPage) : OpsPage :=
  let m := read_metrics (parsePrometheusMetrics rawMetrics) in
  setError None (set_data (Some m) (make_alerts m now) (slice_last 180 (series p ++ [point_of m now])) p).

(** The scheduled parsing. Its [activeTab] is that of the first rendering: no tick is counted. *)
Definition parse_runs (n : nat) (now : Z) (p : OpsPage) : OpsPage :=
  match parses p !! n with
  | None => p
  | Some rawMetrics =>
      let p := set_work (fetches p) (delete n (parses p)) (resuspends p) (peer_calls p) p in
      if suspend p then p else take_metrics rawMetrics now p
  end.

(** The timer of [refreshForCharts]. *)
Definition resuspend (p : OpsPage) : OpsPage :=
  match resuspends p with
  | O => p
  | S n => setChartTick (chartTick p + 1) (set_tab (activeTab p) true (set_work (fetches p) (parses p) n (peer_calls p) p))
  end.

Definition loadPeerInfo (p : OpsPage) : OpsPage :=
  if suspend p then p else set_work (fetches p) (parses p) (resuspends p) (S (peer_calls p)) p.

(** [getpeerinfo] ends; a failure is an empty list. *)
Definition peers_arrive (r : result (list json)) (p : OpsPage) : OpsPage :=
  match peer_calls p with
  | O => p
  | S n =>
      let p := set_work (fetches p) (parses p) (resuspends p) n p in
      if suspend p then p else setPeerInfo (match r with Ok l => l | Throw _ => [] end) p
  end.

(** *** Tabs *)

(** The effect on the tab: leaving Charts, a load at once; its polls are events. *)
Definition tab_effect (before : TabKey) (p : OpsPage) : OpsPage :=
  if booted p && negb (bool_decide (activeTab p = before)) && negb (bool_decide (activeTab p = charts)) then loadMetrics (MkFetch false false) p else p.

Definition open_tab (t : TabKey) (raw : bool) (p : OpsPage) : OpsPage :=
  tab_effect (activeTab p) (loadMetrics (MkFetch raw false) (set_tab t false p)).

Definition onOverview : OpsPage → OpsPage := open_tab overview false.
Definition onMetrics : OpsPage → OpsPage := open_tab metrics_tab true.
Definition onRpc : OpsPage → OpsPage := open_tab rpc_tab false.
Definition onNetwork (p : OpsPage) : OpsPage :=
  tab_effect (activeTab p) (loadPeerInfo (loadMetrics (MkFetch false false) (set_tab network_tab false p))).
Definition onCharts (p : OpsPage) : OpsPage := set_tab charts true p.

(** [if (!booted) return; if (activeTab === 'charts') return;] *)
Definition polling (p : OpsPage) : bool := booted p && negb (bool_decide (activeTab p = charts)).

(** *** What is shown *)

Definition query (p : OpsPage) : string := toLowerCase (trim (filterQuery p)).

Definition filteredAlerts (p : OpsPage) : list Alert :=
  if str_eqb (query p) "" then alerts p
  else js_filter (λ a, includes (query p) (toLowerCase (message a)) || includes (query p) (toLowerCase (alert_id a)) ||
    includes (query p) (toLowerCase (level_name (level a)))) (alerts p).

(** [p?.addr ? String(p.addr) : ''] *)
Definition filteredPeers (p : OpsPage) : list json :=
  if str_eqb (query p) "" then peerInfo p
  else js_filter (λ x, includes (query p) (toLowerCase (text_or_empty (field "addr" x)))) (peerInfo p).

Definition node_status (p : OpsPage) : string :=
  match error p with Some e => if str_eqb e "" then "Healthy" else "Offline" | None => "Healthy" end.

Definition uptime_parts (seconds : Z) : Z * Z * Z := (seconds / 3600, seconds mod 3600 / 60, seconds mod 60).
Definition formatUptime (seconds : Z) : string :=
  let '(h, m, s) := uptime_parts seconds in pretty h +:+ "h " +:+ pretty m +:+ "m " +:+ pretty s +:+ "s".

(** *** Events *)

Inductive event :=
  | Boot | Poll | Second | Open (t : TabKey) | Refresh | FetchLatest | Filter (q : string) | TypeCommand (c : string) | ExecuteRpc
  | FetchEnds (n : nat) (now : Z) (r : result string) | ParseRuns (n : nat) (now : Z) | Resuspend
  | PeersArrive (r : result (list json)) | RpcEnds (n : nat) (shown : string).

Definition exec (ev : event) (p : OpsPage) : OpsPage :=
  match ev with
  | Boot => if booted p then p else let p := setBooted p in if polling p then loadMetrics (MkFetch false false) p else p
  | Poll => if polling p then loadMetrics (MkFetch false false) p else p
  | Second => if polling p then setUptime (uptime p + 1) p else p
  | Open overview => onOverview p
  | Open metrics_tab => onMetrics p
  | Open rpc_tab => onRpc p
  | Open network_tab => onNetwork p
  | Open charts => onCharts p
  | Refresh => if bool_decide (activeTab p = overview) then loadMetrics (MkFetch false false) p else p
  | FetchLatest => if bool_decide (activeTab p = charts) then refreshForCharts p else p
  | Filter q => setFilterQuery q p
  | TypeCommand c => set_rpc c (rpcOutput p) (rpc_calls p) p
  | ExecuteRpc => set_rpc (rpcCommand p) (rpcOutput p) (rpc_calls p ++ [rpcCommand p]) p
  | FetchEnds n now r => fetch_ends n now r p
  | ParseRuns n now => parse_runs n now p
  | Resuspend => resuspend p
  | PeersArrive r => peers_arrive r p
  | RpcEnds n shown => match rpc_calls p !! n with Some _ => set_rpc (rpcCommand p) shown (delete n (rpc_calls p)) p | None => p end
  end.
Definition run (evs : list event) (p : OpsPage) : OpsPage := foldl (flip exec) p evs.

(** * Theorems *)

(** ** The text of the metrics *)

(** A metric: the name, labels between braces or none, the digits and dots of its value and what follows them. *)
Record Line := MkLine { l_name : string; l_labels : option string; l_value : string; l_rest : string }.

(** The lines of a text: metrics, and comments, empty lines and whatever else does not begin like one. *)
Inductive text_line := Metric (l : Line) | Other (s : string).

Definition metric_text (l : Line) : string :=
  l_name l +:+ match l_labels l with Some t => "{" +:+ t +:+ "}" | None => "" end +:+ " " +:+ (l_value l +:+ l_rest l).
Definition line_text (l : text_line) : string := match l with Metric l => metric_text l | Other s => s end.
Definition metrics_text (l : list text_line) : string := join (String newline_char "") (line_text <$> l).

Definition one_line (s : string) : Prop := str_all (not_char newline_char) s = true.

Definition plain_metric (l : Line) : Prop :=
  startsWith "kubercoin_" (l_name l) = true ∧ str_all is_word (l_name l) = true ∧
  match l_labels l with Some t => str_all (not_char "}") t = true ∧ one_line t | None => True end ∧
  l_value l ≠ "" ∧ str_all (λ c, is_digit c || Ascii.eqb c ".") (l_value l) = true ∧
  match l_rest l with String c _ => is_digit c = false ∧ c ≠ "."%char | EmptyString => True end ∧ one_line (l_rest l).
Definition plain_line (l : text_line) : Prop :=
  match l with Metric l => plain_metric l | Other s => startsWith "kubercoin_" s = false ∧ one_line s end.

(** The value that the last of the lines gives to [k]. *)
Fixpoint last_value (k : string) (ls : list text_line) (v : option num) : option num :=
  match ls with
  | [] => v
  | Metric l :: ls => last_value k ls (if decide (l_name l = k) then Some (parseFloat (l_value l)) else v)
  | Other _ :: ls => last_value k ls v
  end.

Lemma span_stop q s t : str_all q s = true → match t with String c _ => q c = false | EmptyString => True end → span q (s +:+ t) = (s, t).
Proof.
  intros Hs Ht. destruct t as [|d t]; [|by apply span_app]. rewrite str_app_nil_r. induction s as [|c s IH]; [done|].
  apply all_cons in Hs as [Hc Hs]. cbn [span]. by rewrite Hc, (IH Hs).
Qed.

Lemma value_char_spec c : value_char c = is_digit c || Ascii.eqb c ".".
Proof. by destruct c as [[] [] [] [] [] [] [] []]. Qed.

Lemma line_read l : plain_metric l → metric_line (metric_text l) = Some (l_name l, l_value l).
Proof.
  intros (Hp & Hw & Hl & Hne & Hv & Hr & _). unfold metric_line, metric_text.
  assert (str_all value_char (l_value l) = true) as Hv' by (revert Hv; apply str_all_impl; intros c; by rewrite value_char_spec).
  assert (l_name l ≠ "") as Hn by (intros E; by rewrite E in Hp).
  assert (span value_char (l_value l +:+ l_rest l) = (l_value l, l_rest l)) as Hs1.
  { apply span_stop; [done|]. destruct (l_rest l) as [|c r]; [done|]. destruct Hr as [Hd Hc]. rewrite value_char_spec, Hd. cbn. by apply Ascii.eqb_neq. }
  assert (span is_space (" " +:+ (l_value l +:+ l_rest l)) = (" ", l_value l +:+ l_rest l)) as Hs2.
  { apply (span_stop is_space " "); [done|]. destruct (l_value l) as [|c v]; [done|]. apply all_cons in Hv' as [Hc _].
    revert Hc. by destruct c as [[] [] [] [] [] [] [] []]. }
  destruct (l_labels l) as [t|].
  - destruct Hl as [Hb _]. rewrite (span_stop is_word) by done.
    change (("{" +:+ t +:+ "}") +:+ " " +:+ (l_value l +:+ l_rest l)) with (String "{" ((t +:+ "}") +:+ " " +:+ (l_value l +:+ l_rest l))). unfold after_braces.
    rewrite str_app_assoc, (span_stop (not_char "}")) by done. cbn [snd].
    change ("}" +:+ " " +:+ (l_value l +:+ l_rest l)) with (String "}" (" " +:+ (l_value l +:+ l_rest l))). cbv beta iota. rewrite Hs2, Hs1.
    cbn [fst]. by rewrite (proj2 (str_eqb_false _ _) Hn), (proj2 (str_eqb_false _ _) Hne).
  - rewrite (span_stop is_word) by done. change ("" +:+ " " +:+ (l_value l +:+ l_rest l)) with (" " +:+ (l_value l +:+ l_rest l)).
    change (after_braces (" " +:+ (l_value l +:+ l_rest l))) with (Some (" " +:+ (l_value l +:+ l_rest l))). cbv beta iota. rewrite Hs2, Hs1.
    cbn [fst]. by rewrite (proj2 (str_eqb_false _ _) Hn), (proj2 (str_eqb_false _ _) Hne).
Qed.

Lemma startsWith_more q s t : startsWith q s = true → startsWith q (s +:+ t) = true.
Proof.
  revert s. induction q as [|c q IH]; intros [|d s]; try done. change (String d s +:+ t) with (String d (s +:+ t)). cbn [startsWith].
  intros [-> H]%andb_true_iff. cbn. by apply IH.
Qed.

Lemma line_no_newline l : plain_line l → one_line (line_text l).
Proof.
  destruct l as [l|s]; [|by intros [_ ?]]. intros (_ & Hw & Hl & _ & Hv & _ & Hr). unfold one_line, line_text, metric_text in *. rewrite !str_all_app, Hr.
  rewrite (str_all_impl is_word (not_char newline_char) (l_name l)); [|intros c; by destruct c as [[] [] [] [] [] [] [] []]|done].
  assert (str_all (not_char newline_char) (l_value l) = true) as -> by (revert Hv; apply str_all_impl; intros c; by destruct c as [[] [] [] [] [] [] [] []]).
  destruct (l_labels l) as [t|]; [|done]. destruct Hl as [_ Ht]. by rewrite !str_all_app, Ht.
Qed.

Lemma parse_lines ls m k : Forall plain_line ls → map_get k (foldl parse_line m (line_text <$> ls)) = last_value k ls (map_get k m).
Proof.
  intros H. revert m. induction H as [|l ls Hl _ IH]; intros m; csimpl; [done|]. rewrite IH. destruct l as [l|s]; cbn [line_text last_value].
  - assert (parse_line m (metric_text l) = map_set (l_name l) (parseFloat (l_value l)) m) as ->.
    { unfold parse_line. rewrite (line_read l Hl). unfold metric_text at 1. by rewrite startsWith_more by apply Hl. }
    f_equal. case_decide as E; [subst; apply map_get_set_eq|by apply map_get_set_ne].
  - destruct Hl as [Hs _]. unfold parse_line. by rewrite Hs.
Qed.

(** C36: Of a text of metrics whose names begin with kubercoin_, with or without labels, among comments and empty lines, each name is read with the number
    that the digits and dots of its last line stand for; what follows them on the line, an exponent or a time, is left
    out, and a name that has no line is not there. *)
Theorem metrics_read_back ls k : Forall plain_line ls → map_get k (parsePrometheusMetrics (metrics_text ls)) = last_value k ls None.
Proof.
  intros Hl. unfold parsePrometheusMetrics, metrics_text. destruct ls as [|l ls]; [done|]. rewrite split_join.
  - by apply (parse_lines (l :: ls) []).
  - done.
  - apply Forall_fmap. eapply Forall_impl; [exact Hl|]. intros x. apply line_no_newline.
Qed.

(** ** What the dashboard shows *)

(** The alerts and the last point of the charts are those of the metrics that are shown, and the charts are bounded. *)
Definition in_step (p : OpsPage) : Prop :=
  match metrics p with
  | None => alerts p = [] ∧ series p = []
  | Some m => ∃ now before, alerts p = make_alerts m now ∧ series p = before ++ [point_of m now] ∧ (length before < 180)%nat
  end.

(** Changes that leave the metrics alone. *)
Definition neutral (f : OpsPage → OpsPage) : Prop := ∀ p, metrics (f p) = metrics p ∧ alerts (f p) = alerts p ∧ series (f p) = series p.

Lemma ops_neutral_step f p : neutral f → in_step p → in_step (f p).
Proof. intros Hf. unfold in_step. by destruct (Hf p) as (-> & -> & ->). Qed.

Lemma ops_neutral_comp f g : neutral f → neutral g → neutral (λ p, f (g p)).
Proof. intros Hf Hg p. destruct (Hf (g p)) as (-> & -> & ->). apply Hg. Qed.

Lemma neutral_load f : neutral (loadMetrics f).
Proof. intros p. unfold loadMetrics. by destruct (suspend p). Qed.
Lemma neutral_open t raw : neutral (open_tab t raw).
Proof. intros p. unfold open_tab, tab_effect, loadMetrics. cbn. by repeat case_match. Qed.
Lemma neutral_network : neutral onNetwork.
Proof. intros p. unfold onNetwork, tab_effect, loadPeerInfo, loadMetrics. cbn. by repeat case_match. Qed.

(** Everything but the parsing of a text leaves the metrics alone. *)
Lemma exec_neutral ev : (∀ n now, ev ≠ ParseRuns n now) → neutral (exec ev).
Proof.
  intros Hev p. destruct ev; cbn [exec]; try done.
  - destruct (booted p); [done|]. cbv zeta. case_match; [|done]. apply (ops_neutral_comp (loadMetrics (MkFetch false false)) setBooted); [apply neutral_load|done].
  - case_match; [apply neutral_load|done].
  - by case_match.
  - destruct t; [apply neutral_open..|apply neutral_network|done].
  - case_match; [apply neutral_load|done].
  - case_match; [|done]. by unfold refreshForCharts, loadMetrics; cbn.
  - unfold fetch_ends. destruct (fetches p !! n); [|done]. destruct r; [|done]. by destruct (suspend p).
  - by destruct (Hev n now).
  - unfold resuspend. by destruct (resuspends p).
  - unfold peers_arrive. destruct (peer_calls p); [done|]. cbv zeta. by destruct (suspend _).
  - by destruct (rpc_calls p !! n).
Qed.

Lemma parse_step n now p : in_step p → in_step (parse_runs n now p).
Proof.
  intros H. unfold parse_runs. destruct (parses p !! n) as [t|]; [|done]. cbv zeta. destruct (suspend _); [exact H|].
  unfold take_metrics, in_step. cbn. set (m := read_metrics _). set (l := series p). exists now, (drop (length l + 1 - 180) l). split; [done|].
  unfold slice_last. rewrite length_app. cbn [length]. rewrite drop_app_le by lia. split; [done|]. rewrite length_drop. lia.
Qed.

(** Whatever happens and in whatever order requests, parsing and timers end: the alerts are those of the metrics shown,
    the charts end with them and have at most 180 points, and with many RPC errors that alert stands alone. *)
Theorem alerts_match_metrics evs : let p := run evs blank in
  in_step p ∧ (length (series p) <= 180)%nat ∧
  (∀ m, metrics p = Some m → SFleb (of_Z 100) (rpcErrorsTotal m) = true → alert_id <$> alerts p = ["rpc-errors"]).
Proof.
  assert (in_step (run evs blank)) as H.
  { unfold run. cut (∀ p, in_step p → in_step (foldl (flip exec) p evs)); [intros H; by apply H|].
    induction evs as [|ev evs IH]; intros p Hp; [done|]. apply IH. cbn. destruct ev; try (apply (ops_neutral_step (exec _)); [by apply exec_neutral|done]).
    by apply parse_step. }
  cbv zeta. split; [exact H|]. unfold in_step in H. destruct (metrics (run evs blank)) as [m|].
  - destruct H as (now & before & Ha & Hs & Hb). rewrite Hs, length_app. split; [cbn; lia|]. intros m' [= <-] He. rewrite Ha.
    unfold make_alerts. by rewrite He.
  - destruct H as [_ ->]. by split; [cbn; lia|].
Qed.

(** ** The Charts tab *)

(** A click that starts work again. *)
Definition wakes (ev : event) : bool := match ev with Open charts => false | Open _ | FetchLatest => true | _ => false end.

Definition same_data (p q : OpsPage) : Prop := metrics p = metrics q ∧ alerts p = alerts q ∧ series p = series q ∧ peerInfo p = peerInfo q ∧ lastUpdate p = lastUpdate q.

Lemma asleep_step ev p : suspend p = true → wakes ev = false → suspend (exec ev p) = true ∧ same_data (exec ev p) p.
Proof.
  intros Hs Hw. assert (∀ f q, suspend q = true → same_data q p → suspend (loadMetrics f q) = true ∧ same_data (loadMetrics f q) p) as Hl.
  { intros f q Hq Hd. unfold loadMetrics. by rewrite Hq. }
  assert (same_data p p) as Hp by done.
  destruct ev; cbn [exec]; cbn in Hw; try done.
  - destruct (booted p); [done|]. cbv zeta. case_match; [by apply Hl|done].
  - case_match; [by apply Hl|done].
  - by case_match.
  - by destruct t.
  - case_match; [by apply Hl|done].
  - unfold fetch_ends. destruct (fetches p !! n); [|done]. destruct r; [|done]. rewrite Hs. done.
  - unfold parse_runs. destruct (parses p !! n); [|done]. cbv zeta. cbn. by rewrite Hs.
  - unfold resuspend. by destruct (resuspends p).
  - unfold peers_arrive. destruct (peer_calls p); [done|]. cbv zeta. cbn. by rewrite Hs.
  - by destruct (rpc_calls p !! n).
Qed.

(** While work is suspended nothing that was under way, and no poll, changes the metrics, the alerts, the charts or the peers. *)
Theorem suspended_is_quiet evs p : suspend p = true → Forall (λ ev, wakes ev = false) evs → same_data (run evs p) p ∧ suspend (run evs p) = true.
Proof.
  intros Hs H. revert p Hs. unfold run. induction H as [|ev evs Hev _ IH]; intros p Hs; [done|]. cbn.
  destruct (asleep_step ev p Hs Hev) as [Hs1 (H1 & H2 & H3 & H4 & H5)]. destruct (IH _ Hs1) as [(G1 & G2 & G3 & G4 & G5) Hs2].
  split; [|done]. repeat split; etransitivity; eauto.
Qed.

(** A point that was asked for on the Charts tab suspends the work 150 ms after it came, also when the user has gone to
    another tab: that tab is polled and shows nothing new until the next click. *)
Theorem late_timer_stops_polling p now r t evs : activeTab p = charts → resuspends p = 0%nat → fetches p = [] → t ≠ charts →
  Forall (λ ev, wakes ev = false) evs →
  let q := run [FetchLatest; FetchEnds 0 now r; Open t; Resuspend] p in
  suspend q = true ∧ activeTab q = t ∧ same_data (run evs q) q.
Proof.
  intros Ht Hr Hf Hne Hev. cbv zeta. set (q := run _ p).
  assert (suspend q = true ∧ activeTab q = t) as [Hs Hq].
  { subst q. unfold run. cbn [foldl flip exec]. rewrite bool_decide_eq_true_2 by done. unfold refreshForCharts, loadMetrics. cbn [suspend set_tab].
    unfold fetch_ends. cbn. rewrite Hf. cbn.
    destruct r as [txt|msg]; cbn; destruct t; try done; unfold onOverview, onMetrics, onRpc, onNetwork, open_tab, tab_effect, loadPeerInfo, loadMetrics, resuspend; cbn;
      rewrite ?Ht, ?Hr; cbn; destruct (booted p); cbn; rewrite ?Hr; done. }
  split; [done|]. split; [done|]. by apply suspended_is_quiet.
Qed.

(** ** The time since the page was opened *)

Theorem uptime_is_exact n : 0 <= n → let '(h, m, s) := uptime_parts n in h * 3600 + m * 60 + s = n ∧ 0 <= h ∧ 0 <= m < 60 ∧ 0 <= s < 60.
Proof. intros Hn. unfold uptime_parts. Z.to_euclidean_division_equations. lia. Qed.

(** ** Examples *)

Definition demo_metric (k v : string) : text_line := Metric (MkLine k None v "").
Definition demo_lines : list text_line :=
  [Other "# TYPE kubercoin_peers gauge"; demo_metric "kubercoin_peers" "8"; Metric (MkLine "kubercoin_node_cpu_usage" (Some "core=1") "91.5" " 1700");
   demo_metric "kubercoin_rpc_errors_total" "3"; Other ""].
Definition demo_text : string := metrics_text demo_lines.
Definition demo_load : list event := [Boot; FetchEnds 0 0 (Ok demo_text); ParseRuns 0 1].

Example demo_alerts : (alert_id <$> alerts (run demo_load blank), node_status (run demo_load blank)) = (["cpu"], "Healthy").
Proof. vm_compute. reflexivity. Qed.

(** The page of an error is read as metrics that are all zero, of a healthy node. *)
Example error_page_is_healthy :
  let p := run [Boot; FetchEnds 0 0 (Ok "Internal Server Error"); ParseRuns 0 1] blank in
  (node_status p, to_fixed 0 ∘ blockHeight <$> metrics p, alert_id <$> alerts p) = ("Healthy", Some "0", ["peers"]).
Proof. vm_compute. reflexivity. Qed.

(** A value with an exponent is read up to it. *)
Example exponent_is_lost : parsePrometheusMetrics "kubercoin_storage_blockchain_size 1.5e12" = [("kubercoin_storage_blockchain_size", lit 15 1)].
Proof. vm_compute. reflexivity. Qed.

(** A point that is parsed more than 150 ms after its text came is dropped. *)
Example slow_parse_is_dropped :
  let p := run (demo_load ++ [Open charts; FetchLatest; FetchEnds 0 2 (Ok demo_text); Resuspend; ParseRuns 0 3]) blank in
  (length (series p), lastUpdate p) = (1%nat, Some 2).
Proof. vm_compute. reflexivity. Qed.

Lemma metrics_read_back_witness :
  map_get "kubercoin_node_cpu_usage" (parsePrometheusMetrics demo_text) = Some (lit 915 1) ∧ map_get "kubercoin_mempool_size" (parsePrometheusMetrics demo_text) = None.
Proof.
  assert (Forall plain_line demo_lines) as H by (repeat constructor; discriminate).
  split; (etransitivity; [by apply metrics_read_back|vm_compute; reflexivity]).
Defined.

Lemma late_timer_stops_polling_witness : let p := run (demo_load ++ [Open charts]) blank in
  let q := run [FetchLatest; FetchEnds 0 2 (Ok demo_text); Open overview; Resuspend] p in
  suspend q = true ∧ activeTab q = overview ∧ same_data (run [Poll; Poll; ParseRuns 0 3] q) q.
Proof. apply late_timer_stops_polling; [vm_compute; reflexivity..|discriminate|repeat constructor]. Defined.
