(* ===== verification/ClientPages.v ===== *)
(** * The explorer and the wallet client (apps/web/explorer/app/components/ExplorerClient.tsx and
      apps/web/wallet/app/components/WalletClient.tsx)

    Pages that ask the node and the wallet server themselves. A handler that waits is kept as the stage it has reached;
    a reply moves it on. Module [Explorer]: the latest blocks, the search and the details of a block. Module
    [Client]: the wallets of the server, their balances and histories, sending and creating. The explorer's socket
    is in [ExplorerSocket]. *)

From Stdlib Require Import Ascii String.
From stdpp Require Import pretty.
From S2P Require Import Prelude JsMap JsNumber JsString Json OpsDashboard.
From S2P Require WalletRpc Validation.

(** [a || b || ... || d] *)
Fixpoint first_truthy (l : list (option json)) (d : json) : json :=
  match l with [] => d | Some j :: l => if truthy_json j then j else first_truthy l d | None :: l => first_truthy l d end.

(** [x?.length] *)
Definition length_of (o : option json) : option json :=
  match o with
  | Some (JArr l) => Some (JNum (of_Z (Z.of_nat (length l))))
  | Some (JStr s) => Some (JNum (of_Z (Z.of_nat (String.length s))))
  | Some j => field "length" j
  | None => None
  end.

(** [err?.message || fallback] *)
Definition message_or (msg fallback : string) : string := if str_eqb msg "" then fallback else msg.

Lemma sorted_below_length (n : nat) js : StronglySorted Z.lt js → Forall (λ j, 0 <= j < Z.of_nat n) js → (length js <= n)%nat.
Proof.
  intros Hs Hb. assert (length (seqZ 0 (Z.of_nat n)) = n) as <- by (rewrite length_seqZ; lia). apply submseteq_length, NoDup_submseteq.
  - clear Hb. induction Hs as [|x l _ IH Hx]; constructor; [|done]. rewrite Forall_forall in Hx. intros Hin%Hx. lia.
  - rewrite Forall_forall in Hb. intros j Hj%Hb. apply elem_of_seqZ. lia.
Qed.

Module Explorer.
Section Host.
(** [JSON.stringify(x, null, 2)]; undefined has no text. *)
Context (JSON_indented : option json → string).

Record BlockData := MkBlock { hash : json; height : num; timestamp : option json; transactions : json }.

(** How far a load has come: at the block of index [i] below [h], with the blocks [bs]. *)
Inductive load_stage :=
  | AskHeight | AskMempool (h : num) | AskHash (h : num) (i : Z) (bs : list BlockData)
  | AskBlock (h : num) (i : Z) (bs : list BlockData) (blockHash : option json).

Inductive search_stage := AskHashAt (query : string) | AskBlockAt (blockHash : option json) | AskBlockOf (query : string) | AskTransaction (query : string).

(** What each stage asks the node for: the method and the parameters; undefined is sent as null. *)
Definition load_request (st : load_stage) : string * list json :=
  match st with
  | AskHeight => ("getblockcount", [])
  | AskMempool _ => ("getmempoolinfo", [])
  | AskHash h i _ => ("getblockhash", [JNum (nsub h (of_Z i))])
  | AskBlock _ _ _ blockHash => ("getblock", [WalletRpc.in_array blockHash])
  end.

Definition search_request (st : search_stage) : string * list json :=
  match st with
  | AskHashAt query => ("getblockhash", [match Validation.parseInt query with Some z => JNum (of_Z z) | None => JNull end])
  | AskBlockAt blockHash => ("getblock", [WalletRpc.in_array blockHash])
  | AskBlockOf query => ("getblock", [JStr query])
  | AskTransaction query => ("gettransaction", [JStr query])
  end.

Record Data := MkData { blockHeight : option (option json); mempool : option (option json); latestBlocks : list BlockData; loadingData : bool; loads : list load_stage }.
Record Search := MkSearch { searchQuery : string; searchResult : option (string * option json); loading : bool; searches : list search_stage; pushed : list string }.

(** [asked]: the details that were asked for and have not come. *)
Record Details := MkDetails {
  detailsOpen : bool; detailsTitle : string; detailsText : string; detailsLoading : bool; detailsError : option string;
  detailsData : option (option json); detailsBlockHash : json; detailsBlockHeight : option num; asked : list json }.

Record ExplorerPage := MkExplorer {
  data : Data; search : Search; details : Details; error : option string;
  subsOpen : bool; subBlocks : bool; subTransactions : bool; wsEpoch : Z }.

Definition blank : ExplorerPage :=
  MkExplorer (MkData None None [] false []) (MkSearch "" None false [] []) (MkDetails false "Details" "" false None None (JStr "") None []) None false true true 0.

Definition set_data d e p := MkExplorer d (search p) (details p) e (subsOpen p) (subBlocks p) (subTransactions p) (wsEpoch p).
Definition set_search s e p := MkExplorer (data p) s (details p) e (subsOpen p) (subBlocks p) (subTransactions p) (wsEpoch p).
Definition set_details d p := MkExplorer (data p) (search p) d (error p) (subsOpen p) (subBlocks p) (subTransactions p) (wsEpoch p).
Definition set_subs o b t n p := MkExplorer (data p) (search p) (details p) (error p) o b t n.

(** *** The latest blocks *)

(** A block that [getblock] gives; of null or nothing, reading a field throws. *)
Definition read_block (h : num) (i : Z) (r : result (option json)) : option BlockData :=
  match r with
  | Ok (Some JNull) | Ok None | Throw _ => None
  | Ok (Some j) =>
      let time := field "time" j in
      Some (MkBlock (first_truthy [field "hash" j; field "blockhash" j] (JStr "")) (nsub h (of_Z i))
        (if truthy time then time else field "timestamp" j)
        (first_truthy [length_of (field "tx" j); length_of (field "transactions" j)] (JNum nzero)))
  end.

(** What is left of the loop at [i]: the next request, or the list. *)
Definition next_block (h : num) (i : Z) (bs : list BlockData) : load_stage + list BlockData :=
  if (i <? 10) && SFleb nzero (nsub h (of_Z i)) then inl (AskHash h i bs) else inr bs.

Definition loadData (p : ExplorerPage) : ExplorerPage :=
  let d := data p in set_data (MkData (blockHeight d) (mempool d) (latestBlocks d) true (loads d ++ [AskHeight])) (error p) p.

Definition ended (n : nat) (p : ExplorerPage) (bs : list BlockData) (e : option string) : ExplorerPage :=
  let d := data p in set_data (MkData (blockHeight d) (mempool d) bs false (delete n (loads d))) e p.

Definition goes_on (n : nat) (p : ExplorerPage) (next : load_stage + list BlockData) : ExplorerPage :=
  let d := data p in
  match next with
  | inl s => set_data (MkData (blockHeight d) (mempool d) (latestBlocks d) (loadingData d) (<[n := s]> (loads d))) (error p) p
  | inr bs => ended n p bs None
  end.

(** The [n]-th load gets the reply to its request. *)
Definition load_reply (n : nat) (res : Response) (p : ExplorerPage) : ExplorerPage :=
  let d := data p in
  let r := rpcCall res in
  match loads d !! n with
  | None => p
  | Some AskHeight =>
      match r with
      | Ok j => goes_on n (set_data (MkData (Some j) (mempool d) (latestBlocks d) (loadingData d) (loads d)) (error p) p) (inl (AskMempool (Number j)))
      | Throw msg => ended n p (latestBlocks d) (Some msg)
      end
  | Some (AskMempool h) =>
      match r with
      | Ok j => goes_on n (set_data (MkData (blockHeight d) (Some j) (latestBlocks d) (loadingData d) (loads d)) (error p) p) (next_block h 0 [])
      | Throw msg => ended n p (latestBlocks d) (Some msg)
      end
  | Some (AskHash h i bs) =>
      match r with Ok blockHash => goes_on n p (inl (AskBlock h i bs blockHash)) | Throw _ => goes_on n p (next_block h (i + 1) bs) end
  | Some (AskBlock h i bs _) =>
      goes_on n p (next_block h (i + 1) (match read_block h i r with Some b => bs ++ [b] | None => bs end))
  end.

(** *** Details *)

Definition openBlockDetails (b : BlockData) (p : ExplorerPage) : ExplorerPage :=
  if negb (truthy_json (hash b)) then p
  else set_details (MkDetails true ("Block #" +:+ num_to_string (height b)) "" true None None (hash b) (Some (height b)) (asked (details p) ++ [hash b])) p.

Definition details_reply (n : nat) (res : Response) (p : ExplorerPage) : ExplorerPage :=
  let d := details p in
  match asked d !! n with
  | None => p
  | Some _ =>
      let rest := delete n (asked d) in
      match rpcCall res with
      | Ok j => set_details (MkDetails (detailsOpen d) (detailsTitle d) (JSON_indented j) false (detailsError d) (Some j) (detailsBlockHash d) (detailsBlockHeight d) rest) p
      | Throw msg => set_details (MkDetails (detailsOpen d) (detailsTitle d) "" false (Some (message_or msg "Failed to load block details")) (detailsData d) (detailsBlockHash d) (detailsBlockHeight d) rest) p
      end
  end.

Definition close_details (p : ExplorerPage) : ExplorerPage :=
  let d := details p in set_details (MkDetails false (detailsTitle d) "" false None None (JStr "") None (asked d)) p.

(** *** Search *)

Definition is_hex (c : ascii) : bool := is_digit c || in_range 97 102 c || in_range 65 70 c.

(** [/^\d+$/] and [/^[0-9a-f]{64}$/i] *)
Definition is_height (q : string) : bool := negb (str_eqb q "") && str_all is_digit q.
Definition is_hash (q : string) : bool := (Z.of_nat (String.length q) =? 64) && str_all is_hex q.

Definition search_ends (n : nat) (p : ExplorerPage) (result : option (string * option json)) (e : option string) (to : list string) : ExplorerPage :=
  let s := search p in set_search (MkSearch (searchQuery s) result false (delete n (searches s)) (pushed s ++ to)) e p.

Definition search_goes_on (n : nat) (p : ExplorerPage) (st : search_stage) : ExplorerPage :=
  let s := search p in set_search (MkSearch (searchQuery s) (searchResult s) (loading s) (<[n := st]> (searches s)) (pushed s)) (error p) p.

(** The form is not submitted while its button is disabled. *)
Definition handleSearch (p : ExplorerPage) : ExplorerPage :=
  let s := search p in
  let query := trim (searchQuery s) in
  if loading s || str_eqb query "" then p
  else if is_height query then set_search (MkSearch (searchQuery s) None true (searches s ++ [AskHashAt query]) (pushed s)) None p
  else if is_hash query then set_search (MkSearch (searchQuery s) None true (searches s ++ [AskBlockOf query]) (pushed s)) None p
  else set_search (MkSearch (searchQuery s) None false (searches s) (pushed s)) (Some "Invalid search query. Enter a block height, block hash, or transaction ID.") p.

(** [result?.hash || result?.blockhash] *)
Definition hash_of (r : option json) (d : json) : json := first_truthy [opt_field "hash" r; opt_field "blockhash" r] d.
Definition block_path (h : json) : string := "/block/" +:+ to_text h.

Definition search_reply (n : nat) (res : Response) (p : ExplorerPage) : ExplorerPage :=
  let s := search p in
  match searches s !! n, rpcCall res with
  | None, _ => p
  | Some (AskHashAt _), Ok r => search_goes_on n p (AskBlockAt r)
  | Some (AskBlockAt _), Ok r =>
      let h := hash_of r JNull in search_ends n p (searchResult s) (error p) (if truthy_json h then [block_path h] else [])
  | Some (AskBlockOf q), Ok r => search_ends n p (Some ("block", r)) (error p) [block_path (hash_of r (JStr q))]
  | Some (AskBlockOf q), Throw _ => search_goes_on n p (AskTransaction q)
  | Some (AskTransaction _), Ok r => search_ends n p (Some ("transaction", r)) (error p) []
  | Some _, Throw msg => search_ends n p (searchResult s) (Some (message_or msg "Not found")) []
  end.

(** *** Events *)

(** [Tick]: the interval or activity of the socket. *)
Inductive event :=
  | Tick | LoadReply (n : nat) (r : Response) | TypeQuery (q : string) | Submit | SearchReply (n : nat) (r : Response)
  | OpenDetails (b : BlockData) | DetailsReply (n : nat) (r : Response) | CloseDetails
  | ToggleSubs | Subscribe (blocks transactions : bool) | ApplySubs.

Definition exec (ev : event) (p : ExplorerPage) : ExplorerPage :=
  match ev with
  | Tick => loadData p
  | LoadReply n r => load_reply n r p
  | TypeQuery q => let s := search p in set_search (MkSearch q (searchResult s) (loading s) (searches s) (pushed s)) (error p) p
  | Submit => handleSearch p
  | SearchReply n r => search_reply n r p
  | OpenDetails b => openBlockDetails b p
  | DetailsReply n r => details_reply n r p
  | CloseDetails => close_details p
  | ToggleSubs => set_subs (negb (subsOpen p)) (subBlocks p) (subTransactions p) (wsEpoch p) p
  | Subscribe b t => set_subs (subsOpen p) b t (wsEpoch p) p
  | ApplySubs => set_subs false (subBlocks p) (subTransactions p) (wsEpoch p + 1) p
  end.
Definition run (evs : list event) (p : ExplorerPage) : ExplorerPage := foldl (flip exec) p evs.

(** *** Theorems *)

(** Blocks of a load: at different places below its height, the highest first. *)
Definition below (h : num) (i : Z) (bs : list BlockData) : Prop :=
  ∃ js, height <$> bs = (λ j, nsub h (of_Z j)) <$> js ∧ StronglySorted Z.lt js ∧ Forall (λ j, 0 <= j < i) js.

Definition stage_ok (s : load_stage) : Prop :=
  match s with
  | AskHash h i bs | AskBlock h i bs _ => 0 <= i < 10 ∧ below h i bs
  | _ => True
  end.

Definition data_ok (p : ExplorerPage) : Prop :=
  Forall stage_ok (loads (data p)) ∧ ∃ h, below h 10 (latestBlocks (data p)).

Lemma below_nil h i : below h i [].
Proof. exists []. by repeat constructor. Qed.

Lemma below_more h i k bs : i <= k → below h i bs → below h k bs.
Proof. intros Hik (js & H1 & H2 & H3). exists js. split; [done|]. split; [done|]. eapply Forall_impl; [exact H3|]. cbn. lia. Qed.

Lemma below_snoc h i bs b : 0 <= i → below h i bs → height b = nsub h (of_Z i) → below h (i + 1) (bs ++ [b]).
Proof.
  intros Hi (js & H1 & H2 & H3) Hb. exists (js ++ [i]). rewrite !fmap_app, H1. split; [csimpl; by rewrite Hb|]. split.
  - apply StronglySorted_app. split; [|split; [done|by repeat constructor]].
    intros x y Hx ->%list_elem_of_singleton. rewrite Forall_forall in H3. specialize (H3 x Hx). lia.
  - apply Forall_app. split; [eapply Forall_impl; [exact H3|]; cbn; lia|]. constructor; [lia|done].
Qed.

Definition next_ok (next : load_stage + list BlockData) : Prop :=
  match next with inl s => stage_ok s | inr bs => ∃ h, below h 10 bs end.

Lemma next_block_ok h i bs : 0 <= i <= 10 → below h i bs → next_ok (next_block h i bs).
Proof.
  intros Hi Hb. unfold next_block. destruct (_ && _) eqn:E; cbn; [split; [|done]|exists h; by apply (below_more h i); [lia|]].
  apply andb_true_iff in E as [E _]. lia.
Qed.

Lemma goes_on_ok n p next : data_ok p → next_ok next → data_ok (goes_on n p next).
Proof.
  intros [Hl Hb] Hn. destruct next as [s|bs]; split; cbn; [by apply Forall_insert|done|by apply Forall_delete|done].
Qed.

Lemma load_reply_ok n r p : data_ok p → data_ok (load_reply n r p).
Proof.
  intros H. pose proof H as [Hl Hb]. unfold load_reply. cbv zeta. destruct (loads (data p) !! n) as [st|] eqn:Hn; [|done].
  assert (∀ e, data_ok (ended n p (latestBlocks (data p)) e)) as He by (intros e; split; [by apply Forall_delete|done]).
  apply (Forall_lookup_1 _ _ _ _ Hl) in Hn. destruct st as [|h|h i bs|h i bs bh]; cbn in Hn.
  - destruct (rpcCall r); [|apply He]. by apply goes_on_ok.
  - destruct (rpcCall r); [|apply He]. apply goes_on_ok; [done|]. apply next_block_ok; [lia|apply below_nil].
  - destruct Hn as [Hi Hbs]. destruct (rpcCall r); apply goes_on_ok; try done. apply next_block_ok; [lia|]. apply (below_more h i); [lia|done].
  - destruct Hn as [Hi Hbs]. apply goes_on_ok; [done|]. apply next_block_ok; [lia|]. destruct (read_block h i (rpcCall r)) as [b|] eqn:Er.
    + apply below_snoc; [lia|done|]. unfold read_block in Er. repeat case_match; try done; by injection Er as <-.
    + apply (below_more h i); [lia|done].
Qed.

Lemma explorer_exec_ok ev p : data_ok p → data_ok (exec ev p).
Proof.
  intros H. destruct ev; cbn [exec]; try done.
  - destruct H as [Hl Hb]. split; [|done]. apply Forall_app. split; [done|]. by constructor.
  - by apply load_reply_ok.
  - unfold handleSearch. repeat case_match; done.
  - unfold search_reply. repeat case_match; done.
  - unfold openBlockDetails. by case_match.
  - unfold details_reply. repeat case_match; done.
Qed.

(** However the replies of any number of loads come, and whatever fails: the list has at most ten blocks, of one height
    and below, each place once and the highest first. *)
Theorem blocks_descend evs : ∃ h js, let l := latestBlocks (data (run evs blank)) in
  height <$> l = (λ j, nsub h (of_Z j)) <$> js ∧ StronglySorted Z.lt js ∧ Forall (λ j, 0 <= j < 10) js ∧ (length l <= 10)%nat.
Proof.
  assert (data_ok (run evs blank)) as [_ (h & js & H1 & H2 & H3)].
  { unfold run. cut (∀ p, data_ok p → data_ok (foldl (flip exec) p evs)); [intros H; apply H; split; [done|exists nzero; apply below_nil]|].
    induction evs as [|ev evs IH]; intros p Hp; [done|]. by apply IH, explorer_exec_ok. }
  exists h, js. split; [done|]. split; [done|]. split; [done|]. cbv zeta. rewrite <- (length_fmap height), H1, length_fmap.
  by apply (sorted_below_length 10).
Qed.

(** *** A load by itself *)

(** What a node gives of the block at height [k]: the reply to [getblock] for the hash that it gives for [k]. *)
Definition block_given (node : string → list json → Response) (k : num) : option json :=
  match rpcCall (node "getblockhash" [JNum k]) with
  | Ok blockHash =>
      match rpcCall (node "getblock" [WalletRpc.in_array blockHash]) with Ok (Some JNull) | Ok None | Throw _ => None | Ok (Some j) => Some j end
  | Throw _ => None
  end.

(** How the block [j] at height [k] is listed. *)
Definition listed (k : num) (j : json) : BlockData :=
  let or a b := if truthy a then a else b in
  MkBlock (default JNull (or (field "hash" j) (or (field "blockhash" j) (Some (JStr ""))))) k (or (field "time" j) (field "timestamp" j))
    (default JNull (or (length_of (field "tx" j)) (or (length_of (field "transactions" j)) (Some (JNum nzero))))).

Fixpoint take_while {A} (q : A → bool) (l : list A) : list A :=
  match l with [] => [] | x :: l => if q x then x :: take_while q l else [] end.

(** The [n] heights from [h - i] down that are not negative. *)
Definition heights (h : num) (i : Z) (n : nat) : list num := take_while (SFleb nzero) ((λ j, nsub h (of_Z j)) <$> seqZ i (Z.of_nat n)).

(** The blocks that the node gives of them. *)
Definition listed_blocks (node : string → list json → Response) (l : list num) : list BlockData :=
  omap (λ k, listed k <$> block_given node k) l.

Section Node.
(** A node that answers each request in one way while the load lasts. *)
Context (node : string → list json → Response).

Definition answer (st : load_stage) : Response := node (load_request st).1 (load_request st).2.

Fixpoint drive (fuel : nat) (p : ExplorerPage) : ExplorerPage :=
  match fuel, loads (data p) with
  | S fuel, st :: _ => drive fuel (load_reply 0 (answer st) p)
  | _, _ => p
  end.

Definition waiting (p : ExplorerPage) (st : load_stage) : ExplorerPage :=
  let d := data p in set_data (MkData (blockHeight d) (mempool d) (latestBlocks d) true [st]) (error p) p.

Lemma read_listed h i r : read_block h i r = listed (nsub h (of_Z i)) <$> match r with Ok (Some JNull) | Ok None | Throw _ => None | Ok (Some j) => Some j end.
Proof.
  destruct r as [[j|]|msg]; [|done..].
  assert (∀ j, first_truthy [field "hash" j; field "blockhash" j] (JStr "") =
    default JNull (if truthy (field "hash" j) then field "hash" j else if truthy (field "blockhash" j) then field "blockhash" j else Some (JStr ""))) as Hh.
  { intros j'. cbn. unfold truthy. by destruct (field "hash" j') as [a|]; [destruct (truthy_json a); [done|]|]; destruct (field "blockhash" j') as [b|]; try destruct (truthy_json b). }
  assert (∀ a b, first_truthy [a; b] (JNum nzero) = default JNull (if truthy a then a else if truthy b then b else Some (JNum nzero))) as Ht.
  { intros a b. cbn. unfold truthy. by destruct a as [a|]; [destruct (truthy_json a); [done|]|]; destruct b as [b|]; try destruct (truthy_json b). }
  destruct j; try done; unfold read_block, listed; cbv zeta; rewrite Hh, Ht; done.
Qed.

Lemma listed_cons k l : listed_blocks node (k :: l) =
  match block_given node k with Some j => listed k j :: listed_blocks node l | None => listed_blocks node l end.
Proof. unfold listed_blocks. csimpl. by destruct (block_given node k). Qed.

Lemma drive_blocks h n i bs p fuel : 0 <= i → i + Z.of_nat n = 10 → (2 * n <= fuel)%nat →
  drive fuel (goes_on 0 (waiting p AskHeight) (next_block h i bs)) = ended 0 (waiting p AskHeight) (bs ++ listed_blocks node (heights h i n)) None.
Proof.
  revert i bs fuel. induction n as [|n IH]; intros i bs fuel Hi Hn Hf.
  - unfold next_block. replace (i <? 10) with false by lia. cbn [andb goes_on]. unfold heights, listed_blocks. cbn. rewrite app_nil_r. by destruct fuel.
  - assert (heights h i (S n) = if SFleb nzero (nsub h (of_Z i)) then nsub h (of_Z i) :: heights h (i + 1) n else []) as ->.
    { unfold heights. rewrite seqZ_cons by lia. replace (Z.pred (Z.of_nat (S n))) with (Z.of_nat n) by lia. by replace (Z.succ i) with (i + 1) by lia. }
    unfold next_block. replace (i <? 10) with true by lia. cbn [andb]. destruct (SFleb nzero (nsub h (of_Z i))) eqn:E.
    2: { cbn [goes_on]. unfold listed_blocks. cbn. rewrite app_nil_r. by destruct fuel. }
    destruct fuel as [|[|fuel]]; try lia. set (k := nsub h (of_Z i)) in *.
    change (drive (S (S fuel)) (goes_on 0 (waiting p AskHeight) (inl (AskHash h i bs)))) with
      (drive (S fuel) (match rpcCall (node "getblockhash" [JNum k]) with Ok bh => goes_on 0 (waiting p AskHeight) (inl (AskBlock h i bs bh)) | Throw _ => goes_on 0 (waiting p AskHeight) (next_block h (i + 1) bs) end)).
    rewrite listed_cons. unfold block_given at 1. destruct (rpcCall (node "getblockhash" [JNum k])) as [bh|msg]; [|refine (IH (i + 1) bs (S fuel) _ _ _); lia].
    change (drive (S fuel) (goes_on 0 (waiting p AskHeight) (inl (AskBlock h i bs bh)))) with
      (drive fuel (goes_on 0 (waiting p AskHeight) (next_block h (i + 1) (match read_block h i (rpcCall (node "getblock" [WalletRpc.in_array bh])) with Some b => bs ++ [b] | None => bs end)))).
    rewrite IH by lia. rewrite read_listed. fold k. destruct (match rpcCall (node "getblock" [WalletRpc.in_array bh]) with Ok (Some JNull) | Ok None | Throw _ => None | Ok (Some j) => Some j end) as [j|]; [|done].
    cbn [fmap option_fmap option_map]. by rewrite <- app_assoc.
Qed.

(** C27: A load that is alone ends after at most 22 replies. When the node gives a height and its pool, the list has, for
    each of the ten heights from there down that are not negative, the block that the node gives for the hash that it
    gives for this height, under this height, the highest first; one that fails is left out and the next is asked for. *)
Theorem load_lists_blocks p hr mr : loads (data p) = [] →
  rpcCall (node "getblockcount" []) = Ok hr → rpcCall (node "getmempoolinfo" []) = Ok mr →
  let q := drive 22 (loadData p) in
  loads (data q) = [] ∧ loadingData (data q) = false ∧ error q = None ∧ blockHeight (data q) = Some hr ∧ mempool (data q) = Some mr ∧
  latestBlocks (data q) = listed_blocks node (heights (Number hr) 0 10).
Proof.
  intros Hl Hh Hm. cbv zeta. set (p1 := set_data (MkData (Some hr) (Some mr) (latestBlocks (data p)) true []) (error p) p).
  assert (drive 22 (loadData p) = drive 20 (goes_on 0 (waiting p1 AskHeight) (next_block (Number hr) 0 []))) as ->.
  { assert (∀ fuel q st, loads (data q) = [st] → drive (S fuel) q = drive fuel (load_reply 0 (answer st) q)) as Hd by (intros fuel q st E; cbn [drive]; by rewrite E).
    rewrite (Hd 21%nat _ AskHeight) by (unfold loadData; cbn; by rewrite Hl).
    assert (load_reply 0 (answer AskHeight) (loadData p) = set_data (MkData (Some hr) (mempool (data p)) (latestBlocks (data p)) true [AskMempool (Number hr)]) (error p) p) as ->.
    { unfold load_reply, answer, loadData. rewrite Hl. cbv [load_request fst snd]. by rewrite Hh. }
    rewrite (Hd 20%nat _ (AskMempool (Number hr))) by done. unfold load_reply, answer. cbv [load_request fst snd]. by rewrite Hm. }
  rewrite (drive_blocks _ 10) by (done || lia). done.
Qed.
End Node.

(** *** Searching *)

(** One search is under way at a time, and the button says so. *)
Theorem one_search_at_a_time evs : let s := search (run evs blank) in (length (searches s) <= 1)%nat ∧ (loading s = true ↔ searches s ≠ []).
Proof.
  set (ok := λ p : ExplorerPage, (length (searches (search p)) <= 1)%nat ∧ (loading (search p) = true ↔ searches (search p) ≠ [])).
  assert (ok (run evs blank)) as H; [|exact H].
  unfold run. cut (∀ p, ok p → ok (foldl (flip exec) p evs)); [intros H; apply H; by split; cbn; [lia|]|].
  induction evs as [|ev evs IH]; intros p Hp; [done|]. apply IH. clear IH. unfold flip. destruct ev; cbn [exec]; try done.
  - unfold load_reply, goes_on, ended. repeat case_match; done.
  - pose proof Hp as [Hlen Hld]. unfold handleSearch. cbv zeta. destruct (loading (search p)) eqn:El; cbn [orb]; [done|].
    destruct (searches (search p)) as [|st l] eqn:Es; [|destruct Hld as [_ Hld]; discriminate (Hld ltac:(done))].
    repeat case_match; (split; cbn; rewrite ?Es; cbn; [lia|]); naive_solver.
  - pose proof Hp as [Hlen Hld]. unfold search_reply, search_ends, search_goes_on. cbv zeta.
    destruct (searches (search p)) as [|st [|]] eqn:Es; try (cbn in Hlen; lia); [done|]. destruct n as [|n]; [|done]. cbn. destruct st; destruct (rpcCall r); split; cbn; rewrite ?Es; cbn; try lia; naive_solver.
  - unfold openBlockDetails. by case_match.
  - unfold details_reply. repeat case_match; done.
Qed.
End Host.

(** *** Examples *)

Definition demo_block (h : string) : BlockData := MkBlock (JStr h) (of_Z 7) None (JNum nzero).
Definition demo_indented (o : option json) : string := match o with Some j => to_text j | None => "" end.

(** The details of a block that was asked for before are shown under the title of the block that is open. *)
Example details_of_other_block :
  let d := details (run demo_indented [OpenDetails (demo_block "aa"); OpenDetails (demo_block "bb"); DetailsReply 0 (Body (JObj [("result", JStr "block aa")]))] blank) in
  (detailsBlockHash d, detailsText d, detailsLoading d) = (JStr "bb", "block aa", false).
Proof. vm_compute. reflexivity. Qed.

(** The first of two loads to end says that nothing is loading; a load that ends late brings back its height. *)
Example older_load_wins :
  let answer j := Body (JObj [("result", j)]) in
  let p := run demo_indented [Tick; Tick; LoadReply 1 (answer (JNum (of_Z 8))); LoadReply 0 (answer (JNum (of_Z 7))); LoadReply 1 (Status 500)] blank in
  (blockHeight (data p), loadingData (data p), length (loads (data p)), error p) = (Some (Some (JNum (of_Z 7))), false, 1%nat, Some "HTTP 500").
Proof. vm_compute. reflexivity. Qed.

(** The heights of a young chain, and of a longer one. *)
Example heights_stop_at_the_first : heights (of_Z 2) 0 10 = [of_Z 2; of_Z 1; of_Z 0] ∧ heights (of_Z 900000) 0 10 = of_Z <$> [900000; 899999; 899998; 899997; 899996; 899995; 899994; 899993; 899992; 899991].
Proof. split; vm_compute; reflexivity. Qed.

(** A node at height 2 that has lost the block at 1. *)
Definition demo_node (m : string) (ps : list json) : Response :=
  if str_eqb m "getblockhash" then Body (JObj [("result", JStr ("hash of " +:+ to_text (default JNull (head ps))))])
  else if str_eqb m "getblock" then (if str_eqb (to_text (default JNull (head ps))) "hash of 1" then Status 500 else Body (JObj [("result", JObj [("hash", default JNull (head ps))])]))
  else Body (JObj [("result", JNum (of_Z 2))]).

Lemma load_lists_blocks_witness :
  let q := drive demo_node 22 (loadData blank) in
  (λ b, (hash b, height b)) <$> latestBlocks (data q) = [(JStr "hash of 2", of_Z 2); (JStr "hash of 0", of_Z 0)] ∧ loads (data q) = [].
Proof.
  intros q. destruct (load_lists_blocks demo_node blank (Some (JNum (of_Z 2))) (Some (JNum (of_Z 2))) eq_refl eq_refl eq_refl) as (Hl & _ & _ & _ & _ & Hb).
  split; [|exact Hl]. unfold q. rewrite Hb. vm_compute. reflexivity.
Defined.
End Explorer.

(** ** The wallet client *)

Module Client.

(** *** Names and addresses *)

Definition is_dat (s : string) : bool := WalletRpc.endsWith ".dat" (toLowerCase s).

Definition normalizeWalletFile (name : string) : string :=
  let trimmed := trim name in
  if str_eqb trimmed "" then "" else if is_dat trimmed then trimmed else trimmed +:+ ".dat".

Definition displayWalletName (file : string) : string :=
  let trimmed := trim file in if is_dat trimmed then String.substring 0 (String.length trimmed - 4) trimmed else trimmed.

Definition is_alnum (c : ascii) : bool := is_lower c || is_upper c || is_digit c.

(** Letters and digits: the test for blanks before it adds nothing. *)
Definition isLikelyAddress (input : string) : bool :=
  let value := trim input in
  (5 <=? Z.of_nat (String.length value)) && negb (str_exists is_space value) && (negb (str_eqb value "") && str_all is_alnum value).

Record WalletEntry := MkEntry { file : string; display : string }.

Section Host.
(** [a.localeCompare(b) > 0] and [JSON.stringify]. *)
Context (collates_after : string → string → bool) (JSON_stringify : json → string).

(** The comparator of the list: test-wallet first. *)
Definition entry_gt (a b : WalletEntry) : bool :=
  if str_eqb (display a) "test-wallet" then false
  else if str_eqb (display b) "test-wallet" then true
  else collates_after (display a) (display b).

Definition entries (files : list string) : list WalletEntry := js_sort entry_gt ((λ f, MkEntry f (displayWalletName f)) <$> files).

(** [entries.find(...)?.file || entries[0]?.file || ''] *)
Definition preferred (es : list WalletEntry) : string :=
  let or (o : option WalletEntry) (d : string) := match o with Some e => if str_eqb (file e) "" then d else file e | None => d end in
  or (js_find (λ w, str_eqb (display w) "test-wallet") es) (or (head es) "").

(** *** State *)

Inductive Tab := tab_send | tab_history.
#[export] Instance Tab_eq_dec : EqDecision Tab.
Proof. solve_decision. Defined.

Record Order := MkOrder { o_from : string; o_to : string; o_amount : num }.

(** What the page waits for while its buttons are disabled: a sending, a new wallet, or the list after it. *)
Inductive task := TSend (o : Order) | TCreate (name selected : string) | TReload (selected : string) (created : option string).

Record Lists := MkLists {
  wallets : list WalletEntry; selectedWalletFile : string; walletInfo : option json; loadingBalance : bool;
  history : list json; headerQuery : string }.
Record Form := MkForm { sendTo : string; sendAmount : string; confirmOpen : bool; pendingSend : option (string * num) }.
Record Creating := MkCreating { createOpen : bool; createName : string; createdMnemonic : option string }.
Record Shown := MkShown { txid : option string; error : option string; success : option string }.

(** The loads under way, each for the wallet that was selected when it was asked for; [delayed]: the balances that are
    asked for a second after a sending. *)
Record Work := MkWork { wallet_loads : list string; balance_loads : list string; history_loads : list string; delayed : list string; tasks : list task; posted : list Order }.

Record ClientPage := MkClient {
  lists : Lists; form : Form; creating : Creating; shown : Shown; work : Work;
  activeTab : Tab; walletDropdownOpen : bool; settingsOpen : bool; loading : bool }.

Definition blank : ClientPage :=
  MkClient (MkLists [] "" None false [] "") (MkForm "" "1000" false None) (MkCreating false "" None) (MkShown None None None)
    (MkWork [""] [] [] [] [] []) tab_send false false false.

Definition set_lists x p := MkClient x (form p) (creating p) (shown p) (work p) (activeTab p) (walletDropdownOpen p) (settingsOpen p) (loading p).
Definition set_form x p := MkClient (lists p) x (creating p) (shown p) (work p) (activeTab p) (walletDropdownOpen p) (settingsOpen p) (loading p).
Definition set_creating x p := MkClient (lists p) (form p) x (shown p) (work p) (activeTab p) (walletDropdownOpen p) (settingsOpen p) (loading p).
Definition set_shown x p := MkClient (lists p) (form p) (creating p) x (work p) (activeTab p) (walletDropdownOpen p) (settingsOpen p) (loading p).
Definition set_work x p := MkClient (lists p) (form p) (creating p) (shown p) x (activeTab p) (walletDropdownOpen p) (settingsOpen p) (loading p).
Definition set_ui t d s p := MkClient (lists p) (form p) (creating p) (shown p) (work p) t d s (loading p).
Definition setLoading x p := MkClient (lists p) (form p) (creating p) (shown p) (work p) (activeTab p) (walletDropdownOpen p) (settingsOpen p) x.

Definition setError x p := set_shown (MkShown (txid (shown p)) x (success (shown p))) p.
Definition set_tasks t o p := let w := work p in set_work (MkWork (wallet_loads w) (balance_loads w) (history_loads w) (delayed w) t o) p.

(** *** Loading *)

Definition loadBalance (f : string) (p : ClientPage) : ClientPage :=
  if str_eqb f "" then p
  else
    let l := lists p in let w := work p in
    set_work (MkWork (wallet_loads w) (balance_loads w ++ [f]) (history_loads w) (delayed w) (tasks w) (posted w))
      (set_lists (MkLists (wallets l) (selectedWalletFile l) (walletInfo l) true (history l) (headerQuery l)) p).

Definition loadHistory (f : string) (p : ClientPage) : ClientPage :=
  if str_eqb f "" then p
  else let w := work p in set_work (MkWork (wallet_loads w) (balance_loads w) (history_loads w ++ [f]) (delayed w) (tasks w) (posted w)) p.

Definition loadWallets (f : string) (p : ClientPage) : ClientPage :=
  let w := work p in set_work (MkWork (wallet_loads w ++ [f]) (balance_loads w) (history_loads w) (delayed w) (tasks w) (posted w)) p.

(** [setSelectedWalletFile]; a change runs the effects that depend on it. *)
Definition select (f : string) (p : ClientPage) : ClientPage :=
  let l := lists p in
  if str_eqb f (selectedWalletFile l) then p
  else
    let p := set_lists (MkLists (wallets l) f (walletInfo l) (loadingBalance l) (history l) (headerQuery l)) p in
    let p := loadBalance f (loadWallets f p) in
    if bool_decide (activeTab p = tab_history) then loadHistory f p else p.

Definition setActiveTab (t : Tab) (p : ClientPage) : ClientPage :=
  let changed := negb (bool_decide (t = activeTab p)) in
  let p := set_ui t (walletDropdownOpen p) (settingsOpen p) p in
  if changed && bool_decide (t = tab_history) then loadHistory (selectedWalletFile (lists p)) p else p.

(** The list of a load that was asked for when [f] was selected. *)
Definition wallets_come (f : string) (r : result (list string)) (p : ClientPage) : ClientPage :=
  match r with
  | Throw msg => setError (Some msg) p
  | Ok files =>
      let es := entries files in
      let l := lists p in
      let p := set_lists (MkLists es (selectedWalletFile l) (walletInfo l) (loadingBalance l) (history l) (headerQuery l)) p in
      if str_eqb f "" then select (preferred es) p else p
  end.

Definition wallets_arrive (n : nat) (r : result (list string)) (p : ClientPage) : ClientPage :=
  let w := work p in
  match wallet_loads w !! n with
  | None => p
  | Some f => wallets_come f r (set_work (MkWork (delete n (wallet_loads w)) (balance_loads w) (history_loads w) (delayed w) (tasks w) (posted w)) p)
  end.

Definition balance_arrives (n : nat) (r : result json) (p : ClientPage) : ClientPage :=
  let w := work p in let l := lists p in
  match balance_loads w !! n with
  | None => p
  | Some _ =>
      let p := set_work (MkWork (wallet_loads w) (delete n (balance_loads w)) (history_loads w) (delayed w) (tasks w) (posted w)) p in
      match r with
      | Ok d => setError None (set_lists (MkLists (wallets l) (selectedWalletFile l) (Some d) false (history l) (headerQuery l)) p)
      | Throw msg => setError (Some msg) (set_lists (MkLists (wallets l) (selectedWalletFile l) (walletInfo l) false (history l) (headerQuery l)) p)
      end
  end.

(** A failure is an empty history. *)
Definition history_arrives (n : nat) (r : result (list json)) (p : ClientPage) : ClientPage :=
  let w := work p in let l := lists p in
  match history_loads w !! n with
  | None => p
  | Some _ =>
      set_lists (MkLists (wallets l) (selectedWalletFile l) (walletInfo l) (loadingBalance l) (match r with Ok h => h | Throw _ => [] end) (headerQuery l))
        (set_work (MkWork (wallet_loads w) (balance_loads w) (delete n (history_loads w)) (delayed w) (tasks w) (posted w)) p)
  end.

(** *** Sending *)

(** [Number.parseInt(sendAmount, 10)] *)
Definition amount_of (s : string) : num := match Validation.parseInt s with Some z => of_Z z | None => S754_nan end.

Definition handleSendClick (p : ClientPage) : ClientPage :=
  let f := form p in
  if str_eqb (selectedWalletFile (lists p)) "" then p
  else
    let to := trim (sendTo f) in
    let amount := amount_of (sendAmount f) in
    if str_eqb to "" then p
    else if negb (isLikelyAddress to) then setError (Some "Invalid address") p
    else if negb (is_finite amount) || SFleb amount nzero then setError (Some "Invalid amount") p
    else set_form (MkForm (sendTo f) (sendAmount f) true (Some (to, amount))) (setError None p).

Definition executeSend (p : ClientPage) : ClientPage :=
  let from := selectedWalletFile (lists p) in
  match pendingSend (form p) with
  | Some (to, amount) =>
      if str_eqb from "" then p
      else
        let o := MkOrder from to amount in
        set_tasks (tasks (work p) ++ [TSend o]) (posted (work p) ++ [o]) (set_shown (MkShown None None None) (setLoading true p))
  | None => p
  end.

(** *** Creating *)

Definition handleCreateWallet (p : ClientPage) : ClientPage :=
  let c := creating p in
  let name := trim (createName c) in
  if str_eqb name "" then setError (Some "Wallet name is required") p
  else
    set_tasks (tasks (work p) ++ [TCreate name (selectedWalletFile (lists p))]) (posted (work p))
      (set_creating (MkCreating (createOpen c) (createName c) None) (set_shown (MkShown (txid (shown p)) None None) (setLoading true p))).

(** How what the page waits for ends. [Refused]: a status that is not ok, with the reply's error or none. *)
Inductive outcome :=
  | Sent (txid : option string) | Created (mnemonic name : option string) | Listed (r : result (list string))
  | Refused (e : option string) | Lost (msg : string).

(** [data.error || fallback] *)
Definition error_or (e : option string) (fallback : string) : string :=
  match e with Some m => if str_eqb m "" then fallback else m | None => fallback end.

Definition finished (msg : option string) (p : ClientPage) : ClientPage :=
  setLoading false (match msg with Some m => setError (Some m) p | None => p end).

Definition task_ends (n : nat) (o : outcome) (p : ClientPage) : ClientPage :=
  let w := work p in
  match tasks w !! n with
  | None => p
  | Some t =>
      let p := set_tasks (delete n (tasks w)) (posted w) p in
      match t, o with
      | TSend q, Sent x =>
          let p := set_form (MkForm "" "1000" false None) (set_shown (MkShown x (error (shown p)) (Some "Transaction sent successfully")) p) in
          let w := work p in
          finished None (set_work (MkWork (wallet_loads w) (balance_loads w) (history_loads w) (delayed w ++ [o_from q]) (tasks w) (posted w)) p)
      | TSend _, Refused e => finished (Some (error_or e "Send failed")) p
      | TCreate _ sel, Created m name =>
          let c := creating p in
          let p := set_shown (MkShown (txid (shown p)) (error (shown p)) (Some "Wallet created")) (set_creating (MkCreating (createOpen c) (createName c) (match m with Some x => if str_eqb x "" then None else m | None => None end)) p) in
          set_tasks (tasks (work p) ++ [TReload sel name]) (posted (work p)) p
      | TCreate _ _, Refused e => finished (Some (error_or e "Create wallet failed")) p
      | TReload sel name, Listed r =>
          let p := wallets_come sel r p in
          finished None (match name with Some nm => if str_eqb nm "" then p else select (normalizeWalletFile nm) p | None => p end)
      | _, Lost msg => finished (Some msg) p
      | _, _ => finished None p
      end
  end.

(** *** What is shown *)

Definition selectedWalletDisplay (p : ClientPage) : string :=
  let l := lists p in
  if str_eqb (selectedWalletFile l) "" then ""
  else match js_find (λ w, str_eqb (file w) (selectedWalletFile l)) (wallets l) with
       | Some w => if str_eqb (display w) "" then displayWalletName (selectedWalletFile l) else display w
       | None => displayWalletName (selectedWalletFile l)
       end.

(** [(tx?.txid || JSON.stringify(tx)).toString()] *)
Definition tx_text (tx : json) : string := to_text (first_truthy [field "txid" tx] (JStr (JSON_stringify tx))).

Definition filteredHistory (p : ClientPage) : list json :=
  let q := toLowerCase (trim (headerQuery (lists p))) in
  if str_eqb q "" then history (lists p) else js_filter (λ tx, includes q (toLowerCase (tx_text tx))) (history (lists p)).

(** *** Events *)

Inductive event :=
  | WalletsArrive (n : nat) (r : result (list string)) | BalanceArrives (n : nat) (r : result json) | HistoryArrives (n : nat) (r : result (list json))
  | Interval | Delayed | PickWallet (f : string) | PickTab (t : Tab) | FilterHistory (q : string)
  | TypeSend (to amount : string) | Send | Confirm | CloseConfirm | OpenCreate (name : string) | TypeName (name : string) | Create | CloseCreate
  | TaskEnds (n : nat) (o : outcome).

Definition exec (ev : event) (p : ClientPage) : ClientPage :=
  match ev with
  | WalletsArrive n r => wallets_arrive n r p
  | BalanceArrives n r => balance_arrives n r p
  | HistoryArrives n r => history_arrives n r p
  | Interval => loadBalance (selectedWalletFile (lists p)) p
  | Delayed => let w := work p in
      match delayed w with
      | [] => p
      | f :: l => loadBalance f (set_work (MkWork (wallet_loads w) (balance_loads w) (history_loads w) l (tasks w) (posted w)) p)
      end
  | PickWallet f => set_shown (MkShown None None None) (select f (set_ui tab_send false false p))
  | PickTab t => setActiveTab t p
  | FilterHistory q => let l := lists p in set_lists (MkLists (wallets l) (selectedWalletFile l) (walletInfo l) (loadingBalance l) (history l) q) p
  | TypeSend to a => set_form (MkForm to a (confirmOpen (form p)) (pendingSend (form p))) p
  | Send => if loading p then p else handleSendClick p
  | Confirm => if loading p || negb (confirmOpen (form p)) then p else executeSend p
  | CloseConfirm => set_form (MkForm (sendTo (form p)) (sendAmount (form p)) false None) p
  | OpenCreate name => set_creating (MkCreating true name None) p
  | TypeName name => set_creating (MkCreating (createOpen (creating p)) name (createdMnemonic (creating p))) p
  | Create => if loading p || negb (createOpen (creating p)) then p else handleCreateWallet p
  | CloseCreate => set_creating (MkCreating false (createName (creating p)) None) p
  | TaskEnds n o => task_ends n o p
  end.
Definition run (evs : list event) (p : ClientPage) : ClientPage := foldl (flip exec) p evs.

(** *** What is sent was checked *)

Definition good (to : string) (a : num) : Prop := isLikelyAddress to = true ∧ is_finite a = true ∧ SFltb nzero a = true.

(** One task at a time, and what is to be confirmed and what was sent has passed the checks. *)
Record page_ok (p : ClientPage) : Prop := {
  ok_tasks : (length (tasks (work p)) <= 1)%nat ∧ (loading p = true ↔ tasks (work p) ≠ []);
  ok_pending : match pendingSend (form p) with Some (to, a) => good to a | None => True end;
  ok_posted : Forall (λ o, o_from o ≠ "" ∧ good (o_to o) (o_amount o)) (posted (work p));
}.

(** Changes that leave the tasks, what is to be confirmed and what was sent alone. *)
Definition neutral (f : ClientPage → ClientPage) : Prop := ∀ p,
  tasks (work (f p)) = tasks (work p) ∧ posted (work (f p)) = posted (work p) ∧ loading (f p) = loading p ∧
  pendingSend (form (f p)) = pendingSend (form p).

Lemma neutral_ok f p : neutral f → page_ok p → page_ok (f p).
Proof. intros Hf [H1 H2 H3]. destruct (Hf p) as (E1 & E2 & E3 & E4). constructor; by rewrite ?E1, ?E2, ?E3, ?E4. Qed.

Lemma neutral_comp f g : neutral f → neutral g → neutral (λ p, f (g p)).
Proof. intros Hf Hg p. destruct (Hf (g p)) as (-> & -> & -> & ->). apply Hg. Qed.

Lemma neutral_balance f : neutral (loadBalance f).
Proof. intros p. unfold loadBalance. by case_match. Qed.
Lemma neutral_history f : neutral (loadHistory f).
Proof. intros p. unfold loadHistory. by case_match. Qed.
Lemma neutral_select f : neutral (select f).
Proof. intros p. unfold select, loadBalance, loadHistory, loadWallets. cbn. by repeat case_match. Qed.
Lemma neutral_tab t : neutral (setActiveTab t).
Proof. intros p. unfold setActiveTab, loadHistory. cbn. by repeat case_match. Qed.
Lemma neutral_come f r : neutral (wallets_come f r).
Proof.
  intros p. unfold wallets_come. destruct r as [fs|]; [|done]. cbv zeta. case_match; [|done].
  match goal with |- context [select ?x ?q] => by destruct (neutral_select x q) as (-> & -> & -> & ->) end.
Qed.

Lemma alnum_solid c : is_alnum c = true → is_space c = false.
Proof. by destruct c as [[] [] [] [] [] [] [] []]. Qed.

Lemma send_ok p : page_ok p → page_ok (handleSendClick p).
Proof.
  intros H. unfold handleSendClick. cbv zeta. case_match; [done|]. case_match; [done|]. destruct (negb (isLikelyAddress _)) eqn:Ea.
  { by apply (neutral_ok (setError _)). }
  destruct (_ || _) eqn:En; [by apply (neutral_ok (setError _))|]. destruct H as [G1 G2 G3]. constructor; [exact G1| |exact G3]. cbn.
  apply orb_false_iff in En as [Ef En]. apply negb_false_iff in Ea, Ef. split; [done|]. split; [done|].
  by destruct (amount_of _) as [[]|[]| |[] m e].
Qed.

Lemma idle_tasks p : page_ok p → loading p = false → tasks (work p) = [].
Proof. intros [[_ H] _ _] E. destruct (tasks (work p)) as [|t l]; [done|]. destruct H as [_ H]. rewrite E in H. by discriminate (H ltac:(done)). Qed.

Lemma ends_ok n o p : page_ok p → page_ok (task_ends n o p).
Proof.
  intros H. pose proof H as [[Hlen Hld] Hp Hs]. unfold task_ends. cbv zeta. destruct (tasks (work p)) as [|t [|]] eqn:Et; try (cbn in Hlen; lia); [done|].
  destruct n as [|n]; [|done]. cbn [lookup list_lookup]. assert (loading p = true) as Hl by (by apply Hld).
  assert (∀ msg, page_ok (finished msg (set_tasks [] (posted (work p)) p))) as Hfin.
  { intros msg. constructor; [by destruct msg; (split; cbn; [lia|])|by destruct msg|by destruct msg]. }
  destruct t as [q|name sel|sel created].
  - destruct o; try apply Hfin. constructor; [by split; cbn; [lia|]|done|exact Hs].
  - destruct o; try apply Hfin. constructor; [|exact Hp|exact Hs]. split; cbn; [lia|]. by rewrite Hl.
  - destruct o as [| |r| |]; try apply Hfin. set (p1 := set_tasks (delete 0%nat [TReload sel created]) (posted (work p)) p).
    assert (∀ f, neutral f → page_ok (finished None (f p1))) as Hn.
    { intros f Hf. destruct (Hf p1) as (E1 & E2 & _ & E4). constructor; cbn; rewrite ?E1, ?E2, ?E4; [by split; cbn; [lia|]|exact Hp|exact Hs]. }
    destruct created as [nm|]; [destruct (str_eqb nm "")|]; try exact (Hn _ (neutral_come sel r)).
    exact (Hn _ (neutral_comp _ _ (neutral_select _) (neutral_come sel r))).
Qed.

Lemma client_exec_ok ev p : page_ok p → page_ok (exec ev p).
Proof.
  intros H. destruct ev; cbn [exec].
  - unfold wallets_arrive. cbv zeta. destruct (wallet_loads (work p) !! n) as [f|]; [|done].
    by apply (neutral_ok (wallets_come f r)); [apply neutral_come|apply (neutral_ok (λ p, set_work (MkWork (delete n (wallet_loads (work p))) (balance_loads (work p)) (history_loads (work p)) (delayed (work p)) (tasks (work p)) (posted (work p))) p))].
  - apply (neutral_ok (balance_arrives n r)); [|done]. intros q. unfold balance_arrives. cbv zeta. destruct (balance_loads (work q) !! n); [|done]. by destruct r.
  - apply (neutral_ok (history_arrives n r)); [|done]. intros q. unfold history_arrives. cbv zeta. by destruct (history_loads (work q) !! n).
  - by apply neutral_ok; [apply neutral_balance|].
  - destruct (delayed (work p)) as [|f l]; [done|].
    by apply (neutral_ok (loadBalance f)); [apply neutral_balance|apply (neutral_ok (λ p, set_work (MkWork (wallet_loads (work p)) (balance_loads (work p)) (history_loads (work p)) l (tasks (work p)) (posted (work p))) p))].
  - apply (neutral_ok (set_shown _)); [done|]. apply (neutral_ok (select f)); [apply neutral_select|]. by apply (neutral_ok (set_ui _ _ _)).
  - by apply neutral_ok; [apply neutral_tab|].
  - apply (neutral_ok (λ p, set_lists (MkLists (wallets (lists p)) (selectedWalletFile (lists p)) (walletInfo (lists p)) (loadingBalance (lists p)) (history (lists p)) q) p)); done.
  - apply (neutral_ok (λ p, set_form (MkForm to amount (confirmOpen (form p)) (pendingSend (form p))) p)); done.
  - case_match; [done|by apply send_ok].
  - destruct (_ || _) eqn:E; [done|]. apply orb_false_iff in E as [El _]. pose proof (idle_tasks p H El) as Et. unfold executeSend. cbv zeta.
    destruct H as [H1 H2 H3]. destruct (pendingSend (form p)) as [[to a]|] eqn:Ep; [|constructor; by rewrite ?Ep].
    destruct (str_eqb _ "") eqn:Ef; [constructor; by rewrite ?Ep|]. apply str_eqb_false in Ef. constructor; cbn; [by rewrite Et; split; cbn; [lia|]|by rewrite Ep|].
    apply Forall_app. split; [done|]. by constructor.
  - destruct H as [H1 H2 H3]. by constructor.
  - by apply (neutral_ok (set_creating _)).
  - by apply (neutral_ok (λ p, set_creating (MkCreating (createOpen (creating p)) name (createdMnemonic (creating p))) p)).
  - destruct (_ || _) eqn:E; [done|]. apply orb_false_iff in E as [El _]. pose proof (idle_tasks p H El) as Et. unfold handleCreateWallet. cbv zeta.
    case_match; [by apply (neutral_ok (setError _))|]. destruct H as [G1 G2 G3]. constructor; [|exact G2|exact G3]. cbn. rewrite Et. by split; cbn; [lia|].
  - by apply (neutral_ok (λ p, set_creating (MkCreating false (createName (creating p)) None) p)).
  - by apply ends_ok.
Qed.

(** C29: Whatever is clicked and typed, and in whatever order the replies come: the server is asked to send only from a wallet,
    to an address of letters and digits and a positive finite amount, and for one thing at a time. *)
Theorem posted_was_checked evs : let p := run evs blank in
  Forall (λ o, o_from o ≠ "" ∧ isLikelyAddress (o_to o) = true ∧ is_finite (o_amount o) = true ∧ SFltb nzero (o_amount o) = true) (posted (work p)) ∧
  (length (tasks (work p)) <= 1)%nat ∧ (loading p = true ↔ tasks (work p) ≠ []).
Proof.
  assert (page_ok (run evs blank)) as [H1 _ H3]; [|by split].
  unfold run. cut (∀ p, page_ok p → page_ok (foldl (flip exec) p evs)); [intros H; apply H; constructor; [by split; cbn; [lia|]|done..]|].
  induction evs as [|ev evs IH]; intros p Hp; [done|]. by apply IH, client_exec_ok.
Qed.
End Host.

(** *** Names of files *)

(** C34: The page and the server give a wallet the same file, unless its name ends in .json: the server keeps that name and
    the page asks for another. *)
Theorem names_agree name : normalizeWalletFile name =
  if WalletRpc.endsWith ".json" (toLowerCase (trim name)) then trim name +:+ ".dat" else WalletRpc.normalizeWalletName name.
Proof.
  unfold normalizeWalletFile, WalletRpc.normalizeWalletName, is_dat. cbv zeta. destruct (str_eqb (trim name) "") eqn:Et.
  { apply str_eqb_true in Et. by rewrite Et. }
  destruct (WalletRpc.endsWith ".json" (toLowerCase (trim name))) eqn:Ej; [|by rewrite orb_false_r].
  assert (WalletRpc.endsWith ".dat" (toLowerCase (trim name)) = false) as ->; [|done].
  unfold WalletRpc.endsWith in *. set (s := toLowerCase (trim name)) in *. apply andb_true_iff in Ej as [Hlen%Nat.leb_le Hs%str_eqb_true].
  apply andb_false_iff. right. apply str_eqb_false. intros Hd. cbn [String.length] in *.
  assert (String.get 3 (String.substring (String.length s - 4) 4 s) = String.get 4 (String.substring (String.length s - 5) 5 s)) as E.
  { rewrite !String.substring_correct1 by lia. f_equal. lia. }
  rewrite Hd, Hs in E. done.
Qed.

Lemma substring_front a b : String.substring 0 (String.length a) (a +:+ b) = a.
Proof. induction a as [|c a IH]; [by destruct b|]. change (String.substring 0 (String.length (String c a)) (String c (a +:+ b)) = String c a). cbn. by rewrite IH. Qed.

(** What is shown of a wallet's file is the name that it was made from. *)
Theorem name_is_shown name : is_dat (trim name) = false → displayWalletName (normalizeWalletFile name) = trim name.
Proof.
  intros Hd. unfold normalizeWalletFile. cbv zeta. destruct (str_eqb (trim name) "") eqn:Et; [by apply str_eqb_true in Et as ->|]. rewrite Hd.
  assert (trim (trim name +:+ ".dat") = trim name +:+ ".dat") as Htrim.
  { destruct (trim_head name) as [E|(c & t & E & Hc)]; [by rewrite E in Et|]. rewrite E. unfold trim at 1.
    assert (trimStart (String c t +:+ ".dat") = String c t +:+ ".dat") as ->
      by (change (trimStart (String c (t +:+ ".dat")) = String c (t +:+ ".dat")); cbn [trimStart]; by rewrite Hc).
    change ".dat" with (".da" +:+ "t"). rewrite <- str_app_assoc. by apply trimEnd_app. }
  unfold displayWalletName. cbv zeta. rewrite Htrim.
  assert (is_dat (trim name +:+ ".dat") = true) as -> by (unfold is_dat; rewrite toLowerCase_app; apply WalletRpc.endsWith_app).
  rewrite length_app_str. replace (String.length (trim name) + String.length ".dat" - 4)%nat with (String.length (trim name)) by (cbn; lia).
  apply substring_front.
Qed.

(** *** Examples *)

Definition demo_run (evs : list event) : ClientPage := run str_gtb evs blank.
Definition demo_open : list event := [WalletsArrive 0 (Ok ["beta.dat"; "test-wallet.dat"; "alpha.dat"]); WalletsArrive 0 (Ok ["beta.dat"; "test-wallet.dat"; "alpha.dat"])].

Example demo_wallets : (display <$> wallets (lists (demo_run demo_open)), selectedWalletFile (lists (demo_run demo_open)), balance_loads (work (demo_run demo_open)))
  = (["test-wallet"; "alpha"; "beta"], "test-wallet.dat", ["test-wallet.dat"]).
Proof. vm_compute. reflexivity. Qed.

(** A balance that comes late is shown for the wallet that is selected now. *)
Example late_balance :
  let p := demo_run (demo_open ++ [PickWallet "alpha.dat"; BalanceArrives 1 (Ok (JStr "alpha's")); BalanceArrives 0 (Ok (JStr "test-wallet's"))]) in
  (selectedWalletFile (lists p), walletInfo (lists p)) = ("alpha.dat", Some (JStr "test-wallet's")).
Proof. vm_compute. reflexivity. Qed.

(** The fraction of an amount is dropped, and its exponent; a second click sends nothing. *)
Example fraction_is_dropped :
  let sent a := o_amount <$> posted (work (demo_run (demo_open ++ [TypeSend "KC1abc" a; Send; Confirm; Confirm]))) in
  (sent "1.9", sent "1e3", sent "0.5") = ([of_Z 1], [of_Z 1], []).
Proof. vm_compute. reflexivity. Qed.

(** A confirmation sends from the wallet that is selected when it is given. *)
Example confirms_other_wallet :
  let p := demo_run (demo_open ++ [TypeSend "KC1abc" "5"; Send; PickWallet "beta.dat"; Confirm]) in
  o_from <$> posted (work p) = ["beta.dat"].
Proof. vm_compute. reflexivity. Qed.

Lemma name_is_shown_witness : displayWalletName (normalizeWalletFile " savings ") = "savings".
Proof. apply (name_is_shown " savings "). vm_compute. reflexivity. Defined.
End Client.
