(* ===== verification/WebSocketService.v ===== *)
(** * [WebSocketService] and [PollingService] (apps/web/wallet/src/services/websocket.ts)

    The connection to the node's event stream: sockets the service created, the timers it
    set, its listeners. The host opens and closes sockets, delivers messages and fires
    timers in any order between the calls of the service, so the service is a transition
    system ([call], [host]). Callbacks are identities and their calls a log; what a callback
    itself calls, and the console, are left out. *)

From Stdlib Require Import String.
From S2P Require Import Prelude JsMap.
Inductive EventType := newBlock | newTransaction | mempoolUpdate | peerConnect | peerDisconnect.
#[export] Instance EventType_eq_dec : EqDecision EventType.
Proof. solve_decision. Defined.

Definition event_name (t : EventType) : string :=
  match t with
  | newBlock => "newBlock" | newTransaction => "newTransaction" | mempoolUpdate => "mempoolUpdate"
  | peerConnect => "peerConnect" | peerDisconnect => "peerDisconnect"
  end.

(** A message of the server: its type and its data, which the service does not read. *)
Record WebSocketEvent := MkEvent { type : string; data : string }.

(** What the service sends: the keys of the listeners are event names. *)
Inductive Message :=
  | Subscribe (events : list string)
  | Unsubscribe (events : list string)
  | Ping.

Inductive ReadyState := CONNECTING | OPEN | CLOSING | CLOSED.
#[export] Instance ReadyState_eq_dec : EqDecision ReadyState.
Proof. solve_decision. Defined.

Record Socket := MkSocket { readyState : ReadyState; outbox : list Message }.

Inductive TimerKind := Reconnect (delay : Z) | Heartbeat.
Record Timer := MkTimer { timer_id : nat; kind : TimerKind }.

Record WebSocketService := MkWs {
  sockets : list Socket;
  ws : option nat;
  reconnectAttempts : Z;
  listeners : jsmap (list nat);
  reconnectTimer : option nat;
  heartbeatTimer : option nat;
  isIntentionallyClosed : bool;
  timers : list Timer;
  next_timer : nat;
  called : list (nat * WebSocketEvent);
}.

Definition maxReconnectAttempts : Z := 5.
Definition reconnectDelay : Z := 3000.

Definition fresh : WebSocketService := MkWs [] None 0 [] None None false [] 0 [].

Definition set_sockets x s := MkWs x (ws s) (reconnectAttempts s) (listeners s) (reconnectTimer s)
  (heartbeatTimer s) (isIntentionallyClosed s) (timers s) (next_timer s) (called s).
Definition set_ws x s := MkWs (sockets s) x (reconnectAttempts s) (listeners s) (reconnectTimer s)
  (heartbeatTimer s) (isIntentionallyClosed s) (timers s) (next_timer s) (called s).
Definition set_attempts x s := MkWs (sockets s) (ws s) x (listeners s) (reconnectTimer s)
  (heartbeatTimer s) (isIntentionallyClosed s) (timers s) (next_timer s) (called s).
Definition set_listeners x s := MkWs (sockets s) (ws s) (reconnectAttempts s) x (reconnectTimer s)
  (heartbeatTimer s) (isIntentionallyClosed s) (timers s) (next_timer s) (called s).
Definition set_reconnectTimer x s := MkWs (sockets s) (ws s) (reconnectAttempts s) (listeners s) x
  (heartbeatTimer s) (isIntentionallyClosed s) (timers s) (next_timer s) (called s).
Definition set_heartbeatTimer x s := MkWs (sockets s) (ws s) (reconnectAttempts s) (listeners s) (reconnectTimer s)
  x (isIntentionallyClosed s) (timers s) (next_timer s) (called s).
Definition set_closed x s := MkWs (sockets s) (ws s) (reconnectAttempts s) (listeners s) (reconnectTimer s)
  (heartbeatTimer s) x (timers s) (next_timer s) (called s).
Definition set_timers x s := MkWs (sockets s) (ws s) (reconnectAttempts s) (listeners s) (reconnectTimer s)
  (heartbeatTimer s) (isIntentionallyClosed s) x (next_timer s) (called s).
Definition set_next_timer x s := MkWs (sockets s) (ws s) (reconnectAttempts s) (listeners s) (reconnectTimer s)
  (heartbeatTimer s) (isIntentionallyClosed s) (timers s) x (called s).
Definition set_called x s := MkWs (sockets s) (ws s) (reconnectAttempts s) (listeners s) (reconnectTimer s)
  (heartbeatTimer s) (isIntentionallyClosed s) (timers s) (next_timer s) x.

(** ** Sockets and timers of the host *)

(** [this.ws?.readyState] *)
Definition state_of (s : WebSocketService) : option ReadyState :=
  i ← ws s; readyState <$> sockets s !! i.

Definition is_open (s : WebSocketService) : bool := bool_decide (state_of s = Some OPEN).

(** [this.ws.send(m)], where the socket is open. *)
Definition send (m : Message) (s : WebSocketService) : WebSocketService :=
  match ws s with
  | Some i => set_sockets (alter (λ k, MkSocket (readyState k) (outbox k ++ [m])) i (sockets s)) s
  | None => s
  end.

Definition send_if_open (m : Message) (s : WebSocketService) : WebSocketService :=
  if is_open s then send m s else s.

Definition set_state (i : nat) (st : ReadyState) (s : WebSocketService) : WebSocketService :=
  set_sockets (alter (λ k, MkSocket st (outbox k)) i (sockets s)) s.

(** [socket.close()] *)
Definition close (i : nat) (s : WebSocketService) : WebSocketService :=
  match readyState <$> sockets s !! i with
  | Some CONNECTING | Some OPEN => set_state i CLOSING s
  | _ => s
  end.

Definition start_timer (k : TimerKind) (s : WebSocketService) : WebSocketService :=
  set_next_timer (S (next_timer s)) (set_timers (timers s ++ [MkTimer (next_timer s) k]) s).

Definition without_timer (n : nat) (l : list Timer) : list Timer :=
  js_filter (λ t, negb (timer_id t =? n)%nat) l.

(** [clearTimeout], [clearInterval] *)
Definition clear_timer (n : nat) (s : WebSocketService) : WebSocketService :=
  set_timers (without_timer n (timers s)) s.

(** ** The service *)

Definition attemptReconnect (s : WebSocketService) : WebSocketService :=
  if maxReconnectAttempts <=? reconnectAttempts s then s
  else
    let delay := reconnectDelay * 2 ^ reconnectAttempts s in
    set_reconnectTimer (Some (next_timer s)) (start_timer (Reconnect delay) s).

Definition startHeartbeat (s : WebSocketService) : WebSocketService :=
  set_heartbeatTimer (Some (next_timer s)) (start_timer Heartbeat s).

Definition stopHeartbeat (s : WebSocketService) : WebSocketService :=
  match heartbeatTimer s with
  | Some n => set_heartbeatTimer None (clear_timer n s)
  | None => s
  end.

Definition subscribe (s : WebSocketService) : WebSocketService :=
  if negb (is_open s) then s
  else
    let subscriptions := map_keys (listeners s) in
    if (0 <? length subscriptions)%nat then send (Subscribe subscriptions) s else s.

(** [creates]: does [new WebSocket(url)] give a socket? *)
Definition connect (creates : bool) (s : WebSocketService) : WebSocketService :=
  if is_open s then s
  else
    let s1 := set_closed false s in
    if creates then set_ws (Some (length (sockets s1))) (set_sockets (sockets s1 ++ [MkSocket CONNECTING []]) s1)
    else attemptReconnect s1.

Definition disconnect (s : WebSocketService) : WebSocketService :=
  let s1 := stopHeartbeat (set_closed true s) in
  let s2 := match reconnectTimer s1 with
            | Some n => set_reconnectTimer None (clear_timer n s1)
            | None => s1
            end in
  match ws s2 with
  | Some i => set_ws None (close i s2)
  | None => s2
  end.

Definition onopen (s : WebSocketService) : WebSocketService := subscribe (startHeartbeat (set_attempts 0 s)).

Definition onclose (s : WebSocketService) : WebSocketService :=
  let s1 := stopHeartbeat s in
  if negb (isIntentionallyClosed s1) then attemptReconnect s1 else s1.

Definition handleMessage (e : WebSocketEvent) (s : WebSocketService) : WebSocketService :=
  match map_get (type e) (listeners s) with
  | Some l => set_called (called s ++ ((λ c, (c, e)) <$> l)) s
  | None => s
  end.

(** [set.add(c)], [set.delete(c)] *)
Definition set_add (c : nat) (l : list nat) : list nat := if bool_decide (c ∈ l) then l else l ++ [c].
Definition set_delete (c : nat) (l : list nat) : list nat := js_filter (λ d, negb (d =? c)%nat) l.

Definition on (t : EventType) (c : nat) (s : WebSocketService) : WebSocketService :=
  let key := event_name t in
  let s1 := set_listeners (map_set key (set_add c (default [] (map_get key (listeners s)))) (listeners s)) s in
  send_if_open (Subscribe [key]) s1.

Definition off (t : EventType) (c : nat) (s : WebSocketService) : WebSocketService :=
  let key := event_name t in
  match map_get key (listeners s) with
  | None => s
  | Some l =>
      match set_delete c l with
      | [] => send_if_open (Unsubscribe [key]) (set_listeners (map_delete key (listeners s)) s)
      | l' => set_listeners (map_set key l' (listeners s)) s
      end
  end.

Inductive Status := connecting | open | closing | closed.

Definition getStatus (s : WebSocketService) : Status :=
  match state_of s with
  | Some CONNECTING => connecting
  | Some OPEN => open
  | Some CLOSING => closing
  | _ => closed
  end.

Definition isConnected (s : WebSocketService) : bool := is_open s.

(** ** Transitions *)

Inductive Call :=
  | Connect (creates : bool)
  | Disconnect
  | On (t : EventType) (c : nat)
  | Off (t : EventType) (c : nat).

Definition call (c : Call) : WebSocketService → WebSocketService :=
  match c with
  | Connect b => connect b
  | Disconnect => disconnect
  | On t c => on t c
  | Off t c => off t c
  end.

(** What the host does: a socket opens, closes or brings a message (a text that does not
    parse changes nothing), a timer runs out. *)
Inductive host : WebSocketService → WebSocketService → Prop :=
  | opens i k s : sockets s !! i = Some k → readyState k = CONNECTING →
      host s (onopen (set_state i OPEN s))
  | closes i k s : sockets s !! i = Some k → readyState k ≠ CLOSED →
      host s (onclose (set_state i CLOSED s))
  | delivers i k e s : sockets s !! i = Some k → readyState k = OPEN → host s (handleMessage e s)
  | reconnects t d b s : t ∈ timers s → kind t = Reconnect d →
      host s (connect b (set_attempts (reconnectAttempts s + 1) (clear_timer (timer_id t) s)))
  | beats t s : t ∈ timers s → kind t = Heartbeat → host s (send_if_open Ping s).

Inductive step : WebSocketService → WebSocketService → Prop :=
  | by_call c s : step s (call c s)
  | by_host s s' : host s s' → step s s'.

(** ** [PollingService] *)

Module Polling.
(** The intervals by key, those the host still runs, and the fetches so far. *)
Record PollingService := MkPolling { intervals : jsmap nat; running : list (nat * string); next : nat; fetched : list string }.

Definition startPolling (key : string) (s : PollingService) : PollingService :=
  if map_has key (intervals s) then s
  else MkPolling (map_set key (next s) (intervals s)) (running s ++ [(next s, key)]) (S (next s)) (fetched s ++ [key]).

Definition stopPolling (key : string) (s : PollingService) : PollingService :=
  match map_get key (intervals s) with
  | Some n => MkPolling (map_delete key (intervals s)) (js_filter (λ t, negb (t.1 =? n)%nat) (running s)) (next s) (fetched s)
  | None => s
  end.

Definition stopAll (s : PollingService) : PollingService :=
  MkPolling [] (js_filter (λ t, negb (js_some (λ n, (t.1 =? n)%nat) (map_values (intervals s)))) (running s))
    (next s) (fetched s).

(** An interval runs out. *)
Definition poll (n : nat) (s : PollingService) : PollingService :=
  match js_find (λ t, (t.1 =? n)%nat) (running s) with
  | Some (_, key) => MkPolling (intervals s) (running s) (next s) (fetched s ++ [key])
  | None => s
  end.
End Polling.

(** * Theorems *)

(** ** The server knows the listeners *)

(** Does the server send events named [e], after one more message, after all of them? *)
Definition after_message (e : string) (b : bool) (m : Message) : bool :=
  match m with
  | Subscribe es => b || js_some (str_eqb e) es
  | Unsubscribe es => b && negb (js_some (str_eqb e) es)
  | Ping => b
  end.
Definition subscribed (ms : list Message) (e : string) : bool := foldl (after_message e) false ms.

(** Nothing was sent on a socket that is not open yet, and the server's subscriptions on
    the current one, when it is open, are [L]. *)
Definition sync (socks : list Socket) (cur : option nat) (L : string → bool) : Prop :=
  (∀ i k, socks !! i = Some k → readyState k = CONNECTING → outbox k = []) ∧
  (∀ i k, cur = Some i → socks !! i = Some k → readyState k = OPEN → ∀ e, subscribed (outbox k) e = L e).

Definition listened (s : WebSocketService) (e : string) : bool := map_has e (listeners s).
Definition in_sync (s : WebSocketService) : Prop := sync (sockets s) (ws s) (listened s).

Lemma is_open_true s : is_open s = true ↔ ∃ i k, ws s = Some i ∧ sockets s !! i = Some k ∧ readyState k = OPEN.
Proof.
  unfold is_open, state_of. rewrite bool_decide_eq_true. destruct (ws s) as [i|]; cbn.
  - destruct (sockets s !! i) as [k|] eqn:E; cbn; split.
    + intros [= ?]. by exists i, k.
    + intros (? & ? & [= <-] & E' & ?). rewrite E in E'. injection E' as <-. by f_equal.
    + done.
    + intros (? & ? & [= <-] & E' & ?). by rewrite E in E'.
  - split; [done|]. by intros (? & ? & ? & _).
Qed.

Lemma sync_not_open s L L' : is_open s = false → sync (sockets s) (ws s) L → sync (sockets s) (ws s) L'.
Proof.
  intros Ho [H1 _]. split; [done|]. intros i k Hi Hk Hr. exfalso.
  assert (is_open s = true); [|congruence]. apply is_open_true. eauto.
Qed.

(** A message to the current socket changes the subscriptions. *)
Lemma sync_send s m (L L' : string → bool) : is_open s = true → sync (sockets s) (ws s) L →
  (∀ e, after_message e (L e) m = L' e) → sync (sockets (send m s)) (ws (send m s)) L'.
Proof.
  intros (i & k & Hw & Hk & Hr)%is_open_true [H1 H2] HL. unfold send. rewrite Hw. cbn [sockets ws set_sockets]. split.
  - intros j k' Hj Hc. destruct (decide (i = j)) as [<-|Hne].
    + rewrite list_lookup_alter_eq, Hk in Hj. simplify_eq/=. congruence.
    + rewrite list_lookup_alter_ne in Hj by done. by eapply H1.
  - intros j k' Hj Hk' Hr' e. assert (j = i) as -> by congruence.
    rewrite list_lookup_alter_eq, Hk in Hk'. simplify_eq/=.
    unfold subscribed. rewrite foldl_app. cbn. change (foldl (after_message e) false (outbox k)) with (subscribed (outbox k) e).
    by rewrite (H2 i k).
Qed.

Lemma sync_send_if_open s m (L L' : string → bool) : sync (sockets s) (ws s) L →
  (∀ e, after_message e (L e) m = L' e) → sync (sockets (send_if_open m s)) (ws (send_if_open m s)) L'.
Proof.
  intros HL Hm. unfold send_if_open. destruct (is_open s) eqn:E; [by eapply sync_send|by eapply sync_not_open].
Qed.

Lemma listeners_send_if_open m s : listeners (send_if_open m s) = listeners s.
Proof. unfold send_if_open, send. destruct (is_open s), (ws s); done. Qed.

Lemma sync_set_state s i st L : st ≠ CONNECTING → st ≠ OPEN →
  sync (sockets s) (ws s) L → sync (sockets (set_state i st s)) (ws s) L.
Proof.
  intros H1 H2 [Ha Hb]. cbn. split.
  - intros j k Hj Hc. destruct (decide (i = j)) as [<-|Hne].
    + rewrite list_lookup_alter_eq in Hj. apply fmap_Some in Hj as (? & _ & ->). done.
    + rewrite list_lookup_alter_ne in Hj by done. by eapply Ha.
  - intros j k Hj Hk Hr. destruct (decide (i = j)) as [<-|Hne].
    + rewrite list_lookup_alter_eq in Hk. apply fmap_Some in Hk as (? & _ & ->). done.
    + rewrite list_lookup_alter_ne in Hk by done. by eapply Hb.
Qed.

Lemma js_some_keys {V} (m : jsmap V) e : js_some (str_eqb e) (map_keys m) = map_has e m.
Proof.
  apply eq_true_iff_eq. rewrite js_some_true, map_has_true. split.
  - intros (x & Hx & <-%str_eqb_true). destruct (map_get e m) eqn:E; [done|]. by apply map_get_None_keys in E.
  - intros [v Hv]. exists e. split; [|apply str_eqb_refl]. apply map_get_Some_elem in Hv.
    unfold map_keys. apply list_elem_of_fmap. by exists (e, v).
Qed.

(** Subscribing to all listeners makes up for everything that is missing. *)
Lemma sync_subscribe s L : sync (sockets s) (ws s) L → (∀ e, L e = true → listened s e = true) → in_sync (subscribe s).
Proof.
  intros HL Hsub. unfold subscribe. destruct (is_open s) eqn:Eo; cbn [negb]; [|by eapply sync_not_open]. cbv zeta.
  destruct (Nat.ltb_spec 0 (length (map_keys (listeners s)))) as [Hl|Hl].
  - unfold in_sync. assert (listened (send (Subscribe (map_keys (listeners s))) s) = listened s) as ->.
    { unfold listened, send. by destruct (ws s). }
    eapply sync_send; [done..|]. intros e. cbn. rewrite js_some_keys. specialize (Hsub e).
    unfold listened in *. destruct (L e); [by rewrite Hsub|done].
  - unfold in_sync. destruct HL as [H1 H2]. split; [done|]. intros i k Hi Hk Hr e. rewrite (H2 i k) by done.
    assert (listened s e = false) as Hf.
    { unfold listened, map_keys in *. rewrite length_fmap in Hl. destruct (listeners s); [done|]. cbn in Hl. lia. }
    rewrite Hf. destruct (L e) eqn:E; [|done]. by rewrite Hsub in Hf.
Qed.

Lemma map_has_set_or {V} (m : jsmap V) k v e : map_has e (map_set k v m) = map_has e m || str_eqb e k.
Proof.
  unfold map_has. destruct (str_eqb e k) eqn:E.
  - apply str_eqb_true in E as ->. by rewrite map_get_set_eq, orb_true_r.
  - rewrite map_get_set_ne by (apply not_eq_sym, str_eqb_false, E). by rewrite orb_false_r.
Qed.

Lemma map_has_delete {V} (m : jsmap V) k e : map_has e (map_delete k m) = map_has e m && negb (str_eqb e k).
Proof.
  unfold map_has. destruct (str_eqb e k) eqn:E.
  - apply str_eqb_true in E as ->. by rewrite map_get_delete_eq, andb_false_r.
  - rewrite map_get_delete_ne by (apply not_eq_sym, str_eqb_false, E). by rewrite andb_true_r.
Qed.

Lemma sync_on t c s : in_sync s → in_sync (on t c s).
Proof.
  intros Hs. unfold on, in_sync. cbv zeta. set (s1 := set_listeners _ s).
  assert (listened (send_if_open (Subscribe [event_name t]) s1) = listened s1) as ->
    by (unfold listened; by rewrite listeners_send_if_open).
  apply (sync_send_if_open s1 _ (listened s)); [exact Hs|]. intros e. cbn. unfold listened, s1. cbn.
  by rewrite map_has_set_or, orb_false_r.
Qed.

Lemma sync_off t c s : in_sync s → in_sync (off t c s).
Proof.
  intros Hs. unfold off. cbv zeta. destruct (map_get _ _) as [l|] eqn:E; [|done].
  destruct (set_delete c l) as [|d l'].
  - unfold in_sync. set (s1 := set_listeners _ s).
    assert (listened (send_if_open (Unsubscribe [event_name t]) s1) = listened s1) as ->
      by (unfold listened; by rewrite listeners_send_if_open).
    apply (sync_send_if_open s1 _ (listened s)); [exact Hs|]. intros e. cbn. unfold listened, s1. cbn.
    by rewrite map_has_delete, orb_false_r.
  - destruct Hs as [H1 H2]. split; [done|]. intros i k Hi Hk Hr e. rewrite (H2 i k) by done.
    unfold listened. cbn. rewrite map_has_set_or. destruct (str_eqb e (event_name t)) eqn:Ee; [|by rewrite orb_false_r].
    apply str_eqb_true in Ee as ->. unfold map_has. by rewrite E.
Qed.

Lemma attemptReconnect_core s : sockets (attemptReconnect s) = sockets s ∧ ws (attemptReconnect s) = ws s ∧
  listeners (attemptReconnect s) = listeners s.
Proof. unfold attemptReconnect. by destruct (_ <=? _). Qed.

Lemma stopHeartbeat_core s : sockets (stopHeartbeat s) = sockets s ∧ ws (stopHeartbeat s) = ws s ∧
  listeners (stopHeartbeat s) = listeners s.
Proof. unfold stopHeartbeat. by destruct (heartbeatTimer s). Qed.

(** [in_sync] depends on the sockets, the current one and the listeners. *)
Lemma in_sync_core s s' : sockets s' = sockets s ∧ ws s' = ws s ∧ listeners s' = listeners s → in_sync s → in_sync s'.
Proof. unfold in_sync, listened. by intros (-> & -> & ->). Qed.

Lemma sync_connect b s : in_sync s → in_sync (connect b s).
Proof.
  intros Hs. unfold connect. destruct (is_open s); [done|]. cbv zeta. destruct b.
  - destruct Hs as [H1 _]. split; cbn.
    + intros i k Hi Hc. apply lookup_app_Some in Hi as [Hi|[_ Hi]]; [by eapply H1|].
      by apply list_lookup_singleton_Some in Hi as [_ <-].
    + intros i k [= <-] Hk. rewrite lookup_app_r, Nat.sub_diag in Hk by lia. injection Hk as <-. done.
  - eapply in_sync_core; [apply attemptReconnect_core|]. exact Hs.
Qed.

Lemma sync_disconnect s : in_sync s → in_sync (disconnect s).
Proof.
  intros Hs. unfold disconnect. cbv zeta. set (s1 := stopHeartbeat (set_closed true s)).
  assert (in_sync s1) as H1 by (eapply in_sync_core; [apply stopHeartbeat_core|exact Hs]).
  set (s2 := match reconnectTimer s1 with Some n => set_reconnectTimer None (clear_timer n s1) | None => s1 end).
  assert (in_sync s2) as H2 by (unfold s2; destruct (reconnectTimer s1); [eapply in_sync_core; [|exact H1]; done|exact H1]).
  destruct (ws s2) as [i|]; [|done]. split; [|done]. cbn.
  unfold close. destruct (sockets s2 !! i) as [[[] out]|] eqn:E; cbn; try apply H2;
    apply (sync_set_state s2 i CLOSING (listened s2)); done.
Qed.

Lemma sync_host s s' : host s s' → in_sync s → in_sync s'.
Proof.
  intros Hh Hs. destruct Hh as [i k s Hk Hr|i k s Hk Hr|i k e s Hk Hr|t d b s Ht Hd|t s Ht Hd].
  - unfold onopen. destruct Hs as [H1 H2].
    apply (sync_subscribe _ (λ e, if decide (ws s = Some i) then false else listened s e)); cbn.
    + split.
      * intros j k' Hj Hc. destruct (decide (i = j)) as [<-|Hne].
        -- rewrite list_lookup_alter_eq, Hk in Hj. by simplify_eq/=.
        -- rewrite list_lookup_alter_ne in Hj by done. by eapply H1.
      * intros j k' Hj Hk' Hr' e. destruct (decide (ws s = Some i)) as [Hi|Hne].
        -- assert (j = i) as -> by congruence. rewrite list_lookup_alter_eq, Hk in Hk'. simplify_eq/=.
           by rewrite (H1 i k).
        -- rewrite list_lookup_alter_ne in Hk' by congruence. by eapply H2.
    + intros e. by destruct (decide _).
  - unfold onclose. cbv zeta. set (s1 := stopHeartbeat _).
    assert (in_sync s1) as H1.
    { eapply in_sync_core; [apply stopHeartbeat_core|]. by apply (sync_set_state s i CLOSED (listened s)). }
    destruct (negb _); [|done]. eapply in_sync_core; [apply attemptReconnect_core|done].
  - unfold handleMessage. destruct (map_get _ _); [|done]. exact Hs.
  - apply sync_connect. exact Hs.
  - unfold in_sync, listened. rewrite listeners_send_if_open. by apply (sync_send_if_open s Ping (listened s)).
Qed.

Lemma sync_step s s' : step s s' → in_sync s → in_sync s'.
Proof.
  intros [[b| |t c|t c] x|x x' Hh] Hs; cbn.
  - by apply sync_connect.
  - by apply sync_disconnect.
  - by apply sync_on.
  - by apply sync_off.
  - by eapply sync_host.
Qed.

Lemma sync_reachable s : rtc step fresh s → in_sync s.
Proof.
  revert s. refine (rtc_ind_r _ _ _ _); [by split|]. intros s1 s2 _ Hst IH. by eapply sync_step.
Qed.

(** C17: In every state the service reaches, in whatever order calls are made and sockets open,
    close and timers run out, when the current socket is open the server has been asked on
    it for exactly the events that have listeners. *)
Theorem open_socket_subscribed s i k : rtc step fresh s →
  ws s = Some i → sockets s !! i = Some k → readyState k = OPEN →
  ∀ e, subscribed (outbox k) e = true ↔ ∃ l, map_get e (listeners s) = Some l.
Proof.
  intros Hs Hi Hk Hr e. destruct (sync_reachable s Hs) as [_ H].
  rewrite (H i k) by done. apply map_has_true.
Qed.

(** ** Disconnecting *)

Definition states (s : WebSocketService) : list ReadyState := readyState <$> sockets s.

Definition is_reconnect (t : Timer) : Prop := ∃ d, kind t = Reconnect d.

(** What holds while the service is connected only when nothing of an earlier connection
    is left: one socket is in use at most, a pending reconnection is the one the service
    remembers and waits while all sockets are closed, and a heartbeat is the one it
    remembers and goes with an open current socket. *)
Record calm (st : list ReadyState) (cur : option nat) (ts : list Timer) (rt ht : option nat) : Prop := MkCalm {
  calm_reconnect : ∀ t, t ∈ ts → is_reconnect t → rt = Some (timer_id t) ∧ Forall (.= CLOSED) st;
  calm_heartbeat : ∀ t, t ∈ ts → kind t = Heartbeat →
    ht = Some (timer_id t) ∧ ∃ i, cur = Some i ∧ st !! i = Some OPEN;
  calm_current : ∀ i x, st !! i = Some x → cur ≠ Some i → x = CLOSING ∨ x = CLOSED;
  calm_single : ∀ i j x y, st !! i = Some x → st !! j = Some y → x ≠ CLOSED → y ≠ CLOSED → i = j;
}.

Definition calm_state (s : WebSocketService) : Prop :=
  calm (states s) (ws s) (timers s) (reconnectTimer s) (heartbeatTimer s).

Lemma fmap_alter {A B} (g : A → B) (f : A → A) (h : B → B) (l : list A) (i : nat) :
  (∀ x, g (f x) = h (g x)) → g <$> alter f i l = alter h i (g <$> l).
Proof. intros H. revert i. induction l as [|x l IH]; intros [|i]; csimpl; [done..| |]; f_equal; auto. Qed.

(** Sending leaves all of this as it is. *)
Lemma shape_send_if_open m s : let s' := send_if_open m s in
  states s' = states s ∧ ws s' = ws s ∧ timers s' = timers s ∧ reconnectTimer s' = reconnectTimer s ∧
  heartbeatTimer s' = heartbeatTimer s ∧ isIntentionallyClosed s' = isIntentionallyClosed s.
Proof.
  cbv zeta. unfold send_if_open. destruct (is_open s); [|done]. unfold send. destruct (ws s) as [i|] eqn:E; [|done].
  split_and!; [|done..]. unfold states. cbn. rewrite (fmap_alter _ _ id) by done. by apply list_alter_id.
Qed.

Lemma calm_send m s : calm_state s → calm_state (send_if_open m s).
Proof. destruct (shape_send_if_open m s) as (E1 & E2 & E3 & E4 & E5 & _). unfold calm_state. by rewrite E1, E2, E3, E4, E5. Qed.

Lemma timer_kinds t : is_reconnect t ∨ kind t = Heartbeat.
Proof. destruct (kind t) eqn:E; [left; by eexists|by right]. Qed.

Lemma no_timers (ts : list Timer) : (∀ t, t ∈ ts → False) → ts = [].
Proof. destruct ts as [|t ts]; [done|]. intros H. exfalso. apply (H t). by left. Qed.

Lemma elem_of_without n t l : t ∈ without_timer n l → t ∈ l ∧ timer_id t ≠ n.
Proof. unfold without_timer. intros [H1 H2%negb_true_iff%Nat.eqb_neq]%elem_of_js_filter. done. Qed.

(** With all sockets closed, no timer pending but the remembered reconnection. *)
Lemma calm_closed st cur ts rt ht : Forall (.= CLOSED) st →
  (∀ t, t ∈ ts → is_reconnect t ∧ rt = Some (timer_id t)) → calm st cur ts rt ht.
Proof.
  intros Hc Ht. rewrite Forall_lookup in Hc. split.
  - intros t Hin _. split; [by apply Ht|by apply Forall_lookup].
  - intros t Hin Hk. destruct (Ht t Hin) as [[d Hd] _]. congruence.
  - intros i x Hi _. right. by eapply Hc.
  - intros i j x y Hi _ Hx _. by destruct Hx; eapply Hc.
Qed.

Lemma attemptReconnect_calm s : Forall (.= CLOSED) (states s) → timers s = [] → calm_state (attemptReconnect s).
Proof.
  intros Hc Ht. unfold attemptReconnect. destruct (_ <=? _).
  - apply calm_closed; [done|]. rewrite Ht. by intros t ?%elem_of_nil.
  - apply calm_closed; [done|]. cbn. rewrite Ht. intros t ->%list_elem_of_singleton. split; [by eexists|done].
Qed.

Lemma connect_calm b s : Forall (.= CLOSED) (states s) → timers s = [] → calm_state (connect b s).
Proof.
  intros Hc Ht. unfold connect. destruct (is_open s) eqn:Eo.
  { apply calm_closed; [done|]. rewrite Ht. by intros t ?%elem_of_nil. }
  cbv zeta. destruct b; [|by apply attemptReconnect_calm]. unfold calm_state, states. cbn. rewrite Ht, fmap_app. cbn.
  change (readyState <$> sockets s) with (states s). rewrite Forall_lookup in Hc. split.
  - by intros t ?%elem_of_nil.
  - by intros t ?%elem_of_nil.
  - intros i x [Hi|[Hl Hi]]%lookup_app_Some Hcur; [right; by eapply Hc|].
    apply list_lookup_singleton_Some in Hi as [Hi _]. unfold states in Hl, Hi. rewrite length_fmap in *. destruct Hcur. f_equal. lia.
  - intros i j x y [Hi|[Hli Hi]]%lookup_app_Some [Hj|[Hlj Hj]]%lookup_app_Some Hx Hy.
    + by destruct Hx; eapply Hc.
    + by destruct Hx; eapply Hc.
    + by destruct Hy; eapply Hc.
    + apply list_lookup_singleton_Some in Hi as [Hi _], Hj as [Hj _]. lia.
Qed.

Lemma states_set_state i st s : states (set_state i st s) = alter (λ _, st) i (states s).
Proof. unfold states. cbn. by apply fmap_alter. Qed.

Lemma stopHeartbeat_shape s : states (stopHeartbeat s) = states s ∧ reconnectTimer (stopHeartbeat s) = reconnectTimer s ∧
  isIntentionallyClosed (stopHeartbeat s) = isIntentionallyClosed s ∧
  timers (stopHeartbeat s) = match heartbeatTimer s with Some n => without_timer n (timers s) | None => timers s end.
Proof. unfold stopHeartbeat. by destruct (heartbeatTimer s). Qed.

(** Stopping the heartbeat of a calm service leaves pending reconnections at most. *)
Lemma stopHeartbeat_timers st cur s : calm st cur (timers s) (reconnectTimer s) (heartbeatTimer s) →
  ∀ t, t ∈ timers (stopHeartbeat s) → t ∈ timers s ∧ is_reconnect t.
Proof.
  intros Hc t. destruct (stopHeartbeat_shape s) as (_ & _ & _ & ->). intros Ht.
  assert (t ∈ timers s) as Hin by (destruct (heartbeatTimer s); [by apply elem_of_without in Ht as []|done]).
  split; [done|]. destruct (timer_kinds t) as [|Hk]; [done|].
  destruct (calm_heartbeat _ _ _ _ _ Hc t Hin Hk) as [E _]. rewrite E in Ht. by apply elem_of_without in Ht as [_ []].
Qed.

Lemma alter_const_lookup {A} (x : A) (i j : nat) y (l : list A) : alter (λ _, x) i l !! j = Some y → (i = j ∧ y = x) ∨ (i ≠ j ∧ l !! j = Some y).
Proof.
  intros H. destruct (decide (i = j)) as [<-|Hne].
  - rewrite list_lookup_alter_eq in H. apply fmap_Some in H as (? & _ & ->). by left.
  - rewrite list_lookup_alter_ne in H by done. by right.
Qed.

Lemma close_states i s : ∃ f, states (close i s) = alter f i (states s) ∧
  ∀ x, states s !! i = Some x → (f x = CLOSING ∨ f x = CLOSED) ∧ (f x = CLOSED ↔ x = CLOSED).
Proof.
  unfold close, states. rewrite list_lookup_fmap. destruct (sockets s !! i) as [k|] eqn:E; cbn.
  - exists (λ x, match readyState k with CONNECTING | OPEN => CLOSING | x => x end).
    assert (∀ x, Some (readyState k) = Some x → readyState k = CLOSING ∨ readyState k = CLOSED →
      alter (λ _, x) i (readyState <$> sockets s) = readyState <$> sockets s) as Hsame.
    { intros x [= <-] _. rewrite <- (list_alter_id id (readyState <$> sockets s) i) at 2 by done.
      apply list_alter_ext; [|done]. rewrite list_lookup_fmap, E. cbn. by intros x [= <-]. }
    destruct (readyState k) eqn:Er; (split; [|intros x [= <-]; split; [by auto|done]]).
    + by apply states_set_state.
    + by apply states_set_state.
    + symmetry. apply Hsame; auto.
    + symmetry. apply Hsame; auto.
  - exists id. split; [by rewrite list_alter_id|done].
Qed.

(** ** Nothing happens after a disconnection *)

Record silent (s : WebSocketService) : Prop := MkSilent {
  silent_flag : isIntentionallyClosed s = true;
  silent_ws : ws s = None;
  silent_timers : timers s = [];
  silent_states : Forall (λ x, x = CLOSING ∨ x = CLOSED) (states s);
}.

Lemma disconnect_silent s : calm_state s → silent (disconnect s).
Proof.
  intros Hc. unfold disconnect. cbv zeta. set (s1 := stopHeartbeat (set_closed true s)).
  destruct (stopHeartbeat_shape (set_closed true s)) as (Est & Ert & Efl & _).
  destruct (stopHeartbeat_core (set_closed true s)) as (_ & Ews & _).
  pose proof (stopHeartbeat_timers _ _ (set_closed true s) Hc) as Ht. fold s1 in Est, Ert, Efl, Ews, Ht. cbn in Est, Ert, Efl, Ews, Ht.
  change (states (set_closed true s)) with (states s) in Est.
  set (s2 := match reconnectTimer s1 with Some n => set_reconnectTimer None (clear_timer n s1) | None => s1 end).
  assert (states s2 = states s ∧ ws s2 = ws s ∧ isIntentionallyClosed s2 = true ∧ timers s2 = []) as (E1 & E2 & E3 & E4).
  { unfold s2. rewrite Ert. destruct (reconnectTimer s) as [n|] eqn:En.
    - split_and!; [done..|]. cbn. apply no_timers. intros t [Hin Hne]%elem_of_without.
      destruct (Ht t Hin) as [Hin' Hr]. destruct (calm_reconnect _ _ _ _ _ Hc t Hin' Hr) as [E _]. congruence.
    - split_and!; [done..|]. apply no_timers. intros t Hin.
      destruct (Ht t Hin) as [Hin' Hr]. destruct (calm_reconnect _ _ _ _ _ Hc t Hin' Hr) as [E _]. congruence. }
  rewrite E2. destruct (ws s) as [i|] eqn:Ew.
  - assert (∀ s, let s' := set_ws None (close i s) in isIntentionallyClosed s' = isIntentionallyClosed s ∧ timers s' = timers s) as Hcl.
    { intros x. cbv zeta. unfold close. by destruct (readyState <$> sockets x !! i) as [[]|]. }
    destruct (Hcl s2) as [Hf Htm]. cbv zeta in Hf, Htm. split; [by rewrite Hf|done|by rewrite Htm|].
    change (states (set_ws None (close i s2))) with (states (close i s2)).
    destruct (close_states i s2) as (f & -> & Hx). rewrite E1 in *. apply Forall_lookup. intros j x Hj.
    destruct (decide (i = j)) as [<-|Hne].
    + rewrite list_lookup_alter_eq in Hj. apply fmap_Some in Hj as (y & Hy & ->). by apply Hx.
    + rewrite list_lookup_alter_ne in Hj by done. eapply calm_current; [exact Hc|exact Hj|congruence].
  - split; [done..|]. rewrite E1. apply Forall_lookup. intros j x Hj. eapply calm_current; [exact Hc|exact Hj|congruence].
Qed.

Lemma host_silent s s' : host s s' → silent s → silent s' ∧ length (sockets s') = length (sockets s).
Proof.
  intros Hh [Hf Hw Ht Hs]. destruct Hh as [i k s Hk Hr|i k s Hk Hr|i k e s Hk Hr|t d b s Hin Hd|t s Hin Hd].
  - rewrite Forall_lookup in Hs. destruct (Hs i CONNECTING) as [|]; [|done..].
    unfold states. rewrite list_lookup_fmap, Hk. cbn. by rewrite Hr.
  - unfold onclose. cbv zeta. destruct (stopHeartbeat_shape (set_state i CLOSED s)) as (E1 & _ & E3 & E4).
    destruct (stopHeartbeat_core (set_state i CLOSED s)) as (Esk & E2 & _).
    rewrite E3. change (isIntentionallyClosed (set_state i CLOSED s)) with (isIntentionallyClosed s). rewrite Hf. cbn [negb].
    split; [|rewrite Esk; cbn; by rewrite length_alter]. split.
    + by rewrite E3.
    + by rewrite E2.
    + rewrite E4. cbn. rewrite Ht. by destruct (heartbeatTimer s).
    + rewrite E1, states_set_state. apply Forall_lookup. intros j x [[_ ->]|[_ Hj]]%alter_const_lookup; [by right|].
      rewrite Forall_lookup in Hs. by eapply Hs.
  - unfold handleMessage. destruct (map_get _ _); (split; [by split|done]).
  - rewrite Ht in Hin. by apply elem_of_nil in Hin.
  - rewrite Ht in Hin. by apply elem_of_nil in Hin.
Qed.

(** ** A service that is connected with care *)

(** Runs in which [connect] is only called while nothing of an earlier connection is left:
    no timer is pending and every socket is closed. *)
Inductive careful : WebSocketService → Prop :=
  | careful_start : careful fresh
  | careful_connect b s : careful s → timers s = [] → Forall (.= CLOSED) (states s) → careful (connect b s)
  | careful_disconnect s : careful s → careful (disconnect s)
  | careful_on t c s : careful s → careful (on t c s)
  | careful_off t c s : careful s → careful (off t c s)
  | careful_host s s' : careful s → host s s' → careful s'.

Lemma calm_disconnect s : calm_state s → calm_state (disconnect s).
Proof.
  intros Hc. pose proof (disconnect_silent s Hc) as [_ Hw Ht Hs]. unfold calm_state. rewrite Hw, Ht.
  split; [by intros t ?%elem_of_nil|by intros t ?%elem_of_nil| |].
  - intros i x Hi _. rewrite Forall_lookup in Hs. by eapply Hs.
  - assert (∃ f i, states (disconnect s) = alter f i (states s) ∧
      ∀ x, states s !! i = Some x → f x = CLOSED ↔ x = CLOSED) as (f & i0 & E & Hf).
    { unfold disconnect. cbv zeta. set (s1 := stopHeartbeat (set_closed true s)).
      assert (states s1 = states s) as E1 by apply (stopHeartbeat_shape (set_closed true s)).
      set (s2 := match reconnectTimer s1 with Some n => set_reconnectTimer None (clear_timer n s1) | None => s1 end).
      assert (states s2 = states s) as E2 by (unfold s2; destruct (reconnectTimer s1); done).
      destruct (ws s2) as [i|].
      - change (states (set_ws None (close i s2))) with (states (close i s2)).
        destruct (close_states i s2) as (f & -> & Hx). rewrite E2 in *. exists f, i. split; [done|]. intros x Hxi. by apply Hx.
      - exists id, 0%nat. split; [rewrite list_alter_id; done|done]. }
    assert (∀ j x, states (disconnect s) !! j = Some x → x ≠ CLOSED → ∃ y, states s !! j = Some y ∧ y ≠ CLOSED) as Hback.
    { intros j x Hj Hx. rewrite E in Hj. destruct (decide (i0 = j)) as [<-|Hne].
      - rewrite list_lookup_alter_eq in Hj. apply fmap_Some in Hj as (y & Hy & ->). exists y. split; [done|].
        intros ->. by apply Hx, Hf.
      - rewrite list_lookup_alter_ne in Hj by done. eauto. }
    intros i j x y Hi Hj Hx Hy. destruct (Hback i x Hi Hx) as (x' & Hi' & Hx'), (Hback j y Hj Hy) as (y' & Hj' & Hy').
    by eapply calm_single.
Qed.

Lemma calm_host s s' : host s s' → calm_state s → calm_state s'.
Proof.
  intros Hh Hc. destruct Hh as [i k s Hk Hr|i k s Hk Hr|i k e s Hk Hr|t d b s Hin Hd|t s Hin Hd].
  - assert (states s !! i = Some CONNECTING) as Hi by (unfold states; by rewrite list_lookup_fmap, Hk; cbn; rewrite Hr).
    assert (timers s = []) as Ht.
    { apply no_timers. intros t Hin. destruct (timer_kinds t) as [Hrt|Hht].
      - destruct (calm_reconnect _ _ _ _ _ Hc t Hin Hrt) as [_ Hall]. rewrite Forall_lookup in Hall. by specialize (Hall i _ Hi).
      - destruct (calm_heartbeat _ _ _ _ _ Hc t Hin Hht) as (_ & j & _ & Hj).
        assert (i = j) as <- by (eapply (calm_single _ _ _ _ _ Hc); [exact Hi|exact Hj|done|done]). congruence. }
    assert (ws s = Some i) as Hw.
    { destruct (decide (ws s = Some i)) as [|Hne]; [done|].
      by destruct (calm_current _ _ _ _ _ Hc i _ Hi Hne). }
    assert (calm_state (startHeartbeat (set_attempts 0 (set_state i OPEN s)))) as Hcalm.
    { assert (states (startHeartbeat (set_attempts 0 (set_state i OPEN s))) = alter (λ _, OPEN) i (states s)) as Est
        by apply states_set_state.
      unfold calm_state. rewrite Est. cbn [timers ws reconnectTimer heartbeatTimer startHeartbeat start_timer set_heartbeatTimer
        set_next_timer set_timers set_attempts set_state set_sockets next_timer]. rewrite Hw, Ht. cbn [app]. split.
      - by intros t ->%list_elem_of_singleton [].
      - intros t ->%list_elem_of_singleton _. split; [done|]. exists i. split; [done|].
        rewrite list_lookup_alter_eq, Hi. done.
      - intros j x [[<- _]|[_ Hj]]%alter_const_lookup Hne; [done|]. eapply calm_current; [exact Hc|exact Hj|congruence].
      - assert (∀ j x, alter (λ _, OPEN) i (states s) !! j = Some x → x ≠ CLOSED → j = i) as Hone.
        { intros j x [[<- _]|[_ Hj]]%alter_const_lookup Hx; [done|].
          by eapply (calm_single _ _ _ _ _ Hc). }
        intros j j' x y Hj Hj' Hx Hy. by rewrite (Hone j x), (Hone j' y). }
    unfold onopen, subscribe. destruct (negb (is_open _)) eqn:Eo; [done|]. cbv zeta.
    destruct (_ <? _)%nat; [|done]. apply negb_false_iff in Eo.
    pose proof (calm_send (Subscribe (map_keys (listeners (startHeartbeat (set_attempts 0 (set_state i OPEN s)))))) _ Hcalm) as H.
    unfold send_if_open in H. by rewrite Eo in H.
  - assert (Forall (.= CLOSED) (states (set_state i CLOSED s))) as Hall.
    { rewrite states_set_state. apply Forall_lookup. intros j x [[_ ->]|[Hne Hj]]%alter_const_lookup; [done|].
      destruct (decide (x = CLOSED)) as [|Hx]; [done|]. destruct Hne.
      eapply (calm_single _ _ _ _ _ Hc); [|exact Hj| |exact Hx].
      - unfold states. by rewrite list_lookup_fmap, Hk.
      - done. }
    assert (timers (stopHeartbeat (set_state i CLOSED s)) = []) as Ht.
    { apply no_timers. intros t Hin.
      destruct (stopHeartbeat_timers (states s) (ws s) (set_state i CLOSED s) Hc t Hin) as [Hin' Hrt].
      destruct (calm_reconnect _ _ _ _ _ Hc t Hin' Hrt) as [_ Ha]. rewrite Forall_lookup in Ha.
      apply Hr. apply (Ha i). unfold states. by rewrite list_lookup_fmap, Hk. }
    destruct (stopHeartbeat_shape (set_state i CLOSED s)) as (E1 & _). rewrite <- E1 in Hall.
    unfold onclose. cbv zeta. destruct (negb _); [by apply attemptReconnect_calm|].
    apply calm_closed; [done|]. rewrite Ht. by intros t ?%elem_of_nil.
  - unfold handleMessage. by destruct (map_get _ _).
  - destruct (calm_reconnect _ _ _ _ _ Hc t Hin) as [E Hall]; [by eexists|].
    apply connect_calm; [done|]. cbn. apply no_timers. intros t' [Hin' Hne]%elem_of_without.
    destruct (timer_kinds t') as [Hrt|Hht].
    + destruct (calm_reconnect _ _ _ _ _ Hc t' Hin' Hrt) as [E' _]. congruence.
    + destruct (calm_heartbeat _ _ _ _ _ Hc t' Hin' Hht) as (_ & j & _ & Hj). rewrite Forall_lookup in Hall.
      by specialize (Hall j _ Hj).
  - by apply calm_send.
Qed.

Lemma calm_listeners s l : calm_state s → calm_state (set_listeners l s).
Proof. done. Qed.

Lemma careful_calm s : careful s → calm_state s.
Proof.
  induction 1 as [|b s _ _ Ht Hc|s _ IH|t c s _ IH|t c s _ IH|s s' _ IH Hh].
  - apply calm_closed; [constructor|]. by intros t ?%elem_of_nil.
  - by apply connect_calm.
  - by apply calm_disconnect.
  - apply calm_send. exact IH.
  - unfold off. cbv zeta. destruct (map_get _ _); [|done]. destruct (set_delete _ _); [by apply calm_send|done].
  - by eapply calm_host.
Qed.

(** C18: When the service was only connected while nothing of an earlier connection was left,
    a disconnection is final: whatever sockets and timers do afterwards, no timer is
    pending, no socket is created and the status is closed. *)
Theorem disconnect_is_final s s' : careful s → rtc host (disconnect s) s' →
  timers s' = [] ∧ length (sockets s') = length (sockets s) ∧ getStatus s' = closed.
Proof.
  intros Hs Hr. apply careful_calm in Hs.
  assert (length (sockets (disconnect s)) = length (sockets s)) as Hl.
  { unfold disconnect. cbv zeta. set (s1 := stopHeartbeat _).
    assert (sockets s1 = sockets s) as E1 by apply (stopHeartbeat_core (set_closed true s)).
    set (s2 := match reconnectTimer s1 with Some n => set_reconnectTimer None (clear_timer n s1) | None => s1 end).
    assert (sockets s2 = sockets s) as E2 by (unfold s2; by destruct (reconnectTimer s1)).
    destruct (ws s2) as [i|]; cbn; [|by rewrite E2]. unfold close. rewrite <- E2.
    destruct (readyState <$> sockets s2 !! i) as [[]|]; cbn; by rewrite ?length_alter. }
  assert (silent s' ∧ length (sockets s') = length (sockets s)) as [[_ Hw Ht _] Hn].
  { revert s' Hr. refine (rtc_ind_r _ _ _ _); [by split; [apply disconnect_silent|]|].
    intros x y _ Hxy [Hx Hlx]. destruct (host_silent _ _ Hxy Hx) as [Hy Hly]. split; [done|]. by rewrite Hly. }
  split_and!; [done|done|]. unfold getStatus, state_of. by rewrite Hw.
Qed.

(** Without that care it is not: two sockets that close leave two timers, of which the
    disconnection clears the second; the first connects again. *)
Theorem stale_timer_reconnects : ∃ s s',
  rtc step fresh s ∧ rtc host (disconnect s) s' ∧ getStatus s' = open ∧ isIntentionallyClosed s' = false.
Proof.
  set (s1 := connect true (connect true fresh)).
  set (s2 := onclose (set_state 1 CLOSED (onclose (set_state 0 CLOSED s1)))).
  set (s3 := disconnect s2).
  exists s2, (onopen (set_state 2 OPEN (connect true (set_attempts 1 (clear_timer 0 s3))))). split_and!.
  - eapply rtc_l; [apply (by_call (Connect true))|]. eapply rtc_l; [apply (by_call (Connect true))|].
    eapply rtc_l; [apply by_host, (closes 0%nat (MkSocket CONNECTING [])); done|].
    eapply rtc_l; [apply by_host, (closes 1%nat (MkSocket CONNECTING [])); done|]. apply rtc_refl.
  - eapply rtc_l; [apply (reconnects (MkTimer 0 (Reconnect 3000)) 3000 true); [by left|done]|].
    eapply rtc_l; [apply (opens 2%nat (MkSocket CONNECTING [])); done|]. apply rtc_refl.
  - vm_compute. reflexivity.
  - vm_compute. reflexivity.
Qed.

(** ** Witnesses *)

Definition demo_listening : WebSocketService := call (On newBlock 7) fresh.
Definition demo_connecting : WebSocketService := call (Connect true) demo_listening.
Definition demo : WebSocketService := onopen (set_state 0 OPEN demo_connecting).

Lemma demo_opens : host demo_connecting demo.
Proof. apply (opens 0%nat (MkSocket CONNECTING [])); reflexivity. Qed.

Lemma demo_socket_reachable : rtc step fresh demo.
Proof.
  eapply rtc_l; [apply (by_call (On newBlock 7))|]. eapply rtc_l; [apply (by_call (Connect true))|].
  apply rtc_once, by_host, demo_opens.
Qed.

Lemma demo_careful : careful demo.
Proof.
  apply (careful_host demo_connecting); [|apply demo_opens].
  apply (careful_connect true demo_listening); [apply careful_on, careful_start|reflexivity|constructor].
Qed.

Lemma open_socket_subscribed_witness :
  subscribed [Subscribe ["newBlock"]] "newBlock" = true ↔ ∃ l, map_get "newBlock" (listeners demo) = Some l.
Proof. exact (open_socket_subscribed demo 0 (MkSocket OPEN [Subscribe ["newBlock"]]) demo_socket_reachable eq_refl eq_refl eq_refl "newBlock"). Defined.

Lemma disconnect_is_final_witness : timers (disconnect demo) = [] ∧ getStatus (disconnect demo) = closed.
Proof. destruct (disconnect_is_final demo (disconnect demo) demo_careful (rtc_refl _ _)) as (Ht & _ & Hs). by split. Defined.

(** ** Polling *)

Module PollingFacts.
Import Polling.

(** The intervals that run are those the service knows by their keys. *)
Definition known (s : PollingService) : Prop :=
  Forall (λ t, map_get t.2 (intervals s) = Some t.1) (running s).

Inductive reachable : PollingService → Prop :=
  | start : reachable (MkPolling [] [] 1 [])
  | polling key s : reachable s → reachable (startPolling key s)
  | stopping key s : reachable s → reachable (stopPolling key s)
  | stopping_all s : reachable s → reachable (stopAll s)
  | polled n s : reachable s → reachable (poll n s).

Lemma reachable_known s : reachable s → known s.
Proof.
  unfold known. induction 1 as [|key s _ IH|key s _ IH|s _ IH|n s _ IH]; [constructor|..]; rewrite Forall_forall in IH.
  - unfold startPolling. destruct (map_has key (intervals s)) eqn:E; [by apply Forall_forall|].
    apply map_has_false in E. cbn. apply Forall_app. split; [|constructor; [apply map_get_set_eq|constructor]].
    apply Forall_forall. intros [n k] Hin. cbn. rewrite map_get_set_ne; [by apply (IH (n, k))|].
    intros <-. specialize (IH _ Hin). cbn in IH. congruence.
  - unfold stopPolling. destruct (map_get key (intervals s)) as [n|] eqn:E; [|by apply Forall_forall]. cbn.
    apply Forall_forall. intros [m k] [Hin Hne%negb_true_iff%Nat.eqb_neq]%elem_of_js_filter. cbn in *.
    rewrite map_get_delete_ne; [by apply (IH (m, k))|]. intros <-. specialize (IH _ Hin). cbn in IH. congruence.
  - cbn. apply Forall_forall. intros [n k] [Hin Hno%negb_true_iff]%elem_of_js_filter. exfalso.
    rewrite js_some_false in Hno. specialize (Hno n). cbn in Hno. rewrite Nat.eqb_refl in Hno.
    enough (true = false) by done. apply Hno. apply elem_of_map_values. exists k. apply map_get_Some_elem. by apply (IH (n, k)).
  - unfold poll. destruct (js_find _ _) as [[m k]|]; by apply Forall_forall.
Qed.

(** Stopping all polling leaves no interval running, and stopping one key none for it. *)
Theorem polling_stops s key : reachable s →
  running (stopAll s) = [] ∧ ∀ n, (n, key) ∉ running (stopPolling key s).
Proof.
  intros Hs. pose proof (reachable_known s Hs) as Hk. unfold known in Hk. rewrite Forall_forall in Hk. split.
  - cbn. destruct (js_filter _ _) as [|[n k] l] eqn:E; [done|]. exfalso.
    assert ((n, k) ∈ js_filter (λ t : nat * string, negb (js_some (λ m, (t.1 =? m)%nat) (map_values (intervals s)))) (running s))
      as [Hin Hno%negb_true_iff]%elem_of_js_filter by (rewrite E; by left).
    rewrite js_some_false in Hno. specialize (Hno n). cbn in Hno. rewrite Nat.eqb_refl in Hno.
    enough (true = false) by done. apply Hno. apply elem_of_map_values. exists k. apply map_get_Some_elem. by apply (Hk (n, k)).
  - intros n Hin. pose proof (reachable_known _ (stopping key s Hs)) as Hk'. unfold known in Hk'. rewrite Forall_forall in Hk'.
    specialize (Hk' _ Hin). cbn in Hk'. unfold stopPolling in Hin, Hk'.
    destruct (map_get key (intervals s)) as [m|] eqn:E; cbn in *; [by rewrite map_get_delete_eq in Hk'|congruence].
Qed.
End PollingFacts.
