(* ===== verification/QrService.v ===== *)
(** * [QRService] (apps/web/wallet/src/services/qrService.ts)

    Payment requests as [kubercoin:] URIs, written and read, and the history of codes.
    Texts are ASCII. The pictures ([generateQR] paints a canvas, [decodeQR] always answers
    null) are not modelled, apart from the hash that chooses the painted modules. *)

From Stdlib Require Import Ascii String.
From S2P Require Import Prelude JsMap JsNumber JsString Bytes Store JsDate.
Local Open Scope stdpp_scope.

(** ** Percent encoding *)

Definition upper_hex (d : Z) : ascii := if d <? 10 then char_of (48 + d) else char_of (55 + d).

(** The characters [encodeURIComponent] leaves: letters, digits and [- _ . ! ~ * ' ( )]. *)
Definition unreserved (c : ascii) : bool :=
  is_upper c || is_lower c || is_digit c ||
  existsb (λ n, char_code c =? n) [45; 95; 46; 33; 126; 42; 39; 40; 41].

Fixpoint encodeURIComponent (s : string) : string :=
  match s with
  | EmptyString => EmptyString
  | String c s' =>
      if unreserved c then String c (encodeURIComponent s')
      else String "%" (String (upper_hex (char_code c / 16)) (String (upper_hex (char_code c mod 16)) (encodeURIComponent s')))
  end.

(** [decodeURIComponent]: [None] is a URIError. *)
Fixpoint decodeURIComponent (s : string) : option string :=
  match s with
  | EmptyString => Some EmptyString
  | String c s' =>
      if Ascii.eqb c "%" then
        match s' with
        | String c1 (String c2 s'') =>
            match hex_value c1, hex_value c2 with
            | Some a, Some b => String (char_of (16 * a + b)) <$> decodeURIComponent s''
            | _, _ => None
            end
        | _ => None
        end
      else String c <$> decodeURIComponent s'
  end.

(** The decoding of [URLSearchParams]: a plus is a space, a percent sign that two hexadecimal
    digits do not follow stays. *)
Fixpoint form_decode (s : string) : string :=
  match s with
  | EmptyString => EmptyString
  | String c s' =>
      if Ascii.eqb c "+" then String " " (form_decode s')
      else if Ascii.eqb c "%" then
        match s' with
        | String c1 (String c2 s'') =>
            match hex_value c1, hex_value c2 with
            | Some a, Some b => String (char_of (16 * a + b)) (form_decode s'')
            | _, _ => String c (form_decode s')
            end
        | _ => String c (form_decode s')
        end
      else String c (form_decode s')
  end.


(** A parameter: the name up to the first [=], and the value. *)
Definition parameter (p : string) : string * string :=
  let '(n, v) := span (not_char "=") p in
  (form_decode n, form_decode (match v with String _ v' => v' | EmptyString => EmptyString end)).

(** [new URLSearchParams(q)] *)
Definition URLSearchParams (q : string) : list (string * string) :=
  parameter <$> js_filter (λ p, negb (str_eqb p "")) (split_on "&" q).

(** ** Payment requests *)

(** [expiry] is a [Date], whose time value is [None] when it is invalid. *)
Record PaymentRequest := MkPaymentRequest {
  address : string;
  amount : option num;
  note : option string;
  expiry : option (option Z);
}.

Inductive EntryType := generated | scanned.
Record HistoryEntry := MkEntry { type : EntryType; data : string; timestamp : string }.

(** The service has no fields: its state is the stored history. *)
Record QRService := MkQr { ls_history : cell (list HistoryEntry) }.
Definition set_ls_history c (s : QRService) := MkQr c.

Abbreviation M := (js (QRService * Env)).

(** The integer part of a number. *)
Definition integer_part (x : num) : option Z :=
  match x with
  | S754_zero _ => Some 0
  | S754_finite s m e => Some (if s then - floor_Z false m e else floor_Z false m e)
  | _ => None
  end.

(** The time value of [new Date(x)]. *)
Definition TimeClip (x : num) : option Z :=
  t ← integer_part x; if Z.abs t <=? 8640000000000000 then Some t else None.

Definition createPaymentRequest (addr : string) (amt : option num) (nt : option string) (expiryHours : num) : M string :=
  let amt' := match amt with Some a => if truthy_num a && SFltb nzero a then Some a else None | None => None end in
  let nt' := if truthy_str nt then nt else None in
  expiry ← (if SFltb nzero expiryHours then
              now ← date_now;
              match TimeClip (nadd (of_Z now) (nmul expiryHours (of_Z 3600000))) with
              | Some t => mret (Some t)
              | None => js_throw "Invalid time value"
              end
            else mret None);
  let params := option_list ((λ a, "amount=" +:+ num_to_string a) <$> amt')
    ++ option_list ((λ n, "note=" +:+ encodeURIComponent n) <$> nt')
    ++ option_list ((λ t, "expiry=" +:+ toISOString t) <$> expiry) in
  mret ("kubercoin:" +:+ addr +:+ match params with [] => EmptyString | _ => "?" +:+ join "&" params end).

(** [data.replace(/^kubercoin:/, '')] *)
Definition cleaned (d : string) : string :=
  if startsWith "kubercoin:" d then String.substring 10 (String.length d - 10) d else d.

(** The value of a parameter, if it is not empty. *)
Definition param (k : string) (l : list (string * string)) : option string :=
  match map_get k l with Some v => if str_eqb v "" then None else Some v | None => None end.

(** [new Date(s)]: [Date.parse] on texts of the form of [toISOString]; on others (other
    forms of ISO 8601, and what the implementation accepts besides) it is [parse_other]. *)
Definition new_Date (parse_other : string → option Z) (s : string) : option Z :=
  match Date_parse s with Some t => Some t | None => parse_other s end.

Definition parsePaymentRequest (parse_other : string → option Z) (d : string) : option PaymentRequest :=
  match split_on "?" (cleaned d) with
  | [] => None
  | addr :: rest =>
      if str_eqb addr "" then None
      else match rest with
           | [] => Some (MkPaymentRequest addr None None None)
           | q :: _ =>
               if str_eqb q "" then Some (MkPaymentRequest addr None None None)
               else
                 let params := URLSearchParams q in
                 match param "note" params with
                 | None => Some (MkPaymentRequest addr (parseFloat <$> param "amount" params) None
                     (new_Date parse_other <$> param "expiry" params))
                 | Some n =>
                     match decodeURIComponent n with
                     | None => None
                     | Some n' => Some (MkPaymentRequest addr (parseFloat <$> param "amount" params) (Some n')
                         (new_Date parse_other <$> param "expiry" params))
                     end
                 end
           end
  end.

(** [hash |= 0]: a signed integer of 32 bits. *)
Definition int32 (z : Z) : Z := (z + 2 ^ 31) mod 2 ^ 32 - 2 ^ 31.

(** [(hash << 5) - hash + c], cut to 32 bits, over the characters. *)
Definition simpleHash (s : string) : Z :=
  Z.abs (foldl (λ h c, int32 (int32 (Z.shiftl h 5) - h + c)) 0 (bytes_of s)).

(** ** History *)

Definition getHistory : M (list HistoryEntry) :=
  ls_use (
    s ← this;
    match truthy_cell (ls_history s) with
    | None => mret []
    | Some t => JSON_parse t
    end).

Definition saveToHistory (ty : EntryType) (d : string) : M () :=
  history ← getHistory;
  now ← date_now;
  let history' := MkEntry ty d (toISOString now) :: history in
  ls_use (ls_setItem (set_ls_history (Some (TJson (if (50 <? length history')%nat then take 50 history' else history'))))).

Definition clearHistory : M () := ls_use (ls_removeItem (set_ls_history None)).

(** * Theorems *)

(** ** Encoding and decoding *)

Lemma hex_value_upper d : 0 <= d < 16 → hex_value (upper_hex d) = Some d.
Proof.
  intros Hd. assert (d = 0 ∨ d = 1 ∨ d = 2 ∨ d = 3 ∨ d = 4 ∨ d = 5 ∨ d = 6 ∨ d = 7 ∨ d = 8 ∨ d = 9 ∨
    d = 10 ∨ d = 11 ∨ d = 12 ∨ d = 13 ∨ d = 14 ∨ d = 15) as H by lia.
  repeat destruct H as [->|H]; try (vm_compute; reflexivity). subst. vm_compute. reflexivity.
Qed.

Lemma hex_pair c : hex_value (upper_hex (char_code c / 16)) = Some (char_code c / 16) ∧
  hex_value (upper_hex (char_code c mod 16)) = Some (char_code c mod 16) ∧
  char_of (16 * (char_code c / 16) + char_code c mod 16) = c.
Proof.
  pose proof (char_code_bound c) as Hb. unfold is_byte in Hb.
  rewrite !hex_value_upper by (Z.to_euclidean_division_equations; lia).
  split_and!; [done..|]. rewrite <- Z.div_mod by lia. apply char_of_code.
Qed.

Lemma unreserved_plain c : unreserved c = true → Ascii.eqb c "%" = false ∧ Ascii.eqb c "+" = false ∧
  Ascii.eqb c "&" = false ∧ Ascii.eqb c "?" = false.
Proof. destruct c as [[] [] [] [] [] [] [] []]; vm_compute; auto. Qed.

(** Both decoders undo the encoding. *)
Lemma decode_encode s : decodeURIComponent (encodeURIComponent s) = Some s ∧ form_decode (encodeURIComponent s) = s.
Proof.
  induction s as [|c s [IH1 IH2]]; [done|]. cbn [encodeURIComponent]. destruct (unreserved c) eqn:E.
  - destruct (unreserved_plain c E) as (H1 & H2 & _). cbn [decodeURIComponent form_decode]. rewrite H1, H2, IH1, IH2. done.
  - destruct (hex_pair c) as (H1 & H2 & H3). cbn [decodeURIComponent form_decode].
    change (Ascii.eqb "%" "%") with true. change (Ascii.eqb "%" "+") with false. cbv iota. rewrite H1, H2, IH1, IH2. cbn. by rewrite H3.
Qed.

(** A text that percent and plus signs do not occur in is its own form encoding. *)
Definition plain (c : ascii) : bool :=
  not_char "%" c && not_char "+" c && not_char "&" c && not_char "?" c.

Lemma form_decode_plain s : str_all plain s = true → form_decode s = s.
Proof.
  induction s as [|c s IH]; [done|]. cbn [str_all form_decode].
  rewrite andb_true_iff. intros [Hc Hs]. unfold plain, not_char in Hc. rewrite !andb_true_iff, !negb_true_iff in Hc.
  destruct Hc as [[[H1 H2] _] _]. by rewrite H1, H2, IH.
Qed.

(** A text that separates neither parameters nor the query. *)
Definition one_piece (c : ascii) : bool := not_char "&" c && not_char "?" c.

Lemma upper_hex_piece d : 0 <= d < 16 → one_piece (upper_hex d) = true.
Proof.
  intros Hd. assert (d = 0 ∨ d = 1 ∨ d = 2 ∨ d = 3 ∨ d = 4 ∨ d = 5 ∨ d = 6 ∨ d = 7 ∨ d = 8 ∨ d = 9 ∨
    d = 10 ∨ d = 11 ∨ d = 12 ∨ d = 13 ∨ d = 14 ∨ d = 15) as H by lia.
  repeat destruct H as [->|H]; try (vm_compute; reflexivity). subst. vm_compute. reflexivity.
Qed.

Lemma encode_piece s : str_all one_piece (encodeURIComponent s) = true.
Proof.
  induction s as [|c s IH]; [done|]. cbn [encodeURIComponent]. destruct (unreserved c) eqn:E; cbn [str_all].
  - destruct (unreserved_plain c E) as (_ & _ & H1 & H2). rewrite IH. unfold one_piece, not_char. by rewrite H1, H2.
  - pose proof (char_code_bound c) as Hb. unfold is_byte in Hb.
    rewrite !upper_hex_piece by (Z.to_euclidean_division_equations; lia). by rewrite IH.
Qed.

Lemma plain_piece s : str_all plain s = true → str_all one_piece s = true.
Proof. apply str_all_impl. intros c. unfold plain, one_piece. rewrite !andb_true_iff. tauto. Qed.

Lemma iso_plain t : 0 <= YearFromDay (Day t) <= 9999 → str_all plain (toISOString t) = true.
Proof.
  intros Hy. assert (∀ n z, (n = 2 ∨ n = 3 ∨ n = 4)%nat → 0 <= z < 10 ^ Z.of_nat n → str_all plain (digits_padded n z) = true) as Hd.
  { intros n z Hn Hz. pose proof (take_digits_padded n z "" Hn Hz) as H. rewrite str_app_nil_r in H.
    unfold take_digits in H. apply bind_Some in H as ([a b] & Ha & H).
    destruct (str_all is_digit a) eqn:E; [|done]. apply bind_Some in H as (z' & _ & H). injection H as -> ->.
    assert (digits_padded n z = a) as ->.
    { clear -Ha. revert Ha. generalize (digits_padded n z). revert a. induction n as [|n IH]; intros a s; cbn.
      - by intros [= <- ->].
      - destruct s as [|c s]; [done|]. intros ([x y] & Hx & Hxy)%bind_Some. injection Hxy as <- ->. f_equal. by apply IH. }
    revert E. apply str_all_impl. intros c. destruct c as [[] [] [] [] [] [] [] []]; vm_compute; auto. }
  unfold toISOString, iso_date, iso_year. cbv zeta.
  assert ((0 <=? YearFromDay (Day t)) && (YearFromDay (Day t) <=? 9999) = true) as -> by (rewrite andb_true_iff, !Z.leb_le; lia).
  pose proof (month_date_bounds (Day t)) as [Hm Hdt]. pose proof (Z.mod_pos_bound t msPerDay ltac:(done)) as Hms.
  fold (TimeWithinDay t) in Hms. set (ms := TimeWithinDay t) in *. unfold two, msPerDay in *.
  rewrite !str_all_app, !Hd; [done|auto; cbn; Z.to_euclidean_division_equations; lia..].
Qed.

(** ** A request read back *)

(** The pieces of the query: each has a name, a value whose form decoding is known, and
    separates nothing. *)
Record piece := MkPiece { p_name : string; p_text : string; p_value : string }.

Definition piece_ok (p : piece) : Prop :=
  str_all (not_char "=") (p_name p) = true ∧ form_decode (p_name p) = p_name p ∧ p_name p ≠ "" ∧
  str_all one_piece (p_name p) = true ∧ str_all one_piece (p_text p) = true ∧ form_decode (p_text p) = p_value p.

Definition piece_text (p : piece) : string := p_name p +:+ String "=" (p_text p).

Lemma piece_text_one p : piece_ok p → str_all one_piece (piece_text p) = true.
Proof.
  intros (_ & _ & _ & Hn & Ht & _). unfold piece_text. rewrite str_all_app, Hn. cbn [str_all]. by rewrite Ht.
Qed.

Lemma one_piece_amp s : str_all one_piece s = true → str_all (not_char "&") s = true.
Proof. apply str_all_impl. intros c. unfold one_piece. rewrite andb_true_iff. tauto. Qed.
Lemma one_piece_query s : str_all one_piece s = true → str_all (not_char "?") s = true.
Proof. apply str_all_impl. intros c. unfold one_piece. rewrite andb_true_iff. tauto. Qed.

Lemma search_params l : l ≠ [] → Forall piece_ok l →
  URLSearchParams (join "&" (piece_text <$> l)) = (λ p, (p_name p, p_value p)) <$> l.
Proof.
  intros Hne Hl. unfold URLSearchParams. rewrite split_join.
  - rewrite js_filter_all.
    + rewrite <- list_fmap_compose. apply list_fmap_ext. intros i p Hi. rewrite Forall_lookup in Hl.
      destruct (Hl i p Hi) as (Hq & Hfn & _ & _ & _ & Hft). unfold parameter, piece_text. cbn [compose].
      rewrite span_app by done. by rewrite Hfn, Hft.
    + intros x (p & -> & Hp)%list_elem_of_fmap. apply negb_true_iff, str_eqb_false. unfold piece_text.
      intros E. rewrite Forall_forall in Hl. destruct (Hl p Hp) as (_ & _ & Hn & _). destruct (p_name p); [done|].
      discriminate E.
  - by destruct l.
  - apply Forall_fmap. eapply Forall_impl; [exact Hl|]. intros p Hp. by apply one_piece_amp, piece_text_one.
Qed.

Lemma join_piece l : Forall (λ s, str_all one_piece s = true) l → str_all (not_char "?") (join "&" l) = true.
Proof.
  induction l as [|s l IH]; [done|]. intros Hl. inversion Hl as [|?? Hs Hl']; subst.
  destruct l as [|s' l]; [by apply one_piece_query|].
  change (join "&" (s :: s' :: l)) with (s +:+ String "&" (join "&" (s' :: l))).
  rewrite str_all_app. cbn [str_all]. rewrite IH by done. by rewrite one_piece_query.
Qed.

Lemma substring_suffix a b : String.substring (String.length a) (String.length (a +:+ b) - String.length a) (a +:+ b) = b.
Proof.
  rewrite length_app_str. replace (String.length a + String.length b - String.length a)%nat with (String.length b) by lia.
  apply substring_app.
Qed.

(** The pieces of the parameters that are present, in their order. *)
Definition pieces (amt nt : option string) (ex : option Z) : list piece :=
  option_list ((λ a, MkPiece "amount" a a) <$> amt) ++
  option_list ((λ n, MkPiece "note" (encodeURIComponent n) n) <$> nt) ++
  option_list ((λ t, MkPiece "expiry" (toISOString t) (toISOString t)) <$> ex).

Definition in_years (t : Z) : Prop := 0 <= YearFromDay (Day t) <= 9999.

Lemma pieces_ok amt nt ex : (∀ a, amt = Some a → str_all plain a = true) → (∀ t, ex = Some t → in_years t) →
  Forall piece_ok (pieces amt nt ex).
Proof.
  intros Ha Ht. unfold pieces. rewrite !Forall_app. split_and!.
  - destruct amt as [a|]; cbn; constructor; [|constructor]. specialize (Ha a eq_refl).
    split_and!; try done; [by apply plain_piece|by apply form_decode_plain].
  - destruct nt as [n|]; cbn; constructor; [|constructor]. split_and!; try done; [apply encode_piece|apply decode_encode].
  - destruct ex as [t|]; cbn; constructor; [|constructor]. pose proof (iso_plain t (Ht t eq_refl)) as Hi.
    split_and!; try done; [by apply plain_piece|by apply form_decode_plain].
Qed.

Lemma params_pieces (amt : option num) nt ex :
  option_list ((λ a, "amount=" +:+ num_to_string a) <$> amt)
    ++ option_list ((λ n, "note=" +:+ encodeURIComponent n) <$> nt)
    ++ option_list ((λ t, "expiry=" +:+ toISOString t) <$> ex)
  = piece_text <$> pieces (num_to_string <$> amt) nt ex.
Proof. unfold pieces. rewrite !fmap_app. destruct amt, nt, ex; reflexivity. Qed.

(** What reading the URI of a request gives. *)
Lemma parse_pieces other addr amt nt ex : addr ≠ "" → str_all (not_char "?") addr = true →
  (∀ a, amt = Some a → str_all plain a = true ∧ a ≠ "") → (∀ n, nt = Some n → n ≠ "") → (∀ t, ex = Some t → in_years t) →
  parsePaymentRequest other ("kubercoin:" +:+ addr +:+
    match piece_text <$> pieces amt nt ex with [] => EmptyString | l => "?" +:+ join "&" l end) =
  match nt ≫= decodeURIComponent, nt with
  | None, Some _ => None
  | nt', _ => Some (MkPaymentRequest addr (parseFloat <$> amt) nt' ((λ t, Some t) <$> ex))
  end.
Proof.
  intros Ha Hq Hamt Hnt Hex.
  assert (Forall piece_ok (pieces amt nt ex)) as Hok by (apply pieces_ok; [intros a Ea; by apply Hamt|done]).
  assert (∀ t, ex = Some t → new_Date other (toISOString t) = Some t ∧ toISOString t ≠ "") as Hdate.
  { intros t Et. pose proof (Date_parse_ISO t (Hex t Et)) as H. split; [unfold new_Date; by rewrite H|].
    intros E. rewrite E in H. by vm_compute in H. }
  unfold parsePaymentRequest, cleaned. rewrite startsWith_app.
  pose proof (λ b, substring_suffix "kubercoin:" b) as Hsub. change (String.length "kubercoin:") with 10%nat in Hsub.
  rewrite Hsub.
  destruct (piece_text <$> pieces amt nt ex) as [|x l] eqn:El.
  - rewrite str_app_nil_r, split_on_none by done. rewrite (proj2 (str_eqb_false _ _) Ha).
    destruct amt, nt, ex; try discriminate El. done.
  - change ("?" +:+ join "&" (x :: l)) with (String "?" (join "&" (x :: l))). rewrite <- El.
    rewrite split_on_join by done. rewrite (proj2 (str_eqb_false _ _) Ha).
    assert (Forall (λ s, str_all one_piece s = true) (piece_text <$> pieces amt nt ex)) as Hpt.
    { apply Forall_fmap. eapply Forall_impl; [exact Hok|]. apply piece_text_one. }
    rewrite split_on_none by (by apply join_piece).
    assert (str_eqb (join "&" (piece_text <$> pieces amt nt ex)) "" = false) as ->.
    { apply str_eqb_false. intros E. assert (pieces amt nt ex ≠ []) as Hne by (intros E'; by rewrite E' in El).
      destruct (pieces amt nt ex) as [|p [|p' ps]]; [done|..]; inversion Hok as [|?? (_ & _ & Hn & _) _]; subst.
      - cbn in E. unfold piece_text in E. destruct (p_name p); [done|discriminate E].
      - change (join "&" (piece_text <$> p :: p' :: ps)) with (piece_text p +:+ String "&" (join "&" (piece_text <$> p' :: ps))) in E.
        unfold piece_text in E. destruct (p_name p); [done|discriminate E]. }
    rewrite search_params; [|intros E'; by rewrite E' in El|done]. unfold param, pieces. cbv zeta.
    assert (∀ a, amt = Some a → str_eqb a "" = false) as Ha' by (intros a Ea; apply str_eqb_false; by apply Hamt).
    assert (∀ n, nt = Some n → str_eqb n "" = false) as Hn' by (intros n En; apply str_eqb_false; by apply Hnt).
    assert (∀ t, ex = Some t → str_eqb (toISOString t) "" = false) as Ht' by (intros t Et; apply str_eqb_false; by apply Hdate).
    destruct amt as [a|], nt as [n|], ex as [t|]; try (by destruct (El : [] = x :: l));
      cbn -[toISOString new_Date str_eqb decodeURIComponent parseFloat encodeURIComponent];
      repeat match goal with
      | |- context [str_eqb ?u ?v] =>
          first [rewrite (Ha' u eq_refl)|rewrite (Hn' u eq_refl)|rewrite (Ht' _ eq_refl)|
                 let b := eval vm_compute in (str_eqb u v) in change (str_eqb u v) with b; cbv iota]
      end;
      try destruct (decodeURIComponent n); cbn -[toISOString new_Date parseFloat];
      try rewrite (proj1 (Hdate _ eq_refl)); reflexivity.
Qed.

Lemma decode_no_percent s : str_all (not_char "%") s = true → decodeURIComponent s = Some s.
Proof.
  induction s as [|c s IH]; [done|]. cbn [str_all]. intros [Hc Hs]%andb_true_iff.
  unfold not_char in Hc. apply negb_true_iff in Hc. cbn [decodeURIComponent]. by rewrite Hc, IH.
Qed.

Lemma decode_percent_end s : str_all (not_char "%") s = true → decodeURIComponent (s +:+ "%") = None.
Proof.
  induction s as [|c s IH]; [done|]. cbn [str_all]. intros [Hc Hs]%andb_true_iff.
  unfold not_char in Hc. apply negb_true_iff in Hc.
  change (decodeURIComponent (String c (s +:+ "%")) = None). cbn [decodeURIComponent]. by rewrite Hc, IH.
Qed.

(** The amount's text is one that a query holds as it is: no exponent with a plus. *)
Definition plain_amount (a : num) : Prop :=
  SFltb nzero a = true ∧ str_all plain (num_to_string a) = true ∧ num_to_string a ≠ "".

Definition expires (e : Env) (hours : num) (t : Z) : Prop :=
  SFltb nzero hours = true ∧ TimeClip (nadd (of_Z (reading e 0)) (nmul hours (of_Z 3600000))) = Some t ∧ in_years t.

(** What is written of an optional amount and of an optional note: a positive one, and one that is not empty. *)
Definition given_amount (amt : option num) : option num := match amt with Some a => if SFltb nzero a then Some a else None | None => None end.
Definition given_note (nt : option string) : option string := match nt with Some n => if decide (n = "") then None else Some n | None => None end.

(** The request expires at [ex], or never when no hours are given. *)
Definition expires_at (e : Env) (hours : num) (ex : option Z) : Prop :=
  match ex with Some t => expires e hours t | None => SFltb nzero hours = false end.

Lemma createPaymentRequest_run addr amt nt hours ex s e : expires_at e hours ex →
  createPaymentRequest addr amt nt hours (s, e) =
  (Ok ("kubercoin:" +:+ addr +:+
    match piece_text <$> pieces (num_to_string <$> given_amount amt) (given_note nt) ex with
    | [] => EmptyString | l => "?" +:+ join "&" l end), (s, if ex then tick e else e)).
Proof.
  intros He. unfold createPaymentRequest. cbv zeta.
  assert (match amt with Some a => if truthy_num a && SFltb nzero a then Some a else None | None => None end = given_amount amt) as ->.
  { destruct amt as [a|]; [|done]. cbn. destruct (SFltb nzero a) eqn:E; [|by rewrite andb_false_r]. assert (truthy_num a = true) as -> by (destruct a as [[]|[]| |[]]; done). done. }
  assert ((if truthy_str nt then nt else None) = given_note nt) as ->.
  { destruct nt as [n|]; [|done]. cbn. destruct (str_eqb n "") eqn:E; case_decide as En; cbn; try done; [apply str_eqb_true in E|apply str_eqb_false in E]; congruence. }
  destruct ex as [t|]; cbn in He.
  - destruct He as (Hh & Ht & _). rewrite Hh. js_run. unfold reading in Ht. rewrite Nat.add_0_r in Ht. rewrite Ht. js_run.
    rewrite <- params_pieces. match goal with |- context [option_list ?a ++ ?b] => generalize (option_list a ++ b) end. by intros [].
  - rewrite He. js_run. rewrite <- params_pieces. match goal with |- context [option_list ?a ++ ?b] => generalize (option_list a ++ b) end. by intros [].
Qed.

(** C26: A payment request written as a URI and read again: the address, an amount above zero (as the number its text
    stands for), the note and the time it expires are the same, each there when it was given, with one exception: the note
    is decoded a second time, so that only one without a percent sign is sure to come back; where the second decoding fails
    the request cannot be read. The address has no question mark, the amount's text no exponent with a plus, and the time
    is in the years 0 to 9999. *)
Theorem payment_request_roundtrip other addr amt nt hours ex s e :
  addr ≠ "" → str_all (not_char "?") addr = true → (∀ a, given_amount amt = Some a → plain_amount a) → expires_at e hours ex →
  ∃ uri, createPaymentRequest addr amt nt hours (s, e) = (Ok uri, (s, if ex then tick e else e)) ∧
    let read note := Some (MkPaymentRequest addr ((λ a, parseFloat (num_to_string a)) <$> given_amount amt) note (Some <$> ex)) in
    match given_note nt with
    | None => parsePaymentRequest other uri = read None
    | Some n => parsePaymentRequest other uri = (match decodeURIComponent n with Some m => read (Some m) | None => None end) ∧
        (str_all (not_char "%") n = true → parsePaymentRequest other uri = read (Some n))
    end.
Proof.
  intros Haddr Hq Ha He. eexists. split; [by apply createPaymentRequest_run|]. cbv zeta.
  rewrite parse_pieces; [|done|done|..].
  - rewrite <- option_fmap_compose. unfold compose. destruct (given_note nt) as [n|]; [|done]. cbn. split; [by destruct (decodeURIComponent n)|].
    intros Hp. by rewrite decode_no_percent.
  - intros a' (a & E & ->)%fmap_Some. by destruct (Ha a E).
  - intros n E. destruct nt as [n'|]; [|done]. cbn in E. case_decide; congruence.
  - intros t ->. by destruct He as (_ & _ & He).
Qed.

(** The note is decoded a second time: a request whose note ends with a percent sign cannot
    be read at all. *)
Theorem percent_note_unreadable other addr a n hours t s e :
  addr ≠ "" → str_all (not_char "?") addr = true → plain_amount a → str_all (not_char "%") n = true →
  expires e hours t →
  ∃ uri, createPaymentRequest addr (Some a) (Some (n +:+ "%")) hours (s, e) = (Ok uri, (s, tick e)) ∧
    parsePaymentRequest other uri = None.
Proof.
  intros Haddr Hq Ha Hp He. eexists. split; [by apply (createPaymentRequest_run _ _ _ _ (Some t))|].
  assert (given_note (Some (n +:+ "%")) = Some (n +:+ "%")) as -> by (cbn; case_decide as E; [by destruct n|done]).
  rewrite parse_pieces; [|done|done|..].
  - cbn. by rewrite decode_percent_end.
  - intros a' (a0 & E & ->)%fmap_Some. cbn in E. destruct Ha as (Hpos & ? & ?). rewrite Hpos in E. by injection E as <-.
  - intros ? [= <-]. by destruct n.
  - intros ? [= <-]. by destruct He as (_ & _ & He).
Qed.

Lemma demo_amount : plain_amount (lit 25 1).
Proof. split_and!; [vm_compute; reflexivity|vm_compute; reflexivity|vm_compute; discriminate]. Qed.

Lemma demo_expires : expires demo_env (of_Z 24) 1700086400000.
Proof. split_and!; [vm_compute; reflexivity|vm_compute; reflexivity|vm_compute; split; discriminate]. Qed.

Lemma payment_request_roundtrip_witness :
  ∃ uri, parsePaymentRequest (λ _, None) uri =
    Some (MkPaymentRequest "kc1bob" (Some (parseFloat (num_to_string (lit 25 1)))) (Some "rent & more") (Some (Some 1700086400000))).
Proof.
  destruct (payment_request_roundtrip (λ _, None) "kc1bob" (Some (lit 25 1)) (Some "rent & more") (of_Z 24) (Some 1700086400000) (MkQr None) demo_env)
    as (uri & _ & _ & H); [done|reflexivity|intros a [= <-]; apply demo_amount|apply demo_expires|]. exists uri. by apply H.
Defined.

Lemma percent_note_unreadable_witness : ∃ uri, parsePaymentRequest (λ _, None) uri = None ∧ uri ≠ "".
Proof.
  destruct (percent_note_unreadable (λ _, None) "kc1bob" (lit 25 1) "50" (of_Z 24) 1700086400000 (MkQr None) demo_env)
    as (uri & E & H); [done|reflexivity|apply demo_amount|reflexivity|apply demo_expires|].
  exists uri. split; [exact H|]. rewrite (createPaymentRequest_run _ _ _ _ (Some 1700086400000)) in E;
    [|apply demo_expires]. intros ->. discriminate E.
Defined.

(** ** History *)

Definition history_in (s : QRService) : option (list HistoryEntry) :=
  match ls_history s with
  | Some (TJson l) => Some l
  | Some (TRaw t) => if str_eqb t "" then Some [] else None
  | None => Some []
  end.

(** A saved code is the first of the history, which keeps its order and has at most 50
    entries. *)
Theorem saveToHistory_effect ty d s e l : browser e = true → writable e = true → history_in s = Some l →
  ∃ s', saveToHistory ty d (s, e) = (Ok (), (s', tick e)) ∧
    history_in s' = Some (take 50 (MkEntry ty d (toISOString (reading e 0)) :: l)).
Proof.
  intros Hb Hw Hl. unfold saveToHistory, getHistory, ls_use. js_run. rewrite Hb. js_run.
  assert (∀ k : list HistoryEntry → M (), (match truthy_cell (ls_history s) with
    | None => mret [] | Some t => JSON_parse t end ≫= k) (s, e) = k l (s, e)) as Hread.
  { intros k. unfold history_in in Hl. destruct (ls_history s) as [[l'|raw]|]; cbn [truthy_cell].
    - by injection Hl as ->.
    - unfold str_eqb in Hl. destruct (bool_decide (raw = "")); [by injection Hl as <-|done].
    - by injection Hl as <-. }
  rewrite Hread. js_run. cbn [browser tick]. rewrite ?Hb. unfold ls_setItem. cbn [snd writable tick fst browser]. rewrite Hw.
  eexists. split; [reflexivity|]. unfold history_in. cbn [ls_history set_ls_history]. unfold reading.
  rewrite Nat.add_0_r. f_equal.
  destruct (Nat.ltb_spec 50 (length (MkEntry ty d (toISOString (clock e (ticks e))) :: l))) as [|Hle]; [done|].
  by rewrite take_ge.
Qed.

Lemma saveToHistory_effect_witness : ∃ s', history_in s' =
  Some (take 50 [MkEntry generated "kubercoin:kc1bob" (toISOString (reading demo_env 0))]).
Proof.
  destruct (saveToHistory_effect generated "kubercoin:kc1bob" (MkQr None) demo_env []) as (s' & _ & H); [done..|].
  by exists s'.
Defined.
