(* ===== verification/NotificationCenter.v ===== *)
(** * [NotificationCenter] (apps/web/wallet/src/services/notificationCenter.ts)

    Notifications and preferences under their storage keys, and the alerts that compare a
    price or a portfolio's value with the last one seen. What reaches the user besides (a
    desktop notification, a sound) is a log. The locale's number format is a parameter. *)

From Stdlib Require Import String.
From S2P Require Import Prelude JsMap JsNumber JsString Store.
Inductive NotificationType := transaction | price | portfolio | security | staking | system.
#[export] Instance NotificationType_eq_dec : EqDecision NotificationType.
Proof. solve_decision. Defined.

Record Notification := MkNotification {
  id : string;
  type : NotificationType;
  title : string;
  message : string;
  timestamp : Z;
  read : bool;
  actionUrl : option string;
  actionText : option string;
}.

Inductive Condition := above | below.
Record PriceAlert := MkPriceAlert { condition : Condition; alert_price : num }.

Record Preferences := MkPreferences {
  desktopNotifications : bool;
  soundEnabled : bool;
  emailNotifications : bool;
  email : option string;
  types : NotificationType → bool;
  priceAlerts : list PriceAlert;
  alerts_enabled : bool;
  changePercent : num;
}.

Inductive Effect := Shown (n : string) | Beep.

Record NotificationCenter := MkCenter {
  permissionGranted : bool;
  ls_notifications : cell (list Notification);
  ls_preferences : cell Preferences;
  last_price_check : option string;
  last_portfolio_value : option string;
  effects : list Effect;
}.

Definition set_permission b s := MkCenter b (ls_notifications s) (ls_preferences s) (last_price_check s)
  (last_portfolio_value s) (effects s).
Definition set_ls_notifications c s := MkCenter (permissionGranted s) c (ls_preferences s) (last_price_check s)
  (last_portfolio_value s) (effects s).
Definition set_ls_preferences c s := MkCenter (permissionGranted s) (ls_notifications s) c (last_price_check s)
  (last_portfolio_value s) (effects s).
Definition set_last_price t s := MkCenter (permissionGranted s) (ls_notifications s) (ls_preferences s) t
  (last_portfolio_value s) (effects s).
Definition set_last_value t s := MkCenter (permissionGranted s) (ls_notifications s) (ls_preferences s)
  (last_price_check s) t (effects s).
Definition add_effect x s := MkCenter (permissionGranted s) (ls_notifications s) (ls_preferences s)
  (last_price_check s) (last_portfolio_value s) (effects s ++ [x]).

Abbreviation M := (js (NotificationCenter * Env)).

(** What the browser offers: its [Notification] and the state of the permission, the answer
    to a request for it, and [AudioContext]. *)
Record Host := MkHost {
  has_notification : bool;
  permission : string;
  requested : string;
  has_audio : bool;
}.

Section Host.
Context (h : Host) (toLocaleString : num → string).

Definition constructor : M () :=
  b ← is_browser;
  js_when b (if has_notification h then modify_this (set_permission (str_eqb (permission h) "granted"))
             else js_throw "Notification is not defined").

Definition requestPermission : M bool :=
  b ← is_browser;
  if negb b || negb (has_notification h) then mret false
  else if str_eqb (permission h) "granted" then modify_this (set_permission true);; mret true
  else if negb (str_eqb (permission h) "denied") then
    modify_this (set_permission (str_eqb (requested h) "granted"));;
    mret (str_eqb (requested h) "granted")
  else mret false.

Definition getNotifications : M (list Notification) :=
  ls_use (s ← this; match truthy_cell (ls_notifications s) with None => mret [] | Some t => JSON_parse t end).

Definition saveNotifications (l : list Notification) : M () :=
  ls_use (ls_setItem (set_ls_notifications (Some (TJson l)))).

Definition getDefaultPreferences : Preferences :=
  MkPreferences true true false None (λ _, true) [] true (of_Z 10).

Definition getPreferences : M Preferences :=
  ls_use (s ← this;
    match truthy_cell (ls_preferences s) with None => mret getDefaultPreferences | Some t => JSON_parse t end).

Definition updatePreferences (p : Preferences) : M () := ls_use (ls_setItem (set_ls_preferences (Some (TJson p)))).

Definition showDesktopNotification (n : Notification) : M () :=
  b ← is_browser; js_when (b && has_notification h) (modify_this (add_effect (Shown (id n)))).

Definition playNotificationSound : M () :=
  b ← is_browser; js_when (b && has_audio h) (modify_this (add_effect Beep)).

(** [None] is the null returned for a type that is switched off. *)
Definition addNotification (ty : NotificationType) (ti msg : string) (url txt : option string) : M (option Notification) :=
  preferences ← getPreferences;
  if negb (types preferences ty) then mret None
  else
    t0 ← date_now;
    r ← random36;
    t1 ← date_now;
    let notification := MkNotification ("notif_" +:+ pretty t0 +:+ "_" +:+ r) ty ti msg t1 false url txt in
    old ← getNotifications;
    let notifications := notification :: old in
    saveNotifications (if (100 <? length notifications)%nat then take 100 notifications else notifications);;
    s ← this;
    js_when (desktopNotifications preferences && permissionGranted s) (showDesktopNotification notification);;
    js_when (soundEnabled preferences) playNotificationSound;;
    mret (Some notification).

Definition set_read (b : bool) (n : Notification) : Notification :=
  MkNotification (id n) (type n) (title n) (message n) (timestamp n) b (actionUrl n) (actionText n).

Definition mark (b : bool) (i : string) : M () :=
  l ← getNotifications;
  js_when (js_some (λ n, str_eqb (id n) i) l)
    (saveNotifications (update_first (λ n, str_eqb (id n) i) (set_read b) l)).

Definition markAsRead : string → M () := mark true.
Definition markAsUnread : string → M () := mark false.
Definition markAllAsRead : M () := l ← getNotifications; saveNotifications (set_read true <$> l).
Definition deleteNotification (i : string) : M () :=
  l ← getNotifications; saveNotifications (js_filter (λ n, negb (str_eqb (id n) i)) l).
Definition clearAll : M () := saveNotifications [].

Inductive TransactionKind := received | sent | confirmed.

Definition notifyTransaction (k : TransactionKind) (amount : num) (txId : string) : M () :=
  let a := to_fixed 4 amount in
  let msg := match k with
    | received => "You received " +:+ a +:+ " KC"
    | sent => "You sent " +:+ a +:+ " KC"
    | confirmed => "Transaction of " +:+ a +:+ " KC confirmed"
    end in
  addNotification transaction "Transaction Update" msg (Some ("/wallet/history?tx=" +:+ txId)) (Some "View Transaction");;
  mret ().

Definition condition_name (c : Condition) : string := match c with above => "above" | below => "below" end.

Definition notifyPriceAlert (c : Condition) (p currentPrice : num) : M () :=
  addNotification price "Price Alert"
    ("KC price is now " +:+ condition_name c +:+ " $" +:+ toLocaleString p +:+ " (currently $" +:+
      toLocaleString currentPrice +:+ ")")
    (Some "/wallet/analytics") (Some "View Charts");;
  mret ().

Definition notifyPortfolioChange (change newValue : num) : M () :=
  let direction := if SFltb nzero change then "increased" else "decreased" in
  addNotification portfolio "Portfolio Alert"
    ("Your portfolio " +:+ direction +:+ " by " +:+ to_fixed 2 (nabs change) +:+ "% in the last 24h (now $" +:+
      toLocaleString newValue +:+ ")")
    (Some "/wallet/portfolio-tools") (Some "View Portfolio");;
  mret ().

Definition notifySecurityAlert (event details : string) : M () :=
  addNotification security "Security Alert" (event +:+ ": " +:+ details) (Some "/wallet/settings") (Some "Review Security");;
  mret ().

Definition notifyStakingReward (amount : num) : M () :=
  addNotification staking "Staking Reward" ("You earned " +:+ to_fixed 4 amount +:+ " KC from staking")
    (Some "/wallet") (Some "View Balance");;
  mret ().

Definition notifySystem (ti msg : string) : M () := addNotification system ti msg None None;; mret ().

(** The price crossed the alert's between the last check and now. *)
Definition triggered (lastPrice currentPrice : num) (a : PriceAlert) : bool :=
  match condition a with
  | above => SFltb lastPrice (alert_price a) && SFleb (alert_price a) currentPrice
  | below => SFltb (alert_price a) lastPrice && SFleb currentPrice (alert_price a)
  end.

Definition last_or (o : option string) (d : num) : num :=
  match o with Some t => if str_eqb t "" then d else parseFloat t | None => d end.

Definition checkPriceAlerts (currentPrice : num) : M () :=
  preferences ← getPreferences;
  lastPrice ← ls_use (s ← this; mret (last_or (last_price_check s) currentPrice));
  js_forEach (λ a, js_when (triggered lastPrice currentPrice a)
    (notifyPriceAlert (condition a) (alert_price a) currentPrice)) (priceAlerts preferences);;
  ls_use (ls_setItem (set_last_price (Some (num_to_string currentPrice)))).

Definition store_value (v : num) : M () := ls_use (ls_setItem (set_last_value (Some (num_to_string v)))).

Definition checkPortfolioAlerts (currentValue : num) : M () :=
  preferences ← getPreferences;
  if negb (alerts_enabled preferences) then mret ()
  else
    lastValue ← ls_use (s ← this; mret (last_portfolio_value s));
    if negb (truthy_str lastValue) then store_value currentValue
    else
      let lastVal := parseFloat (default "" lastValue) in
      let change := nmul (ndiv (nsub currentValue lastVal) lastVal) (of_Z 100) in
      js_when (SFleb (changePercent preferences) (nabs change))
        (notifyPortfolioChange change currentValue;; store_value currentValue).

Definition getUnreadCount : M nat := l ← getNotifications; mret (length (js_filter (λ n, negb (read n)) l)).
End Host.

(** * Theorems *)

Section Facts.
Context (h : Host) (toLocaleString : num → string).

(** The notifications and preferences that are read from storage. *)
Definition notifications_in (s : NotificationCenter) : option (list Notification) :=
  match truthy_cell (ls_notifications s) with
  | None => Some [] | Some (TJson l) => Some l | Some (TRaw _) => None
  end.
Definition preferences_in (s : NotificationCenter) : option Preferences :=
  match truthy_cell (ls_preferences s) with
  | None => Some getDefaultPreferences | Some (TJson p) => Some p | Some (TRaw _) => None
  end.

Definition working (e : Env) : Prop := browser e = true ∧ writable e = true.

Lemma getNotifications_bind {B} (k : list Notification → M B) s e l : browser e = true → notifications_in s = Some l →
  (getNotifications ≫= k) (s, e) = k l (s, e).
Proof.
  intros Hb Hl. unfold getNotifications, ls_use. js_run. rewrite Hb. js_run. unfold notifications_in in Hl.
  destruct (truthy_cell _) as [[l'|raw]|]; [|done|]; by injection Hl as <-.
Qed.

Lemma getPreferences_bind {B} (k : Preferences → M B) s e p : browser e = true → preferences_in s = Some p →
  (getPreferences ≫= k) (s, e) = k p (s, e).
Proof.
  intros Hb Hl. unfold getPreferences, ls_use. js_run. rewrite Hb. js_run. unfold preferences_in in Hl.
  destruct (truthy_cell _) as [[l'|raw]|]; [|done|]; by injection Hl as <-.
Qed.

Lemma saveNotifications_run l s e : working e →
  saveNotifications l (s, e) = (Ok (), (set_ls_notifications (Some (TJson l)) s, e)).
Proof.
  intros [Hb Hw]. unfold saveNotifications, ls_use. js_run. rewrite Hb. unfold ls_setItem. cbn. by rewrite Hw.
Qed.

(** What a notification leaves besides the list: what it showed or played. *)
Definition same_but_effects (s s' : NotificationCenter) : Prop :=
  permissionGranted s' = permissionGranted s ∧ ls_preferences s' = ls_preferences s ∧
  ls_notifications s' = ls_notifications s ∧
  last_price_check s' = last_price_check s ∧ last_portfolio_value s' = last_portfolio_value s.

Lemma showDesktop_run n s e : ∃ s', showDesktopNotification h n (s, e) = (Ok (), (s', e)) ∧ same_but_effects s s'.
Proof.
  unfold showDesktopNotification. js_run. destruct (_ && _); cbn [js_when]; (eexists; split; [reflexivity|by split_and!]).
Qed.

Lemma sound_run s e : ∃ s', playNotificationSound h (s, e) = (Ok (), (s', e)) ∧ same_but_effects s s'.
Proof.
  unfold playNotificationSound. js_run. destruct (_ && _); cbn [js_when]; (eexists; split; [reflexivity|by split_and!]).
Qed.

(** The list is cut to its 100 newest. *)
Lemma cut_to_100 {A} (l : list A) : (if (100 <? length l)%nat then take 100 l else l) = take 100 l.
Proof. destruct (Nat.ltb_spec 100 (length l)); [done|]. by rewrite take_ge. Qed.

(** A notification of a type that is switched on is put in front of the stored ones, of
    which 99 are kept; one of a type that is switched off changes nothing. *)
Lemma addNotification_run ty ti msg url txt s e p l : working e → preferences_in s = Some p → notifications_in s = Some l →
  if types p ty then
    ∃ n s' e', addNotification h ty ti msg url txt (s, e) = (Ok (Some n), (s', e')) ∧
      type n = ty ∧ title n = ti ∧ message n = msg ∧ read n = false ∧
      notifications_in s' = Some (take 100 (n :: l)) ∧ preferences_in s' = Some p ∧
      last_price_check s' = last_price_check s ∧ last_portfolio_value s' = last_portfolio_value s ∧ working e'
  else addNotification h ty ti msg url txt (s, e) = (Ok None, (s, e)).
Proof.
  intros [Hb Hw] Hp Hl. unfold addNotification. rewrite (getPreferences_bind _ _ _ _ Hb Hp).
  destruct (types p ty); cbn [negb]; [|done]. js_run. cbv zeta.
  match goal with |- context [MkNotification ?i ty ti msg ?t false url txt] => set (n := MkNotification i ty ti msg t false url txt) end.
  exists n. rewrite (getNotifications_bind _ _ _ l); [|done|done].
  rewrite cut_to_100, (run_Ok _ _ _ _ _ (saveNotifications_run _ _ _ (conj Hb Hw : working (tick (draw (tick e)))))).
  set (s1 := set_ls_notifications (Some (TJson (take 100 (n :: l)))) s). rewrite run_this. cbn [fst snd].
  assert (∃ s2, js_when (desktopNotifications p && permissionGranted s1) (showDesktopNotification h n)
    (s1, tick (draw (tick e))) = (Ok (), (s2, tick (draw (tick e)))) ∧ same_but_effects s1 s2) as (s2 & E2 & H2).
  { destruct (_ && _); [apply showDesktop_run|]. eexists. by split; [|split_and!]. }
  rewrite (run_Ok _ _ _ _ _ E2).
  assert (∃ s3, js_when (soundEnabled p) (playNotificationSound h) (s2, tick (draw (tick e)))
    = (Ok (), (s3, tick (draw (tick e)))) ∧ same_but_effects s2 s3) as (s3 & E3 & H3).
  { destruct (soundEnabled p); [apply sound_run|]. eexists. by split; [|split_and!]. }
  rewrite (run_Ok _ _ _ _ _ E3). exists s3. eexists. split; [reflexivity|].
  destruct H2 as (_ & P2 & N2 & L2 & V2), H3 as (_ & P3 & N3 & L3 & V3).
  unfold notifications_in, preferences_in. rewrite N3, N2, P3, P2, L3, L2, V3, V2. split_and!; try done.
Qed.

Definition alert_message (currentPrice : num) (a : PriceAlert) : string :=
  "KC price is now " +:+ condition_name (condition a) +:+ " $" +:+ toLocaleString (alert_price a) +:+
  " (currently $" +:+ toLocaleString currentPrice +:+ ")".

(** Notifications that are added one after another. *)
Definition push_all (l ns : list Notification) : list Notification := foldl (λ l n, take 100 (n :: l)) l ns.

Lemma push_all_spec l ns : (length l <= 100)%nat → push_all l ns = take 100 (reverse ns ++ l).
Proof.
  revert l. induction ns as [|n ns IH]; intros l Hl; cbn [push_all foldl].
  - cbn. by rewrite take_ge.
  - change (push_all (take 100 (n :: l)) ns = take 100 (reverse (n :: ns) ++ l)). rewrite IH by (rewrite length_take; lia).
    rewrite reverse_cons, <- app_assoc. cbn [app]. rewrite !take_app, take_take. f_equal. f_equal. lia.
Qed.

Lemma alerts_run cur last p l alerts s e : working e → preferences_in s = Some p → types p price = true →
  notifications_in s = Some l →
  ∃ s' e' ns, js_forEach (λ a, js_when (triggered last cur a)
      (notifyPriceAlert h toLocaleString (condition a) (alert_price a) cur)) alerts (s, e) = (Ok (), (s', e')) ∧
    notifications_in s' = Some (push_all l ns) ∧ preferences_in s' = Some p ∧ working e' ∧
    message <$> ns = alert_message cur <$> js_filter (triggered last cur) alerts.
Proof.
  intros Hwk Hp Ht Hl. revert s e l Hwk Hp Hl. induction alerts as [|a alerts IH]; intros s e l Hwk Hp Hl.
  - by exists s, e, [].
  - cbn [js_forEach js_filter List.filter]. fold (js_filter (triggered last cur) alerts).
    destruct (triggered last cur a); cbn [js_when]; [|by apply IH].
    pose proof (addNotification_run price "Price Alert" (alert_message cur a) (Some "/wallet/analytics")
      (Some "View Charts") s e p l Hwk Hp Hl) as H. rewrite Ht in H.
    destruct H as (n & s1 & e1 & E1 & _ & _ & Em & _ & Hn1 & Hp1 & _ & _ & Hw1).
    destruct (IH s1 e1 (take 100 (n :: l)) Hw1 Hp1 Hn1) as (s' & e' & ns & E & Hl' & Hp' & Hw' & Hmsg).
    exists s', e', (n :: ns). split_and!; [|done..|csimpl; by rewrite Em, Hmsg].
    assert (E0 : notifyPriceAlert h toLocaleString (condition a) (alert_price a) cur (s, e) = (Ok (), (s1, e1))).
    { unfold notifyPriceAlert. fold (alert_message cur a). by rewrite (run_Ok _ _ _ _ _ E1). }
    rewrite (run_Ok _ _ _ _ _ E0). exact E.
Qed.

Lemma last_run cur s e : browser e = true →
  ls_use (s ← this; mret (last_or (last_price_check s) cur)) (s, e) = (Ok (last_or (last_price_check s) cur), (s, e)).
Proof. intros Hb. unfold ls_use. js_run. by rewrite Hb. Qed.

Lemma store_run (set : NotificationCenter → NotificationCenter) s e : working e →
  ls_use (ls_setItem set) (s, e) = (Ok (), (set s, e)).
Proof. intros [Hb Hw]. unfold ls_use. js_run. rewrite Hb. unfold ls_setItem. cbn [fst snd]. by rewrite Hw. Qed.

(** A price check adds, newest first, one notification for every alert whose price was
    crossed since the last check, and none else, and remembers the price; the list keeps
    its 100 newest. *)
Theorem checkPriceAlerts_effect cur p l s e : working e → preferences_in s = Some p → types p price = true →
  notifications_in s = Some l → (length l <= 100)%nat →
  let last := last_or (last_price_check s) cur in
  ∃ s' e' ns, checkPriceAlerts h toLocaleString cur (s, e) = (Ok (), (s', e')) ∧
    message <$> ns = alert_message cur <$> js_filter (triggered last cur) (priceAlerts p) ∧
    notifications_in s' = Some (take 100 (reverse ns ++ l)) ∧
    last_price_check s' = Some (num_to_string cur).
Proof.
  intros [Hb Hw] Hp Ht Hl Hlen last. unfold checkPriceAlerts. rewrite (getPreferences_bind _ _ _ _ Hb Hp).
  rewrite (run_Ok _ _ _ _ _ (last_run cur s e Hb)). fold last.
  destruct (alerts_run cur last p l (priceAlerts p) s e (conj Hb Hw) Hp Ht Hl) as (s' & e' & ns & E & Hl' & _ & Hwk' & Hm).
  rewrite (run_Ok _ _ _ _ _ E), (store_run _ _ _ Hwk').
  exists (set_last_price (Some (num_to_string cur)) s'), e', ns. split_and!; [done|done| |done].
  change (notifications_in s' = Some (take 100 (reverse ns ++ l))). rewrite Hl'. f_equal. by apply push_all_spec.
Qed.

Lemma not_lt_and_ge x y : SFltb x y && SFleb y x = false.
Proof.
  destruct (SFleb y x) eqn:E; [|apply andb_false_r].
  by rewrite nltb_nleb, E by (first [exact (nleb_nan_r _ _ E)|exact (nleb_nan_l _ _ E)]).
Qed.

(** Before the first check the current price counts as the last one: no alert is crossed. *)
Lemma first_check_is_silent cur a : triggered (last_or None cur) cur a = false.
Proof. unfold triggered, last_or. destruct (condition a); apply not_lt_and_ge. Qed.

(** ** The stored list stays short *)

Definition short (s : NotificationCenter) : Prop :=
  match ls_notifications s with Some (TJson l) => (length l <= 100)%nat | _ => True end.

Inductive Operation :=
  | Request
  | Prefer (p : Preferences)
  | Add (ty : NotificationType) (ti msg : string) (url txt : option string)
  | Mark (b : bool) (i : string)
  | MarkAll
  | Delete (i : string)
  | Clear
  | CheckPrice (p : num)
  | CheckPortfolio (v : num).

Definition exec (o : Operation) : M () :=
  match o with
  | Request => requestPermission h;; mret ()
  | Prefer p => updatePreferences p
  | Add ty ti msg url txt => addNotification h ty ti msg url txt;; mret ()
  | Mark b i => mark b i
  | MarkAll => markAllAsRead
  | Delete i => deleteNotification i
  | Clear => clearAll
  | CheckPrice p => checkPriceAlerts h toLocaleString p
  | CheckPortfolio v => checkPortfolioAlerts h toLocaleString v
  end.

Lemma preserves_ls_use {A} (I : NotificationCenter → Prop) (m : M A) : preserves I m → preserves I (ls_use m).
Proof. intros H. unfold ls_use. js_preserve. Qed.

(** Reading the notifications of a short list gives a short list. *)
Lemma short_getNotifications {B} (k : list Notification → M B) :
  (∀ l, (length l <= 100)%nat → preserves short (k l)) → preserves short (getNotifications ≫= k).
Proof.
  intros Hk [s e] Hs. unfold getNotifications, ls_use. js_run. destruct (browser e); js_run; [|done].
  unfold short in Hs. cbn in Hs. destruct (ls_notifications s) as [[l|raw]|] eqn:E; cbn [truthy_cell].
  - js_run. apply Hk; [done|]. unfold short. cbn. by rewrite E.
  - destruct (bool_decide _).
    + js_run. apply Hk; [cbn; lia|]. unfold short. cbn. by rewrite E.
    + unfold JSON_parse. js_run. cbn. unfold short. by rewrite E.
  - js_run. apply Hk; [cbn; lia|]. unfold short. cbn. by rewrite E.
Qed.

Lemma short_save l : (length l <= 100)%nat → preserves short (saveNotifications l).
Proof. intros Hl. apply preserves_ls_use, preserves_setItem. intros s _. exact Hl. Qed.

Lemma short_showDesktop n : preserves short (showDesktopNotification h n).
Proof. unfold showDesktopNotification. js_preserve; auto 4 with js. Qed.
Lemma short_sound : preserves short (playNotificationSound h).
Proof. unfold playNotificationSound. js_preserve; auto 4 with js. Qed.
Lemma short_getPreferences : preserves short getPreferences.
Proof. apply preserves_ls_use. js_preserve. Qed.

Lemma short_add ty ti msg url txt : preserves short (addNotification h ty ti msg url txt).
Proof.
  unfold addNotification. apply preserves_bind; [apply short_getPreferences|]. intros p.
  destruct (negb _); [apply preserves_ret|].
  do 3 (apply preserves_bind; [auto with js|]; intros ?). cbv zeta. apply short_getNotifications. intros l Hl.
  rewrite cut_to_100. apply preserves_bind; [apply short_save; rewrite length_take; lia|]. intros _.
  apply preserves_this. intros s _.
  apply preserves_bind; [apply preserves_when; intros _; apply short_showDesktop|]. intros _.
  apply preserves_bind; [apply preserves_when; intros _; apply short_sound|]. intros _. apply preserves_ret.
Qed.

Lemma short_exec o : preserves short (exec o).
Proof.
  destruct o as [|p|ty ti msg url txt|b i| |i| |c|v]; cbn [exec].
  - unfold requestPermission. js_preserve; auto 4 with js; apply preserves_modify; intros s Hs; exact Hs.
  - apply preserves_ls_use, preserves_setItem. intros s Hs. exact Hs.
  - apply preserves_bind; [apply short_add|]. intros _. apply preserves_ret.
  - apply short_getNotifications. intros l Hl. apply preserves_when. intros _. apply short_save. by rewrite update_first_length.
  - apply short_getNotifications. intros l Hl. apply short_save. by rewrite length_fmap.
  - apply short_getNotifications. intros l Hl. apply short_save. etransitivity; [apply js_filter_length|done].
  - apply short_save. cbn. lia.
  - unfold checkPriceAlerts. apply preserves_bind; [apply short_getPreferences|]. intros p.
    apply preserves_bind; [apply preserves_ls_use; js_preserve|]. intros lp.
    apply preserves_bind.
    + apply preserves_forEach. intros a _. apply preserves_when. intros _. unfold notifyPriceAlert.
      apply preserves_bind; [apply short_add|]. intros _. apply preserves_ret.
    + intros _. apply preserves_ls_use, preserves_setItem. intros s Hs. exact Hs.
  - unfold checkPortfolioAlerts. apply preserves_bind; [apply short_getPreferences|]. intros p.
    destruct (negb _); [apply preserves_ret|].
    apply preserves_bind; [apply preserves_ls_use; js_preserve|]. intros lv.
    assert (∀ x, preserves short (store_value x)) as Hst by (intros x; apply preserves_ls_use, preserves_setItem; intros s Hs; exact Hs).
    destruct (negb _); [apply Hst|]. cbv zeta. apply preserves_when. intros _.
    apply preserves_bind; [|intros _; apply Hst]. unfold notifyPortfolioChange. cbv zeta.
    apply preserves_bind; [apply short_add|]. intros _. apply preserves_ret.
Qed.
End Facts.

(** From a storage with at most 100 notifications, no operation ever stores more. *)
Theorem at_most_100_notifications h toLocaleString os w :
  match ls_notifications w.1 with Some (TJson l) => (length l <= 100)%nat | _ => True end →
  ∀ l, ls_notifications (foldl (λ w o, (exec h toLocaleString o w).2) w os).1 = Some (TJson l) → (length l <= 100)%nat.
Proof.
  intros Hw l. assert (short (foldl (λ w o, (exec h toLocaleString o w).2) w os).1) as H.
  { revert w Hw. induction os as [|o os IH]; intros w Hw; [exact Hw|]. cbn [foldl]. apply IH. by apply short_exec. }
  unfold short in H. intros E. by rewrite E in H.
Qed.

(** ** Witnesses *)

Definition demo_host : Host := MkHost false "" "" false.
Definition demo_env : Env := MkEnv (λ _, 1000) (λ _, "abc") 0 0 0 true true.
Definition demo_preferences : Preferences :=
  MkPreferences true false false None (λ _, true) [MkPriceAlert above (of_Z 10); MkPriceAlert below (of_Z 8)] true (of_Z 10).
Definition demo_center : NotificationCenter :=
  MkCenter false None (Some (TJson demo_preferences)) (Some "9") None [].

(** The price rose from 9 to 11: the alert above 10 is the one that is told. *)
Lemma checkPriceAlerts_effect_witness : ∃ s' e' ns,
  checkPriceAlerts demo_host num_to_string (of_Z 11) (demo_center, demo_env) = (Ok (), (s', e')) ∧ length ns = 1%nat ∧
  message <$> ns = ["KC price is now above $10 (currently $11)"] ∧ notifications_in s' = Some ns.
Proof.
  destruct (checkPriceAlerts_effect demo_host num_to_string (of_Z 11) demo_preferences [] demo_center demo_env)
    as (s' & e' & ns & E & Hm & Hl & _); [by split|reflexivity..|cbn; lia|].
  assert (message <$> ns = ["KC price is now above $10 (currently $11)"]) as Hm' by (rewrite Hm; vm_compute; reflexivity).
  destruct ns as [|n [|? ?]]; [discriminate| |discriminate].
  exists s', e', [n]. by split_and!.
Defined.

Lemma at_most_100_notifications_witness : ∀ l, ls_notifications (foldl (λ w o, (exec demo_host num_to_string o w).2)
  (demo_center, demo_env) [Add system "a" "b" None None; CheckPrice (of_Z 11); MarkAll]).1 = Some (TJson l) → (length l <= 100)%nat.
Proof. apply (at_most_100_notifications demo_host num_to_string). exact I. Defined.
