(* ===== verification/TaxService.v ===== *)
(** * [TaxService] (apps/web/wallet/src/services/taxService.ts)

    Taxable transactions the user records, the capital gains of a year by matching each
    disposal with one acquired lot, and the reports made from them. The time zone and the
    locale's rendering of dates are parameters. *)

From Stdlib Require Import Ascii String.
From S2P Require Import Prelude JsMap JsNumber JsString Store JsDate.
Inductive TxType := buy | sell | send | receive | mining | staking.
Inductive Method := FIFO | LIFO | HIFO | SpecificID.

#[export] Instance TxType_eq_dec : EqDecision TxType.
Proof. solve_decision. Defined.

Definition type_name (t : TxType) : string :=
  match t with
  | buy => "buy" | sell => "sell" | send => "send" | receive => "receive" | mining => "mining" | staking => "staking"
  end.
Definition method_name (m : Method) : string :=
  match m with FIFO => "FIFO" | LIFO => "LIFO" | HIFO => "HIFO" | SpecificID => "Specific ID" end.

Record TaxTransaction := MkTax {
  id : string;
  type : TxType;
  amount : num;
  fiatValue : num;
  fiatCurrency : string;
  fee : num;
  timestamp : Z;
  txHash : string;
  description : string;
  category : option string;
}.

Record CostBasis := MkLot {
  lot_amount : num;
  lot_costBasis : num;
  lot_acquisitionDate : Z;
  lot_method : Method;
}.

Record CapitalGain := MkGain {
  g_id : string;
  saleDate : Z;
  acquisitionDate : Z;
  g_amount : num;
  costBasis : num;
  salePrice : num;
  gain : num;
  holdingPeriod : Z;
  isLongTerm : bool;
}.

Record TaxReport := MkReport {
  year : Z;
  jurisdiction : string;
  method : Method;
  totalIncome : num;
  totalGains : num;
  totalLosses : num;
  netGains : num;
  shortTermGains : num;
  longTermGains : num;
  r_transactions : list TaxTransaction;
  capitalGains : list CapitalGain;
  generatedAt : Z;
}.

Record TaxService := MkService {
  transactions : jsmap TaxTransaction;
  ls_transactions : cell (list TaxTransaction);
  hasLoaded : bool;
}.

#[export] Instance tax_store : Store TaxService TaxTransaction := {|
  key := id;
  items := transactions;
  set_items := λ m s, MkService m (ls_transactions s) (hasLoaded s);
  stored := ls_transactions;
  set_stored := λ c s, MkService (transactions s) c (hasLoaded s);
|}.
#[export] Instance tax_laws : StoreLaws TaxService TaxTransaction.
Proof. by constructor. Qed.

Definition set_loaded (b : bool) (s : TaxService) : TaxService := MkService (transactions s) (ls_transactions s) b.
Definition fresh (c : cell (list TaxTransaction)) : TaxService := MkService [] c false.

Abbreviation M := (js (TaxService * Env)).

(** A text that does not parse throws, and leaves the service not loaded. *)
Definition loadTransactions : M () :=
  b ← is_browser;
  s ← this;
  if negb b || hasLoaded s then mret ()
  else load_items;; modify_this (set_loaded true).

Definition saveTransactions : M () := b ← is_browser; js_when b save_items.
Definition constructor : M () := loadTransactions.

Definition addTransaction (ty : TxType) (amt value : num) (currency : string) (fe : num) (hash descr : string)
    (cat : option string) : M TaxTransaction :=
  t0 ← date_now;
  r ← random36;
  t1 ← date_now;
  let tx := MkTax ("tax_" +:+ pretty t0 +:+ "_" +:+ r) ty amt value currency fe t1 hash descr cat in
  put_item tx;;
  saveTransactions;;
  mret tx.

Definition getTransaction (i : string) : M (option TaxTransaction) := s ← this; mret (map_get i (transactions s)).

Definition sorted (s : TaxService) : list TaxTransaction :=
  js_sort (λ a b, timestamp b <? timestamp a) (map_values (transactions s)).

Definition getAllTransactions : M (list TaxTransaction) := loadTransactions;; s ← this; mret (sorted s).

(** [new Date(year, 0, 1).getTime()]: the years 0 to 99 are those of the twentieth century. *)
Definition January1 (z : Zone) (y : Z) : Z :=
  let y := if (0 <=? y) && (y <=? 99) then 1900 + y else y in
  UTC z (MakeDate (MakeDay y 0 1) 0).

Definition in_year (z : Zone) (y : Z) (tx : TaxTransaction) : bool :=
  (January1 z y <=? timestamp tx) && (timestamp tx <? January1 z (y + 1)).

Definition getTransactionsByYear (z : Zone) (y : Z) : M (list TaxTransaction) :=
  l ← getAllTransactions; mret (js_filter (in_year z y) l).

Definition has_type (ts : list TxType) (tx : TaxTransaction) : bool := bool_decide (type tx ∈ ts).

Definition getTransactionsByType (t : TxType) : M (list TaxTransaction) :=
  l ← getAllTransactions; mret (js_filter (has_type [t]) l).

(** [Partial<TaxTransaction>]: the identifier can be among the updates. *)
Record Updates := MkUpdates {
  u_id : option string;
  u_type : option TxType;
  u_amount : option num;
  u_fiatValue : option num;
  u_fiatCurrency : option string;
  u_fee : option num;
  u_timestamp : option Z;
  u_txHash : option string;
  u_description : option string;
  u_category : option (option string);
}.

(** [Object.assign(tx, updates)] *)
Definition assign (u : Updates) (t : TaxTransaction) : TaxTransaction :=
  MkTax (default (id t) (u_id u)) (default (type t) (u_type u)) (default (amount t) (u_amount u))
    (default (fiatValue t) (u_fiatValue u)) (default (fiatCurrency t) (u_fiatCurrency u)) (default (fee t) (u_fee u))
    (default (timestamp t) (u_timestamp u)) (default (txHash t) (u_txHash u))
    (default (description t) (u_description u)) (default (category t) (u_category u)).

Definition updateTransaction (i : string) (u : Updates) : M bool :=
  s ← this;
  if map_has i (transactions s) then
    modify_this (λ s, set_items (map_update i (assign u) (transactions s)) s);;
    saveTransactions;;
    mret true
  else mret false.

Definition deleteTransaction (i : string) : M bool :=
  s ← this;
  let deleted := map_has i (transactions s) in
  modify_this (λ s, set_items (map_delete i (transactions s)) s);;
  js_when deleted saveTransactions;;
  mret deleted.

(** ** Capital gains *)

Definition lot_of (m : Method) (tx : TaxTransaction) : CostBasis :=
  MkLot (amount tx) (nadd (fiatValue tx) (fee tx)) (timestamp tx) m.

(** The position of the first lot that no later one exceeds:
    [reduce((max, curr) => curr.costBasis > max.costBasis ? curr : max)]. *)
Fixpoint highest (i best : nat) (max : CostBasis) (l : list CostBasis) : nat :=
  match l with
  | [] => best
  | c :: l' =>
      if SFltb (lot_costBasis max) (lot_costBasis c) then highest (S i) i c l' else highest (S i) best max l'
  end.

(** The position of the lot a disposal is matched with; the lots are distinct objects. *)
Definition match_index (m : Method) (inventory : list CostBasis) : nat :=
  match m with
  | FIFO | SpecificID => 0%nat
  | LIFO => (length inventory - 1)%nat
  | HIFO => match inventory with [] => 0%nat | c :: l => highest 1 0 c l end
  end.

Definition LONG_TERM_DAYS : Z := 365.

(** The gain, or none when no lot is left, and the inventory without the matched lot. *)
Definition matchDisposal (disposal : TaxTransaction) (inventory : list CostBasis) (m : Method)
    : M (option CapitalGain * list CostBasis) :=
  let i := match_index m inventory in
  match inventory !! i with
  | None => mret (None, inventory)
  | Some lot =>
      let held := (timestamp disposal - lot_acquisitionDate lot) / 86400000 in
      t ← date_now;
      r ← random36;
      let received := nsub (fiatValue disposal) (fee disposal) in
      mret (Some (MkGain ("gain_" +:+ pretty t +:+ "_" +:+ r) (timestamp disposal) (lot_acquisitionDate lot)
        (amount disposal) (lot_costBasis lot) received (nsub received (lot_costBasis lot)) held
        (LONG_TERM_DAYS <? held)), delete i inventory)
  end.

Fixpoint match_all (m : Method) (inventory : list CostBasis) (disposals : list TaxTransaction)
    : M (list CapitalGain * list CostBasis) :=
  match disposals with
  | [] => mret ([], inventory)
  | d :: ds =>
      p ← matchDisposal d inventory m;
      q ← match_all m p.2 ds;
      mret (match p.1 with Some g => g :: q.1 | None => q.1 end, q.2)
  end.

Definition acquisitions (l : list TaxTransaction) : list TaxTransaction :=
  js_filter (has_type [buy; receive; mining; staking]) l.
Definition disposals (l : list TaxTransaction) : list TaxTransaction := js_filter (has_type [sell; send]) l.

Definition calculateCapitalGains (z : Zone) (y : Z) (m : Method) : M (list CapitalGain) :=
  txs ← getTransactionsByYear z y;
  p ← match_all m (lot_of m <$> acquisitions txs) (disposals txs);
  mret p.1.

Definition generateReport (z : Zone) (y : Z) (jur : string) (m : Method) : M TaxReport :=
  txs ← getTransactionsByYear z y;
  gs ← calculateCapitalGains z y m;
  let total p := sum_by gain (js_filter p gs) in
  let income := sum_by fiatValue (js_filter (has_type [mining; staking; receive]) txs) in
  let gains := total (λ g, SFltb nzero (gain g)) in
  let losses := nabs (total (λ g, SFltb (gain g) nzero)) in
  t ← date_now;
  mret (MkReport y jur m income gains losses (nsub gains losses)
    (total (λ g, negb (isLongTerm g))) (total isLongTerm) txs gs t).

(** ** Export *)

Definition newline : string := String (ascii_of_nat 10) EmptyString.
Definition quote : string := String (ascii_of_nat 34) EmptyString.

Definition transaction_row (tx : TaxTransaction) : string :=
  join "," [iso_date (Day (timestamp tx)); type_name (type tx); num_to_string (amount tx);
    num_to_string (fiatValue tx); num_to_string (fee tx); quote +:+ description tx +:+ quote].

Definition gain_row (g : CapitalGain) : string :=
  join "," [iso_date (Day (saleDate g)); iso_date (Day (acquisitionDate g)); num_to_string (g_amount g);
    num_to_string (costBasis g); num_to_string (salePrice g); num_to_string (gain g); pretty (holdingPeriod g);
    if isLongTerm g then "Long-Term" else "Short-Term"].

Definition exportToCSV (r : TaxReport) : string :=
  join newline (
    ["Tax Report - " +:+ pretty (year r); "Method: " +:+ method_name (method r); "Jurisdiction: " +:+ jurisdiction r; "";
     "Summary"; "Total Income," +:+ to_fixed 2 (totalIncome r); "Total Gains," +:+ to_fixed 2 (totalGains r);
     "Total Losses," +:+ to_fixed 2 (totalLosses r); "Net Gains," +:+ to_fixed 2 (netGains r);
     "Short-Term Gains," +:+ to_fixed 2 (shortTermGains r); "Long-Term Gains," +:+ to_fixed 2 (longTermGains r); "";
     "Transactions"; "Date,Type,Amount,Fiat Value,Fee,Description"]
    ++ (transaction_row <$> r_transactions r)
    ++ [""; "Capital Gains/Losses"; "Sale Date,Acquisition Date,Amount,Cost Basis,Sale Price,Gain/Loss,Holding Period,Term"]
    ++ (gain_row <$> capitalGains r)).

(** [Date.prototype.toLocaleDateString] is the host's. *)
Definition form8949_row (toLocaleDateString : Z → string) (g : CapitalGain) : string :=
  join "," [quote +:+ num_to_string (g_amount g) +:+ " KC" +:+ quote; toLocaleDateString (acquisitionDate g);
    toLocaleDateString (saleDate g); to_fixed 2 (salePrice g); to_fixed 2 (costBasis g); to_fixed 2 (gain g)].

Definition exportForm8949 (toLocaleDateString : Z → string) (r : TaxReport) : string :=
  join newline (
    ["Form 8949 - Sales and Other Dispositions of Capital Assets"; "Tax Year: " +:+ pretty (year r); "";
     "Description,Date Acquired,Date Sold,Proceeds,Cost Basis,Gain/Loss"]
    ++ (form8949_row toLocaleDateString <$> capitalGains r)).

(** [Date.prototype.toLocaleString] is the host's. *)
Definition exportToPDF (toLocaleString : Z → string) (r : TaxReport) : string :=
  join newline
    ["TAX REPORT - " +:+ pretty (year r); ""; "Method: " +:+ method_name (method r); "Jurisdiction: " +:+ jurisdiction r;
     "Generated: " +:+ toLocaleString (generatedAt r); ""; "SUMMARY"; "Total Income: $" +:+ to_fixed 2 (totalIncome r);
     "Total Gains: $" +:+ to_fixed 2 (totalGains r); "Total Losses: $" +:+ to_fixed 2 (totalLosses r);
     "Net Gains: $" +:+ to_fixed 2 (netGains r); "Short-Term Gains: $" +:+ to_fixed 2 (shortTermGains r);
     "Long-Term Gains: $" +:+ to_fixed 2 (longTermGains r); "";
     "TRANSACTIONS: " +:+ pretty (length (r_transactions r));
     "CAPITAL GAINS/LOSSES: " +:+ pretty (length (capitalGains r)); ""].

Definition clearAllData : M () :=
  modify_this (λ s, set_loaded true (set_items [] s));;
  b ← is_browser;
  js_when b (ls_removeItem (set_stored None)).

(** * Theorems *)

(** ** Which lot a disposal is matched with *)

Lemma highest_spec l : ∀ i best max,
  (best < i)%nat → highest i best max l = best ∨ (i <= highest i best max l < i + length l)%nat.
Proof.
  induction l as [|c l IH]; intros i best max H; cbn [highest]; [by left|]. cbn [length].
  destruct (SFltb _ _); [destruct (IH (S i) i c)|destruct (IH (S i) best max)]; lia.
Qed.

Lemma match_index_lt m l : l ≠ [] → (match_index m l < length l)%nat.
Proof.
  destruct l as [|c l]; [done|]. intros _. destruct m; cbn [match_index length]; [lia..| |lia].
  destruct (highest_spec l 1 0 c); lia.
Qed.

(** The lot a gain was computed with. *)
Definition used (g : CapitalGain) : Z * num := (acquisitionDate g, costBasis g).
Definition tag (c : CostBasis) : Z * num := (lot_acquisitionDate c, lot_costBasis c).

(** The lots that [n] disposals take, in order, and those they leave. *)
Fixpoint taken (m : Method) (n : nat) (inv : list CostBasis) : list CostBasis * list CostBasis :=
  match n with
  | O => ([], inv)
  | S n =>
      match inv !! match_index m inv with
      | None => ([], inv)
      | Some c => let p := taken m n (delete (match_index m inv) inv) in (c :: p.1, p.2)
      end
  end.

Lemma taken_nil m n : taken m n [] = ([], []).
Proof. by destruct n. Qed.

(** A gain is that of its disposal and its lot. *)
Definition matches (g : CapitalGain) (d : TaxTransaction) (c : CostBasis) : Prop :=
  saleDate g = timestamp d ∧ used g = tag c ∧ g_amount g = amount d ∧
  salePrice g = nsub (fiatValue d) (fee d) ∧ gain g = nsub (salePrice g) (costBasis g) ∧
  (isLongTerm g = true ↔ 366 * 86400000 <= timestamp d - lot_acquisitionDate c).

Lemma matched_gain d lot i t r :
  matches (MkGain i (timestamp d) (lot_acquisitionDate lot) (amount d) (lot_costBasis lot)
    (nsub (fiatValue d) (fee d)) (nsub (nsub (fiatValue d) (fee d)) (lot_costBasis lot)) t r) d lot ↔
  (r = true ↔ 366 * 86400000 <= timestamp d - lot_acquisitionDate lot).
Proof. unfold matches, used, tag. cbn. naive_solver. Qed.

Lemma long_term a b : (LONG_TERM_DAYS <? (a - b) / 86400000) = true ↔ 366 * 86400000 <= a - b.
Proof. unfold LONG_TERM_DAYS. rewrite Z.ltb_lt. split; intros H; Z.to_euclidean_division_equations; lia. Qed.

(** Matching the disposals takes the lots the method names, one for each disposal, until
    none is left. *)
Lemma match_all_run m ds : ∀ inv s e, ∃ gs e',
  match_all m inv ds (s, e) = (Ok (gs, (taken m (length ds) inv).2), (s, e')) ∧
  Forall2 (λ g p, matches g p.1 p.2) gs (zip ds (taken m (length ds) inv).1).
Proof.
  induction ds as [|d ds IH]; intros inv s e.
  - exists [], e. split; [reflexivity|constructor].
  - cbn [match_all length taken]. unfold matchDisposal. cbv zeta.
    destruct (inv !! match_index m inv) as [lot|] eqn:El.
    + js_run. destruct (IH (delete (match_index m inv) inv) s (draw (tick e))) as (gs & e' & E & Hg).
      cbn [fst snd]. rewrite (run_Ok _ _ _ _ _ E). js_run. cbn [fst snd zip zip_with].
      eexists (_ :: gs), e'. split; [reflexivity|]. constructor; [|exact Hg]. cbn [fst snd]. apply matched_gain, long_term.
    + js_run. cbn [fst snd]. destruct inv as [|c inv].
      2: { apply lookup_ge_None in El. pose proof (match_index_lt m (c :: inv)). lia || (exfalso; apply (Nat.lt_irrefl (length (c :: inv))); eapply Nat.le_lt_trans; [exact El|by apply match_index_lt]). }
      destruct (IH [] s e) as (gs & e' & E & Hg). rewrite taken_nil in E, Hg. cbn [zip zip_with fst] in Hg.
      assert (gs = []) as -> by (destruct ds; cbn in Hg; by inversion Hg).
      rewrite (run_Ok _ _ _ _ _ E). js_run. exists [], e'. split; [reflexivity|constructor].
Qed.

(** *** The methods *)

Lemma taken_perm m n : ∀ inv, (taken m n inv).1 ++ (taken m n inv).2 ≡ₚ inv.
Proof.
  induction n as [|n IH]; intros inv; [done|]. cbn [taken].
  destruct (inv !! match_index m inv) as [c|] eqn:E; [|done]. cbv zeta. cbn [fst snd app].
  rewrite IH. symmetry. by apply delete_Permutation.
Qed.

Lemma taken_length m n : ∀ inv, length (taken m n inv).1 = (n `min` length inv)%nat.
Proof.
  induction n as [|n IH]; intros inv; [done|]. cbn [taken].
  destruct (inv !! match_index m inv) as [c|] eqn:E.
  - cbv zeta. cbn [fst length]. rewrite IH, length_delete by (by eexists).
    apply lookup_lt_Some in E. lia.
  - destruct inv as [|c inv]; [done|]. apply lookup_ge_None in E. pose proof (match_index_lt m (c :: inv) ltac:(done)). lia.
Qed.

Lemma taken_fifo n : ∀ inv, (taken FIFO n inv).1 = take n inv.
Proof. induction n as [|n IH]; intros [|c inv]; [done..|]. cbn. by rewrite IH. Qed.

Lemma taken_lifo n : ∀ inv, (taken LIFO n inv).1 = take n (reverse inv).
Proof.
  induction n as [|n IH]; intros inv; [done|]. destruct inv as [|c inv _] using rev_ind; [done|].
  cbn [taken match_index]. rewrite length_app, Nat.add_sub. cbn [length].
  rewrite list_lookup_middle by done. cbv zeta. cbn [fst]. rewrite IH, reverse_app. cbn. f_equal.
  by rewrite delete_middle, app_nil_r.
Qed.

(** No lot of the inventory has a higher basis than the one HIFO takes. *)
Lemma highest_max l : ∀ i best max c,
  Forall (λ x, is_nan (lot_costBasis x) = false) (max :: l) →
  (∀ L, length L = i → L !! best = Some max → Forall (λ x, lot_costBasis x ≤ₙ lot_costBasis max) L →
    (L ++ l) !! highest i best max l = Some c → Forall (λ x, lot_costBasis x ≤ₙ lot_costBasis c) (L ++ l)).
Proof.
  induction l as [|x l IH]; intros i best max c Hn L HL Hb Hmax Hc.
  - rewrite app_nil_r in *. cbn in Hc. by simplify_eq.
  - apply Forall_cons in Hn as [Hnm Hn]. apply Forall_cons in Hn as [Hnx Hn]. cbn [highest] in Hc.
    assert (length (L ++ [x]) = S i) as HL' by (rewrite length_app; cbn; lia).
    replace (L ++ x :: l) with ((L ++ [x]) ++ l) in * by by rewrite <- app_assoc.
    destruct (SFltb (lot_costBasis max) (lot_costBasis x)) eqn:Ex; eapply IH in Hc; try done.
    + by constructor.
    + rewrite lookup_app_r by lia. by replace (i - length L)%nat with 0%nat by lia.
    + apply nltb_leb in Ex. apply Forall_app; split; [|repeat constructor; by apply nleb_refl].
      eapply Forall_impl; [exact Hmax|]. intros y Hy. exact (nleb_trans _ _ _ Hy Ex).
    + by constructor.
    + by apply lookup_app_l_Some.
    + apply Forall_app; split; [done|]. repeat constructor. rewrite nltb_nleb in Ex by done.
      by apply negb_false_iff.
Qed.

Lemma hifo_max inv c : Forall (λ x, is_nan (lot_costBasis x) = false) inv →
  inv !! match_index HIFO inv = Some c → Forall (λ x, lot_costBasis x ≤ₙ lot_costBasis c) inv.
Proof.
  destruct inv as [|x l]; [done|]. intros Hn. cbn [match_index]. intros Hc.
  apply (highest_max l 1 0 x c Hn [x]); [done|done| |exact Hc].
  apply Forall_cons in Hn as [Hn _]. repeat constructor. by apply nleb_refl.
Qed.

Lemma taken_hifo n : ∀ inv, Forall (λ x, is_nan (lot_costBasis x) = false) inv → ∀ l1 c l2,
  (taken HIFO n inv).1 = l1 ++ c :: l2 → Forall (λ x, lot_costBasis x ≤ₙ lot_costBasis c) (l2 ++ (taken HIFO n inv).2).
Proof.
  induction n as [|n IH]; intros inv Hn l1 c' l2; [by destruct l1|]. cbn [taken].
  destruct (inv !! match_index HIFO inv) as [c|] eqn:E; [|by destruct l1]. cbv zeta. cbn [fst snd].
  pose proof (delete_Permutation inv _ _ E) as Hp. pose proof (hifo_max inv c Hn E) as Hmax. rewrite Hp in Hn, Hmax.
  apply Forall_cons in Hn as [_ Hn]. apply Forall_cons in Hmax as [_ Hmax].
  destruct l1 as [|c1 l1]; cbn; intros [= -> El]; [|by apply (IH _ Hn l1)].
  rewrite <- El. by rewrite (taken_perm HIFO n).
Qed.

Lemma js_filter_sorted {A} (R : A → A → Prop) p l : StronglySorted R l → StronglySorted R (js_filter p l).
Proof.
  induction 1 as [|x l Hl IH Hx]; [constructor|]. unfold js_filter. cbn [List.filter].
  destruct (p x); [|exact IH]. constructor; [exact IH|]. rewrite Forall_forall in *. intros y Hy.
  apply Hx. change (y ∈ js_filter p l) in Hy. by apply elem_of_js_filter in Hy as [].
Qed.

Lemma by_time s : StronglySorted (λ a b, timestamp a <= timestamp b) (sorted s).
Proof.
  assert (StronglySorted (λ a b, (timestamp b <? timestamp a) = false) (sorted s)) as H.
  { apply (js_sort_sorted _ (λ _, True)); [intros; lia..|by apply Forall_forall]. }
  induction H as [|x l Hl IH Hx]; constructor; [done|]. eapply Forall_impl; [exact Hx|]. cbn. intros. lia.
Qed.

(** ** The transactions of a year *)

Definition loaded (s : TaxService) (e : Env) : bool := negb (browser e) || hasLoaded s.

Lemma getAllTransactions_run s e : loaded s e = true → getAllTransactions (s, e) = (Ok (sorted s), (s, e)).
Proof. unfold loaded, getAllTransactions, loadTransactions. intros H. js_run. rewrite H. by js_run. Qed.

Lemma byYear_run z y s e : loaded s e = true →
  getTransactionsByYear z y (s, e) = (Ok (js_filter (in_year z y) (sorted s)), (s, e)).
Proof. intros H. unfold getTransactionsByYear. by rewrite (run_Ok _ _ _ _ _ (getAllTransactions_run s e H)). Qed.

Lemma MakeDay_January y : MakeDay y 0 1 = DayFromYear y.
Proof. unfold MakeDay. cbv zeta. change (0 / 12) with 0. change (0 mod 12) with 0. rewrite Z.add_0_r.
  assert (∀ l, DaysBeforeMonth l 0 = 0) as -> by (by intros []). lia. Qed.

(** The zone's clock is not set across the beginning of the year [y]. *)
Definition new_year_is_plain (z : Zone) (y : Z) : Prop :=
  ∀ t, let l := DayFromYear y * msPerDay in UTC z l <= t ↔ l <= LocalTime z t.

Lemma in_year_spec z y tx : 100 <= y → new_year_is_plain z y → new_year_is_plain z (y + 1) →
  in_year z y tx = (getFullYear z (timestamp tx) =? y).
Proof.
  intros Hy H0 H1. unfold in_year, January1. cbv zeta.
  replace ((0 <=? y) && (y <=? 99)) with false by lia. replace ((0 <=? y + 1) && (y + 1 <=? 99)) with false by lia.
  unfold MakeDate. rewrite !MakeDay_January, !Z.add_0_r.
  specialize (H0 (timestamp tx)). specialize (H1 (timestamp tx)). cbv zeta in H0, H1.
  unfold getFullYear. set (l := LocalTime z (timestamp tx)) in *.
  apply eq_true_iff_eq. rewrite andb_true_iff, Z.leb_le, Z.ltb_lt, Z.eqb_eq.
  assert (UTC z (DayFromYear y * msPerDay) <= timestamp tx ∧ timestamp tx < UTC z (DayFromYear (y + 1) * msPerDay) ↔
    DayFromYear y <= Day l < DayFromYear (y + 1)) as ->.
  { rewrite H0, Z.lt_nge, H1. unfold Day, msPerDay. Z.to_euclidean_division_equations; lia. }
  split; [apply YearFromDay_unique|]. intros <-. apply YearFromDay_spec.
Qed.

(** The transactions of a year are those whose local date is in it, in the order of time. *)
Theorem getTransactionsByYear_exact z y s e : loaded s e = true → 100 <= y →
  new_year_is_plain z y → new_year_is_plain z (y + 1) → ∃ l,
  getTransactionsByYear z y (s, e) = (Ok l, (s, e)) ∧
  (∀ tx, tx ∈ l ↔ tx ∈ map_values (transactions s) ∧ getFullYear z (timestamp tx) = y) ∧
  StronglySorted (λ a b, timestamp a <= timestamp b) l.
Proof.
  intros Hl Hy H0 H1. rewrite byYear_run by done. eexists. split; [reflexivity|]. split.
  - intros tx. rewrite elem_of_js_filter, in_year_spec, Z.eqb_eq by done. unfold sorted. rewrite elem_of_js_sort. tauto.
  - by apply js_filter_sorted, by_time.
Qed.

(** ** Capital gains *)

(** The acquisitions and the disposals among transactions: what was bought is a lot whose basis includes the fee. *)
Definition bought (m : Method) (txs : list TaxTransaction) : list CostBasis :=
  (λ tx, MkLot (amount tx) (nadd (fiatValue tx) (fee tx)) (timestamp tx) m) <$>
    js_filter (λ tx, bool_decide (type tx ∈ [buy; receive; mining; staking])) txs.
Definition sold (txs : list TaxTransaction) : list TaxTransaction := js_filter (λ tx, bool_decide (type tx ∈ [sell; send])) txs.

(** What the gains of a year are, for its transactions in the order of time: every disposal
    is matched with the whole of one acquisition of the same year, each acquisition is used
    at most once, and disposals that find none left have no gain. [lots] are the acquisitions
    that are used, in the order of the disposals, [left] the others. *)
Record gains_of (m : Method) (txs : list TaxTransaction) (gs : list CapitalGain) (lots left : list CostBasis) : Prop := {
  gains_match : Forall2 (λ g p, matches g p.1 p.2) gs (zip (sold txs) lots);
  gains_partition : lots ++ left ≡ₚ bought m txs;
  gains_count : length lots = (length (sold txs) `min` length (bought m txs))%nat;
  gains_order : match m with
    | FIFO | SpecificID => lots = take (length (sold txs)) (bought m txs)
    | LIFO => lots = take (length (sold txs)) (reverse (bought m txs))
    | HIFO => Forall (λ x, is_nan (lot_costBasis x) = false) (bought m txs) →
        ∀ used c unused, lots = used ++ c :: unused → Forall (λ x, lot_costBasis x ≤ₙ lot_costBasis c) (unused ++ left)
    end;
}.

Lemma taken_specific n inv : (taken SpecificID n inv).1 = take n inv.
Proof. revert inv. induction n as [|n IH]; intros [|c inv]; [done..|]. cbn. by rewrite IH. Qed.

Lemma gains_run z y m s e : loaded s e = true → ∃ gs e',
  calculateCapitalGains z y m (s, e) = (Ok gs, (s, e')) ∧
  let txs := js_filter (in_year z y) (sorted s) in
  let p := taken m (length (disposals txs)) (lot_of m <$> acquisitions txs) in
  gains_of m txs gs p.1 p.2.
Proof.
  intros Hl. unfold calculateCapitalGains. rewrite (run_Ok _ _ _ _ _ (byYear_run z y s e Hl)).
  set (txs := js_filter _ _).
  destruct (match_all_run m (disposals txs) (lot_of m <$> acquisitions txs) s e) as (gs & e' & E & Hg).
  rewrite (run_Ok _ _ _ _ _ E). exists gs, e'. split; [reflexivity|]. cbv zeta. split; [done| | |].
  - apply taken_perm.
  - apply taken_length.
  - destruct m; [apply taken_fifo|apply taken_lifo|apply taken_hifo|apply taken_specific].
Qed.

(** C31: The capital gains of a year: each disposal of the year in the order of time is matched with the whole of one
    acquisition of the year: by FIFO (and when the choice is left open) the earliest left, by LIFO the latest left, by HIFO
    one whose basis is at least that of every acquisition that is left, provided no basis is NaN. No acquisition is used
    twice, disposals that find none have no gain, and a gain is what was received, less the fee, less the basis, which is
    what was paid with the fee. *)
Theorem calculateCapitalGains_matches z y m s e : loaded s e = true → ∃ txs gs e' lots left,
  getTransactionsByYear z y (s, e) = (Ok txs, (s, e)) ∧ StronglySorted (λ a b, timestamp a <= timestamp b) txs ∧
  calculateCapitalGains z y m (s, e) = (Ok gs, (s, e')) ∧ gains_of m txs gs lots left.
Proof.
  intros Hl. destruct (gains_run z y m s e Hl) as (gs & e' & E & H). eexists _, gs, e', _, _. split; [by apply byYear_run|].
  split; [by apply js_filter_sorted, by_time|]. by split.
Qed.

(** A year with sales and no acquisition of its own has no gains: coins acquired in an
    earlier year are not looked at. *)
Theorem earlier_acquisitions_ignored z y m s e : loaded s e = true →
  (∀ tx, tx ∈ map_values (transactions s) → in_year z y tx = true → has_type [buy; receive; mining; staking] tx = false) →
  ∃ e', calculateCapitalGains z y m (s, e) = (Ok [], (s, e')).
Proof.
  intros Hl H. destruct (gains_run z y m s e Hl) as (gs & e' & E & Hg). exists e'. rewrite E. cbv zeta in Hg.
  set (txs := js_filter (in_year z y) (sorted s)) in *.
  assert (acquisitions txs = []) as Ha.
  { unfold acquisitions. apply elem_of_nil_inv. intros tx [Ht Hp]%elem_of_js_filter. subst txs.
    apply elem_of_js_filter in Ht as [Ht Hy]. unfold sorted in Ht. rewrite elem_of_js_sort in Ht.
    by rewrite (H tx Ht Hy) in Hp. }
  pose proof (gains_match _ _ _ _ _ Hg) as Hm. rewrite Ha in Hm. cbn [fmap list_fmap] in Hm. rewrite taken_nil in Hm.
  cbn [fst] in Hm. assert (zip (sold txs) ([] : list CostBasis) = []) as Hz by by destruct (sold txs).
  rewrite Hz in Hm. by inversion Hm.
Qed.

(** ** The stored transactions *)

(** The operations that change the transactions; an update that keeps the identifier. *)
Inductive Operation :=
  | Add (ty : TxType) (amt value : num) (currency : string) (fe : num) (hash descr : string) (cat : option string)
  | Update (i : string) (u : Updates)
  | Delete (i : string)
  | ReadAll
  | ClearAll.

Definition exec (o : Operation) : M () :=
  match o with
  | Add ty amt value currency fe hash descr cat => addTransaction ty amt value currency fe hash descr cat;; mret ()
  | Update i u => updateTransaction i u;; mret ()
  | Delete i => deleteTransaction i;; mret ()
  | ReadAll => getAllTransactions;; mret ()
  | ClearAll => clearAllData
  end.

Definition keeps_id (o : Operation) : Prop := match o with Update _ u => u_id u = None | _ => True end.

(** In the browser and within the quota. *)
Definition working (e : Env) : Prop := browser e = true ∧ writable e = true.
Definition in_step (w : TaxService * Env) : Prop := mirrored w.1 ∧ hasLoaded w.1 = true ∧ working w.2.

Lemma save_bind {B} (k : () → M B) s e : working e → (saveTransactions ≫= k) (s, e) = k () (committed s, e).
Proof.
  intros [Hb Hw]. unfold saveTransactions. js_run. rewrite Hb. cbn [js_when]. 
  pose proof (save_items_run s e) as E. rewrite Hw in E. by rewrite (run_Ok _ _ _ _ _ E).
Qed.

Lemma exec_in_step o w : keeps_id o → in_step w → in_step (exec o w).2.
Proof.
  destruct w as [s e]. intros Hid (Hm & Hl & Hw). cbn [fst snd] in *. destruct o as [ty amt value currency fe hash descr cat|i u|i| |]; cbn [exec].
  - unfold addTransaction, put_item. js_run. rewrite save_bind by done. js_run.
    split; [|done]. exact (mirrored_put s _ Hm).
  - unfold updateTransaction. js_run. destruct (map_has i _); [|by js_run]. js_run. rewrite save_bind by done. js_run.
    split; [|done]. refine (mirrored_update s _ _ _ Hm). intros v. cbn in Hid. unfold assign. cbn. by rewrite Hid.
  - unfold deleteTransaction. js_run. cbv zeta. js_run. destruct (map_has i _) eqn:Eh; cbn [js_when].
    + rewrite save_bind by done. js_run. split; [|done]. exact (mirrored_delete s _ Hm).
    + js_run. split; [|done]. destruct Hm as [Hk Hs].
      assert (map_delete i (transactions s) = transactions s) as E by (apply map_delete_absent; unfold map_has in Eh; by destruct (map_get _ _)).
      split; cbn; rewrite E; done.
  - rewrite (run_Ok _ _ _ _ _ (getAllTransactions_run s e ltac:(unfold loaded; by rewrite Hl, orb_true_r))). by split.
  - unfold clearAllData. destruct Hw as [Hb Hw]. js_run. rewrite Hb. cbn [js_when]. unfold ls_removeItem. js_run.
    split; [|done]. split; [apply keyed_nil|done].
Qed.

(** What any sequence of operations leaves is in storage: a new instance reads back the same
    transactions. *)
Theorem tax_transactions_survive_reload os w : in_step w → Forall keeps_id os →
  let w' := foldl (λ w o, (exec o w).2) w os in
  transactions (constructor (fresh (ls_transactions w'.1), w'.2)).2.1 = transactions w'.1.
Proof.
  intros Hw Hos. cbv zeta. set (w' := foldl _ w os).
  assert (in_step w') as (Hm & _ & [Hb _]).
  { subst w'. revert w Hw. induction Hos as [|o os Ho Hos IH]; intros w Hw; [done|]. cbn [foldl]. by apply IH, exec_in_step. }
  unfold constructor, loadTransactions. js_run. rewrite Hb. cbn [negb orb fresh hasLoaded].
  pose proof (mirrored_reload w'.1 (fresh (ls_transactions w'.1)) w'.2 Hm eq_refl eq_refl) as H.
  change (transactions (load_items (fresh (ls_transactions w'.1), w'.2)).2.1 = transactions w'.1) in H.
  rewrite <- H. clear H. destruct (load_items_cases (fresh (ls_transactions w'.1)) w'.2) as (r & s' & E & _). rewrite E. cbn [fst snd].
  destruct r as [[]|msg]; [by rewrite (run_Ok _ _ _ _ _ E)|by rewrite (run_Throw _ _ _ _ _ E)].
Qed.

(** ** Instances *)

Definition on_day (n : Z) (i : string) (ty : TxType) (value : Z) : string * TaxTransaction :=
  (i, MkTax i ty (of_Z 1) (of_Z value) "USD" nzero (1704067200000 + n * 86400000) "" "" None).

(** In 2024: a purchase in March, a sale in June, a purchase in December. *)
Definition demo_service : TaxService :=
  let m := [on_day 60 "a" buy 100; on_day 160 "b" sell 150; on_day 340 "c" buy 200] in
  MkService m (Some (TJson (map_values m))) true.

Lemma utc_plain y : new_year_is_plain utc_zone y.
Proof. intros t. done. Qed.

Lemma demo_in_step : in_step (demo_service, demo_env).
Proof.
  split; [|done]. split; [|reflexivity]. split; [|by repeat constructor].
  apply (bool_decide_unpack _). vm_compute. exact I.
Qed.

Lemma getTransactionsByYear_exact_witness : ∃ l,
  getTransactionsByYear utc_zone 2024 (demo_service, demo_env) = (Ok l, (demo_service, demo_env)) ∧ length l = 3%nat ∧
  ∀ tx, tx ∈ l ↔ tx ∈ map_values (transactions demo_service) ∧ getFullYear utc_zone (timestamp tx) = 2024.
Proof.
  destruct (getTransactionsByYear_exact utc_zone 2024 demo_service demo_env eq_refl ltac:(lia) (utc_plain _) (utc_plain _))
    as (l & E & H & _).
  exists l. split; [exact E|]. split; [|exact H].
  assert (fst (getTransactionsByYear utc_zone 2024 (demo_service, demo_env)) = Ok l) as E' by (by rewrite E).
  vm_compute in E'. by injection E' as <-.
Defined.

Lemma calculateCapitalGains_matches_witness : ∃ txs gs e' lots left,
  getTransactionsByYear utc_zone 2024 (demo_service, demo_env) = (Ok txs, (demo_service, demo_env)) ∧
  calculateCapitalGains utc_zone 2024 HIFO (demo_service, demo_env) = (Ok gs, (demo_service, e')) ∧ gains_of HIFO txs gs lots left.
Proof.
  destruct (calculateCapitalGains_matches utc_zone 2024 HIFO demo_service demo_env eq_refl) as (txs & gs & e' & lots & left & E & _ & H).
  by exists txs, gs, e', lots, left.
Defined.

(** The sale of June is matched by LIFO with the purchase of the following December. *)
Example matched_with_a_later_purchase :
  match (calculateCapitalGains utc_zone 2024 LIFO (demo_service, demo_env)).1 with
  | Ok [g] => saleDate g < acquisitionDate g ∧ holdingPeriod g = -180 ∧ gain g = of_Z (-50)
  | _ => False
  end.
Proof. by vm_compute. Qed.

(** A purchase at the end of 2023 and its sale in 2024. *)
Definition two_years : TaxService :=
  MkService [on_day (-10) "a" buy 100; on_day 160 "b" sell 150] None true.

Lemma earlier_acquisitions_ignored_witness : ∃ e',
  calculateCapitalGains utc_zone 2024 FIFO (two_years, demo_env) = (Ok [], (two_years, e')).
Proof.
  apply (earlier_acquisitions_ignored utc_zone 2024 FIFO two_years demo_env eq_refl).
  intros tx Hin Hy. cbn in Hin. rewrite !elem_of_cons in Hin. destruct Hin as [->|[->|Hin]]; [discriminate Hy|reflexivity|].
  by apply not_elem_of_nil in Hin.
Defined.

Lemma tax_transactions_survive_reload_witness :
  let w' := foldl (λ w o, (exec o w).2) (demo_service, demo_env)
    [Add buy (of_Z 1) (of_Z 5) "USD" nzero "h" "d" None; Delete "a"; ReadAll] in
  transactions (constructor (fresh (ls_transactions w'.1), w'.2)).2.1 = transactions w'.1.
Proof. apply (tax_transactions_survive_reload _ (demo_service, demo_env) demo_in_step). by repeat constructor. Defined.
