(* ===== verification/PriceService.v ===== *)
(** * [PriceService] (apps/web/wallet/src/services/priceService.ts)

    The current price, its history and the alerts on it. The price comes from a configured
    address, whose replies are a parameter; what reaches the user is a log. The two timers
    started by the constructor call [updatePrice] and [record_price] for as long as the page
    lives. *)

From Stdlib Require Import String.
From S2P Require Import Prelude JsMap JsNumber JsString Store Json.
Record PriceData := MkPrice {
  symbol : json;
  price : num;
  change24h : num;
  high24h : num;
  low24h : num;
  volume24h : num;
  p_timestamp : num;
  exchange : json;
}.

Inductive AlertType := above | below.

Record PriceAlert := MkAlert {
  id : string;
  type : AlertType;
  threshold : num;
  currency : string;
  enabled : bool;
  triggered : bool;
  createdAt : Z;
  triggeredAt : option Z;
}.

Record PriceHistoryPoint := MkPoint { timestamp : Z; h_price : num }.

Record PriceService := MkService {
  currentPrice : option PriceData;
  alerts : jsmap PriceAlert;
  history : list PriceHistoryPoint;
  ls_alerts : cell (list PriceAlert);
  ls_history : cell (list PriceHistoryPoint);
  shown : list string;
}.

Definition MAX_HISTORY : nat := 288.

#[export] Instance alert_store : Store PriceService PriceAlert := {|
  key := id;
  items := alerts;
  set_items := λ m s, MkService (currentPrice s) m (history s) (ls_alerts s) (ls_history s) (shown s);
  stored := ls_alerts;
  set_stored := λ c s, MkService (currentPrice s) (alerts s) (history s) c (ls_history s) (shown s);
|}.
#[export] Instance alert_laws : StoreLaws PriceService PriceAlert.
Proof. by constructor. Qed.

Definition set_price p s := MkService (Some p) (alerts s) (history s) (ls_alerts s) (ls_history s) (shown s).
Definition set_history l s := MkService (currentPrice s) (alerts s) l (ls_alerts s) (ls_history s) (shown s).
Definition set_ls_history c s := MkService (currentPrice s) (alerts s) (history s) (ls_alerts s) c (shown s).
Definition add_shown m s := MkService (currentPrice s) (alerts s) (history s) (ls_alerts s) (ls_history s) (shown s ++ [m]).

Definition fresh (a : cell (list PriceAlert)) (h : cell (list PriceHistoryPoint)) : PriceService :=
  MkService None [] [] a h [].

Abbreviation M := (js (PriceService * Env)).

(** A reply of the price server. *)
Record Response := MkResponse { ok : bool; status : Z; statusText : string; body : result json }.

(** The configured address, the replies to the requests, whether the browser has
    notifications and the user granted them, and the answer to a request for them. *)
Record Host := MkHost {
  PRICE_API_URL : string;
  fetch : nat → result Response;
  has_notification : bool;
  permission : string;
  requested : string;
}.

Section Host.
Context (h : Host).

Definition loadAlerts : M () := guarded load_items.
Definition saveAlerts : M () := guarded save_items.

Definition loadHistory : M () :=
  guarded (s ← this;
    match truthy_cell (ls_history s) with
    | None => mret ()
    | Some t => l ← JSON_parse t; modify_this (set_history l)
    end).

Definition saveHistory : M () :=
  b ← is_browser;
  js_when b (
    modify_this (λ s, if (MAX_HISTORY <? length (history s))%nat then set_history (slice_last MAX_HISTORY (history s)) s else s);;
    js_try (write_json set_ls_history history) (λ _, mret ())).

(** [new Notification(...)] with the message as its text. *)
Definition notifyAlert (a : PriceAlert) : M () :=
  b ← is_browser;
  if negb b then js_throw "window is not defined"
  else js_when (has_notification h && str_eqb (permission h) "granted")
    (modify_this (add_shown ("Price Alert: KC is now " +:+ match type a with above => "above" | below => "below" end +:+
      " $" +:+ num_to_string (threshold a) +:+ "!"))).

Definition should_trigger (p : num) (a : PriceAlert) : bool :=
  match type a with above => SFleb (threshold a) p | below => SFleb p (threshold a) end.

Definition fire (t : Z) (a : PriceAlert) : PriceAlert :=
  MkAlert (id a) (type a) (threshold a) (currency a) (enabled a) true (createdAt a) (Some t).

(** One step of the iteration over the alerts, which are changed in place. *)
Definition check_alert (p : num) (k : string) : M () :=
  s ← this;
  match map_get k (alerts s) with
  | None => mret ()
  | Some a =>
      if negb (enabled a) || triggered a then mret ()
      else js_when (should_trigger p a) (
        t ← date_now;
        modify_this (λ s, set_items (map_update k (fire t) (alerts s)) s);;
        saveAlerts;;
        notifyAlert a)
  end.

Definition checkAlerts : M () :=
  s ← this;
  match currentPrice s with
  | None => mret ()
  | Some c => js_forEach (check_alert (price c)) (map_keys (alerts s))
  end.

(** [a || b] on values that may be undefined. *)
Definition js_or (a b : option json) : option json := if truthy a then a else b.
Definition zero : option json := Some (JNum nzero).

Definition is_null (j : json) : bool := match j with JNull => true | _ => false end.

(** The price data read from the server's object, with the defaults. *)
Definition normalize (data : json) : M PriceData :=
  let get k := field k data in
  t ← (if truthy (get "timestamp") then mret (Number (get "timestamp")) else z ← date_now; mret (of_Z z));
  mret (MkPrice
    (default (JStr "KC/USD") (js_or (get "symbol") (Some (JStr "KC/USD"))))
    (Number (get "price"))
    (Number (js_or (get "change24h") zero))
    (Number (js_or (js_or (get "high24h") (get "price")) zero))
    (Number (js_or (js_or (get "low24h") (get "price")) zero))
    (Number (js_or (get "volume24h") zero))
    t
    (default (JStr "Unknown") (js_or (get "exchange") (Some (JStr "Unknown"))))).

Definition updatePrice : M PriceData :=
  if str_eqb (PRICE_API_URL h) "" then js_throw "Price API not configured"
  else
    response ← rpc (fetch h);
    if negb (ok response) then js_throw ("HTTP " +:+ pretty (status response) +:+ ": " +:+ statusText response)
    else
      match body response with
      | Throw msg => js_throw msg
      | Ok data =>
          if is_null data then js_throw "Cannot read properties of null"
          else
            normalized ← normalize data;
            if negb (is_finite (price normalized)) then js_throw "Invalid price data from API"
            else
              modify_this (set_price normalized);;
              checkAlerts;;
              mret normalized
      end.

(** The five-minute timer. *)
Definition record_price : M () :=
  s ← this;
  match currentPrice s with
  | None => mret ()
  | Some c =>
      t ← date_now;
      modify_this (λ s, set_history (history s ++ [MkPoint t (price c)]) s);;
      saveHistory
  end.

(** The first update's promise is not awaited: its failure is nobody's. *)
Definition startPriceMonitoring : M () :=
  b ← is_browser;
  js_when b (js_try (updatePrice;; mret ()) (λ _, mret ())).

Definition constructor : M () :=
  b ← is_browser;
  js_when b (loadAlerts;; loadHistory;; startPriceMonitoring).

Definition getCurrentPrice : M (option PriceData) := s ← this; mret (currentPrice s).

Definition getPriceHistory (hours : num) : M (list PriceHistoryPoint) :=
  t ← date_now;
  s ← this;
  let cutoff := nsub (of_Z t) (nmul (nmul (nmul hours (of_Z 60)) (of_Z 60)) (of_Z 1000)) in
  mret (js_filter (λ p, SFleb cutoff (of_Z (timestamp p))) (history s)).

Definition createAlert (ty : AlertType) (thr : num) (cur : string) : M PriceAlert :=
  t0 ← date_now;
  r ← random36;
  t1 ← date_now;
  let a := MkAlert ("alert_" +:+ pretty t0 +:+ "_" +:+ r) ty thr cur true false t1 None in
  put_item a;;
  saveAlerts;;
  mret a.

Definition getAllAlerts : M (list PriceAlert) :=
  s ← this; mret (js_sort (λ a b, createdAt a <? createdAt b) (map_values (alerts s))).
Definition getActiveAlerts : M (list PriceAlert) :=
  l ← getAllAlerts; mret (js_filter (λ a, enabled a && negb (triggered a)) l).
Definition getTriggeredAlerts : M (list PriceAlert) := l ← getAllAlerts; mret (js_filter triggered l).

(** [Partial<PriceAlert>] *)
Record Updates := MkUpdates {
  u_id : option string;
  u_type : option AlertType;
  u_threshold : option num;
  u_currency : option string;
  u_enabled : option bool;
  u_triggered : option bool;
  u_createdAt : option Z;
  u_triggeredAt : option (option Z);
}.

Definition assign (u : Updates) (a : PriceAlert) : PriceAlert :=
  MkAlert (default (id a) (u_id u)) (default (type a) (u_type u)) (default (threshold a) (u_threshold u))
    (default (currency a) (u_currency u)) (default (enabled a) (u_enabled u)) (default (triggered a) (u_triggered u))
    (default (createdAt a) (u_createdAt u)) (default (triggeredAt a) (u_triggeredAt u)).

Definition updateAlert (i : string) (u : Updates) : M bool :=
  s ← this;
  if map_has i (alerts s) then
    modify_this (λ s, set_items (map_update i (assign u) (alerts s)) s);;
    saveAlerts;;
    mret true
  else mret false.

Definition deleteAlert (i : string) : M bool :=
  s ← this;
  let deleted := map_has i (alerts s) in
  modify_this (λ s, set_items (map_delete i (alerts s)) s);;
  js_when deleted saveAlerts;;
  mret deleted.

Definition convertToFiat (amount : num) (cur : string) : M num :=
  s ← this;
  mret (match currentPrice s with
        | None => nzero
        | Some c => if negb (str_eqb cur "USD") then nzero else nmul amount (price c)
        end).

Record PortfolioValue := MkPortfolio { value : num; v_change24h : num; changePercent : num }.

Definition calculatePortfolioValue (balance : num) (cur : string) : M PortfolioValue :=
  s ← this;
  match currentPrice s with
  | None => mret (MkPortfolio nzero nzero nzero)
  | Some c =>
      v ← convertToFiat balance cur;
      mret (MkPortfolio v (ndiv (nmul v (change24h c)) (of_Z 100)) (change24h c))
  end.

Definition requestNotificationPermission : M bool :=
  b ← is_browser;
  if negb b then js_throw "window is not defined"
  else if negb (has_notification h) then mret false
  else if str_eqb (permission h) "granted" then mret true
  else if negb (str_eqb (permission h) "denied") then mret (str_eqb (requested h) "granted")
  else mret false.

Definition clearHistory : M () :=
  modify_this (set_history []);;
  b ← is_browser;
  js_when b (ls_removeItem (set_ls_history None)).

Definition clearAlerts : M () :=
  modify_this (set_items []);;
  b ← is_browser;
  js_when b (ls_removeItem (set_stored None)).
End Host.

(** * Theorems *)

Section Facts.
Context (h : Host).

(** ** Alerts *)

(** Does a price set the alert off? *)
Definition fires (p : num) (a : PriceAlert) : bool := enabled a && negb (triggered a) && should_trigger p a.

Definition message (a : PriceAlert) : string :=
  "Price Alert: KC is now " +:+ match type a with above => "above" | below => "below" end +:+ " $" +:+
  num_to_string (threshold a) +:+ "!".
Definition granted : bool := has_notification h && str_eqb (permission h) "granted".

(** The alert before and after a price. *)
Definition after (p : num) (a a' : PriceAlert) : Prop :=
  if fires p a then ∃ t, a' = fire t a else a' = a.

Lemma map_update_app k f pre (a : PriceAlert) post : map_wf (pre ++ (k, a) :: post) →
  map_update k f (pre ++ (k, a) :: post) = pre ++ (k, f a) :: post.
Proof.
  unfold map_wf, map_keys. rewrite fmap_app, fmap_cons. intros Hwf. apply NoDup_app in Hwf as (_ & Hd & _).
  assert (k ∉ pre.*1) as Hk by (intros Hk; apply (Hd k Hk); left).
  clear Hd. unfold map_update. induction pre as [|[k' b] pre IH].
  - cbn. by rewrite !str_eqb_refl.
  - cbn in *. apply not_elem_of_cons in Hk as [Hne Hk]. specialize (IH Hk).
    rewrite (proj2 (str_eqb_false k k') Hne) in *. destruct (map_get k (pre ++ (k, a) :: post)); by rewrite IH.
Qed.

Lemma map_get_app k pre (a : PriceAlert) post : k ∉ pre.*1 → map_get k (pre ++ (k, a) :: post) = Some a.
Proof.
  induction pre as [|[k' b] pre IH]; cbn; [by rewrite str_eqb_refl|].
  intros [Hne Hk]%not_elem_of_cons. by rewrite (proj2 (str_eqb_false k k') Hne), IH.
Qed.

Lemma notify_run a s e : browser e = true →
  notifyAlert h a (s, e) = (Ok (), (if granted then add_shown (message a) s else s, e)).
Proof. intros Hb. unfold notifyAlert, granted. js_run. rewrite Hb. cbn [negb]. js_run. by destruct (_ && _). Qed.

(** What one check leaves: the alert fired, saved and told, or nothing changed. *)
Definition checked (p : num) (k : string) (a : PriceAlert) (s s' : PriceService) : Prop :=
  currentPrice s' = currentPrice s ∧ history s' = history s ∧ ls_history s' = ls_history s ∧
  shown s' = shown s ++ (if fires p a && granted then [message a] else []) ∧
  if fires p a then ∃ t, alerts s' = map_update k (fire t) (alerts s) else alerts s' = alerts s.

Lemma check_run p k a s e : browser e = true → map_get k (alerts s) = Some a →
  ∃ s' e', check_alert h p k (s, e) = (Ok (), (s', e')) ∧ checked p k a s s' ∧ browser e' = true.
Proof.
  intros Hb Hg. unfold check_alert. js_run. rewrite Hg. unfold checked, fires.
  destruct (enabled a); cbn [negb orb andb]; [|eexists _, _; js_run; split_and!; [done..|by rewrite app_nil_r|done|done]].
  destruct (triggered a); cbn [negb andb]; [eexists _, _; js_run; split_and!; [done..|by rewrite app_nil_r|done|done]|].
  destruct (should_trigger p a); cbn [js_when andb]; [|eexists _, _; js_run; split_and!; [done..|by rewrite app_nil_r|done|done]].
  js_run. set (s1 := set_items _ s). unfold saveAlerts. rewrite (run_Ok _ _ _ _ _ (guarded_save_run s1 (tick e))).
  rewrite notify_run by exact Hb. eexists _, _. split; [reflexivity|]. subst s1. unfold guarded_result.
  destruct granted, (browser (tick e) && writable (tick e)); cbn; split_and!; try done; rewrite ?app_nil_r; try done; by eexists.
Qed.

Lemma checks_run p post : ∀ pre s e, browser e = true → alerts s = pre ++ post → map_wf (pre ++ post) →
  ∃ post' s' e', js_forEach (check_alert h p) post.*1 (s, e) = (Ok (), (s', e')) ∧
    alerts s' = pre ++ post' ∧ Forall2 (λ x y, y.1 = x.1 ∧ after p x.2 y.2) post post' ∧
    shown s' = shown s ++ (if granted then message <$> js_filter (fires p) post.*2 else []) ∧
    currentPrice s' = currentPrice s ∧ history s' = history s ∧ ls_history s' = ls_history s ∧ browser e' = true.
Proof.
  induction post as [|[k a] post IH]; intros pre s e Hb Ha Hwf.
  { exists [], s, e. split_and!; try done. cbn. by destruct granted; rewrite app_nil_r. }
  assert (k ∉ pre.*1) as Hk.
  { unfold map_wf, map_keys in Hwf. rewrite fmap_app in Hwf. apply NoDup_app in Hwf as (_ & Hd & _).
    intros Hk. apply (Hd k Hk). left. }
  destruct (check_run p k a s e Hb) as (s1 & e1 & E1 & (Hc1 & Hh1 & Hlh1 & Hs1 & Ha1) & Hb1).
  { rewrite Ha. by apply map_get_app. }
  assert (∃ a', alerts s1 = pre ++ (k, a') :: post ∧ after p a a') as (a' & Ha1' & Haf).
  { unfold after. destruct (fires p a).
    - destruct Ha1 as [t Ha1]. exists (fire t a). rewrite Ha1, Ha, map_update_app by done. by eauto.
    - exists a. by rewrite Ha1, Ha. }
  destruct (IH (pre ++ [(k, a')]) s1 e1 Hb1) as (post' & s' & e' & E & Hal & Hf & Hsh & Hc & Hh & Hlh & Hb').
  { by rewrite Ha1', <- app_assoc. }
  { unfold map_wf, map_keys in *. rewrite <- app_assoc. rewrite !fmap_app in *. exact Hwf. }
  exists ((k, a') :: post'), s', e'. split_and!; try done; try congruence.
  - cbn [fmap list_fmap js_forEach fst]. by rewrite (run_Ok _ _ _ _ _ E1).
  - by rewrite Hal, <- app_assoc.
  - by constructor.
  - rewrite Hsh, Hs1, <- app_assoc. f_equal. cbn [js_filter List.filter fmap list_fmap snd].
    unfold js_filter. cbn [List.filter]. by destruct (fires p a), granted.
Qed.

(** ** A price update *)

Definition parsed (r : Response) (data : json) : Prop := ok r = true ∧ body r = Ok data ∧ data ≠ JNull.

Lemma normalize_run data s e : browser e = true → ∃ c e',
  normalize data (s, e) = (Ok c, (s, e')) ∧ price c = Number (field "price" data) ∧ browser e' = true.
Proof.
  intros Hb. unfold normalize. cbv zeta. destruct (truthy _); js_run; (eexists _, _; split; [reflexivity|done]).
Qed.

(** An update that gets a price keeps it as the current one, and sets off exactly the
    alerts that are switched on, have not been set off before, and whose threshold the price
    reaches: each is marked and told once, in the order they were made, and every other alert
    is left as it was. *)
Theorem updatePrice_effect s e r data : browser e = true → map_wf (alerts s) → PRICE_API_URL h ≠ "" →
  fetch h (calls e) = Ok r → parsed r data → is_finite (Number (field "price" data)) = true →
  let p := Number (field "price" data) in
  ∃ c s' e', updatePrice h (s, e) = (Ok c, (s', e')) ∧ price c = p ∧ currentPrice s' = Some c ∧
    Forall2 (λ x y, y.1 = x.1 ∧ after p x.2 y.2) (alerts s) (alerts s') ∧
    shown s' = shown s ++ (if granted then message <$> js_filter (fires p) (map_values (alerts s)) else []).
Proof.
  intros Hb Hwf Hu Hr (Hok & Hbody & Hdata) Hfin p. unfold updatePrice. rewrite (proj2 (str_eqb_false _ _) Hu).
  rewrite run_rpc. cbn [fst snd]. rewrite Hr, Hok, Hbody. cbn [negb].
  replace (is_null data) with false by by destruct data.
  destruct (normalize_run data s (call e) Hb) as (c & e1 & E1 & Hp & Hb1).
  rewrite (run_Ok _ _ _ _ _ E1), Hp. fold p in Hfin, Hp |- *. rewrite Hfin. cbn [negb]. js_run. unfold checkAlerts. js_run.
  destruct (checks_run (price c) (alerts s) [] (set_price c s) e1 Hb1 eq_refl Hwf) as (post' & s' & e' & E & Ha & Hf & Hs & Hc & _).
  cbn [currentPrice set_price]. rewrite (run_Ok _ _ _ _ _ E).
  exists c, s', e'. rewrite Hp in *. split_and!; [done..|by rewrite Ha|exact Hs].
Qed.

(** An alert that was set off is not set off again by any price. *)
Lemma fired_stays_silent p a a' : after p a a' → fires p a = true → ∀ p', fires p' a' = false.
Proof. unfold after. intros H E p'. rewrite E in H. destruct H as [t ->]. unfold fires. cbn. by rewrite andb_false_r. Qed.

(** A failed request, a reply that is not a price, or no configured server: the error is
    thrown and nothing is changed. *)
Theorem failed_update_changes_nothing s e :
  match fetch h (calls e) with
  | Ok r => if ok r then match body r with Ok data => is_finite (Number (field "price" data)) = false | Throw _ => True end else True
  | Throw _ => True
  end →
  ∃ msg e', updatePrice h (s, e) = (Throw msg, (s, e')).
Proof.
  intros H. unfold updatePrice. destruct (str_eqb _ _); [by eexists _, _|]. rewrite run_rpc. cbn [fst snd].
  destruct (fetch h (calls e)) as [r|msg]; [|by eexists _, _]. destruct (ok r); cbn [negb]; [|by eexists _, _].
  destruct (body r) as [data|msg]; [|by eexists _, _]. destruct (is_null data); [by eexists _, _|].
  unfold normalize. cbv zeta. destruct (truthy _); js_run; cbn [price]; rewrite H; by eexists _, _.
Qed.

(** ** The stored history is short *)

Definition short (s : PriceService) : Prop :=
  match ls_history s with Some (TJson l) => (length l <= MAX_HISTORY)%nat | _ => True end.

Lemma record_short : preserves short record_price.
Proof.
  unfold record_price. apply preserves_this. intros s Hs. destruct (currentPrice s) as [c|]; [|apply preserves_ret].
  apply preserves_bind; [auto with js|]. intros t. apply preserves_bind; [by apply preserves_modify|]. intros _.
  unfold saveHistory. apply preserves_bind; [auto with js|]. intros b. apply preserves_when. intros _.
  intros [s0 e0] H0. js_run.
  match goal with |- context [if (?n <? ?k)%nat then ?x else s0] => set (s1 := if (n <? k)%nat then x else s0) end.
  assert (length (history s1) <= MAX_HISTORY)%nat as Hl.
  { subst s1. destruct (Nat.ltb_spec MAX_HISTORY (length (history s0))); [|lia].
    cbn [history set_history]. rewrite slice_last_length. lia. }
  assert (short s1) as Hs1 by (subst s1; by destruct (_ <? _)%nat).
  unfold js_try, write_json. js_run. unfold ls_setItem. cbn [fst snd]. by destruct (writable e0).
Qed.
End Facts.

(** ** Instances *)

Definition demo_alert (i : string) (ty : AlertType) (n : Z) (b : bool) : string * PriceAlert :=
  (i, MkAlert i ty (of_Z n) "USD" true b 0 None).
Definition demo_service : PriceService :=
  let m := [demo_alert "a" above 10 false; demo_alert "b" below 5 false; demo_alert "c" above 8 true] in
  MkService None m [] (Some (TJson (map_values m))) None [].
Definition demo_host : Host :=
  MkHost "https://prices" (λ _, Ok (MkResponse true 200 "OK" (Ok (JObj [("price", JStr "12.5")])))) true "granted" "".

Lemma updatePrice_effect_witness : ∃ c s' e', updatePrice demo_host (demo_service, demo_env) = (Ok c, (s', e')) ∧
  price c = lit 125 1 ∧ shown s' = ["Price Alert: KC is now above $10!"] ∧
  triggered <$> map_values (alerts s') = [true; false; true].
Proof.
  destruct (updatePrice_effect demo_host demo_service demo_env (MkResponse true 200 "OK" (Ok (JObj [("price", JStr "12.5")])))
    (JObj [("price", JStr "12.5")])) as (c & s' & e' & E & Hp & _ & Hf & Hs);
    [reflexivity| |done|reflexivity|done|reflexivity|].
  { apply (bool_decide_unpack _). vm_compute. exact I. }
  exists c, s', e'. split_and!; [exact E|rewrite Hp; vm_compute; reflexivity|rewrite Hs; vm_compute; reflexivity|].
  assert ((updatePrice demo_host (demo_service, demo_env)).2.1 = s') as <- by (by rewrite E).
  vm_compute. reflexivity.
Defined.

Lemma failed_update_changes_nothing_witness : ∃ msg e',
  updatePrice (MkHost "u" (λ _, Ok (MkResponse true 200 "OK" (Ok (JObj [("price", JStr "n/a")])))) false "" "") (demo_service, demo_env)
  = (Throw msg, (demo_service, e')).
Proof. apply failed_update_changes_nothing. vm_compute. reflexivity. Defined.
