(* ===== verification/FeeManager.v ===== *)
(** * [FeeManagerService] (apps/web/wallet/src/services/feeManager.ts)

    A simulated fee market, its history, and fee estimates. [Math.random] is a parameter.
    The timer of the constructor calls [updateFeeMarket] every minute. *)

From Stdlib Require Import String.
From S2P Require Import Prelude JsMap JsNumber JsString Store.

Record FeeEstimate := MkEstimate { targetBlocks : num; feeRate : num; estimatedTime : string }.

Record FeeMarketData := MkMarket {
  m_timestamp : Z;
  slow : FeeEstimate;
  medium : FeeEstimate;
  fast : FeeEstimate;
  urgent : FeeEstimate;
  mempoolSize : num;
  mempoolBytes : num;
}.

Record FeeHistoryPoint := MkPoint { timestamp : Z; h_slow : num; h_medium : num; h_fast : num }.

Record FeeManager := MkManager {
  currentMarket : option FeeMarketData;
  history : list FeeHistoryPoint;
  ls_history : cell (list FeeHistoryPoint);
}.

Definition MAX_HISTORY : nat := 144.

Definition set_market m s := MkManager (Some m) (history s) (ls_history s).
Definition set_history l s := MkManager (currentMarket s) l (ls_history s).
Definition set_ls_history c s := MkManager (currentMarket s) (history s) c.

Abbreviation M := (js (FeeManager * Env)).

Definition loadHistory : M () :=
  ls_use (s ← this;
    match truthy_cell (ls_history s) with
    | None => mret ()
    | Some t => l ← JSON_parse t; modify_this (set_history l)
    end).

Definition saveHistory : M () :=
  modify_this (λ s, if (MAX_HISTORY <? length (history s))%nat then set_history (slice_last MAX_HISTORY (history s)) s else s);;
  ls_use (write_json set_ls_history history).

Section Random.
Context (random : nat → num).

Definition Math_random : M num := λ w, (Ok (random (draws w.2)), (w.1, draw w.2)).

Definition updateFeeMarket : M FeeMarketData :=
  r0 ← Math_random;
  let baseRate := nadd (of_Z 10) (nmul r0 (of_Z 50)) in
  t0 ← date_now;
  r1 ← Math_random;
  r2 ← Math_random;
  let market := MkMarket t0
    (MkEstimate (of_Z 144) (nround (nmul baseRate (lit 5 1))) "~24 hours")
    (MkEstimate (of_Z 6) (nround baseRate) "~1 hour")
    (MkEstimate (of_Z 2) (nround (nmul baseRate (lit 15 1))) "~20 minutes")
    (MkEstimate (of_Z 1) (nround (nmul baseRate (lit 25 1))) "Next block")
    (nround (nadd (of_Z 5000) (nmul r1 (of_Z 50000))))
    (nround (nadd (of_Z 10000000) (nmul r2 (of_Z 100000000)))) in
  modify_this (set_market market);;
  t1 ← date_now;
  modify_this (λ s, set_history (history s ++
    [MkPoint t1 (feeRate (slow market)) (feeRate (medium market)) (feeRate (fast market))]) s);;
  saveHistory;;
  mret market.

(** The first update's promise is not awaited. *)
Definition startMonitoring : M () := js_try (updateFeeMarket;; mret ()) (λ _, mret ()).
Definition constructor : M () := loadHistory;; startMonitoring.
Definition forceMerkUpdate : M () := updateFeeMarket;; mret ().
End Random.

Definition getCurrentMarket : M (option FeeMarketData) := s ← this; mret (currentMarket s).

Definition getFeeHistory (hours : num) : M (list FeeHistoryPoint) :=
  t ← date_now;
  s ← this;
  let cutoff := nsub (of_Z t) (nmul (nmul (nmul hours (of_Z 60)) (of_Z 60)) (of_Z 1000)) in
  mret (js_filter (λ p, SFleb cutoff (of_Z (timestamp p))) (history s)).

Definition plural (n : num) : string := if SFltb (of_Z 1) n then "s" else "".

Definition estimateTime (blocks : num) : string :=
  let minutes := nmul blocks (of_Z 10) in
  if SFltb minutes (of_Z 60) then "~" +:+ num_to_string minutes +:+ " minutes"
  else
    let hours := nround (ndiv minutes (of_Z 60)) in
    if SFltb hours (of_Z 24) then "~" +:+ num_to_string hours +:+ " hour" +:+ plural hours
    else
      let days := nround (ndiv hours (of_Z 24)) in
      "~" +:+ num_to_string days +:+ " day" +:+ plural days.

Definition interpolate (lower upper : FeeEstimate) (target lowerBlocks upperBlocks : num) : FeeEstimate :=
  let ratio := ndiv (nsub target lowerBlocks) (nsub upperBlocks lowerBlocks) in
  MkEstimate target (nround (nadd (feeRate lower) (nmul (nsub (feeRate upper) (feeRate lower)) ratio))) (estimateTime target).

(** The estimate from a market: the nearest market rates, interpolated. *)
Definition estimate (market : option FeeMarketData) (target : num) : FeeEstimate :=
  match market with
  | None => MkEstimate target (nround (ndiv (of_Z 20) (nsqrt target))) (estimateTime target)
  | Some m =>
      if SFleb (of_Z 144) target then slow m
      else if SFleb (of_Z 6) target then interpolate (medium m) (slow m) target (of_Z 6) (of_Z 144)
      else if SFleb (of_Z 2) target then interpolate (fast m) (medium m) target (of_Z 2) (of_Z 6)
      else urgent m
  end.

Definition estimateFee (target : num) : M FeeEstimate := s ← this; mret (estimate (currentMarket s) target).

(** [10 + inputCount * 148 + outputCount * 34] *)
Definition vBytes (inputCount outputCount : num) : num :=
  nadd (nadd (of_Z 10) (nmul inputCount (of_Z 148))) (nmul outputCount (of_Z 34)).

Definition calculateTxFee (inputCount outputCount feeRatePerVByte : num) : num :=
  ndiv (nmul (vBytes inputCount outputCount) feeRatePerVByte) (of_Z 100000000).

Definition calculateRBFFee (originalFee inputCount outputCount : num) : num :=
  let originalFeeRate := ndiv (nmul originalFee (of_Z 100000000)) (vBytes inputCount outputCount) in
  calculateTxFee inputCount outputCount (nadd originalFeeRate (of_Z 5)).

Definition calculateCPFPFee (parentFee parentSize childInputCount childOutputCount targetFeeRate : num) : num :=
  let totalSize := nadd parentSize (vBytes childInputCount childOutputCount) in
  let totalFeeNeeded := ndiv (nmul totalSize targetFeeRate) (of_Z 100000000) in
  nmax (nsub totalFeeNeeded parentFee) (lit 1 5).

Definition getMempoolInfo : M (num * num) :=
  s ← this;
  mret (num_or (mempoolSize <$> currentMarket s) nzero, num_or (mempoolBytes <$> currentMarket s) nzero).

Inductive Urgency := u_slow | u_medium | u_fast | u_urgent.

Definition getRecommendedFee (u : Urgency) : M num :=
  s ← this;
  mret (match currentMarket s with
        | None => of_Z 20
        | Some m => feeRate (match u with u_slow => slow m | u_medium => medium m | u_fast => fast m | u_urgent => urgent m end)
        end).

Definition clearHistory : M () :=
  modify_this (set_history []);;
  ls_use (ls_removeItem (set_ls_history None)).

(** * Theorems *)

Definition working (e : Env) : Prop := browser e = true ∧ writable e = true.

(** The newest points that are kept. *)
Definition newest (l : list FeeHistoryPoint) : list FeeHistoryPoint := slice_last MAX_HISTORY l.

Lemma newest_short l : (length l <= MAX_HISTORY)%nat → newest l = l.
Proof. intros H. unfold newest, slice_last. by replace (length l - MAX_HISTORY)%nat with 0%nat by lia. Qed.

Lemma newest_length l : length (newest l) = (MAX_HISTORY `min` length l)%nat.
Proof. unfold newest. rewrite slice_last_length. lia. Qed.

Lemma saveHistory_run s e : working e →
  saveHistory (s, e) = (Ok (), (set_ls_history (Some (TJson (newest (history s)))) (set_history (newest (history s)) s), e)).
Proof.
  intros [Hb Hw]. unfold saveHistory. js_run.
  replace (if (MAX_HISTORY <? length (history s))%nat then _ else s) with (set_history (newest (history s)) s).
  2: { destruct (Nat.ltb_spec MAX_HISTORY (length (history s))); [done|]. rewrite newest_short by lia. by destruct s. }
  unfold ls_use, write_json. js_run. rewrite Hb. js_run. unfold ls_setItem. cbn [fst snd]. by rewrite Hw.
Qed.

(** Each update makes a market whose rates are the newest point of the history, of which the
    144 newest points are kept, in memory and in storage. *)
Theorem updateFeeMarket_effect random s e : working e → ∃ m t e',
  let l := newest (history s ++ [MkPoint t (feeRate (slow m)) (feeRate (medium m)) (feeRate (fast m))]) in
  updateFeeMarket random (s, e) = (Ok m, (MkManager (Some m) l (Some (TJson l)), e')) ∧ working e' ∧
  (length l <= MAX_HISTORY)%nat.
Proof.
  intros Hw. unfold updateFeeMarket. cbv zeta.
  assert (∀ B (k : num → M B) (w : FeeManager * Env), (Math_random random ≫= k) w = k (random (draws w.2)) (w.1, draw w.2)) as Hr by done.
  rewrite Hr. js_run. rewrite !Hr. js_run. cbn [fst snd].
  match goal with |- context [MkMarket ?t ?a ?b ?c ?d ?x ?y] => set (m := MkMarket t a b c d x y) end.
  match goal with |- context [MkPoint ?t _ _ _] => set (t1 := t) end.
  match goal with |- context [(saveHistory ≫= _) (?s1, ?e1)] => rewrite (run_Ok _ _ _ _ _ (saveHistory_run s1 e1 Hw)) end.
  exists m, t1. eexists. split; [reflexivity|]. split; [exact Hw|]. rewrite newest_length. lia.
Qed.

Lemma nmax_r x y : is_nan (nmax x y) = false → y ≤ₙ nmax x y.
Proof.
  intros Hn. assert (is_nan x = false ∧ is_nan y = false) as [Hx Hy].
  { split; [by destruct x|by destruct x, y]. }
  assert (y ≤ₙ (if SFltb x y then y else x)) as H.
  { destruct (SFltb x y) eqn:E; [by apply nleb_refl|]. rewrite nltb_nleb in E by done. by apply negb_false_iff. }
  destruct x as [sx|sx| |sx mx ex], y as [sy|sy| |sy my ey]; try done; exact H.
Qed.

(** The child of a transaction that is paid for never pays less than the dust limit. *)
Theorem calculateCPFPFee_minimum pf ps ci co r :
  is_nan (calculateCPFPFee pf ps ci co r) = false → lit 1 5 ≤ₙ calculateCPFPFee pf ps ci co r.
Proof. apply nmax_r. Qed.

(** At the number of blocks a market names, the estimate is the market's. *)
Example estimates_at_known_targets :
  let m := MkMarket 0 (MkEstimate (of_Z 144) (of_Z 15) "s") (MkEstimate (of_Z 6) (of_Z 30) "m")
    (MkEstimate (of_Z 2) (of_Z 45) "f") (MkEstimate (of_Z 1) (of_Z 75) "u") nzero nzero in
  feeRate <$> ((λ n, estimate (Some m) (of_Z n)) <$> [1; 2; 4; 6; 75; 144]) =
  of_Z <$> [75; 45; 38; 30; 23; 15].
Proof. vm_compute. reflexivity. Qed.

Lemma updateFeeMarket_effect_witness : ∃ m t e',
  let l := newest [MkPoint t (feeRate (slow m)) (feeRate (medium m)) (feeRate (fast m))] in
  updateFeeMarket (λ _, lit 5 1) (MkManager None [] None, demo_env) = (Ok m, (MkManager (Some m) l (Some (TJson l)), e')) ∧
  feeRate (slow m) = of_Z 18.
Proof.
  destruct (updateFeeMarket_effect (λ _, lit 5 1) (MkManager None [] None) demo_env) as (m & t & e' & E & _); [done|].
  exists m, t, e'. split; [exact E|].
  assert ((updateFeeMarket (λ _, lit 5 1) (MkManager None [] None, demo_env)).1 = Ok m) as H by (by rewrite E).
  vm_compute in H. injection H as <-. vm_compute. reflexivity.
Defined.

Lemma calculateCPFPFee_minimum_witness : lit 1 5 ≤ₙ calculateCPFPFee (lit 1 3) (of_Z 200) (of_Z 1) (of_Z 1) (of_Z 10).
Proof. apply calculateCPFPFee_minimum. vm_compute. reflexivity. Defined.
