(* ===== verification/BackupManager.v ===== *)
(** * [BackupManager] (apps/web/wallet/src/services/backupManager.ts)

    The list of backups with its stored copy, and the encryption of a text with a password.
    The Web Cryptography API is the parameter of [Security]. *)

From Stdlib Require Import Ascii String.
From S2P Require Import Prelude JsMap JsString Bytes Store Security.

Inductive BackupType := shamir | social | cloud | local.

Record Backup := MkBackup {
  id : string;
  type : BackupType;
  name : string;
  createdDate : Z;
  lastVerified : option Z;
  shares : option Z;
  threshold : option Z;
  encrypted : bool;
  synced : bool;
}.

Record BackupVerification := MkVerification { backupId : string; success : bool; timestamp : Z }.

Record BackupManager := MkManager { backups : jsmap Backup; ls_backups : cell (list Backup) }.

#[export] Instance backup_store : Store BackupManager Backup := {|
  key := id;
  items := backups;
  set_items := λ m s, MkManager m (ls_backups s);
  stored := ls_backups;
  set_stored := λ c s, MkManager (backups s) c;
|}.
#[export] Instance backup_laws : StoreLaws BackupManager Backup.
Proof. by constructor. Qed.

Definition fresh (c : cell (list Backup)) : BackupManager := MkManager [] c.

Abbreviation M := (js (BackupManager * Env)).

(** The storage is used without a check, inside a [try] that drops every error. *)
Definition loadBackups : M () := js_try (ls_use load_items) (λ _, mret ()).
Definition saveBackups : M () := js_try (ls_use save_items) (λ _, mret ()).
Definition constructor : M () := loadBackups.

Definition getAllBackups : M (list Backup) := s ← this; mret (map_values (backups s)).

Record Options := MkOptions { o_shares : option Z; o_threshold : option Z; encryptionPassword : option string }.

Definition createBackup (ty : BackupType) (nm : string) (options : option Options) : M Backup :=
  t0 ← date_now;
  t1 ← date_now;
  let b := MkBackup ("backup_" +:+ pretty t0) ty nm t1 None (options ≫= o_shares) (options ≫= o_threshold)
    (truthy_str (options ≫= encryptionPassword)) false in
  put_item b;;
  saveBackups;;
  mret b.

(** A change through the reference that [get] returns, stored again and saved. *)
Definition change_backup (i : string) (f : Backup → Backup) : M () :=
  modify_this (λ s, set_items (map_update i f (backups s)) s);; saveBackups.

Definition verifyBackup (i : string) : M BackupVerification :=
  s ← this;
  if negb (map_has i (backups s)) then js_throw "Backup not found"
  else
    t0 ← date_now;
    change_backup i (λ b, MkBackup (id b) (type b) (name b) (createdDate b) (Some t0) (shares b) (threshold b)
      (encrypted b) (synced b));;
    t1 ← date_now;
    mret (MkVerification i true t1).

Definition syncToCloud (i : string) : M bool :=
  s ← this;
  if negb (map_has i (backups s)) then js_throw "Backup not found"
  else
    change_backup i (λ b, MkBackup (id b) (type b) (name b) (createdDate b) (lastVerified b) (shares b) (threshold b)
      (encrypted b) true);;
    mret true.

Definition deleteBackup (i : string) : M bool :=
  s ← this;
  let deleted := map_has i (backups s) in
  modify_this (λ s, set_items (map_delete i (backups s)) s);;
  js_when deleted saveBackups;;
  mret deleted.

(** The file holds the JSON of the returned backup. *)
Definition exportBackup (i : string) : M Backup :=
  s ← this;
  match map_get i (backups s) with
  | None => js_throw "Backup not found"
  | Some b => mret b
  end.

(** ** Encryption *)

Section Crypto.
Context (wc : WebCrypto).

(** Outside the browser there is no Web Cryptography API. *)
Definition getCrypto : M () := b ← is_browser; if b : bool then mret () else js_throw "WebCrypto is not available.".

Definition random_bytes (n : nat) : M (list Z) := λ w, (Ok (randomBytes wc (draws w.2) n), (w.1, draw w.2)).

Definition lift {A} (r : result A) : M A := match r with Ok a => mret a | Throw msg => js_throw msg end.

Definition deriveKey (password : string) (salt : list Z) : M (list Z) :=
  getCrypto;; mret (pbkdf2 wc (bytes_of password) salt 100000 32).

Definition toBase64 (l : list Z) : string := btoa l.
Definition fromBase64 (s : string) : M (list Z) :=
  match atob s with
  | Some l => mret l
  | None => js_throw "The string to be decoded is not correctly encoded."
  end.

Definition encryptData (data password : string) : M string :=
  getCrypto;;
  salt ← random_bytes 16;
  iv ← random_bytes 12;
  k ← deriveKey password salt;
  cipherBytes ← lift (gcm_encrypt wc k iv (bytes_of data));
  mret ("v1:" +:+ toBase64 salt +:+ ":" +:+ toBase64 iv +:+ ":" +:+ toBase64 cipherBytes).

Definition decryptData (encryptedData password : string) : M string :=
  getCrypto;;
  let parts := split_on ":" encryptedData in
  if negb (bool_decide (parts !! 0%nat = Some "v1")) || negb (truthy_str (parts !! 1%nat))
    || negb (truthy_str (parts !! 2%nat)) || negb (truthy_str (parts !! 3%nat))
  then js_throw "Invalid encrypted data"
  else
    salt ← fromBase64 (default "" (parts !! 1%nat));
    iv ← fromBase64 (default "" (parts !! 2%nat));
    data ← fromBase64 (default "" (parts !! 3%nat));
    k ← deriveKey password salt;
    plaintext ← lift (gcm_decrypt wc k iv data);
    mret (string_of plaintext).
End Crypto.

(** * Theorems *)

(** ** Encryption *)

Definition not_colon (c : ascii) : bool := negb (Ascii.eqb c ":").

Lemma str_all_chars p s : (∀ c, c ∈ list_ascii_of_string s → p c = true) → str_all p s = true.
Proof.
  induction s as [|c s IH]; intros H; [done|]. cbn [str_all list_ascii_of_string] in *.
  rewrite (H c ltac:(left)). apply IH. intros c' Hc. apply H. by right.
Qed.

Lemma btoa_no_colon l : Forall is_byte l → str_all not_colon (btoa l) = true.
Proof.
  intros Hl. apply str_all_chars. intros c. rewrite btoa_groups, elem_of_app.
  intros [(v & -> & Hv)%list_elem_of_fmap|Hc].
  - pose proof (groups_bound l Hl) as Hg. rewrite Forall_forall in Hg. specialize (Hg v Hv).
    destruct (sextet_ok v Hg) as (Hs & _). unfold not_colon. apply negb_true_iff, Ascii.eqb_neq. intros E.
    by rewrite E in Hs.
  - unfold padding in Hc. destruct (length l mod 3)%nat as [|[|[|?]]]; set_solver.
Qed.

Lemma btoa_nonempty l : l ≠ [] → str_eqb (btoa l) "" = false.
Proof. intros Hl. apply str_eqb_false. by destruct l as [|x [|y [|z l]]]. Qed.

(** AES-GCM puts a tag of 16 bytes behind the encrypted data. *)
Definition tagged (wc : WebCrypto) : Prop :=
  ∀ k iv d c, gcm_encrypt wc k iv d = Ok c → (16 <= length c)%nat.

Lemma split_encrypted a b c : str_all not_colon a = true → str_all not_colon b = true → str_all not_colon c = true →
  split_on ":" ("v1:" +:+ a +:+ ":" +:+ b +:+ ":" +:+ c) = ["v1"; a; b; c].
Proof.
  intros Ha Hb Hc. change ("v1:" +:+ a +:+ ":" +:+ b +:+ ":" +:+ c) with ("v1" +:+ String ":" (a +:+ String ":" (b +:+ String ":" c))).
  rewrite split_on_join by done. rewrite split_on_join by done. rewrite split_on_join by done. by rewrite split_on_none.
Qed.

Lemma fromBase64_run l s e : Forall is_byte l → fromBase64 (btoa l) (s, e) = (Ok l, (s, e)).
Proof. intros Hl. unfold fromBase64. by rewrite atob_btoa. Qed.

Lemma encryptData_run wc data password s e :
  let salt := randomBytes wc (draws e) 16 in
  let iv := randomBytes wc (draws (draw e)) 12 in
  encryptData wc data password (s, e) =
  if browser e then
    match gcm_encrypt wc (pbkdf2 wc (bytes_of password) salt 100000 32) iv (bytes_of data) with
    | Ok c => (Ok ("v1:" +:+ btoa salt +:+ ":" +:+ btoa iv +:+ ":" +:+ btoa c), (s, draw (draw e)))
    | Throw msg => (Throw msg, (s, draw (draw e)))
    end
  else (Throw "WebCrypto is not available.", (s, e)).
Proof.
  cbv zeta. unfold encryptData, deriveKey, getCrypto, random_bytes, lift, mbind, js_bind, is_browser. cbn [fst snd].
  destruct (browser e) eqn:Hb; [|done]. cbn. rewrite Hb. cbn. by destruct (gcm_encrypt _ _ _ _).
Qed.

(** Whatever [encryptData] returns, [decryptData] with the same password gives back the
    text, in any later state. *)
Theorem decryptData_encryptData wc data password s e text w s2 e2 : WebCryptoLaws wc → tagged wc →
  encryptData wc data password (s, e) = (Ok text, w) → browser e2 = true →
  decryptData wc text password (s2, e2) = (Ok data, (s2, e2)).
Proof.
  intros Hwc Htag H Hb2. rewrite encryptData_run in H. destruct (browser e); [|done].
  destruct (Security.random_bytes (wc:=wc) (draws e) 16) as [Hs Hsl].
  destruct (Security.random_bytes (wc:=wc) (draws (draw e)) 12) as [Hi Hil].
  set (salt := randomBytes wc (draws e) 16) in *. set (iv := randomBytes wc (draws (draw e)) 12) in *.
  destruct (gcm_encrypt _ _ _ _) as [c|msg] eqn:Hc; [|done]. injection H as <- <-.
  destruct (gcm_correct _ _ _ _ Hc) as [Hcb Hdec].
  unfold decryptData, getCrypto. js_run. rewrite Hb2. js_run. cbv zeta.
  rewrite split_encrypted by by apply btoa_no_colon. cbn [lookup list_lookup default truthy_str negb orb].
  rewrite bool_decide_eq_true_2 by done.
  assert (salt ≠ [] ∧ iv ≠ [] ∧ c ≠ []) as (Hs0 & Hi0 & Hc0).
  { pose proof (Htag _ _ _ _ Hc). repeat split; intros E; rewrite E in *; cbn in *; lia. }
  rewrite !btoa_nonempty by done. cbn [negb orb]. 
  rewrite (run_Ok _ _ _ _ _ (fromBase64_run salt s2 e2 Hs)), (run_Ok _ _ _ _ _ (fromBase64_run iv s2 e2 Hi)),
    (run_Ok _ _ _ _ _ (fromBase64_run c s2 e2 Hcb)).
  unfold deriveKey, getCrypto. js_run. rewrite Hb2. js_run. unfold lift. rewrite Hdec. js_run.
  by rewrite string_of_bytes.
Qed.

(** ** The list of backups *)

Inductive Operation :=
  | Create (ty : BackupType) (nm : string) (o : option Options)
  | Verify (i : string)
  | Sync (i : string)
  | Delete (i : string).

Definition exec (o : Operation) : M () :=
  match o with
  | Create ty nm o => createBackup ty nm o;; mret ()
  | Verify i => verifyBackup i;; mret ()
  | Sync i => syncToCloud i;; mret ()
  | Delete i => deleteBackup i;; mret ()
  end.

Definition working (e : Env) : Prop := browser e = true ∧ writable e = true.
Definition in_step (w : BackupManager * Env) : Prop := mirrored w.1 ∧ working w.2.

Lemma save_backups_run s e : working e → saveBackups (s, e) = (Ok (), (committed s, e)).
Proof.
  intros [Hb Hw]. unfold saveBackups, js_try, ls_use. js_run. rewrite Hb, save_items_run, Hw. done.
Qed.

Lemma change_in_step i f s e : (∀ b, id (f b) = id b) → in_step (s, e) →
  ∃ s', change_backup i f (s, e) = (Ok (), (s', e)) ∧ mirrored s' ∧ map_get i (backups s') = f <$> map_get i (backups s).
Proof.
  intros Hf [Hm Hw]. unfold change_backup. js_run. rewrite save_backups_run by done. eexists. split; [reflexivity|].
  split; [exact (mirrored_update s i f Hf Hm)|]. cbn. apply map_get_update.
Qed.

Lemma backup_op_in_step o w : in_step w → in_step (exec o w).2.
Proof.
  destruct w as [s e]. intros [Hm Hw]. cbn [fst snd] in *. destruct o as [ty nm o|i|i|i]; cbn [exec].
  - unfold createBackup, put_item. js_run. match goal with |- context [(saveBackups ≫= _) (?s1, ?e1)] =>
      rewrite (run_Ok _ _ _ _ _ (save_backups_run s1 e1 Hw)) end. split; [|done]. exact (mirrored_put s _ Hm).
  - unfold verifyBackup. js_run. destruct (map_has i _); cbn [negb]; [|by split]. js_run.
    match goal with |- context [change_backup i ?f] =>
      destruct (change_in_step i f s (tick e) ltac:(done) (conj Hm Hw)) as (s' & E & Hm' & _) end.
    rewrite (run_Ok _ _ _ _ _ E). js_run. by split.
  - unfold syncToCloud. js_run. destruct (map_has i _); cbn [negb]; [|by split].
    match goal with |- context [change_backup i ?f] =>
      destruct (change_in_step i f s e ltac:(done) (conj Hm Hw)) as (s' & E & Hm' & _) end.
    rewrite (run_Ok _ _ _ _ _ E). js_run. by split.
  - unfold deleteBackup. js_run. cbv zeta. js_run. destruct (map_has i _) eqn:Eh; cbn [js_when].
    + rewrite (run_Ok _ _ _ _ _ (save_backups_run _ _ Hw)). js_run. split; [|done]. exact (mirrored_delete s _ Hm).
    + js_run. split; [|done]. destruct Hm as [Hk Hs].
      assert (map_delete i (backups s) = backups s) as E by (apply map_delete_absent; unfold map_has in Eh; by destruct (map_get _ _)).
      split; cbn; rewrite E; done.
Qed.

(** What any sequence of operations leaves is in storage: a new instance reads back the same
    backups. *)
Theorem backups_survive_reload os w : in_step w →
  let w' := foldl (λ w o, (exec o w).2) w os in
  backups (constructor (fresh (ls_backups w'.1), w'.2)).2.1 = backups w'.1.
Proof.
  intros Hw. cbv zeta. set (w' := foldl _ w os).
  assert (in_step w') as (Hm & [Hb _]).
  { subst w'. revert w Hw. induction os as [|o os IH]; intros w Hw; [done|]. cbn [foldl]. by apply IH, backup_op_in_step. }
  pose proof (mirrored_reload w'.1 (fresh (ls_backups w'.1)) w'.2 Hm eq_refl eq_refl) as H.
  change (backups (load_items (fresh (ls_backups w'.1), w'.2)).2.1 = backups w'.1) in H.
  rewrite <- H. clear H. unfold constructor, loadBackups, js_try, ls_use. js_run. rewrite Hb.
  destruct (load_items_cases (fresh (ls_backups w'.1)) w'.2) as (r & s' & E & _). rewrite E. by destruct r as [[]|msg].
Qed.

(** A verification succeeds for every backup there is, and nothing was compared; so does a
    synchronisation, and nothing was sent. *)
Theorem verification_checks_nothing i s e : in_step (s, e) → map_has i (backups s) = true →
  (∃ v w, verifyBackup i (s, e) = (Ok v, w) ∧ success v = true) ∧ (∃ w, syncToCloud i (s, e) = (Ok true, w)).
Proof.
  intros Hs Hi. unfold verifyBackup, syncToCloud. js_run. rewrite Hi. cbn [negb]. js_run. split.
  - match goal with |- context [change_backup i ?f] =>
      destruct (change_in_step i f s (tick e) ltac:(done) Hs) as (s' & E & _) end.
    rewrite (run_Ok _ _ _ _ _ E). js_run. by eexists _, _.
  - match goal with |- context [change_backup i ?f] =>
      destruct (change_in_step i f s e ltac:(done) Hs) as (s' & E & _) end.
    rewrite (run_Ok _ _ _ _ _ E). by eexists.
Qed.

(** ** Instances *)

(** [toy_crypto] with a tag of 16 zeros. *)
Definition tagging_crypto : WebCrypto := {|
  randomBytes := randomBytes toy_crypto;
  pbkdf2 := pbkdf2 toy_crypto;
  gcm_encrypt k iv d := match gcm_encrypt toy_crypto k iv d with Ok c => Ok (c ++ repeat 0 16) | Throw m => Throw m end;
  gcm_decrypt k iv c := gcm_decrypt toy_crypto k iv (take (length c - 16) c);
|}.

Lemma tagging_tagged : tagged tagging_crypto.
Proof.
  intros k iv d c. cbn [gcm_encrypt tagging_crypto]. destruct (gcm_encrypt toy_crypto k iv d); [|done].
  intros [= <-]. rewrite length_app. cbn. lia.
Qed.

#[export] Instance tagging_laws : WebCryptoLaws tagging_crypto.
Proof.
  split; [exact (Security.random_bytes (wc:=toy_crypto))|exact (derived_bytes (wc:=toy_crypto))|]. intros k iv d c. cbn [gcm_encrypt gcm_decrypt tagging_crypto].
  destruct (gcm_encrypt toy_crypto k iv d) as [c'|] eqn:E; [|done]. intros [= <-].
  destruct (gcm_correct _ _ _ _ E) as [Hb Hd]. split.
  - apply Forall_app; split; [done|]. apply (bool_decide_unpack _). by vm_compute.
  - rewrite length_app. cbn [repeat length]. rewrite Nat.add_sub, take_app_length. exact Hd.
Qed.

Lemma decryptData_encryptData_witness : ∃ text w, encryptData tagging_crypto "seed" "pw" (fresh None, demo_env) = (Ok text, w) ∧
  decryptData tagging_crypto text "pw" (fresh None, demo_env) = (Ok "seed", (fresh None, demo_env)).
Proof.
  eexists _, _. split; [vm_compute; reflexivity|].
  refine (decryptData_encryptData tagging_crypto "seed" "pw" (fresh None) demo_env _ _ (fresh None) demo_env tagging_laws tagging_tagged _ _).
  all: vm_compute; reflexivity.
Defined.

Lemma demo_backups_in_step : in_step (fresh None, demo_env).
Proof. split; [|done]. split; [apply keyed_nil|done]. Qed.

Lemma backups_survive_reload_witness :
  let w' := foldl (λ w o, (exec o w).2) (fresh None, demo_env) [Create local "a" None; Create cloud "b" None; Verify "backup_1"] in
  backups (constructor (fresh (ls_backups w'.1), w'.2)).2.1 = backups w'.1.
Proof. exact (backups_survive_reload _ (fresh None, demo_env) demo_backups_in_step). Defined.

(** Two backups made within a millisecond have one identifier: the first is lost. *)
Example backups_of_one_millisecond :
  let w := (exec (Create local "first" None) (fresh None, MkEnv (λ _, 5) (λ _, "x") 0 0 0 true true)).2 in
  name <$> map_values (backups (exec (Create local "second" None) w).2.1) = ["second"].
Proof. vm_compute. reflexivity. Qed.

Lemma verification_checks_nothing_witness :
  let w := (exec (Create local "a" None) (fresh None, MkEnv (λ _, 5) (λ _, "x") 0 0 0 true true)).2 in
  ∃ v w', verifyBackup "backup_5" w = (Ok v, w') ∧ success v = true.
Proof.
  intros w. refine (proj1 (verification_checks_nothing "backup_5" w.1 w.2 _ _)); [|vm_compute; reflexivity].
  apply backup_op_in_step. split; [|done]. split; [apply keyed_nil|done].
Defined.
