(* ===== verification/Settings.v ===== *)
(** * [SettingsService] (apps/web/wallet/src/services/settings.ts)

    The application's settings: a JSON object of five sections. Imported and stored objects
    are spread over the defaults as they are, so a section can be any JSON value. *)

From Stdlib Require Import Ascii String.
From S2P Require Import Prelude JsMap JsNumber JsString Store Json.

(** The properties of an object; their order is not looked at. *)
Abbreviation obj := (list (string * json)).

Record SettingsService := MkService { settings : obj; ls_settings : cell json }.

Definition set_settings (o : obj) (s : SettingsService) : SettingsService := MkService o (ls_settings s).
Definition set_ls_settings (c : cell json) (s : SettingsService) : SettingsService := MkService (settings s) c.

Abbreviation M := (js (SettingsService * Env)).

Definition getDefaultSettings : obj :=
  [("general", JObj [("language", JStr "en"); ("currency", JStr "USD"); ("theme", JStr "dark")]);
   ("display", JObj [("unit", JStr "KBC"); ("decimalPlaces", JNum (of_Z 8)); ("hideSmallBalances", JBool false);
     ("smallBalanceThreshold", JNum (lit 1 5))]);
   ("network", JObj [("nodeUrl", JStr "http://localhost:8332"); ("network", JStr "mainnet"); ("autoConnect", JBool true);
     ("connectionTimeout", JNum (of_Z 30000))]);
   ("privacy", JObj [("addressDerivationGap", JNum (of_Z 20)); ("autoConsolidateUtxos", JBool false);
     ("consolidationThreshold", JNum (of_Z 10)); ("dustThreshold", JNum (lit 1 5)); ("avoidAddressReuse", JBool true)]);
   ("backup", JObj [("autoBackup", JBool false); ("backupFrequency", JStr "weekly"); ("backupLocation", JStr "");
     ("cloudSync", JBool false); ("encryptBackups", JBool true)])].

(** The service before its constructor reads the storage. *)
Definition fresh (c : cell json) : SettingsService := MkService getDefaultSettings c.

(** The own properties that the spread of a value copies. *)
Definition own (j : json) : obj :=
  match j with
  | JObj l => l
  | JArr l => zip (pretty <$> seq 0 (length l)) l
  | JStr s => zip (pretty <$> seq 0 (String.length s)) ((λ c, JStr (String c EmptyString)) <$> list_ascii_of_string s)
  | _ => []
  end.
Definition own_opt (o : option json) : obj := match o with Some j => own j | None => [] end.

(** [{ ...a, ...b }] *)
Definition spread (a b : obj) : obj := foldl (λ m kv, map_set kv.1 kv.2 m) a b.

Definition loadSettings : M () :=
  guarded (s ← this;
    match truthy_cell (ls_settings s) with
    | None => mret ()
    | Some t => loaded ← JSON_parse t; modify_this (λ s, set_settings (spread (settings s) (own loaded)) s)
    end).

Definition saveSettings : M () := guarded (write_json set_ls_settings (λ s, JObj (settings s))).

Definition constructor : M () := b ← is_browser; js_when b loadSettings.

Definition getSettings : M obj := s ← this; mret (settings s).

(** [{ ...this.settings.section }] *)
Definition section (name : string) (s : SettingsService) : obj := own_opt (map_get name (settings s)).
Definition get_section (name : string) : M obj := s ← this; mret (section name s).

Definition getGeneralSettings : M obj := get_section "general".
Definition getDisplaySettings : M obj := get_section "display".
Definition getNetworkSettings : M obj := get_section "network".
Definition getPrivacySettings : M obj := get_section "privacy".
Definition getBackupSettings : M obj := get_section "backup".

(** [this.settings.section = { ...this.settings.section, ...updates }] *)
Definition update_section (name : string) (updates : obj) : M () :=
  modify_this (λ s, set_settings (map_set name (JObj (spread (section name s) updates)) (settings s)) s);;
  saveSettings.

Definition updateGeneralSettings : obj → M () := update_section "general".
Definition updateDisplaySettings : obj → M () := update_section "display".
Definition updateNetworkSettings : obj → M () := update_section "network".
Definition updatePrivacySettings : obj → M () := update_section "privacy".
Definition updateBackupSettings : obj → M () := update_section "backup".

Definition resetSettings : M () := modify_this (set_settings getDefaultSettings);; saveSettings.

(** The text of the settings. *)
Definition exportSettings : M (text json) := s ← this; mret (TJson (JObj (settings s))).

Definition importSettings (jsonData : text json) : M bool :=
  js_try (
    imported ← JSON_parse jsonData;
    modify_this (set_settings (spread getDefaultSettings (own imported)));;
    saveSettings;;
    mret true)
  (λ _, mret false).

(** The integer part of a number, zero for NaN; [None] for an infinity. *)
Definition to_integer (x : num) : option Z :=
  match x with
  | S754_zero _ | S754_nan => Some 0
  | S754_infinity _ => None
  | S754_finite b m e => let v := floor_Z false m e in Some (if b then - v else v)
  end.

(** [x.toFixed(digits)] for a value that may be undefined. *)
Definition toFixed (x : num) (digits : option json) : M string :=
  match to_integer (Number digits) with
  | Some z => if (0 <=? z) && (z <=? 100) then mret (to_fixed (Z.to_nat z) x)
              else js_throw "toFixed() digits argument must be between 0 and 100"
  | None => js_throw "toFixed() digits argument must be between 0 and 100"
  end.

Definition undefined_text (o : option json) : string := match o with Some j => to_text j | None => "undefined" end.

Definition formatAmount (amount : num) : M string :=
  s ← this;
  match map_get "display" (settings s) with
  | None | Some JNull => js_throw "Cannot destructure property of undefined"
  | Some display =>
      let unit := field "unit" display in
      let value :=
        if str_eqb (default "" (as_string unit)) "mKBC" then nmul amount (of_Z 1000)
        else if str_eqb (default "" (as_string unit)) "sat" then nmul amount (of_Z 100000000)
        else amount in
      t ← toFixed value (field "decimalPlaces" display);
      mret (t +:+ " " +:+ undefined_text unit)
  end.

(** * Theorems *)

Definition working (e : Env) : Prop := browser e = true ∧ writable e = true.

(** ** Spreading *)

(** The values of [b] win. *)
Lemma map_get_spread k a b : map_wf b →
  map_get k (spread a b) = match map_get k b with Some v => Some v | None => map_get k a end.
Proof.
  unfold spread, map_wf, map_keys. revert a. induction b as [|[k' v] b IH]; intros a Hb; [done|].
  cbn [fmap list_fmap fst] in Hb. apply NoDup_cons in Hb as [Hk Hb]. cbn [foldl map_get fst snd]. rewrite IH by done.
  destruct (str_eqb k k') eqn:E.
  - apply str_eqb_true in E as ->. rewrite map_get_set_eq. destruct (map_get k' b) eqn:Eb; [|done].
    destruct Hk. apply map_get_Some_elem in Eb. by apply (list_elem_of_fmap_2 fst) in Eb.
  - rewrite map_get_set_ne; [done|]. apply str_eqb_false in E. congruence.
Qed.

Lemma spread_wf a b : map_wf a → map_wf (spread a b).
Proof. unfold spread. revert a. induction b as [|kv b IH]; intros a Ha; [done|]. cbn [foldl]. by apply IH, map_wf_set. Qed.

(** ** The stored settings *)

Lemma save_settings_run s e : working e →
  saveSettings (s, e) = (Ok (), (set_ls_settings (Some (TJson (JObj (settings s)))) s, e)).
Proof.
  intros [Hb Hw]. unfold saveSettings. rewrite guarded_write_run. unfold written. by rewrite Hb, Hw.
Qed.

(** An update of a section changes the values it names and no other, in that section and no
    other, and what it leaves is in storage. *)
Theorem update_section_effect name updates s e : working e → map_wf updates → ∃ s',
  update_section name updates (s, e) = (Ok (), (s', e)) ∧
  (∀ k, map_get k (section name s') = match map_get k updates with Some v => Some v | None => map_get k (section name s) end) ∧
  (∀ other, other ≠ name → map_get other (settings s') = map_get other (settings s)) ∧
  ls_settings s' = Some (TJson (JObj (settings s'))).
Proof.
  intros Hw Hu. unfold update_section. js_run. rewrite save_settings_run by done. eexists. split; [reflexivity|].
  cbn [settings set_settings set_ls_settings ls_settings]. split_and!; [|intros other Ho; by apply map_get_set_ne|done].
  intros k. unfold section. cbn [settings set_settings set_ls_settings]. rewrite map_get_set_eq. cbn [own_opt own].
  rewrite map_get_spread by done. done.
Qed.

(** *** Reading them back *)

Inductive Operation :=
  | Update (name : string) (updates : obj)
  | Reset
  | Import (t : text json).

Definition exec (o : Operation) : M () :=
  match o with
  | Update name u => update_section name u
  | Reset => resetSettings
  | Import t => importSettings t;; mret ()
  end.

(** The settings have the five sections and are what is stored, once something was. *)
Record settled (s : SettingsService) : Prop := {
  distinct_keys : map_wf (settings s);
  sections_kept : ∀ k, map_has k getDefaultSettings = true → map_has k (settings s) = true;
  stored_settings : ls_settings s = Some (TJson (JObj (settings s))) ∨
    ls_settings s = None ∧ settings s = getDefaultSettings;
}.

Lemma defaults_wf : map_wf getDefaultSettings.
Proof. apply (bool_decide_unpack _). vm_compute. exact I. Qed.

Lemma map_has_set_mono {V} k k' v (m : jsmap V) : map_has k m = true → map_has k (map_set k' v m) = true.
Proof.
  unfold map_has. destruct (decide (k' = k)) as [->|Hne]; [by rewrite map_get_set_eq|by rewrite map_get_set_ne].
Qed.

Lemma spread_keeps k a b : map_has k a = true → map_has k (spread a b) = true.
Proof. unfold spread. revert a. induction b as [|kv b IH]; intros a Ha; [done|]. cbn [foldl]. by apply IH, map_has_set_mono. Qed.

Lemma saved_settled s : map_wf (settings s) → (∀ k, map_has k getDefaultSettings = true → map_has k (settings s) = true) →
  settled (set_ls_settings (Some (TJson (JObj (settings s)))) s).
Proof. intros Hw Hk. split; [done|done|by left]. Qed.

Lemma import_run j s e : working e → let o := spread getDefaultSettings (own j) in
  importSettings (TJson j) (s, e) = (Ok true, (MkService o (Some (TJson (JObj o))), e)).
Proof.
  intros Hw. cbv zeta. unfold importSettings. erewrite run_try_Ok; [reflexivity|]. unfold JSON_parse. js_run.
  by rewrite (run_Ok _ _ _ _ _ (save_settings_run _ _ Hw)).
Qed.

Lemma exec_settled o s e : working e → settled s → ∃ s', (exec o (s, e)).2 = (s', e) ∧ settled s'.
Proof.
  intros Hw [Hwf Hk Hst]. destruct o as [name u| |t]; cbn [exec].
  - unfold update_section. js_run. rewrite save_settings_run by done. eexists. split; [reflexivity|]. apply saved_settled.
    + by apply map_wf_set.
    + intros k Hd. by apply map_has_set_mono, Hk.
  - unfold resetSettings. js_run. rewrite save_settings_run by done. eexists. split; [reflexivity|].
    by apply saved_settled; [apply defaults_wf|].
  - destruct t as [j|raw].
    + rewrite (run_Ok _ _ _ _ _ (import_run j s e Hw)). eexists. split; [reflexivity|].
      apply (saved_settled (set_settings _ s)); [apply spread_wf, defaults_wf|]. intros k Hd. by apply spread_keeps.
    + exists s. by split.
Qed.

(** After any updates, resets and imports, a new instance reads back the same settings. *)
Theorem settings_survive_reload os s e : working e → settled s →
  ∃ s', (foldl (λ w o, (exec o w).2) (s, e) os) = (s', e) ∧
    ∀ k, map_get k (settings (constructor (fresh (ls_settings s'), e)).2.1) = map_get k (settings s').
Proof.
  intros Hw. revert s. induction os as [|o os IH]; intros s Hs.
  - exists s. split; [done|]. intros k. destruct Hw as [Hb Hw]. unfold constructor, loadSettings, guarded. js_run.
    rewrite Hb. cbn [js_when]. js_run. rewrite Hb. cbn [js_when]. unfold js_try. js_run.
    destruct Hs as [Hwf Hk [Hst|[Hst Hd]]]; cbn [ls_settings fresh]; rewrite Hst; cbn [truthy_cell].
    + unfold JSON_parse. js_run.
      change (map_get k (spread getDefaultSettings (settings s)) = map_get k (settings s)). rewrite map_get_spread by done.
      destruct (map_get k (settings s)) eqn:E; [done|]. specialize (Hk k). unfold map_has in Hk. rewrite E in Hk.
      destruct (map_get k getDefaultSettings); [|done]. by specialize (Hk eq_refl).
    + js_run. cbn [settings fresh]. by rewrite Hd.
  - cbn [foldl]. destruct (exec_settled o s e Hw Hs) as (s' & -> & Hs'). by apply IH.
Qed.

(** An imported section replaces the default one as it is: what it does not name is gone. *)
Theorem import_replaces_sections l name d s e : working e → map_wf l → map_get name l = Some d → ∃ s',
  importSettings (TJson (JObj l)) (s, e) = (Ok true, (s', e)) ∧ map_get name (settings s') = Some d.
Proof.
  intros Hw Hl Hd. rewrite import_run by done. eexists. split; [reflexivity|]. cbn [settings own].
  by rewrite map_get_spread, Hd.
Qed.

(** ** Instances *)

Definition shown (t : json) (amount : num) : result string :=
  let w := (importSettings (TJson t) (fresh None, demo_env)).2 in (formatAmount amount w).1.

(** The defaults show eight decimals; an imported section that names only the unit none,
    and one that is null cannot be used. *)
Example shown_amounts :
  (formatAmount (lit 15 1) (fresh None, demo_env)).1 = Ok "1.50000000 KBC" ∧
  shown (JObj [("display", JObj [("unit", JStr "mKBC")])]) (lit 15 4) = Ok "2 mKBC" ∧
  shown (JObj [("display", JObj [])]) (lit 15 1) = Ok "2 undefined" ∧
  shown (JObj [("display", JNull)]) (lit 15 1) = Throw "Cannot destructure property of undefined".
Proof. vm_compute. done. Qed.

Lemma demo_working : working demo_env.
Proof. done. Qed.

Lemma fresh_settled : settled (fresh None).
Proof. split; [apply defaults_wf|done|by right]. Qed.

Lemma update_section_effect_witness : ∃ s',
  update_section "general" [("theme", JStr "light")] (fresh None, demo_env) = (Ok (), (s', demo_env)) ∧
  map_get "theme" (section "general" s') = Some (JStr "light") ∧ map_get "currency" (section "general" s') = Some (JStr "USD").
Proof.
  destruct (update_section_effect "general" [("theme", JStr "light")] (fresh None) demo_env demo_working) as (s' & E & H & _).
  { apply (bool_decide_unpack _). vm_compute. exact I. }
  exists s'. split; [exact E|]. rewrite !H. split; vm_compute; reflexivity.
Defined.

Lemma settings_survive_reload_witness : ∃ s',
  foldl (λ w o, (exec o w).2) (fresh None, demo_env) [Update "display" [("unit", JStr "sat")]; Import (TJson (JArr [JNull]))] = (s', demo_env) ∧
  ∀ k, map_get k (settings (constructor (fresh (ls_settings s'), demo_env)).2.1) = map_get k (settings s').
Proof. exact (settings_survive_reload _ (fresh None) demo_env demo_working fresh_settled). Defined.

Lemma import_replaces_sections_witness : ∃ s',
  importSettings (TJson (JObj [("display", JObj [])])) (fresh None, demo_env) = (Ok true, (s', demo_env)) ∧
  map_get "display" (settings s') = Some (JObj []).
Proof.
  apply (import_replaces_sections [("display", JObj [])] "display" (JObj []) (fresh None) demo_env demo_working); [|reflexivity].
  apply (bool_decide_unpack _). vm_compute. exact I.
Defined.
