(* ===== verification/WalletHealth.v ===== *)
(** * [WalletHealth] (apps/web/wallet/src/services/walletHealth.ts)

    Scores of the active wallet of [Wallet], computed from its unspent outputs and its
    history. The length of a wallet's JSON text is a parameter. Addresses are counted in an
    object: an input without an address counts for the key 'undefined'. *)

From Stdlib Require Import String.
From S2P Require Import Prelude JsMap JsNumber JsString Counting Wallet JsDate.

Record Metrics := MkMetrics {
  utxoCount : Z;
  utxoScore : num;
  dustAmount : num;
  dustScore : num;
  averageFee : num;
  feeEfficiencyScore : num;
  addressReuse : Z;
  privacyScore : num;
  walletAge : Z;
  transactionCount : Z;
  totalFeesPaid : num;
  walletSize : Z;
}.

Record HealthScore := MkHealth { score : num; rating : string; summary : string; metrics : Metrics }.

Definition getEmptyHealthScore : HealthScore :=
  MkHealth nzero "N/A" "No wallet data available"
    (MkMetrics 0 nzero nzero nzero nzero nzero 0 nzero 0 0 nzero 0).

(** ** Scores *)

Definition calculateUTXOScore (count : Z) : Z :=
  if (5 <=? count) && (count <=? 20) then 100
  else if count <? 5 then Z.max 50 (count * 20)
  else if count <=? 50 then 100 - (count - 20) * 2
  else if count <=? 100 then 50 - (count - 50) * 1
  else Z.max 0 (50 - (count - 100)).

Definition dustThreshold : num := lit 1 4.
Definition is_dust (u : UTXO) : bool := SFltb (u_amount u) dustThreshold.

Definition count_of {A} (l : list A) : Z := Z.of_nat (length l).

Definition calculateDustScore (utxos : list UTXO) : num :=
  let dustPercentage := nmul (ndiv (of_Z (count_of (js_filter is_dust utxos))) (of_Z (count_of utxos))) (of_Z 100) in
  nmax nzero (nsub (of_Z 100) (nmul dustPercentage (of_Z 2))).

Definition calculateDustAmount (utxos : list UTXO) : num := sum_by u_amount (js_filter is_dust utxos).

(** [tx.fee || 0] *)
Definition fee_or_0 (tx : WalletTransactionRecord) : num := num_or (rec_fee tx) nzero.

Definition calculateAverageFee (txs : list WalletTransactionRecord) : num :=
  if count_of txs =? 0 then nzero else ndiv (sum_by fee_or_0 txs) (of_Z (count_of txs)).

Definition calculateFeeEfficiencyScore (txs : list WalletTransactionRecord) : num :=
  if count_of txs =? 0 then of_Z 100
  else
    let avgFee := ndiv (sum_by fee_or_0 txs) (of_Z (count_of txs)) in
    let idealFee := lit 1 5 in
    let efficiency := ndiv idealFee (if truthy_num avgFee then avgFee else idealFee) in
    nmin (of_Z 100) (nmul efficiency (of_Z 100)).

(** The addresses that a transaction's inputs and outputs name, in the order they are
    counted. *)
Definition named (tx : WalletTransactionRecord) : list string :=
  (default "undefined" ∘ fst <$> default [] (rec_inputs tx)) ++ (default "undefined" ∘ fst <$> default [] (rec_outputs tx)).

(** [counts[address] = (counts[address] || 0) + 1] *)
Definition count_address (m : jsmap Z) (a : string) : jsmap Z := map_set a (default 0 (map_get a m) + 1) m.
Definition addressCounts (txs : list WalletTransactionRecord) : jsmap Z := foldl count_address [] (txs ≫= named).

Definition reused (txs : list WalletTransactionRecord) : list (string * Z) :=
  js_filter (λ kv, 1 <? kv.2) (object_order (addressCounts txs)).

Definition countAddressReuse (txs : list WalletTransactionRecord) : Z := count_of (reused txs).

Definition calculatePrivacyScore (txs : list WalletTransactionRecord) : Z := Z.max 0 (100 - countAddressReuse txs * 10).

Definition calculateTotalFees (txs : list WalletTransactionRecord) : num := sum_by fee_or_0 txs.

Definition overall (utxoS dustS feeS privacyS : num) : num :=
  nround (nadd (nadd (nadd (nmul utxoS (lit 3 1)) (nmul dustS (lit 2 1))) (nmul feeS (lit 3 1))) (nmul privacyS (lit 2 1))).

Definition rate (s : num) : string :=
  if SFleb (of_Z 80) s then "Excellent"
  else if SFleb (of_Z 60) s then "Good"
  else if SFleb (of_Z 40) s then "Fair"
  else "Poor".

Definition generateSummary (s : num) : string :=
  if SFleb (of_Z 80) s then "Your wallet is in excellent condition! Keep up the good maintenance practices."
  else if SFleb (of_Z 60) s then "Your wallet is in good shape, but there are some optimizations you can make."
  else if SFleb (of_Z 40) s then "Your wallet needs attention. Consider optimizing UTXOs and consolidating dust."
  else "Your wallet requires immediate maintenance to improve efficiency and reduce fees.".

Section Service.
Context (api : Api) (json_length : WalletInfo → Z).

(** [Math.floor((now - created) / (1000 * 60 * 60 * 24))] *)
Definition calculateWalletAge (w : WalletInfo) : M Z :=
  created ← (if createdAt w =? 0 then date_now else mret (createdAt w));
  now ← date_now;
  mret ((now - created) / msPerDay).

Definition estimateWalletSize (w : WalletInfo) (txs : list WalletTransactionRecord) : Z :=
  json_length w + count_of txs * 250.

Definition getUTXOs : M (list UTXO) :=
  w ← getActiveWallet;
  match w with None => mret [] | Some w => getUtxos api (address w) 0 end.

(** The score of a wallet from what the node reports. *)
Definition health (w : WalletInfo) (utxos : list UTXO) (txs : list WalletTransactionRecord) (age : Z) : HealthScore :=
  let us := of_Z (calculateUTXOScore (count_of utxos)) in
  let ds := calculateDustScore utxos in
  let fs := calculateFeeEfficiencyScore txs in
  let ps := of_Z (calculatePrivacyScore txs) in
  let s := overall us ds fs ps in
  MkHealth s (rate s) (generateSummary s)
    (MkMetrics (count_of utxos) us (calculateDustAmount utxos) ds (calculateAverageFee txs) fs (countAddressReuse txs) ps
      age (count_of txs) (calculateTotalFees txs) (estimateWalletSize w txs)).

Definition calculateHealthScore : M HealthScore :=
  js_try (
    w ← getActiveWallet;
    match w with
    | None => mret getEmptyHealthScore
    | Some w =>
        utxos ← getUTXOs;
        txs ← getTransactionHistory api (address w) 50;
        age ← calculateWalletAge w;
        mret (health w utxos txs age)
    end)
  (λ _, mret getEmptyHealthScore).

Inductive Priority := high | medium | low.
Record OptimizationSuggestion := MkSuggestion {
  title : string;
  description : string;
  priority : Priority;
  impact : string;
  estimatedSavings : option num;
}.

Definition when {A} (c : bool) (x : A) : list A := if c then [x] else [].

(** The suggestions for a score. *)
Definition suggestions_for (m : Metrics) : list OptimizationSuggestion :=
  when (50 <? utxoCount m) (MkSuggestion "High UTXO Count"
    ("You have " +:+ pretty (utxoCount m) +:+ " UTXOs. Consolidating them will reduce future transaction fees.")
    high "Reduces transaction size and fees by up to 50%" (Some (nmul (of_Z (utxoCount m)) (lit 1 5))))
  ++ when (SFltb (lit 1 3) (dustAmount m)) (MkSuggestion "Dust Consolidation Needed"
    ("You have " +:+ to_fixed 6 (dustAmount m) +:+ " KC in dust. Consolidate to improve efficiency.")
    medium "Recovers unusable small amounts" (Some (nmul (dustAmount m) (lit 8 1))))
  ++ when (SFltb (feeEfficiencyScore m) (of_Z 60)) (MkSuggestion "High Transaction Fees"
    ("Your average fee (" +:+ to_fixed 6 (averageFee m) +:+ " KC) is higher than optimal.")
    medium "Can reduce fees by up to 30%" None)
  ++ when (0 <? addressReuse m) (MkSuggestion "Address Reuse Detected"
    (pretty (addressReuse m) +:+ " addresses have been reused, reducing privacy.")
    low "Improves transaction privacy" None)
  ++ when (1024 * 100 <? walletSize m) (MkSuggestion "Large Wallet Size"
    ("Your wallet is " +:+ to_fixed 2 (ndiv (of_Z (walletSize m)) (of_Z 1024)) +:+ " KB. Consider archiving old transactions.")
    low "Improves wallet loading speed" None).

Definition getOptimizationSuggestions : M (list OptimizationSuggestion) :=
  s ← calculateHealthScore; mret (suggestions_for (metrics s)).

(** The addresses reused and their number; unlike the score, a failing node is an error. *)
Definition checkAddressReuse : M (list string * Z) :=
  w ← getActiveWallet;
  match w with
  | None => mret ([], 0)
  | Some w => txs ← getTransactionHistory api (address w) 50; mret ((reused txs).*1, count_of (reused txs))
  end.

Record Report := MkAnalytics {
  r_timestamp : string;
  r_health : HealthScore;
  r_suggestions : Z;
  criticalIssues : Z;
  estimatedTotalSavings : string;
}.

Definition is_high (s : OptimizationSuggestion) : bool := match priority s with high => true | _ => false end.

Definition generateAnalyticsReport : M Report :=
  s ← calculateHealthScore;
  l ← getOptimizationSuggestions;
  t ← date_now;
  mret (MkAnalytics (toISOString t) s (count_of l) (count_of (js_filter is_high l))
    (to_fixed 6 (sum_by (λ x, num_or (estimatedSavings x) nzero) l))).
End Service.

(** * Theorems *)

(** ** Scores *)

(** The score of the number of unspent outputs is between 0 and 100, and it is 100 from 5 to
    20. Up to 50 and from 51 to 100 more outputs never score higher, but 51 outputs score
    more than 50 do, and 101 more than 100. *)
Theorem utxo_score_shape a : 0 <= a →
  0 <= calculateUTXOScore a <= 100 ∧ (calculateUTXOScore a = 100 ↔ 5 <= a <= 20) ∧
  (∀ b, 20 <= a <= b → b <= 50 ∨ 50 < a ∧ b <= 100 ∨ 100 < a → calculateUTXOScore b <= calculateUTXOScore a) ∧
  calculateUTXOScore 50 < calculateUTXOScore 51 ∧ calculateUTXOScore 100 < calculateUTXOScore 101.
Proof.
  intros Ha. assert (calculateUTXOScore 50 < calculateUTXOScore 51 ∧ calculateUTXOScore 100 < calculateUTXOScore 101) as H0 by done.
  split; [|split]; [| |split; [|exact H0]]; clear H0; unfold calculateUTXOScore.
  - repeat case_match; lia.
  - repeat case_match; lia.
  - intros b Hab H. repeat case_match; lia.
Qed.

(** The number of addresses that are reused is the number of distinct names that occur more
    than once among the inputs and outputs of the history. *)
Lemma address_reuse_count txs :
  countAddressReuse txs = count_of (js_filter (λ n, 1 <? occurs n (txs ≫= named)) (set_of (txs ≫= named))).
Proof.
  unfold countAddressReuse, reused, count_of, addressCounts. change count_address with count_one. rewrite count_all.
  f_equal. set (l := txs ≫= named).
  transitivity (length (js_filter (λ kv : string * Z, 1 <? kv.2) (tabulate (λ n, occurs n l) (set_of l)))).
  - by rewrite object_order_perm.
  - unfold tabulate. rewrite (js_filter_fmap _ _ (λ n, 1 <? occurs n l)) by done. by rewrite length_fmap.
Qed.

(** *** Inputs without an address

    The history of [Wallet] leaves the address of an input out. *)

Definition input_count (txs : list WalletTransactionRecord) : nat := length (txs ≫= λ tx, default [] (rec_inputs tx)).

Lemma occurs_app n l k : occurs n (l ++ k) = occurs n l + occurs n k.
Proof. unfold occurs, js_filter. rewrite List.filter_app, length_app. lia. Qed.

Lemma occurs_undefined (l : list (option string * option num)) : Forall (λ i, i.1 = None) l →
  occurs "undefined" (default "undefined" ∘ fst <$> l) = Z.of_nat (length l).
Proof.
  induction 1 as [|[o v] l Ho _ IH]; [done|]. cbn in Ho. subst o. unfold occurs, js_filter in *. csimpl.
  cbn [List.filter str_eqb]. change (str_eqb "undefined" "undefined") with true. cbn. lia.
Qed.

Lemma undefined_occurs txs : Forall (λ tx, Forall (λ i, i.1 = None) (default [] (rec_inputs tx))) txs →
  Z.of_nat (input_count txs) <= occurs "undefined" (txs ≫= named).
Proof.
  unfold input_count. induction 1 as [|tx txs Htx _ IH]; [done|]. csimpl. rewrite length_app, occurs_app. unfold named at 1.
  rewrite occurs_app, occurs_undefined by done. unfold occurs in *. lia.
Qed.

(** In a history whose inputs have no address, two inputs are a reused address and cost
    privacy score, whatever the addresses were. *)
Theorem inputs_count_as_reuse txs : Forall (λ tx, Forall (λ i, i.1 = None) (default [] (rec_inputs tx))) txs →
  (2 <= input_count txs)%nat → 1 <= countAddressReuse txs ∧ calculatePrivacyScore txs <= 90.
Proof.
  intros Htxs Hn. pose proof (undefined_occurs txs Htxs) as Ho.
  assert (1 <= countAddressReuse txs) as H; [|unfold calculatePrivacyScore; lia].
  rewrite address_reuse_count. set (l := txs ≫= named) in *.
  assert ("undefined" ∈ js_filter (λ n, 1 <? occurs n l) (set_of l)) as Hin.
  { apply elem_of_js_filter. split; [|lia]. apply elem_of_set_of. destruct (decide ("undefined" ∈ l)) as [|Hl]; [done|].
    rewrite (occurs_absent _ _ Hl) in Ho. lia. }
  unfold count_of. destruct (js_filter _ _); [by apply elem_of_nil in Hin|]. cbn. lia.
Qed.

(** ** A wallet without unspent outputs *)

(** Its dust score divides by zero: the score is NaN and the wallet is rated 'Poor'. *)
Theorem empty_wallet_scores_nan json_length w txs age :
  is_nan (score (health json_length w [] txs age)) = true ∧ rating (health json_length w [] txs age) = "Poor".
Proof.
  unfold health. cbn [score rating]. unfold overall. replace (calculateDustScore []) with S754_nan by by vm_compute.
  assert (∀ x, nadd x S754_nan = S754_nan) as Hl by (by intros []).
  assert (∀ y, nadd S754_nan y = S754_nan) as Hr by (by intros []).
  change (nmul S754_nan (lit 2 1)) with S754_nan. rewrite Hl, !Hr. done.
Qed.

(** ** Instances *)

Lemma utxo_score_shape_witness : 0 <= calculateUTXOScore 3 <= 100 ∧ (calculateUTXOScore 3 = 100 ↔ 5 <= 3 <= 20).
Proof. destruct (utxo_score_shape 3 ltac:(lia)) as (H1 & H2 & _). split; [exact H1|exact H2]. Defined.

Definition demo_record (i o : string) : WalletTransactionRecord :=
  MkRecord i None (of_Z 1) 1 None sent None (Some [(None, None)]) (Some [(Some o, None)]).

Lemma inputs_count_as_reuse_witness : calculatePrivacyScore [demo_record "t1" "a"; demo_record "t2" "b"] <= 90.
Proof. apply inputs_count_as_reuse; [by repeat constructor|by vm_compute; lia]. Defined.

(** Without a wallet, or when the node fails, high fees are reported. *)
Example no_wallet_has_high_fees : title <$> suggestions_for (metrics getEmptyHealthScore) = ["High Transaction Fees"].
Proof. vm_compute. reflexivity. Qed.
