(* ===== verification/NlpParser.v ===== *)
(** * [NLPParser] (apps/web/wallet/src/services/nlpParser.ts)

    The command parser of the assistant: intents by keyword, the entities of a payment,
    the scanner for numbers, addresses and names, and the similarity of two strings by a
    table of edit distances.  The object has no state. *)

From Stdlib Require Import String Ascii.
From stdpp Require Import strings relations.
From S2P Require Import Prelude JsNumber FloatFacts JsString.

(** ** Commands *)

Inductive Intent := send | check_balance | transaction_history | price | help | unknown.

(** [entities]: the fields a command may carry. *)
Record Entities := MkEntities {
  amount : option num;
  currency : option string;
  recipient : option string;
  timeframe : option string;
}.
Definition no_entities : Entities := MkEntities None None None None.

Record ParsedCommand := MkCommand { intent : Intent; entities : Entities; confidence : num }.

Definition matchesPattern (input : string) (keywords : list string) : bool :=
  js_some (λ keyword, includes keyword input) keywords.

(** [\d+(?:\.\d+)?] at the head of [s]: the match and the rest. *)
Definition number_at (s : string) : option (string * string) :=
  let '(ip, r) := span is_digit s in
  if str_eqb ip "" then None
  else match r with
       | String "." t => let '(fp, r') := span is_digit t in
                         if str_eqb fp "" then Some (ip, r) else Some (ip +:+ "." +:+ fp, r')
       | _ => Some (ip, r)
       end.

(** The leftmost place of [s] where [m] matches. *)
Fixpoint leftmost {A} (m : string → option A) (s : string) : option A :=
  match m s with
  | Some a => Some a
  | None => match s with String _ s' => leftmost m s' | EmptyString => None end
  end.

(** [(kc|kubercoin)?] with the flag [i]: the first alternative that matches, as written. *)
Definition currency_at (s : string) : option string :=
  let l := toLowerCase s in
  if startsWith "kc" l then Some (String.substring 0 2 s)
  else if startsWith "kubercoin" l then Some (String.substring 0 9 s)
  else None.

(** [(\d+(?:\.\d+)?)\s*(kc|kubercoin)?] *)
Definition amount_at (s : string) : option (string * option string) :=
  '(n, r) ← number_at s; Some (n, currency_at (trimStart r)).

Definition is_alnum (c : ascii) : bool := is_lower c || is_upper c || is_digit c.

(** [to\s+([a-z0-9]+)] with the flag [i] *)
Definition recipient_at (s : string) : option string :=
  if startsWith "to" (toLowerCase s) then
    match String.substring 2 (String.length s - 2) s with
    | String c r =>
        if is_space c then
          let word := (span is_alnum (trimStart r)).1 in
          if str_eqb word "" then None else Some word
        else None
    | EmptyString => None
    end
  else None.

Definition upper_char (c : ascii) : ascii :=
  if is_lower c then ascii_of_nat (nat_of_ascii c - 32) else c.
Definition toUpperCase : string → string := str_map upper_char.

Definition extractSendEntities (input : string) : Entities :=
  let amountMatch := leftmost amount_at input in
  MkEntities
    ((λ m, parseFloat m.1) <$> amountMatch)
    ((λ m, match m.2 with Some c => toUpperCase c | None => "KC" end) <$> amountMatch)
    (leftmost recipient_at input)
    None.

Definition extractTimeframe (input : string) : string :=
  if includes "today" input then "today"
  else if includes "yesterday" input then "yesterday"
  else if includes "week" input then "week"
  else if includes "month" input then "month"
  else if includes "year" input then "year"
  else "all".

Definition parse (input : string) : ParsedCommand :=
  let lower := trim (toLowerCase input) in
  if matchesPattern lower ["send"; "transfer"; "pay"] then
    MkCommand send (extractSendEntities lower) (lit 85 2)
  else if matchesPattern lower ["balance"; "how much"; "wallet"] then
    MkCommand check_balance no_entities (lit 90 2)
  else if matchesPattern lower ["transaction"; "history"; "recent"; "activity"] then
    MkCommand transaction_history (MkEntities None None None (Some (extractTimeframe lower))) (lit 85 2)
  else if matchesPattern lower ["price"; "market"; "value"; "worth"] then
    MkCommand price no_entities (lit 88 2)
  else if matchesPattern lower ["help"; "what can"; "how to"] then
    MkCommand help no_entities (lit 95 2)
  else MkCommand unknown no_entities nzero.

(** ** Tokens and entities *)

(** [\w] *)
Definition is_word (c : ascii) : bool := is_alnum c || (char_code c =? 95).

(** [s.replace(/[^\w\s]/g, '')] *)
Fixpoint keep (p : ascii → bool) (s : string) : string :=
  match s with
  | String c s' => if p c then String c (keep p s') else keep p s'
  | EmptyString => EmptyString
  end.

(** [s.split(/\s+/)]; [run] says that the character before [s] was a space. *)
Fixpoint split_spaces (run : bool) (s : string) : list string :=
  match s with
  | EmptyString => [""]
  | String c s' =>
      if is_space c then (if run then split_spaces true s' else "" :: split_spaces true s')
      else match split_spaces false s' with
           | w :: ws => String c w :: ws
           | [] => [String c ""]
           end
  end.

Definition tokenize (input : string) : list string :=
  js_filter (λ token, (0 <? String.length token)%nat)
    (split_spaces false (keep (λ c, is_word c || is_space c) (toLowerCase input))).

Inductive EntityType := NUMBER | ADDRESS | NAME.
Record Entity := MkEntity { type : EntityType; value : string; position : nat }.

(** The loop over [regex.exec(input)] of a global expression. [m prev s] is the match at the
    head of [s], [prev] the character before it; [skip] characters remain of the last match. *)
Fixpoint exec_all (m : option ascii → string → option string) (t : EntityType)
    (skip : nat) (prev : option ascii) (pos : nat) (s : string) : list Entity :=
  match s with
  | EmptyString => []
  | String c s' =>
      match skip with
      | S k => exec_all m t k (Some c) (S pos) s'
      | O => match m prev s with
             | Some v => MkEntity t v pos :: exec_all m t (String.length v - 1) (Some c) (S pos) s'
             | None => exec_all m t 0 (Some c) (S pos) s'
             end
      end
  end.

(** [\d+(?:\.\d+)?] *)
Definition number_match (_ : option ascii) (s : string) : option string := fst <$> number_at s.

(** [KC1[a-zA-Z0-9]{38}] *)
Definition address_match (_ : option ascii) (s : string) : option string :=
  let v := String.substring 0 41 s in
  if startsWith "KC1" s && (String.length v =? 41)%nat && str_all is_alnum (String.substring 3 38 s)
  then Some v else None.

(** [\b[A-Z][a-z]+\b] *)
Definition name_match (prev : option ascii) (s : string) : option string :=
  match s with
  | String c r =>
      let '(w, rest) := span is_lower r in
      if negb (match prev with Some p => is_word p | None => false end) && is_upper c &&
         negb (str_eqb w "") && negb (match rest with String d _ => is_word d | EmptyString => false end)
      then Some (String c w) else None
  | EmptyString => None
  end.

Definition extractEntities (input : string) : list Entity :=
  (exec_all number_match NUMBER 0 None 0 input ++
   exec_all address_match ADDRESS 0 None 0 input ++
   exec_all name_match NAME 0 None 0 input)%list.

(** ** The table of edit distances *)

(** A number of the table; [None] is [undefined], or the NaN computed from it. *)
Notation entry := (option Z).
Notation matrix := (list (list entry)).

(** [row[j] = v]: a JavaScript array grows when it is assigned past its end. *)
Definition set_index (j : nat) (v : entry) (row : list entry) : list entry :=
  if (j <? length row)%nat then <[j := v]> row
  else (row ++ replicate (j - length row) None ++ [v])%list.

(** [m[i][j]]; a missing row throws, a missing entry is [undefined]. *)
Definition get (m : matrix) (i j : nat) : option entry :=
  row ← m !! i; Some (mjoin (row !! j)).
Definition set (m : matrix) (i j : nat) (v : entry) : option matrix :=
  row ← m !! i; Some (<[i := set_index j v row]> m).

Fixpoint for_range {A} (lo n : nat) (body : nat → A → option A) (a : A) : option A :=
  match n with
  | O => Some a
  | S n' => a' ← body lo a; for_range (S lo) n' body a'
  end.

Definition add1 : entry → entry := fmap (λ x, x + 1).
Definition math_min (x y : entry) : entry := a ← x; b ← y; Some (Z.min a b).

Definition fill_cell (str1 str2 : list ascii) (i j : nat) (m : matrix) : option matrix :=
  if bool_decide (str1 !! (i - 1)%nat = str2 !! (j - 1)%nat) then
    d ← get m (i - 1) (j - 1); set m i j d
  else
    d ← get m (i - 1) (j - 1);
    l ← get m i (j - 1);
    u ← get m (i - 1) j;
    set m i j (math_min (add1 d) (math_min (add1 l) (add1 u))).

Definition fill (str1 str2 : list ascii) : option matrix :=
  let len1 := length str1 in
  let len2 := length str2 in
  let m0 := (λ i, [Some (Z.of_nat i)]) <$> seq 0 (S len1) in
  m1 ← for_range 0 (S len2) (λ j m, set m 0 j (Some (Z.of_nat j))) m0;
  for_range 1 len1 (λ i m, for_range 1 len2 (fill_cell str1 str2 i) m) m1.

Definition distance (str1 str2 : list ascii) : option entry :=
  m ← fill str1 str2; get m (length str1) (length str2).

(** [None] is a [TypeError]. *)
Definition calculateSimilarity (str1 str2 : string) : option num :=
  d ← distance (list_ascii_of_string str1) (list_ascii_of_string str2);
  let maxLen := Z.max (Z.of_nat (String.length str1)) (Z.of_nat (String.length str2)) in
  Some (nsub (of_Z 1) (match d with Some z => ndiv (of_Z z) (of_Z maxLen) | None => S754_nan end)).

Example sim1 : calculateSimilarity "kitten" "sitting" = Some (nsub (of_Z 1) (ndiv (of_Z 3) (of_Z 7))).
Proof. vm_compute. reflexivity. Qed.
Example parse1 : parse "Send 5.5 KC to Bob" = MkCommand send (MkEntities (Some (lit 55 1)) (Some "KC") (Some "bob") None) (lit 85 2).
Proof. vm_compute. reflexivity. Qed.
Example tok1 : tokenize "  Send 5.5, KC to_x" = ["send"; "55"; "kc"; "to_x"].
Proof. vm_compute. reflexivity. Qed.
Example ent1 : extractEntities "Pay 12.5 to Bob or3" = [MkEntity NUMBER "12.5" 4; MkEntity NUMBER "3" 18; MkEntity NAME "Pay" 0; MkEntity NAME "Bob" 12].
Proof. vm_compute. reflexivity. Qed.

(** * Theorems *)

(** ** Edits of a string *)

(** One character inserted, deleted or replaced, somewhere. *)
Inductive edit1 : list ascii → list ascii → Prop :=
  | edit_insert c s : edit1 s (c :: s)
  | edit_delete c s : edit1 (c :: s) s
  | edit_replace c d s : edit1 (c :: s) (d :: s)
  | edit_later a s t : edit1 s t → edit1 (a :: s) (a :: t).

(** An alignment of two strings and its cost. *)
Inductive aligned : list ascii → list ascii → nat → Prop :=
  | al_nil : aligned [] [] 0
  | al_keep a s t n : aligned s t n → aligned (a :: s) (a :: t) n
  | al_replace a b s t n : aligned s t n → aligned (a :: s) (b :: t) (S n)
  | al_insert b s t n : aligned s t n → aligned s (b :: t) (S n)
  | al_delete a s t n : aligned s t n → aligned (a :: s) t (S n).

Create HintDb edits.
#[local] Hint Constructors edit1 aligned : edits.

(** The recurrence of the table, from the heads of the strings. *)
Fixpoint lev (s : list ascii) : list ascii → nat :=
  fix lev_s (t : list ascii) : nat :=
    match s, t with
    | [], _ => length t
    | _, [] => length s
    | a :: s', b :: t' =>
        if bool_decide (a = b) then lev s' t'
        else S (lev s' t' `min` (lev_s t' `min` lev s' t))
    end.

Lemma lev_nil_l t : lev [] t = length t.
Proof. by destruct t. Qed.
Lemma lev_nil_r s : lev s [] = length s.
Proof. by destruct s. Qed.
Lemma lev_cons a s b t : lev (a :: s) (b :: t) =
  if bool_decide (a = b) then lev s t else S (lev s t `min` (lev (a :: s) t `min` lev s (b :: t))).
Proof. reflexivity. Qed.

(** Neighbouring entries of the table differ by at most one. *)
Lemma lev_neighbours s t :
  (∀ a, (lev (a :: s) t <= S (lev s t))%nat ∧ (lev s t <= S (lev (a :: s) t))%nat) ∧
  (∀ b, (lev s (b :: t) <= S (lev s t))%nat ∧ (lev s t <= S (lev s (b :: t)))%nat).
Proof.
  remember (length s + length t)%nat as n eqn:En. revert s t En.
  induction n as [n IH] using lt_wf_ind. intros s t ->. split; intros c.
  - destruct t as [|b t]; [rewrite !lev_nil_r; cbn; lia|].
    destruct (IH (length s + length t)%nat ltac:(cbn; lia) s t eq_refl) as [Ha Hb].
    destruct (Hb b), (Ha c). rewrite lev_cons. case_bool_decide; lia.
  - destruct s as [|a s]; [rewrite !lev_nil_l; cbn; lia|].
    destruct (IH (length s + length t)%nat ltac:(cbn; lia) s t eq_refl) as [Ha Hb].
    destruct (Ha a), (Hb c). rewrite lev_cons. case_bool_decide; lia.
Qed.

Lemma lev_aligned s t : aligned s t (lev s t).
Proof.
  revert t. induction s as [|a s IH]; intros t.
  - rewrite lev_nil_l. induction t; cbn; eauto with edits.
  - induction t as [|b t IHt].
    { rewrite lev_nil_r. specialize (IH []). rewrite lev_nil_r in IH. cbn; eauto with edits. }
    rewrite lev_cons. case_bool_decide as E; [subst; eauto with edits|].
    destruct (Nat.min_spec (lev s t) (lev (a :: s) t `min` lev s (b :: t))) as [[_ ->]|[_ ->]];
      [eauto with edits|].
    destruct (Nat.min_spec (lev (a :: s) t) (lev s (b :: t))) as [[_ ->]|[_ ->]]; eauto with edits.
Qed.

Lemma lev_least s t n : aligned s t n → (lev s t <= n)%nat.
Proof.
  induction 1 as [|a s t n _ IH|a b s t n _ IH|b s t n _ IH|a s t n _ IH]; [done|..].
  - rewrite lev_cons, bool_decide_eq_true_2 by done. lia.
  - rewrite lev_cons. case_bool_decide; lia.
  - destruct (lev_neighbours s t) as [_ H]. specialize (H b). lia.
  - destruct (lev_neighbours s t) as [H _]. specialize (H a). lia.
Qed.

Lemma nsteps_later n a s t : nsteps edit1 n s t → nsteps edit1 n (a :: s) (a :: t).
Proof. induction 1 as [|n s u t Hs _ IH]; [constructor|]. eapply nsteps_l; [by apply edit_later|done]. Qed.

Lemma aligned_steps s t n : aligned s t n → nsteps edit1 n s t.
Proof.
  induction 1 as [|a s t n _ IH|a b s t n _ IH|b s t n _ IH|a s t n _ IH].
  - constructor.
  - by apply nsteps_later.
  - eapply nsteps_l; [apply (edit_replace a b s)|by apply nsteps_later].
  - eapply nsteps_l; [apply (edit_insert b s)|by apply nsteps_later].
  - eapply nsteps_l; [apply (edit_delete a s)|done].
Qed.

(** A cost of at most [k]. *)
Definition reaches (s t : list ascii) (k : nat) : Prop := ∃ k', (k' <= k)%nat ∧ aligned s t k'.

Lemma aligned_reaches s t n k : aligned s t n → (n <= k)%nat → reaches s t k.
Proof. intros H ?. by exists n. Qed.
Lemma reaches_keep a s t k : reaches s t k → reaches (a :: s) (a :: t) k.
Proof. intros (k' & ? & ?). exists k'. split; [lia|by constructor]. Qed.
Lemma reaches_replace a b s t k : reaches s t k → reaches (a :: s) (b :: t) (S k).
Proof. intros (k' & ? & ?). exists (S k'). split; [lia|by constructor]. Qed.
Lemma reaches_insert b s t k : reaches s t k → reaches s (b :: t) (S k).
Proof. intros (k' & ? & ?). exists (S k'). split; [lia|by constructor]. Qed.
Lemma reaches_delete a s t k : reaches s t k → reaches (a :: s) t (S k).
Proof. intros (k' & ? & ?). exists (S k'). split; [lia|by constructor]. Qed.
#[local] Hint Resolve reaches_keep reaches_replace reaches_insert reaches_delete : edits.
#[local] Hint Extern 4 (reaches _ _ _) => eapply aligned_reaches; [by eauto with edits|lia] : edits.

(** One more edit in front costs one more. *)
Lemma edit_then_aligned s s' t k : edit1 s s' → aligned s' t k → reaches s t (S k).
Proof.
  intros He Ha. revert s He.
  induction Ha as [|a s' t n Ha IH|a b s' t n Ha IH|b s' t n Ha IH|a s' t n Ha IH]; intros s He;
    inversion He; subst; eauto with edits.
Qed.

Lemma steps_reach n s t : nsteps edit1 n s t → reaches s t n.
Proof.
  induction 1 as [s|n s u t Hs _ (k & Hk & Ha)].
  - exists 0%nat. split; [lia|]. induction s; by constructor.
  - destruct (edit_then_aligned s u t k Hs Ha) as (k' & ? & ?). exists k'. split; [lia|done].
Qed.

(** [lev] is the least number of edits. *)
Lemma lev_minimal s t : nsteps edit1 (lev s t) s t ∧ ∀ n, nsteps edit1 n s t → (lev s t <= n)%nat.
Proof.
  split; [apply aligned_steps, lev_aligned|].
  intros n H. apply steps_reach in H as (k & ? & Ha). apply lev_least in Ha. lia.
Qed.

(** Reversal keeps the number of edits. *)
Lemma edit_app_r s t u : edit1 s t → edit1 (s ++ u)%list (t ++ u)%list.
Proof. induction 1; cbn; by constructor. Qed.
Lemma edit_app_l p s t : edit1 s t → edit1 (p ++ s)%list (p ++ t)%list.
Proof. intros. induction p; cbn; [done|by constructor]. Qed.
Lemma edit_rev s t : edit1 s t → edit1 (rev s) (rev t).
Proof.
  induction 1 as [c s|c s|c d s|a s t _ IH]; cbn.
  - rewrite <-(app_nil_r (rev s)) at 1. apply edit_app_l. constructor.
  - rewrite <-(app_nil_r (rev s)) at 2. apply edit_app_l. constructor.
  - apply edit_app_l. constructor.
  - by apply edit_app_r.
Qed.
Lemma steps_rev n s t : nsteps edit1 n s t → nsteps edit1 n (rev s) (rev t).
Proof. induction 1 as [|n s u t Hs _ IH]; [constructor|]. eapply nsteps_l; [by apply edit_rev|done]. Qed.

(** ** The loops fill the table *)

Lemma set_index_grow v (row : list entry) : set_index (length row) v row = (row ++ [v])%list.
Proof. unfold set_index. by rewrite Nat.ltb_irrefl, Nat.sub_diag. Qed.

Lemma for_range_inv {A} (P : nat → A → Prop) body n lo a :
  P lo a → (∀ i a, (lo <= i < lo + n)%nat → P i a → ∃ a', body i a = Some a' ∧ P (S i) a') →
  ∃ a', for_range lo n body a = Some a' ∧ P (lo + n)%nat a'.
Proof.
  revert lo a. induction n as [|n IH]; intros lo a Ha Hstep.
  - exists a. by rewrite Nat.add_0_r.
  - destruct (Hstep lo a ltac:(lia) Ha) as (a1 & E & H1). cbn [for_range]. rewrite E.
    destruct (IH (S lo) a1 H1) as (a' & E' & H').
    + intros i b Hi. apply Hstep. lia.
    + exists a'. split; [exact E'|]. by replace (lo + S n)%nat with (S lo + n)%nat by lia.
Qed.

Section Table.
Context (str1 str2 : list ascii).

(** The entry for the prefixes of lengths [i] and [j]. *)
Definition D (i j : nat) : nat := lev (rev (take i str1)) (rev (take j str2)).

Definition filled (i w : nat) : list entry := (λ j, Some (Z.of_nat (D i j))) <$> seq 0 w.
(** The table whose row [i] has its first [w i] entries. *)
Definition table (w : nat → nat) : matrix := (λ i, filled i (w i)) <$> seq 0 (S (length str1)).

#[local] Arguments table : simpl never.
#[local] Arguments filled : simpl never.

Lemma table_ext w w' : (∀ i, (i <= length str1)%nat → w i = w' i) → table w = table w'.
Proof.
  intros H. apply list_fmap_ext. intros k i Hi. apply lookup_seq in Hi as [-> ?].
  rewrite H by lia. done.
Qed.

Lemma table_lookup w i : (i <= length str1)%nat → table w !! i = Some (filled i (w i)).
Proof. intros. unfold table. by rewrite list_lookup_fmap, lookup_seq_lt by lia. Qed.

Lemma filled_length i w : length (filled i w) = w.
Proof. unfold filled. by rewrite length_fmap, length_seq. Qed.

Lemma filled_S i w : filled i (S w) = (filled i w ++ [Some (Z.of_nat (D i w))])%list.
Proof. unfold filled. by rewrite seq_S, fmap_app. Qed.

Lemma get_table w i j : (i <= length str1)%nat → (j < w i)%nat →
  get (table w) i j = Some (Some (Z.of_nat (D i j))).
Proof.
  intros Hi Hj. unfold get. rewrite table_lookup by done. cbn. unfold filled.
  by rewrite list_lookup_fmap, lookup_seq_lt.
Qed.

Lemma set_table w i j : (i <= length str1)%nat → w i = j →
  set (table w) i j (Some (Z.of_nat (D i j))) = Some (table (λ k, if bool_decide (k = i) then S j else w k)).
Proof.
  intros Hi Hw. unfold set. rewrite table_lookup by done. cbn. f_equal.
  assert (set_index j (Some (Z.of_nat (D i j))) (filled i (w i)) = filled i (S j)) as ->.
  { rewrite Hw, filled_S, <-set_index_grow. by rewrite filled_length. }
  apply list_eq. intros k. destruct (decide (i = k)) as [<-|Hk].
  - rewrite list_lookup_insert_eq by (unfold table; rewrite length_fmap, length_seq; lia).
    rewrite table_lookup by done. by rewrite bool_decide_eq_true_2.
  - rewrite list_lookup_insert_ne by done. unfold table.
    rewrite !list_lookup_fmap. destruct (seq 0 (S (length str1)) !! k) as [x|] eqn:E; [|done].
    apply lookup_seq in E as [-> _]. cbn. by rewrite bool_decide_eq_false_2 by lia.
Qed.

Lemma rev_take_S (l : list ascii) i x : l !! i = Some x → rev (take (S i) l) = x :: rev (take i l).
Proof. intros H. rewrite (take_S_r _ _ _ H). by rewrite rev_app_distr. Qed.

Lemma D_0_l j : (j <= length str2)%nat → D 0 j = j.
Proof. intros. unfold D. cbn [take rev]. rewrite lev_nil_l, length_rev, length_take. lia. Qed.
Lemma D_0_r i : (i <= length str1)%nat → D i 0 = i.
Proof. intros. unfold D. cbn [take rev]. rewrite lev_nil_r, length_rev, length_take. lia. Qed.

(** [matrix[0][0] = 0] writes the value that is there. *)
Lemma set_table_first w : w 0%nat = 1%nat → set (table w) 0 0 (Some 0) = Some (table w).
Proof.
  intros Hw. unfold set. rewrite table_lookup by lia. cbn [mbind option_bind]. f_equal.
  apply list_insert_id. rewrite table_lookup by lia. rewrite Hw. unfold filled.
  cbn [seq fmap list_fmap]. by rewrite D_0_r by lia.
Qed.

Lemma fill_cell_table w i j : (i < length str1)%nat → (j < length str2)%nat →
  w (S i) = S j → (S j < w i)%nat →
  fill_cell str1 str2 (S i) (S j) (table w) =
    Some (table (λ k, if bool_decide (k = S i) then S (S j) else w k)).
Proof.
  intros Hi Hj Hw Hw'.
  apply lookup_lt_is_Some_2 in Hi as [a Ha]. apply lookup_lt_is_Some_2 in Hj as [b Hb].
  pose proof (lookup_lt_Some _ _ _ Ha). pose proof (lookup_lt_Some _ _ _ Hb).
  assert (D (S i) (S j) = if bool_decide (a = b) then D i j
    else S (D i j `min` (D (S i) j `min` D i (S j)))) as HD.
  { unfold D. rewrite (rev_take_S _ _ _ Ha), (rev_take_S _ _ _ Hb). apply lev_cons. }
  unfold fill_cell. cbn [Nat.sub]. rewrite !Nat.sub_0_r, Ha, Hb.
  rewrite (bool_decide_ext (Some a = Some b) (a = b)) by (split; congruence).
  rewrite !get_table by lia.
  rewrite <-(set_table w (S i) (S j)) by (done || lia). rewrite HD.
  case_bool_decide; cbn -[set table Z.of_nat Nat.min]; [done|].
  f_equal. f_equal. lia.
Qed.

Lemma first_row : ∃ m, for_range 0 (S (length str2)) (λ j m, set m 0 j (Some (Z.of_nat j))) (table (λ _, 1%nat)) = Some m ∧
  m = table (λ k, if (k <? 1)%nat then S (length str2) else 1%nat).
Proof.
  destruct (for_range_inv
    (λ j m, m = table (λ k, if bool_decide (k = 0%nat) then Nat.max 1 j else 1%nat))
    (λ j m, set m 0 j (Some (Z.of_nat j))) (S (length str2)) 0 (table (λ _, 1%nat)))
    as (m1 & E1 & Hm1).
  - apply table_ext. intros. by case_bool_decide.
  - intros j m Hj ->. eexists. split; [|reflexivity].
    destruct j as [|j]; [by rewrite set_table_first|].
    rewrite <-(D_0_l (S j)) at 2 by lia. rewrite set_table by (try done; lia). f_equal. apply table_ext.
    intros k _. repeat case_bool_decide; lia.
  - exists m1. split; [exact E1|]. rewrite Hm1. apply table_ext. intros k _.
    case_bool_decide; destruct (Nat.ltb_spec k 1); lia.
Qed.

Lemma next_row i : (i < length str1)%nat →
  ∃ m, for_range 1 (length str2) (fill_cell str1 str2 (S i))
         (table (λ k, if (k <? S i)%nat then S (length str2) else 1%nat)) = Some m ∧
       m = table (λ k, if (k <? S (S i))%nat then S (length str2) else 1%nat).
Proof.
  intros Hi.
  destruct (for_range_inv
    (λ j m, m = table (λ k, if (k <? S i)%nat then S (length str2) else if (k =? S i)%nat then j else 1%nat))
    (fill_cell str1 str2 (S i)) (length str2) 1
    (table (λ k, if (k <? S i)%nat then S (length str2) else 1%nat))) as (m3 & E3 & Hm3).
  - apply table_ext. intros k _. destruct (Nat.ltb_spec k (S i)), (Nat.eqb_spec k (S i)); lia.
  - intros j m Hj ->. destruct j as [|j]; [lia|]. eexists. split; [|reflexivity].
    rewrite fill_cell_table; try lia.
    + f_equal. apply table_ext. intros k _.
      case_bool_decide; destruct (Nat.ltb_spec k (S i)), (Nat.eqb_spec k (S i)); lia.
    + by rewrite Nat.ltb_irrefl, Nat.eqb_refl.
    + destruct (Nat.ltb_spec i (S i)); lia.
  - exists m3. split; [exact E3|]. rewrite Hm3. apply table_ext. intros k _.
    destruct (Nat.ltb_spec k (S i)), (Nat.eqb_spec k (S i)), (Nat.ltb_spec k (S (S i))); lia.
Qed.

Lemma fill_table : fill str1 str2 = Some (table (λ _, S (length str2))).
Proof.
  unfold fill.
  assert ((λ i, [Some (Z.of_nat i)]) <$> seq 0 (S (length str1)) = table (λ _, 1%nat)) as ->.
  { apply list_fmap_ext. intros k i Hi. apply lookup_seq in Hi as [-> ?].
    unfold filled. cbn [seq fmap list_fmap Nat.add]. by rewrite D_0_r by lia. }
  destruct first_row as (m1 & E1 & Hm1). rewrite E1. cbn [mbind option_bind].
  destruct (for_range_inv
    (λ i m, m = table (λ k, if (k <? i)%nat then S (length str2) else 1%nat))
    (λ i m, for_range 1 (length str2) (fill_cell str1 str2 i) m) (length str1) 1 m1 Hm1) as (m2 & E2 & Hm2).
  { intros i m Hi ->. destruct i as [|i]; [lia|]. apply next_row. lia. }
  rewrite E2, Hm2. f_equal. apply table_ext. intros k Hk. destruct (Nat.ltb_spec k (1 + length str1)); lia.
Qed.

Lemma distance_lev : distance str1 str2 = Some (Some (Z.of_nat (lev (rev str1) (rev str2)))).
Proof.
  unfold distance. rewrite fill_table. cbn [mbind option_bind].
  rewrite get_table by lia. unfold D. by rewrite !firstn_all.
Qed.
End Table.

(** C23: the table of [calculateSimilarity] never reads outside itself, and its last entry is
    the least number of one-character insertions, deletions and replacements that turn the
    first string into the second. *)
Theorem distance_minimal str1 str2 : ∃ d : nat,
  distance str1 str2 = Some (Some (Z.of_nat d)) ∧
  nsteps edit1 d str1 str2 ∧ (∀ n, nsteps edit1 n str1 str2 → (d <= n)%nat).
Proof.
  destruct (lev_minimal (rev str1) (rev str2)) as [H1 H2].
  exists (lev (rev str1) (rev str2)). split; [apply distance_lev|]. split.
  - apply steps_rev in H1. by rewrite !rev_involutive in H1.
  - intros n Hn. apply H2, steps_rev, Hn.
Qed.

(** ** Similarity *)

Definition ascii_of (s : string) : list ascii := list_ascii_of_string s.

Lemma ascii_of_length s : length (ascii_of s) = String.length s.
Proof. unfold ascii_of. induction s; cbn; congruence. Qed.

Lemma edit_sym s t : edit1 s t → edit1 t s.
Proof. induction 1; by constructor. Qed.
Lemma steps_sym n s t : nsteps edit1 n s t → nsteps edit1 n t s.
Proof.
  induction 1 as [|n s u t Hs _ IH]; [constructor|]. eapply nsteps_r; [exact IH|by apply edit_sym].
Qed.

Lemma lev_sym s t : lev s t = lev t s.
Proof.
  destruct (lev_minimal s t) as [H1 H2], (lev_minimal t s) as [H3 H4].
  apply Nat.le_antisymm; [apply H2|apply H4]; by apply steps_sym.
Qed.

(** the similarity of two strings does not depend on their order. *)
Theorem similarity_symmetric str1 str2 : calculateSimilarity str1 str2 = calculateSimilarity str2 str1.
Proof.
  unfold calculateSimilarity. rewrite !distance_lev, lev_sym, Z.max_comm. reflexivity.
Qed.

(** A string is similar to itself, unless it is empty: then the similarity is [0 / 0]. *)
Lemma similarity_same s : s ≠ "" → calculateSimilarity s s = Some (of_Z 1).
Proof.
  intros Hs. unfold calculateSimilarity. rewrite distance_lev. cbn [mbind option_bind].
  assert (lev (rev (list_ascii_of_string s)) (rev (list_ascii_of_string s)) = 0%nat) as ->.
  { apply Nat.le_0_r. eapply (proj2 (lev_minimal _ _)). constructor. }
  rewrite Z.max_id. do 2 f_equal.
  assert (SFcompare (of_Z (Z.of_nat (String.length s))) nzero = Some Gt) as H.
  { unfold of_Z. rewrite normalize_sign by lia. destruct s; done. }
  destruct (of_Z (Z.of_nat (String.length s))) as [[]|[]| |[] m e]; try discriminate H; reflexivity.
Qed.

Lemma similarity_empty : calculateSimilarity "" "" = Some S754_nan.
Proof. vm_compute. reflexivity. Qed.

(** ** Commands and entities *)

Definition unupper (c : ascii) : bool := negb (is_upper c).

Lemma lower_char_unupper c : unupper (lower_char c) = true.
Proof. by destruct c as [[] [] [] [] [] [] [] []]. Qed.
Lemma unupper_lower c : unupper c = true → lower_char c = c.
Proof. by destruct c as [[] [] [] [] [] [] [] []]. Qed.

Lemma toLowerCase_unupper s : str_all unupper (toLowerCase s) = true.
Proof.
  induction s as [|c s IH]; [done|].
  change (unupper (lower_char c) && str_all unupper (toLowerCase s) = true).
  by rewrite lower_char_unupper, IH.
Qed.
Lemma unupper_toLowerCase s : str_all unupper s = true → toLowerCase s = s.
Proof.
  induction s as [|c s IH]; [done|]. intros H.
  change (unupper c && str_all unupper s = true) in H. apply andb_true_iff in H as [Hc Hs].
  change (String (lower_char c) (toLowerCase s) = String c s). by rewrite unupper_lower, IH.
Qed.

Section Parts.
Context (p : ascii → bool).

Lemma all_recipient s r : str_all p s = true → recipient_at s = Some r → str_all p r = true.
Proof.
  intros H. unfold recipient_at. destruct (startsWith _ _); [|done].
  pose proof (all_substring p 2 (String.length s - 2) s H) as Hs.
  destruct (String.substring _ _ s) as [|c t]; [done|]. apply all_cons in Hs as [_ Ht].
  destruct (is_space c); [|done]. case_match; [done|]. intros [= <-].
  by apply all_span, all_trimStart.
Qed.

Lemma all_leftmost m s r : (∀ s r, str_all p s = true → m s = Some r → str_all p r = true) →
  str_all p s = true → leftmost m s = Some r → str_all p r = true.
Proof.
  intros Hm. induction s as [|c s IH]; intros H; cbn.
  - destruct (m "") eqn:E; [|done]. intros [= <-]. by eapply Hm.
  - destruct (m (String c s)) eqn:E; [intros [= <-]; by eapply Hm|].
    apply all_cons in H as [_ H]. by apply IH.
Qed.
End Parts.

(** the recipient of a parsed payment is always in lower case, whatever was written: an
    address in mixed case comes out as a different one. *)
Theorem recipient_lower_case input r :
  recipient (entities (parse input)) = Some r → toLowerCase r = r.
Proof.
  unfold parse. repeat case_match; cbn; try done. intros Hr. apply unupper_toLowerCase.
  eapply all_leftmost; [apply all_recipient| |exact Hr].
  apply all_trimEnd, all_trimStart, toLowerCase_unupper.
Qed.

Lemma recipient_lower_case_witness :
  recipient (entities (parse "send 2 KC to KC1Abc")) = Some "kc1abc" ∧ toLowerCase "kc1abc" = "kc1abc".
Proof. split; [vm_compute; reflexivity|]. apply (recipient_lower_case "send 2 KC to KC1Abc"). vm_compute. reflexivity. Defined.

(** The amount is the first number of the input, even inside the recipient. *)
Lemma amount_inside_recipient :
  let c := parse "send to kc1abc 250 kc" in
  amount (entities c) = Some (of_Z 1) ∧ recipient (entities c) = Some "kc1abc".
Proof. vm_compute. done. Qed.

(** Any mention of a payment is one: the intents after the first are only tried without it. *)
Lemma payment_history_is_a_payment :
  intent (parse "show my payment history") = send ∧ intent (parse "how to send") = send.
Proof. vm_compute. done. Qed.

(** *** The command the parser is written for *)

Definition payment_command (digits r : string) : string := "send " +:+ digits +:+ " kc to " +:+ r.

Lemma leftmost_skip {A} (m : string → option A) c s : m (String c s) = None → leftmost m (String c s) = leftmost m s.
Proof. intros H. cbn. by rewrite H. Qed.

Lemma span_all p s : str_all p s = true → span p s = (s, "").
Proof.
  induction s as [|c s IH]; [done|]. intros H. apply all_cons in H as [Hc Hs].
  cbn. by rewrite Hc, (IH Hs).
Qed.

Lemma trimEnd_solid s : s ≠ "" → str_all (λ c, negb (is_space c)) s = true → ∀ a, trimEnd (a +:+ s) = a +:+ s.
Proof.
  intros Hs H. assert (trimEnd s = s) as E.
  { clear Hs. induction s as [|c s IH]; [done|]. apply all_cons in H as [Hc H].
    cbn. rewrite (IH H). destruct s; [|done]. by destruct (is_space c). }
  induction a as [|c a IH]; [exact E|].
  change (trimEnd (String c (a +:+ s)) = String c (a +:+ s)). cbn [trimEnd]. rewrite IH.
  destruct (a +:+ s) eqn:Ea; [|done]. destruct a; [|done]. change (s = "") in Ea. done.
Qed.

Definition lower_alnum (c : ascii) : bool := is_lower c || is_digit c.

Lemma digit_not_t c s : is_digit c = true → recipient_at (String c s) = None.
Proof.
  intros H. unfold recipient_at.
  assert (startsWith "to" (toLowerCase (String c s)) = false) as ->; [|done].
  change (toLowerCase (String c s)) with (String (lower_char c) (toLowerCase s)).
  clear -H. by destruct c as [[] [] [] [] [] [] [] []].
Qed.

Lemma recipient_skip_digits ds s : str_all is_digit ds = true →
  leftmost recipient_at (ds +:+ s) = leftmost recipient_at s.
Proof.
  induction ds as [|c ds IH]; [done|]. intros H. apply all_cons in H as [Hc H].
  change (leftmost recipient_at (String c (ds +:+ s)) = leftmost recipient_at s).
  rewrite leftmost_skip by (by apply digit_not_t). by apply IH.
Qed.

Lemma leftmost_at {A} (m : string → option A) s a : m s = Some a → leftmost m s = Some a.
Proof. intros H. destruct s; cbn; by rewrite H. Qed.

Lemma command_amount ds r : ds ≠ "" → str_all is_digit ds = true →
  leftmost amount_at (payment_command ds r) = Some (ds, Some "kc").
Proof.
  intros Hne Hd.
  change (leftmost amount_at (ds +:+ String " " ("kc to " +:+ r)) = Some (ds, Some "kc")).
  apply leftmost_at. unfold amount_at, number_at. rewrite (span_app is_digit ds " "%char _ Hd eq_refl).
  unfold str_eqb. rewrite bool_decide_eq_false_2 by done. reflexivity.
Qed.

Lemma command_recipient ds r : str_all is_digit ds = true → r ≠ "" → str_all lower_alnum r = true →
  leftmost recipient_at (payment_command ds r) = Some r.
Proof.
  intros Hd Hne Hr.
  change (leftmost recipient_at (ds +:+ (" kc to " +:+ r)) = Some r).
  rewrite recipient_skip_digits by done.
  change (leftmost recipient_at ("to " +:+ r) = Some r). apply leftmost_at.
  unfold recipient_at.
  change (startsWith "to" (toLowerCase ("to " +:+ r))) with true. cbv iota.
  change (String.substring 2 (String.length ("to " +:+ r) - 2) ("to " +:+ r))
    with (String.substring 0 (S (String.length r)) (String " " r)).
  cbn [String.substring]. rewrite substring_all. change (is_space " ") with true. cbv iota.
  assert (trimStart r = r) as ->.
  { destruct r as [|c r]; [done|]. apply all_cons in Hr as [Hc _]. cbn.
    clear -Hc. by destruct c as [[] [] [] [] [] [] [] []]. }
  rewrite span_all.
  - cbn. unfold str_eqb. by rewrite bool_decide_eq_false_2.
  - revert Hr. apply str_all_impl. clear. intros c Hc. by destruct c as [[] [] [] [] [] [] [] []].
Qed.

(** The command is its own lower-case, trimmed form. *)
Lemma command_normal ds r : str_all is_digit ds = true → r ≠ "" → str_all lower_alnum r = true →
  trim (toLowerCase (payment_command ds r)) = payment_command ds r.
Proof.
  intros Hd Hne Hr. rewrite unupper_toLowerCase.
  - change (trimEnd (payment_command ds r) = payment_command ds r). unfold payment_command.
    rewrite <-!str_app_assoc. apply trimEnd_solid; [done|].
    revert Hr. apply str_all_impl. clear. intros c Hc. by destruct c as [[] [] [] [] [] [] [] []].
  - unfold payment_command. rewrite !str_all_app. cbn [andb].
    rewrite (str_all_impl is_digit unupper ds), (str_all_impl lower_alnum unupper r); try done;
      clear; intros c Hc; by destruct c as [[] [] [] [] [] [] [] []].
Qed.

(** a payment command is read back: amount, currency and recipient. *)
Theorem parse_payment digits r : digits ≠ "" → str_all is_digit digits = true →
  r ≠ "" → str_all lower_alnum r = true →
  parse (payment_command digits r) =
    MkCommand send (MkEntities (Some (parseFloat digits)) (Some "KC") (Some r) None) (lit 85 2).
Proof.
  intros Hdn Hd Hrn Hr. unfold parse. rewrite command_normal by done.
  change (matchesPattern (payment_command digits r) ["send"; "transfer"; "pay"]) with true. cbv iota.
  unfold extractSendEntities. rewrite command_amount, command_recipient by done. reflexivity.
Qed.

Lemma parse_payment_witness :
  parse "send 25 kc to kc1bob" = MkCommand send (MkEntities (Some (of_Z 25)) (Some "KC") (Some "kc1bob") None) (lit 85 2).
Proof. exact (parse_payment "25" "kc1bob" ltac:(done) eq_refl ltac:(done) eq_refl). Defined.

(** *** Entities are found where they are *)

Definition located (input : string) (e : Entity) : Prop :=
  String.substring (position e) (String.length (value e)) input = value e.

Lemma substring_later n m a s : String.substring (String.length a + n) m (a +:+ s) = String.substring n m s.
Proof. induction a as [|c a IH]; [done|]. exact IH. Qed.

Lemma substring_prefix v s : startsWith v s = true → String.substring 0 (String.length v) s = v.
Proof.
  revert s. induction v as [|c v IH]; intros [|d s]; try done.
  cbn. intros [->%Ascii.eqb_eq H]%andb_true_iff. by rewrite IH.
Qed.

Lemma startsWith_split v s : startsWith v s = true → ∃ r, s = v +:+ r.
Proof.
  revert s. induction v as [|c v IH]; intros s H; [by exists s|].
  destruct s as [|d s]; [done|]. cbn in H. apply andb_true_iff in H as [->%Ascii.eqb_eq H].
  destruct (IH s H) as [r ->]. by exists r.
Qed.

Lemma span_split p s : s = (span p s).1 +:+ (span p s).2.
Proof.
  induction s as [|c s IH]; [done|]. cbn. destruct (p c); [|done].
  destruct (span p s) as [a b]. cbn in *. change (String c s = String c (a +:+ b)). by rewrite IH.
Qed.

Lemma number_prefix prev s v : number_match prev s = Some v → startsWith v s = true.
Proof.
  unfold number_match, number_at. pose proof (span_split is_digit s) as Hs.
  destruct (span is_digit s) as [ip r]. cbn in Hs. subst s. case_match; [done|].
  destruct r as [|c t]; [intros [= <-]; by rewrite startsWith_app|].
  destruct (decide (c = "."%char)) as [->|Hc].
  - pose proof (span_split is_digit t) as Ht. destruct (span is_digit t) as [fp u]. cbn in Ht. subst t.
    case_match; cbn; intros [= <-]; [by rewrite startsWith_app|].
    change (startsWith (ip +:+ String "." fp) (ip +:+ String "." (fp +:+ u)) = true).
    change (String "." (fp +:+ u)) with (String "." fp +:+ u). rewrite <-str_app_assoc. apply startsWith_app.
  - intros H'. assert (v = ip) as ->; [|by rewrite startsWith_app].
    destruct c as [[] [] [] [] [] [] [] []]; cbn in H'; congruence.
Qed.

Lemma address_prefix prev s v : address_match prev s = Some v → startsWith v s = true.
Proof.
  unfold address_match. case_match; [|done]. intros [= <-]. clear. generalize 41%nat as n.
  induction s as [|c s IH]; intros [|n]; try done. cbn. by rewrite Ascii.eqb_refl, IH.
Qed.

Lemma name_prefix prev s v : name_match prev s = Some v → startsWith v s = true.
Proof.
  unfold name_match. destruct s as [|c r]; [done|]. pose proof (span_split is_lower r) as Hr.
  destruct (span is_lower r) as [w rest]. cbn in Hr. subst r. case_match; [|done]. intros [= <-].
  change (Ascii.eqb c c && startsWith w (w +:+ rest) = true). by rewrite Ascii.eqb_refl, startsWith_app.
Qed.

Lemma exec_all_located m t : (∀ prev s v, m prev s = Some v → startsWith v s = true) →
  ∀ s skip prev pos e, e ∈ exec_all m t skip prev pos s →
  ∃ k, position e = (pos + k)%nat ∧ String.substring k (String.length (value e)) s = value e.
Proof.
  intros Hm. induction s as [|c s IH]; intros skip prev pos e He; [by apply not_elem_of_nil in He|].
  assert (∀ j q, e ∈ exec_all m t j q (S pos) s → ∃ k, position e = (pos + k)%nat ∧
    String.substring k (String.length (value e)) (String c s) = value e) as Hlater.
  { intros j q H. destruct (IH _ _ _ _ H) as (k & Hk & Hv). exists (S k). split; [lia|exact Hv]. }
  cbn [exec_all] in He. destruct skip as [|k]; [|by eapply Hlater].
  destruct (m prev (String c s)) as [v|] eqn:E; [|by eapply Hlater].
  apply elem_of_cons in He as [->|He]; [|by eapply Hlater].
  exists 0%nat. split; [cbn; lia|]. apply substring_prefix, (Hm _ _ _ E).
Qed.

(** every entity that [extractEntities] reports is the text of the input at its position. *)
Theorem entities_located input e : e ∈ extractEntities input → located input e.
Proof.
  unfold extractEntities. rewrite !elem_of_app. intros He.
  assert (∃ k, position e = (0 + k)%nat ∧ String.substring k (String.length (value e)) input = value e) as (k & Hk & Hv).
  { destruct He as [He|[He|He]]; (eapply exec_all_located; [|exact He]);
      [apply number_prefix|apply address_prefix|apply name_prefix]. }
  unfold located. by rewrite Hk.
Qed.

Lemma entities_located_witness : located "Pay 12.5 to Bob" (MkEntity NUMBER "12.5" 4).
Proof. apply (entities_located "Pay 12.5 to Bob"). vm_compute. left. Defined.
