(* ===== verification/Authentication.v ===== *)
(** * [Authentication] (apps/web/wallet/src/services/authentication.ts)

    One-time passwords, WebAuthn and biometric login, as far as the code goes: secrets and
    backup codes are drawn and written in base 32, everything that would need a server
    throws.  [base32Encode] works on a signed 32-bit accumulator that is never masked; the
    random source of the browser is a parameter. *)

From Stdlib Require Import String Ascii.
From stdpp Require Import strings.
From S2P Require Import Prelude JsNumber JsString Bytes QrService.

(** ** Base 32 *)

Definition alphabet : string := "ABCDEFGHIJKLMNOPQRSTUVWXYZ234567".
(** [alphabet[i]] for an index of five bits. *)
Definition letter (i : Z) : ascii := default "A"%char (String.get (Z.to_nat i) alphabet).

(** [a << n] and [a >>> n] on 32-bit integers. *)
Definition shl32 (a n : Z) : Z := int32 (Z.shiftl (int32 a) n).
Definition shr32 (a n : Z) : Z := Z.shiftr (a mod 2 ^ 32) n.

(** [while (bits >= 5)]: the characters appended and the [bits] left; [fuel] bounds the
    iterations, each of which takes five bits. *)
Fixpoint emit (fuel : nat) (bits value : Z) (output : string) : Z * string :=
  match fuel with
  | O => (bits, output)
  | S fuel' =>
      if 5 <=? bits then
        emit fuel' (bits - 5) value (output +:+ String (letter (Z.land (shr32 value (bits - 5)) 31)) "")
      else (bits, output)
  end.

Fixpoint encode_loop (bytes : list Z) (bits value : Z) (output : string) : Z * Z * string :=
  match bytes with
  | [] => (bits, value, output)
  | byte :: bytes' =>
      let value := Z.lor (shl32 value 8) byte in
      let bits := bits + 8 in
      let '(bits', output') := emit (Z.to_nat bits) bits value output in
      encode_loop bytes' bits' value output'
  end.

Definition base32Encode (bytes : list Z) : string :=
  let '(bits, value, output) := encode_loop bytes 0 0 "" in
  if 0 <? bits then output +:+ String (letter (Z.land (shl32 value (5 - bits)) 31)) "" else output.

(** ** The service *)

Record WebAuthnCredential := MkCredential { id : string; name : string; createdAt : Z }.
Record TOTPSetup := MkSetup { secret : string; qrCode : string; backupCodes : list string }.

Record Authentication := MkAuth {
  totpEnabled : bool;
  totpSecret : option string;
  webauthnCredentials : list WebAuthnCredential;
  biometricAvailable : bool;
}.

Abbreviation M := (js (Authentication * Env)).

Definition set_totp (enabled : bool) (s : option string) (a : Authentication) : Authentication :=
  MkAuth enabled s (webauthnCredentials a) (biometricAvailable a).
Definition set_credentials (l : list WebAuthnCredential) (a : Authentication) : Authentication :=
  MkAuth (totpEnabled a) (totpSecret a) l (biometricAvailable a).

(** [publicKey] is [window.PublicKeyCredential], present or not. *)
Definition constructor (in_browser publicKey : bool) : Authentication :=
  MkAuth false None [] (in_browser && publicKey).

Section Crypto.
(** [window.crypto] is there; its random bytes, by the number of the draw. *)
Context (has_crypto : bool) (randomValues : nat → nat → list Z).

Definition getCrypto : M () :=
  b ← is_browser;
  if negb b || negb has_crypto then js_throw "Secure random unavailable." else mret ().

(** [crypto.getRandomValues(new Uint8Array(n))] *)
Definition getRandomValues (n : nat) : M (list Z) := λ w,
  (Ok (randomValues (draws w.2) n), (w.1, draw w.2)).

Definition generateSecret (length : nat) : M string :=
  _ ← getCrypto;
  let byteLength := ((length * 5 + 7) / 8)%nat in
  bytes ← getRandomValues byteLength;
  mret (String.substring 0 length (base32Encode bytes)).

Fixpoint draw_codes (count : nat) : M (list string) :=
  match count with
  | O => mret []
  | S count' =>
      bytes ← getRandomValues 8;
      codes ← draw_codes count';
      mret (String.substring 0 8 (base32Encode bytes) :: codes)
  end.
Definition generateBackupCodes (count : nat) : M (list string) :=
  _ ← getCrypto;
  draw_codes count.

Definition setupTOTP : M TOTPSetup :=
  secret ← generateSecret 32;
  let issuer := encodeURIComponent "Kubercoin" in
  let label := encodeURIComponent "Kubercoin" in
  let otpauthUrl := "otpauth://totp/" +:+ label +:+ "?secret=" +:+ secret +:+ "&issuer=" +:+ issuer in
  backupCodes ← generateBackupCodes 8;
  s ← this;
  _ ← put_this (set_totp (totpEnabled s) (Some secret) s);
  mret (MkSetup secret otpauthUrl backupCodes).
End Crypto.

Definition verifyTOTP (code : string) : M bool :=
  s ← this;
  if negb (truthy_str (totpSecret s)) then mret false
  else if negb (String.length code =? 6)%nat || negb ((String.length code =? 6)%nat && str_all is_digit code) then mret false
  else js_throw "TOTP verification requires a shared secret validator.".

Definition isTOTPEnabled : M bool := s ← this; mret (totpEnabled s).

Definition disableTOTP : M bool := _ ← modify_this (set_totp false None); mret true.

Definition registerWebAuthn (credentialName : string) : M bool :=
  s ← this;
  if negb (biometricAvailable s) then js_throw "WebAuthn not supported"
  else js_throw ("WebAuthn registration requires a server-provided challenge for " +:+ credentialName +:+ ".").

Definition authenticateWebAuthn : M bool :=
  s ← this;
  if negb (biometricAvailable s) || (length (webauthnCredentials s) =? 0)%nat then mret false
  else js_throw "WebAuthn authentication requires a server-provided challenge.".

Definition getWebAuthnCredentials : M (list WebAuthnCredential) := s ← this; mret (webauthnCredentials s).

Definition removeWebAuthnCredential (credentialId : string) : M bool :=
  s ← this;
  match list_find (λ c, id c = credentialId) (webauthnCredentials s) with
  | Some (index, _) =>
      _ ← put_this (set_credentials (delete index (webauthnCredentials s)) s); mret true
  | None => mret false
  end.

Definition isBiometricAvailable : M bool := s ← this; mret (biometricAvailable s).

Definition authenticateBiometric : M bool :=
  s ← this;
  if negb (biometricAvailable s) then mret false
  else js_try authenticateWebAuthn (λ _, mret false).

Example base32_rfc : (base32Encode ∘ bytes_of <$> ["f"; "fo"; "foo"; "foob"; "fooba"; "foobar"])
  = ["MY"; "MZXQ"; "MZXW6"; "MZXW6YQ"; "MZXW6YTB"; "MZXW6YTBOI"].
Proof. vm_compute. reflexivity. Qed.

(** * Theorems *)

(** ** The accumulator overflows, the digits do not change *)

(** The bits of a number, most significant first, and back. *)
Fixpoint bits_of (n : nat) (z : Z) : list bool :=
  match n with O => [] | S n' => (bits_of n' (z / 2) ++ [Z.odd z])%list end.
Definition bit_num (l : list bool) : Z := foldl (λ n b, 2 * n + Z.b2z b) 0 l.

(** Groups of five bits; the last is filled with zeros. *)
Fixpoint groups (l : list bool) : list (list bool) :=
  match l with
  | [] => []
  | a :: b :: c :: d :: e :: l' => [a; b; c; d; e] :: groups l'
  | l => [l ++ replicate (5 - length l) false]%list
  end.

(** The reference encoding: a letter for every five bits of the byte string. *)
Definition base32 (bytes : list Z) : string :=
  string_of (char_code ∘ letter ∘ bit_num <$> groups (bytes ≫= bits_of 8)).

Lemma bit_num_app l1 l2 : bit_num (l1 ++ l2) = bit_num l1 * 2 ^ Z.of_nat (length l2) + bit_num l2.
Proof.
  unfold bit_num. rewrite foldl_app. generalize (foldl (λ n b, 2 * n + Z.b2z b) 0 l1) as a.
  induction l2 as [|b l2 IH] using rev_ind; intros a; [cbn; lia|].
  rewrite !foldl_app, length_app. cbn [foldl length]. rewrite IH.
  rewrite Nat.add_1_r, Nat2Z.inj_succ, Z.pow_succ_r by lia. lia.
Qed.

Lemma bits_of_length n z : length (bits_of n z) = n.
Proof. revert z. induction n; intros z; cbn; [done|]. rewrite length_app, IHn. cbn. lia. Qed.

Lemma bit_num_bits n z : bit_num (bits_of n z) = z mod 2 ^ Z.of_nat n.
Proof.
  revert z. induction n as [|n IH]; intros z; [cbn; by rewrite Z.mod_1_r|].
  cbn [bits_of]. rewrite bit_num_app, IH. change (bit_num [Z.odd z]) with (Z.b2z (Z.odd z)).
  change (2 ^ Z.of_nat (length [Z.odd z])) with 2. rewrite Nat2Z.inj_succ, Z.pow_succ_r by lia.
  rewrite Z.rem_mul_r by (try apply Z.pow_pos_nonneg; lia).
  rewrite <-Z.bit0_odd, Z.bit0_mod. lia.
Qed.

Lemma bit_num_bound l : 0 <= bit_num l < 2 ^ Z.of_nat (length l).
Proof.
  induction l as [|b l IH] using rev_ind; [done|].
  rewrite bit_num_app, length_app. change (bit_num [b]) with (Z.b2z b).
  change (2 ^ Z.of_nat (length [b])) with 2. change (length [b]) with 1%nat. rewrite Nat.add_1_r, Nat2Z.inj_succ, Z.pow_succ_r by lia. destruct b; cbn; lia.
Qed.

Lemma mod_mod_pow a m n : 0 <= m <= n → (a mod 2 ^ n) mod 2 ^ m = a mod 2 ^ m.
Proof.
  intros H. apply Z.mod_mod_divide.
  exists (2 ^ (n - m)). rewrite <-Z.pow_add_r by lia. f_equal. lia.
Qed.

(** The low bits of a wrapped integer are those of the integer. *)
Lemma int32_mod a m : 0 <= m <= 31 → int32 a mod 2 ^ m = a mod 2 ^ m.
Proof.
  intros H. unfold int32.
  assert (2 ^ 31 = 2 ^ (31 - m) * 2 ^ m) as E by (rewrite <-Z.pow_add_r by lia; f_equal; lia).
  rewrite <-Zminus_mod_idemp_l, mod_mod_pow, Zminus_mod_idemp_l by lia.
  f_equal. lia.
Qed.

Lemma lor_add a b : a mod 2 ^ 8 = 0 → 0 <= b < 2 ^ 8 → Z.lor a b = a + b.
Proof.
  intros Ha Hb. pose proof (Z.add_lor_land a b) as H.
  assert (Z.land a b = 0) as E; [|lia]. apply Z.bits_inj'. intros n Hn.
  rewrite Z.land_spec, Z.bits_0. destruct (Z.lt_ge_cases n 8) as [?|?].
  - rewrite <-(Z.mod_pow2_bits_low a 8 n) by lia. by rewrite Ha, Z.bits_0.
  - rewrite <-(Z.mod_small b (2 ^ 8)) by lia. rewrite (Z.mod_pow2_bits_high b) by lia. apply andb_false_r.
Qed.

(** [value] holds, in its low [length r] bits, the bits [r] that no letter has taken yet. *)
Definition pending (value : Z) (r : list bool) : Prop :=
  value mod 2 ^ Z.of_nat (length r) = bit_num r.

Definition letters (l : list (list bool)) : string := string_of (char_code ∘ letter ∘ bit_num <$> l).

Lemma string_of_app l1 l2 : string_of (l1 ++ l2) = string_of l1 +:+ string_of l2.
Proof.
  induction l1 as [|b l1 IH]; [done|].
  change (String (char_of b) (string_of (l1 ++ l2)) = String (char_of b) (string_of l1 +:+ string_of l2)).
  by rewrite IH.
Qed.

Lemma letters_app l1 l2 : letters (l1 ++ l2) = letters l1 +:+ letters l2.
Proof. unfold letters. rewrite fmap_app. apply string_of_app. Qed.

Lemma letters_one g : letters [g] = String (letter (bit_num g)) "".
Proof. unfold letters. cbn. by rewrite char_of_code. Qed.

(** One more byte. *)
Lemma pending_push value r byte : pending value r → (length r <= 4)%nat → is_byte byte →
  pending (Z.lor (shl32 value 8) byte) (r ++ bits_of 8 byte).
Proof.
  unfold pending, is_byte, shl32. intros Hp Hr Hb. rewrite Z.shiftl_mul_pow2 by lia.
  rewrite lor_add; [|rewrite int32_mod by lia; apply Z.mod_mul; lia|exact Hb].
  pose proof (bit_num_bound (r ++ bits_of 8 byte)) as Hbound.
  rewrite bit_num_app, length_app, bits_of_length, bit_num_bits in *.
  change (2 ^ Z.of_nat 8) with 256 in *. rewrite (Z.mod_small byte) in * by lia.
  set (k := Z.of_nat (length r)) in *.
  replace (Z.of_nat (length r + 8)) with (k + 8) in * by lia.
  rewrite <-Zplus_mod_idemp_l, int32_mod by lia. rewrite Z.pow_add_r at 1 by lia.
  change (2 ^ 8) with 256. rewrite Z.mul_mod_distr_r by (try apply Z.pow_nonzero; lia).
  rewrite int32_mod, Hp by lia. apply Z.mod_small. exact Hbound.
Qed.

(** The next letter. *)
Lemma pending_take value a b : pending value (a ++ b) → length a = 5%nat → (length b <= 7)%nat →
  Z.land (shr32 value (Z.of_nat (length b))) 31 = bit_num a ∧ pending value b.
Proof.
  unfold pending, shr32. rewrite bit_num_app, length_app. intros Hp Ha Hb. rewrite Ha in Hp.
  set (m := Z.of_nat (length b)) in *. replace (Z.of_nat (5 + length b)) with (m + 5) in Hp by lia.
  pose proof (bit_num_bound b) as Hbb. fold m in Hbb.
  assert (value mod 2 ^ m = bit_num b) as Hlow.
  { rewrite <-(mod_mod_pow value m (m + 5)) by lia. rewrite Hp, Z.add_comm, Z.mod_add by lia.
    by apply Z.mod_small. }
  split; [|exact Hlow].
  change 31 with (Z.ones 5). rewrite Z.land_ones, Z.shiftr_div_pow2 by lia.
  rewrite <-(mod_mod_pow value (m + 5) 32), Z.pow_add_r, Z.rem_mul_r in Hp by (try apply Z.pow_pos_nonneg; lia).
  rewrite (mod_mod_pow value m 32), Hlow in Hp by lia. nia.
Qed.

Lemma groups_take a b : length a = 5%nat → groups (a ++ b) = a :: groups b.
Proof. destruct a as [|? [|? [|? [|? [|? [|]]]]]]; try discriminate 1. reflexivity. Qed.

Lemma emit_spec fuel value r output : pending value r → (length r <= 12)%nat → (length r <= fuel)%nat →
  ∃ r' gs, emit fuel (Z.of_nat (length r)) value output = (Z.of_nat (length r'), output +:+ letters gs) ∧
    (length r' <= 4)%nat ∧ pending value r' ∧ ∀ more, groups (r ++ more) = (gs ++ groups (r' ++ more))%list.
Proof.
  revert r output. induction fuel as [|fuel IH]; intros r output Hp Hr Hf.
  { exists r, []. destruct r; [|cbn in Hf; lia]. cbn. rewrite str_app_nil_r. repeat split; [lia|done]. }
  cbn [emit]. destruct (Z.leb_spec 5 (Z.of_nat (length r))) as [H5|H5].
  - assert (length (take 5 r) = 5%nat) as Ha by (rewrite length_take; lia).
    assert (length (drop 5 r) = length r - 5)%nat as Hd by (rewrite length_drop; lia).
    rewrite <-(take_drop 5 r) in Hp. destruct (pending_take value _ _ Hp Ha ltac:(lia)) as [He Hp'].
    replace (Z.of_nat (length r) - 5) with (Z.of_nat (length (drop 5 r))) by lia. rewrite He.
    destruct (IH (drop 5 r) (output +:+ String (letter (bit_num (take 5 r))) "") Hp' ltac:(lia) ltac:(lia))
      as (r' & gs & -> & Hr' & Hpr & Hg).
    exists r', (take 5 r :: gs). split; [|split; [done|split; [done|]]].
    + change (take 5 r :: gs) with ([take 5 r] ++ gs)%list. by rewrite letters_app, letters_one, str_app_assoc.
    + intros more. rewrite <-(take_drop 5 r) at 1. rewrite <-app_assoc, (groups_take _ _ Ha), Hg. done.
  - exists r, []. cbn. rewrite str_app_nil_r. split; [done|split; [lia|done]].
Qed.

Lemma encode_loop_spec bytes r value output : Forall is_byte bytes → pending value r → (length r <= 4)%nat →
  ∃ r' value' gs, encode_loop bytes (Z.of_nat (length r)) value output = (Z.of_nat (length r'), value', output +:+ letters gs) ∧
    (length r' <= 4)%nat ∧ pending value' r' ∧ groups (r ++ (bytes ≫= bits_of 8)) = (gs ++ groups r')%list.
Proof.
  intros Hb. revert r value output. induction Hb as [|byte bytes Hbyte _ IH]; intros r value output Hp Hr.
  { exists r, value, []. cbn. rewrite str_app_nil_r, app_nil_r. done. }
  cbn [encode_loop]. pose proof (pending_push _ _ _ Hp Hr Hbyte) as Hp'.
  assert (length (r ++ bits_of 8 byte) = length r + 8)%nat as Hlen by (by rewrite length_app, bits_of_length).
  replace (Z.of_nat (length r) + 8) with (Z.of_nat (length (r ++ bits_of 8 byte))) by lia.
  destruct (emit_spec (Z.to_nat (Z.of_nat (length (r ++ bits_of 8 byte)))) _ _ output Hp' ltac:(lia) ltac:(lia))
    as (r1 & gs1 & -> & Hr1 & Hp1 & Hg1).
  destruct (IH r1 _ (output +:+ letters gs1) Hp1 Hr1) as (r' & v' & gs & -> & Hr' & Hp2 & Hg2).
  exists r', v', (gs1 ++ gs)%list. split; [|split; [done|split; [done|]]].
  - by rewrite letters_app, str_app_assoc.
  - change ((byte :: bytes) ≫= bits_of 8) with (bits_of 8 byte ++ (bytes ≫= bits_of 8))%list.
    by rewrite app_assoc, Hg1, Hg2, app_assoc.
Qed.

Lemma base32Encode_groups bytes : Forall is_byte bytes → base32Encode bytes = base32 bytes.
Proof.
  intros Hb. unfold base32Encode.
  destruct (encode_loop_spec bytes [] 0 "" Hb eq_refl ltac:(cbn; lia)) as (r & v & gs & E & Hr & Hp & Hg).
  cbn [length] in E. change (Z.of_nat 0) with 0 in E. rewrite E.
  change (base32 bytes) with (letters (groups ([] ++ (bytes ≫= bits_of 8)))).
  rewrite Hg, letters_app. change ("" +:+ letters gs) with (letters gs).
  destruct r as [|b r]; [by rewrite str_app_nil_r|].
  assert (groups (b :: r) = [(b :: r) ++ replicate (5 - length (b :: r)) false]%list) as ->.
  { cbn in Hr. destruct r as [|? [|? [|? [|]]]]; cbn in Hr; try lia; reflexivity. }
  rewrite letters_one. rewrite (proj2 (Z.ltb_lt 0 (Z.of_nat (length (b :: r))))) by (cbn; lia).
  do 3 f_equal. unfold pending in Hp. set (l := b :: r) in *.
  rewrite bit_num_app, length_replicate.
  assert (bit_num (replicate (5 - length l) false) = 0) as ->.
  { generalize (5 - length l)%nat as n. unfold bit_num. induction n; [done|]. exact IHn. }
  unfold shl32. change 31 with (Z.ones 5). rewrite Z.land_ones, Z.shiftl_mul_pow2, int32_mod by lia.
  replace (2 ^ 5) with (2 ^ Z.of_nat (length l) * 2 ^ (5 - Z.of_nat (length l)))
    by (rewrite <-Z.pow_add_r by lia; by replace (Z.of_nat (length l) + (5 - Z.of_nat (length l))) with 5 by lia).
  rewrite Z.mul_mod_distr_r by (apply Z.pow_nonzero; lia).
  rewrite int32_mod, Hp by lia. replace (Z.of_nat (5 - length l)) with (5 - Z.of_nat (length l)) by lia. lia.
Qed.

(** the accumulator of [base32Encode] is a signed 32-bit integer that overflows and is
    never masked; for every byte string the text is the one of RFC 4648 without padding, a
    letter for every five bits. *)
Theorem base32Encode_reference bytes : Forall is_byte bytes → base32Encode bytes = base32 bytes.
Proof. apply base32Encode_groups. Qed.

Lemma base32Encode_reference_witness :
  Forall is_byte [255; 0; 200; 17; 90; 255; 255; 3; 129] ∧
  base32Encode [255; 0; 200; 17; 90; 255; 255; 3; 129] = base32 [255; 0; 200; 17; 90; 255; 255; 3; 129].
Proof.
  assert (Forall is_byte [255; 0; 200; 17; 90; 255; 255; 3; 129]) as H by (repeat constructor; done).
  split; [exact H|]. exact (base32Encode_reference _ H).
Defined.

(** ** Secrets and backup codes *)

Lemma groups32_length l : length (groups l) = ((length l + 4) / 5)%nat.
Proof.
  remember (length l) as n eqn:En. revert l En. induction n as [n IH] using lt_wf_ind. intros l ->.
  destruct l as [|a [|b [|c [|d [|e l]]]]]; try reflexivity.
  cbn [groups length]. rewrite (IH (length l)) by (cbn; lia || reflexivity).
  replace (S (S (S (S (S (length l))))) + 4)%nat with ((length l + 4) + 1 * 5)%nat by lia.
  rewrite Nat.div_add by lia. lia.
Qed.

Lemma string_of_length l : String.length (string_of l) = length l.
Proof. induction l; cbn; congruence. Qed.

Lemma base32_length bytes : String.length (base32 bytes) = ((length bytes * 8 + 4) / 5)%nat.
Proof.
  unfold base32. rewrite string_of_length, length_fmap, groups32_length. do 2 f_equal.
  induction bytes as [|b bytes IH]; [done|].
  change ((b :: bytes) ≫= bits_of 8) with (bits_of 8 b ++ (bytes ≫= bits_of 8))%list.
  rewrite length_app, bits_of_length, IH. cbn [length]. lia.
Qed.

Definition in_alphabet (c : ascii) : bool := is_upper c || in_range 50 55 c.

Lemma letter_in_alphabet i : in_alphabet (letter i) = true.
Proof.
  unfold letter. destruct (String.get (Z.to_nat i) alphabet) as [c|] eqn:E; [|done]. cbn.
  revert E. generalize (Z.to_nat i) as n. unfold alphabet.
  do 32 (intros [|n]; [intros [= <-]; reflexivity|revert n]). intros [|n] [=].
Qed.

Lemma base32_alphabet bytes : str_all in_alphabet (base32 bytes) = true.
Proof.
  unfold base32. induction (groups _) as [|g gs IH]; [done|].
  change (in_alphabet (char_of (char_code (letter (bit_num g)))) &&
          str_all in_alphabet (string_of (char_code ∘ letter ∘ bit_num <$> gs)) = true).
  by rewrite char_of_code, letter_in_alphabet, IH.
Qed.

Lemma substring_0_length n s : String.length (String.substring 0 n s) = Nat.min n (String.length s).
Proof. revert n. induction s as [|c s IH]; intros [|n]; try done. cbn. by rewrite IH. Qed.

Lemma substring_0_all p n s : str_all p s = true → str_all p (String.substring 0 n s) = true.
Proof.
  revert n. induction s as [|c s IH]; intros [|n]; try done. cbn.
  intros [-> H]%andb_true_iff. by apply IH.
Qed.

(** [k] letters of the alphabet. *)
Definition code_text (k : nat) (s : string) : Prop := String.length s = k ∧ str_all in_alphabet s = true.

Lemma code_cut k bytes : Forall is_byte bytes → (k <= (length bytes * 8 + 4) / 5)%nat →
  code_text k (String.substring 0 k (base32Encode bytes)).
Proof.
  intros Hb Hk. rewrite base32Encode_groups by done. split.
  - rewrite substring_0_length, base32_length. lia.
  - apply substring_0_all, base32_alphabet.
Qed.

Section Random.
Context (randomValues : nat → nat → list Z).
Hypothesis random_bytes : ∀ k n, Forall is_byte (randomValues k n) ∧ length (randomValues k n) = n.

Lemma draw_codes_run count w : ∃ codes w', draw_codes randomValues count w = (Ok codes, w') ∧
  w'.1 = w.1 ∧ length codes = count ∧ Forall (code_text 8) codes.
Proof.
  revert w. induction count as [|count IH]; intros [a e]; [by exists [], (a, e)|].
  destruct (IH (a, draw e)) as (codes & w' & E & Ha & Hl & Hc).
  eexists (String.substring 0 8 (base32Encode (randomValues (draws e) 8)) :: codes), w'.
  split; [|split; [exact Ha|split; [cbn; lia|]]].
  - cbn [draw_codes]. unfold getRandomValues, mbind, js_bind in *. cbn [fst snd] in *. by rewrite E.
  - constructor; [|exact Hc]. destruct (random_bytes (draws e) 8) as [Hb Hlen].
    apply code_cut; [exact Hb|]. rewrite Hlen. cbn. lia.
Qed.

(** in a browser with [crypto], [setupTOTP] returns a secret of 32 letters and eight backup
    codes of eight; it keeps the secret and nothing else, so the codes are never accepted and
    the factor is not enabled. *)
Theorem setupTOTP_effect a e : browser e = true → ∃ setup e',
  setupTOTP true randomValues (a, e) = (Ok setup, (set_totp (totpEnabled a) (Some (secret setup)) a, e')) ∧
  code_text 32 (secret setup) ∧ length (backupCodes setup) = 8%nat ∧ Forall (code_text 8) (backupCodes setup) ∧
  qrCode setup = "otpauth://totp/Kubercoin?secret=" +:+ secret setup +:+ "&issuer=Kubercoin".
Proof.
  intros Hb. set (s := String.substring 0 32 (base32Encode (randomValues (draws e) 20))).
  destruct (draw_codes_run 8 (a, draw e)) as (codes & [a' e'] & E & Ha & Hl & Hc). cbn [fst] in Ha. subst a'.
  exists (MkSetup s ("otpauth://totp/Kubercoin?secret=" +:+ s +:+ "&issuer=Kubercoin") codes), e'.
  split; [|split; [|done]].
  - unfold setupTOTP, generateSecret, generateBackupCodes, getCrypto. js_run. cbn [fst snd]. rewrite Hb. cbn [negb orb]. js_run.
    unfold getRandomValues at 1, mbind at 1, js_bind at 1. cbn [fst snd]. js_run. cbn [fst snd browser draw]. rewrite Hb. cbn [negb orb]. js_run.
    change (((32 * 5 + 7) / 8)%nat) with 20%nat. fold s.
    rewrite (run_Ok _ _ _ _ _ E). js_run. reflexivity.
  - destruct (random_bytes (draws e) 20) as [Hbytes Hlen]. apply code_cut; [exact Hbytes|]. rewrite Hlen. cbn. lia.
Qed.
End Random.

Lemma setupTOTP_effect_witness : ∃ setup e',
  setupTOTP true (λ k n, replicate n (Z.of_nat k mod 256)) (constructor true true, demo_env) =
    (Ok setup, (set_totp false (Some (secret setup)) (constructor true true), e')) ∧
  code_text 32 (secret setup).
Proof.
  assert (∀ k n, Forall is_byte (replicate n (Z.of_nat k mod 256)) ∧ length (replicate n (Z.of_nat k mod 256)) = n) as H.
  { intros k n. split; [|apply length_replicate]. apply Forall_replicate. apply Z.mod_pos_bound. lia. }
  destruct (setupTOTP_effect _ H (constructor true true) demo_env eq_refl) as (setup & e' & E & Hs & _).
  exists setup, e'. split; [exact E|exact Hs].
Defined.

(** ** No factor ever confirms *)

Inductive operation :=
  | SetupTOTP | VerifyTOTP (code : string) | DisableTOTP
  | RegisterWebAuthn (credentialName : string) | AuthenticateWebAuthn
  | RemoveWebAuthnCredential (credentialId : string) | AuthenticateBiometric.

Definition exec (has_crypto : bool) (randomValues : nat → nat → list Z) (o : operation) : M () :=
  match o with
  | SetupTOTP => _ ← setupTOTP has_crypto randomValues; mret ()
  | VerifyTOTP code => _ ← verifyTOTP code; mret ()
  | DisableTOTP => _ ← disableTOTP; mret ()
  | RegisterWebAuthn n => _ ← registerWebAuthn n; mret ()
  | AuthenticateWebAuthn => _ ← authenticateWebAuthn; mret ()
  | RemoveWebAuthnCredential i => _ ← removeWebAuthnCredential i; mret ()
  | AuthenticateBiometric => _ ← authenticateBiometric; mret ()
  end.

(** The object after any operations, returning or throwing, since it was made. *)
Inductive reachable (has_crypto : bool) (rv : nat → nat → list Z) : Authentication * Env → Prop :=
  | made in_browser pk e : reachable has_crypto rv (constructor in_browser pk, e)
  | operated o w : reachable has_crypto rv w → reachable has_crypto rv (exec has_crypto rv o w).2.

Definition inert (a : Authentication) : Prop := totpEnabled a = false ∧ webauthnCredentials a = [].

Lemma getRandomValues_inert rv n : preserves inert (getRandomValues rv n).
Proof. by intros [a e] H. Qed.
Lemma draw_codes_inert rv n : preserves inert (draw_codes rv n).
Proof. induction n; cbn; [apply preserves_ret|]. apply preserves_bind; [apply getRandomValues_inert|]. intros b. js_preserve. Qed.
#[local] Hint Resolve getRandomValues_inert draw_codes_inert : js.

Lemma exec_inert hc rv o : preserves inert (exec hc rv o).
Proof.
  destruct o; cbn [exec];
    unfold setupTOTP, generateSecret, generateBackupCodes, getCrypto, verifyTOTP, disableTOTP, registerWebAuthn,
      removeWebAuthnCredential, authenticateBiometric, authenticateWebAuthn;
    js_preserve; try (apply preserves_put || apply preserves_modify; unfold inert in *; naive_solver).
  apply preserves_put. unfold inert in *. cbn. by destruct H as [? ->].
Qed.

Lemma reachable_inert hc rv w : reachable hc rv w → inert w.1.
Proof. induction 1; [done|]. by apply exec_inert. Qed.

(** after any operations, whatever was set up, no factor confirms: a code of one-time
    passwords is refused or makes the check throw, WebAuthn and biometric authentication
    answer [false], and the one-time password is still reported as not enabled. *)
Theorem authentication_never_succeeds hc rv w : reachable hc rv w →
  (∀ code, (verifyTOTP code w).1 ≠ Ok true) ∧ (authenticateWebAuthn w).1 = Ok false ∧
  (authenticateBiometric w).1 = Ok false ∧ (isTOTPEnabled w).1 = Ok false.
Proof.
  intros Hw. destruct (reachable_inert _ _ _ Hw) as [He Hc]. destruct w as [a e]. cbn in He, Hc.
  assert (authenticateWebAuthn (a, e) = (Ok false, (a, e))) as Ha.
  { unfold authenticateWebAuthn. js_run. cbn [fst]. rewrite Hc, orb_true_r. reflexivity. }
  split; [|split; [by rewrite Ha|split]].
  - intros code. unfold verifyTOTP. js_run. cbn [fst]. by repeat case_match.
  - unfold authenticateBiometric. js_run. cbn [fst]. destruct (biometricAvailable a); [|done]. cbn [negb].
    by erewrite run_try_Ok.
  - unfold isTOTPEnabled. js_run. cbn. by rewrite He.
Qed.

Lemma authentication_never_succeeds_witness :
  let rv := λ k n, replicate n (Z.of_nat k) in
  let w := (exec true rv SetupTOTP (constructor true true, demo_env)).2 in
  reachable true rv w ∧ (verifyTOTP "123456" w).1 = Throw "TOTP verification requires a shared secret validator." ∧
  (authenticateBiometric w).1 = Ok false.
Proof.
  intros rv w. assert (reachable true rv w) as H by apply operated, made.
  split; [exact H|]. split; [vm_compute; reflexivity|].
  exact (proj1 (proj2 (proj2 (authentication_never_succeeds _ _ _ H)))).
Defined.
