(* ===== verification/SignatureManager.v ===== *)
(** * [SignatureManager] (apps/web/wallet/src/services/signatureManager.ts)

    Collecting signatures for a transaction: requests move from collecting to ready to
    executed, or expire.  The methods are asynchronous and hold the request object across
    their awaits, so the objects live in a heap, a method is cut where it awaits, and [step]
    interleaves the parts of the calls in progress.  A call that runs alone is the
    composition of its parts. *)

From Stdlib Require Import String Ascii.
From stdpp Require Import strings.
From S2P Require Import Prelude JsMap JsNumber JsString Bytes QrService.

Inductive Status := collecting | ready | executed | expired.

#[export] Instance Status_eq_dec : EqDecision Status.
Proof. solve_decision. Defined.

Record Signature := MkSignature { signerId : string; signature : string; timestamp : Z; verified : bool }.

Record SignatureRequest := MkRequest {
  id : string;
  transactionId : string;
  walletId : string;
  requiredSignatures : Z;
  collectedSignatures : list Signature;
  status : Status;
  createdDate : Z;
  expiryDate : Z;
}.

(** The map holds references to the request objects. *)
Record SignatureManager := MkManager {
  heap : list SignatureRequest;
  signatureRequests : jsmap nat;
}.

Abbreviation M := (js (SignatureManager * Env)).

Definition constructor : SignatureManager := MkManager [] [].

Definition set_status (st : Status) (r : SignatureRequest) : SignatureRequest :=
  MkRequest (id r) (transactionId r) (walletId r) (requiredSignatures r) (collectedSignatures r) st (createdDate r) (expiryDate r).
Definition push_signature (x : Signature) (r : SignatureRequest) : SignatureRequest :=
  MkRequest (id r) (transactionId r) (walletId r) (requiredSignatures r) (collectedSignatures r ++ [x]) (status r) (createdDate r) (expiryDate r).

(** A reference of the map is always one of the heap; [no_request] is never read. *)
Definition no_request : SignatureRequest := MkRequest "" "" "" 0 [] expired 0 0.
Definition deref (s : SignatureManager) (ref : nat) : SignatureRequest := default no_request (heap s !! ref).
Definition update_ref (ref : nat) (f : SignatureRequest → SignatureRequest) (s : SignatureManager) : SignatureManager :=
  MkManager (alter f ref (heap s)) (signatureRequests s).
Definition set_request (k : string) (ref : nat) (s : SignatureManager) : SignatureManager :=
  MkManager (heap s) (map_set k ref (signatureRequests s)).

Definition count (r : SignatureRequest) : Z := Z.of_nat (length (collectedSignatures r)).

(** [this.signatureRequests.get(requestId)], or the error of a missing request. *)
Definition find_request (requestId : string) : M nat :=
  s ← this;
  match map_get requestId (signatureRequests s) with
  | Some ref => mret ref
  | None => js_throw "Signature request not found"
  end.
Definition load (ref : nat) : M SignatureRequest := s ← this; mret (deref s ref).

(** ** Hashes *)

(** [z.toString(16)] for [z >= 0]; [fuel] digits are enough below [16 ^ fuel]. *)
Fixpoint hex_text (fuel : nat) (z : Z) (acc : string) : string :=
  match fuel with
  | O => acc
  | S fuel' =>
      let acc := String (hex_digit (z mod 16)) acc in
      if z / 16 =? 0 then acc else hex_text fuel' (z / 16) acc
  end.
Definition padStart (n : nat) (s : string) : string := zeros (n - String.length s) +:+ s.

(** The sum fits 32 bits, so [hash & hash] is the only cut. *)
Definition simpleHash (input : string) : string :=
  padStart 64 (hex_text 9 (Z.abs (foldl (λ hash char, int32 (int32 (Z.shiftl hash 5) - hash + char)) 0 (bytes_of input))) "").

Definition generateSignature (messageHash privateKey : string) : string :=
  let hash := simpleHash (messageHash +:+ privateKey) in
  "0x" +:+ hash +:+ hash.

(** ** Operations *)

Section Random.
(** [Math.random()] by the number of the draw, as a number and as its hexadecimal digits. *)
Context (random : nat → num) (random16 : nat → string).

Definition createSignatureRequest (transactionId walletId : string) (requiredSignatures expiryHours : Z) : M SignatureRequest :=
  now ← date_now;
  suffix ← random36;
  let requestId := "sig_req_" +:+ pretty now +:+ "_" +:+ suffix in
  created ← date_now;
  now' ← date_now;
  let request := MkRequest requestId transactionId walletId requiredSignatures [] collecting created
                   (now' + expiryHours * 60 * 60 * 1000) in
  s ← this;
  _ ← put_this (MkManager (heap s ++ [request]) (map_set requestId (length (heap s)) (signatureRequests s)));
  mret request.

(** [collectSignature] up to its first await. *)
Definition collect_check (requestId signer : string) : M nat :=
  ref ← find_request requestId;
  request ← load ref;
  if negb (bool_decide (status request = collecting)) then js_throw "Signature request is not in collecting state"
  else
    now ← date_now;
    if expiryDate request <? now then
      _ ← modify_this (update_ref ref (set_status expired));
      _ ← modify_this (set_request requestId ref);
      js_throw "Signature request has expired"
    else if js_some (λ s, str_eqb (signerId s) signer) (collectedSignatures request)
    then js_throw "Signer has already provided signature"
    else mret ref.

Definition verifySignature (messageHash signature signer : string) : M bool := λ w,
  (Ok (SFltb (lit 5 2) (random (draws w.2))), (w.1, draw w.2)).

Definition all_verified (r : SignatureRequest) : bool := forallb verified (collectedSignatures r).

(** The status after a signature was pushed. *)
Definition promote (r : SignatureRequest) : SignatureRequest :=
  if (requiredSignatures r <=? count r) && all_verified r then set_status ready r else r.

(** [collectSignature] after its awaits. *)
Definition collect_push (ref : nat) (requestId signer signature : string) (verified : bool) : M (string * bool) :=
  now ← date_now;
  _ ← modify_this (update_ref ref (λ r, promote (push_signature (MkSignature signer signature now verified) r)));
  _ ← modify_this (set_request requestId ref);
  mret (signature, verified).

Definition collectSignature (requestId signer messageHash privateKey : string) : M (string * bool) :=
  ref ← collect_check requestId signer;
  let signature := generateSignature messageHash privateKey in
  verified ← verifySignature messageHash signature signer;
  collect_push ref requestId signer signature verified.

Definition getSignatureRequest (requestId : string) : M (option SignatureRequest) :=
  s ← this; mret (deref s <$> map_get requestId (signatureRequests s)).

Record Threshold := MkThreshold { reached : bool; collected : Z; required : Z; allVerified : bool }.

Definition checkThreshold (requestId : string) : M Threshold :=
  ref ← find_request requestId;
  request ← load ref;
  mret (MkThreshold (requiredSignatures request <=? count request) (count request) (requiredSignatures request) (all_verified request)).

Definition aggregateSignatures (requestId : string) : M string :=
  ref ← find_request requestId;
  request ← load ref;
  if negb (bool_decide (status request = ready)) then js_throw "Signature request is not ready for aggregation"
  else mret ("0x" +:+ simpleHash (join "|" (signature <$> collectedSignatures request))).

(** [executeTransaction] up to its first await, up to its second, and the rest. *)
Definition execute_check (requestId : string) : M (nat * Threshold) :=
  ref ← find_request requestId;
  request ← load ref;
  if negb (bool_decide (status request = ready)) then js_throw "Signature request is not ready for execution"
  else threshold ← checkThreshold requestId; mret (ref, threshold).
Definition execute_aggregate (requestId : string) (threshold : Threshold) : M string :=
  if negb (reached threshold) || negb (allVerified threshold)
  then js_throw "Signature threshold not met or signatures not verified"
  else aggregateSignatures requestId.
Definition execute_finish (ref : nat) (requestId : string) : M (string * bool) := λ w,
  let txHash := "0x" +:+ padStart 64 (random16 (draws w.2)) in
  (Ok (txHash, true), (set_request requestId ref (update_ref ref (set_status executed) w.1), draw w.2)).

Definition executeTransaction (requestId : string) : M (string * bool) :=
  p ← execute_check requestId;
  _ ← execute_aggregate requestId p.2;
  execute_finish p.1 requestId.

(** The loop of [cleanupExpiredRequests] over the entries of the map. *)
Fixpoint cleanup_loop (now : Z) (entries : list (string * nat)) (cleanedCount : Z) : M Z :=
  match entries with
  | [] => mret cleanedCount
  | (k, ref) :: entries' =>
      request ← load ref;
      if (expiryDate request <? now) && bool_decide (status request = collecting) then
        _ ← modify_this (update_ref ref (set_status expired));
        _ ← modify_this (set_request k ref);
        cleanup_loop now entries' (cleanedCount + 1)
      else cleanup_loop now entries' cleanedCount
  end.
Definition cleanupExpiredRequests : M Z :=
  now ← date_now;
  s ← this;
  cleanup_loop now (signatureRequests s) 0.

Definition getActiveRequests : M (list SignatureRequest) :=
  s ← this;
  let active := js_filter (λ r, bool_decide (status r = collecting) || bool_decide (status r = ready))
                  (deref s <$> map_values (signatureRequests s)) in
  mret (js_sort (λ a b, 0 <? createdDate b - createdDate a) active).

Record Progress := MkProgress { percentage : num; p_collected : Z; p_required : Z; missing : Z }.

Definition getSignatureProgress (requestId : string) : M Progress :=
  ref ← find_request requestId;
  request ← load ref;
  let collected := count request in
  let required := requiredSignatures request in
  mret (MkProgress (nmin (of_Z 100) (nmul (ndiv (of_Z collected) (of_Z required)) (of_Z 100)))
    collected required (Z.max 0 (required - collected))).

(** ** Calls in progress *)

(** What a suspended call still has to do. *)
Inductive pending :=
  | Collecting (ref : nat) (requestId signer messageHash signature : string)
  | Checked (ref : nat) (requestId : string) (threshold : Threshold)
  | Aggregated (ref : nat) (requestId : string).

Definition world : Type := (SignatureManager * Env) * list pending.

(** One part of one call: a call that starts, ends at once or suspends, and a call that
    resumes. *)
Inductive step : world → world → Prop :=
  | create t w' rq h w ps : step (w, ps) ((createSignatureRequest t w' rq h w).2, ps)
  | cleanup w ps : step (w, ps) ((cleanupExpiredRequests w).2, ps)
  | collect_fails i sg w ps w' msg : collect_check i sg w = (Throw msg, w') → step (w, ps) (w', ps)
  | collect_starts i sg mh pk w ps w' ref : collect_check i sg w = (Ok ref, w') →
      step (w, ps) (w', ps ++ [Collecting ref i sg mh (generateSignature mh pk)])
  | collect_ends ps1 ref i sg mh x ps2 w v w1 : verifySignature mh x sg w = (Ok v, w1) →
      step (w, ps1 ++ Collecting ref i sg mh x :: ps2) ((collect_push ref i sg x v w1).2, ps1 ++ ps2)
  | execute_fails i w ps w' msg : execute_check i w = (Throw msg, w') → step (w, ps) (w', ps)
  | execute_starts i w ps w' ref t : execute_check i w = (Ok (ref, t), w') →
      step (w, ps) (w', ps ++ [Checked ref i t])
  | aggregate_fails ps1 ref i t ps2 w w' msg : execute_aggregate i t w = (Throw msg, w') →
      step (w, ps1 ++ Checked ref i t :: ps2) (w', ps1 ++ ps2)
  | aggregates ps1 ref i t ps2 w w' x : execute_aggregate i t w = (Ok x, w') →
      step (w, ps1 ++ Checked ref i t :: ps2) (w', ps1 ++ Aggregated ref i :: ps2)
  | executes ps1 ref i ps2 w :
      step (w, ps1 ++ Aggregated ref i :: ps2) ((execute_finish ref i w).2, ps1 ++ ps2).

Inductive reachable : world → Prop :=
  | loaded e : reachable ((constructor, e), [])
  | stepped w w' : reachable w → step w w' → reachable w'.

(** Whole calls, one after the other. *)
Inductive operation :=
  | Create (transactionId walletId : string) (requiredSignatures expiryHours : Z)
  | Collect (requestId signer messageHash privateKey : string)
  | Execute (requestId : string)
  | Cleanup.

Definition exec (o : operation) : M () :=
  match o with
  | Create t w r h => _ ← createSignatureRequest t w r h; mret ()
  | Collect i sg mh pk => _ ← collectSignature i sg mh pk; mret ()
  | Execute i => _ ← executeTransaction i; mret ()
  | Cleanup => _ ← cleanupExpiredRequests; mret ()
  end.

Inductive one_at_a_time : SignatureManager * Env → Prop :=
  | alone e : one_at_a_time (constructor, e)
  | next o w : one_at_a_time w → one_at_a_time (exec o w).2.
End Random.

Example hash1 : simpleHash "abc" = padStart 64 "17862".
Proof. vm_compute. reflexivity. Qed.

(** * Theorems *)

(** ** What each part does *)

(** Every reference is to an object. *)
Definition refs_valid (s : SignatureManager) : Prop :=
  ∀ k ref, (k, ref) ∈ signatureRequests s → (ref < length (heap s))%nat.

(** Objects stay; their threshold is fixed and their signatures only grow. *)
Definition evolves (s s' : SignatureManager) : Prop :=
  ∀ ref r, heap s !! ref = Some r →
    ∃ r', heap s' !! ref = Some r' ∧ requiredSignatures r' = requiredSignatures r ∧ count r <= count r'.

Lemma evolves_refl s : evolves s s.
Proof. intros ref r H. exists r. split; [done|split; [done|lia]]. Qed.
Lemma evolves_trans s1 s2 s3 : evolves s1 s2 → evolves s2 s3 → evolves s1 s3.
Proof.
  intros H12 H23 ref r H. destruct (H12 _ _ H) as (r2 & H2 & ? & ?). destruct (H23 _ _ H2) as (r3 & H3 & ? & ?).
  exists r3. split; [done|]. split; [congruence|lia].
Qed.
Lemma evolves_length s s' : evolves s s' → (length (heap s) <= length (heap s'))%nat.
Proof.
  intros H. destruct (decide (length (heap s) <= length (heap s'))%nat) as [|Hlt]; [done|].
  destruct (lookup_lt_is_Some_2 (heap s) (length (heap s'))) as [r Hr]; [lia|].
  destruct (H _ _ Hr) as (r' & Hr' & _). apply lookup_lt_Some in Hr'. lia.
Qed.

(** A property of the objects that a change of one of them keeps. *)
Definition all_objects (P : nat → SignatureRequest → Prop) (s : SignatureManager) : Prop :=
  refs_valid s ∧ ∀ ref r, heap s !! ref = Some r → P ref r.

Lemma update_ref_lookup f ref s k : heap (update_ref ref f s) !! k = if decide (k = ref) then f <$> heap s !! k else heap s !! k.
Proof. cbn. case_decide; subst; [apply list_lookup_alter_eq|by apply list_lookup_alter_ne]. Qed.

Lemma update_all P f ref s : all_objects P s → (∀ r, heap s !! ref = Some r → P ref r → P ref (f r)) → all_objects P (update_ref ref f s).
Proof.
  intros [Hv HP] Hf. split.
  - intros k x Hx. cbn. rewrite length_alter. by eapply Hv.
  - intros k r. rewrite update_ref_lookup. case_decide as E; subst; [|apply HP].
    intros (r0 & H0 & ->)%fmap_Some. apply Hf; [exact H0|by eapply HP].
Qed.

Lemma update_evolves f ref s :
  (∀ r, requiredSignatures (f r) = requiredSignatures r ∧ count r <= count (f r)) → evolves s (update_ref ref f s).
Proof.
  intros Hf k r H. rewrite update_ref_lookup. case_decide; subst; rewrite H; cbn.
  - exists (f r). split; [done|apply Hf].
  - exists r. split; [done|split; [done|lia]].
Qed.

Lemma set_request_all P k ref s : all_objects P s → (ref < length (heap s))%nat → all_objects P (set_request k ref s).
Proof.
  intros [Hv HP] Hr. split; [|exact HP]. intros k' ref' [[= -> ->]|H]%elem_of_map_set; [exact Hr|by eapply Hv].
Qed.

(** The state of the last step of the three updates: object [ref] changed, then [set]. *)
Definition change (k : string) (ref : nat) (f : SignatureRequest → SignatureRequest) (s : SignatureManager) : SignatureManager :=
  set_request k ref (update_ref ref f s).

Lemma change_all P k ref f s : all_objects P s → (ref < length (heap s))%nat →
  (∀ r, heap s !! ref = Some r → P ref r → P ref (f r)) → all_objects P (change k ref f s).
Proof.
  intros H Hr Hf. apply set_request_all; [by apply update_all|]. cbn. by rewrite length_alter.
Qed.

Lemma change_evolves k ref f s :
  (∀ r, requiredSignatures (f r) = requiredSignatures r ∧ count r <= count (f r)) → evolves s (change k ref f s).
Proof. intros Hf. exact (update_evolves f ref s Hf). Qed.

Lemma change_lookup k ref f s n : heap (change k ref f s) !! n = if decide (n = ref) then f <$> heap s !! n else heap s !! n.
Proof. apply update_ref_lookup. Qed.

Lemma deref_lookup s ref : (ref < length (heap s))%nat → heap s !! ref = Some (deref s ref).
Proof. intros H. unfold deref. apply lookup_lt_is_Some_2 in H as [r ->]. done. Qed.

Lemma find_request_inv i w r w' : find_request i w = (r, w') →
  w' = w ∧ ((∃ ref, r = Ok ref ∧ map_get i (signatureRequests w.1) = Some ref) ∨ ∃ msg, r = Throw msg).
Proof.
  unfold find_request. js_run. destruct (map_get i _) as [ref|] eqn:E; intros [= <- <-]; split; eauto.
Qed.

Lemma promote_fields r : requiredSignatures (promote r) = requiredSignatures r ∧
  collectedSignatures (promote r) = collectedSignatures r.
Proof. unfold promote. by case_match. Qed.

Lemma push_grows x r :
  requiredSignatures (promote (push_signature x r)) = requiredSignatures r ∧ count r <= count (promote (push_signature x r)).
Proof.
  unfold count. destruct (promote_fields (push_signature x r)) as [-> ->]. cbn. rewrite length_app. lia.
Qed.

Lemma status_grows st r : requiredSignatures (set_status st r) = requiredSignatures r ∧ count r <= count (set_status st r).
Proof. split; [done|]. unfold count. cbn. lia. Qed.

(** The state after a call whose result is dropped. *)
Lemma run_discard {A} (m : M A) w : (((_ ← m; mret ()) : M ()) w).2 = (m w).2.
Proof. unfold mbind, js_bind. by destruct (m w) as [[] ?]. Qed.

Section Facts.
Context (random : nat → num) (random16 : nat → string).

(** [collect_check] changes nothing but the status of an expired request. *)
Lemma collect_check_inv i sg w r w' : collect_check i sg w = (r, w') →
  (∃ ref, r = Ok ref ∧ w'.1 = w.1 ∧ map_get i (signatureRequests w.1) = Some ref ∧
     status (deref w.1 ref) = collecting ∧ sg ∉ (signerId <$> collectedSignatures (deref w.1 ref))) ∨
  (∃ msg, r = Throw msg ∧ (w'.1 = w.1 ∨ ∃ ref, map_get i (signatureRequests w.1) = Some ref ∧
     status (deref w.1 ref) = collecting ∧ w'.1 = change i ref (set_status expired) w.1)).
Proof.
  unfold collect_check. destruct (find_request i w) as [r0 w0] eqn:E.
  apply find_request_inv in E as E'. destruct E' as [-> [(ref & -> & Hi)|(msg & ->)]].
  2: { rewrite (run_Throw _ _ _ _ _ E). intros [= <- <-]. right. eauto. }
  rewrite (run_Ok _ _ _ _ _ E). unfold load. js_run. case_bool_decide as Hst; cbn [negb].
  2: { intros [= <- <-]. right. eauto. }
  js_run. destruct (_ <? _).
  - js_run. intros [= <- <-]. right. eexists. split; [done|]. right. eauto.
  - destruct (js_some _ _) eqn:Ex; intros [= <- <-]; [right; eauto|].
    left. exists ref. split; [done|]. split; [done|]. split; [done|]. split; [done|].
    intros (x & -> & Hx)%list_elem_of_fmap. rewrite js_some_false in Ex. specialize (Ex x Hx).
    by rewrite str_eqb_refl in Ex.
Qed.

Lemma execute_check_inv i w r w' : execute_check i w = (r, w') →
  w' = w ∧ ((∃ msg, r = Throw msg) ∨ ∃ ref t, r = Ok (ref, t) ∧ map_get i (signatureRequests w.1) = Some ref ∧
    status (deref w.1 ref) = ready).
Proof.
  unfold execute_check, checkThreshold. destruct (find_request i w) as [r0 w0] eqn:E.
  apply find_request_inv in E as E'. destruct E' as [-> [(ref & -> & Hi)|(msg & ->)]].
  2: { rewrite (run_Throw _ _ _ _ _ E). intros [= <- <-]. eauto. }
  rewrite (run_Ok _ _ _ _ _ E). unfold load. js_run. case_bool_decide as Hst; cbn [negb].
  2: { intros [= <- <-]. eauto. }
  rewrite run_bind, (run_Ok _ _ _ _ _ E). js_run. intros [= <- <-]. eauto 8.
Qed.

Lemma execute_aggregate_inv i t w r w' : execute_aggregate i t w = (r, w') → w' = w.
Proof.
  unfold execute_aggregate, aggregateSignatures. case_match; [by intros [= _ <-]|].
  destruct (find_request i w) as [r0 w0] eqn:E. apply find_request_inv in E as E'.
  destruct E' as [-> [(ref & -> & _)|(msg & ->)]].
  - rewrite (run_Ok _ _ _ _ _ E). unfold load. js_run. case_match; by intros [= _ <-].
  - rewrite (run_Throw _ _ _ _ _ E). by intros [= _ <-].
Qed.

Lemma collect_push_run ref i sg x v w :
  ∃ now, collect_push ref i sg x v w =
    (Ok (x, v), (change i ref (λ r, promote (push_signature (MkSignature sg x now v) r)) w.1, tick w.2)).
Proof. exists (clock w.2 (ticks w.2)). unfold collect_push. js_run. reflexivity. Qed.

Lemma create_run t wl rq h w : ∃ r e', createSignatureRequest t wl rq h w =
    (Ok r, (MkManager (heap w.1 ++ [r]) (map_set (id r) (length (heap w.1)) (signatureRequests w.1)), e')) ∧
    requiredSignatures r = rq ∧ collectedSignatures r = [] ∧ status r = collecting.
Proof. eexists (MkRequest _ _ _ _ _ _ _ _), _. unfold createSignatureRequest. js_run. split; [reflexivity|done]. Qed.

Lemma create_all P t wl rq h w : all_objects P w.1 →
  (∀ r, requiredSignatures r = rq → collectedSignatures r = [] → status r = collecting → P (length (heap w.1)) r) →
  all_objects P (createSignatureRequest t wl rq h w).2.1.
Proof.
  intros [Hv HP] Hnew. destruct (create_run t wl rq h w) as (r & e' & -> & Hrq & Hcs & Hst). cbn. split; cbn.
  - intros k ref [[= -> ->]|H]%elem_of_map_set; cbn; rewrite length_app; cbn; [lia|].
    specialize (Hv _ _ H). lia.
  - intros ref r0 [H|[Hle H]]%lookup_app_Some; [by eapply HP|].
    destruct (ref - length (heap w.1))%nat eqn:E; [|done]. injection H as <-.
    replace ref with (length (heap w.1)) by lia. by apply Hnew.
Qed.

Lemma create_evolves t wl rq h w : evolves w.1 (createSignatureRequest t wl rq h w).2.1.
Proof.
  destruct (create_run t wl rq h w) as (r & e' & -> & _). intros ref r0 H. exists r0.
  split; [by apply lookup_app_l_Some|split; [done|lia]].
Qed.

(** The loop of [cleanupExpiredRequests] is a sequence of changes. *)
Lemma cleanup_all P now l n w :
  (∀ ref r, status r = collecting → P ref r → P ref (set_status expired r)) →
  all_objects P w.1 → (∀ k ref, (k, ref) ∈ l → (ref < length (heap w.1))%nat) →
  all_objects P (cleanup_loop now l n w).2.1 ∧ evolves w.1 (cleanup_loop now l n w).2.1.
Proof.
  intros HPe. revert n w. induction l as [|[k ref] l IH]; intros n w HP Hl.
  { split; [done|apply evolves_refl]. }
  cbn [cleanup_loop]. unfold load. js_run.
  assert (ref < length (heap w.1))%nat as Href by (eapply Hl; left).
  destruct (_ && _) eqn:E.
  - js_run. apply andb_true_iff in E as [_ E]. apply bool_decide_eq_true in E.
    change (set_request k ref (update_ref ref (set_status expired) w.1)) with (change k ref (set_status expired) w.1).
    set (w1 := (change k ref (set_status expired) w.1, w.2)).
    assert (evolves w.1 w1.1) as Hev by (apply change_evolves; intros; apply status_grows).
    destruct (IH (n + 1) w1) as [H1 H2].
    + apply change_all; [done|done|]. intros r Hr. apply HPe.
      rewrite (deref_lookup _ _ Href) in Hr. congruence.
    + intros k' ref' H. apply evolves_length in Hev. specialize (Hl k' ref' ltac:(by right)). lia.
    + split; [exact H1|]. eapply evolves_trans; [exact Hev|exact H2].
  - apply IH; [done|]. intros k' ref' H. eapply Hl. by right.
Qed.

(** ** Any interleaving: a request that is ready has reached its threshold *)

Definition reached_ok (r : SignatureRequest) : Prop :=
  status r = ready ∨ status r = executed → requiredSignatures r <= count r.

(** A suspended call holds a real object; one that will execute it, an object that has
    reached its threshold. *)
Definition pending_ok (s : SignatureManager) (p : pending) : Prop :=
  match p with
  | Collecting ref _ _ _ _ => is_Some (heap s !! ref)
  | Checked ref _ _ | Aggregated ref _ => ∃ r, heap s !! ref = Some r ∧ requiredSignatures r <= count r
  end.

Definition consistent (s : SignatureManager) (ps : list pending) : Prop :=
  all_objects (λ _, reached_ok) s ∧ Forall (pending_ok s) ps.

Lemma pending_evolves s s' p : evolves s s' → pending_ok s p → pending_ok s' p.
Proof.
  intros Hev. destruct p as [ref ? ? ? ?|ref ? ?|ref ?]; cbn.
  - intros [r H]. destruct (Hev _ _ H) as (r' & H' & _). by exists r'.
  - intros (r & H & ?). destruct (Hev _ _ H) as (r' & H' & ? & ?). exists r'. split; [done|lia].
  - intros (r & H & ?). destruct (Hev _ _ H) as (r' & H' & ? & ?). exists r'. split; [done|lia].
Qed.

Lemma consistent_evolves s s' ps : evolves s s' → all_objects (λ _, reached_ok) s' → Forall (pending_ok s) ps →
  consistent s' ps.
Proof. intros Hev Hall Hps. split; [exact Hall|]. eapply Forall_impl; [exact Hps|]. intros p. by apply pending_evolves. Qed.

Lemma map_get_valid s i ref : refs_valid s → map_get i (signatureRequests s) = Some ref → (ref < length (heap s))%nat.
Proof. intros H Hi. eapply H, map_get_Some_elem, Hi. Qed.

Lemma promote_ok r : reached_ok (promote r) ∨ promote r = r.
Proof.
  unfold promote. destruct (_ && _) eqn:E; [|by right]. left. intros _. apply andb_true_iff in E as [E _].
  by apply Z.leb_le in E.
Qed.

Lemma collect_check_consistent i sg w r w' ps : collect_check i sg w = (r, w') → consistent w.1 ps → consistent w'.1 ps.
Proof.
  intros [(ref & _ & -> & _)|(msg & _ & [->|(ref & Hi & _ & ->)])]%collect_check_inv [Hall Hps]; [done|done|].
  pose proof (map_get_valid _ _ _ (proj1 Hall) Hi).
  eapply consistent_evolves; [|apply change_all; [exact Hall|done|]|exact Hps].
  - apply change_evolves. intros. apply status_grows.
  - intros r0 _ _ [Hr|Hr]; discriminate Hr.
Qed.

Lemma collect_push_consistent ref i sg x v w ps : is_Some (heap w.1 !! ref) →
  consistent w.1 ps → consistent (collect_push ref i sg x v w).2.1 ps.
Proof.
  intros Href%lookup_lt_is_Some_1 [Hall Hps]. destruct (collect_push_run ref i sg x v w) as [now ->]. cbn [fst snd].
  eapply consistent_evolves; [|apply change_all; [exact Hall|exact Href|]|exact Hps].
  - apply change_evolves. intros. apply push_grows.
  - intros r _ Hr. destruct (promote_ok (push_signature (MkSignature sg x now v) r)) as [H|H]; [exact H|].
    rewrite H. intros Hst. specialize (Hr Hst). unfold count in *. cbn. rewrite length_app. lia.
Qed.

Lemma execute_finish_consistent ref i w ps : pending_ok w.1 (Aggregated ref i) →
  consistent w.1 ps → consistent (execute_finish random16 ref i w).2.1 ps.
Proof.
  intros (r & Hr & Hc) [Hall Hps]. cbn [execute_finish fst snd].
  change (set_request i ref (update_ref ref (set_status executed) w.1)) with (change i ref (set_status executed) w.1).
  eapply consistent_evolves; [|apply change_all; [exact Hall|by eapply lookup_lt_Some|]|exact Hps].
  - apply change_evolves. intros. apply status_grows.
  - intros r0 Hr0 _ _. unfold count in *. cbn. congruence.
Qed.

Lemma step_consistent w w' : step random random16 w w' → consistent w.1.1 w.2 → consistent w'.1.1 w'.2.
Proof.
  intros Hstep Hc. pose proof Hc as [Hall Hps].
  destruct Hstep as [t wl rq h w ps|w ps|i sg w ps w' msg H|i sg mh pk w ps w' ref H|ps1 ref i sg mh x ps2 w v w1 H
    |i w ps w' msg H|i w ps w' ref t H|ps1 ref i t ps2 w w' msg H|ps1 ref i t ps2 w w' x H|ps1 ref i ps2 w]; cbn [fst snd] in *.
  - eapply consistent_evolves; [apply create_evolves| |exact Hps].
    apply create_all; [exact Hall|]. intros r _ _ Hst [Hr|Hr]; congruence.
  - unfold cleanupExpiredRequests. js_run. cbn [fst snd].
    edestruct (cleanup_all (λ _, reached_ok)) as [H1 H2]; [| | |eapply consistent_evolves; [exact H2|exact H1|exact Hps]].
    + intros ref r _ _ [Hr|Hr]; discriminate Hr.
    + exact Hall.
    + apply Hall.
  - by eapply collect_check_consistent.
  - destruct (collect_check_consistent _ _ _ _ _ _ H Hc) as [Hall' Hps']. split; [exact Hall'|].
    apply Forall_app_2; [exact Hps'|]. constructor; [|constructor].
    apply collect_check_inv in H as [(ref' & [= <-] & Hw & Hi & _)|(? & ? & _)]; [|done]. cbn.
    rewrite Hw. apply lookup_lt_is_Some_2. eapply map_get_valid; [apply Hall|exact Hi].
  - apply Forall_app in Hps as [Hps1 [Hp Hps2]%Forall_cons]. injection H as <- <-.
    apply (collect_push_consistent ref i sg x _ (w.1, draw w.2)); [exact Hp|].
    split; [exact Hall|by apply Forall_app_2].
  - apply execute_check_inv in H as [-> _]. exact Hc.
  - apply execute_check_inv in H as [-> [(? & ?)|(ref' & t' & [= <- <-] & Hi & Hst)]]; [done|].
    split; [exact Hall|]. apply Forall_app_2; [exact Hps|]. constructor; [|constructor].
    exists (deref w.1 ref). assert (heap w.1 !! ref = Some (deref w.1 ref)) as Hr.
    { apply deref_lookup. eapply map_get_valid; [apply Hall|exact Hi]. }
    split; [exact Hr|]. eapply (proj2 Hall); [exact Hr|by left].
  - apply execute_aggregate_inv in H as ->. split; [exact Hall|].
    apply Forall_app in Hps as [? [_ ?]%Forall_cons]. by apply Forall_app_2.
  - apply execute_aggregate_inv in H as ->. split; [exact Hall|].
    apply Forall_app in Hps as [? [Hp ?]%Forall_cons]. apply Forall_app_2; [done|]. by constructor.
  - apply Forall_app in Hps as [? [Hp ?]%Forall_cons]. apply execute_finish_consistent; [exact Hp|].
    split; [exact Hall|by apply Forall_app_2].
Qed.

(** C21: however the calls interleave, a request that is ready or executed has at least as many
    signatures as it requires. *)
Theorem ready_reached_threshold w ref r : reachable random random16 w → heap w.1.1 !! ref = Some r →
  status r = ready ∨ status r = executed → requiredSignatures r <= count r.
Proof.
  intros Hw Hr. assert (consistent w.1.1 w.2) as [Hall _]; [|by eapply (proj2 Hall)].
  clear Hr. induction Hw as [e|w w' _ IH Hs].
  - split; [|constructor]. split; [intros ? ? H; by apply not_elem_of_nil in H|done].
  - by eapply step_consistent.
Qed.

(** ** One unverified signature blocks a request for ever *)

Definition unverified (r : SignatureRequest) : Prop := ∃ x, x ∈ collectedSignatures r ∧ verified x = false.

Lemma unverified_all r : unverified r → all_verified r = false.
Proof.
  intros (x & Hx & Hv). unfold all_verified. destruct (forallb verified _) eqn:E; [|done].
  rewrite forallb_forall in E. specialize (E x). rewrite Hv in E. symmetry. apply E. by apply list_elem_of_In.
Qed.

Definition blocked (r : SignatureRequest) : Prop :=
  unverified r ∧ (status r = collecting ∨ status r = expired).

Definition pending_valid (s : SignatureManager) (p : pending) : Prop :=
  match p with Collecting k _ _ _ _ | Checked k _ _ | Aggregated k _ => (k < length (heap s))%nat end.

(** Suspended calls that would execute the object [ref]. *)
Definition not_executing (ref : nat) (p : pending) : Prop :=
  match p with Collecting _ _ _ _ _ => True | Checked k _ _ | Aggregated k _ => k ≠ ref end.

(** The object [ref] is blocked; nothing is said of the others. *)
Definition blocked_at (ref k : nat) (r : SignatureRequest) : Prop := k = ref → blocked r.

Definition stuck (ref : nat) (w : world) : Prop :=
  all_objects (blocked_at ref) w.1.1 ∧ (ref < length (heap w.1.1))%nat ∧
  Forall (pending_valid w.1.1) w.2 ∧ Forall (not_executing ref) w.2.

Lemma blocked_push x r : blocked r → blocked (promote (push_signature x r)).
Proof.
  intros [(y & Hy & Hv) Hst]. assert (unverified (push_signature x r)) as Hu.
  { exists y. split; [|done]. cbn. apply elem_of_app. by left. }
  unfold promote. rewrite (unverified_all _ Hu), andb_false_r. by split.
Qed.
Lemma blocked_status st r : st = collecting ∨ st = expired → blocked r → blocked (set_status st r).
Proof. intros Hst [Hu _]. by split. Qed.

(** A part that keeps the objects blocked and the references valid keeps the calls suspended. *)
Lemma stuck_evolves ref s s' e e' ps ps' : stuck ref ((s, e), ps) → evolves s s' → all_objects (blocked_at ref) s' →
  (∀ p, p ∈ ps' → p ∈ ps ∨ (pending_valid s' p ∧ not_executing ref p)) → stuck ref ((s', e'), ps').
Proof.
  intros (_ & Hr & Hps & Hne) Hev%evolves_length Hall Hin. cbn [fst snd] in *. rewrite Forall_forall in Hps, Hne.
  split; [exact Hall|]. split; [cbn; lia|].
  split; apply Forall_forall; intros p Hp; destruct (Hin p Hp) as [H|[? ?]]; try done; [|by apply Hne].
  specialize (Hps p H). destruct p; cbn in *; lia.
Qed.

Lemma step_stuck ref w w' : step random random16 w w' → stuck ref w → stuck ref w'.
Proof.
  intros Hstep Hs. pose proof Hs as (Hall & Hlt & Hps & Hne).
  destruct Hstep as [t wl rq h [s e] ps|[s e] ps|i sg [s e] ps [s' e'] msg H|i sg mh pk [s e] ps [s' e'] k H
    |ps1 k i sg mh x ps2 [s e] v w1 H|i [s e] ps [s' e'] msg H|i [s e] ps [s' e'] k t H
    |ps1 k i t ps2 [s e] [s' e'] msg H|ps1 k i t ps2 [s e] [s' e'] x H|ps1 k i ps2 [s e]]; cbn [fst snd] in *.
  - pose proof (create_evolves t wl rq h (s, e)) as Hev.
    assert (all_objects (blocked_at ref) (createSignatureRequest t wl rq h (s, e)).2.1) as Hall'.
    { apply create_all; [exact Hall|]. cbn. intros r _ _ _ Hk. cbn in Hk. exfalso. lia. }
    destruct (createSignatureRequest _ _ _ _ (s, e)) as [? [s' e']]. eapply stuck_evolves; eauto.
  - unfold cleanupExpiredRequests. js_run. cbn [fst snd].
    destruct (cleanup_all (blocked_at ref) (clock e (ticks e)) (signatureRequests s) 0 (s, tick e)) as [H1 H2];
      [intros k r _ Hb Hk; apply blocked_status; [by right|by apply Hb]|exact Hall|apply Hall|].
    destruct (cleanup_loop _ _ _ _) as [? [s' e']]. eapply stuck_evolves; eauto.
  - apply collect_check_inv in H. cbn [fst] in H.
    destruct H as [(? & ? & _)|(? & _ & [->|(k & Hi & _ & ->)])]; [done|exact Hs|].
    pose proof (map_get_valid _ _ _ (proj1 Hall) Hi).
    eapply stuck_evolves; [exact Hs|apply change_evolves; intros; apply status_grows| |by left].
    apply change_all; [exact Hall|done|]. intros r _ Hb Hk. apply blocked_status; [by right|by apply Hb].
  - apply collect_check_inv in H as [(? & [= <-] & Hw & Hi & _)|(? & ? & _)]; [|done]. cbn in Hw. subst s'.
    eapply stuck_evolves; [exact Hs|apply evolves_refl|exact Hall|].
    intros p [Hp|Hp]%elem_of_app; [by left|]. apply list_elem_of_singleton in Hp as ->. right. split; [|done].
    cbn. eapply map_get_valid; [apply Hall|exact Hi].
  - injection H as <- <-. destruct (collect_push_run k i sg x (SFltb (lit 5 2) (random (draws e))) (s, draw e)) as [now ->].
    cbn [fst snd]. assert (k < length (heap s))%nat as Hk.
    { apply Forall_app in Hps as [_ [Hp _]%Forall_cons]. exact Hp. }
    eapply stuck_evolves; [exact Hs|apply change_evolves; intros; apply push_grows| |].
    + apply change_all; [exact Hall|exact Hk|]. intros r _ Hb E. apply blocked_push. by apply Hb.
    + intros p Hp. left. rewrite elem_of_app in *. rewrite elem_of_cons. tauto.
  - apply execute_check_inv in H as [[= -> ->] _]. exact Hs.
  - apply execute_check_inv in H as [[= -> ->] [(? & ?)|(k' & t' & [= <- <-] & Hi & Hst)]]; [done|]. cbn in Hi, Hst.
    pose proof (map_get_valid _ _ _ (proj1 Hall) Hi) as Hk. apply deref_lookup in Hk.
    assert (k ≠ ref) as Hkr.
    { intros ->. destruct (proj2 Hall _ _ Hk eq_refl) as [_ [?|?]]; congruence. }
    eapply stuck_evolves; [exact Hs|apply evolves_refl|exact Hall|].
    intros p [Hp|Hp]%elem_of_app; [by left|]. apply list_elem_of_singleton in Hp as ->. right.
    split; [|exact Hkr]. by apply lookup_lt_Some in Hk.
  - apply execute_aggregate_inv in H as [= -> ->].
    eapply stuck_evolves; [exact Hs|apply evolves_refl|exact Hall|].
    intros p Hp. left. rewrite elem_of_app in *. rewrite elem_of_cons. tauto.
  - apply execute_aggregate_inv in H as [= -> ->].
    apply Forall_app in Hps as [_ [Hk _]%Forall_cons]. apply Forall_app in Hne as [_ [Hkr _]%Forall_cons].
    eapply stuck_evolves; [exact Hs|apply evolves_refl|exact Hall|].
    intros p Hp. rewrite elem_of_app, elem_of_cons in *. destruct Hp as [Hp|[->|Hp]]; [tauto|by right|tauto].
  - apply Forall_app in Hps as [_ [Hk _]%Forall_cons]. apply Forall_app in Hne as [_ [Hkr _]%Forall_cons].
    eapply stuck_evolves; [exact Hs|apply (change_evolves i k (set_status executed)); intros; apply status_grows| |].
    + apply change_all; [exact Hall|exact Hk|]. intros r _ _ E. done.
    + intros p Hp. left. rewrite elem_of_app in *. rewrite elem_of_cons. tauto.
Qed.

(** once one signature of a request that is still collecting (or has expired) failed its
    verification, and no call is executing it, no interleaving of later calls makes the
    request ready or executes it: there is no way to replace a signature. *)
Theorem unverified_blocks ref w w' r : rtc (step random random16) w w' → stuck ref w →
  heap w'.1.1 !! ref = Some r → status r = collecting ∨ status r = expired.
Proof.
  intros Hsteps Hs Hr. assert (stuck ref w') as ((_ & Hall) & _).
  { clear Hr. induction Hsteps as [|w1 w2 w3 H _ IH]; [done|]. by eapply IH, step_stuck. }
  by apply (Hall ref r Hr).
Qed.

(** ** Whole calls, one at a time *)

(** Signers are distinct, and a request that is ready or executed has its signatures verified. *)
Definition sound (_ : nat) (r : SignatureRequest) : Prop :=
  NoDup (signerId <$> collectedSignatures r) ∧
  (status r = ready ∨ status r = executed → requiredSignatures r <= count r ∧ all_verified r = true).

Lemma sound_status ref st r : st = collecting ∨ st = expired → sound ref r → sound ref (set_status st r).
Proof. intros Hst [Hnd _]. split; [exact Hnd|]. cbn. intros [->| ->]; by destruct Hst. Qed.

Lemma sound_push ref x r : status r = collecting → signerId x ∉ (signerId <$> collectedSignatures r) →
  sound ref r → sound ref (promote (push_signature x r)).
Proof.
  intros Hst Hx [Hnd _]. split.
  - destruct (promote_fields (push_signature x r)) as [_ ->]. cbn. rewrite fmap_app.
    apply NoDup_app. split; [exact Hnd|]. split; [|apply NoDup_singleton].
    intros y Hy ->%list_elem_of_singleton. by apply Hx.
  - unfold promote. destruct (_ && _) eqn:E; [|cbn; intros [?|?]; congruence].
    intros _. apply andb_true_iff in E as [E1%Z.leb_le E2]. by split.
Qed.

Lemma collect_sound i sg mh pk w : all_objects sound w.1 →
  all_objects sound (collectSignature random i sg mh pk w).2.1.
Proof.
  intros Hall. unfold collectSignature. destruct (collect_check i sg w) as [[ref|msg] [s e]] eqn:E.
  - rewrite (run_Ok _ _ _ _ _ E). apply collect_check_inv in E. cbn [fst] in E.
    destruct E as [(? & [= <-] & -> & Hi & Hst & Hsg)|(? & ? & _)]; [|done].
    pose proof (map_get_valid _ _ _ (proj1 Hall) Hi) as Hk.
    cbv zeta. erewrite run_Ok by reflexivity.
    edestruct collect_push_run as [now ->]. cbn [fst snd].
    apply change_all; [exact Hall|exact Hk|]. intros r Hr. rewrite (deref_lookup _ _ Hk) in Hr.
    injection Hr as <-. by apply sound_push.
  - rewrite (run_Throw _ _ _ _ _ E). apply collect_check_inv in E. cbn [fst] in E.
    destruct E as [(? & ? & _)|(? & _ & [->|(ref & Hi & _ & ->)])]; [done|exact Hall|].
    cbn [fst snd]. apply change_all; [exact Hall|eapply map_get_valid; [apply Hall|exact Hi]|].
    intros r _. apply sound_status. by right.
Qed.

Lemma execute_sound i w : all_objects sound w.1 → all_objects sound (executeTransaction random16 i w).2.1.
Proof.
  intros Hall. unfold executeTransaction. destruct (execute_check i w) as [[[ref t]|msg] w1] eqn:E.
  - rewrite (run_Ok _ _ _ _ _ E). apply execute_check_inv in E as [-> [(? & ?)|(? & ? & [= <- <-] & Hi & Hst)]]; [done|].
    pose proof (map_get_valid _ _ _ (proj1 Hall) Hi) as Hk.
    cbn [fst snd]. destruct (execute_aggregate i t w) as [[x|msg] w2] eqn:Ea;
      apply execute_aggregate_inv in Ea as E'; subst w2.
    + rewrite (run_Ok _ _ _ _ _ Ea). cbn [execute_finish fst snd].
      apply (change_all sound i ref (set_status executed)); [exact Hall|exact Hk|].
      intros r Hr. rewrite (deref_lookup _ _ Hk) in Hr. injection Hr as <-. intros [Hnd Hrd].
      split; [exact Hnd|]. intros _. apply Hrd. by left.
    + by rewrite (run_Throw _ _ _ _ _ Ea).
  - rewrite (run_Throw _ _ _ _ _ E). by apply execute_check_inv in E as [-> _].
Qed.

Lemma exec_sound o w : all_objects sound w.1 → all_objects sound (exec random random16 o w).2.1.
Proof.
  intros Hall. destruct o as [t wl rq h|i sg mh pk|i|]; cbn [exec]; (rewrite run_discard).
  - apply create_all; [exact Hall|]. intros r _ Hc Hst. split; [rewrite Hc; apply NoDup_nil_2|].
    intros [?|?]; congruence.
  - by apply collect_sound.
  - by apply execute_sound.
  - unfold cleanupExpiredRequests. js_run. cbn [fst snd].
    refine (proj1 (cleanup_all sound _ _ _ (w.1, tick w.2) _ Hall (proj1 Hall))).
    intros ref r _. apply sound_status. by right.
Qed.

(** when every call finishes before the next one starts, no signer counts twice, and a
    request is ready or executed only with enough signatures, all of them verified. *)
Theorem sequential_calls_sound w ref r : one_at_a_time random random16 w → heap w.1 !! ref = Some r →
  NoDup (signerId <$> collectedSignatures r) ∧
  (status r = ready ∨ status r = executed → requiredSignatures r <= count r ∧ all_verified r = true).
Proof.
  intros Hw. assert (all_objects sound w.1) as [_ Hall]; [|by apply Hall].
  induction Hw as [e|o w _ IH]; [|by apply exec_sound].
  split; [intros ? ? H; by apply not_elem_of_nil in H|done].
Qed.
End Facts.

(** ** One signer alone *)

Section Alone.
Context (random : nat → num) (random16 : nat → string) (ref : nat) (i sg mh pk : string).
Abbreviation call_of_sg := (Collecting ref i sg mh (generateSignature mh pk)).

Lemma check_passes s e r : map_get i (signatureRequests s) = Some ref → heap s !! ref = Some r → status r = collecting →
  clock e (ticks e) <= expiryDate r → sg ∉ (signerId <$> collectedSignatures r) → collect_check i sg (s, e) = (Ok ref, (s, tick e)).
Proof.
  intros Hi Hr Hs He Hsg. unfold collect_check, find_request. js_run. rewrite Hi. js_run. unfold load. js_run. unfold deref. rewrite Hr. cbn [default].
  rewrite bool_decide_eq_true_2 by done. cbn [negb]. js_run. cbn. replace (expiryDate r <? clock e (ticks e)) with false by lia.
  assert (js_some (λ x, str_eqb (signerId x) sg) (collectedSignatures r) = false) as E; [|by rewrite E].
  apply js_some_false. intros x Hx. apply str_eqb_false. intros <-. apply Hsg, list_elem_of_fmap. by exists x.
Qed.

(** Calls of [sg] that start before any of them has pushed all pass the check. *)
Lemma calls_start n ps s e r : map_get i (signatureRequests s) = Some ref → heap s !! ref = Some r → status r = collecting →
  (∀ k, (k < n)%nat → reading e k <= expiryDate r) → sg ∉ (signerId <$> collectedSignatures r) →
  ∃ e', rtc (step random random16) ((s, e), ps) ((s, e'), ps ++ replicate n call_of_sg).
Proof.
  intros Hi Hr Hs He Hsg. revert ps e He. induction n as [|n IH]; intros ps e He; [exists e; cbn; by rewrite app_nil_r|].
  destruct (IH (ps ++ [call_of_sg]) (tick e)) as [e' H].
  { intros k Hk. specialize (He (S k) ltac:(lia)). unfold reading in *. cbn. by replace (S (ticks e + k)) with (ticks e + S k)%nat by lia. }
  exists e'. rewrite <- app_assoc in H. eapply rtc_l; [|exact H]. apply collect_starts. eapply check_passes; [done..| |done].
  specialize (He 0%nat ltac:(lia)). unfold reading in He. by rewrite Nat.add_0_r in He.
Qed.

(** Each of them then pushes its signature, until the threshold is reached. *)
Lemma calls_end n ps s e r : heap s !! ref = Some r → status r = collecting → all_verified r = true →
  requiredSignatures r = count r + Z.of_nat (S n) → (∀ k, SFltb (lit 5 2) (random k) = true) →
  ∃ w' r', rtc (step random random16) ((s, e), ps ++ replicate (S n) call_of_sg) (w', ps) ∧ heap w'.1 !! ref = Some r' ∧ status r' = ready ∧
    requiredSignatures r' = requiredSignatures r ∧ signerId <$> collectedSignatures r' = (signerId <$> collectedSignatures r) ++ replicate (S n) sg.
Proof.
  intros Hr Hs Hv Hn Hl. revert s e r Hr Hs Hv Hn. induction n as [|n IH]; intros s e r Hr Hs Hv Hn;
    destruct (collect_push_run ref i sg (generateSignature mh pk) true (s, draw e)) as [now Hp]; cbn [fst snd] in Hp;
    set (r1 := push_signature (MkSignature sg (generateSignature mh pk) now true) r) in *;
    assert (count r1 = count r + 1) as Hc1 by (unfold count, r1; cbn; rewrite length_app; cbn; lia);
    assert (all_verified r1 = true) as Hv1 by (unfold all_verified, r1; cbn; rewrite forallb_app; cbn; unfold all_verified in Hv; by rewrite Hv).
  - assert (promote r1 = set_status ready r1) as Hpr.
    { unfold promote. rewrite Hv1, andb_true_r. change (requiredSignatures r1) with (requiredSignatures r). by replace (_ <=? _) with true by lia. }
    eexists _, (set_status ready r1). split.
    + eapply rtc_l; [|apply rtc_refl]. cbn [replicate]. rewrite <- (app_nil_r ps) at 2.
      eapply (collect_ends random random16 ps ref i sg mh (generateSignature mh pk) [] (s, e) true (s, draw e)). unfold verifySignature. cbn. by rewrite Hl.
    + rewrite Hp. cbn [fst snd]. rewrite change_lookup, decide_True, Hr by done. cbn [fmap option_fmap option_map]. fold r1. rewrite Hpr.
      split; [done|]. split; [done|]. split; [done|]. cbn. by rewrite fmap_app.
  - assert (promote r1 = r1) as Hpr.
    { unfold promote. change (requiredSignatures r1) with (requiredSignatures r). by replace (_ <=? _) with false by lia. }
    destruct (IH (change i ref (λ r, promote (push_signature (MkSignature sg (generateSignature mh pk) now true) r)) s) (tick (draw e)) r1) as (w' & r' & H & Hr' & Hs' & Hq & Hc).
    + rewrite change_lookup, decide_True, Hr by done. cbn [fmap option_fmap option_map]. fold r1. by rewrite Hpr.
    + done.
    + done.
    + change (requiredSignatures r1) with (requiredSignatures r). lia.
    + exists w', r'. split; [|split; [done|split; [done|split; [done|]]]].
      * eapply rtc_l; [|exact H]. change (replicate (S (S n)) call_of_sg) with (call_of_sg :: replicate (S n) call_of_sg).
        assert ((change i ref (λ r, promote (push_signature (MkSignature sg (generateSignature mh pk) now true) r)) s, tick (draw e)) =
          (collect_push ref i sg (generateSignature mh pk) true (s, draw e)).2) as -> by (by rewrite Hp).
        apply (collect_ends random random16). unfold verifySignature. cbn. by rewrite Hl.
      * rewrite Hc. cbn. rewrite fmap_app, <- app_assoc. done.
Qed.

(** C22: One signer can reach any threshold alone, since the check that a signer is new is not repeated after the awaits:
    from every reachable state with a request that collects, whose signatures are all verified and that the signer has not
    signed, and before it expires, a state can be reached in which it is ready and every missing signature is his. (His
    calls start before the first of them ends.) The check of a signature is a draw, which passes here each time. *)
Theorem one_signer_reaches_threshold w ps r : reachable random random16 (w, ps) →
  map_get i (signatureRequests w.1) = Some ref → heap w.1 !! ref = Some r → status r = collecting →
  sg ∉ (signerId <$> collectedSignatures r) → all_verified r = true → count r < requiredSignatures r →
  (∀ k, Z.of_nat k < requiredSignatures r - count r → reading w.2 k <= expiryDate r) → (∀ k, SFltb (lit 5 2) (random k) = true) →
  ∃ w' r', reachable random random16 (w', ps) ∧ heap w'.1 !! ref = Some r' ∧ status r' = ready ∧ requiredSignatures r' = requiredSignatures r ∧
    signerId <$> collectedSignatures r' = (signerId <$> collectedSignatures r) ++ replicate (Z.to_nat (requiredSignatures r - count r)) sg.
Proof.
  intros Hreach Hi Hr Hs Hsg Hv Hc He Hl. destruct w as [s e]. cbn [fst snd] in *.
  destruct (Z.to_nat (requiredSignatures r - count r)) as [|n] eqn:En; [lia|].
  destruct (calls_start (S n) ps s e r Hi Hr Hs) as [e' H1]; [intros k Hk; apply He; lia|done|].
  destruct (calls_end n ps s e' r Hr Hs Hv ltac:(lia) Hl) as (w' & r' & H2 & Hr' & Hs' & Hq & Hcs). exists w', r'. split; [|done].
  assert (∀ a b, rtc (step random random16) a b → reachable random random16 a → reachable random random16 b) as Hrtc.
  { induction 1 as [|a b c Hab _ IH]; [done|]. intros Ha. apply IH. by eapply stepped. }
  eapply Hrtc; [exact H2|]. by eapply Hrtc.
Qed.
End Alone.

(** ** Runs *)

Definition lucky : nat → num := λ _, lit 5 1.
Definition hex_draws (n : nat) : string := String (hex_digit (Z.of_nat n mod 16)) "".
Definition req1 : string := "sig_req_1700000000000_ra".

Definition created : world := ((createSignatureRequest "tx" "w" 2 72 (constructor, demo_env)).2, []).

Lemma created_reachable : reachable lucky hex_draws created.
Proof. eapply stepped; [apply loaded|apply create]. Qed.

(** Two calls of one signer, the second started before the first has pushed its signature. *)
Definition both_checked : world :=
  (((collect_check req1 "alice" (collect_check req1 "alice" created.1).2).2),
   [Collecting 0 req1 "alice" "m" (generateSignature "m" "k"); Collecting 0 req1 "alice" "m" (generateSignature "m" "k")]).

Definition both_pushed : world :=
  let push w := (collect_push 0 req1 "alice" (generateSignature "m" "k") true (w.1, draw w.2)).2 in
  (push (push both_checked.1), []).

Lemma both_pushed_reachable : reachable lucky hex_draws both_pushed.
Proof.
  assert (reachable lucky hex_draws both_checked) as H.
  { eapply stepped; [eapply stepped; [apply created_reachable|]|].
    - apply (collect_starts lucky hex_draws req1 "alice" "m" "k" created.1 [] (collect_check req1 "alice" created.1).2 0).
      vm_compute. reflexivity.
    - apply (collect_starts lucky hex_draws req1 "alice" "m" "k" (collect_check req1 "alice" created.1).2
        [Collecting 0 req1 "alice" "m" (generateSignature "m" "k")] both_checked.1 0).
      vm_compute. reflexivity. }
  eapply stepped; [eapply stepped; [exact H|]|].
  - apply (collect_ends lucky hex_draws [] 0 req1 "alice" "m" _ [Collecting 0 req1 "alice" "m" (generateSignature "m" "k")]).
    reflexivity.
  - eapply (collect_ends lucky hex_draws [] 0 req1 "alice" "m" (generateSignature "m" "k") []). reflexivity.
Qed.

Lemma one_signer_reaches_threshold_witness : ∃ w r, reachable lucky hex_draws (w, []) ∧ heap w.1 !! 0%nat = Some r ∧
  status r = ready ∧ signerId <$> collectedSignatures r = ["alice"; "alice"].
Proof.
  destruct (one_signer_reaches_threshold lucky hex_draws 0 req1 "alice" "m" "k" created.1 [] (deref created.1.1 0))
    as (w & r & Hr & Hh & Hs & _ & Hc);
    [exact created_reachable|vm_compute; reflexivity|vm_compute; reflexivity|reflexivity|apply not_elem_of_nil|reflexivity|reflexivity| |intros k; vm_compute; reflexivity|].
  - assert (requiredSignatures (deref created.1.1 0) - count (deref created.1.1 0) = 2) as -> by (vm_compute; reflexivity).
    intros k Hk. destruct k as [|[|k]]; [vm_compute; discriminate|vm_compute; discriminate|lia].
  - exists w, r. split; [exact Hr|]. split; [exact Hh|]. split; [exact Hs|exact Hc].
Defined.

Lemma ready_reached_threshold_witness :
  reachable lucky hex_draws both_pushed ∧ ∃ r, heap both_pushed.1.1 !! 0%nat = Some r ∧ status r = ready ∧
    requiredSignatures r <= count r.
Proof.
  split; [apply both_pushed_reachable|]. eexists. split; [vm_compute; reflexivity|]. split; [reflexivity|].
  apply (ready_reached_threshold lucky hex_draws both_pushed 0); [apply both_pushed_reachable|vm_compute; reflexivity|by left].
Defined.

(** Two executions of one request that interleave both pass every check; each then returns
    success with a hash of its own. *)
Lemma one_request_executes_twice : ∃ w, reachable lucky hex_draws w ∧
  w.2 = [Aggregated 0 req1; Aggregated 0 req1] ∧
  let '(r1, w1) := execute_finish hex_draws 0 req1 w.1 in
  let '(r2, _) := execute_finish hex_draws 0 req1 w1 in
  r1 ≠ r2 ∧ (∃ h, r1 = Ok (h, true)) ∧ ∃ h, r2 = Ok (h, true).
Proof.
  set (w := both_pushed.1). set (t := MkThreshold true 2 2 true).
  assert (execute_check req1 w = (Ok (0%nat, t), w)) as Hc by (vm_compute; reflexivity).
  assert (∃ x, execute_aggregate req1 t w = (Ok x, w)) as [x Hx] by (eexists; vm_compute; reflexivity).
  exists (w, [Aggregated 0 req1; Aggregated 0 req1]). split; [|split; [done|]].
  - eapply stepped; [eapply stepped; [eapply stepped; [eapply stepped; [apply both_pushed_reachable|]|]|]|].
    + exact (execute_starts _ _ req1 w [] w 0 t Hc).
    + exact (execute_starts _ _ req1 w [Checked 0 req1 t] w 0 t Hc).
    + exact (aggregates _ _ [] 0 req1 t [Checked 0 req1 t] w w x Hx).
    + exact (aggregates _ _ [Aggregated 0 req1] 0 req1 t [] w w x Hx).
  - vm_compute. split; [discriminate|]. split; eexists; reflexivity.
Qed.

(** A run of whole calls: two signers, then the execution. *)
Definition run_alone : SignatureManager * Env :=
  foldl (λ w o, (exec lucky hex_draws o w).2) (constructor, demo_env)
    [Create "tx" "w" 2 72; Collect req1 "alice" "m" "k1"; Collect req1 "bob" "m" "k2"; Execute req1].

Lemma sequential_calls_sound_witness :
  one_at_a_time lucky hex_draws run_alone ∧
  ∃ r, heap run_alone.1 !! 0%nat = Some r ∧ status r = executed ∧ requiredSignatures r <= count r ∧ all_verified r = true.
Proof.
  assert (one_at_a_time lucky hex_draws run_alone) as H by (repeat apply next; apply alone).
  split; [exact H|]. eexists. split; [vm_compute; reflexivity|]. split; [reflexivity|].
  apply (sequential_calls_sound lucky hex_draws run_alone 0); [exact H|vm_compute; reflexivity|by right].
Defined.

(** A signature whose draw is below 0.05. *)
Definition rejected : world :=
  ((collectSignature (λ _, lit 1 2) req1 "alice" "m" "k" created.1).2, []).

Lemma rejected_stuck : stuck 0 rejected.
Proof.
  assert (heap rejected.1.1 !! 0%nat = Some (deref rejected.1.1 0)) as E by (vm_compute; reflexivity).
  assert (blocked (deref rejected.1.1 0)) as Hb.
  { split; [|left; vm_compute; reflexivity]. eexists (MkSignature _ _ _ false). split; [|reflexivity].
    vm_compute. left. }
  split; [split|split; [vm_compute; lia|split; constructor]].
  - intros k ref H. vm_compute in H. apply list_elem_of_singleton in H. injection H as _ ->. vm_compute. lia.
  - intros ref r H ->. rewrite E in H. by injection H as <-.
Qed.

Lemma unverified_blocks_witness :
  stuck 0 rejected ∧ rtc (step lucky hex_draws) rejected ((cleanupExpiredRequests rejected.1).2, []) ∧
  ∃ r, heap (cleanupExpiredRequests rejected.1).2.1 !! 0%nat = Some r ∧ (status r = collecting ∨ status r = expired).
Proof.
  assert (rtc (step lucky hex_draws) rejected ((cleanupExpiredRequests rejected.1).2, [])) as Hr
    by (apply rtc_once, cleanup).
  split; [exact rejected_stuck|]. split; [exact Hr|]. eexists. split; [vm_compute; reflexivity|].
  apply (unverified_blocks lucky hex_draws 0 rejected _ _ Hr rejected_stuck). vm_compute. reflexivity.
Defined.

Lemma int32_bound z : - 2 ^ 31 <= int32 z < 2 ^ 31.
Proof. unfold int32. pose proof (Z.mod_pos_bound (z + 2 ^ 31) (2 ^ 32)). lia. Qed.

(** Every signature is one of the texts of a number below [2^31 + 1], written twice. *)
Lemma signature_space m k : ∃ h, 0 <= h <= 2 ^ 31 ∧
  generateSignature m k = "0x" +:+ padStart 64 (hex_text 9 h "") +:+ padStart 64 (hex_text 9 h "").
Proof.
  unfold generateSignature, simpleHash. eexists. split; [|reflexivity].
  assert (∀ l, - 2 ^ 31 <= foldl (λ hash char, int32 (int32 (Z.shiftl hash 5) - hash + char)) 0 l < 2 ^ 31) as H; [|specialize (H (bytes_of (m +:+ k))); lia].
  intros l. induction l as [|c l _] using rev_ind; [cbn; lia|]. rewrite foldl_app. cbn [foldl].
  apply int32_bound.
Qed.
