(* ===== verification/Backup.v ===== *)
(** * [BackupService] (apps/web/wallet/src/services/backup.ts)

    Full backups: the composition of the wallet, address book, settings, security and label
    services, each of which runs in its own component of the state.  The JSON text of a backup
    document is a parameter, as are the answer of the confirmation dialog and the Web
    Cryptography API. *)

From Stdlib Require Import Ascii String.
From S2P Require Import Prelude JsMap JsNumber JsString JsDate Bytes Json Store Stamps Wallet WalletFacts Security AddressBook.
From S2P Require Import Settings TransactionLabels Validation.

(** ** The services behind a backup *)

Record BackupService := MkBackup {
  walletService : WalletService;
  securityService : SecurityService;
  addressBookService : AddressBook;
  settingsService : SettingsService;
  transactionLabelsService : TransactionLabels;
  ls_last_backup : option string;
}.

Abbreviation M := (js (BackupService * Env)).

(** A call into one of the services. *)
Definition within {S A} (get : BackupService → S) (set : S → BackupService → BackupService) (m : js (S * Env) A) : M A :=
  λ w, let '(r, (s, e)) := m (get w.1, w.2) in (r, (set s w.1, e)).

Definition set_wallet s b := MkBackup s (securityService b) (addressBookService b) (settingsService b) (transactionLabelsService b) (ls_last_backup b).
Definition set_security s b := MkBackup (walletService b) s (addressBookService b) (settingsService b) (transactionLabelsService b) (ls_last_backup b).
Definition set_book s b := MkBackup (walletService b) (securityService b) s (settingsService b) (transactionLabelsService b) (ls_last_backup b).
Definition set_settings s b := MkBackup (walletService b) (securityService b) (addressBookService b) s (transactionLabelsService b) (ls_last_backup b).
Definition set_labels s b := MkBackup (walletService b) (securityService b) (addressBookService b) (settingsService b) s (ls_last_backup b).
Definition set_last t b := MkBackup (walletService b) (securityService b) (addressBookService b) (settingsService b) (transactionLabelsService b) t.

Definition in_wallet {A} : Wallet.M A → M A := within walletService set_wallet.
Definition in_security {A} : Security.M A → M A := within securityService set_security.
Definition in_book {A} : AddressBook.M A → M A := within addressBookService set_book.
Definition in_settings {A} : Settings.M A → M A := within settingsService set_settings.
Definition in_labels {A} : TransactionLabels.M A → M A := within transactionLabelsService set_labels.

(** ** Documents *)

(** A parsed backup; any part may be missing. *)
Record BackupData := MkData {
  version : option string;
  timestamp : option Z;
  wallets : option (list WalletInfo);
  addressBook : option (list Contact);
  settings : option json;
  securitySettings : option StoredSettings;
  transactionLabels : option (list TransactionLabel);
}.

Inductive document :=
  | Plain (d : BackupData)
  | Encrypted (data : string)
  | SingleWallet (d_version : string) (d_timestamp : Z) (wallet : WalletInfo).

(** The properties that a restore reads of a document. *)
Definition backup_of (d : document) : BackupData :=
  match d with
  | Plain b => b
  | Encrypted _ => MkData None None None None None None None
  | SingleWallet v t _ => MkData (Some v) (Some t) None None None None None
  end.

Definition BACKUP_VERSION : string := "1.0.0".

Section Service.
Context (wc : WebCrypto).
(** [JSON.stringify] and [JSON.parse] on documents. *)
Context (stringify : document → string) (parse : string → result document).

Definition JSON_parse_text (t : string) : M document :=
  match parse t with Ok d => mret d | Throw msg => js_throw msg end.

Definition createFullBackup (password : option string) : M string :=
  js_try (
    now ← in_wallet date_now;
    ws ← in_wallet getWallets;
    contacts ← in_book AddressBook.getAllContacts;
    st ← in_settings Settings.getSettings;
    sec ← in_security Security.getSettings;
    labels ← in_labels getAllLabels;
    let jsonData := stringify (Plain (MkData (Some BACKUP_VERSION) (Some now) (Some ws) (Some contacts)
                                 (Some (JObj st)) (Some sec) (Some labels))) in
    if truthy_str password then
      encrypted ← in_security (encrypt wc jsonData (default "" password));
      mret (stringify (Encrypted encrypted))
    else mret jsonData)
  (λ msg, js_throw ("Failed to create backup: " +:+ msg)).

(** The document of a backup file: an encrypted one is decrypted; whatever goes wrong, the
    file is parsed again as it is. *)
Definition read_document (backupData : string) (password : option string) : M document :=
  js_try (
    parsed ← JSON_parse_text backupData;
    match parsed with
    | Encrypted data =>
        if negb (truthy_str password) then js_throw "Password required for encrypted backup"
        else
          decrypted ← in_security (decrypt wc data (default "" password));
          JSON_parse_text decrypted
    | _ => mret parsed
    end)
  (λ _, JSON_parse_text backupData).

(** The loop body for a contact: duplicates are skipped. *)
Definition restore_contact (c : Contact) : M () :=
  js_try (in_book (AddressBook.addContact (name c) (address c) (label c) (tags c) (notes c));; mret ())
    (λ _, mret ()).

(** [confirmed] is the answer of the dialog. *)
Definition restoreFromBackup (confirmed : bool) (backupData : string) (password : option string) : M () :=
  js_try (
    doc ← read_document backupData password;
    let data := backup_of doc in
    if negb (truthy_str (version data)) || negb (match timestamp data with Some t => negb (t =? 0) | None => false end)
    then js_throw "Invalid backup file format"
    else
      (if negb confirmed then js_throw "Restore cancelled by user" else mret ());;
      match wallets data with
      | Some _ => in_wallet getWallets;; mret ()
      | None => mret ()
      end;;
      match addressBook data with
      | Some l => js_forEach restore_contact l
      | None => mret ()
      end;;
      match settings data with
      | Some st => if truthy_json st then in_settings (importSettings (TJson st));; mret () else mret ()
      | None => mret ()
      end;;
      match transactionLabels data with
      | Some l => in_labels (importLabels (TJson (MkExport (Some l) None None)));; mret ()
      | None => mret ()
      end)
  (λ msg, js_throw ("Failed to restore backup: " +:+ msg)).

Definition exportWalletOnly (addr : string) : M (option string) :=
  wallet ← in_wallet (getWallet addr);
  match wallet with
  | None => mret None
  | Some w => now ← in_wallet date_now; mret (Some (stringify (SingleWallet BACKUP_VERSION now w)))
  end.

Definition importWalletFromJSON (jsonData : string) : M bool :=
  js_try (
    data ← JSON_parse_text jsonData;
    match data with
    | SingleWallet _ _ _ => js_throw "Please use the Import Wallet feature with your private key"
    | _ => mret false
    end)
  (λ msg, js_throw ("Failed to import wallet: " +:+ msg)).

(** *** Tables *)

Definition quote : string := String (ascii_of_nat 34) "".
Definition quoted (s : string) : string := quote +:+ s +:+ quote.
Definition newline : string := String (ascii_of_nat 10) "".

Inductive table := WalletsTable | TransactionsTable | ContactsTable.

Definition wallet_row (w : WalletInfo) : string :=
  quoted (Wallet.label w) +:+ "," +:+ quoted (Wallet.address w) +:+ "," +:+ num_to_string (balance w) +:+ ","
    +:+ toISOString (Wallet.createdAt w) +:+ newline.
Definition contact_row (c : Contact) : string :=
  quoted (name c) +:+ "," +:+ quoted (address c) +:+ "," +:+ quoted (default "" (label c)) +:+ ","
    +:+ quoted (join ";" (tags c)) +:+ "," +:+ quoted (default "" (notes c)) +:+ newline.
Definition label_row (l : TransactionLabel) : string :=
  quoted (l_txid l) +:+ "," +:+ quoted "Transaction" +:+ ",0," +:+ quoted (default "" (l_note l)) +:+ ","
    +:+ quoted (join ";" (l_tags l)) +:+ newline.

(** [forEach] with [csv += row] *)
Definition rows {A} (row : A → string) (header : string) (l : list A) : string :=
  foldl (λ csv x, csv +:+ row x) (header +:+ newline) l.

Definition exportToCSV (type : table) : M string :=
  match type with
  | WalletsTable => ws ← in_wallet getWallets; mret (rows wallet_row "Label,Address,Balance,Created" ws)
  | ContactsTable => cs ← in_book AddressBook.getAllContacts; mret (rows contact_row "Name,Address,Label,Tags,Notes" cs)
  | TransactionsTable => ls ← in_labels getAllLabels; mret (rows label_row "TXID,Type,Amount,Confirmations,Note,Tags" ls)
  end.

Definition getLastBackupTimestamp : M (option (option Z)) :=
  b ← is_browser;
  if negb b then mret None
  else s ← this; mret (if truthy_str (ls_last_backup s) then Some (parseInt (default "" (ls_last_backup s))) else None).

Record Summary := MkSummary { walletCount : nat; contactCount : nat; labelCount : nat; lastBackup : option (option Z) }.

Definition getBackupSummary : M Summary :=
  ws ← in_wallet getWallets;
  cs ← in_book AddressBook.getAllContacts;
  ls ← in_labels getAllLabels;
  t ← getLastBackupTimestamp;
  mret (MkSummary (length ws) (length cs) (length ls) t).

Definition recordBackup : M () :=
  js_try (
    b ← is_browser;
    if negb b then js_throw "localStorage is not defined"
    else now ← in_wallet date_now; ls_setItem (set_last (Some (pretty now))))
  (λ _, mret ()).
End Service.

(** * Theorems *)

(** ** Calls into the services *)

Section Within.
Context {S : Type} (get : BackupService → S) (set : S → BackupService → BackupService).

Lemma within_run {A} (m : js (S * Env) A) b e r s e' :
  m (get b, e) = (r, (s, e')) → within get set m (b, e) = (r, (set s b, e')).
Proof. intros H. unfold within. cbn [fst snd]. by rewrite H. Qed.

Lemma within_Ok {A B} (m : js (S * Env) A) (k : A → M B) b e a s e' :
  m (get b, e) = (Ok a, (s, e')) → (within get set m ≫= k) (b, e) = k a (set s b, e').
Proof. intros H. by rewrite (run_Ok _ _ _ _ _ (within_run m b e _ _ _ H)). Qed.
End Within.

Section Roundtrip.
Context (wc : WebCrypto) (stringify : document → string) (parse : string → result document).
Definition reads_back (d : document) : Prop := parse (stringify d) = Ok d.

(** The document that a backup writes. *)
Definition is_backup (b : BackupService) (e : Env) (d : BackupData) : Prop :=
  version d = Some BACKUP_VERSION ∧ timestamp d = Some (clock e (ticks e)) ∧
  wallets d = Some (map_values (Wallet.wallets (WalletFacts.refreshed (tick e) (walletService b)))) ∧
  addressBook d = Some (map_values (contacts (addressBookService b))) ∧
  settings d = Some (JObj (Settings.settings (settingsService b))) ∧
  Ok <$> securitySettings d = Some (Security.getSettings (securityService b, tick e)).1 ∧
  transactionLabels d = Some (map_values (labels (transactionLabelsService b))).

Lemma set_wallet_fields s b : set_wallet s b = MkBackup s (securityService b) (addressBookService b) (settingsService b)
  (transactionLabelsService b) (ls_last_backup b).
Proof. done. Qed.

Lemma createFullBackup_run password b e file w : createFullBackup wc stringify password (b, e) = (Ok file, w) →
  ∃ d, is_backup b e d ∧
    if truthy_str password then ∃ enc w0 w1, encrypt wc (stringify (Plain d)) (default "" password) w0 = (Ok enc, w1) ∧
                                 file = stringify (Encrypted enc)
    else file = stringify (Plain d).
Proof.
  intros H. unfold createFullBackup, js_try in H.
  assert (getWallets (walletService b, tick e) =
    (Ok (map_values (Wallet.wallets (WalletFacts.refreshed (tick e) (walletService b)))),
     (WalletFacts.refreshed (tick e) (walletService b), tick e))) as Hw.
  { unfold getWallets. rewrite WalletFacts.run_refresh. js_run. done. }
  unfold in_wallet, in_book, in_settings, in_security, in_labels in H.
  erewrite within_Ok in H by reflexivity.
  erewrite within_Ok in H by exact Hw.
  erewrite within_Ok in H by reflexivity.
  erewrite within_Ok in H by reflexivity.
  destruct (Security.getSettings_run (securityService b) (tick e)) as [sec Hsec].
  erewrite within_Ok in H by exact Hsec.
  erewrite within_Ok in H by reflexivity.
  cbv zeta in H. eexists (MkData _ _ _ _ _ (Some sec) _). split; [repeat split; cbn; by rewrite Hsec|].
  destruct (truthy_str password).
  - match type of H with context [within securityService set_security ?m ≫= ?k] =>
      destruct (m (securityService b, tick e)) as [[enc|msg] [s' e']] eqn:E end.
    + erewrite within_Ok in H by exact E. unfold mret, js_ret in H. injection H as <- _. eexists _, _, _. split; [exact E|reflexivity].
    + exfalso. erewrite run_Throw in H; [discriminate H|]. apply within_run. exact E.
  - unfold mret, js_ret in H. by injection H as <- _.
Qed.
End Roundtrip.

(** ** Restoring *)

(** What a restored contact has of the original. *)
Definition contact_fields (c : Contact) : string * string * option string * list string * option string :=
  (name c, address c, label c, tags c, notes c).

Definition new_contact_id (t : Z) (r : string) : string := stamp "contact_" t r.

Lemma addContact_run c s e : address c ∉ addresses (contacts s) →
  ∃ c' s' e', AddressBook.addContact (name c) (address c) (label c) (tags c) (notes c) (s, e) = (Ok c', (s', e')) ∧
    contacts s' = map_set (new_contact_id (clock e (ticks e)) (entropy e (draws e))) c' (contacts s) ∧
    contact_fields c' = contact_fields c ∧ later_env e e' ∧ draws e' = S (draws e).
Proof.
  intros Hc. unfold AddressBook.addContact. js_run. cbn [fst].
  rewrite (proj2 (by_address_false _ _) Hc). unfold generateId. js_run.
  unfold saveContacts. rewrite guarded_write_bind. js_run. cbn [fst snd].
  eexists _, _, _. split; [reflexivity|].
  split; [unfold written; by destruct (_ && _)|]. split; [done|].
  split; [|done]. unfold later_env. cbn. repeat split; lia.
Qed.

(** Restoring contacts of different addresses appends them all. *)
Lemma restore_contacts_run l b e : distinct_stamps "contact_" e → unused_stamps "contact_" e (contacts (addressBookService b)) →
  NoDup (address <$> l) → (∀ c, c ∈ l → address c ∉ addresses (contacts (addressBookService b))) →
  ∃ s' e', js_forEach restore_contact l (b, e) = (Ok (), (set_book s' b, e')) ∧ later_env e e' ∧
    contact_fields <$> map_values (contacts s') =
      ((contact_fields <$> map_values (contacts (addressBookService b))) ++ (contact_fields <$> l))%list.
Proof.
  revert b e. induction l as [|c l IH]; intros b e Hid Hm Hnd Hnew.
  { exists (addressBookService b), e. split; [by destruct b|]. split; [by repeat split|]. by rewrite app_nil_r. }
  apply NoDup_cons in Hnd as [Hc Hnd].
  destruct (addContact_run c (addressBookService b) e (Hnew c ltac:(left))) as (c' & s1 & e1 & E & Hs1 & Hf & He & Hd).
  assert (unused_stamps "contact_" e1 (contacts s1)) as Hu1.
  { rewrite Hs1. apply unused_next; [done|done|done|lia]. }
  rewrite map_set_absent in Hs1 by (apply Hm; lia).
  assert (contact_fields c' = contact_fields c → address c' = address c) as Haddr by (intros [=]; done).
  destruct (IH (set_book s1 b) e1) as (s' & e' & Hrun & He' & Hl).
  - by apply (distinct_later _ e).
  - exact Hu1.
  - exact Hnd.
  - intros x Hx. cbn. rewrite Hs1. unfold addresses, map_values. rewrite !fmap_app, not_elem_of_app. split.
    + apply Hnew. by right.
    + cbn. rewrite (Haddr Hf). intros Heq%list_elem_of_singleton. apply Hc. rewrite <-Heq. by apply list_elem_of_fmap_2.
  - exists s', e'. split; [|split].
    + cbn [js_forEach]. erewrite run_Ok.
      2: { unfold restore_contact. erewrite run_try_Ok; [reflexivity|]. unfold in_book. erewrite within_Ok by exact E. reflexivity. }
      exact Hrun.
    + by eapply later_env_trans.
    + rewrite Hl. cbn. rewrite Hs1. unfold map_values. rewrite !fmap_app. cbn. by rewrite Hf, <-app_assoc.
Qed.

Lemma set_security_same b : set_security (securityService b) b = b.
Proof. by destruct b. Qed.

Lemma getWallets_run s e : getWallets (s, e) = (Ok (map_values (Wallet.wallets (refreshed e s))), (refreshed e s, e)).
Proof. unfold getWallets. rewrite run_refresh. by js_run. Qed.

Section Restore.
Context (wc : WebCrypto) (stringify : document → string) (parse : string → result document).

(** Reading a file that was written with the same password. *)
Lemma read_document_run d password file w0 w1 enc w : WebCryptoLaws wc →
  reads_back stringify parse (Plain d) → reads_back stringify parse (Encrypted enc) →
  (if truthy_str password then encrypt wc (stringify (Plain d)) (default "" password) w0 = (Ok enc, w1) ∧ file = stringify (Encrypted enc)
   else file = stringify (Plain d)) →
  read_document wc parse file password w = (Ok (Plain d), w).
Proof.
  intros Hwc Hd Henc Hfile. unfold read_document, JSON_parse_text. destruct w as [b e].
  erewrite run_try_Ok; [reflexivity|]. destruct (truthy_str password).
  - destruct Hfile as [He ->]. rewrite Henc. js_run. cbn [negb]. unfold in_security.
    erewrite within_Ok by exact (decrypt_of_encrypt wc _ _ w0 enc w1 _ Hwc He).
    rewrite Hd, set_security_same. reflexivity.
  - subst file. rewrite Hd. by js_run.
Qed.

(** Everything after the document was read. *)
Lemma restore_run d file password b e b0 e0 : read_document wc parse file password (b, e) = (Ok (Plain d), (b, e)) →
  is_backup b0 e0 d → clock e0 (ticks e0) ≠ 0 → NoDup (address <$> map_values (contacts (addressBookService b0))) →
  contacts (addressBookService b) = [] → working e → distinct_stamps "contact_" e →
  ∃ book e1 settings' labels' e2,
    restoreFromBackup wc parse true file password (b, e) =
      (Ok (), (set_labels labels' (set_settings settings' (set_book book (set_wallet (refreshed e (walletService b)) b))), e2)) ∧
    contact_fields <$> map_values (contacts book) = contact_fields <$> map_values (contacts (addressBookService b0)) ∧
    importSettings (TJson (JObj (Settings.settings (settingsService b0)))) (settingsService b, e1) = (Ok true, (settings', e1)) ∧
    Settings.settings settings' = spread getDefaultSettings (Settings.settings (settingsService b0)) ∧
    (importLabels (TJson (MkExport (Some (map_values (labels (transactionLabelsService b0)))) None None))
      (transactionLabelsService b, e1)).2.1 = labels'.
Proof.
  intros Hread (Hv & Ht & Hws & Hbook & Hset & _ & Hlab) Hclock Hnd Hempty Hwork Hid.
  set (b1 := set_wallet (refreshed e (walletService b)) b).
  destruct (restore_contacts_run (map_values (contacts (addressBookService b0))) b1 e) as (s' & e1 & Hrun & Hlater & Hfields).
  { exact Hid. }
  { cbn. rewrite Hempty. apply unused_nil. }
  { exact Hnd. }
  { intros c _. cbn. rewrite Hempty. apply not_elem_of_nil. }
  assert (working e1) as Hwork1.
  { destruct Hlater as (_ & _ & Hb & Hw & _). unfold working in *. rewrite Hb, Hw. exact Hwork. }
  pose proof (import_run (JObj (Settings.settings (settingsService b0))) (settingsService b) e1 Hwork1) as Himp. cbv zeta in Himp.
  destruct (importLabels_run (MkExport (Some (map_values (labels (transactionLabelsService b0)))) None None)
    (transactionLabelsService b) e1) as (m & l & success & failed & sl & Elab & _).
  exists s', e1. eexists _, sl, e1. split; [|split; [|split; [exact Himp|split; [done|by rewrite Elab]]]].
  - unfold restoreFromBackup. erewrite run_try_Ok; [reflexivity|].
    rewrite (run_Ok _ _ _ _ _ Hread). cbv zeta. cbn [backup_of]. rewrite Hv, Ht, Hws, Hbook, Hset, Hlab.
    rewrite (proj2 (Z.eqb_neq _ 0) Hclock). change (truthy_str (Some BACKUP_VERSION)) with true. cbn [negb orb]. js_run.
    unfold in_wallet. erewrite within_Ok by apply getWallets_run. js_run.
    rewrite (run_Ok _ _ _ _ _ Hrun). cbn [truthy_json].
    unfold in_settings. rewrite ?run_bind. erewrite within_Ok by exact Himp. js_run.
    unfold in_labels. rewrite ?run_bind. erewrite within_Ok by exact Elab. reflexivity.
  - rewrite Hfields. cbn. by rewrite Hempty.
Qed.
End Restore.

(** C24: a full backup made with a password, or without one, restores on a new device with the
    same password: the contacts with their names, addresses, labels, tags and notes in order,
    every transaction label, and the settings.  No wallet comes back, whatever wallets the
    backup lists, and the security settings stay what they were. *)
Theorem full_backup_restores wc stringify parse password b e file w b2 e2 (Hwc : WebCryptoLaws wc)
    (Hplain : ∀ d, is_backup b e d → reads_back stringify parse (Plain d))
    (Henc : ∀ t, reads_back stringify parse (Encrypted t))
    (Hfile : createFullBackup wc stringify password (b, e) = (Ok file, w))
    (Hclock : clock e (ticks e) ≠ 0)
    (Hbook : book_ok (contacts (addressBookService b)))
    (Hlabels : map_wf (labels (transactionLabelsService b)) ∧ map_all (λ k l, l_txid l = k) (labels (transactionLabelsService b)))
    (Hnew : contacts (addressBookService b2) = [] ∧ labels (transactionLabelsService b2) = [])
    (Hwork : working e2) (Hid : distinct_stamps "contact_" e2) :
  ∃ b3 e3, restoreFromBackup wc parse true file password (b2, e2) = (Ok (), (b3, e3)) ∧
    contact_fields <$> map_values (contacts (addressBookService b3)) =
      contact_fields <$> map_values (contacts (addressBookService b)) ∧
    labels (transactionLabelsService b3) = labels (transactionLabelsService b) ∧
    Settings.settings (settingsService b3) = spread getDefaultSettings (Settings.settings (settingsService b)) ∧
    walletService b3 = refreshed e2 (walletService b2) ∧ securityService b3 = securityService b2.
Proof.
  destruct (createFullBackup_run wc stringify password b e file w Hfile) as (d & Hd & Hcase).
  assert (∃ enc w0 w1, if truthy_str password
    then encrypt wc (stringify (Plain d)) (default "" password) w0 = (Ok enc, w1) ∧ file = stringify (Encrypted enc)
    else file = stringify (Plain d)) as (enc & w0 & w1 & Hcase').
  { destruct (truthy_str password); [destruct Hcase as (enc & w0 & w1 & ? & ?); by exists enc, w0, w1|].
    by exists "", (securityService b, e), (securityService b, e). }
  pose proof (read_document_run wc stringify parse d password file w0 w1 enc (b2, e2) Hwc (Hplain d Hd) (Henc enc) Hcase') as Hread.
  destruct Hnew as [Hc Hl].
  destruct (restore_run wc parse d file password b2 e2 b e Hread Hd Hclock (ok_unique _ Hbook) Hc Hwork Hid)
    as (book & e1 & st & lb & e3 & Hrun & Hfields & _ & Hst & Hlab).
  eexists _, e3. split; [exact Hrun|]. split; [exact Hfields|]. split; [|split; [exact Hst|done]].
  cbn. rewrite <-Hlab.
  destruct (importLabels_run (MkExport (Some (map_values (labels (transactionLabelsService b)))) None None)
    (transactionLabelsService b2) e1) as (m & l & x & y & s' & -> & E & Hm & _).
  cbn [fst snd x_labels default from_option id] in *. rewrite Hm. rewrite Hl in E.
  etransitivity; [|exact (import_labels_fresh [] _ 0 0 (proj2 Hlabels) (proj1 Hlabels))].
  exact (f_equal (λ p, p.1.1) (eq_sym E)).
Qed.

(** *** A concrete backup *)

Definition demo_service : BackupService :=
  MkBackup (Wallet.fresh None None) (Security.fresh None None) AddressBook.demo_book
    (Settings.fresh None) demo_labels None.
Definition new_service : BackupService :=
  MkBackup (Wallet.fresh None None) (Security.fresh None None) (AddressBook.fresh None)
    (Settings.fresh None) (TransactionLabels.fresh None None) None.

Definition demo_data : BackupData :=
  MkData (Some BACKUP_VERSION) (Some 1700000000000) (Some []) (Some (map_values (contacts AddressBook.demo_book)))
    (Some (JObj getDefaultSettings)) (Some Security.getDefaultSettings) (Some (map_values (labels demo_labels))).

Definition toy_stringify (d : document) : string :=
  match d with Plain _ => "plain" | Encrypted t => "enc:" +:+ t | SingleWallet _ _ _ => "wallet" end.
Definition toy_parse (t : string) : result document :=
  match t with
  | String "e" (String "n" (String "c" (String ":" r))) => Ok (Encrypted r)
  | _ => Ok (Plain demo_data)
  end.

Lemma demo_backup_only d : is_backup demo_service steady_env d → d = demo_data.
Proof.
  destruct d as [v t ws cs st sec lb]. unfold is_backup. cbn [version timestamp wallets addressBook settings securitySettings transactionLabels].
  intros (-> & -> & -> & -> & -> & Hsec & ->). destruct sec as [sec|]; [|discriminate Hsec].
  cbn in Hsec. injection Hsec as ->. vm_compute. reflexivity.
Qed.

Lemma full_backup_restores_witness : ∃ file w b3 e3,
  createFullBackup toy_crypto toy_stringify (Some "pw") (demo_service, steady_env) = (Ok file, w) ∧
  restoreFromBackup toy_crypto toy_parse true file (Some "pw") (new_service, steady_env) = (Ok (), (b3, e3)) ∧
  labels (transactionLabelsService b3) = labels demo_labels.
Proof.
  assert (∃ file w, createFullBackup toy_crypto toy_stringify (Some "pw") (demo_service, steady_env) = (Ok file, w))
    as (file & w & E) by (eexists _, _; vm_compute; reflexivity).
  destruct (full_backup_restores toy_crypto toy_stringify toy_parse (Some "pw") demo_service steady_env file w
    new_service steady_env toy_laws) as (b3 & e3 & H & _ & Hl & _).
  - intros d ->%demo_backup_only. reflexivity.
  - intros t. reflexivity.
  - exact E.
  - discriminate.
  - split; [repeat constructor; set_solver|repeat constructor|repeat constructor; set_solver].
  - split; [repeat constructor; set_solver|repeat constructor].
  - done.
  - done.
  - apply steady_distinct.
  - exists file, w, b3, e3. done.
Defined.

(** ** Errors *)

(** C40: an encrypted backup that is restored without a password, or with one that does not
    decrypt it, is always reported as a file of an invalid format, and changes nothing. *)
Theorem undecrypted_backup_is_invalid wc parse confirmed file password data b e :
  parse file = Ok (Encrypted data) →
  truthy_str password = false ∨ (∃ msg, (decrypt wc data (default "" password) (securityService b, e)) = (Throw msg, (securityService b, e))) →
  restoreFromBackup wc parse confirmed file password (b, e) =
    (Throw "Failed to restore backup: Invalid backup file format", (b, e)).
Proof.
  intros Hp Hpw.
  assert (read_document wc parse file password (b, e) = (Ok (Encrypted data), (b, e))) as Hread.
  { unfold read_document, JSON_parse_text. rewrite Hp.
    assert (∃ msg, (if negb (truthy_str password) then js_throw "Password required for encrypted backup"
      else decrypted ← in_security (decrypt wc data (default "" password));
           match parse decrypted with Ok d => mret d | Throw m => js_throw m end) (b, e) = (Throw msg, (b, e))) as [msg Hmsg].
    { destruct (truthy_str password); cbn [negb].
      - destruct Hpw as [|[msg Hd]]; [done|]. exists msg. erewrite run_Throw; [reflexivity|].
        unfold in_security. erewrite within_run by exact Hd. by rewrite set_security_same.
      - eexists. reflexivity. }
    erewrite run_try_Throw; [|js_run; exact Hmsg]. reflexivity. }
  unfold restoreFromBackup. erewrite run_try_Throw; [|rewrite (run_Ok _ _ _ _ _ Hread); reflexivity]. reflexivity.
Qed.

Lemma undecrypted_backup_is_invalid_witness :
  restoreFromBackup toy_crypto toy_parse true "enc:AAAA" None (new_service, demo_env) =
    (Throw "Failed to restore backup: Invalid backup file format", (new_service, demo_env)).
Proof. apply (undecrypted_backup_is_invalid toy_crypto toy_parse true "enc:AAAA" None "AAAA"); [reflexivity|by left]. Defined.

(** A file of [exportWalletOnly] is restored without an error, and restores nothing. *)
Lemma single_wallet_restores_nothing wc parse file password v t w b e :
  parse file = Ok (SingleWallet v t w) → v ≠ "" → t ≠ 0 →
  restoreFromBackup wc parse true file password (b, e) = (Ok (), (b, e)).
Proof.
  intros Hp Hv Ht. unfold restoreFromBackup. erewrite run_try_Ok; [reflexivity|].
  assert (read_document wc parse file password (b, e) = (Ok (SingleWallet v t w), (b, e))) as Hread.
  { unfold read_document, JSON_parse_text. rewrite Hp. erewrite run_try_Ok; [reflexivity|]. by js_run. }
  rewrite (run_Ok _ _ _ _ _ Hread). cbv zeta. cbn [backup_of version timestamp wallets addressBook settings transactionLabels truthy_str].
  rewrite (proj2 (str_eqb_false v "") Hv), (proj2 (Z.eqb_neq t 0) Ht). cbn [negb orb]. js_run. reflexivity.
Qed.

(** Importing a file never imports: it throws or answers [false]. *)
Lemma importWalletFromJSON_never parse t w : (importWalletFromJSON parse t w).1 ≠ Ok true ∧ (importWalletFromJSON parse t w).2 = w.
Proof.
  unfold importWalletFromJSON, JSON_parse_text, js_try, mbind, js_bind. destruct (parse t) as [[]|]; cbn; split; done.
Qed.

(** The table of transactions has six columns in its header and five in its rows. *)
Lemma transaction_table_columns :
  let columns s := length (split_on "," s) in
  columns "TXID,Type,Amount,Confirmations,Note,Tags" = 6%nat ∧
  columns (label_row (demo_label "ab")) = 5%nat.
Proof. vm_compute. done. Qed.
