(* ===== verification/MobileSync.v ===== *)
(** * [MobileSyncService] (apps/web/wallet/src/services/mobileSync.ts)

    Paired devices, the notifications sent to them and the last data synchronised, each under
    a key of the storage.  The random word behind a pairing code is a parameter. *)

From Stdlib Require Import Ascii String.
From stdpp Require Import pretty.
From S2P Require Import Prelude JsMap JsString Json Store Stamps.

Inductive DeviceType := android | ios.
Inductive DeviceStatus := active | inactive | pending.
Inductive PushType := transaction | security | info.

Record PairedDevice := MkDevice {
  id : string;
  name : string;
  deviceType : DeviceType;
  pairingCode : string;
  pairedAt : Z;
  lastSyncAt : option Z;
  status : DeviceStatus;
  pushToken : option string;
}.

Record SyncData := MkSync {
  wallets : list json;
  transactions : list json;
  sync_contacts : list json;
  sync_settings : json;
  lastSyncTimestamp : Z;
}.

Record PushNotification := MkPush {
  n_id : string;
  deviceId : string;
  title : string;
  message : string;
  type : PushType;
  sentAt : Z;
  read : bool;
}.

Record MobileSync := MkMobile {
  pairedDevices : jsmap PairedDevice;
  notifications : jsmap PushNotification;
  syncData : option SyncData;
  ls_devices : cell (list PairedDevice);
  ls_notifications : cell (list PushNotification);
  ls_sync : cell SyncData;
}.

Definition set_syncData d s :=
  MkMobile (pairedDevices s) (notifications s) d (ls_devices s) (ls_notifications s) (ls_sync s).
Definition set_ls_sync c s :=
  MkMobile (pairedDevices s) (notifications s) (syncData s) (ls_devices s) (ls_notifications s) c.

#[export] Instance device_store : Store MobileSync PairedDevice := {|
  key := id;
  items := pairedDevices;
  set_items := λ m s, MkMobile m (notifications s) (syncData s) (ls_devices s) (ls_notifications s) (ls_sync s);
  stored := ls_devices;
  set_stored := λ c s, MkMobile (pairedDevices s) (notifications s) (syncData s) c (ls_notifications s) (ls_sync s);
|}.
#[export] Instance device_laws : StoreLaws MobileSync PairedDevice.
Proof. by constructor. Qed.

#[export] Instance push_store : Store MobileSync PushNotification := {|
  key := n_id;
  items := notifications;
  set_items := λ m s, MkMobile (pairedDevices s) m (syncData s) (ls_devices s) (ls_notifications s) (ls_sync s);
  stored := ls_notifications;
  set_stored := λ c s, MkMobile (pairedDevices s) (notifications s) (syncData s) (ls_devices s) c (ls_sync s);
|}.
#[export] Instance push_laws : StoreLaws MobileSync PushNotification.
Proof. by constructor. Qed.

Abbreviation M := (js (MobileSync * Env)).

(** The object before its constructor reads the storage. *)
Definition fresh (cd : cell (list PairedDevice)) (cn : cell (list PushNotification)) (cs : cell SyncData) : MobileSync :=
  MkMobile [] [] None cd cn cs.

Definition loadData : M () :=
  guarded (
    load_items (V:=PairedDevice);;
    load_items (V:=PushNotification);;
    s ← this;
    match truthy_cell (ls_sync s) with
    | None => mret ()
    | Some t => d ← JSON_parse t; modify_this (set_syncData (Some d))
    end).

Definition saveData : M () :=
  guarded (
    save_items (V:=PairedDevice);;
    save_items (V:=PushNotification);;
    s ← this;
    match syncData s with
    | None => mret ()
    | Some d => ls_setItem (set_ls_sync (Some (TJson d)))
    end).

Definition constructor : M () := loadData.

(** [do { ... } while (code < 100000 || code > 999999)]; [word] is the next value of
    [getRandomValues] on one 32-bit word.  [None] is a loop that goes on. *)
Fixpoint pairing_loop (fuel : nat) (word : nat → Z) (n : nat) : option (Z * nat) :=
  match fuel with
  | O => None
  | S fuel' =>
      let code := word n mod 900000 + 100000 in
      if (code <? 100000) || (999999 <? code) then pairing_loop fuel' word (S n) else Some (code, S n)
  end.
Definition generatePairingCode (fuel : nat) (word : nat → Z) (n : nat) : option (string * nat) :=
  '(code, n') ← pairing_loop fuel word n; Some (pretty code, n').

(** The object that is written as JSON. *)
Definition generateQRCode (code : string) : M (string * string * Z) :=
  t ← date_now; mret ("kubercoin", code, t).

Definition pairDevice (nm : string) (ty : DeviceType) (code : string) : M PairedDevice :=
  t ← date_now;
  r ← random36;
  t' ← date_now;
  let device := MkDevice ("device_" +:+ pretty t +:+ "_" +:+ r) nm ty code t' None active None in
  put_item device;;
  saveData;;
  mret device.

Definition getPairedDevices : M (list PairedDevice) :=
  s ← this; mret (js_sort (λ a b, 0 <? pairedAt b - pairedAt a) (map_values (pairedDevices s))).

Definition unpairDevice (i : string) : M () :=
  modify_this (λ s, set_items (map_delete i (pairedDevices s)) s);;
  saveData.

(** A change of a device through its reference. *)
Definition change_device (i : string) (f : PairedDevice → PairedDevice) : M () :=
  modify_this (λ s, set_items (map_update i f (pairedDevices s)) s).

Definition with_sync (t : Z) (d : PairedDevice) : PairedDevice :=
  MkDevice (id d) (name d) (deviceType d) (pairingCode d) (pairedAt d) (Some t) (status d) (pushToken d).
Definition with_status (st : DeviceStatus) (d : PairedDevice) : PairedDevice :=
  MkDevice (id d) (name d) (deviceType d) (pairingCode d) (pairedAt d) (lastSyncAt d) st (pushToken d).
Definition with_read (n : PushNotification) : PushNotification :=
  MkPush (n_id n) (deviceId n) (title n) (message n) (type n) (sentAt n) true.

(** [Partial<SyncData>]: absent parts become empty. *)
Record PartialSync := MkPartial {
  p_wallets : option (list json);
  p_transactions : option (list json);
  p_contacts : option (list json);
  p_settings : option json;
}.

Definition syncWithDevice (i : string) (data : PartialSync) : M () :=
  s ← this;
  if negb (map_has i (pairedDevices s)) then js_throw "Device not found"
  else
    t ← date_now;
    modify_this (set_syncData (Some (MkSync (default [] (p_wallets data)) (default [] (p_transactions data))
      (default [] (p_contacts data)) (if truthy (p_settings data) then default (JObj []) (p_settings data) else JObj []) t)));;
    t' ← date_now;
    change_device i (with_sync t');;
    saveData.

Definition getSyncData : M (option SyncData) := s ← this; mret (syncData s).

Definition sendPushNotification (i ttl msg : string) (ty : PushType) : M PushNotification :=
  s ← this;
  if negb (map_has i (pairedDevices s)) then js_throw "Device not found"
  else
    t ← date_now;
    r ← random36;
    t' ← date_now;
    let n := MkPush ("notif_" +:+ pretty t +:+ "_" +:+ r) i ttl msg ty t' false in
    put_item n;;
    saveData;;
    mret n.

Definition getNotifications (i : option string) : M (list PushNotification) :=
  s ← this;
  let notifs := map_values (notifications s) in
  let notifs := if truthy_str i then js_filter (λ n, str_eqb (deviceId n) (default "" i)) notifs else notifs in
  mret (js_sort (λ a b, 0 <? sentAt b - sentAt a) notifs).

Definition markNotificationRead (i : string) : M () :=
  s ← this;
  js_when (map_has i (notifications s))
    (modify_this (λ s, set_items (map_update i with_read (notifications s)) s);; saveData).

Definition remoteWipe (i : string) : M () :=
  s ← this;
  if negb (map_has i (pairedDevices s)) then js_throw "Device not found"
  else
    sendPushNotification i "Remote Wipe" "Your wallet data will be erased" security;;
    change_device i (with_status inactive);;
    saveData.

Definition enableBiometricAuth (i : string) : M bool := s ← this; mret (map_has i (pairedDevices s)).

(** * Theorems *)

(** ** Pairing codes *)

Definition is_word32 (z : Z) : Prop := 0 <= z < 2 ^ 32.

(** Six digits between the powers of ten. *)
Lemma pretty_six z : 100000 <= z <= 999999 → String.length (pretty z) = 6%nat ∧ str_all is_digit (pretty z) = true.
Proof.
  intros Hz. assert (pretty z = pretty_N_go (Z.to_N z) "") as ->.
  { destruct z as [|p|p]; [lia| |lia]. done. }
  destruct (pretty_go_step z "") as (c1 & H1 & ->); [lia|].
  destruct (pretty_go_step (z / 10) (String c1 "")) as (c2 & H2 & ->); [Z.to_euclidean_division_equations; lia|].
  destruct (pretty_go_step (z / 10 / 10) (String c2 (String c1 ""))) as (c3 & H3 & ->); [Z.to_euclidean_division_equations; lia|].
  destruct (pretty_go_step (z / 10 / 10 / 10) (String c3 (String c2 (String c1 "")))) as (c4 & H4 & ->); [Z.to_euclidean_division_equations; lia|].
  destruct (pretty_go_step (z / 10 / 10 / 10 / 10) (String c4 (String c3 (String c2 (String c1 ""))))) as (c5 & H5 & ->); [Z.to_euclidean_division_equations; lia|].
  destruct (pretty_go_step (z / 10 / 10 / 10 / 10 / 10) (String c5 (String c4 (String c3 (String c2 (String c1 "")))))) as (c6 & H6 & ->); [Z.to_euclidean_division_equations; lia|].
  replace (z / 10 / 10 / 10 / 10 / 10 / 10) with 0 by (Z.to_euclidean_division_equations; lia).
  split; [reflexivity|].
  change (is_digit c6 && (is_digit c5 && (is_digit c4 && (is_digit c3 && (is_digit c2 && (is_digit c1 && true))))) = true).
  by rewrite H1, H2, H3, H4, H5, H6.
Qed.

(** the loop of [generatePairingCode] ends in its first iteration whatever 32-bit word is
    drawn, and the code has six digits. *)
Theorem pairing_code_six_digits fuel word n : is_word32 (word n) → ∃ code,
  generatePairingCode (S fuel) word n = Some (code, S n) ∧
  String.length code = 6%nat ∧ str_all is_digit code = true.
Proof.
  intros _. exists (pretty (word n mod 900000 + 100000)).
  assert (100000 <= word n mod 900000 + 100000 <= 999999) as H by (pose proof (Z.mod_pos_bound (word n) 900000); lia).
  split; [|by apply pretty_six]. unfold generatePairingCode. cbn [pairing_loop].
  rewrite (proj2 (Z.ltb_ge _ _)), (proj2 (Z.ltb_ge 999999 _)) by lia. reflexivity.
Qed.

Lemma pairing_code_six_digits_witness :
  generatePairingCode 1 (λ _, 4294967295) 0 = Some ("267295", 1%nat) ∧ String.length "267295" = 6%nat.
Proof.
  destruct (pairing_code_six_digits 0 (λ _, 4294967295) 0 ltac:(split; vm_compute; congruence)) as (code & E & Hl & _).
  split; [vm_compute; reflexivity|]. vm_compute in E. injection E as <-. exact Hl.
Defined.

(** ** What is stored *)

Definition working (e : Env) : Prop := browser e = true ∧ writable e = true.

(** Identifiers are keys, and the storage holds the state; nothing is stored before the first
    change. *)
Definition holds {V} (m : jsmap V) (c : cell (list V)) : Prop :=
  c = Some (TJson (map_values m)) ∨ c = None ∧ m = [].

Definition kept (s : MobileSync) : Prop :=
  (keyed (pairedDevices s) ∧ holds (pairedDevices s) (ls_devices s)) ∧
  (keyed (notifications s) ∧ holds (notifications s) (ls_notifications s)) ∧
  ls_sync s = TJson <$> syncData s.

Definition saved (s : MobileSync) : MobileSync :=
  MkMobile (pairedDevices s) (notifications s) (syncData s)
    (Some (TJson (map_values (pairedDevices s)))) (Some (TJson (map_values (notifications s))))
    (match syncData s with Some d => Some (TJson d) | None => ls_sync s end).

Lemma saveData_run s e : working e → saveData (s, e) = (Ok (), (saved s, e)).
Proof.
  intros [Hb Hw]. unfold saveData, guarded. js_run. cbn [snd]. rewrite Hb. cbn [js_when].
  erewrite run_try_Ok; [reflexivity|].
  erewrite run_Ok by (rewrite save_items_run, Hw; reflexivity).
  erewrite run_Ok by (rewrite save_items_run, Hw; reflexivity).
  js_run. destruct s as [d n [x|] cd cn cs]; cbn; [|reflexivity]. unfold ls_setItem. cbn. by rewrite Hw.
Qed.

Lemma saveData_bind {B} (k : () → M B) s e : working e → (saveData ≫= k) (s, e) = k () (saved s, e).
Proof. intros H. by rewrite (run_Ok _ _ _ _ _ (saveData_run s e H)). Qed.

Lemma synced_saved s : keyed (pairedDevices s) → keyed (notifications s) →
  (syncData s = None → ls_sync s = None) → kept (saved s).
Proof.
  intros Hd Hn Hs. split; [split; [done|by left]|]. split; [split; [done|by left]|].
  unfold saved. cbn. destruct (syncData s); [done|]. by apply Hs.
Qed.

Lemma kept_sync s : kept s → syncData s = None → ls_sync s = None.
Proof. intros (_ & _ & ->) ->. done. Qed.

Inductive operation :=
  | Pair (nm : string) (ty : DeviceType) (code : string) | Unpair (i : string)
  | Sync (i : string) (data : PartialSync) | Push (i ttl msg : string) (ty : PushType)
  | MarkRead (i : string) | Wipe (i : string).

Definition exec (o : operation) : M () :=
  match o with
  | Pair nm ty code => pairDevice nm ty code;; mret ()
  | Unpair i => unpairDevice i
  | Sync i data => syncWithDevice i data
  | Push i ttl msg ty => sendPushNotification i ttl msg ty;; mret ()
  | MarkRead i => markNotificationRead i
  | Wipe i => remoteWipe i
  end.

(** The page as its constructor leaves it. *)
Definition page (s : MobileSync) (e : Env) : MobileSync * Env :=
  (constructor (fresh (ls_devices s) (ls_notifications s) (ls_sync s), e)).2.

(** Operations after each other where the storage works, with reloads in between. *)
Inductive reachable : MobileSync * Env → Prop :=
  | first_visit e : working e → reachable (page (fresh None None None) e)
  | operated o w : reachable w → reachable (exec o w).2
  | reloaded w e' : reachable w → working e' → reachable (page w.1 e').

Lemma keyed_change_device i f s : (∀ d, id (f d) = id d) → keyed (pairedDevices s) → keyed (map_update i f (pairedDevices s)).
Proof. intros Hf Hk. by apply keyed_update. Qed.

(** Every operation ends by saving, in a state whose identifiers are still keys. *)
Lemma exec_kept o s e : kept s → working e → ∃ s' e', (exec o (s, e)).2 = (s', e') ∧ kept s' ∧ working e'.
Proof.
  intros Hk He. pose proof Hk as ((Hd & Hds) & (Hn & Hns) & Hs). pose proof (kept_sync s Hk) as Hnone.
  assert (working (tick (draw (tick e))) ∧ working (tick (tick e))) as [He3 He2] by done.
  destruct o as [nm ty code|i|i data|i ttl msg ty|i|i]; cbn [exec].
  - unfold pairDevice, put_item. js_run. rewrite saveData_bind by done. js_run. cbn [snd fst].
    eexists _, _. split; [reflexivity|]. split; [|done]. apply synced_saved; [|done|done].
    by apply (keyed_set (V:=PairedDevice) (MkDevice _ nm ty code _ None active None)).
  - unfold unpairDevice. js_run. rewrite saveData_run by done.
    eexists _, _. split; [reflexivity|]. split; [|done]. apply synced_saved; [by apply keyed_delete|done|done].
  - unfold syncWithDevice. js_run. cbn [fst snd]. destruct (map_has i _); cbn [negb]; [|by exists s, e]. js_run.
    unfold change_device. js_run. rewrite saveData_run by done.
    eexists _, _. split; [reflexivity|]. split; [|done]. apply synced_saved; [by apply keyed_change_device|done|done].
  - unfold sendPushNotification, put_item. js_run. cbn [fst snd]. destruct (map_has i _); cbn [negb]; [|by exists s, e].
    js_run. rewrite saveData_bind by done. js_run. cbn [fst snd].
    eexists _, _. split; [reflexivity|]. split; [|done]. apply synced_saved; [done| |done].
    by apply (keyed_set (V:=PushNotification) (MkPush _ i ttl msg ty _ false)).
  - unfold markNotificationRead. js_run. cbn [fst snd]. destruct (map_has i _); cbn [js_when]; [|by exists s, e].
    js_run. rewrite saveData_run by done.
    eexists _, _. split; [reflexivity|]. split; [|done]. apply synced_saved; [done|by apply keyed_update|done].
  - unfold remoteWipe. js_run. cbn [fst snd]. destruct (map_has i _) eqn:E; cbn [negb]; [|by exists s, e].
    unfold sendPushNotification, put_item, change_device. js_run. cbn [fst snd]. rewrite E. cbn [negb].
    js_run. rewrite saveData_bind by done. js_run. rewrite saveData_run by done. cbn [fst snd].
    eexists _, _. split; [reflexivity|]. split; [|done]. apply synced_saved.
    + by apply keyed_change_device.
    + by apply (keyed_set (V:=PushNotification) (MkPush _ i _ _ security _ false)).
    + cbn. destruct (syncData s); [done|]. by apply Hnone.
Qed.

(** A page loads what the storage holds. *)
Lemma load_held {V} `{StoreLaws MobileSync V} s e : items s = [] → ∀ m, keyed m → holds m (stored s) →
  load_items (s, e) = (Ok (), (match stored s with Some _ => set_items m s | None => s end, e)).
Proof.
  intros Hs m Hm [E|[E ->]]; unfold load_items; js_run; rewrite E; cbn [truthy_cell JSON_parse]; js_run; [|done].
  unfold modify_this. cbn [fst snd]. rewrite Hs. destruct Hm as [Hwf Hk]. by rewrite (map_set_all_values key [] m).
Qed.

Lemma sync_page_run s e : kept s → working e → page s e = (s, e).
Proof.
  intros ([Hd Hds] & [Hn Hns] & Hs) [Hb _]. unfold page, constructor, loadData, guarded. js_run. cbn [snd]. rewrite Hb. cbn [js_when].
  destruct s as [md mn sd cd cn cs]. cbn in *. subst cs.
  erewrite run_try_Ok; [reflexivity|].
  rewrite (run_Ok _ _ _ _ _ (load_held (V:=PairedDevice) (H:=device_store) (fresh cd cn (TJson <$> sd)) e eq_refl md Hd Hds)).
  set (s1 := match stored (fresh cd cn (TJson <$> sd)) with Some _ => _ | None => _ end).
  assert (s1 = MkMobile md [] None cd cn (TJson <$> sd)) as -> by (unfold s1; destruct Hds as [->|[-> ->]]; done).
  rewrite (run_Ok _ _ _ _ _ (load_held (V:=PushNotification) (H:=push_store) (MkMobile md [] None cd cn (TJson <$> sd)) e eq_refl mn Hn Hns)).
  cbn [stored push_store ls_notifications].
  set (s2 := match cn with Some _ => _ | None => _ end).
  assert (s2 = MkMobile md mn None cd cn (TJson <$> sd)) as -> by (unfold s2; destruct Hns as [->|[-> ->]]; done).
  js_run. by destruct sd.
Qed.

(** where the storage works, whatever was paired, unpaired, synchronised, sent, read and
    wiped, a reload of the page finds exactly the devices, notifications and synchronised
    data of before. *)
Theorem sync_state_survives_reload w e' : reachable w → working e' → page w.1 e' = (w.1, e').
Proof.
  intros Hw He'. apply sync_page_run; [|exact He'].
  assert (kept w.1 ∧ working w.2) as [H _]; [|exact H]. clear He'.
  induction Hw as [e He|o w _ [IH He]|w e1 _ [IH _] He1].
  - unfold page, constructor, loadData, guarded. js_run. cbn [snd]. destruct He as [Hb Hw']. rewrite Hb. cbn [js_when].
    split; [|by split]. split; [split; [apply keyed_nil|by right]|]. split; [split; [apply keyed_nil|by right]|done].
  - destruct w as [s e]. destruct (exec_kept o s e IH He) as (s' & e2 & -> & ? & ?). by split.
  - by rewrite sync_page_run.
Qed.

(** A state with a device, a notification and a wipe. *)
Definition demo : MobileSync * Env :=
  let w1 := (exec (Pair "phone" ios "not a code") (page (fresh None None None) demo_env)).2 in
  (exec (Wipe "device_1700000000000_ra") w1).2.

Lemma sync_state_survives_reload_witness : reachable demo ∧ map_size (pairedDevices demo.1) = 1%nat ∧
  page demo.1 demo_env = (demo.1, demo_env).
Proof.
  assert (reachable demo) as H by (apply operated, operated, first_visit; done).
  split; [exact H|]. split; [vm_compute; reflexivity|]. by apply sync_state_survives_reload.
Defined.

(** Pairing checks nothing: any text is a code, and the device is active at once. *)
Lemma pairDevice_any_code nm ty code s e : working e → ∃ d s' e',
  pairDevice nm ty code (s, e) = (Ok d, (s', e')) ∧ status d = active ∧ pairingCode d = code ∧
  map_get (id d) (pairedDevices s') = Some d.
Proof.
  intros He. unfold pairDevice, put_item. js_run. rewrite saveData_bind by done. js_run. cbn [fst snd].
  eexists _, _, _. split; [reflexivity|]. split; [done|]. split; [done|]. apply map_get_set_eq.
Qed.

(** A wipe leaves a notification in the wallet's own storage and marks the device; the wallet
    data that was synchronised stays. *)
Lemma remoteWipe_effect i s e d : working e → map_get i (pairedDevices s) = Some d → ∃ s' e' n,
  remoteWipe i (s, e) = (Ok (), (s', e')) ∧ map_get i (pairedDevices s') = Some (with_status inactive d) ∧
  syncData s' = syncData s ∧ map_get (n_id n) (notifications s') = Some n ∧ deviceId n = i.
Proof.
  intros He Hi. unfold remoteWipe. js_run. cbn [fst snd].
  assert (map_has i (pairedDevices s) = true) as E by (apply map_has_true; by exists d). rewrite E. cbn [negb].
  unfold sendPushNotification, put_item, change_device. js_run. cbn [fst snd]. rewrite E. cbn [negb].
  js_run. rewrite saveData_bind by done. js_run. rewrite saveData_run by done. cbn [fst snd].
  eexists _, _, (MkPush _ i _ _ security _ false). split; [reflexivity|]. cbn.
  split; [by rewrite map_get_update, Hi|]. split; [done|]. split; [apply map_get_set_eq|done].
Qed.
