(* ===== verification/Notifications.v ===== *)
(** * [NotificationService] (apps/web/wallet/src/services/notifications.ts)

    Notifications in memory and the newest hundred of them under their storage key, the
    preferences, and the listeners.  What reaches the user besides is a log; the browser's
    [Notification] and its permission are a parameter. *)

From Stdlib Require Import String Sorted.
From S2P Require Import Prelude JsMap JsNumber JsString Json Store.

Inductive NotificationType := transaction | confirmation | security | system.
#[export] Instance NotificationType_eq_dec : EqDecision NotificationType.
Proof. solve_decision. Defined.

Record Notification := MkNotification {
  id : string;
  type : NotificationType;
  title : string;
  message : string;
  timestamp : Z;
  read : bool;
  data : option json;
}.

Record NotificationPreferences := MkPreferences {
  enabled : bool;
  browserNotifications : bool;
  transactionNotifications : bool;
  confirmationNotifications : bool;
  securityAlerts : bool;
  soundEnabled : bool;
  minTransactionAmount : num;
  requiredConfirmations : num;
}.

(** [Partial<NotificationPreferences>] *)
Record PartialPreferences := MkPartial {
  p_enabled : option bool;
  p_browser : option bool;
  p_transaction : option bool;
  p_confirmation : option bool;
  p_security : option bool;
  p_sound : option bool;
  p_minAmount : option num;
  p_confirmations : option num;
}.

(** [{ ...p, ...u }] *)
Definition merge_preferences (p : NotificationPreferences) (u : PartialPreferences) : NotificationPreferences :=
  MkPreferences (default (enabled p) (p_enabled u)) (default (browserNotifications p) (p_browser u))
    (default (transactionNotifications p) (p_transaction u)) (default (confirmationNotifications p) (p_confirmation u))
    (default (securityAlerts p) (p_security u)) (default (soundEnabled p) (p_sound u))
    (default (minTransactionAmount p) (p_minAmount u)) (default (requiredConfirmations p) (p_confirmations u)).
Definition all_preferences (p : NotificationPreferences) : PartialPreferences :=
  MkPartial (Some (enabled p)) (Some (browserNotifications p)) (Some (transactionNotifications p))
    (Some (confirmationNotifications p)) (Some (securityAlerts p)) (Some (soundEnabled p))
    (Some (minTransactionAmount p)) (Some (requiredConfirmations p)).

Inductive Effect := Shown (n : string) | Beep.

Record NotificationService := MkService {
  notifications : jsmap Notification;
  preferences : NotificationPreferences;
  permissionGranted : bool;
  listeners : list nat;
  ls_notifications : cell (list Notification);
  ls_preferences : cell PartialPreferences;
  told : list (nat * list Notification);
  effects : list Effect;
}.

Definition set_notifications m s := MkService m (preferences s) (permissionGranted s) (listeners s) (ls_notifications s) (ls_preferences s) (told s) (effects s).
Definition set_preferences p s := MkService (notifications s) p (permissionGranted s) (listeners s) (ls_notifications s) (ls_preferences s) (told s) (effects s).
Definition set_permission b s := MkService (notifications s) (preferences s) b (listeners s) (ls_notifications s) (ls_preferences s) (told s) (effects s).
Definition set_listeners l s := MkService (notifications s) (preferences s) (permissionGranted s) l (ls_notifications s) (ls_preferences s) (told s) (effects s).
Definition set_ls_notifications c s := MkService (notifications s) (preferences s) (permissionGranted s) (listeners s) c (ls_preferences s) (told s) (effects s).
Definition set_ls_preferences c s := MkService (notifications s) (preferences s) (permissionGranted s) (listeners s) (ls_notifications s) c (told s) (effects s).
Definition tell l s := MkService (notifications s) (preferences s) (permissionGranted s) (listeners s) (ls_notifications s) (ls_preferences s) (told s ++ l) (effects s).
Definition add_effect x s := MkService (notifications s) (preferences s) (permissionGranted s) (listeners s) (ls_notifications s) (ls_preferences s) (told s) (effects s ++ [x]).

Abbreviation M := (js (NotificationService * Env)).

Definition getDefaultPreferences : NotificationPreferences :=
  MkPreferences true true true true true true (lit 1 2) (of_Z 1).

Definition fresh (cn : cell (list Notification)) (cp : cell PartialPreferences) : NotificationService :=
  MkService [] getDefaultPreferences false [] cn cp [] [].

(** Newest first. *)
Definition later (a b : Notification) : bool := 0 <? timestamp b - timestamp a.
Definition by_time (l : list Notification) : list Notification := js_sort later l.

Definition all_notifications (s : NotificationService) : list Notification := by_time (map_values (notifications s)).
Definition getAllNotifications : M (list Notification) := s ← this; mret (all_notifications s).

Definition notifyListeners : M () :=
  modify_this (λ s, tell ((λ l, (l, all_notifications s)) <$> listeners s) s).

Definition loadNotifications : M () :=
  js_try (ls_use (
    s ← this;
    match truthy_cell (ls_notifications s) with
    | None => mret ()
    | Some t => l ← JSON_parse t; modify_this (set_notifications (map_of_entries ((λ n, (id n, n)) <$> l)))
    end)) (λ _, mret ()).

Definition saveNotifications : M () :=
  js_try (
    s ← this;
    let limited := take 100 (all_notifications s) in
    ls_use (ls_setItem (set_ls_notifications (Some (TJson limited))));;
    notifyListeners) (λ _, mret ()).

Definition loadPreferences : M () :=
  js_try (ls_use (
    s ← this;
    match truthy_cell (ls_preferences s) with
    | None => mret ()
    | Some t => p ← JSON_parse t; modify_this (set_preferences (merge_preferences getDefaultPreferences p))
    end)) (λ _, mret ()).

Definition savePreferences : M () :=
  js_try (s ← this; ls_use (ls_setItem (set_ls_preferences (Some (TJson (all_preferences (preferences s)))))))
    (λ _, mret ()).

(** The browser: does it have [Notification], its permission, and the answer to a request. *)
Inductive Permission := granted | denied | default_permission.
#[export] Instance Permission_eq_dec : EqDecision Permission.
Proof. solve_decision. Defined.
Record Host := MkHost { has_notification : bool; permission : Permission; answer : Permission; has_audio : bool }.

Section Browser.
Context (h : Host).

(** The promise of [checkPermission] is dropped: outside the browser it is rejected. *)
Definition checkPermission : M () :=
  b ← is_browser;
  js_when (b && has_notification h) (modify_this (set_permission (bool_decide (permission h = granted)))).

Definition constructor : M () := loadNotifications;; loadPreferences;; checkPermission.

Definition requestPermission : M bool :=
  b ← is_browser;
  if negb b then js_throw "window is not defined"
  else if negb (has_notification h) then mret false
  else if bool_decide (permission h = granted) then modify_this (set_permission true);; mret true
  else if negb (bool_decide (permission h = denied)) then
    modify_this (set_permission (bool_decide (answer h = granted)));;
    s ← this;
    mret (permissionGranted s)
  else mret false.

Definition generateId : M string :=
  t ← date_now; r ← random36; mret ("notif_" +:+ pretty t +:+ "_" +:+ r).

Definition subscribe (listener : nat) : M () :=
  modify_this (λ s, if bool_decide (listener ∈ listeners s) then s else set_listeners (listeners s ++ [listener]) s);;
  modify_this (λ s, tell [(listener, all_notifications s)] s).
Definition unsubscribe (listener : nat) : M () :=
  modify_this (λ s, set_listeners (js_filter (λ l, negb (Nat.eqb l listener)) (listeners s)) s).

Definition playNotificationSound : M () :=
  b ← is_browser; js_when (b && has_audio h) (modify_this (add_effect Beep)).

(** Is a notification of this type wanted? *)
Definition wanted (p : NotificationPreferences) (ty : NotificationType) : bool :=
  enabled p &&
  match ty with
  | transaction => transactionNotifications p
  | confirmation => confirmationNotifications p
  | security => securityAlerts p
  | system => true
  end.

Definition notify (ty : NotificationType) (ttl msg : string) (d : option json) : M () :=
  s ← this;
  js_when (wanted (preferences s) ty) (
    i ← generateId;
    t ← date_now;
    modify_this (λ s, set_notifications (map_set i (MkNotification i ty ttl msg t false d) (notifications s)) s);;
    saveNotifications;;
    s ← this;
    js_when (soundEnabled (preferences s)) playNotificationSound;;
    b ← is_browser;
    js_when (browserNotifications (preferences s) && permissionGranted s && b && has_notification h)
      (modify_this (add_effect (Shown i)))).

Inductive Direction := incoming | outgoing.

Definition notifyTransaction (txid : string) (amount : num) (ty : Direction) : M () :=
  s ← this;
  if SFltb amount (minTransactionAmount (preferences s)) then mret ()
  else
    let title := match ty with incoming => "💰 Incoming Transaction" | outgoing => "📤 Outgoing Transaction" end in
    let message := (match ty with incoming => "Received" | outgoing => "Sent" end) +:+ " " +:+ to_fixed 8 amount +:+ " KBC" in
    notify transaction title message (Some (JObj [("txid", JStr txid); ("amount", JNum amount);
      ("type", JStr (match ty with incoming => "incoming" | outgoing => "outgoing" end))])).

Definition notifyConfirmation (txid : string) (confirmations amount : num) : M () :=
  s ← this;
  if SFltb confirmations (requiredConfirmations (preferences s)) then mret ()
  else
    let message := "Transaction of " +:+ to_fixed 8 amount +:+ " KBC has " +:+ num_to_string confirmations +:+ " confirmation"
      +:+ (if SFltb (of_Z 1) confirmations then "s" else "") in
    notify confirmation "✅ Transaction Confirmed" message
      (Some (JObj [("txid", JStr txid); ("confirmations", JNum confirmations); ("amount", JNum amount)])).

Definition notifySecurity (ttl msg : string) (d : option json) : M () := notify security ("🔒 " +:+ ttl) msg d.
Definition notifySystem (ttl msg : string) (d : option json) : M () := notify system ttl msg d.

Definition getUnreadNotifications : M (list Notification) :=
  l ← getAllNotifications; mret (js_filter (λ n, negb (read n)) l).
Definition getUnreadCount : M nat := l ← getUnreadNotifications; mret (length l).
Definition getNotification (i : string) : M (option Notification) := s ← this; mret (map_get i (notifications s)).

Definition as_read (n : Notification) : Notification :=
  MkNotification (id n) (type n) (title n) (message n) (timestamp n) true (data n).

Definition markAsRead (i : string) : M () :=
  s ← this;
  js_when (map_has i (notifications s))
    (modify_this (λ s, set_notifications (map_update i as_read (notifications s)) s);; saveNotifications).
Definition markAllAsRead : M () :=
  modify_this (λ s, set_notifications ((λ kv, (kv.1, as_read kv.2)) <$> notifications s) s);; saveNotifications.
Definition deleteNotification (i : string) : M () :=
  modify_this (λ s, set_notifications (map_delete i (notifications s)) s);; saveNotifications.
Definition clearAll : M () := modify_this (set_notifications []);; saveNotifications.

Definition getPreferences : M NotificationPreferences := s ← this; mret (preferences s).
Definition updatePreferences (u : PartialPreferences) : M () :=
  modify_this (λ s, set_preferences (merge_preferences (preferences s) u) s);; savePreferences.
Definition isPermissionGranted : M bool := s ← this; mret (permissionGranted s).

Definition getNotificationsByType (ty : NotificationType) : M (list Notification) :=
  l ← getAllNotifications; mret (js_filter (λ n, bool_decide (type n = ty)) l).
Definition getNotificationsByDateRange (startDate endDate : Z) : M (list Notification) :=
  l ← getAllNotifications; mret (js_filter (λ n, (startDate <=? timestamp n) && (timestamp n <=? endDate)) l).
End Browser.

(** * Theorems *)

Definition working (e : Env) : Prop := browser e = true ∧ writable e = true.

(** The state that a save leaves. *)
Definition saved (s : NotificationService) : NotificationService :=
  tell ((λ l, (l, all_notifications s)) <$> listeners s)
    (set_ls_notifications (Some (TJson (take 100 (all_notifications s)))) s).

Lemma write_notifications_run s e : working e → saveNotifications (s, e) = (Ok (), (saved s, e)).
Proof.
  intros [Hb Hw]. unfold saveNotifications, ls_use. erewrite run_try_Ok; [reflexivity|]. js_run. cbn [fst snd]. rewrite Hb.
  cbv iota. rewrite Hw. reflexivity.
Qed.

(** Keys are identifiers, and the storage has the newest hundred and the preferences. *)
Record kept (s : NotificationService) : Prop := {
  keys_wf : map_wf (notifications s);
  keys_ids : map_all (λ k n, id n = k) (notifications s);
  kept_newest : ls_notifications s = Some (TJson (take 100 (all_notifications s))) ∨
    ls_notifications s = None ∧ notifications s = [];
  kept_preferences : ls_preferences s = Some (TJson (all_preferences (preferences s))) ∨
    ls_preferences s = None ∧ preferences s = getDefaultPreferences;
}.

Lemma shown_saved s : map_wf (notifications s) → map_all (λ k n, id n = k) (notifications s) →
  (ls_preferences s = Some (TJson (all_preferences (preferences s))) ∨
   ls_preferences s = None ∧ preferences s = getDefaultPreferences) → kept (saved s).
Proof. intros Hw Hk Hp. split; [exact Hw|exact Hk|by left|exact Hp]. Qed.

Lemma kept_effect x s : kept s → kept (add_effect x s).
Proof. by intros [? ? ? ?]. Qed.
Lemma kept_tell l s : kept s → kept (tell l s).
Proof. by intros [? ? ? ?]. Qed.
Lemma kept_permission b s : kept s → kept (set_permission b s).
Proof. by intros [? ? ? ?]. Qed.
Lemma kept_listeners l s : kept s → kept (set_listeners l s).
Proof. by intros [? ? ? ?]. Qed.
#[local] Hint Resolve kept_effect kept_tell kept_permission kept_listeners : js.

Inductive operation :=
  | Notify (ty : NotificationType) (ttl msg : string) (d : option json)
  | NotifyTransaction (txid : string) (amount : num) (ty : Direction)
  | NotifyConfirmation (txid : string) (confirmations amount : num)
  | MarkAsRead (i : string) | MarkAllAsRead | Delete (i : string) | ClearAll
  | Update (u : PartialPreferences) | Subscribe (l : nat) | Unsubscribe (l : nat) | Ask.

Definition exec (h : Host) (o : operation) : M () :=
  match o with
  | Notify ty ttl msg d => notify h ty ttl msg d
  | NotifyTransaction t a ty => notifyTransaction h t a ty
  | NotifyConfirmation t c a => notifyConfirmation h t c a
  | MarkAsRead i => markAsRead i
  | MarkAllAsRead => markAllAsRead
  | Delete i => deleteNotification i
  | ClearAll => clearAll
  | Update u => updatePreferences u
  | Subscribe l => subscribe l
  | Unsubscribe l => unsubscribe l
  | Ask => requestPermission h;; mret ()
  end.

(** A call keeps the invariant, and the storage working. *)
Definition steady {A} (m : M A) : Prop :=
  ∀ s e, kept s → working e → kept (m (s, e)).2.1 ∧ working (m (s, e)).2.2.

Lemma steady_save f : (∀ s, kept s → map_wf (notifications (f s)) ∧ map_all (λ k n, id n = k) (notifications (f s)) ∧
    ls_preferences (f s) = ls_preferences s ∧ preferences (f s) = preferences s) →
  steady (modify_this f;; saveNotifications).
Proof.
  intros Hf s e Hk He. js_run. rewrite write_notifications_run by done. split; [|done]. cbn [fst snd].
  destruct (Hf s Hk) as (Hw & Hi & Hl & Hp). apply shown_saved; [done|done|]. rewrite Hl, Hp. apply Hk.
Qed.

Lemma steady_notify h ty ttl msg d : steady (notify h ty ttl msg d).
Proof.
  intros s e Hk He. unfold notify. js_run. destruct (wanted _ ty); cbn [js_when]; [|by split].
  unfold generateId. js_run. cbn [fst snd].
  erewrite run_Ok by (apply write_notifications_run; done). js_run. cbn [fst snd].
  match goal with |- context [saved ?x] => set (s1 := saved x) end.
  assert (kept s1) as Hk1.
  { apply shown_saved; [by apply map_wf_set, Hk|by apply map_all_set; [|apply Hk]|apply Hk]. }
  set (e1 := tick (draw (tick e))). assert (working e1) as He1 by done.
  unfold playNotificationSound. clearbody s1 e1.
  destruct (soundEnabled (preferences s1)); cbn [js_when]; js_run; cbn [fst snd];
    [destruct (_ && has_audio h); cbn [js_when]; js_run; cbn [fst snd]|];
    (destruct (_ && has_notification h); cbn [js_when]); js_unfold; auto with js.
Qed.

Lemma exec_steady h o : steady (exec h o).
Proof.
  destruct o as [ty ttl msg d|t a ty|t c a|i| |i| |u|l|l|]; cbn [exec].
  - apply steady_notify.
  - intros s e Hk He. unfold notifyTransaction. js_run. destruct (SFltb _ _); [by split|by apply steady_notify].
  - intros s e Hk He. unfold notifyConfirmation. js_run. destruct (SFltb _ _); [by split|by apply steady_notify].
  - intros s e Hk He. unfold markAsRead. js_run. destruct (map_has i _); cbn [js_when]; [|by split].
    apply steady_save; [|done|done]. intros s0 Hk0. cbn. split; [by apply map_wf_update, Hk0|].
    split; [by apply map_all_update; [|apply Hk0]|done].
  - apply steady_save. intros s0 [Hw Hi _ _]. cbn. split; [|split; [|done]].
    + unfold map_wf, map_keys in *. by rewrite <-list_fmap_compose.
    + unfold map_all in *. by apply Forall_fmap.
  - apply steady_save. intros s0 [Hw Hi _ _]. cbn. split; [by apply map_wf_delete|]. split; [by apply map_all_delete|done].
  - apply steady_save. intros s0 _. cbn. split; [apply map_wf_nil|split; [apply map_all_nil|done]].
  - intros s e [Hw Hi Hn Hp] [Hb Hwr]. unfold updatePreferences, savePreferences, ls_use. js_run.
    erewrite run_try_Ok; [|js_run; cbn [fst snd]; rewrite Hb; unfold ls_setItem; cbn [snd]; rewrite Hwr; reflexivity].
    split; [|done]. split; [exact Hw|exact Hi|exact Hn|by left].
  - intros s e Hk He. unfold subscribe. js_run. cbn [fst snd]. case_bool_decide; js_unfold; auto with js.
  - intros s e Hk He. unfold unsubscribe. js_unfold. auto with js.
  - intros s e Hk He. unfold requestPermission. js_run. cbn [snd]. destruct (browser e); cbn [negb]; [|by split].
    destruct (has_notification h), (bool_decide (permission h = granted)), (bool_decide (permission h = denied));
      cbn [negb]; js_run; js_unfold; (split; [|exact He]); try apply kept_permission; exact Hk.
Qed.

(** *** Reloading *)

Lemma js_sort_sorted_id {A} (gt : A → A → bool) l : StronglySorted (λ a b, gt a b = false) l → js_sort gt l = l.
Proof.
  induction 1 as [|x l _ IH Hx]; [done|]. cbn [js_sort foldr]. change (foldr (sort_insert gt) [] l) with (js_sort gt l).
  rewrite IH. destruct l as [|y l]; [done|]. cbn. inversion Hx as [|? ? Hy _]; subst. by rewrite Hy.
Qed.

Lemma by_time_sorted l : StronglySorted (λ a b, later a b = false) (by_time l).
Proof.
  apply (js_sort_sorted _ (λ _, True)); [unfold later; intros; lia|unfold later; intros; lia|by apply Forall_forall].
Qed.

Lemma sorted_take {A} (R : A → A → Prop) n l : StronglySorted R l → StronglySorted R (take n l).
Proof.
  intros H. revert n. induction H as [|x l _ IH Hx]; intros [|n]; try constructor; [apply IH|].
  by apply Forall_take.
Qed.

(** A new page over the storage of [s]. *)
Definition page (h : Host) (s : NotificationService) (e : Env) : NotificationService * Env :=
  (constructor h (fresh (ls_notifications s) (ls_preferences s), e)).2.

Lemma newest_distinct s : kept s → NoDup (id <$> take 100 (all_notifications s)).
Proof.
  intros [Hw Hi _ _]. rewrite fmap_take.
  eapply sublist_NoDup; [|apply sublist_take]. unfold all_notifications, by_time.
  rewrite js_sort_perm. unfold map_wf, map_keys, map_values in *. rewrite <-list_fmap_compose.
  erewrite list_fmap_ext; [exact Hw|]. intros k kv Hkv. cbn.
  unfold map_all in Hi. rewrite Forall_forall in Hi. apply Hi. by eapply list_elem_of_lookup_2.
Qed.

Lemma newest_wf s : kept s → map_wf ((λ n, (id n, n)) <$> take 100 (all_notifications s)).
Proof. intros Hk. unfold map_wf, map_keys. rewrite <-list_fmap_compose. exact (newest_distinct s Hk). Qed.

Lemma newest_as_map s : kept s → let l := take 100 (all_notifications s) in
  map_of_entries ((λ n, (id n, n)) <$> l) = (λ n, (id n, n)) <$> l.
Proof. intros Hk. cbv zeta. unfold map_of_entries. rewrite (map_of_entries_id []); [done|]. by apply newest_wf. Qed.

Lemma shown_page_run h s e : kept s → working e → ∃ s', page h s e = (s', e) ∧
  all_notifications s' = take 100 (all_notifications s) ∧ preferences s' = preferences s ∧ kept s'.
Proof.
  intros Hk [Hb Hw]. pose proof Hk as [Hwf Hi Hn Hp]. unfold page, constructor.
  set (m := (λ n, (id n, n)) <$> take 100 (all_notifications s)).
  assert (∃ s1, loadNotifications (fresh (ls_notifications s) (ls_preferences s), e) = (Ok (), (s1, e)) ∧
    notifications s1 = m ∧ ls_notifications s1 = ls_notifications s ∧ ls_preferences s1 = ls_preferences s ∧
    preferences s1 = getDefaultPreferences) as (s1 & E1 & Hm1 & Hn1 & Hp1 & Hd1).
  { unfold loadNotifications, ls_use. destruct Hn as [En|[En Em]].
    - eexists. split; [erewrite run_try_Ok; [reflexivity|]; js_run; cbn [fst snd]; rewrite Hb; js_run; cbn [fresh ls_notifications];
        rewrite En; cbn [truthy_cell JSON_parse]; js_run; rewrite newest_as_map by done; reflexivity|].
      by rewrite En.
    - eexists. split; [erewrite run_try_Ok; [reflexivity|]; js_run; cbn [fst snd]; rewrite Hb; js_run; cbn [fresh ls_notifications];
        rewrite En; reflexivity|].
      rewrite En. split; [|done]. unfold m, all_notifications. by rewrite Em. }
  rewrite (run_Ok _ _ _ _ _ E1).
  assert (∃ s2, loadPreferences (s1, e) = (Ok (), (s2, e)) ∧ notifications s2 = m ∧ ls_notifications s2 = ls_notifications s ∧
    ls_preferences s2 = ls_preferences s ∧ preferences s2 = preferences s) as (s2 & E2 & Hm2 & Hn2 & Hp2 & Hd2).
  { unfold loadPreferences, ls_use. destruct Hp as [Ep|[Ep Eq]].
    - eexists. split; [erewrite run_try_Ok; [reflexivity|]; js_run; cbn [fst snd]; rewrite Hb; js_run; cbn [fst]; rewrite Hp1, Ep;
        cbn [truthy_cell JSON_parse]; js_run; reflexivity|].
      cbn. split; [done|]. split; [done|]. split; [done|]. by destruct (preferences s).
    - eexists. split; [erewrite run_try_Ok; [reflexivity|]; js_run; cbn [fst snd]; rewrite Hb; js_run; cbn [fst]; rewrite Hp1, Ep;
        reflexivity|].
      by rewrite Hd1, Eq. }
  rewrite (run_Ok _ _ _ _ _ E2).
  set (s3 := if has_notification h then set_permission (bool_decide (permission h = granted)) s2 else s2).
  assert (all_notifications s3 = take 100 (all_notifications s)) as Hall.
  { assert (notifications s3 = m) as Hm3 by (unfold s3; by destruct (has_notification h)).
    unfold all_notifications at 1. rewrite Hm3. unfold m, map_values. rewrite <-list_fmap_compose.
    rewrite (list_fmap_ext _ (λ x, x)) by done. rewrite list_fmap_id.
    apply js_sort_sorted_id, sorted_take, by_time_sorted. }
  assert (notifications s3 = m ∧ ls_notifications s3 = ls_notifications s ∧ ls_preferences s3 = ls_preferences s ∧
    preferences s3 = preferences s) as (Hm3 & Hn3 & Hp3 & Hd3) by (unfold s3; by destruct (has_notification h)).
  exists s3. split; [|split; [exact Hall|split; [exact Hd3|]]].
  - unfold checkPermission. js_run. cbn [snd]. rewrite Hb. cbn [andb]. unfold s3. by destruct (has_notification h).
  - split.
    + rewrite Hm3. by apply newest_wf.
    + rewrite Hm3. unfold m, map_all. apply Forall_fmap, Forall_forall. done.
    + rewrite Hn3, Hall, take_take, Nat.min_id. destruct Hn as [->|[-> Em]]; [by left|right].
      split; [done|]. rewrite Hm3. unfold m, all_notifications. by rewrite Em.
    + by rewrite Hp3, Hd3.
Qed.

(** Operations after each other where the storage works, with reloads in between. *)
Inductive reachable (h : Host) : NotificationService * Env → Prop :=
  | first_visit e : working e → reachable h (page h (fresh None None) e)
  | operated o w : reachable h w → reachable h (exec h o w).2
  | reloaded w e : reachable h w → working e → reachable h (page h w.1 e).

Lemma fresh_kept : kept (fresh None None).
Proof. split; [apply map_wf_nil|apply map_all_nil|by right|by right]. Qed.

Lemma reachable_kept h w : reachable h w → kept w.1 ∧ working w.2.
Proof.
  induction 1 as [e He|o [s e] _ [Hk He]|w e _ [Hk _] He].
  - destruct (shown_page_run h _ e fresh_kept He) as (s' & -> & _ & _ & Hk). by split.
  - by apply exec_steady.
  - destruct (shown_page_run h _ e Hk He) as (s' & -> & _ & _ & Hk'). by split.
Qed.

(** where the storage works, a reload shows the newest hundred notifications of before, in
    the same order, with the preferences of before: those it loses are no newer than any it
    shows. *)
Theorem reload_shows_newest h w e' : reachable h w → working e' →
  let s := w.1 in let s' := (page h s e').1 in
  all_notifications s' = take 100 (all_notifications s) ∧ preferences s' = preferences s ∧
  (∀ a b, a ∈ all_notifications s' → b ∈ drop 100 (all_notifications s) → timestamp b <= timestamp a).
Proof.
  intros Hw He'. cbv zeta. destruct (reachable_kept h w Hw) as [Hk _].
  destruct (shown_page_run h w.1 e' Hk He') as (s' & -> & Ha & Hp & _). cbn [fst]. split; [exact Ha|]. split; [exact Hp|].
  intros a b Hin Hb. rewrite Ha in Hin. pose proof (by_time_sorted (map_values (notifications w.1))) as Hs.
  change (by_time _) with (all_notifications w.1) in Hs. rewrite <-(take_drop 100 (all_notifications w.1)) in Hs.
  assert (later a b = false) as E.
  { clear -Hs Hin Hb. induction (take 100 (all_notifications w.1)) as [|x l IH]; [by apply not_elem_of_nil in Hin|].
    cbn in Hs. inversion Hs as [|? ? Hs' Hx]; subst. apply elem_of_cons in Hin as [->|Hin]; [|by apply IH].
    rewrite Forall_forall in Hx. apply Hx. apply elem_of_app. by right. }
  unfold later in E. lia.
Qed.

Definition demo_host : Host := MkHost true granted granted true.
Definition demo_page : NotificationService * Env :=
  (exec demo_host (Notify security "Login" "New device" None) (page demo_host (fresh None None) demo_env)).2.

Lemma reload_shows_newest_witness : reachable demo_host demo_page ∧
  length (all_notifications demo_page.1) = 1%nat ∧
  all_notifications (page demo_host demo_page.1 demo_env).1 = take 100 (all_notifications demo_page.1).
Proof.
  assert (reachable demo_host demo_page) as H by (apply operated, first_visit; done).
  split; [exact H|]. split; [vm_compute; reflexivity|]. by apply (reload_shows_newest demo_host demo_page demo_env).
Defined.

(** A type that is switched off, or everything switched off, leaves no trace. *)
Lemma unwanted_leaves_nothing h ty ttl msg d s e : wanted (preferences s) ty = false →
  notify h ty ttl msg d (s, e) = (Ok (), (s, e)).
Proof. intros H. unfold notify. js_run. cbn [fst]. by rewrite H. Qed.

(** After [markAllAsRead] nothing is unread. *)
Lemma markAllAsRead_unread s e : working e → (getUnreadCount (markAllAsRead (s, e)).2).1 = Ok 0%nat.
Proof.
  intros He. unfold markAllAsRead. js_run. rewrite write_notifications_run by done. cbn [fst snd].
  unfold getUnreadCount, getUnreadNotifications, getAllNotifications. js_run. unfold mret, js_ret. cbn [fst]. do 2 f_equal.
  unfold all_notifications, by_time. cbn [notifications saved tell set_ls_notifications set_notifications fst].
  destruct (js_filter _ _) as [|n l] eqn:E; [done|exfalso].
  assert (n ∈ js_filter (λ n, negb (read n)) (js_sort later (map_values ((λ kv, (kv.1, as_read kv.2)) <$> notifications s)))) as Hn
    by (rewrite E; left).
  apply elem_of_js_filter in Hn as [Hn Hr]. rewrite js_sort_perm in Hn. unfold map_values in Hn.
  rewrite <-list_fmap_compose in Hn. apply list_elem_of_fmap in Hn as (kv & -> & _). done.
Qed.
