(* ===== verification/MultiCurrency.v ===== *)
(** * [MultiCurrencyService] (apps/web/wallet/src/services/multiCurrency.ts)

    Tokens by identifier with their stored copy, conversion between them, and the import of
    token lists. *)

From Stdlib Require Import Ascii String.
From stdpp Require Import pretty.
From S2P Require Import Prelude JsMap JsNumber JsString Store Stamps FloatFacts.

(** [Omit<Token, 'id' | 'balance' | 'balanceUSD'>] *)
Record TokenInfo := MkInfo {
  symbol : string;
  name : string;
  decimals : Z;
  contractAddress : option string;
  icon : option string;
  priceUSD : num;
  change24h : num;
  chainId : option Z;
}.

Record Token := MkToken { id : string; info : TokenInfo; balance : num; balanceUSD : num }.

Record TokenList := MkList { list_name : string; list_tokens : list TokenInfo }.

Record MultiCurrency := MkMulti { tokens : jsmap Token; ls_tokens : cell (list Token) }.

#[export] Instance token_store : Store MultiCurrency Token := {|
  key := id;
  items := tokens;
  set_items := λ m s, MkMulti m (ls_tokens s);
  stored := ls_tokens;
  set_stored := λ c s, MkMulti (tokens s) c;
|}.
#[export] Instance token_laws : StoreLaws MultiCurrency Token.
Proof. by constructor. Qed.

Abbreviation M := (js (MultiCurrency * Env)).

Definition fresh (c : cell (list Token)) : MultiCurrency := MkMulti [] c.

Definition loadTokens : M () := guarded load_items.
Definition saveTokens : M () := guarded save_items.

Definition addToken (token : TokenInfo) : M Token :=
  t ← date_now;
  r ← random36;
  let newToken := MkToken ("token_" +:+ pretty t +:+ "_" +:+ r) token nzero nzero in
  put_item newToken;;
  saveTokens;;
  mret newToken.

Definition defaults : list TokenInfo := [
  MkInfo "KC" "KuberCoin" 8 None (Some "💎") (lit 12550 2) (lit 52 1) None;
  MkInfo "BTC" "Bitcoin" 8 None (Some "₿") (of_Z 45000) (SFopp (lit 21 1)) None;
  MkInfo "ETH" "Ethereum" 18 None (Some "Ξ") (of_Z 2500) (lit 35 1) None].

Definition initializeDefaultTokens : M () :=
  s ← this;
  if (map_size (tokens s) =? 0)%nat then js_forEach (λ token, addToken token;; mret ()) defaults else mret ().

Definition constructor : M () := loadTokens;; initializeDefaultTokens.

Definition getTokens : M (list Token) :=
  s ← this; mret (js_sort (λ a b, SFltb nzero (nsub (balanceUSD b) (balanceUSD a))) (map_values (tokens s))).

Definition getToken (i : string) : M (option Token) := s ← this; mret (map_get i (tokens s)).

Definition with_balance (b : num) (t : Token) : Token := MkToken (id t) (info t) b (nmul b (priceUSD (info t))).

Definition updateTokenBalance (i : string) (b : num) : M () :=
  s ← this;
  if negb (map_has i (tokens s)) then js_throw "Token not found"
  else
    modify_this (λ s, set_items (map_update i (with_balance b) (tokens s)) s);;
    saveTokens.

Definition removeToken (i : string) : M () :=
  modify_this (λ s, set_items (map_delete i (tokens s)) s);;
  saveTokens.

Definition getTotalPortfolioValue : M num := s ← this; mret (sum_by balanceUSD (map_values (tokens s))).

Definition with_symbol (sym : string) (t : Token) : bool := str_eqb (symbol (info t)) sym.

Definition convertCurrency (amount : num) (fromSymbol toSymbol : string) : M num :=
  s ← this;
  match js_find (with_symbol fromSymbol) (map_values (tokens s)), js_find (with_symbol toSymbol) (map_values (tokens s)) with
  | Some fromToken, Some toToken =>
      let amountUSD := nmul amount (priceUSD (info fromToken)) in
      mret (ndiv amountUSD (priceUSD (info toToken)))
  | _, _ => js_throw "Currency not found"
  end.

(** Is there a token with the symbol and the contract of [token]? *)
Definition same_token (token : TokenInfo) (t : Token) : bool :=
  str_eqb (symbol (info t)) (symbol token) && bool_decide (contractAddress (info t) = contractAddress token).
Definition exists_token (token : TokenInfo) (s : MultiCurrency) : bool :=
  js_some (same_token token) (map_values (tokens s)).

Fixpoint import_loop (l : list TokenInfo) (imported : Z) : M Z :=
  match l with
  | [] => mret imported
  | token :: l' =>
      s ← this;
      if exists_token token s then import_loop l' imported
      else addToken token;; import_loop l' (imported + 1)
  end.
Definition importTokenList (l : TokenList) : M Z := import_loop (list_tokens l) 0.

(** * Theorems *)

Definition new_token_id (t : Z) (r : string) : string := stamp "token_" t r.

Lemma addToken_run token s e : ∃ s' e' t, addToken token (s, e) = (Ok t, (s', e')) ∧
  tokens s' = map_set (new_token_id (clock e (ticks e)) (entropy e (draws e))) t (tokens s) ∧ info t = token ∧
  balance t = nzero ∧ balanceUSD t = nzero ∧ id t = new_token_id (clock e (ticks e)) (entropy e (draws e)) ∧
  later_env e e' ∧ draws e' = S (draws e).
Proof.
  unfold addToken, put_item, saveTokens. js_run. erewrite run_Ok by apply guarded_save_run. js_run.
  eexists _, _, _. split; [reflexivity|]. unfold guarded_result, later_env. cbn. destruct (_ && _); cbn; repeat split; lia.
Qed.

Lemma exists_added token k t s s' : tokens s' = (tokens s ++ [(k, t)])%list →
  exists_token token s' = exists_token token s || same_token token t.
Proof.
  intros E. unfold exists_token, map_values, js_some. rewrite E, fmap_app, existsb_app. cbn. by rewrite orb_false_r.
Qed.

Lemma same_info token t : info t = token → same_token token t = true.
Proof. intros <-. unfold same_token. by rewrite str_eqb_refl, bool_decide_eq_true_2. Qed.

(** What an import does: it appends the tokens that were missing, and counts them. *)
Lemma import_loop_run l n s e : distinct_stamps "token_" e → unused_stamps "token_" e (tokens s) → ∃ s' e' added,
  import_loop l n (s, e) = (Ok (n + Z.of_nat (length added)), (s', e')) ∧
  tokens s' = (tokens s ++ added)%list ∧ (info <$> added.*2) `sublist_of` l ∧
  (∀ token, exists_token token s = true → exists_token token s' = true) ∧
  (∀ token, token ∈ l → exists_token token s' = true).
Proof.
  revert n s e. induction l as [|token l IH]; intros n s e Hid Hu.
  { exists s, e, []. cbn. rewrite Z.add_0_r, app_nil_r. split; [done|]. split; [done|]. split; [constructor|].
    split; [done|]. intros token H. by apply not_elem_of_nil in H. }
  cbn [import_loop]. js_run. cbn [fst]. destruct (exists_token token s) eqn:Ex.
  - destruct (IH n s e Hid Hu) as (s' & e' & added & Hrun & Ht & Hsub & Hkeep & Hall).
    exists s', e', added. split; [exact Hrun|]. split; [exact Ht|]. split; [by constructor|]. split; [exact Hkeep|].
    intros token' [->|H]%elem_of_cons; [by apply Hkeep|by apply Hall].
  - destruct (addToken_run token s e) as (s1 & e1 & t & E & Ht1 & Hi & _ & _ & _ & He & Hd).
    rewrite (run_Ok _ _ _ _ _ E).
    rewrite map_set_absent in Ht1 by (apply Hu; lia).
    destruct (IH (n + 1) s1 e1) as (s' & e' & added & Hrun & Ht & Hsub & Hkeep & Hall).
    + by apply (distinct_later _ e).
    + assert (tokens s1 = map_set (stamp "token_" (clock e (ticks e)) (entropy e (draws e))) t (tokens s)) as ->
        by (rewrite Ht1, map_set_absent; [done|apply Hu; lia]).
      apply unused_next; [done|done|done|lia].
    + exists s', e', ((new_token_id (clock e (ticks e)) (entropy e (draws e)), t) :: added). split; [|split; [|split; [|split]]].
      * rewrite Hrun. do 2 f_equal. cbn [length]. lia.
      * rewrite Ht, Ht1, <-app_assoc. done.
      * cbn. rewrite Hi. by constructor.
      * intros token' H. apply Hkeep. rewrite (exists_added _ _ _ _ _ Ht1), H. done.
      * intros token' [->|H]%elem_of_cons; [|by apply Hall].
        apply Hkeep. rewrite (exists_added _ _ _ _ _ Ht1), (same_info _ _ Hi). apply orb_true_r.
Qed.

(** An import of tokens that all exist changes nothing. *)
Lemma import_nothing l n s e : (∀ token, token ∈ l → exists_token token s = true) → import_loop l n (s, e) = (Ok n, (s, e)).
Proof.
  induction l as [|token l IH]; intros H; [done|]. cbn [import_loop]. js_run. cbn [fst].
  rewrite (H token ltac:(left)). apply IH. intros token' Ht. apply H. by right.
Qed.

(** importing a token list keeps every token, appends the missing ones in the order of the
    list and returns how many they are; afterwards every token of the list is there, so that
    importing it again returns zero and changes nothing. *)
Theorem import_is_idempotent l s e : distinct_stamps "token_" e → unused_stamps "token_" e (tokens s) → ∃ s' e' added,
  importTokenList l (s, e) = (Ok (Z.of_nat (length added)), (s', e')) ∧
  tokens s' = (tokens s ++ added)%list ∧ (info <$> added.*2) `sublist_of` list_tokens l ∧
  (∀ token, token ∈ list_tokens l → exists_token token s' = true) ∧
  importTokenList l (s', e') = (Ok 0, (s', e')).
Proof.
  intros Hid Hu. destruct (import_loop_run (list_tokens l) 0 s e Hid Hu) as (s' & e' & added & Hrun & Ht & Hsub & _ & Hall).
  exists s', e', added. split; [exact Hrun|]. split; [exact Ht|]. split; [exact Hsub|]. split; [exact Hall|].
  by apply import_nothing.
Qed.

Lemma import_is_idempotent_witness : ∃ s' e',
  importTokenList (MkList "defaults" (defaults ++ defaults)) (fresh None, steady_env) = (Ok 3, (s', e')) ∧
  importTokenList (MkList "defaults" (defaults ++ defaults)) (s', e') = (Ok 0, (s', e')).
Proof.
  destruct (import_is_idempotent (MkList "defaults" (defaults ++ defaults)) (fresh None) steady_env (steady_distinct _)
    (unused_nil _ _)) as (s' & e' & added & E & _ & _ & _ & H).
  exists s', e'. split; [|exact H].
  assert ((importTokenList (MkList "defaults" (defaults ++ defaults)) (fresh None, steady_env)).1 = Ok 3) as E3 by (vm_compute; reflexivity).
  rewrite E in *. cbn in E3. by rewrite E3.
Defined.

(** ** Values *)

(** The value of a token is its balance at its price. *)
Definition valued (t : Token) : Prop := balanceUSD t = nmul (balance t) (priceUSD (info t)).

(** A finite price, positive or zero. *)
Definition priced (token : TokenInfo) : Prop :=
  is_finite (priceUSD token) = true ∧ (priceUSD token = nzero ∨ SFltb nzero (priceUSD token) = true).

Lemma zero_times token : priced token → nmul nzero (priceUSD token) = nzero.
Proof.
  intros [Hf [->|Hp]]; [done|]. destruct (priceUSD token) as [[]|[]| |[] m ex]; try discriminate; reflexivity.
Qed.

Inductive operation :=
  | Add (token : TokenInfo) | UpdateBalance (i : string) (b : num) | Remove (i : string) | Import (l : TokenList).

Definition exec (o : operation) : M () :=
  match o with
  | Add token => addToken token;; mret ()
  | UpdateBalance i b => updateTokenBalance i b
  | Remove i => removeToken i
  | Import l => importTokenList l;; mret ()
  end.

Definition all_valued (s : MultiCurrency) : Prop := map_all (λ _, valued) (tokens s).

Lemma valued_set m s : map_all (λ _, valued) m → all_valued (set_items m s).
Proof. done. Qed.

Lemma valued_save : preserves all_valued saveTokens.
Proof. unfold saveTokens, guarded, save_items, write_json. js_preserve. Qed.
#[local] Hint Resolve valued_save : js.

Lemma valued_add token : priced token → preserves all_valued (addToken token).
Proof.
  intros Hp [s e] Hs. destruct (addToken_run token s e) as (s' & e' & t & -> & Ht & Hi & Hb & Hu & _).
  cbn. unfold all_valued. rewrite Ht. apply map_all_set; [|exact Hs]. unfold valued. rewrite Hb, Hu, Hi.
  symmetry. by apply zero_times.
Qed.

Lemma valued_import l n : Forall priced l → preserves all_valued (import_loop l n).
Proof.
  intros Hl. revert n. induction Hl as [|token l Ht _ IH]; intros n; cbn [import_loop]; [apply preserves_ret|].
  apply preserves_this. intros s _. destruct (exists_token token s); [apply IH|].
  apply preserves_bind; [by apply valued_add|]. intros _. apply IH.
Qed.

Lemma exec_valued o : match o with Add token => priced token | Import l => Forall priced (list_tokens l) | _ => True end →
  preserves all_valued (exec o).
Proof.
  intros Ho. destruct o as [token|i b|i|l]; cbn [exec].
  - apply preserves_bind; [by apply valued_add|]. intros _. apply preserves_ret.
  - unfold updateTokenBalance. js_preserve. apply preserves_modify. intros s0 Hs0.
    by apply (map_all_update (λ _, valued)).
  - unfold removeToken. js_preserve. apply preserves_modify. intros s0 Hs0. by apply (map_all_delete (λ _, valued)).
  - apply preserves_bind; [by apply valued_import|]. intros _. apply preserves_ret.
Qed.

Lemma defaults_priced : Forall priced defaults.
Proof. repeat constructor; right; vm_compute; reflexivity. Qed.

Lemma constructor_valued e : all_valued (constructor (fresh None, e)).2.1.
Proof.
  assert (preserves all_valued initializeDefaultTokens) as H.
  { unfold initializeDefaultTokens. apply preserves_this. intros s Hs. destruct (_ =? _)%nat; [|apply preserves_ret].
    apply preserves_forEach. intros token Ht. apply preserves_bind; [|intros; apply preserves_ret].
    apply valued_add. pose proof defaults_priced as Hd. rewrite Forall_forall in Hd. by apply Hd. }
  unfold constructor, loadTokens, guarded. js_run. cbn [snd].
  destruct (browser e); cbn [js_when].
  - erewrite run_Ok; [|erewrite run_try_Ok; [reflexivity|]; unfold load_items; js_run; reflexivity].
    apply H. apply map_all_nil.
  - apply (H (fresh None, e)). apply map_all_nil.
Qed.

(** A run of operations in which the tokens added have finite prices that are not negative. *)
Inductive run : MultiCurrency * Env → Prop :=
  | made e : run (constructor (fresh None, e)).2
  | next o w : match o with Add token => priced token | Import l => Forall priced (list_tokens l) | _ => True end →
      run w → run (exec o w).2.

(** from the first visit on, whatever is added, imported, updated and removed, the total of
    the portfolio is the sum of each token's balance at its price. *)
Theorem portfolio_total w : run w →
  (getTotalPortfolioValue w).1 = Ok (sum_by (λ t, nmul (balance t) (priceUSD (info t))) (map_values (tokens w.1))).
Proof.
  intros Hw. assert (all_valued w.1) as Hv.
  { induction Hw as [e|o w Ho _ IH]; [apply constructor_valued|by apply exec_valued]. }
  unfold getTotalPortfolioValue. js_run. unfold mret, js_ret. cbn [fst]. f_equal. unfold sum_by.
  unfold all_valued, map_all in Hv. generalize nzero as a. unfold map_values.
  induction Hv as [|[k t] m Ht _ IH]; intros a; [done|]. cbn. rewrite Ht. apply IH.
Qed.

Lemma portfolio_total_witness :
  let w := (exec (UpdateBalance "token_1700000000000_ra" (of_Z 2)) (constructor (fresh None, demo_env)).2).2 in
  run w ∧ (getTotalPortfolioValue w).1 = Ok (of_Z 251) ∧
  (getTotalPortfolioValue w).1 = Ok (sum_by (λ t, nmul (balance t) (priceUSD (info t))) (map_values (tokens w.1))).
Proof.
  intros w. assert (run w) as H by (apply next; [done|apply made]).
  split; [exact H|]. split; [vm_compute; reflexivity|exact (portfolio_total w H)].
Defined.

(** Converting looks only at the symbol: of two tokens with one symbol the first one counts. *)
Lemma convert_first_symbol :
  let token p c := MkInfo "USDX" "x" 8 (Some c) None (of_Z p) nzero None in
  let s := (exec (Add (token 4 "0xb")) (exec (Add (token 2 "0xa")) (fresh None, demo_env)).2).2 in
  (convertCurrency (of_Z 10) "USDX" "USDX" s).1 = Ok (of_Z 10) ∧ map_size (tokens s.1) = 2%nat ∧
  (convertCurrency (of_Z 10) "USDX" "KC" s).1 = Throw "Currency not found".
Proof. vm_compute. done. Qed.
