(* ===== verification/AddressFilter.v ===== *)
(** * [AddressFilterService] (apps/web/wallet/src/services/addressFilter.ts)

    The white and black lists of addresses with their stored copy.  The service uses the
    storage without a check: outside the browser, on a full storage or on a text that is not
    JSON its methods throw. *)

From Stdlib Require Import Ascii String.
From stdpp Require Import pretty.
From S2P Require Import Prelude JsMap JsString Store Stamps.

Inductive FilterType := whitelist | blacklist.
#[export] Instance FilterType_eq_dec : EqDecision FilterType.
Proof. solve_decision. Defined.

Record FilteredAddress := MkFiltered {
  id : string;
  address : string;
  type : FilterType;
  label : option string;
  reason : option string;
  addedAt : Z;
  reputationScore : option Z;
}.

Record AddressFilter := MkFilter {
  filtered : jsmap FilteredAddress;
  whitelistOnlyMode : bool;
  ls_filter : cell (list FilteredAddress * bool);
}.

Definition set_filtered m s := MkFilter m (whitelistOnlyMode s) (ls_filter s).
Definition set_mode b s := MkFilter (filtered s) b (ls_filter s).
Definition set_ls_filter c s := MkFilter (filtered s) (whitelistOnlyMode s) c.

Abbreviation M := (js (AddressFilter * Env)).

Definition fresh (c : cell (list FilteredAddress * bool)) : AddressFilter := MkFilter [] false c.

Definition loadFiltered : M () :=
  ls_use (
    s ← this;
    match truthy_cell (ls_filter s) with
    | None => mret ()
    | Some t =>
        data ← JSON_parse t;
        modify_this (λ s, set_mode data.2 (set_filtered (map_set_all id (filtered s) data.1) s))
    end).

Definition saveFiltered : M () :=
  ls_use (write_json set_ls_filter (λ s, (map_values (filtered s), whitelistOnlyMode s))).

Definition constructor : M () := loadFiltered.

(** The entry is built and set, then everything is saved. *)
Definition add_entry (addr : string) (ty : FilterType) (lbl rsn : option string) (score : option Z) : M () :=
  t ← date_now;
  r ← random36;
  t' ← date_now;
  let entry := MkFiltered (stamp "filter_" t r) addr ty lbl rsn t' score in
  modify_this (λ s, set_filtered (map_set (id entry) entry (filtered s)) s);;
  saveFiltered.

Definition addToWhitelist (addr : string) (lbl : option string) : M () := add_entry addr whitelist lbl None None.
Definition addToBlacklist (addr : string) (rsn : option string) : M () := add_entry addr blacklist None rsn (Some 0).

Definition removeFromFilter (i : string) : M () :=
  modify_this (λ s, set_filtered (map_delete i (filtered s)) s);;
  saveFiltered.

Definition listed (ty : FilterType) (addr : string) (f : FilteredAddress) : bool :=
  bool_decide (type f = ty) && str_eqb (address f) addr.

Record Verdict := MkVerdict { allowed : bool; v_reason : option string }.

Definition isAddressAllowed (addr : string) : M Verdict :=
  s ← this;
  match js_find (listed blacklist addr) (map_values (filtered s)) with
  | Some b => mret (MkVerdict false (Some (if truthy_str (reason b) then default "" (reason b) else "Address is blacklisted")))
  | None =>
      if whitelistOnlyMode s then
        match js_find (listed whitelist addr) (map_values (filtered s)) with
        | None => mret (MkVerdict false (Some "Address not in whitelist"))
        | Some _ => mret (MkVerdict true None)
        end
      else mret (MkVerdict true None)
  end.

Definition getFilteredAddresses (ty : option FilterType) : M (list FilteredAddress) :=
  s ← this;
  let addresses := map_values (filtered s) in
  let addresses := match ty with Some t => js_filter (λ a, bool_decide (type a = t)) addresses | None => addresses end in
  mret (js_sort (λ a b, 0 <? addedAt b - addedAt a) addresses).

Definition setWhitelistOnlyMode (b : bool) : M () := modify_this (set_mode b);; saveFiltered.
Definition isWhitelistOnlyMode : M bool := s ← this; mret (whitelistOnlyMode s).

(** * Theorems *)

(** An entry of a type for an address. *)
Definition has_entry (s : AddressFilter) (ty : FilterType) (addr : string) : Prop :=
  ∃ f, f ∈ map_values (filtered s) ∧ type f = ty ∧ address f = addr.

Lemma find_listed ty addr l : (∃ f, js_find (listed ty addr) l = Some f) ↔ ∃ f, f ∈ l ∧ type f = ty ∧ address f = addr.
Proof.
  split.
  - intros (f & [Hf Hl]%js_find_Some). exists f. apply andb_true_iff in Hl as [Ht%bool_decide_eq_true Ha%str_eqb_true]. done.
  - intros (f & Hf & Ht & Ha). destruct (js_find _ l) as [g|] eqn:E; [by eexists|].
    rewrite js_find_None in E. specialize (E f Hf). unfold listed in E.
    by rewrite bool_decide_eq_true_2, Ha, str_eqb_refl in E.
Qed.

Lemma isAddressAllowed_cases addr s e : ∃ v, isAddressAllowed addr (s, e) = (Ok v, (s, e)) ∧
  (allowed v = true ↔ ¬ has_entry s blacklist addr ∧ (whitelistOnlyMode s = true → has_entry s whitelist addr)).
Proof.
  unfold isAddressAllowed. js_run. cbn [fst]. unfold has_entry.
  destruct (js_find (listed blacklist addr) (map_values (filtered s))) as [b|] eqn:Eb.
  - eexists. split; [reflexivity|]. cbn. split; [done|]. intros [Hn _]. destruct Hn. apply find_listed. by exists b.
  - assert (¬ ∃ f, f ∈ map_values (filtered s) ∧ type f = blacklist ∧ address f = addr) as Hn.
    { rewrite <-find_listed. rewrite Eb. by intros []. }
    destruct (whitelistOnlyMode s); [|eexists; split; [reflexivity|]; done].
    destruct (js_find (listed whitelist addr) (map_values (filtered s))) as [w|] eqn:Ew;
      (eexists; split; [reflexivity|]; cbn).
    + split; [|done]. intros _. split; [done|]. intros _. apply find_listed. by exists w.
    + split; [done|]. intros [_ Hw]. specialize (Hw eq_refl). apply find_listed in Hw as [? Hw]. congruence.
Qed.

(** an address is allowed exactly when no entry of the black list has it and, in the
    whitelist-only mode, some entry of the white list does; asking changes nothing. *)
Theorem isAddressAllowed_iff addr s e : ∃ v, isAddressAllowed addr (s, e) = (Ok v, (s, e)) ∧
  (allowed v = true ↔ ¬ has_entry s blacklist addr ∧ (whitelistOnlyMode s = true → has_entry s whitelist addr)).
Proof. apply isAddressAllowed_cases. Qed.

(** ** Entries stay until they are removed *)

Inductive operation :=
  | White (addr : string) (lbl : option string) | Black (addr : string) (rsn : option string)
  | Remove (i : string) | Mode (b : bool).

Definition exec (o : operation) : M () :=
  match o with
  | White a l => addToWhitelist a l
  | Black a r => addToBlacklist a r
  | Remove i => removeFromFilter i
  | Mode b => setWhitelistOnlyMode b
  end.

Lemma saveFiltered_run s e : ∃ r s', saveFiltered (s, e) = (r, (s', e)) ∧ filtered s' = filtered s ∧
  whitelistOnlyMode s' = whitelistOnlyMode s.
Proof.
  unfold saveFiltered, ls_use, write_json. js_run. cbn [snd]. destruct (browser e); [|by eexists _, s].
  js_run. unfold ls_setItem. cbn [snd fst]. destruct (writable e); eexists _, _; (split; [reflexivity|done]).
Qed.

(** What an operation leaves in memory, whether or not the saving throws. *)
Definition change (o : operation) (e : Env) (m : jsmap FilteredAddress) : jsmap FilteredAddress :=
  let i := stamp "filter_" (clock e (ticks e)) (entropy e (draws e)) in
  match o with
  | White a l => map_set i (MkFiltered i a whitelist l None (clock e (S (ticks e))) None) m
  | Black a r => map_set i (MkFiltered i a blacklist None r (clock e (S (ticks e))) (Some 0)) m
  | Remove j => map_delete j m
  | Mode _ => m
  end.

Lemma filter_run o s e : ∃ r s' e', exec o (s, e) = (r, (s', e')) ∧ filtered s' = change o e (filtered s) ∧ later_env e e' ∧
  match o with White _ _ | Black _ _ => (draws e < draws e')%nat | _ => True end.
Proof.
  assert (∀ x e, ∃ r s', saveFiltered (x, e) = (r, (s', e)) ∧ filtered s' = filtered x) as Hsave.
  { intros x e0. destruct (saveFiltered_run x e0) as (r & s' & ? & ? & _). by exists r, s'. }
  destruct o as [a l|a rs|j|b]; cbn [exec];
    unfold addToWhitelist, addToBlacklist, add_entry, removeFromFilter, setWhitelistOnlyMode; js_run; cbn [fst snd];
    match goal with |- context [saveFiltered (?x, ?e0)] => destruct (Hsave x e0) as (r & s' & -> & Hf) end;
    exists r, s'; eexists; (split; [reflexivity|]); rewrite Hf; cbn [change]; (split; [reflexivity|]);
    unfold later_env; cbn; repeat split; lia.
Qed.

(** No operation of the list removes the entry [i]. *)
Definition spares (i : string) (o : operation) : Prop := match o with Remove j => j ≠ i | _ => True end.

Definition run (os : list operation) (w : AddressFilter * Env) : AddressFilter * Env :=
  foldl (λ w o, (exec o w).2) w os.

Lemma exec_keeps o s e i f : distinct_stamps "filter_" e → unused_stamps "filter_" e (filtered s) →
  map_get i (filtered s) = Some f → spares i o →
  let w' := (exec o (s, e)).2 in
  map_get i (filtered w'.1) = Some f ∧ distinct_stamps "filter_" w'.2 ∧ unused_stamps "filter_" w'.2 (filtered w'.1).
Proof.
  intros Hid Hu Hi Ho. cbv zeta. destruct (filter_run o s e) as (r & s' & e' & -> & Hf & He & Hd). cbn [fst snd]. rewrite Hf.
  assert (stamp "filter_" (clock e (ticks e)) (entropy e (draws e)) ≠ i) as Hne.
  { intros <-. by rewrite (Hu _ _ (Nat.le_refl _)) in Hi. }
  destruct o as [a l|a rs|j|b]; cbn [change]; (split; [|split; [by apply (distinct_later _ e)|]]).
  - by rewrite map_get_set_ne.
  - by apply unused_next.
  - by rewrite map_get_set_ne.
  - by apply unused_next.
  - by rewrite map_get_delete_ne.
  - apply unused_delete. by apply (unused_later _ e).
  - done.
  - by apply (unused_later _ e).
Qed.

(** an address with an entry of the black list stays refused through any operations that do
    not remove that entry, whitelisting included, and even when the storage fails. *)
Theorem blacklisting_holds os s e i f : distinct_stamps "filter_" e → unused_stamps "filter_" e (filtered s) →
  map_get i (filtered s) = Some f → type f = blacklist → Forall (spares i) os →
  ∃ v, (isAddressAllowed (address f) (run os (s, e))).1 = Ok v ∧ allowed v = false.
Proof.
  intros Hid Hu Hi Ht Hos.
  assert (map_get i (filtered (run os (s, e)).1) = Some f) as Hf.
  { clear Ht. revert s e Hid Hu Hi. induction Hos as [|o os Ho _ IH]; intros s e Hid Hu Hi; [done|].
    destruct (exec_keeps o s e i f Hid Hu Hi Ho) as (H1 & H2 & H3).
    cbn [run foldl]. destruct (exec o (s, e)).2 as [s1 e1]. by apply IH. }
  destruct (run os (s, e)) as [s' e']. cbn in Hf.
  destruct (isAddressAllowed_cases (address f) s' e') as (v & -> & Hv). exists v. split; [done|].
  destruct (allowed v); [|done]. destruct (proj1 Hv eq_refl) as [Hn _]. destruct Hn.
  exists f. split; [|done]. apply map_get_Some_elem in Hf. unfold map_values. by apply (list_elem_of_fmap_2 snd) in Hf.
Qed.

Definition bad_entry : FilteredAddress := MkFiltered "manual" "kc1bad" blacklist None (Some "scam") 1 (Some 0).
Definition demo : AddressFilter := MkFilter [("manual", bad_entry)] false None.

Lemma blacklisting_holds_witness :
  ∃ v, (isAddressAllowed "kc1bad" (run [White "kc1bad" None; Mode true; Remove "other"] (demo, steady_env))).1 = Ok v ∧
    allowed v = false.
Proof.
  apply (blacklisting_holds [White "kc1bad" None; Mode true; Remove "other"] demo steady_env "manual" bad_entry).
  - apply steady_distinct.
  - intros t d _. reflexivity.
  - reflexivity.
  - reflexivity.
  - repeat constructor. discriminate.
Defined.

(** An address filter that cannot be stored: the entry counts until the page is left. *)
Lemma unsaved_entry_counts :
  let e := MkEnv (λ _, 1) (λ _, "r") 0 0 0 true false in
  let '(r, w) := addToBlacklist "kc1bad" None (fresh None, e) in
  r = Throw "QuotaExceededError" ∧ (isAddressAllowed "kc1bad" w).1 = Ok (MkVerdict false (Some "Address is blacklisted")).
Proof. vm_compute. done. Qed.
