(* ===== verification/ThreatDetection.v ===== *)
(** * [ThreatDetection] (apps/web/wallet/src/services/threatDetection.ts)

    Known phishing domains and addresses.  The host name of a URL is the browser's, a
    parameter; [None] is a text that is not a URL. *)

From Stdlib Require Import Ascii String.
From S2P Require Import Prelude JsNumber JsString.

Inductive ThreatType := phishing | malware | scam.

Record ThreatCheck := MkCheck { isThreat : bool; type : option ThreatType; confidence : num; details : string }.

Record ThreatDetection := MkDetection { phishingDomains : list string; blacklistedAddresses : list string }.

Abbreviation M := (js (ThreatDetection * Env)).

Definition constructor : ThreatDetection :=
  MkDetection ["fake-kubercoin.com"; "kubercoin-wallet.net"; "secure-kubercoin.org"]
    ["0x000000000000000000000000000000000000dead"; "0xscamaddress123456789abcdef"].

Definition set_blacklist l (s : ThreatDetection) : ThreatDetection := MkDetection (phishingDomains s) l.

Section Host.
Context (hostname : string → option string).

Definition extractDomain (url : string) : string := toLowerCase (default url (hostname url)).

Definition checkURL (url : string) : M ThreatCheck :=
  let domain := extractDomain url in
  s ← this;
  match js_find (λ p, includes p domain) (phishingDomains s) with
  | Some p => mret (MkCheck true (Some phishing) (lit 95 2) ("Known phishing domain: " +:+ p))
  | None =>
      if includes "wallet" domain && includes "secure" domain
      then mret (MkCheck true (Some phishing) (lit 70 2) "Suspicious domain pattern detected")
      else mret (MkCheck false None (lit 95 2) "URL appears safe")
  end.
End Host.

Definition has_address (l : list string) (a : string) : bool := bool_decide (a ∈ l).

Definition checkAddress (address : string) : M ThreatCheck :=
  s ← this;
  if has_address (blacklistedAddresses s) (toLowerCase address)
  then mret (MkCheck true (Some scam) (of_Z 1) "Address is on the scam blacklist")
  else if includes "scam" (toLowerCase address) || includes "phish" (toLowerCase address)
  then mret (MkCheck true (Some scam) (lit 85 2) "Address contains suspicious keywords")
  else mret (MkCheck false None (lit 90 2) "Address appears safe").

Definition scanContract (contractAddress : string) : M ThreatCheck :=
  mret (MkCheck false None nzero "Contract scanning not configured").

Definition addToBlacklist (address : string) : M bool :=
  s ← this;
  if negb (has_address (blacklistedAddresses s) (toLowerCase address)) then
    put_this (set_blacklist (blacklistedAddresses s ++ [toLowerCase address]) s);; mret true
  else mret false.

Definition removeFromBlacklist (address : string) : M bool :=
  s ← this;
  match list_find (λ a, a = toLowerCase address) (blacklistedAddresses s) with
  | Some (index, _) => put_this (set_blacklist (delete index (blacklistedAddresses s)) s);; mret true
  | None => mret false
  end.

Definition getBlacklist : M (list string) := s ← this; mret (blacklistedAddresses s).

(** * Theorems *)

Inductive operation := Add (address : string) | Remove (address : string).
Definition exec (o : operation) : M bool :=
  match o with Add a => addToBlacklist a | Remove a => removeFromBlacklist a end.

Inductive reachable : ThreatDetection * Env → Prop :=
  | loaded e : reachable (constructor, e)
  | operated o w : reachable w → reachable (exec o w).2.

(** Addresses are listed once, in lower case; the domains never change. *)
Record consistent (s : ThreatDetection) : Prop := {
  listed_once : NoDup (blacklistedAddresses s);
  listed_lower : Forall (λ a, toLowerCase a = a) (blacklistedAddresses s);
  domains_fixed : phishingDomains s = phishingDomains constructor;
}.

Lemma add_run a s e : addToBlacklist a (s, e) =
  (Ok (negb (has_address (blacklistedAddresses s) (toLowerCase a))),
   (if has_address (blacklistedAddresses s) (toLowerCase a) then s
    else set_blacklist (blacklistedAddresses s ++ [toLowerCase a]) s, e)).
Proof. unfold addToBlacklist. js_run. cbn [fst]. destruct (has_address _ _); cbn [negb]; by js_run. Qed.

(** Removing takes the address out of a list without duplicates. *)
Lemma remove_run a s e : NoDup (blacklistedAddresses s) → ∃ l,
  removeFromBlacklist a (s, e) = (Ok (has_address (blacklistedAddresses s) (toLowerCase a)), (set_blacklist l s, e)) ∧
  l `sublist_of` blacklistedAddresses s ∧
  ∀ b, b ∈ l ↔ b ∈ blacklistedAddresses s ∧ b ≠ toLowerCase a.
Proof.
  intros Hnd. unfold removeFromBlacklist. js_run. cbn [fst].
  destruct (list_find _ _) as [[i x]|] eqn:E.
  - apply list_find_Some in E as (Hi & -> & _). js_run. exists (delete i (blacklistedAddresses s)).
    unfold has_address. rewrite bool_decide_eq_true_2 by (by eapply list_elem_of_lookup_2).
    split; [reflexivity|]. split; [apply sublist_delete|]. intros b.
    assert (blacklistedAddresses s ≡ₚ toLowerCase a :: delete i (blacklistedAddresses s)) as Hp by (by apply delete_Permutation).
    clear Hi. revert Hp Hnd. generalize (delete i (blacklistedAddresses s)) as l. generalize (blacklistedAddresses s) as l0.
    intros l0 l Hp Hnd. rewrite Hp in Hnd. apply NoDup_cons in Hnd as [Hn _]. rewrite Hp, elem_of_cons. split.
    + intros Hb. split; [by right|]. intros ->. done.
    + intros [[->|Hb] Hne]; done.
  - apply list_find_None in E. exists (blacklistedAddresses s).
    rewrite Forall_forall in E. unfold has_address. rewrite bool_decide_eq_false_2.
    2: { intros H. by apply (E _ H). }
    split; [by destruct s|]. split; [done|]. intros b. split; [|by intros []]. intros Hb. split; [done|]. by apply E.
Qed.

Lemma exec_consistent o s e : consistent s → ∃ r s', exec o (s, e) = (r, (s', e)) ∧ consistent s'.
Proof.
  intros [Hnd Hlow Hd]. destruct o as [a|a]; cbn [exec].
  - rewrite add_run. eexists _, _. split; [reflexivity|].
    unfold has_address. case_bool_decide as Ha; [by split|]. split; [|cbn|exact Hd].
    + cbn. apply NoDup_app. split; [exact Hnd|]. split; [|apply NoDup_singleton].
      intros x Hx ->%list_elem_of_singleton. done.
    + apply Forall_app_2; [exact Hlow|]. constructor; [apply toLowerCase_idem|constructor].
  - destruct (remove_run a s e Hnd) as (l & -> & Hsub & Hin). eexists _, _. split; [reflexivity|]. split; [|cbn|exact Hd].
    + cbn. by eapply sublist_NoDup.
    + rewrite Forall_forall in *. intros x Hx. apply Hlow. by apply Hin in Hx as [Hx _].
Qed.

Lemma reachable_consistent w : reachable w → consistent w.1.
Proof.
  induction 1 as [e|o [s e] _ IH].
  - split; [|repeat constructor|done]. cbn. repeat constructor; set_solver.
  - destruct (exec_consistent o s e IH) as (r & s' & -> & H). exact H.
Qed.

Definition flagged (c : ThreatCheck) : Prop := isThreat c = true ∧ confidence c = of_Z 1.

(** after any additions and removals the list has no duplicates, and adding or removing an
    address in any spelling of its letters decides the check of that address in every other
    spelling, and of no other address. *)
Theorem blacklist_ignores_case w a b : reachable w →
  NoDup (blacklistedAddresses w.1) ∧
  (∃ c, (checkAddress b (addToBlacklist a w).2).1 = Ok c ∧
     (flagged c ↔ toLowerCase b = toLowerCase a ∨ toLowerCase b ∈ blacklistedAddresses w.1)) ∧
  (∃ c, (checkAddress b (removeFromBlacklist a w).2).1 = Ok c ∧
     (flagged c ↔ toLowerCase b ≠ toLowerCase a ∧ toLowerCase b ∈ blacklistedAddresses w.1)).
Proof.
  intros Hw. apply reachable_consistent in Hw as [Hnd _ _]. destruct w as [s e]. cbn [fst] in *.
  assert (∀ s', ∃ c, (checkAddress b (s', e)).1 = Ok c ∧ (flagged c ↔ toLowerCase b ∈ blacklistedAddresses s')) as Hcheck.
  { intros s'. unfold checkAddress, has_address. js_run. cbn [fst]. case_bool_decide as Hb.
    - eexists. split; [reflexivity|]. by split.
    - destruct (_ || _); (eexists; split; [reflexivity|]); split; [intros [_ Hc]; discriminate Hc|done|intros [Hc _]; discriminate Hc|done]. }
  split; [exact Hnd|]. split.
  - rewrite add_run. cbn [snd]. unfold has_address. case_bool_decide as Ha.
    + destruct (Hcheck s) as (c & -> & Hc). exists c. split; [done|]. rewrite Hc. split; [by right|].
      intros [->|?]; done.
    + destruct (Hcheck (set_blacklist (blacklistedAddresses s ++ [toLowerCase a]) s)) as (c & -> & Hc). exists c. split; [done|].
      rewrite Hc. cbn. rewrite elem_of_app, list_elem_of_singleton. tauto.
  - destruct (remove_run a s e Hnd) as (l & -> & _ & Hin). cbn [snd].
    destruct (Hcheck (set_blacklist l s)) as (c & -> & Hc). exists c. split; [done|]. rewrite Hc. cbn. rewrite Hin. tauto.
Qed.

Lemma blacklist_ignores_case_witness :
  reachable (constructor, demo_env) ∧
  ∃ c, (checkAddress "0xabC" (addToBlacklist "0xABC" (constructor, demo_env)).2).1 = Ok c ∧ flagged c.
Proof.
  split; [apply loaded|]. destruct (blacklist_ignores_case (constructor, demo_env) "0xABC" "0xabC" (loaded _)) as (_ & (c & E & Hc) & _).
  exists c. split; [exact E|]. apply Hc. left. reflexivity.
Defined.

(** Any domain that names a wallet and security is phishing, the project's own included. *)
Lemma own_domain_is_phishing :
  (checkURL (λ _, Some "secure-wallet.kubercoin.org") "https://secure-wallet.kubercoin.org/" (constructor, demo_env)).1 =
    Ok (MkCheck true (Some phishing) (lit 70 2) "Suspicious domain pattern detected").
Proof. vm_compute. done. Qed.
