(* ===== verification/SecurityMonitor.v ===== *)
(** * [SecurityMonitor] (apps/web/wallet/src/services/securityMonitor.ts)

    Security events, newest first, with their stored copy under the key that [SessionManager]
    uses for its own, and the scores shown beside them. *)

From Stdlib Require Import String.
From stdpp Require Import pretty.
From S2P Require Import Prelude JsMap JsNumber JsString Store.

Inductive EventType := suspicious_tx | phishing_attempt | unauthorized_access | unusual_activity | malware_detected.
Inductive Severity := low | medium | high | critical.

Record SecurityEvent := MkEvent {
  id : string;
  type : EventType;
  severity : Severity;
  title : string;
  description : string;
  timestamp : Z;
  resolved : bool;
}.

Record SecurityMonitor := MkMonitor {
  events : list SecurityEvent;
  monitoring : bool;
  ls_events : cell (list SecurityEvent);
}.

Definition set_events l s := MkMonitor l (monitoring s) (ls_events s).
Definition set_monitoring b s := MkMonitor (events s) b (ls_events s).
Definition set_ls_events c s := MkMonitor (events s) (monitoring s) c.

Abbreviation M := (js (SecurityMonitor * Env)).

Definition fresh (c : cell (list SecurityEvent)) : SecurityMonitor := MkMonitor [] false c.

Definition loadEvents : M () :=
  b ← is_browser;
  js_when b (js_try (
    s ← this;
    match truthy_cell (ls_events s) with
    | None => mret ()
    | Some t => l ← JSON_parse t; modify_this (set_events l)
    end) (λ _, modify_this (set_events []))).

Definition saveEvents : M () := guarded (write_json set_ls_events events).

Definition constructor : M () := loadEvents.

Definition startMonitoring : M () := modify_this (set_monitoring true).
Definition stopMonitoring : M () := modify_this (set_monitoring false).
Definition isMonitoring : M bool := s ← this; mret (monitoring s).

Record SecurityScore := MkScore {
  overall : Z;
  password_score : Z;
  twoFactor_score : Z;
  wallet_score : Z;
  network_score : Z;
  activity_score : Z;
  recommendations : list string;
}.

Definition getSecurityScore : M SecurityScore :=
  s ← this;
  let base := if monitoring s then 50 else 0 in
  mret (MkScore base base 0 base base base
    (if monitoring s then [] else ["Enable security monitoring for real-time alerts"])).

Definition getSecurityEvents (includeResolved : bool) : M (list SecurityEvent) :=
  s ← this;
  mret (if includeResolved then events s else js_filter (λ e, negb (resolved e)) (events s)).

Definition has_id (i : string) (e : SecurityEvent) : bool := str_eqb (id e) i.
Definition as_resolved (e : SecurityEvent) : SecurityEvent :=
  MkEvent (id e) (type e) (severity e) (title e) (description e) (timestamp e) true.

Definition resolveEvent (i : string) : M bool :=
  s ← this;
  if js_some (has_id i) (events s) then
    modify_this (λ s, set_events (update_first (has_id i) as_resolved (events s)) s);;
    saveEvents;;
    mret true
  else mret false.

Definition analyzeTransaction (to : string) (amount : num) : M (Z * list string) :=
  let large := SFltb (of_Z 1000) amount in
  let flagged := includes "scam" to || includes "phish" to in
  mret ((if large then 30 else 0) + (if flagged then 50 else 0),
    (if large then ["Large transaction amount detected"] else []) ++
    (if flagged then ["⚠️ WARNING: This address is flagged as suspicious"] else []))%list.

Definition scanForThreats : M (Z * list string) := mret (0, []).

Definition logEvent (ty : EventType) (sev : Severity) (ttl desc : string) : M SecurityEvent :=
  t ← date_now;
  t' ← date_now;
  let event := MkEvent ("evt_" +:+ pretty t) ty sev ttl desc t' false in
  modify_this (λ s, set_events (event :: events s) s);;
  saveEvents;;
  mret event.

(** * Theorems *)

Inductive operation :=
  | Log (ty : EventType) (sev : Severity) (ttl desc : string) | Resolve (i : string) | Start | Stop.
Definition exec (o : operation) : M () :=
  match o with
  | Log ty sev t d => logEvent ty sev t d;; mret ()
  | Resolve i => resolveEvent i;; mret ()
  | Start => startMonitoring
  | Stop => stopMonitoring
  end.

(** What an operation leaves in the list. *)
Definition change (o : operation) (e : Env) (l : list SecurityEvent) : list SecurityEvent :=
  match o with
  | Log ty sev t d => MkEvent ("evt_" +:+ pretty (clock e (ticks e))) ty sev t d (clock e (S (ticks e))) false :: l
  | Resolve i => update_first (has_id i) as_resolved l
  | Start | Stop => l
  end.

Lemma save_events_run s e : saveEvents (s, e) = (Ok (), (written set_ls_events events e s, e)).
Proof. apply guarded_write_run. Qed.

Lemma update_first_none {A} (p : A → bool) f l : js_some p l = false → update_first p f l = l.
Proof.
  induction l as [|x l IH]; [done|]. cbn. intros [Hx Hl]%orb_false_iff. rewrite Hx. by rewrite IH.
Qed.

Lemma event_run o s e : ∃ s' e', exec o (s, e) = (Ok (), (s', e')) ∧ events s' = change o e (events s) ∧
  clock e' = clock e ∧ browser e' = browser e ∧ writable e' = writable e.
Proof.
  destruct o as [ty sev t d|i| |]; cbn [exec change].
  - unfold logEvent. js_run. erewrite run_Ok by apply save_events_run. js_run.
    eexists _, _. split; [reflexivity|]. unfold written. cbn. by destruct (_ && _).
  - unfold resolveEvent. js_run. cbn [fst]. destruct (js_some _ _) eqn:E.
    + js_run. erewrite run_Ok by apply save_events_run. js_run.
      eexists _, _. split; [reflexivity|]. unfold written. cbn. by destruct (_ && _).
    + js_run. exists s, e. split; [reflexivity|]. by rewrite update_first_none.
  - by eexists _, _.
  - by eexists _, _.
Qed.

Definition run (os : list operation) (w : SecurityMonitor * Env) : SecurityMonitor * Env :=
  foldl (λ w o, (exec o w).2) w os.

(** An event behind another one with its identifier. *)
Definition shadowed (y : SecurityEvent) (l : list SecurityEvent) : Prop :=
  ∃ l1 x l2, l = (l1 ++ x :: l2)%list ∧ id x = id y ∧ y ∈ l2.

Lemma update_first_app {A} (p : A → bool) f l1 l2 : update_first p f (l1 ++ l2) =
  if js_some p l1 then (update_first p f l1 ++ l2)%list else (l1 ++ update_first p f l2)%list.
Proof.
  induction l1 as [|x l1 IH]; [done|]. cbn. destruct (p x); cbn [orb]; [done|].
  change (existsb p l1) with (js_some p l1). rewrite IH. by destruct (js_some p l1).
Qed.

Lemma elem_of_update_first {A} (p : A → bool) f l y : p y = false → y ∈ l → y ∈ update_first p f l.
Proof.
  intros Hy. induction l as [|x l IH]; [done|]. intros [->|H]%elem_of_cons; cbn.
  - rewrite Hy. left.
  - destruct (p x); right; [done|by apply IH].
Qed.

Lemma change_shadowed o e y l : shadowed y l → shadowed y (change o e l).
Proof.
  intros (l1 & x & l2 & -> & Hid & Hy). destruct o as [ty sev t d|i| |]; cbn [change].
  - by exists (MkEvent ("evt_" +:+ pretty (clock e (ticks e))) ty sev t d (clock e (S (ticks e))) false :: l1), x, l2.
  - rewrite update_first_app. destruct (js_some _ l1) eqn:E1.
    + by exists (update_first (has_id i) as_resolved l1), x, l2.
    + cbn [update_first]. destruct (has_id i x) eqn:Ex.
      * by exists l1, (as_resolved x), l2.
      * exists l1, x, (update_first (has_id i) as_resolved l2). split; [done|]. split; [done|].
        apply elem_of_update_first; [|done]. unfold has_id in *. by rewrite <-Hid.
  - by exists l1, x, l2.
  - by exists l1, x, l2.
Qed.

(** an event that was logged in the millisecond of a later one can never be resolved: the
    later one has its identifier and is found first, resolved or not. *)
Theorem same_millisecond_unresolvable ty1 sev1 t1 d1 ty2 sev2 t2 d2 s e os :
  clock e (ticks e) = clock e (S (S (ticks e))) → ∃ y,
  let w1 := (exec (Log ty1 sev1 t1 d1) (s, e)).2 in
  let w2 := (exec (Log ty2 sev2 t2 d2) w1).2 in
  description y = d1 ∧ resolved y = false ∧ y ∈ events (run os w2).1.
Proof.
  intros Hclock. exists (MkEvent ("evt_" +:+ pretty (clock e (ticks e))) ty1 sev1 t1 d1 (clock e (S (ticks e))) false).
  cbv zeta. split; [done|]. split; [done|].
  set (y := MkEvent _ _ _ _ _ _ _).
  set (w2 := (exec (Log ty2 sev2 t2 d2) _).2).
  assert (shadowed y (events w2.1)) as Hw.
  { unfold w2, exec, logEvent. js_run. erewrite run_Ok by apply save_events_run. js_run.
    erewrite run_Ok by apply save_events_run. js_run. cbn [fst snd].
    unfold written. cbn. exists []. eexists _, (y :: events s). split; [|split; [|left]].
    - destruct (_ && _); cbn; reflexivity.
    - cbn. by rewrite Hclock. }
  assert (shadowed y (events (run os w2).1)) as (l1 & x & l2 & -> & _ & Hy).
  { clearbody w2. revert w2 Hw. induction os as [|o os IH]; intros w2 Hw; [exact Hw|]. cbn [run foldl]. apply IH.
    destruct w2 as [s2 e2]. destruct (event_run o s2 e2) as (s' & e' & -> & He & _). cbn [fst snd] in *. rewrite He.
    by apply change_shadowed. }
  apply elem_of_app. right. by right.
Qed.

Lemma same_millisecond_unresolvable_witness :
  let e := MkEnv (λ _, 1700000000000) (λ _, "r") 0 0 0 true true in
  let w1 := (exec (Log suspicious_tx high "a" "first") (fresh None, e)).2 in
  let w2 := (exec (Log suspicious_tx high "b" "second") w1).2 in
  let i := "evt_1700000000000" in
  ∃ y, description y = "first" ∧ resolved y = false ∧ y ∈ events (run [Resolve i; Resolve i; Resolve i] w2).1.
Proof. exact (same_millisecond_unresolvable suspicious_tx high "a" "first" suspicious_tx high "b" "second" (fresh None)
  (MkEnv (λ _, 1700000000000) (λ _, "r") 0 0 0 true true)
  [Resolve "evt_1700000000000"; Resolve "evt_1700000000000"; Resolve "evt_1700000000000"] eq_refl). Defined.

(** *** The stored copy *)

(** where the storage works, the events survive a reload, whatever was logged and
    resolved. *)
Theorem events_survive_reload os s e : browser e = true → writable e = true →
  (ls_events s = Some (TJson (events s)) ∨ ls_events s = None ∧ events s = []) →
  let w := run os (s, e) in
  events (constructor (fresh (ls_events w.1), e)).2.1 = events w.1.
Proof.
  intros Hb Hw Hs. cbv zeta.
  assert (ls_events (run os (s, e)).1 = Some (TJson (events (run os (s, e)).1)) ∨
    ls_events (run os (s, e)).1 = None ∧ events (run os (s, e)).1 = []) as Hkept.
  { assert (∀ o s e, browser e = true → writable e = true →
      (ls_events s = Some (TJson (events s)) ∨ ls_events s = None ∧ events s = []) →
      let w := (exec o (s, e)).2 in
      (ls_events w.1 = Some (TJson (events w.1)) ∨ ls_events w.1 = None ∧ events w.1 = []) ∧
      browser w.2 = true ∧ writable w.2 = true) as Hstep.
    { clear. intros o s e Hb Hw Hs. destruct o as [ty sev t d|i| |]; cbn [exec].
      - unfold logEvent. js_run. erewrite run_Ok by apply save_events_run. js_run. cbn.
        unfold written. cbn. rewrite Hb, Hw. by split; [left|].
      - unfold resolveEvent. js_run. cbn [fst]. destruct (js_some _ _); [|by split].
        js_run. erewrite run_Ok by apply save_events_run. js_run. cbn. unfold written. cbn. rewrite Hb, Hw. by split; [left|].
      - by split.
      - by split. }
    revert s e Hb Hw Hs. induction os as [|o os IH]; intros s e Hb Hw Hs; [exact Hs|].
    cbn [run foldl]. destruct (Hstep o s e Hb Hw Hs) as (H1 & H2 & H3).
    destruct (exec o (s, e)).2 as [s1 e1]. by apply IH. }
  destruct Hkept as [E|[E Hnil]]; rewrite E; unfold constructor, loadEvents; js_run; cbn [snd]; rewrite Hb; cbn [js_when].
  - by erewrite run_try_Ok by (js_run; reflexivity).
  - rewrite Hnil. by erewrite run_try_Ok by (js_run; reflexivity).
Qed.

Lemma events_survive_reload_witness :
  let w := run [Log suspicious_tx high "a" "first"; Resolve "evt_1700000000000"] (fresh None, demo_env) in
  length (events w.1) = 1%nat ∧ events (constructor (fresh (ls_events w.1), demo_env)).2.1 = events w.1.
Proof.
  split; [vm_compute; reflexivity|].
  apply (events_survive_reload [Log suspicious_tx high "a" "first"; Resolve "evt_1700000000000"] (fresh None) demo_env eq_refl eq_refl).
  by right.
Defined.

(** The risk of a transaction is one of four numbers, with a warning for each part of it. *)
Lemma analyzeTransaction_risk to amount w : ∃ risk warnings,
  analyzeTransaction to amount w = (Ok (risk, warnings), w) ∧ risk ∈ [0; 30; 50; 80] ∧
  (risk = 0 ↔ warnings = []).
Proof.
  unfold analyzeTransaction. eexists _, _. split; [reflexivity|].
  destruct (SFltb _ _), (_ || _); cbn; (split; [set_solver|done]).
Qed.
