(* ===== verification/ShamirSecret.v ===== *)
(** * [ShamirSecretSharing] (apps/web/wallet/src/services/shamirSecret.ts)

    Splitting, combining and printing always throw; the check of a share's text computes. *)

From Stdlib Require Import Ascii String.
From stdpp Require Import pretty.
From S2P Require Import Prelude JsMap JsString Bytes Stamps Validation.

Record ShamirShare := MkShare { id : Z; data : string; threshold : Z; totalShares : Z }.

(** The object has no state: a method returns or throws. *)
Definition splitSecret (secret : string) (total thr : Z) : result (list ShamirShare) :=
  if total <? thr then Throw "Threshold cannot exceed total shares"
  else if thr <? 2 then Throw "Threshold must be at least 2"
  else Throw "Shamir secret sharing requires a real implementation.".

Definition combineShares (shares : list ShamirShare) : result string :=
  match shares with
  | [] => Throw "Cannot read properties of undefined (reading 'threshold')"
  | first :: _ =>
      if Z.of_nat (length shares) <? threshold first
      then Throw ("Need at least " +:+ pretty (threshold first) +:+ " shares to recover secret")
      else if js_some (λ s, negb (threshold s =? threshold first) || negb (totalShares s =? totalShares first)) shares
      then Throw "Incompatible shares - threshold or total mismatch"
      else Throw "Shamir secret recovery requires a real implementation."
  end.

(** [parseInt(s)] without a radix: the prefix 0x announces hexadecimal digits. *)
Definition after_0x (s : string) : option string :=
  match s with
  | String "0" (String c t) => if Ascii.eqb c "x" || Ascii.eqb c "X" then Some t else None
  | _ => None
  end.
Fixpoint hex_digits_value (acc : Z) (s : string) : Z :=
  match s with
  | "" => acc
  | String c t => hex_digits_value (16 * acc + default 0 (hex_value c)) t
  end.
Definition parseInt_any (str : string) : option Z :=
  let s := trimStart str in
  let '(sg, s1) := match s with
    | String "-" t => (-1, t)
    | String "+" t => (1, t)
    | _ => (1, s)
    end in
  match after_0x s1 with
  | Some t => let ds := (span is_hex t).1 in if str_eqb ds "" then None else Some (sg * hex_digits_value 0 ds)
  | None => parseInt str
  end.

(** [a === b] for the result of [parseInt], which may be NaN. *)
Definition same_number (a : option Z) (b : Z) : bool := bool_decide (a = Some b).

Definition verifyShare (share : ShamirShare) : bool :=
  if str_eqb (data share) "" || negb (startsWith "SSS-v1-" (data share)) then false
  else
    let parts := split_on "-" (data share) in
    if (length parts <? 5)%nat then false
    else
      let shareId := parseInt_any (default "" (parts !! 2%nat)) in
      let thr := parseInt_any (default "" (parts !! 3%nat)) in
      let total := parseInt_any (default "" (parts !! 4%nat)) in
      same_number shareId (id share) && same_number thr (threshold share) && same_number total (totalShares share) &&
      match shareId, thr, total with
      | Some i, Some t, Some n => (i <=? n) && (t <=? n)
      | _, _, _ => false
      end.

Definition generateQRCode (share : ShamirShare) : result string := Throw "Share QR generation requires a real QR encoder.".

(** * Theorems *)

(** The text of a share. *)
Definition share_text (i t n : Z) : string := "SSS-v1-" +:+ pretty i +:+ "-" +:+ pretty t +:+ "-" +:+ pretty n.

Lemma digit_not_dash c : is_digit c = true → negb (Ascii.eqb c "-") = true.
Proof. by destruct c as [[] [] [] [] [] [] [] []]. Qed.

Lemma digits_no_dash s : str_all is_digit s = true → str_all (λ c, negb (Ascii.eqb c "-")) s = true.
Proof.
  induction s as [|c s IH]; [done|]. cbn. intros [Hc Hs]%andb_true_iff.
  by rewrite digit_not_dash, IH.
Qed.

Lemma numeral_trimmed s : str_all is_digit s = true → trimStart s = s.
Proof.
  destruct s as [|c s]; [done|]. cbn. intros [Hc _]%andb_true_iff.
  by destruct c as [[] [] [] [] [] [] [] []].
Qed.

Lemma span_digits s : str_all is_digit s = true → span is_digit s = (s, "").
Proof. induction s as [|c s IH]; [done|]. cbn. intros [-> Hs]%andb_true_iff. by rewrite IH. Qed.

Lemma numeral_unsigned s : str_all is_digit s = true →
  match s with String "-" t => (-1, t) | String "+" t => (1, t) | _ => (1, s) end = (1, s).
Proof.
  destruct s as [|c s]; [done|]. cbn. intros [Hc _]%andb_true_iff. revert Hc. by destruct c as [[] [] [] [] [] [] [] []].
Qed.

Lemma numeral_not_hex s : str_all is_digit s = true → after_0x s = None.
Proof.
  destruct s as [|c s]; [done|]. cbn. intros [_ H]%andb_true_iff.
  destruct c as [[] [] [] [] [] [] [] []]; try reflexivity. destruct s as [|c s]; [done|].
  cbn in *. apply andb_true_iff in H as [H _]. revert H. by destruct c as [[] [] [] [] [] [] [] []].
Qed.

Lemma parseInt_pretty z : 0 <= z → parseInt_any (pretty z) = Some z.
Proof.
  intros Hz. pose proof (pretty_all_digits z Hz) as Hd. pose proof (pretty_nonempty z Hz) as Hne.
  unfold parseInt_any, parseInt. rewrite numeral_trimmed by done. rewrite numeral_unsigned by done.
  rewrite numeral_not_hex by done.
  rewrite span_digits by done. cbn [fst]. rewrite (proj2 (str_eqb_false _ "") Hne), digits_value_pretty by done. f_equal. lia.
Qed.

Lemma split_share i t n : 0 <= i → 0 <= t → 0 <= n →
  split_on "-" (share_text i t n) = ["SSS"; "v1"; pretty i; pretty t; pretty n].
Proof.
  intros Hi Ht Hn. unfold share_text.
  change ("SSS-v1-" +:+ pretty i +:+ "-" +:+ pretty t +:+ "-" +:+ pretty n)
    with ("SSS" +:+ String "-" ("v1" +:+ String "-" (pretty i +:+ String "-" (pretty t +:+ String "-" (pretty n))))).
  rewrite split_on_join by done. rewrite split_on_join by done.
  rewrite split_on_join by (by apply digits_no_dash, pretty_all_digits).
  rewrite split_on_join by (by apply digits_no_dash, pretty_all_digits).
  by rewrite split_on_none by (by apply digits_no_dash, pretty_all_digits).
Qed.

(** a share whose text has its own numbers is accepted exactly when its number and its
    threshold do not exceed the total: share 0 and the thresholds 0 and 1, which [splitSecret]
    refuses, are accepted. *)
Theorem verifyShare_numbers i t n : 0 <= i → 0 <= t → 0 <= n →
  verifyShare (MkShare i (share_text i t n) t n) = (i <=? n) && (t <=? n).
Proof.
  intros Hi Ht Hn. unfold verifyShare. cbn [data id threshold totalShares].
  change (str_eqb (share_text i t n) "" || negb (startsWith "SSS-v1-" (share_text i t n))) with false. cbv iota.
  rewrite split_share by done. cbn [length Nat.ltb Nat.leb lookup list_lookup default Datatypes.id].
  rewrite !parseInt_pretty by done. unfold same_number. rewrite !bool_decide_eq_true_2 by done. done.
Qed.

Lemma verifyShare_hexadecimal : verifyShare (MkShare 16 "SSS-v1-0x10-2-0X1f" 2 31) = true.
Proof. vm_compute. reflexivity. Qed.

Lemma verifyShare_numbers_witness : verifyShare (MkShare 0 "SSS-v1-0-1-3" 1 3) = true.
Proof. exact (verifyShare_numbers 0 1 3 ltac:(lia) ltac:(lia) ltac:(lia)). Defined.

(** No secret is ever split or recovered. *)
Lemma nothing_is_shared secret total thr shares :
  (∀ l, splitSecret secret total thr ≠ Ok l) ∧ (∀ s, combineShares shares ≠ Ok s).
Proof.
  unfold splitSecret, combineShares. split; intros; repeat case_match; discriminate.
Qed.
