(* ===== verification/SendPages.v ===== *)
(** * The send pages and the faucet (apps/web/wallet/app/wallet, send/page.tsx, batch-send/page.tsx and faucet/page.tsx)

    Module [Send]: one recipient; the form is checked, the wallet is asked for a transaction, the user confirms
    it, and the wallet is asked to send. Module [Batch]: a list of recipients. Module [Faucet]: coins of a test
    network, with a cooldown between requests. What a page asks of the wallet ends with
    an event of its own; a button that is disabled does nothing. *)

From Stdlib Require Import Ascii String.
From stdpp Require Import pretty.
From S2P Require Import Prelude JsMap JsNumber JsString Store Page TransactionLabels.
From S2P Require Wallet ShamirSecret.

Abbreviation WalletInfo := Wallet.WalletInfo.

(** What the wallet is asked to spend. *)
Record Request := MkRequest { from : string; to : string; amount_num : num; rate : num }.

Definition is_alnum (c : ascii) : bool := is_lower c || is_upper c || is_digit c.

(** [/^KC1[a-zA-Z0-9]{6,}$/.test(value.trim())] *)
Definition isLikelyKubercoinAddress (value : string) : bool :=
  let v := trim value in
  startsWith "KC1" v && (9 <=? Z.of_nat (String.length v)) && str_all is_alnum (String.substring 3 (String.length v) v).

(** [isNaN(x) || x <= 0] and [isNaN(x) || x < 0] *)
Definition not_positive (x : num) : bool := is_nan x || SFleb x nzero.
Definition negative (x : num) : bool := is_nan x || SFltb x nzero.

Lemma not_positive_lt x : not_positive x = false → SFltb nzero x = true.
Proof. by destruct x as [[]|[]| |[] m e]. Qed.

(** ** One recipient *)

Module Send.

Inductive FeeRate := slow | medium | fast.

Record Estimates := MkEstimates { e_slow : num; e_medium : num; e_fast : num }.
Definition estimate (r : FeeRate) (e : Estimates) : num := match r with slow => e_slow e | medium => e_medium e | fast => e_fast e end.

(** What the page waits for: a preview, a sending, or the balance after a sending. *)
Inductive task := TPreview (q : Request) | TSend (q : Request) | TReload.

(** [sent]: what the wallet was asked to send. *)
Record SendPage := MkSend {
  activeWallet : option WalletInfo;
  recipientAddress : string;
  amount : string;
  feeRate : FeeRate;
  customFee : string;
  useCustomFee : bool;
  loading : bool;
  error : option string;
  success : option string;
  showConfirmation : bool;
  unsignedTx : option Wallet.UnsignedTransaction;
  estimatedFees : Estimates;
  tasks : list task;
  sent : list Request;
}.

Definition blank : SendPage := MkSend None "" "" medium "" false false None None false None (MkEstimates nzero nzero nzero) [] [].

Definition set_wallet x p := MkSend x (recipientAddress p) (amount p) (feeRate p) (customFee p) (useCustomFee p) (loading p) (error p) (success p) (showConfirmation p) (unsignedTx p) (estimatedFees p) (tasks p) (sent p).
Definition set_form r a p := MkSend (activeWallet p) r a (feeRate p) (customFee p) (useCustomFee p) (loading p) (error p) (success p) (showConfirmation p) (unsignedTx p) (estimatedFees p) (tasks p) (sent p).
Definition set_fee r c u p := MkSend (activeWallet p) (recipientAddress p) (amount p) r c u (loading p) (error p) (success p) (showConfirmation p) (unsignedTx p) (estimatedFees p) (tasks p) (sent p).
Definition setLoading x p := MkSend (activeWallet p) (recipientAddress p) (amount p) (feeRate p) (customFee p) (useCustomFee p) x (error p) (success p) (showConfirmation p) (unsignedTx p) (estimatedFees p) (tasks p) (sent p).
Definition setError x p := MkSend (activeWallet p) (recipientAddress p) (amount p) (feeRate p) (customFee p) (useCustomFee p) (loading p) x (success p) (showConfirmation p) (unsignedTx p) (estimatedFees p) (tasks p) (sent p).
Definition setSuccess x p := MkSend (activeWallet p) (recipientAddress p) (amount p) (feeRate p) (customFee p) (useCustomFee p) (loading p) (error p) x (showConfirmation p) (unsignedTx p) (estimatedFees p) (tasks p) (sent p).
Definition set_confirmation b t p := MkSend (activeWallet p) (recipientAddress p) (amount p) (feeRate p) (customFee p) (useCustomFee p) (loading p) (error p) (success p) b t (estimatedFees p) (tasks p) (sent p).
Definition setEstimatedFees x p := MkSend (activeWallet p) (recipientAddress p) (amount p) (feeRate p) (customFee p) (useCustomFee p) (loading p) (error p) (success p) (showConfirmation p) (unsignedTx p) x (tasks p) (sent p).
Definition set_tasks t s p := MkSend (activeWallet p) (recipientAddress p) (amount p) (feeRate p) (customFee p) (useCustomFee p) (loading p) (error p) (success p) (showConfirmation p) (unsignedTx p) (estimatedFees p) t s.

Definition default_fees : Estimates := MkEstimates (lit 1 5) (lit 2 5) (lit 5 5).

(** [loadFeeEstimates], when its three replies are there: the rates, or an error. *)
Definition loadFeeEstimates (r : result (option num * option num * option num)) (p : SendPage) : SendPage :=
  match r with
  | Ok (a, b, c) => setEstimatedFees (MkEstimates (num_or a (lit 1 5)) (num_or b (lit 2 5)) (num_or c (lit 5 5))) p
  | Throw _ => setEstimatedFees default_fees p
  end.

(** The message of the first check that fails. *)
Definition validateInputs (p : SendPage) : option string :=
  match activeWallet p with
  | None => Some "No active wallet selected"
  | Some w =>
      if str_eqb (trim (recipientAddress p)) "" then Some "Recipient address is required"
      else if negb (isLikelyKubercoinAddress (recipientAddress p)) then Some "Invalid recipient address"
      else
        let amountNum := parseFloat (amount p) in
        if not_positive amountNum then Some "Invalid amount"
        else if SFltb (Wallet.balance w) amountNum then Some ("Insufficient balance. Available: " +:+ to_fixed 8 (Wallet.balance w) +:+ " KBC")
        else if useCustomFee p && negative (parseFloat (customFee p)) then Some "Invalid custom fee rate"
        else None
  end.

Definition feeRateNum (p : SendPage) : num := if useCustomFee p then parseFloat (customFee p) else estimate (feeRate p) (estimatedFees p).

Definition request (w : WalletInfo) (p : SendPage) : Request :=
  MkRequest (Wallet.address w) (recipientAddress p) (parseFloat (amount p)) (feeRateNum p).

Definition handlePreviewTransaction (p : SendPage) : SendPage :=
  let p := setSuccess None (setError None p) in
  match validateInputs p, activeWallet p with
  | None, Some w => let p := setLoading true p in set_tasks (tasks p ++ [TPreview (request w p)]) (sent p) p
  | Some msg, _ => setError (Some msg) p
  | None, None => p
  end.

Definition handleSendTransaction (p : SendPage) : SendPage :=
  match unsignedTx p, activeWallet p with
  | Some _, Some w => let p := setError None (setLoading true p) in set_tasks (tasks p ++ [TSend (request w p)]) (sent p ++ [request w p]) p
  | _, _ => p
  end.

Definition handleCancel (p : SendPage) : SendPage := set_confirmation false None p.

(** How what the page waits for ends. *)
Inductive outcome := Created (tx : Wallet.UnsignedTransaction) | Sent (txid : string) | Balance (w : option WalletInfo) | Failed (msg : string).

Definition task_ends (n : nat) (o : outcome) (p : SendPage) : SendPage :=
  match tasks p !! n with
  | None => p
  | Some t =>
      let p := set_tasks (delete n (tasks p)) (sent p) p in
      match t, o with
      | TPreview _, Created tx => setLoading false (set_confirmation true (Some tx) p)
      | TSend _, Sent txid =>
          let p := set_form "" "" (set_confirmation false (unsignedTx p) (setSuccess (Some ("Transaction sent successfully! TXID: " +:+ txid)) p)) in
          let p := set_confirmation false None p in
          set_tasks (tasks p ++ [TReload]) (sent p) p
      | TReload, Balance w => setLoading false (set_wallet w p)
      | _, Failed msg => setLoading false (setError (Some msg) p)
      | _, _ => setLoading false p
      end
  end.

(** The fields of the form are not there while the confirmation is shown. *)
Inductive event :=
  | WalletLoaded (w : option WalletInfo) | FeesArrive (r : result (option num * option num * option num))
  | TypeForm (recipient amount : string) | TypeFee (r : FeeRate) (custom : string) (use : bool) | Max
  | Preview | Cancel | Confirm | TaskEnds (n : nat) (o : outcome).

Definition exec (ev : event) (p : SendPage) : SendPage :=
  match ev with
  | WalletLoaded w => set_wallet w p
  | FeesArrive r => loadFeeEstimates r p
  | TypeForm r a => if showConfirmation p then p else set_form r a p
  | TypeFee r c u => if showConfirmation p then p else set_fee r c u p
  | Max => match activeWallet p with Some w => if showConfirmation p then p else set_form (recipientAddress p) (num_to_string (Wallet.balance w)) p | None => p end
  | Preview => if showConfirmation p || loading p || negb (bool_decide (is_Some (activeWallet p))) then p else handlePreviewTransaction p
  | Cancel => if showConfirmation p && negb (loading p) then handleCancel p else p
  | Confirm => if showConfirmation p && negb (loading p) then handleSendTransaction p else p
  | TaskEnds n o => task_ends n o p
  end.

(** *** Theorems *)

(** The page waits for at most one thing, and says so. *)
Definition one_task (p : SendPage) : Prop := (length (tasks p) ≤ 1)%nat ∧ loading p = negb (bool_decide (tasks p = [])).

Lemma ends_one_task n o p : one_task p → one_task (task_ends n o p).
Proof.
  intros H. unfold task_ends. destruct (tasks p !! n) as [t|] eqn:Hn; [|done]. destruct H as [Hlen Hl].
  destruct (tasks p) as [|t' [|]] eqn:E; try (cbn in Hlen; lia); [done|]. destruct n; [|done]. injection Hn as ->.
  destruct t, o; split; cbn; (lia || done).
Qed.

Lemma exec_one_task ev p : one_task p → one_task (exec ev p).
Proof.
  intros H. assert (loading p = false → tasks p = []) as Hl.
  { destruct H as [_ ->]. case_bool_decide; done. }
  destruct ev; cbn [exec]; try done.
  - by destruct r as [[[]]|].
  - by case_match.
  - by case_match.
  - repeat case_match; done.
  - destruct (_ || _) eqn:E; [done|]. apply orb_false_iff in E as [[_ E]%orb_false_iff _]. unfold handlePreviewTransaction.
    repeat case_match; try done. split; cbn; rewrite (Hl E); cbn; (lia || done).
  - by case_match.
  - case_match eqn:E; [|done]. apply andb_true_iff in E as [_ E%negb_true_iff]. unfold handleSendTransaction.
    repeat case_match; try done. split; cbn; rewrite (Hl E); cbn; (lia || done).
  - by apply ends_one_task.
Qed.

(** At no time are two requests under way: however often a button is pressed, the wallet is asked once, and the page is
    waiting exactly when something is to come. *)
Theorem one_request_at_a_time evs : let p := foldl (flip exec) blank evs in
  (length (tasks p) ≤ 1)%nat ∧ (loading p = true ↔ tasks p ≠ []).
Proof.
  assert (one_task (foldl (flip exec) blank evs)) as [Hlen Hl].
  { cut (∀ p, one_task p → one_task (foldl (flip exec) p evs)); [intros H; apply H; by split; cbn; [lia|]|].
    induction evs as [|ev evs IH]; intros p H; [done|]. by apply IH, exec_one_task. }
  split; [done|]. rewrite Hl. case_bool_decide; by split.
Qed.

(** *** What is sent was checked *)

Definition typing (ev : event) : bool := match ev with TypeForm _ _ | Max => true | _ => false end.

(** A use of the page in which the form is left alone while the page waits. *)
Inductive reach : SendPage → Prop :=
  | reach_blank : reach blank
  | reach_exec ev p : reach p → (typing ev = true → loading p = false) → reach (exec ev p).

Definition good (r : string) (a : num) : Prop := isLikelyKubercoinAddress r = true ∧ SFltb nzero a = true.
Definition good_form (p : SendPage) : Prop := good (recipientAddress p) (parseFloat (amount p)).

Record checked (p : SendPage) : Prop := {
  checked_task : one_task p;
  checked_preview q : TPreview q ∈ tasks p → good_form p;
  checked_shown : showConfirmation p = true → good_form p;
  checked_sent : Forall (λ q, good (to q) (amount_num q)) (sent p);
}.

Lemma validate_good p : validateInputs p = None → good_form p.
Proof.
  unfold validateInputs. repeat case_match; try done. intros _. split; [by apply negb_false_iff|by apply not_positive_lt].
Qed.

Lemma checked_form r a p : checked p → loading p = false → showConfirmation p = false → checked (set_form r a p).
Proof.
  intros [H1 H2 H3 H4] Hl Hs. constructor; [done| | |done]; cbn; [|by rewrite Hs].
  destruct H1 as [_ H1]. rewrite Hl in H1. case_bool_decide as E; [|done]. rewrite E. by intros q Hq%not_elem_of_nil.
Qed.

Lemma checked_neutral f p : checked p → one_task (f p) → tasks (f p) = tasks p → sent (f p) = sent p → recipientAddress (f p) = recipientAddress p →
  amount (f p) = amount p → (showConfirmation (f p) = true → showConfirmation p = true) → checked (f p).
Proof.
  intros [H1 H2 H3 H4] Ht E1 E2 E3 E4 E5. unfold good_form in *.
  constructor; unfold good_form; rewrite ?E1, ?E2, ?E3, ?E4; auto.
Qed.

Lemma preview_checked p : checked p → loading p = false → checked (handlePreviewTransaction p).
Proof.
  intros H Hl. unfold handlePreviewTransaction.
  destruct (validateInputs _) as [msg|] eqn:Hv.
  { apply (checked_neutral (λ p, setError (Some msg) (setSuccess None (setError None p)))); [done|exact (checked_task _ H)|done..]. }
  apply validate_good in Hv. destruct (activeWallet _) eqn:Ha; [|apply (checked_neutral (λ p, setSuccess None (setError None p))); [done|exact (checked_task _ H)|done..]].
  cbn in Ha. destruct H as [[H1 H1'] H2 H3 H4]. rewrite Hl in H1'. case_bool_decide as E; [|done]. constructor; [|done..].
  split; cbn; rewrite E; cbn; (lia || done).
Qed.

Lemma ends_checked n o p : checked p → checked (task_ends n o p).
Proof.
  intros H. pose proof (ends_one_task n o p (checked_task _ H)) as Ht. unfold task_ends in *. destruct (tasks p !! n) as [t|] eqn:Hn; [|done].
  destruct H as [[H1 _] H2 H3 H4]. destruct (tasks p) as [|t' [|]] eqn:E; try (cbn in H1; lia); [done|]. destruct n; [|done]. injection Hn as ->.
  destruct t, o; (constructor; [exact Ht| | |exact H4]); cbn; try (by intros ? ?%not_elem_of_nil); try (by intros ? [=]%list_elem_of_singleton);
    try done; try exact H3. intros _. eapply H2. by left.
Qed.

Lemma exec_checked ev p : checked p → (typing ev = true → loading p = false) → checked (exec ev p).
Proof.
  intros H Hty. pose proof (exec_one_task ev p (checked_task _ H)) as Ht. destruct ev; cbn [exec] in *; cbn in Hty.
  - by apply (checked_neutral (set_wallet w)).
  - apply (checked_neutral (loadFeeEstimates r)); try done; by destruct r as [[[]]|].
  - destruct (showConfirmation p) eqn:E; [done|]. apply checked_form; auto.
  - destruct (showConfirmation p) eqn:E; [done|]. by apply (checked_neutral (set_fee r custom use)).
  - destruct (activeWallet p); [|done]. destruct (showConfirmation p) eqn:E; [done|]. apply checked_form; auto.
  - destruct (_ || _) eqn:E; [done|]. apply orb_false_iff in E as [[_ E]%orb_false_iff _]. by apply preview_checked.
  - destruct (_ && _) eqn:E; [|done]. by apply (checked_neutral handleCancel).
  - destruct (_ && _) eqn:E; [|done]. apply andb_true_iff in E as [Hs E%negb_true_iff]. unfold handleSendTransaction in *.
    destruct (unsignedTx p), (activeWallet p); try done. destruct H as [[H1 H1'] H2 H3 H4]. rewrite E in H1'. case_bool_decide as En; [|done].
    constructor; [done| |done|]; cbn.
    + rewrite En. by intros q [=]%list_elem_of_singleton.
    + apply Forall_app. split; [done|]. constructor; [by apply H3|done].
  - by apply ends_checked.
Qed.

(** C33: When the form is left alone while the page waits, every address that the wallet is asked to send to has passed the
    page's test, and every amount is positive. *)
Theorem sent_was_checked p : reach p → Forall (λ q, isLikelyKubercoinAddress (to q) = true ∧ SFltb nzero (amount_num q) = true) (sent p).
Proof.
  intros H. apply checked_sent. induction H as [|ev p H IH Hty]; [|by apply exec_checked].
  constructor; [by split; cbn; [lia|]| |done|done]. by intros q Hq%not_elem_of_nil.
Qed.

(** *** Examples *)

Definition demo_wallet : WalletInfo := Wallet.MkWalletInfo "KC1sender0" "Main" (of_Z 10) nzero None None 0 None None.
Definition demo_tx : Wallet.UnsignedTransaction := Wallet.MkUnsigned [] [] (lit 1 5).
Definition demo_typed : list event := [WalletLoaded (Some demo_wallet); TypeForm "KC1abcdef" "2.5"; Preview].

(** A form that is changed while the preview is made is sent as it is then, without a test: to no address, of more
    than there is. *)
Example changed_form_is_sent :
  let p := foldl (flip exec) blank (demo_typed ++ [TypeForm "nobody" "99"; TaskEnds 0 (Created demo_tx); Confirm; Confirm]) in
  sent p = [MkRequest "KC1sender0" "nobody" (of_Z 99) nzero].
Proof. vm_compute. reflexivity. Qed.

(** The address is tested without the blanks around it and sent with them. *)
Example blanks_are_sent :
  let p := foldl (flip exec) blank [WalletLoaded (Some demo_wallet); TypeForm " KC1abcdef " "2.5"; Preview; TaskEnds 0 (Created demo_tx); Confirm] in
  to <$> sent p = [" KC1abcdef "].
Proof. vm_compute. reflexivity. Qed.

Lemma sent_was_checked_witness :
  let p := foldl (flip exec) blank (demo_typed ++ [TaskEnds 0 (Created demo_tx); Confirm; TaskEnds 0 (Sent "aa"); TaskEnds 0 (Balance None)]) in
  length (sent p) = 1%nat ∧ Forall (λ q, isLikelyKubercoinAddress (to q) = true ∧ SFltb nzero (amount_num q) = true) (sent p).
Proof.
  split; [vm_compute; reflexivity|]. apply sent_was_checked. cbn [foldl demo_typed app flip].
  repeat (apply reach_exec; [|by vm_compute]). apply reach_blank.
Defined.
End Send.

(** ** Many recipients *)

Module Batch.

Record Recipient := MkRecipient { id : string; address : string; amount : string; label : option string }.
Inductive Field := f_id | f_address | f_amount | f_label.

(** The key [custom] is in no table of rates. *)
Inductive FeeRate := slow | medium | fast | custom.

(** What the wallet is asked to send. *)
Record Order := MkOrder { from : string; outputs : list (string * num); order_rate : num }.

(** [sending]: the orders under way, with the recipients that the page had; [stale]: have the recipients changed? *)
Record BatchPage := MkBatch {
  activeWallet : option WalletInfo;
  recipients : list Recipient;
  feeRate : FeeRate;
  customFee : string;
  useCustomFee : bool;
  loading : bool;
  error : option string;
  success : option string;
  showConfirmation : bool;
  totalAmount : num;
  estimatedFee : num;
  sending : list (Order * list Recipient);
  stale : bool;
}.

Definition empty_recipient (i : string) : Recipient := MkRecipient i "" "" (Some "").
Definition blank : BatchPage := MkBatch None [empty_recipient "1"] medium "0.00001" false false None None false nzero nzero [] true.

Definition set_wallet x p := MkBatch x (recipients p) (feeRate p) (customFee p) (useCustomFee p) (loading p) (error p) (success p) (showConfirmation p) (totalAmount p) (estimatedFee p) (sending p) (stale p).
Definition setRecipients x p := MkBatch (activeWallet p) x (feeRate p) (customFee p) (useCustomFee p) (loading p) (error p) (success p) (showConfirmation p) (totalAmount p) (estimatedFee p) (sending p) true.
Definition set_fee r c u p := MkBatch (activeWallet p) (recipients p) r c u (loading p) (error p) (success p) (showConfirmation p) (totalAmount p) (estimatedFee p) (sending p) (stale p).
Definition setLoading x p := MkBatch (activeWallet p) (recipients p) (feeRate p) (customFee p) (useCustomFee p) x (error p) (success p) (showConfirmation p) (totalAmount p) (estimatedFee p) (sending p) (stale p).
Definition setError x p := MkBatch (activeWallet p) (recipients p) (feeRate p) (customFee p) (useCustomFee p) (loading p) x (success p) (showConfirmation p) (totalAmount p) (estimatedFee p) (sending p) (stale p).
Definition setSuccess x p := MkBatch (activeWallet p) (recipients p) (feeRate p) (customFee p) (useCustomFee p) (loading p) (error p) x (showConfirmation p) (totalAmount p) (estimatedFee p) (sending p) (stale p).
Definition setShowConfirmation x p := MkBatch (activeWallet p) (recipients p) (feeRate p) (customFee p) (useCustomFee p) (loading p) (error p) (success p) x (totalAmount p) (estimatedFee p) (sending p) (stale p).
Definition setTotalAmount x p := MkBatch (activeWallet p) (recipients p) (feeRate p) (customFee p) (useCustomFee p) (loading p) (error p) (success p) (showConfirmation p) x (estimatedFee p) (sending p) false.
Definition setEstimatedFee x p := MkBatch (activeWallet p) (recipients p) (feeRate p) (customFee p) (useCustomFee p) (loading p) (error p) (success p) (showConfirmation p) (totalAmount p) x (sending p) (stale p).
Definition set_sending x p := MkBatch (activeWallet p) (recipients p) (feeRate p) (customFee p) (useCustomFee p) (loading p) (error p) (success p) (showConfirmation p) (totalAmount p) (estimatedFee p) x (stale p).

Abbreviation W := (World BatchPage TransactionLabels).
Abbreviation M := (js (W * Env)).

(** *** The recipients *)

(** [parseFloat(r.amount) || 0] *)
Definition amount_or_zero (r : Recipient) : num := num_or (Some (parseFloat (amount r))) nzero.
Definition total (l : list Recipient) : num := foldl (λ sum r, nadd sum (amount_or_zero r)) nzero l.
Definition calculateTotal (p : BatchPage) : BatchPage := setTotalAmount (total (recipients p)) p.
Definition render : M () := p ← get_page; js_when (stale p) (set_page calculateTotal).

(** [(parseInt(id) + 1).toString()] *)
Definition next_id (i : string) : string := match ShamirSecret.parseInt_any i with Some n => pretty (n + 1) | None => "NaN" end.

(** Without a last recipient, reading its id is a TypeError. *)
Definition addRecipient : M () :=
  p ← get_page;
  match last (recipients p) with
  | Some r => set_page (setRecipients (recipients p ++ [empty_recipient (next_id (id r))]))
  | None => js_throw "Cannot read properties of undefined (reading 'id')"
  end.

Definition removeRecipient (i : string) (p : BatchPage) : BatchPage :=
  if Z.of_nat (length (recipients p)) <=? 1 then setError (Some "Must have at least one recipient") p
  else setRecipients (js_filter (λ r, negb (str_eqb (id r) i)) (recipients p)) p.

Definition set_field (f : Field) (v : string) (r : Recipient) : Recipient :=
  match f with
  | f_id => MkRecipient v (address r) (amount r) (label r)
  | f_address => MkRecipient (id r) v (amount r) (label r)
  | f_amount => MkRecipient (id r) (address r) v (label r)
  | f_label => MkRecipient (id r) (address r) (amount r) (Some v)
  end.

Definition updateRecipient (i : string) (f : Field) (v : string) (p : BatchPage) : BatchPage :=
  setRecipients ((λ r, if str_eqb (id r) i then set_field f v r else r) <$> recipients p) p.

(** *** Checking and sending *)

Definition recipient_error (r : Recipient) : option string :=
  if str_eqb (address r) "" then Some ("Recipient " +:+ id r +:+ ": Address is required")
  else if not_positive (parseFloat (amount r)) then Some ("Recipient " +:+ id r +:+ ": Invalid amount")
  else None.

Fixpoint first_error (l : list Recipient) : option string :=
  match l with [] => None | r :: l => match recipient_error r with Some e => Some e | None => first_error l end end.

Definition validateBatchSend (p : BatchPage) : option string :=
  match activeWallet p with
  | None => Some "No active wallet selected"
  | Some w =>
      match recipients p with
      | [] => Some "Must have at least one recipient"
      | l =>
          match first_error l with
          | Some e => Some e
          | None =>
              if SFleb (totalAmount p) nzero then Some "Total amount must be greater than 0"
              else if SFltb (Wallet.balance w) (totalAmount p) then Some ("Insufficient funds. You have " +:+ to_fixed 8 (Wallet.balance w) +:+ " KBC")
              else if useCustomFee p && negative (parseFloat (customFee p)) then Some "Invalid custom fee rate"
              else None
          end
      end
  end.

(** [feeRates[feeRate] || 0.00002] *)
Definition fee_table (r : FeeRate) : num := match r with slow => lit 1 5 | medium => lit 2 5 | fast => lit 5 5 | custom => lit 2 5 end.
Definition rate_of (p : BatchPage) : num := if useCustomFee p then parseFloat (customFee p) else fee_table (feeRate p).

Definition estimatedSize (p : BatchPage) : Z := 148 * 2 + 34 * (Z.of_nat (length (recipients p)) + 1) + 10.
Definition fee_estimate (p : BatchPage) : num := ndiv (nmul (rate_of p) (of_Z (estimatedSize p))) (of_Z 100000000).

Definition handlePreview (p : BatchPage) : BatchPage :=
  match validateBatchSend p with
  | Some e => setError (Some e) p
  | None => setError None (setShowConfirmation true (setEstimatedFee (fee_estimate p) p))
  end.

Definition order (w : WalletInfo) (p : BatchPage) : Order :=
  MkOrder (Wallet.address w) ((λ r, (address r, parseFloat (amount r))) <$> recipients p) (rate_of p).

(** [err.message || fallback] *)
Definition message_or (msg : string) : string := if str_eqb msg "" then "Failed to send batch transaction" else msg.
Definition failed (msg : string) (p : BatchPage) : BatchPage := setLoading false (setShowConfirmation false (setError (Some (message_or msg)) p)).

Definition handleBatchSend (p : BatchPage) : BatchPage :=
  let p := setSuccess None (setError None (setLoading true p)) in
  match activeWallet p with
  | Some w => set_sending (sending p ++ [(order w p, recipients p)]) p
  | None => failed "Cannot read properties of null (reading 'address')" p
  end.

Definition label_recipient (txid : string) (r : Recipient) : M () :=
  match label r with
  | Some l => if str_eqb l "" then mret ()
              else service (addLabel txid (Some ("Batch send to " +:+ l)) (Some ["batch-send"; "outgoing"]) (Some "batch"));; mret ()
  | None => mret ()
  end.

(** [batchSend] ends; the balance is read before the page says that it is done. *)
Definition batch_ends (n : nat) (r : result string) (w : option WalletInfo) : M () :=
  p ← get_page;
  match sending p !! n with
  | None => mret ()
  | Some (_, rs) =>
      set_page (set_sending (delete n (sending p)));;
      js_try (
        match r with
        | Ok txid =>
            js_forEach (label_recipient txid) rs;;
            set_page (λ p, setRecipients [empty_recipient "1"] (setShowConfirmation false
              (setSuccess (Some ("Batch transaction sent successfully! Transaction ID: " +:+ txid)) p)));;
            set_page (λ p, match w with Some w => set_wallet (Some w) p | None => p end)
        | Throw msg => js_throw msg
        end)
        (λ msg, set_page (failed msg));;
      set_page (setLoading false)
  end.

(** *** Events *)

Inductive event :=
  | WalletLoaded (w : option WalletInfo) | Add | Remove (i : string) | Change (i : string) (f : Field) (v : string)
  | PickFee (r : FeeRate) | TypeFee (custom : string) | UseCustom (b : bool)
  | Preview | Close | Confirm | Ends (n : nat) (r : result string) (w : option WalletInfo).

(** A row has a button that removes it when there is another one; its fields are those but the id. *)
Definition handle (ev : event) : M () :=
  match ev with
  | WalletLoaded w => set_page (λ p, match w with Some w => set_wallet (Some w) p | None => p end)
  | Add => addRecipient
  | Remove i => set_page (λ p, if 1 <? Z.of_nat (length (recipients p)) then removeRecipient i p else p)
  | Change i f v => set_page (λ p, match f with f_id => p | _ => updateRecipient i f v p end)
  | PickFee r => set_page (λ p, set_fee r (customFee p) false p)
  | TypeFee c => set_page (λ p, if useCustomFee p then set_fee (feeRate p) c true p else p)
  | UseCustom b => set_page (λ p, set_fee (feeRate p) (customFee p) b p)
  | Preview => set_page (λ p, if loading p || negb (bool_decide (is_Some (activeWallet p))) then p else handlePreview p)
  | Close => set_page (λ p, if showConfirmation p && negb (loading p) then setShowConfirmation false p else p)
  | Confirm => set_page (λ p, if showConfirmation p && negb (loading p) then handleBatchSend p else p)
  | Ends n r w => batch_ends n r w
  end.

Definition exec (ev : event) : M () := handle ev;; render.

(** *** The rows *)

(** The ids are numerals that increase. *)
Definition numbered (l : list Recipient) : Prop := ∃ ns, id <$> l = pretty <$> ns ∧ StronglySorted Z.lt ns ∧ Forall (λ n, 1 <= n) ns ∧ ns ≠ [].

Lemma numbered_snoc l r : numbered l → last l = Some r → numbered (l ++ [empty_recipient (next_id (id r))]).
Proof.
  intros (ns & Hid & Hs & Hp & Hne) Hr. assert (last (id <$> l) = Some (id r)) as Hl by (by rewrite fmap_last, Hr).
  rewrite Hid, fmap_last in Hl. destruct (last ns) as [n|] eqn:Hn; [|done]. injection Hl as Hl.
  assert (1 <= n) as Hn1 by (apply last_Some in Hn as (ns' & ->); apply Forall_app in Hp as [_ Hp]; by inversion Hp).
  assert (next_id (id r) = pretty (n + 1)) as -> by (unfold next_id; rewrite <- Hl, ShamirSecret.parseInt_pretty by lia; done).
  exists (ns ++ [n + 1]). rewrite !fmap_app, Hid. split; [done|]. apply last_Some in Hn as (ns' & ->).
  split; [|split; [apply Forall_app; split; [done|]; constructor; [lia|done]|by destruct ns']].
  apply StronglySorted_app. split; [|split; [done|by repeat constructor]].
  intros x y Hx Hy%list_elem_of_singleton. subst y. apply elem_of_app in Hx as [Hx| ->%list_elem_of_singleton]; [|lia].
  apply StronglySorted_app in Hs as (Hs & _ & _). specialize (Hs x n Hx). etransitivity; [apply Hs; by left|lia].
Qed.

Lemma sorted_filter (q : Z → bool) l : StronglySorted Z.lt l → StronglySorted Z.lt (js_filter q l).
Proof.
  intros H. induction H as [|x l Hl IH Hx]; [constructor|]. cbn. destruct (q x); [|done]. constructor; [done|].
  rewrite Forall_forall in *. intros y [Hy _]%elem_of_js_filter. by apply Hx.
Qed.

Lemma numbered_filter l i : numbered l → (1 < length l)%nat → numbered (js_filter (λ r, negb (str_eqb (id r) i)) l).
Proof.
  intros (ns & Hid & Hs & Hp & _) Hlen. set (q := λ n : Z, negb (str_eqb (pretty n) i)). exists (js_filter q ns). split.
  { rewrite <- (js_filter_fmap id (λ j, negb (str_eqb j i))), Hid by done. by apply js_filter_fmap. }
  split; [by apply sorted_filter|]. split.
  { rewrite Forall_forall in *. intros y [Hy _]%elem_of_js_filter. by apply Hp. }
  assert (length ns = length l) as Hns by (by rewrite <- (length_fmap pretty ns), <- Hid, length_fmap).
  destruct ns as [|a [|b ns]]; cbn in Hns; try lia. assert (a < b) as Hab by (inversion Hs as [|? ? ? Hf]; by inversion Hf).
  intros E. assert (∀ n, n ∈ [a; b] → pretty n = i) as H.
  { intros n Hn. destruct (str_eqb (pretty n) i) eqn:Ei; [by apply str_eqb_true in Ei|].
    assert (n ∈ js_filter q (a :: b :: ns)) as Hin; [|rewrite E in Hin; by apply not_elem_of_nil in Hin].
    apply elem_of_js_filter. split; [set_solver|unfold q; by rewrite Ei]. }
  assert (a = b); [|lia]. apply (inj pretty). rewrite !H by set_solver. done.
Qed.

Lemma numbered_update l i f v : f ≠ f_id → numbered l → numbered ((λ r, if str_eqb (id r) i then set_field f v r else r) <$> l).
Proof.
  intros Hf (ns & Hid & H). exists ns. split; [|done]. rewrite <- Hid, <- list_fmap_compose. apply list_fmap_ext. intros j r _. cbn.
  destruct (str_eqb _ _); [|done]. by destruct f.
Qed.

Lemma numbered_one : numbered [empty_recipient "1"].
Proof. exists [1]. split; [done|]. split; [by repeat constructor|]. split; [by repeat constructor|done]. Qed.

Lemma numbers_distinct ns : StronglySorted Z.lt ns → NoDup ns.
Proof.
  intros H. induction H as [|x l _ IH Hx]; constructor; [|done]. rewrite Forall_forall in Hx. intros Hin%Hx. lia.
Qed.

(** A change of a field changes that field of one row, and no other row. *)
Theorem change_of_one_row l i f v k r : numbered l → l !! k = Some r → id r = i →
  recipients (updateRecipient i f v (setRecipients l blank)) = <[k := set_field f v r]> l.
Proof.
  intros (ns & Hid & Hs & _) Hk Hi. cbn. apply list_eq. intros j. rewrite list_lookup_fmap.
  destruct (decide (j = k)) as [->|Hne].
  - rewrite Hk, list_lookup_insert_eq by (by eapply lookup_lt_Some). cbn. by rewrite (proj2 (str_eqb_true (id r) i) Hi).
  - rewrite list_lookup_insert_ne by done. destruct (l !! j) as [r'|] eqn:Hj; [|done]. cbn. destruct (str_eqb (id r') i) eqn:E; [|done].
    destruct Hne. apply str_eqb_true in E. assert (NoDup (id <$> l)) as Hn.
    { rewrite Hid. apply NoDup_fmap_2; [apply _|]. by apply numbers_distinct. }
    eapply NoDup_lookup; [exact Hn|rewrite list_lookup_fmap, Hj; reflexivity|rewrite list_lookup_fmap, Hk; cbn; by rewrite E, Hi].
Qed.
(** *** The total *)

Definition in_step (w : W) : Prop :=
  numbered (recipients (page w)) ∧ (stale (page w) = false → totalAmount (page w) = total (recipients (page w))).

Definition neutral (f : BatchPage → BatchPage) : Prop := ∀ p,
  recipients (f p) = recipients p ∧ totalAmount (f p) = totalAmount p ∧ stale (f p) = stale p.

Lemma batch_keeps_neutral f : neutral f → keeps in_step (set_page f).
Proof. intros Hf. apply keeps_set. intros p s. unfold in_step. cbn. by destruct (Hf p) as (-> & -> & ->). Qed.

Lemma keeps_rows f : (∀ p, numbered (recipients p) → f p = p ∨ (numbered (recipients (f p)) ∧ stale (f p) = true) ∨ neutral f) → keeps in_step (set_page f).
Proof.
  intros Hf. apply keeps_set. intros p s [Hn Ht]. cbn in *. destruct (Hf p Hn) as [->|[[Hn' Hs]|Hf']]; [done|split; cbn; [done|by rewrite Hs]|].
  unfold in_step. cbn. by destruct (Hf' p) as (-> & -> & ->).
Qed.

Lemma add_label_run x n t c (s : TransactionLabels) e : ∃ l s' e', addLabel x n t c (s, e) = (Ok l, (s', e')) ∧ labels s' = map_set x l (labels s) ∧ l_note l = n.
Proof.
  unfold addLabel. js_run. match goal with |- context [(saveLabels ≫= _) (?s, ?e)] => destruct (saveLabels_run s e) as (s1 & E & Hl & _) end.
  rewrite (run_Ok _ _ _ _ _ E). eexists _, _, _. split; [reflexivity|]. split; [exact Hl|done].
Qed.

Lemma keeps_label x r : keeps in_step (label_recipient x r).
Proof.
  unfold label_recipient. destruct (label r) as [l|]; [|apply keeps_ret]. case_match; [apply keeps_ret|].
  apply keeps_bind; [|intros ?; apply keeps_ret]. apply keeps_service. intros p s e Hw.
  match goal with |- context [addLabel ?a ?b ?c ?d] => destruct (add_label_run a b c d s e) as (lb & s' & e' & E & _) end. by exists lb, s', e'.
Qed.

Lemma keeps_ends n r w : keeps in_step (batch_ends n r w).
Proof.
  apply keeps_get. intros p. destruct (sending p !! n) as [[o rs]|]; [|apply keeps_ret]. apply keeps_bind; [by apply batch_keeps_neutral|]. intros _.
  apply keeps_bind; [|intros _; by apply batch_keeps_neutral]. destruct r as [x|msg].
  - match goal with |- keeps _ (js_try ?m _) => assert (keeps in_step m) as Hm end.
    { apply keeps_bind; [apply keeps_forEach; intros y; apply keeps_label|]. intros _. apply keeps_bind.
      - apply keeps_set. intros q s _. split; [apply numbered_one|done].
      - intros _. by destruct w; apply batch_keeps_neutral. }
    intros w0 H0. destruct (Hm w0 H0) as (a & w1 & E & H1). exists a, w1. by rewrite (run_try_Ok _ _ _ _ _ E).
  - intros w0 H0. by apply (batch_keeps_neutral (failed msg)).
Qed.

Lemma batch_handle_keeps ev : keeps in_step (handle ev).
Proof.
  destruct ev; cbn [handle]; try (by apply batch_keeps_neutral).
  - by destruct w; apply batch_keeps_neutral.
  - intros [[p s] e] [Hn Ht]. unfold addRecipient. page_run. cbn in Hn. destruct (last (recipients p)) as [r|] eqn:Hl.
    + eexists _, _. split; [reflexivity|]. split; [by apply numbered_snoc|done].
    + apply last_None in Hl. destruct Hn as (ns & Hid & _ & _ & Hne). rewrite Hl in Hid. by destruct ns.
  - apply keeps_rows. intros p Hn. destruct (1 <? _) eqn:E; [|by left]. right. left. unfold removeRecipient.
    destruct (_ <=? 1) eqn:E'; [lia|]. split; [|done]. apply numbered_filter; [done|lia].
  - destruct f; [by apply batch_keeps_neutral|..]; apply keeps_rows; intros p Hn; right; left; (split; [by apply numbered_update|done]).
  - apply keeps_set. intros p s H. by destruct (useCustomFee p).
  - apply keeps_set. intros p s H. destruct (_ || _); [done|]. unfold handlePreview. by destruct (validateBatchSend p).
  - apply keeps_set. intros p s H. by destruct (_ && _).
  - apply keeps_set. intros p s H. destruct (_ && _); [|done]. unfold handleBatchSend. cbn. by destruct (activeWallet p).
  - apply keeps_ends.
Qed.

Lemma batch_exec_run ev w : in_step w.1 → ∃ w', exec ev w = (Ok (), w') ∧ in_step w'.1 ∧ stale (page w'.1) = false.
Proof.
  intros H. destruct (batch_handle_keeps ev w H) as ([] & w1 & E & [Hn Ht]). unfold exec. rewrite (run_Ok _ _ _ _ _ E). unfold render.
  destruct w1 as [[p s] e]. page_run. destruct (stale p) eqn:Hs; (eexists; split; [reflexivity|]); cbn in *; [|done]. by split; [split|].
Qed.

(** Whatever is added, removed, typed and sent, in whatever order: the page has a row at least, the rows have different
    ids, which increase from the first to the last, and the total is that of the rows that are there. *)
Theorem rows_and_total evs s e : let w := js_forEach exec evs (MkWorld blank s, e) in let p := page w.2.1 in
  w.1 = Ok () ∧ recipients p ≠ [] ∧ NoDup (id <$> recipients p) ∧ numbered (recipients p) ∧ (evs ≠ [] → totalAmount p = total (recipients p)).
Proof.
  assert (∀ w0, in_step w0.1 → ∃ w1, js_forEach exec evs w0 = (Ok (), w1) ∧ in_step w1.1 ∧ (evs ≠ [] → stale (page w1.1) = false)) as H.
  { induction evs as [|ev evs IH]; intros w0 H0; cbn [js_forEach]; [by exists w0|].
    destruct (batch_exec_run ev w0 H0) as (w1 & E & H1 & Hs1). rewrite (run_Ok _ _ _ _ _ E). destruct (IH w1 H1) as (w2 & E2 & H2 & Hs2).
    exists w2. split; [done|]. split; [done|]. intros _. destruct evs; [|by apply Hs2]. by injection E2 as <-. }
  destruct (H (MkWorld blank s, e)) as (w & E & [Hn Ht] & Hs); [by split; [apply numbered_one|]|]. cbv zeta. rewrite E. cbn [fst snd].
  split; [done|]. pose proof Hn as (ns & Hid & Hso & _ & Hne). split; [intros E0; rewrite E0 in Hid; by destruct ns|]. split; [|split; [done|intros He; by apply Ht, Hs]].
  rewrite Hid. apply NoDup_fmap_2; [apply _|]. by apply numbers_distinct.
Qed.

(** *** The labels of a batch *)

Definition named (r : Recipient) : option string := match label r with Some l => if str_eqb l "" then None else Some l | None => None end.

Lemma label_none x r : named r = None → label_recipient x r = mret ().
Proof. unfold named, label_recipient. destruct (label r); [|done]. by case_match. Qed.
Lemma label_some x r l : named r = Some l → label_recipient x r =
  (service (addLabel x (Some ("Batch send to " +:+ l)) (Some ["batch-send"; "outgoing"]) (Some "batch"));; mret ()).
Proof. unfold named, label_recipient. destruct (label r); [|done]. case_match; [done|]. by intros [= ->]. Qed.

Lemma recipient_labels_run x rs (w : W * Env) : ∃ s' e', js_forEach (label_recipient x) rs w = (Ok (), (MkWorld (page w.1) s', e')) ∧
  match last (omap named rs) with
  | Some l => l_note <$> map_get x (labels s') = Some (Some ("Batch send to " +:+ l))
  | None => labels s' = labels (services w.1)
  end.
Proof.
  revert w. induction rs as [|r rs IH]; intros [[p s] e]; cbn [js_forEach]; [by exists s, e|].
  change (omap named (r :: rs)) with (match named r with Some l => l :: omap named rs | None => omap named rs end).
  destruct (named r) as [l|] eqn:Hr.
  - rewrite (label_some x r l Hr). match goal with |- context [addLabel ?a ?b ?c ?d] => destruct (add_label_run a b c d s e) as (lb & s1 & e1 & E1 & Hl & Hn) end.
    destruct (IH (MkWorld p s1, e1)) as (s' & e' & E & H). exists s', e'. page_run. rewrite (run_service _ _ (MkWorld p s, e) _ _ _ E1). page_run.
    split; [exact E|]. destruct (omap named rs) as [|l' ls].
    2: { change (last (l :: l' :: ls)) with (last (l' :: ls)). by destruct (last (l' :: ls)) eqn:El; [|apply last_None in El]. }
    cbn in H |- *. by rewrite H, Hl, map_get_set_eq, <- Hn.
  - rewrite (label_none x r Hr). destruct (IH (MkWorld p s, e)) as (s' & e' & E & H). by exists s', e'.
Qed.

(** Of the names that the recipients of a batch were given, the transaction's label keeps the last. *)
Theorem last_name_is_kept n o rs l x wl p s e : sending p !! n = Some (o, rs) → last (omap named rs) = Some l →
  let w := handle (Ends n (Ok x) wl) (MkWorld p s, e) in
  w.1 = Ok () ∧ l_note <$> map_get x (labels (services w.2.1)) = Some (Some ("Batch send to " +:+ l)).
Proof.
  intros Hn Hl. cbn [handle]. unfold batch_ends. rewrite run_get_page. cbn [page fst]. rewrite Hn, run_set_page. cbn [page services fst snd].
  destruct (recipient_labels_run x rs (MkWorld (set_sending (delete n (sending p)) p) s, e)) as (s' & e' & E & H). rewrite Hl in H.
  erewrite run_Ok; [|apply run_try_Ok; rewrite (run_Ok _ _ _ _ _ E), run_set_page; reflexivity]. split; [done|exact H].
Qed.

(** *** Examples *)

Definition demo_wallet : WalletInfo := Wallet.MkWalletInfo "KC1sender0" "Main" (of_Z 10) nzero None None 0 None None.
Definition run (evs : list event) : W := (js_forEach exec evs (MkWorld blank (fresh None None), demo_env)).2.1.
Definition demo_batch : list event :=
  [WalletLoaded (Some demo_wallet); Add; Change "1" f_address "KC1abcdef"; Change "1" f_amount "1.5"; Change "1" f_label "Ann";
   Change "2" f_address "KC1ghijkl"; Change "2" f_amount "2"; Change "2" f_label "Bob"; Preview].

Example demo_sent : let p := page (run (demo_batch ++ [Confirm; Confirm])) in
  (outputs ∘ fst <$> sending p, to_fixed 8 (totalAmount p), to_fixed 8 (estimatedFee p)) =
  ([[("KC1abcdef", lit 15 1); ("KC1ghijkl", of_Z 2)]], "3.50000000", "0.00000000").
Proof. vm_compute. reflexivity. Qed.

(** A row that is changed behind the confirmation is sent unchecked. *)
Example changed_row_is_sent :
  outputs ∘ fst <$> sending (page (run (demo_batch ++ [Change "2" f_address ""; Confirm]))) = [[("KC1abcdef", lit 15 1); ("", of_Z 2)]].
Proof. vm_compute. reflexivity. Qed.

Lemma last_name_is_kept_witness : let p := page (run (demo_batch ++ [Confirm])) in
  let w := handle (Ends 0 (Ok "aa") None) (MkWorld p (fresh None None), demo_env) in
  w.1 = Ok () ∧ l_note <$> map_get "aa" (labels (services w.2.1)) = Some (Some "Batch send to Bob").
Proof.
  intros p. refine (last_name_is_kept 0 (order demo_wallet p) (recipients p) "Bob" "aa" None p (fresh None None) demo_env _ _); vm_compute; reflexivity.
Defined.
End Batch.

(** ** The faucet *)

Module Faucet.

Record FaucetRequest := MkFaucetRequest {
  id : string; address : string; amount : num; status : string; txid : option string; timestamp : Z; message : string }.

(** Counts and seconds are integers. *)
Record FaucetInfo := MkInfo {
  available : bool; faucet_balance : num; maxAmount : num; cooldownSeconds : Z; requestsRemaining : Z; dailyLimit : Z }.

Definition no_info : FaucetInfo := MkInfo false nzero nzero 0 0 0.

(** [sending]: the requests under way; [asked]: all that were sent. *)
Record FaucetPage := MkFaucet {
  wallets : list string;
  selectedAddress : string;
  amount_text : string;
  loading : bool;
  error : option string;
  success : option string;
  faucetInfo : option FaucetInfo;
  requestHistory : list FaucetRequest;
  cooldownRemaining : Z;
  isTestnet : bool;
  sending : list (string * num);
  asked : list (string * num);
}.

Definition blank : FaucetPage := MkFaucet [] "" "1.0" false None None None [] 0 false [] [].

Definition set_wallets w a p := MkFaucet w a (amount_text p) (loading p) (error p) (success p) (faucetInfo p) (requestHistory p) (cooldownRemaining p) (isTestnet p) (sending p) (asked p).
Definition setAmount x p := MkFaucet (wallets p) (selectedAddress p) x (loading p) (error p) (success p) (faucetInfo p) (requestHistory p) (cooldownRemaining p) (isTestnet p) (sending p) (asked p).
Definition set_status l e s p := MkFaucet (wallets p) (selectedAddress p) (amount_text p) l e s (faucetInfo p) (requestHistory p) (cooldownRemaining p) (isTestnet p) (sending p) (asked p).
Definition set_info i t p := MkFaucet (wallets p) (selectedAddress p) (amount_text p) (loading p) (error p) (success p) i (requestHistory p) (cooldownRemaining p) t (sending p) (asked p).
Definition setRequestHistory x p := MkFaucet (wallets p) (selectedAddress p) (amount_text p) (loading p) (error p) (success p) (faucetInfo p) x (cooldownRemaining p) (isTestnet p) (sending p) (asked p).
Definition setCooldownRemaining x p := MkFaucet (wallets p) (selectedAddress p) (amount_text p) (loading p) (error p) (success p) (faucetInfo p) (requestHistory p) x (isTestnet p) (sending p) (asked p).
Definition set_sending x a p := MkFaucet (wallets p) (selectedAddress p) (amount_text p) (loading p) (error p) (success p) (faucetInfo p) (requestHistory p) (cooldownRemaining p) (isTestnet p) x a.

(** The key [kubercoin_faucet_history]. *)
Record History := MkHistory { ls_history : cell (list FaucetRequest) }.

Abbreviation W := (World FaucetPage History).
Abbreviation M := (js (W * Env)).

Definition safeFaucetInfo (p : FaucetPage) : FaucetInfo := default no_info (faucetInfo p).

Section Host.
(** Is [NEXT_PUBLIC_FAUCET_URL] set? *)
Context (faucetUrl : bool).

Definition loadWallets (all : list string) (active : option string) (p : FaucetPage) : FaucetPage :=
  match all with
  | a :: _ =>
      if str_eqb (selectedAddress p) "" then
        set_wallets all (match active with Some x => if str_eqb x "" then a else x | None => a end) p
      else set_wallets all (selectedAddress p) p
  | [] => set_wallets all (selectedAddress p) p
  end.

(** What [/info] gives: the information and whether it is of a test network, or a failure. *)
Definition info_arrives (r : result (FaucetInfo * bool)) (p : FaucetPage) : FaucetPage :=
  if faucetUrl then match r with Ok (i, t) => set_info (Some i) t p | Throw _ => set_info None false p end
  else set_info None false p.

(** [Math.ceil(x / 1000)] *)
Definition seconds_up (ms : Z) : Z := - ((- ms) / 1000).

(** [loadRequestHistory] of a rendering with the information [info]. *)
Definition loadRequestHistory (info : FaucetInfo) : M () :=
  js_try (
    s ← service this;
    match truthy_cell (ls_history s) with
    | None => mret ()
    | Some t =>
        history ← service (JSON_parse t);
        set_page (setRequestHistory history);;
        match history with
        | lastRequest :: _ =>
            if str_eqb (status lastRequest) "completed" then
              now ← service date_now;
              let elapsed := now - timestamp lastRequest in
              let cooldown := cooldownSeconds info * 1000 in
              js_when (elapsed <? cooldown) (set_page (setCooldownRemaining (seconds_up (cooldown - elapsed))))
            else mret ()
        | [] => mret ()
        end
    end) (λ _, mret ()).

Definition saveRequestHistory (history : list FaucetRequest) : M () :=
  js_try (
    let limited := take 20 history in
    service (ls_setItem (λ _, MkHistory (Some (TJson limited))));;
    set_page (setRequestHistory limited)) (λ _, mret ()).

(** The effects of the first rendering, whose information is not there yet. *)
Definition mount (all : list string) (active : option string) : M () :=
  set_page (loadWallets all active);; loadRequestHistory (safeFaucetInfo blank).

Definition validateRequest (p : FaucetPage) : option string :=
  let info := safeFaucetInfo p in
  let amountNum := parseFloat (amount_text p) in
  if str_eqb (selectedAddress p) "" then Some "Please select a wallet address"
  else if not_positive amountNum then Some "Please enter a valid amount"
  else if SFltb (maxAmount info) amountNum then Some ("Amount cannot exceed " +:+ num_to_string (maxAmount info) +:+ " KBC")
  else if negb (available info) then Some "Faucet is currently unavailable"
  else if requestsRemaining info <=? 0 then Some "Daily request limit reached. Please try again tomorrow."
  else if 0 <? cooldownRemaining p then
    Some ("Cooldown active. Please wait " +:+ pretty (cooldownRemaining p / 60) +:+ "m " +:+ pretty (cooldownRemaining p mod 60) +:+ "s")
  else if negb (isTestnet p) then Some "Faucet is only available on testnet"
  else None.

Definition handleRequestFunds (p : FaucetPage) : FaucetPage :=
  match validateRequest p with
  | Some e => set_status (loading p) (Some e) (success p) p
  | None =>
      let q := (selectedAddress p, parseFloat (amount_text p)) in
      if faucetUrl then set_sending (sending p ++ [q]) (asked p ++ [q]) (set_status true None None p)
      else set_status false (Some "Faucet API not configured") None p
  end.

(** [data.status || 'completed'], [data.txid], [data.message || ...] *)
Record Granted := MkGranted { g_status : option string; g_txid : option string; g_message : option string }.
Definition text_or (o : option string) (d : string) : string := match o with Some s => if str_eqb s "" then d else s | None => d end.

(** [err.message || fallback] *)
Definition failed (msg : string) (p : FaucetPage) : FaucetPage :=
  set_status false (Some (if str_eqb msg "" then "Failed to request funds from faucet" else msg)) (success p) p.

(** The [n]-th request ends; the page is the one that sent it, since its button and fields were disabled meanwhile. *)
Definition request_ends (n : nat) (r : result Granted) : M () :=
  p ← get_page;
  match sending p !! n with
  | None => mret ()
  | Some (a, amountNum) =>
      set_page (set_sending (delete n (sending p)) (asked p));;
      match r with
      | Throw msg => set_page (failed msg)
      | Ok g =>
          t1 ← service date_now;
          t2 ← service date_now;
          let q := MkFaucetRequest ("req_" +:+ pretty t1) a amountNum (text_or (g_status g) "completed") (g_txid g) t2 (text_or (g_message g) "Funds sent successfully") in
          saveRequestHistory (q :: requestHistory p);;
          let info := safeFaucetInfo p in
          set_page (λ p', if 0 <? dailyLimit info
            then set_info (Some (MkInfo (available info) (faucet_balance info) (maxAmount info) (cooldownSeconds info) (Z.max 0 (requestsRemaining info - 1)) (dailyLimit info))) (isTestnet p') p'
            else p');;
          set_page (setCooldownRemaining (cooldownSeconds info));;
          set_page (λ p, setAmount "1.0" (set_status false (error p)
            (Some ("Successfully requested " +:+ num_to_string amountNum +:+ " KBC! Transaction ID: " +:+ text_or (g_txid g) "pending")) p))
      end
  end.

Definition tick (p : FaucetPage) : FaucetPage :=
  if 0 <? cooldownRemaining p then setCooldownRemaining (if cooldownRemaining p <=? 1 then 0 else cooldownRemaining p - 1) p else p.

(** *** What is shown *)

Definition plural (n : Z) (u : string) : string := pretty n +:+ " " +:+ u +:+ (if 1 <? n then "s" else "") +:+ " ago".
Definition formatTimestamp (now timestamp : Z) : string :=
  let diff := now - timestamp in
  let minutes := diff / 60000 in let hours := diff / 3600000 in let days := diff / 86400000 in
  if minutes <? 1 then "Just now" else if minutes <? 60 then plural minutes "minute" else if hours <? 24 then plural hours "hour" else plural days "day".

Definition formatCooldown (seconds : Z) : string :=
  let hours := seconds / 3600 in let minutes := seconds mod 3600 / 60 in let secs := seconds mod 60 in
  if 0 <? hours then pretty hours +:+ "h " +:+ pretty minutes +:+ "m " +:+ pretty secs +:+ "s"
  else if 0 <? minutes then pretty minutes +:+ "m " +:+ pretty secs +:+ "s"
  else pretty secs +:+ "s".

(** *** Events *)

Inductive event :=
  | InfoArrives (r : result (FaucetInfo * bool)) | Reload (all : list string) (active : option string)
  | PickAddress (a : string) | TypeAmount (s : string) | Request | RequestEnds (n : nat) (r : result Granted) | Second.

Definition handle (ev : event) : M () :=
  match ev with
  | InfoArrives r => set_page (info_arrives r)
  | Reload all active => set_page (loadWallets all active)
  | PickAddress a => set_page (λ p, if loading p then p else set_wallets (wallets p) a p)
  | TypeAmount s => set_page (λ p, if loading p then p else setAmount s p)
  | Request => set_page (λ p, if loading p || (0 <? cooldownRemaining p) || negb (isTestnet p) || bool_decide (wallets p = []) then p else handleRequestFunds p)
  | RequestEnds n r => request_ends n r
  | Second => set_page tick
  end.

(** *** Theorems *)

Definition seconds (evs : list event) : Z := Z.of_nat (length (js_filter (λ ev, match ev with Second => true | _ => false end) evs)).

(** Until the seconds of its cooldown have passed, nothing that is done on a page asks for funds. *)
Theorem cooldown_holds evs p s e : sending p = [] → seconds evs < cooldownRemaining p →
  let w := js_forEach handle evs (MkWorld p s, e) in
  w.1 = Ok () ∧ asked (page w.2.1) = asked p ∧ cooldownRemaining p - seconds evs <= cooldownRemaining (page w.2.1).
Proof.
  revert p. induction evs as [|ev evs IH]; intros p Hs Hc; [split; [done|]; split; [done|]; unfold seconds; cbn; lia|]. cbn [js_forEach].
  assert (∀ f, (handle ev : M ()) (MkWorld p s, e) = (Ok (), (MkWorld (f p) s, e)) → sending (f p) = [] → asked (f p) = asked p →
    cooldownRemaining p - seconds [ev] <= cooldownRemaining (f p) →
    let w := (handle ev;; js_forEach handle evs) (MkWorld p s, e) in
    w.1 = Ok () ∧ asked (page w.2.1) = asked p ∧ cooldownRemaining p - seconds (ev :: evs) <= cooldownRemaining (page w.2.1)) as H.
  { intros f E Es Ea Ec. cbv zeta. rewrite (run_Ok _ _ _ _ _ E). assert (seconds (ev :: evs) = seconds [ev] + seconds evs) as Hsec by (unfold seconds, js_filter; change (ev :: evs) with ([ev] ++ evs); rewrite List.filter_app, length_app; lia).
    assert (seconds evs < cooldownRemaining (f p)) as Hlt by lia. destruct (IH (f p) Es Hlt) as (H1 & H2 & H3). split; [exact H1|]. split; [by rewrite H2|]. lia. }
  assert (0 < cooldownRemaining p) as Hpos by (assert (0 <= seconds (ev :: evs)) by (unfold seconds; lia); lia).
  destruct ev as [r|all act|a|x| |n r|].
  - apply (H (info_arrives r)); [done|..]; unfold info_arrives; destruct faucetUrl; destruct r as [[]|]; (done || (unfold seconds; cbn; lia)).
  - apply (H (loadWallets all act)); [done|..]; unfold loadWallets; repeat case_match; (done || (unfold seconds; cbn; lia)).
  - apply (H (λ p, if loading p then p else set_wallets (wallets p) a p)); [done|..]; destruct (loading p); (done || (unfold seconds; cbn; lia)).
  - apply (H (λ p, if loading p then p else setAmount x p)); [done|..]; destruct (loading p); (done || (unfold seconds; cbn; lia)).
  - apply (H (λ p, if loading p || (0 <? cooldownRemaining p) || negb (isTestnet p) || bool_decide (wallets p = []) then p else handleRequestFunds p)); [done|..];
      replace (0 <? cooldownRemaining p) with true by lia; rewrite orb_true_r; (done || (unfold seconds; cbn; lia)).
  - apply (H (λ p, p)); [cbn [handle]; unfold request_ends; rewrite run_get_page; cbn [page fst]; by rewrite Hs|done|done|unfold seconds; cbn; lia].
  - apply (H tick); [done|..]; unfold tick; replace (0 <? cooldownRemaining p) with true by lia; try done.
    destruct (cooldownRemaining p <=? 1) eqn:E; unfold seconds; cbn; lia.
Qed.

(** A page that is opened again has no cooldown, however short the time since the last request. *)
Theorem new_page_has_no_cooldown all active s e : match ls_history s with Some (TJson (q :: _)) => timestamp q <= reading e 0 | _ => True end →
  let w := mount all active (MkWorld blank s, e) in w.1 = Ok () ∧ cooldownRemaining (page w.2.1) = 0.
Proof.
  intros Ht. cbv zeta. unfold mount. rewrite run_set_page. cbn [page services fst snd].
  set (p := loadWallets all active blank). assert (cooldownRemaining p = 0) as Hp by (unfold p, loadWallets; by repeat case_match).
  unfold loadRequestHistory. destruct s as [[[l|t]|]]; cbn in Ht |- *.
  - destruct l as [|q l]; [done|]. unfold js_try. unfold service, this, mbind, js_bind. cbn. destruct (str_eqb (status q) "completed"); [|done]. cbn.
    assert ((clock e (ticks e) - timestamp q <? 0 * 1000) = false) as -> by (unfold reading in Ht; rewrite Nat.add_0_r in Ht; lia). done.
  - unfold js_try, service, this, mbind, js_bind. cbn. by destruct t.
  - done.
Qed.

(** The history is what the storage has, and not longer than twenty requests. *)
Theorem history_is_saved l p s e : writable e = true →
  let w := saveRequestHistory l (MkWorld p s, e) in
  w.1 = Ok () ∧ (length (requestHistory (page w.2.1)) <= 20)%nat ∧ ls_history (services w.2.1) = Some (TJson (requestHistory (page w.2.1))).
Proof.
  intros Hw. cbv zeta. unfold saveRequestHistory. cbv zeta.
  erewrite run_try_Ok; [|rewrite run_service_setItem; cbn [snd]; rewrite Hw; reflexivity]. cbn -[take]. rewrite length_take. split; [done|]. split; [lia|done].
Qed.
End Host.

(** *** Examples *)

Definition demo_info : FaucetInfo := MkInfo true (of_Z 1000) (of_Z 10) 3600 5 5.
Definition demo_world : W := MkWorld blank (MkHistory None).
Definition demo_asks : list event := [InfoArrives (Ok (demo_info, true)); TypeAmount "2"; Request; RequestEnds 0 (Ok (MkGranted None (Some "aa") None))].
Definition opened (evs : list event) (w : W * Env) : W * Env := ((mount ["kc1a"] None;; js_forEach (handle true) evs) w).2.

Example demo_asked : let w := opened (demo_asks ++ [Second; Request]) (demo_world, demo_env) in
  (asked (page w.1), cooldownRemaining (page w.1), requestsRemaining <$> faucetInfo (page w.1), success (page w.1)) =
  ([("kc1a", of_Z 2)], 3599, Some 4, Some "Successfully requested 2 KBC! Transaction ID: aa").
Proof. vm_compute. reflexivity. Qed.

(** Reloading the page is enough to ask again. *)
Example reload_skips_cooldown : let w := opened demo_asks (demo_world, demo_env) in
  asked (page (opened demo_asks (MkWorld blank (services w.1), w.2)).1) = [("kc1a", of_Z 2)].
Proof. vm_compute. reflexivity. Qed.

Lemma cooldown_holds_witness : let p := page (opened demo_asks (demo_world, demo_env)).1 in
  let w := js_forEach (handle true) [Second; Request; TypeAmount "3"; Request] (MkWorld p (MkHistory None), demo_env) in
  w.1 = Ok () ∧ asked (page w.2.1) = asked p ∧ cooldownRemaining p - seconds [Second; Request; TypeAmount "3"; Request] <= cooldownRemaining (page w.2.1).
Proof. apply (cooldown_holds true); [vm_compute; reflexivity|vm_compute; reflexivity]. Defined.
End Faucet.
