(* ===== verification/TechnicalAnalysis.v ===== *)
(** * [TechnicalAnalysis] (apps/web/wallet/src/services/technicalAnalysis.ts)

    Indicators over the price history of [TradingEngine]. The object has no state. [Math.pow] is
    a parameter, since the language leaves its rounding open. *)

From Stdlib Require Import Ascii String.
From S2P Require Import Prelude JsMap JsNumber JsString FloatFacts TradingEngine.

Definition sum (l : list num) : num := sum_by id l.

Definition getHistory (s : Engine) (p : string) (lim : Z) : list Candle := getPriceHistory p lim s.
Definition getCloses (s : Engine) (p : string) (lim : Z) : list num := close <$> getHistory s p lim.

Definition shorter {A} (l : list A) (n : Z) : bool := Z.of_nat (length l) <? n.

(** [slice(-n)] for any integer. *)
Definition slice_from_end {A} (n : Z) (l : list A) : list A :=
  if 0 <? n then slice_last (Z.to_nat n) l else drop (Z.to_nat (- n)) l.

(** Gains and losses between neighbours, added up. *)
Fixpoint rsi_loop (closes : list num) (gains losses : num) : num * num :=
  match closes with
  | prev :: ((cur :: _) as rest) =>
      let diff := nsub cur prev in
      if SFleb nzero diff then rsi_loop rest (nadd gains diff) losses
      else rsi_loop rest gains (nadd losses (nabs diff))
  | _ => (gains, losses)
  end.

Definition calculateRSI (s : Engine) (p : string) (period : Z) : num :=
  let closes := getCloses s p (period + 1) in
  if shorter closes (period + 1) then nzero
  else
    let '(gains, losses) := rsi_loop closes nzero nzero in
    if SFeqb losses nzero then of_Z 100
    else
      let rs := ndiv gains losses in
      nsub (of_Z 100) (ndiv (of_Z 100) (nadd (of_Z 1) rs)).

Definition calculateEMAFromSeries (values : list num) (period : Z) : num :=
  match values with
  | [] => nzero
  | v :: rest =>
      let k := ndiv (of_Z 2) (of_Z (period + 1)) in
      foldl (λ ema x, nadd (nmul x k) (nmul ema (nsub (of_Z 1) k))) v rest
  end.

Record MACD := MkMACD { macd : num; macd_signal : num; histogram : num }.

Definition calculateMACD (s : Engine) (p : string) : MACD :=
  let closes := getCloses s p 60 in
  if shorter closes 26 then MkMACD nzero nzero nzero
  else
    let ema12 := calculateEMAFromSeries closes 12 in
    let ema26 := calculateEMAFromSeries closes 26 in
    let m := nsub ema12 ema26 in
    let sg := calculateEMAFromSeries [m] 9 in
    MkMACD m sg (nsub m sg).

Definition calculateMovingAverage (s : Engine) (p : string) (period : Z) : num :=
  let closes := getCloses s p period in
  if shorter closes period then nzero else ndiv (sum closes) (of_Z period).

Definition calculateEMA (s : Engine) (p : string) (period : Z) : num :=
  let closes := getCloses s p (period * 2) in
  if shorter closes period then nzero else calculateEMAFromSeries closes period.

Record Bands := MkBands { upper : num; middle : num; lower : num; width : num }.

Definition calculateBollingerBands (Math_pow : num → num → num) (s : Engine) (p : string) (period : Z) (stdDev : num) : Bands :=
  let closes := getCloses s p period in
  if shorter closes period then MkBands nzero nzero nzero nzero
  else
    let mean := ndiv (sum closes) (of_Z period) in
    let variance := ndiv (sum_by (λ v, Math_pow (nsub v mean) (of_Z 2)) closes) (of_Z period) in
    let deviation := nsqrt variance in
    let up := nadd mean (nmul deviation stdDev) in
    let low := nsub mean (nmul deviation stdDev) in
    MkBands up mean low (nsub up low).

(** [Math.max(...l)] and [Math.min(...l)] *)
Definition Math_max (l : list num) : num := foldl nmax (S754_infinity true) l.
Definition Math_min (l : list num) : num := foldl nmin (S754_infinity false) l.

(** An empty window has no last candle: a TypeError. *)
Definition calculateStochastic (s : Engine) (p : string) (kPeriod dPeriod : Z) : result (num * num) :=
  let hist := getHistory s p (kPeriod + dPeriod) in
  if shorter hist kPeriod then Ok (nzero, nzero)
  else
    let window := slice_from_end kPeriod hist in
    let highestHigh := Math_max (high <$> window) in
    let lowestLow := Math_min (low <$> window) in
    match last window with
    | None => Throw "Cannot read properties of undefined (reading 'close')"
    | Some c =>
        let k := if SFeqb highestHigh lowestLow then nzero
                 else nmul (ndiv (nsub (close c) lowestLow) (nsub highestHigh lowestLow)) (of_Z 100) in
        let recentK := (λ _, k) <$> slice_from_end dPeriod hist in
        Ok (k, ndiv (sum recentK) (of_Z (Z.of_nat (length recentK))))
    end.

(** Both branches of the source return 0. *)
Definition calculateADX (s : Engine) (p : string) (period : Z) : num :=
  let hist := getHistory s p (period + 1) in
  if shorter hist (period + 1) then nzero else nzero.

Record Levels := MkLevels {
  level0 : num; level236 : num; level382 : num; level500 : num; level618 : num; level786 : num; level1000 : num;
}.

Definition calculateFibonacciRetracement (hi lo : num) : Levels :=
  let diff := nsub hi lo in
  let at_ m := nsub hi (nmul diff (lit m 3)) in
  MkLevels hi (at_ 236) (at_ 382) (at_ 500) (at_ 618) (at_ 786) lo.

Record Pivots := MkPivots { pivot : num; r1 : num; r2 : num; r3 : num; s1 : num; s2 : num; s3 : num }.

Definition calculatePivotPoints (hi lo cl : num) : Pivots :=
  let pv := ndiv (nadd (nadd hi lo) cl) (of_Z 3) in
  MkPivots pv
    (nsub (nmul (of_Z 2) pv) lo) (nadd pv (nsub hi lo)) (nadd hi (nmul (of_Z 2) (nsub pv lo)))
    (nsub (nmul (of_Z 2) pv) hi) (nsub pv (nsub hi lo)) (nsub lo (nmul (of_Z 2) (nsub hi pv))).

Definition true_range (prev current : Candle) : num :=
  Math_max [nsub (high current) (low current); nabs (nsub (high current) (close prev)); nabs (nsub (low current) (close prev))].

Fixpoint atr_loop (hist : list Candle) (total : num) : num :=
  match hist with
  | prev :: ((cur :: _) as rest) => atr_loop rest (nadd total (true_range prev cur))
  | _ => total
  end.

Definition calculateATR (s : Engine) (p : string) (period : Z) : num :=
  let hist := getHistory s p (period + 1) in
  if shorter hist (period + 1) then nzero else ndiv (atr_loop hist nzero) (of_Z period).

Definition calculateVWAP (s : Engine) (p : string) : num :=
  let hist := getHistory s p 50 in
  if (length hist =? 0)%nat then nzero
  else
    let cumulativePV := sum_by (λ c, nmul (close c) (volume c)) hist in
    let cumulativeVolume := sum_by volume hist in
    if SFeqb cumulativeVolume nzero then nzero else ndiv cumulativePV cumulativeVolume.

(** ** The trading signal *)

Inductive Advice := Buy | Sell | Neutral.
#[export] Instance Advice_eq_dec : EqDecision Advice.
Proof. solve_decision. Defined.
Inductive Signal := strong_buy | signal_buy | neutral | signal_sell | strong_sell.

Record Indicator := MkIndicator { name : string; value : string; ind_signal : Advice }.
Record TradingSignal := MkSignal { signal : Signal; score : num; indicators : list Indicator }.

Definition indicators_of (s : Engine) (p : string) : list Indicator :=
  let rsi := calculateRSI s p 14 in
  let m := calculateMACD s p in
  let currentPrice := getCurrentPrice p s in
  let ma50 := calculateMovingAverage s p 50 in
  let ma200 := calculateMovingAverage s p 200 in
  [MkIndicator "RSI" (to_fixed 2 rsi)
     (if SFltb rsi (of_Z 30) then Buy else if SFltb (of_Z 70) rsi then Sell else Neutral);
   MkIndicator "MACD" (to_fixed 2 (macd m)) (if SFltb (macd_signal m) (macd m) then Buy else Sell);
   MkIndicator "MA 50/200" (to_fixed 0 ma50 +:+ "/" +:+ to_fixed 0 ma200) (if SFltb ma200 ma50 then Buy else Sell);
   MkIndicator "Price vs MA50" (to_fixed 2 (nmul (nsub (ndiv currentPrice ma50) (of_Z 1)) (of_Z 100)) +:+ "%")
     (if SFltb ma50 currentPrice then Buy else Sell)].

Definition points (a : Advice) : Z := match a with Buy => 1 | Sell => -1 | Neutral => 0 end.

Definition score_of (l : list Indicator) : Z := foldl (λ z i, z + points (ind_signal i)) 0 l.

Definition signal_of (normalizedScore : num) : Signal :=
  if SFleb (of_Z 60) normalizedScore then strong_buy
  else if SFleb (of_Z 20) normalizedScore then signal_buy
  else if SFleb normalizedScore (of_Z (-60)) then strong_sell
  else if SFleb normalizedScore (of_Z (-20)) then signal_sell
  else neutral.

Definition getTradingSignal (s : Engine) (p : string) : TradingSignal :=
  let l := indicators_of s p in
  let normalizedScore := nmul (ndiv (of_Z (score_of l)) (of_Z (Z.of_nat (length l)))) (of_Z 100) in
  MkSignal (signal_of normalizedScore) normalizedScore l.

(** [backtestStrategy] returns zeros: trades, win rate, profit, Sharpe ratio, drawdown. *)
Definition backtestStrategy : list num := [nzero; nzero; nzero; nzero; nzero].

(** * Theorems *)

Lemma nltb_irrefl x : SFltb x x = false.
Proof. destruct (SFltb x x) eqn:E; [|done]. pose proof (nltb_asym x x E). congruence. Qed.

(** The signal line averages a series of one value: it is the MACD itself. *)
Lemma macd_is_its_signal s p : macd_signal (calculateMACD s p) = macd (calculateMACD s p).
Proof. unfold calculateMACD. by case_match. Qed.

(** The indicator computed from the MACD always says Sell. *)
Lemma macd_always_sells s p : SFltb (macd_signal (calculateMACD s p)) (macd (calculateMACD s p)) = false.
Proof. rewrite macd_is_its_signal. apply nltb_irrefl. Qed.

(** The score of four indicators, and the signal for it. *)
Lemma signal_by_score z : -4 <= z <= 4 → let x := signal_of (nmul (ndiv (of_Z z) (of_Z 4)) (of_Z 100)) in
  x = if 3 <=? z then strong_buy else if 1 <=? z then signal_buy else if z <=? -3 then strong_sell else if z <=? -1 then signal_sell else neutral.
Proof.
  intros Hz. assert (z = -4 ∨ z = -3 ∨ z = -2 ∨ z = -1 ∨ z = 0 ∨ z = 1 ∨ z = 2 ∨ z = 3 ∨ z = 4) as Hcases by lia.
  repeat destruct Hcases as [->|Hcases]; subst; vm_compute; reflexivity.
Qed.

(** C30: Whatever the market data, the MACD says Sell, since it is compared with an average of itself, and the signal is
    never a strong buy. It is a buy exactly when both comparisons with the moving averages say Buy and the RSI does not say
    Sell, and a strong sell exactly when both say Sell and the RSI does not say Buy. *)
Theorem never_strong_buy s p : let r := getTradingSignal s p in
  ∃ rsi macd ma price, indicators r = [rsi; macd; ma; price] ∧
  name <$> indicators r = ["RSI"; "MACD"; "MA 50/200"; "Price vs MA50"] ∧
  ind_signal macd = Sell ∧ signal r ≠ strong_buy ∧
  (signal r = signal_buy ↔ ind_signal ma = Buy ∧ ind_signal price = Buy ∧ ind_signal rsi ≠ Sell) ∧
  (signal r = strong_sell ↔ ind_signal ma = Sell ∧ ind_signal price = Sell ∧ ind_signal rsi ≠ Buy).
Proof.
  cbv zeta. unfold getTradingSignal. cbn [signal indicators]. eexists _, _, _, _. split; [reflexivity|]. split; [reflexivity|].
  unfold indicators_of. cbn [length ind_signal]. unfold score_of. cbn [foldl ind_signal]. rewrite (macd_always_sells s p). split; [done|].
  change (Z.of_nat 4) with 4. repeat case_match; cbn [points]; rewrite signal_by_score by lia; cbn; naive_solver.
Qed.

(** without market data the advice is to sell. *)
Theorem no_data_sells s p : map_get p (priceHistory s) = None → map_get p (priceCache s) = None →
  signal (getTradingSignal s p) = signal_sell.
Proof.
  intros Hh Hc. unfold getTradingSignal, indicators_of, calculateRSI, calculateMACD, calculateMovingAverage,
    getCloses, getHistory, getPriceHistory, getCurrentPrice. rewrite Hh, Hc. by vm_compute.
Qed.

Lemma no_data_sells_witness : signal (getTradingSignal fresh "KC/USD") = signal_sell.
Proof. exact (no_data_sells fresh "KC/USD" eq_refl eq_refl). Defined.

(** Prices that do not fall. *)
Fixpoint rising (l : list num) : Prop :=
  match l with
  | a :: ((b :: _) as rest) => SFleb a b = true ∧ rising rest
  | _ => True
  end.

Lemma rise_not_negative a b : valid a = true → is_finite a = true → valid b = true → is_finite b = true →
  SFleb a b = true → SFleb nzero (nsub b a) = true.
Proof.
  intros Va Fa Vb Fb. unfold SFleb. rewrite (SFcompare_sym (nsub b a) nzero), nsub_sign by done.
  rewrite (SFcompare_sym a b). by destruct (SFcompare a b) as [[]|].
Qed.

Lemma rising_no_losses l gains losses : rising l →
  Forall (λ x, valid x = true ∧ is_finite x = true) l → (rsi_loop l gains losses).2 = losses.
Proof.
  revert gains losses. induction l as [|a [|b l] IH]; [done|done|]. intros gains losses [Hle Hr] Hall.
  inversion_clear Hall as [|?? [Ha Fa] Hall']. assert (Hb := Hall'). inversion_clear Hb as [|?? [Vb Fb] _].
  cbn [rsi_loop]. rewrite rise_not_negative by done. by apply IH.
Qed.

(** prices that never fall, constant ones included, have the index 100. *)
Theorem rising_prices_overbought s p period : 0 <= period → (Z.to_nat period < length (getCloses s p (period + 1)))%nat →
  rising (getCloses s p (period + 1)) →
  Forall (λ x, valid x = true ∧ is_finite x = true) (getCloses s p (period + 1)) →
  calculateRSI s p period = of_Z 100.
Proof.
  intros Hp Hlen Hr Hv. unfold calculateRSI, shorter.
  rewrite (proj2 (Z.ltb_ge _ _)) by lia.
  pose proof (rising_no_losses _ nzero nzero Hr Hv) as Hl. destruct (rsi_loop _ _ _) as [g l]. cbn in Hl. by subst l.
Qed.

Definition flat_market : Engine :=
  let c := MkCandle 0 (of_Z 2) (of_Z 2) (of_Z 2) (of_Z 2) (of_Z 1) in
  MkEngine [] [] [] [] [] [] [("KC/USD", repeat c 20)].

Lemma rising_prices_overbought_witness : calculateRSI flat_market "KC/USD" 14 = of_Z 100.
Proof.
  apply (rising_prices_overbought flat_market "KC/USD" 14); [lia|vm_compute; lia|vm_compute; tauto|].
  repeat (constructor; [by split|]). constructor.
Defined.
