(* ===== verification/PortfolioAnalysis.v ===== *)
(** * [PortfolioAnalysis] (apps/web/wallet/src/services/portfolioAnalysis.ts)

    Allocation, diversification, rebalancing and risk figures of the active wallet of [Wallet]
    at the price of [PriceService]. The object has no state of its own. [Math.pow] is a
    parameter, since the language leaves its rounding open. *)

From Stdlib Require Import Ascii String.
From S2P Require Import Prelude JsMap JsNumber JsString FloatFacts Json Wallet PriceService.

Record Services := MkServices { walletService : WalletService; priceService : PriceService }.

Abbreviation M := (js (Services * Env)).

(** Calls into the two services. *)
Definition in_wallet {A} (m : js (WalletService * Env) A) : M A := λ w,
  let '(r, (s, e)) := m (walletService w.1, w.2) in (r, (MkServices s (priceService w.1), e)).
Definition in_price {A} (m : js (PriceService * Env) A) : M A := λ w,
  let '(r, (s, e)) := m (priceService w.1, w.2) in (r, (MkServices (walletService w.1) s, e)).

Record AssetAllocation := MkAllocation { asset : string; a_amount : num; a_value : num; percentage : num }.

Definition current_price : M num :=
  priceData ← in_price PriceService.getCurrentPrice; mret (num_or (price <$> priceData) nzero).

Definition getAssetAllocation : M (list AssetAllocation) :=
  js_try (
    wallet ← in_wallet getActiveWallet;
    match wallet with
    | None => mret []
    | Some w =>
        p ← current_price;
        mret [MkAllocation "KC" (balance w) (nmul (balance w) p) (of_Z 100)]
    end) (λ _, mret []).

(** ** Diversification *)

Record DiversificationScore := MkDiversification {
  d_score : num;
  d_rating : string;
  numAssets : Z;
  concentrationRisk : num;
  d_recommendations : list string;
}.

Definition count_of {A} (l : list A) : Z := Z.of_nat (length l).

(** [allocation.reduce((max, asset) => ...)] of a list that is not empty. *)
Definition topAsset (a : AssetAllocation) (l : list AssetAllocation) : AssetAllocation :=
  foldl (λ mx x, if SFltb (percentage mx) (percentage x) then x else mx) a l.

Definition diversification_rating (finalScore : num) : string :=
  if SFleb (of_Z 80) finalScore then "Excellent"
  else if SFleb (of_Z 60) finalScore then "Good"
  else if SFleb (of_Z 40) finalScore then "Fair"
  else "Poor".

Definition diversification_advice (allocation : list AssetAllocation) (risk : num) : list string :=
  let l1 := if count_of allocation =? 1 then
      ["Consider diversifying into other cryptocurrencies (BTC, ETH)";
       "Single-asset portfolios carry the highest risk"] else [] in
  let l2 := if SFltb (lit 5 1) risk then
      match allocation with
      | [] => []
      | a :: l =>
          let top := topAsset a l in
          [asset top +:+ " represents " +:+ to_fixed 1 (percentage top) +:+ "% of your portfolio - consider rebalancing"]
      end else [] in
  let l3 := if count_of allocation <? 5 then ["Aim for at least 5 different assets for better diversification"] else [] in
  let recommendations := l1 ++ l2 ++ l3 in
  match recommendations with [] => ["Your portfolio is well diversified"] | _ => recommendations end.

Definition diversification_of (allocation : list AssetAllocation) : DiversificationScore :=
  match allocation with
  | [] => MkDiversification nzero "Poor" 0 (of_Z 1) ["Add assets to your portfolio to begin diversification"]
  | _ =>
      let hhi := sum_by (λ a, let weight := ndiv (percentage a) (of_Z 100) in nmul weight weight) allocation in
      let risk := nmin hhi (of_Z 1) in
      let baseScore := nmul (nsub (of_Z 1) risk) (of_Z 100) in
      let assetCountBonus := nmin (of_Z (count_of allocation * 5)) (of_Z 20) in
      let finalScore := nmin (nadd baseScore assetCountBonus) (of_Z 100) in
      MkDiversification (nround finalScore) (diversification_rating finalScore) (count_of allocation) risk
        (diversification_advice allocation risk)
  end.

Definition getDiversificationScore : M DiversificationScore :=
  allocation ← getAssetAllocation; mret (diversification_of allocation).

(** ** Rebalancing: objects are iterated in property order *)

Inductive Action := buy | sell.
Record RebalanceSuggestion := MkSuggestion {
  s_asset : string;
  action : Action;
  s_amount : num;
  currentPercentage : num;
  targetPercentage : num;
  valueUSD : num;
}.

Definition normalized (targetAllocation : jsmap num) : jsmap num :=
  let entries := object_order targetAllocation in
  let totalTarget := sum_by snd entries in
  foldl (λ m kv, map_set kv.1 (nmul (ndiv kv.2 totalTarget) (of_Z 100)) m) [] entries.

Definition getAssetPrice (a : string) : M num := if str_eqb a "KC" then current_price else mret nzero.

Definition suggest (currentAllocation : list AssetAllocation) (totalValue : num) (kv : string * num)
    : M (list RebalanceSuggestion) :=
  let current := js_find (λ a, str_eqb (asset a) kv.1) currentAllocation in
  let cp := num_or (percentage <$> current) nzero in
  let currentValue := num_or (a_value <$> current) nzero in
  let targetValue := nmul (ndiv kv.2 (of_Z 100)) totalValue in
  let difference := nsub targetValue currentValue in
  if SFltb (nmul totalValue (lit 5 2)) (nabs difference) || SFltb (of_Z 100) (nabs difference) then
    p ← getAssetPrice kv.1;
    mret [MkSuggestion kv.1 (if SFltb nzero difference then buy else sell) (nabs (ndiv difference p)) cp kv.2 (nabs difference)]
  else mret [].

Definition getRebalanceSuggestions (targetAllocation : jsmap num) : M (list RebalanceSuggestion) :=
  currentAllocation ← getAssetAllocation;
  let totalValue := sum_by a_value currentAllocation in
  l ← js_mapM (suggest currentAllocation totalValue) (object_order (normalized targetAllocation));
  mret (concat l).

Record Pending := MkPending { t_asset : string; t_action : Action; t_amount : num; t_status : string; t_timestamp : Z }.

Definition executeRebalance (targetAllocation : jsmap num) : M (list Pending) :=
  suggestions ← getRebalanceSuggestions targetAllocation;
  js_mapM (λ s, t ← date_now; mret (MkPending (s_asset s) (action s) (s_amount s) "pending" t)) suggestions.

(** ** Risk *)

Inductive RiskLevel := Low | Medium | High | VeryHigh.
Record RiskMetrics := MkRisk {
  volatility : num;
  sharpeRatio : num;
  maxDrawdown : num;
  beta : num;
  valueAtRisk : num;
  riskLevel : RiskLevel;
  riskDescription : string;
  recommendations : list string;
}.

Fixpoint returns_of (prices : list num) : list num :=
  match prices with
  | prev :: ((cur :: _) as rest) => ndiv (nsub cur prev) prev :: returns_of rest
  | _ => []
  end.

(** The running peak and the largest fall from it. *)
Definition drawdown_step (acc : num * num) (p : num) : num * num :=
  let peak := if SFltb acc.1 p then p else acc.1 in
  let drawdown := ndiv (nsub peak p) peak in
  (peak, if SFltb acc.2 drawdown then drawdown else acc.2).
Definition max_drawdown (first : num) (prices : list num) : num := (foldl drawdown_step (first, nzero) prices).2.

(** An array index that is a number; what is not an index gives undefined, NaN in arithmetic. *)
Definition at_index (l : list num) (i : num) : num :=
  match i with
  | S754_zero _ => default S754_nan (l !! 0%nat)
  | S754_finite false m e => default S754_nan (l !! Z.to_nat (floor_Z false m e))
  | _ => S754_nan
  end.

Definition level_of (v : num) : RiskLevel * string * list string :=
  if SFltb v (lit 2 2) then
    (Low, "Your portfolio has low volatility and stable returns",
     ["Consider adding higher-return assets for potential growth"])
  else if SFltb v (lit 5 2) then
    (Medium, "Your portfolio has moderate volatility with balanced risk/reward",
     ["Maintain current diversification strategy"])
  else if SFltb v (lit 10 2) then
    (High, "Your portfolio experiences significant price swings",
     ["Consider reducing exposure to volatile assets"; "Implement stop-loss strategies"])
  else
    (VeryHigh, "Your portfolio is highly volatile with extreme price movements",
     ["Urgently consider diversifying into stable assets"; "Review your risk tolerance";
      "Implement strict risk management rules"]).

Definition risk_advice (sharpe drawdown : num) : list string :=
  (if SFltb sharpe nzero then ["Negative risk-adjusted returns - consider rebalancing"]
   else if SFltb (of_Z 2) sharpe then ["Excellent risk-adjusted returns - maintain strategy"] else []) ++
  (if SFltb (lit 3 1) drawdown
   then ["Maximum drawdown of " +:+ to_fixed 1 (nmul drawdown (of_Z 100)) +:+ "% is high - implement drawdown limits"] else []).

Section Pow.
Context (Math_pow : num → num → num).

Definition calculateRiskMetrics : M RiskMetrics :=
  priceHistory ← in_price (PriceService.getPriceHistory (of_Z 30));
  match h_price <$> priceHistory with
  | first :: ((_ :: _) as rest) =>
      let returns := returns_of (first :: rest) in
      let n := of_Z (count_of returns) in
      let avgReturn := ndiv (sum_by (λ r, r) returns) n in
      let variance := ndiv (sum_by (λ r, Math_pow (nsub r avgReturn) (of_Z 2)) returns) n in
      let vol := nsqrt variance in
      let riskFreeRate := ndiv (lit 2 2) (of_Z 365) in
      let excessReturn := nsub avgReturn riskFreeRate in
      let sharpe := if SFltb nzero vol then ndiv excessReturn vol else nzero in
      let drawdown := max_drawdown first (first :: rest) in
      let b := nadd (of_Z 1) (nsub vol (lit 2 2)) in
      let sortedReturns := js_sort (λ x y, SFltb nzero (nsub x y)) returns in
      let var95 := at_index sortedReturns (nfloor (nmul n (lit 5 2))) in
      allocation ← getAssetAllocation;
      let currentValue := sum_by a_value allocation in
      let '(lvl, descr, advice) := level_of vol in
      mret (MkRisk vol sharpe drawdown b (nabs (nmul var95 currentValue)) lvl descr (advice ++ risk_advice sharpe drawdown))
  | _ =>
      mret (MkRisk nzero nzero nzero (of_Z 1) nzero Low "Insufficient data to calculate risk metrics"
        ["More price history needed for accurate risk assessment"])
  end.
End Pow.

(** ** Correlations and presets *)

Definition matrix_of (assets : list string) : list (list num) :=
  imap (λ i _, imap (λ j _, if (i =? j)%nat then of_Z 1 else nzero) assets) assets.

Definition getCorrelationMatrix : M (list string * list (list num)) :=
  allocation ← getAssetAllocation;
  let assets := asset <$> allocation in
  mret (assets, matrix_of assets).

(** [compareToMarket] returns zeros: the two returns, alpha and the correlation. *)
Definition compareToMarket (marketTicker : string) : list num := [nzero; nzero; nzero; nzero].

Inductive RiskProfile := conservative | moderate | aggressive.
Definition calculateTargetAllocation (riskProfile : RiskProfile) : jsmap num :=
  match riskProfile with
  | conservative => [("KC", of_Z 40); ("BTC", of_Z 35); ("ETH", of_Z 20); ("OTHER", of_Z 5)]
  | moderate => [("KC", of_Z 50); ("BTC", of_Z 25); ("ETH", of_Z 20); ("OTHER", of_Z 5)]
  | aggressive => [("KC", of_Z 60); ("BTC", of_Z 20); ("ETH", of_Z 15); ("OTHER", of_Z 5)]
  end.

(** * Theorems *)

(** The allocation is empty or the one asset, and asking for it never fails. *)
Lemma allocation_shape w : ∃ w', getAssetAllocation w = (Ok [], w') ∨
  ∃ amt v, getAssetAllocation w = (Ok [MkAllocation "KC" amt v (of_Z 100)], w').
Proof.
  unfold getAssetAllocation, js_try.
  destruct (in_wallet getActiveWallet w) as [[[wl|]|msg] w1] eqn:E.
  - erewrite run_Ok by exact E. destruct (current_price w1) as [[p|msg] w2] eqn:E2.
    + erewrite run_Ok by exact E2. js_run. eauto.
    + erewrite run_Throw by exact E2. js_run. eauto.
  - erewrite run_Ok by exact E. js_run. eauto.
  - erewrite run_Throw by exact E. js_run. eauto.
Qed.

(** the score of a portfolio depends on nothing in it: without a wallet it is 0, and with one
    it is 5, poor, at full concentration. *)
Theorem diversification_is_constant w : ∃ d w', getDiversificationScore w = (Ok d, w') ∧
  (d = diversification_of [] ∨
   d_score d = of_Z 5 ∧ d_rating d = "Poor" ∧ numAssets d = 1 ∧ concentrationRisk d = of_Z 1).
Proof.
  destruct (allocation_shape w) as (w' & [E|(amt & v & E)]);
    unfold getDiversificationScore; erewrite run_Ok by exact E; js_run; eexists _, _; (split; [reflexivity|]).
  - by left.
  - right. by vm_compute.
Qed.

Lemma mapM_elements {A B} (f : A → M B) l w ys w' : js_mapM f l w = (Ok ys, w') →
  ∀ y, y ∈ ys → ∃ x w1 w2, x ∈ l ∧ f x w1 = (Ok y, w2).
Proof.
  revert w ys. induction l as [|x l IH]; intros w ys; cbn [js_mapM].
  { intros [<- _]%run_ret_inv y Hy. by apply not_elem_of_nil in Hy. }
  intros (z & w1 & E1 & (zs & w2 & E2 & [<- ->]%run_ret_inv)%run_bind_inv)%run_bind_inv y [->|Hy]%elem_of_cons.
  - exists x, w, w1. split; [left|done].
  - destruct (IH _ _ E2 y Hy) as (x' & w3 & w4 & Hx & E). exists x', w3, w4. split; [by right|done].
Qed.

Lemma quotient_by_zero x : is_finite (nabs (ndiv x nzero)) = false.
Proof. by destruct x. Qed.

Lemma suggest_other ca tv kv w l w' s : suggest ca tv kv w = (Ok l, w') → s ∈ l → s_asset s ≠ "KC" →
  is_finite (s_amount s) = false.
Proof.
  unfold suggest, getAssetPrice. cbv zeta. destruct (_ || _).
  - destruct (str_eqb kv.1 "KC") eqn:E.
    + intros (p & w1 & _ & [<- _]%run_ret_inv)%run_bind_inv ->%list_elem_of_singleton. apply str_eqb_true in E. done.
    + js_run. intros [= <- _] ->%list_elem_of_singleton _. apply quotient_by_zero.
  - intros [<- _]%run_ret_inv Hs. by apply not_elem_of_nil in Hs.
Qed.

(** the amount to trade that is suggested for any asset but KC is not a finite number: the
    price of such an asset is always 0. *)
Theorem suggested_amounts_infinite target w l w' s : getRebalanceSuggestions target w = (Ok l, w') →
  s ∈ l → s_asset s ≠ "KC" → is_finite (s_amount s) = false.
Proof.
  unfold getRebalanceSuggestions. intros (ca & w1 & _ & (ls & w2 & E & [<- _]%run_ret_inv)%run_bind_inv)%run_bind_inv.
  rewrite list_elem_of_In, in_concat. intros (x & Hx%list_elem_of_In & Hs%list_elem_of_In) Hne.
  destruct (mapM_elements _ _ _ _ _ E x Hx) as (kv & w3 & w4 & _ & Ex). by eapply suggest_other.
Qed.

Definition demo_services : Services :=
  MkServices (Wallet.MkService [("kc1a", MkWalletInfo "kc1a" "" (of_Z 10) nzero None None 1 None None)] (Some "kc1a") no_snapshot None None)
    (set_price (MkPrice (JNull) (of_Z 2) nzero nzero nzero nzero nzero (JNull)) (PriceService.fresh None None)).
Definition offline : Env := MkEnv (λ _, 1700000000000) (λ _, "r") 0 0 0 false true.

Lemma suggested_amounts_infinite_witness : ∃ l w', 
  getRebalanceSuggestions (calculateTargetAllocation moderate) (demo_services, offline) = (Ok l, w') ∧
  ∃ s, s ∈ l ∧ s_asset s = "BTC" ∧ is_finite (s_amount s) = false.
Proof.
  assert (match (getRebalanceSuggestions (calculateTargetAllocation moderate) (demo_services, offline)).1 with
          | Ok l => existsb (λ s, str_eqb (s_asset s) "BTC") l = true | _ => False end) as H by by vm_compute.
  destruct (getRebalanceSuggestions _ _) as [[l|msg] w'] eqn:Er; [|destruct H]. exists l, w'. split; [reflexivity|].
  cbn [fst] in H. apply existsb_exists in H as (s & Hs%list_elem_of_In & Hb%str_eqb_true).
  exists s. split; [exact Hs|]. split; [exact Hb|].
  apply (suggested_amounts_infinite _ _ _ _ s Er Hs). rewrite Hb; discriminate.
Defined.

(** ** Drawdown *)

Definition price_ok (p : num) : Prop := valid p = true ∧ is_finite p = true ∧ SFltb nzero p = true.

Fixpoint rising (l : list num) : Prop :=
  match l with
  | a :: ((b :: _) as rest) => SFleb a b = true ∧ rising rest
  | _ => True
  end.

Lemma zero_over p s : SFltb nzero p = true → is_finite p = true → ∃ s', ndiv (S754_zero s) p = S754_zero s'.
Proof. destruct p as [| | |[] m e]; try done; eauto. Qed.

Lemma step_rising q p : price_ok q → price_ok p → SFleb q p = true →
  ∃ q', drawdown_step (q, nzero) p = (q', nzero) ∧ price_ok q' ∧ SFleb q' p = true ∧ SFleb p q' = true.
Proof.
  intros (Vq & Fq & Pq) (Vp & Fp & Pp) Hle. unfold drawdown_step. cbn [fst snd].
  assert (∀ x, valid x = true → is_finite x = true → SFltb nzero x = true → SFcompare x p = Some Eq →
    SFltb nzero (ndiv (nsub x p) x) = false) as Hz.
  { intros x Vx Fx Px Hc. pose proof (nsub_sign x p Vx Vp Fx Fp) as Hn. rewrite Hc in Hn.
    assert (∃ s, nsub x p = S754_zero s) as [s ->] by (destruct (nsub x p) as [s|[]| |[] m e]; try discriminate Hn; eauto).
    by destruct (zero_over x s Px Fx) as [s' ->]. }
  assert (SFcompare p p = Some Eq) as Hpp.
  { pose proof (nsub_sign p p Vp Vp Fp Fp) as Hn. by rewrite nsub_self_finite in Hn. }
  unfold SFltb in *. unfold SFleb in *. destruct (SFcompare q p) as [[]|] eqn:E; try discriminate Hle.
  - rewrite (Hz q) by done. eexists. split; [reflexivity|]. split; [done|]. rewrite (SFcompare_sym q p), E. done.
  - rewrite (Hz p) by done. eexists. split; [reflexivity|]. split; [done|]. by rewrite Hpp.
Qed.

Lemma rising_scan l q : price_ok q → Forall price_ok l → rising l → (∀ p, head l = Some p → SFleb q p = true) →
  (foldl drawdown_step (q, nzero) l).2 = nzero.
Proof.
  revert q. induction l as [|p l IH]; intros q Hq Hl Hr Hh; [done|]. inversion_clear Hl as [|?? Hp Hl'].
  destruct (step_rising q p Hq Hp (Hh p eq_refl)) as (q' & E & Hq' & Hle & _). cbn [foldl]. rewrite E.
  apply IH; [done|done|by destruct l; [|apply Hr]|]. intros r Hhr.
  destruct l as [|r' l]; [done|]. injection Hhr as ->. by apply (nleb_trans _ p), Hr.
Qed.

(** prices that never fall have no drawdown. *)
Theorem rising_no_drawdown first prices : rising (first :: prices) → Forall price_ok (first :: prices) →
  max_drawdown first (first :: prices) = nzero.
Proof.
  intros Hr Hok. assert (price_ok first) as Hf by by inversion_clear Hok. apply rising_scan; [done|done|done|].
  intros p [= <-]. apply nleb_refl. by destruct first as [| | |]; destruct Hf as (_ & ? & _).
Qed.

Lemma rising_no_drawdown_witness : max_drawdown (of_Z 1) [of_Z 1; of_Z 2; of_Z 2; of_Z 5] = nzero.
Proof.
  apply rising_no_drawdown; [by vm_compute|]. repeat (apply Forall_cons; split; [by vm_compute|]). done.
Defined.

