(* ===== verification/NodeProxy.v ===== *)
(** * Routes that ask the node (apps/web/explorer, ops, monitoring, wallet, dapp, unified)

    The JSON-RPC and REST proxies, the status and statistics routes, the metrics scraper and the
    client of the unified site. [fetch] is a parameter: what it gives for each request, and the
    milliseconds it takes; a route asks each address at most once. *)

From Stdlib Require Import Ascii String.
From S2P Require Import Prelude JsMap JsNumber JsString Json WalletRpc.
Local Open Scope stdpp_scope.

(** ** Requests and replies *)

Record Fetch := MkFetch {
  url : string;
  verb : string;
  headers : jsmap string;
  payload : option json;
}.

(** A rejection carries the message of an [Error], or nothing for another value; a request that is
    aborted after its time limit is rejected too. A reply has the text of its body, and what
    [JSON.parse] makes of it, nothing if it throws. *)
Inductive reply :=
  | Fails (message : option string)
  | Replies (st : Z) (statusText : string) (raw : string) (parsed : option json).

Record Net := MkNet { fetch : Fetch → reply; elapsed : Fetch → Z }.

(** [response.ok] *)
Definition ok_status (st : Z) : bool := (200 <=? st) && (st <=? 299).

Definition or_str (a : option string) (d : string) : string :=
  match a with Some s => if str_eqb s "" then d else s | None => d end.

(** [_utils/auth.ts]: the two settings of the environment. *)
Definition getRpcAuthHeaders (API_KEY RPC_API_KEY : option string) : jsmap string :=
  let key := or_str API_KEY (or_str RPC_API_KEY "") in
  if str_eqb key "" then []
  else [("Authorization", if has_scheme key then key else "Bearer " +:+ key)].

Definition json_headers (auth : jsmap string) : jsmap string := foldl (λ m kv, map_set kv.1 kv.2 m) [("Content-Type", "application/json")] auth.

(** ** The JSON-RPC proxy of the explorer and of the operations dashboard *)

(** [NextResponse.json(data, { status })]: a status without a body is refused. *)
Record Sent := MkSent { sent_status : Z; sent_data : json }.

Definition null_body (st : Z) : bool := existsb (Z.eqb st) [101; 204; 205; 304].
Definition respond (st : Z) (data : json) : string + Sent :=
  if null_body st then inl ("Response constructor: Invalid response status code " +:+ pretty st) else inr (MkSent st data).

Definition error_data (m : string) : json := JObj [("error", JObj [("message", JStr m)])].

(** [request.json()] fails on a text that is not JSON: [bad_json] is its message. *)
Section Proxy.
Context (net : Net) (RPC_URL : string) (auth : jsmap string) (bad_json : string).

Definition forwarded (body : json) : Fetch := MkFetch RPC_URL "POST" (json_headers auth) (Some body).

Definition rpc_attempt (request : text json) : option string + Sent :=
  match request with
  | TRaw _ => inl (Some bad_json)
  | TJson body =>
      match fetch net (forwarded body) with
      | Fails m => inl m
      | Replies st _ raw parsed =>
          let data := default (error_data (if str_eqb raw "" then http_text st else raw)) parsed in
          match (if ok_status st then respond 200 data else respond st data) with
          | inl m => inl (Some m)
          | inr r => inr r
          end
      end
  end.

Definition rpc_POST (request : text json) : Sent :=
  match rpc_attempt request with
  | inr r => r
  | inl m => MkSent 500 (error_data (or_str m "RPC call failed"))
  end.

End Proxy.

(** The same handler in both applications. *)
Definition ops_rpc_POST := rpc_POST.

(** ** The REST proxy of the explorer *)

Definition node_target (NODE_URL : string) (path : list string) (search : string) : string :=
  NODE_URL +:+ "/api/" +:+ join "/" path +:+ search.

Definition node_GET (net : Net) (NODE_URL : string) (auth : jsmap string) (path : list string) (search : string) : Sent :=
  let failed (m : option string) := MkSent 502 (JObj [("error", JStr (default "Node request failed" m))]) in
  match fetch net (MkFetch (node_target NODE_URL path search) "GET" (json_headers auth) None) with
  | Fails m => failed m
  | Replies st _ _ parsed =>
      let data := default (JObj [("error", JStr (http_text st))]) parsed in
      match respond st data with inr r => r | inl m => failed (Some m) end
  end.

(** ** Status routes *)

Record CheckResult := MkCheck {
  key : string;
  name : string;
  ok : bool;
  status : option Z;
  ms : option Z;
  error : option string;
}.

(** [error.message] of the RPC error, if it is a text. *)
Definition rpc_message (e : json) : string :=
  match e with JObj _ | JArr _ => default "RPC error" (as_string (field "message" e)) | _ => "RPC error" end.

Definition isRecord (j : json) : bool := match j with JObj _ | JArr _ => true | _ => false end.

Definition is_nullish (o : option json) : bool := match o with None | Some JNull => true | _ => false end.

Section Status.
Context (net : Net).

Definition blockcount_request (RPC_URL : string) (hs : jsmap string) : Fetch :=
  MkFetch RPC_URL "POST" hs
    (Some (JObj [("jsonrpc", JStr "2.0"); ("id", JNum (of_Z 1)); ("method", JStr "getblockcount"); ("params", JArr [])])).

Definition checkRpc (RPC_URL : string) (hs : jsmap string) : CheckResult :=
  let q := blockcount_request RPC_URL hs in
  let t := Some (elapsed net q) in
  match fetch net q with
  | Fails m => MkCheck "rpc" "RPC" false None t (Some (default "unreachable" m))
  | Replies st _ _ parsed =>
      if negb (ok_status st) then MkCheck "rpc" "RPC" false (Some st) t (Some (http_text st))
      else
        let data := default JNull parsed in
        if negb (isRecord data) then MkCheck "rpc" "RPC" false None t (Some "RPC error")
        else if negb (is_nullish (field "error" data))
        then MkCheck "rpc" "RPC" false None t (Some (rpc_message (default JNull (field "error" data))))
        else MkCheck "rpc" "RPC" true (Some st) t None
  end.

(** A check of one address, with the headers its request carries. *)
Definition check_url (hs : jsmap string) (k nm u : string) : CheckResult :=
  let q := MkFetch u "GET" hs None in
  let t := Some (elapsed net q) in
  match fetch net q with
  | Fails m => MkCheck k nm false None t (Some (default "unreachable" m))
  | Replies st _ _ _ =>
      if negb (ok_status st) then MkCheck k nm false (Some st) t (Some (http_text st))
      else MkCheck k nm true (Some st) t None
  end.

Definition checkOne (k nm u : string) : CheckResult := check_url [] k nm u.
Definition checkMetrics (METRICS_URL : string) : CheckResult := check_url [] "metrics" "Metrics" METRICS_URL.

Fixpoint firstOk_from (check : string → string → string → CheckResult) (k nm : string) (urls : list string) : CheckResult :=
  match urls with
  | [] => MkCheck k nm false None None (Some "unreachable")
  | u :: us => let r := check k nm u in if ok r then r else firstOk_from check k nm us
  end.
Definition firstOk : string → string → list string → CheckResult := firstOk_from checkOne.

Definition grafana_urls : list string := ["http://grafana:3000/api/health"; "http://localhost:3000/api/health"].
Definition prom_urls : list string := ["http://prometheus:9090/-/healthy"; "http://localhost:9092/-/healthy"].

(** The answer: [ok], the time and the checks. *)
Definition status_GET (now : Z) (checks : list CheckResult) : bool * Z * list CheckResult := (forallb ok checks, now, checks).

(** The explorer asks without the key, within five seconds instead of two. *)
Definition explorer_checkRpc (RPC_URL : string) : CheckResult := checkRpc RPC_URL (json_headers []).

Definition explorer_status_GET (RPC_URL : string) (now : Z) :=
  status_GET now [explorer_checkRpc RPC_URL;
    firstOk "grafana" "Grafana" grafana_urls; firstOk "prom" "Prometheus" prom_urls].

Definition ops_status_GET (RPC_URL METRICS_URL : string) (auth : jsmap string) (now : Z) :=
  status_GET now [checkRpc RPC_URL (json_headers auth); checkMetrics METRICS_URL;
    firstOk "grafana" "Grafana" grafana_urls; firstOk "prom" "Prometheus" prom_urls].

(** The wallet's checks send its key with every request, and report any thrown message but the
    empty one. *)
Definition wallet_checkOne (hs : jsmap string) (k nm u : string) : CheckResult :=
  let q := MkFetch u "GET" hs None in
  let t := Some (elapsed net q) in
  match fetch net q with
  | Fails m => MkCheck k nm false None t (Some (or_str m "unreachable"))
  | Replies st _ _ _ =>
      if negb (ok_status st) then MkCheck k nm false (Some st) t (Some (http_text st))
      else MkCheck k nm true (Some st) t None
  end.
Definition wallet_firstOk (hs : jsmap string) : string → string → list string → CheckResult := firstOk_from (wallet_checkOne hs).

Definition wallet_status_GET (WALLET_API_URL : string) (hs : jsmap string) (now : Z) :=
  status_GET now [wallet_checkOne hs "node" "Node API" (WALLET_API_URL +:+ "/api/health");
    wallet_firstOk hs "grafana" "Grafana" grafana_urls; wallet_firstOk hs "prom" "Prometheus" prom_urls].
End Status.

(** ** Statistics of the node (wallet, dapp and unified) *)

Record Stats := MkStats {
  online : bool;
  blockHeight : option num;
  mempoolSize : option num;
  peerCount : option num;
  network : option string;
  version : option string;
}.
Definition offline_stats : Stats := MkStats false None None None None None.

Definition as_number (o : option json) : option num := match o with Some (JNum n) => Some n | _ => None end.

(** A body that is not JSON, like a failing status, counts as no answer; so does the value null. *)
Definition ok_body (st : Z) (parsed : option json) : json := if ok_status st then default JNull parsed else JNull.

Definition stats_of (info peers : json) : Stats :=
  MkStats (match info with JNull => false | _ => true end)
    ((λ h, nadd h (of_Z 1)) <$> as_number (field "height" info))
    (as_number (field "mempool_size" info))
    (as_number (field "total" peers))
    (as_string (field "network" info))
    (as_string (field "version" info)).

Definition stats_GET (net : Net) (NODE_URL : string) (hs : jsmap string) : Stats :=
  match fetch net (MkFetch (NODE_URL +:+ "/api/info") "GET" hs None), fetch net (MkFetch (NODE_URL +:+ "/api/peers") "GET" hs None) with
  | Replies st1 _ _ p1, Replies st2 _ _ p2 => stats_of (ok_body st1 p1) (ok_body st2 p2)
  | _, _ => offline_stats
  end.
Definition dapp_stats_GET (net : Net) (NODE_URL : string) : Stats := stats_GET net NODE_URL [].
Definition unified_stats_GET (net : Net) (NODE_URL : string) : Stats := stats_GET net NODE_URL [].

(** ** The monitoring application *)

Record Config := MkConfig { rpc_url : string; rpc_auth : jsmap string; basic_token : option string }.

(** [basic_token] is the base64 text of user and password, when both are configured. *)
Definition monitoring_headers (c : Config) : jsmap string :=
  match basic_token c with
  | Some t => map_set "Authorization" ("Basic " +:+ t) (json_headers (rpc_auth c))
  | None => json_headers (rpc_auth c)
  end.

Definition monitoring_request (c : Config) (m : string) (params : list json) : Fetch :=
  MkFetch (rpc_url c) "POST" (monitoring_headers c)
    (Some (JObj [("jsonrpc", JStr "2.0"); ("id", JNum (of_Z 1)); ("method", JStr m); ("params", JArr params)])).

(** The result may be undefined. [bad_json] is the message of [res.json()] on another text. *)
Definition rpcCall (net : Net) (bad_json : string) (c : Config) (m : string) (params : list json) : option string + option json :=
  match fetch net (monitoring_request c m params) with
  | Fails e => inl e
  | Replies st statusText raw parsed =>
      if negb (ok_status st) then
        inl (Some ("RPC HTTP " +:+ pretty st +:+ ": " +:+ (if str_eqb raw "" then statusText else raw)))
      else
        match parsed with
        | None => inl (Some bad_json)
        | Some JNull => inl (Some "Cannot read properties of null (reading 'error')")
        | Some j =>
            if truthy (field "error" j)
            then inl (Some (match opt_field "message" (field "error" j) with
                            | None | Some JNull => "RPC error" | Some m => to_text m end))
            else inr (field "result" j)
        end
  end.

Record Overview := MkOverview {
  o_ok : bool; height : num; bestHash : string; o_peerCount : Z; o_mempoolSize : num; o_error : option string;
}.

(** The first of the failures to come in, in the order [arrival]. *)
Definition first_failure (arrival : list nat) (l : list (option string + option json)) : option (option string) :=
  head (omap (λ i, match l !! i with Some (inl m) => Some m | _ => None end) arrival).

Definition size_of (mempool : option json) : num :=
  match mempool with
  | Some (JObj o) => match map_get "size" o with Some j => Number (Some j) | None => nzero end
  | _ => nzero
  end.

(** [arrival] lists the four calls in the order in which their replies come in. *)
Definition monitoring_GET (net : Net) (bad_json : string) (c : Config) (arrival : list nat) : Overview :=
  let call m := rpcCall net bad_json c m [] in
  let l := [call "getblockcount"; call "getbestblockhash"; call "getpeerinfo"; call "getmempoolinfo"] in
  match l with
  | [inr h; inr b; inr p; inr m] =>
      MkOverview true
        (match h with Some (JNum n) => n | None | Some JNull => nzero | _ => Number h end)
        (default "" (as_string b))
        (match p with Some (JArr ps) => Z.of_nat (length ps) | _ => 0 end)
        (size_of m) None
  | _ => MkOverview false nzero "" 0 nzero (Some (default "Unknown error" (default None (first_failure arrival l))))
  end.

(** ** Metrics *)

(** The lines of a text, in the sense of the regular expressions' [m] flag. *)
Fixpoint lines_from (s : string) : list string :=
  match s with
  | "" => []
  | String c s' => if (char_code c =? 10) || (char_code c =? 13) then s' :: lines_from s' else lines_from s'
  end.

(** [^key\s+(-?\d+(?:\.\d+)?)$] at the start of [s]: the text of the number. *)
Definition at_line_end (s : string) : bool :=
  match s with "" => true | String c _ => (char_code c =? 10) || (char_code c =? 13) end.

Definition number_text (s : string) : option string :=
  let '(sg, s1) := match s with String "-" t => ("-", t) | _ => ("", s) end in
  let '(ds, s2) := span is_digit s1 in
  if str_eqb ds "" then None
  else
    let whole := sg +:+ ds in
    match s2 with
    | String "." t =>
        let '(fs, s3) := span is_digit t in
        if negb (str_eqb fs "") && at_line_end s3 then Some (whole +:+ "." +:+ fs) else None
    | _ => if at_line_end s2 then Some whole else None
    end.

Definition match_here (key : string) (s : string) : option string :=
  if startsWith key s then
    let '(ws, rest) := span is_space (String.substring (String.length key) (String.length s - String.length key) s) in
    if str_eqb ws "" then None else number_text rest
  else None.

Definition metric_of (text : string) (key : string) : option num :=
  Number_text <$> head (omap (match_here key) (text :: lines_from text)).

Definition parsePrometheusText (text : string) (keys : list string) : jsmap num :=
  omap (λ k, pair k <$> metric_of text k) keys.

Definition metric_keys : list string :=
  ["kubercoin_block_height"; "kubercoin_mempool_size"; "kubercoin_peers"; "process_resident_memory_bytes"].

(** The scraper's replies are texts. *)
Inductive text_reply := TextFails (message : option string) | TextReplies (st : Z) (statusText : string) (t : string).

Definition metrics_GET (r : text_reply) : string + jsmap num :=
  match r with
  | TextFails m => inl (default "Unknown error" m)
  | TextReplies st statusText t =>
      if negb (ok_status st) then inl ("Metrics HTTP " +:+ pretty st +:+ ": " +:+ (if str_eqb t "" then statusText else t))
      else inr (parsePrometheusText t metric_keys)
  end.

(** The operations dashboard passes the text on: status and text. *)
Definition ops_metrics_GET (r : text_reply) : Z * string :=
  match r with
  | TextFails m => (500, "# Error fetching metrics: " +:+ default "undefined" m)
  | TextReplies st _ t => if negb (ok_status st) then (500, "# Error fetching metrics: " +:+ http_text st) else (200, t)
  end.

(** ** The client of the unified site (lib/api/client.ts)

    A promise that rejects is [inl]. *)

Section Client.
Context (net : Net) (bad_json : string) (API_URL RPC_URL : string).

Definition apiFetch (q : Fetch) : option string + json :=
  match fetch net q with
  | Fails m => inl m
  | Replies st _ _ parsed =>
      if negb (ok_status st) then inl (Some (http_text st))
      else match parsed with Some j => inr j | None => inl (Some bad_json) end
  end.

(** A property of the reply, undefined if it has none; null has no properties. *)
Definition member (k : string) (r : option string + json) : option string + option json :=
  match r with
  | inl m => inl m
  | inr JNull => inl (Some ("Cannot read properties of null (reading '" +:+ k +:+ "')"))
  | inr j => inr (field k j)
  end.

Definition callRPC_request (now : Z) (m : string) (params : list json) : Fetch :=
  MkFetch (RPC_URL +:+ "/") "POST" [("Content-Type", "application/json")]
    (Some (JObj [("jsonrpc", JStr "2.0"); ("id", JNum (of_Z now)); ("method", JStr m); ("params", JArr params)])).
Definition callRPC (now : Z) (m : string) (params : list json) : option string + option json :=
  member "result" (apiFetch (callRPC_request now m params)).

Definition api_get (path : string) : option string + json := apiFetch (MkFetch (API_URL +:+ path) "GET" [] None).

Definition getBlock_height (h : Z) : option string + json := api_get ("/api/block-by-height/" +:+ pretty h).
Definition getBlock_hash (h : string) : option string + json := api_get ("/api/block/" +:+ h).

(** The heights asked for when the chain has the height [h], an integer. *)
Definition latest_heights (h count : Z) : list Z :=
  let start := Z.max 0 (h - count + 1) in
  rev ((λ i, start + Z.of_nat i) <$> seq 0 (Z.to_nat (h - start + 1))).

(** [Promise.all] of integer heights; [arrival] orders the replies. *)
Definition all_of (arrival : list nat) (l : list (option string + json)) : option string + list json :=
  match head (omap (λ i, match l !! i with Some (inl m) => Some m | _ => None end) arrival) with
  | Some m => inl m
  | None => inr (omap (λ r, match r with inr j => Some j | inl _ => None end) l)
  end.

Definition getLatestBlocks (to_height : json → Z) (arrival : list nat) (count : Z) : option string + list json :=
  match member "height" (api_get "/api/info") with
  | inl m => inl m
  | inr h =>
      let height := match h with None | Some JNull => 0 | Some j => to_height j end in
      all_of arrival (getBlock_height <$> latest_heights height count)
  end.

Definition getTransaction (txid : string) := api_get ("/api/tx/" +:+ txid).
Definition getAddress (address : string) := api_get ("/api/address/" +:+ address +:+ "/txs").
Definition getMempoolInfo (now : Z) := callRPC now "getmempoolinfo" [].
Definition getRawMempool (now : Z) := callRPC now "getrawmempool" [].
Definition getInfo (now : Z) := callRPC now "getinfo" [].
Definition getPeerInfo (now : Z) := callRPC now "getpeerinfo" [].
Definition getChainStats (now : Z) := callRPC now "getchaintips" [].
Definition getBlockchainInfo (now : Z) := callRPC now "getblockchaininfo" [].
Definition getNetworkInfo (now : Z) := callRPC now "getnetworkinfo" [].
Definition getMiningInfo (now : Z) := callRPC now "getmininginfo" [].
Definition createWallet (now : Z) (nm : string) := callRPC now "createwallet" [JStr nm].
Definition getBalance (address : string) := member "balance" (api_get ("/api/balance/" +:+ address)).
Definition sendTransaction (now : Z) (tx : json) := callRPC now "sendrawtransaction" [tx].
Definition listTransactions (address : string) (count : Z) :=
  api_get ("/api/address/" +:+ address +:+ "/txs?limit=" +:+ pretty count).

End Client.

(** * Theorems *)

(** the proxies add the server's key to whatever JSON a caller sends, and hand the node's
    answer back: no method is excluded and the caller shows no credential. *)
Theorem proxy_lends_its_key net RPC_URL k bad_json body st statusText raw j :
  k ≠ "" → ok_status st = true →
  fetch net (forwarded RPC_URL (getRpcAuthHeaders (Some k) None) body) = Replies st statusText raw (Some j) →
  map_get "Authorization" (headers (forwarded RPC_URL (getRpcAuthHeaders (Some k) None) body)) =
    Some (if has_scheme k then k else "Bearer " +:+ k) ∧
  payload (forwarded RPC_URL (getRpcAuthHeaders (Some k) None) body) = Some body ∧
  rpc_POST net RPC_URL (getRpcAuthHeaders (Some k) None) bad_json (TJson body) = MkSent 200 j.
Proof.
  intros Hk Hst Hf. split.
  - unfold getRpcAuthHeaders, or_str. by rewrite (proj2 (str_eqb_false k "") Hk), (proj2 (str_eqb_false k "") Hk).
  - split; [done|]. unfold rpc_POST, rpc_attempt. by rewrite Hf, Hst.
Qed.

Definition demo_net (r : reply) : Net := MkNet (λ _, r) (λ _, 5).

Lemma proxy_lends_its_key_witness :
  sent_status (rpc_POST (demo_net (Replies 200 "OK" "1" (Some (JNum (of_Z 1))))) "http://node" (getRpcAuthHeaders (Some "s3cret") None)
    "" (TJson (JObj [("method", JStr "stop")]))) = 200.
Proof.
  destruct (proxy_lends_its_key (demo_net (Replies 200 "OK" "1" (Some (JNum (of_Z 1))))) "http://node" "s3cret" ""
    (JObj [("method", JStr "stop")]) 200 "OK" "1" (JNum (of_Z 1)) ltac:(done) eq_refl eq_refl) as (_ & _ & ->). reflexivity.
Defined.

(** ** Status *)

(** The address answers with a status of success. *)
Definition reachable (net : Net) (u : string) : Prop := ∃ st t raw parsed,
  fetch net (MkFetch u "GET" [] None) = Replies st t raw parsed ∧ ok_status st = true.

Lemma checkOne_ok net k nm u : ok (checkOne net k nm u) = true ↔ reachable net u.
Proof.
  unfold checkOne, check_url, reachable. split.
  - destruct (fetch _ _) as [m|st t raw parsed]; [done|]. destruct (ok_status st) eqn:E; [|done]. eauto 10.
  - intros (st & t & raw & parsed & -> & ->). done.
Qed.

Lemma firstOk_ok net k nm urls : ok (firstOk net k nm urls) = true ↔ Exists (reachable net) urls.
Proof.
  unfold firstOk. induction urls as [|u us IH]; cbn [firstOk_from]; [by rewrite Exists_nil|].
  rewrite Exists_cons, <- (checkOne_ok net k nm), <- IH. destruct (ok (checkOne net k nm u)) eqn:E; rewrite ?E; naive_solver.
Qed.

(** The node answers the block count with an object that has no error. *)
Definition node_answers (net : Net) (RPC_URL : string) (hs : jsmap string) : Prop := ∃ st t raw j,
  fetch net (blockcount_request RPC_URL hs) = Replies st t raw (Some j) ∧ ok_status st = true ∧
  isRecord j = true ∧ is_nullish (field "error" j) = true.

Lemma checkRpc_ok net RPC_URL hs : ok (checkRpc net RPC_URL hs) = true ↔ node_answers net RPC_URL hs.
Proof.
  unfold checkRpc, node_answers. split.
  - destruct (fetch _ _) as [m|st t raw parsed]; [done|]. destruct (ok_status st) eqn:E; [|done]. cbn [negb].
    destruct parsed as [j|]; [|done]. cbn [default]. unfold Datatypes.id. destruct (isRecord j) eqn:Ej; [|done].
    destruct (is_nullish (field "error" j)) eqn:Ee; [|done]. eauto 10.
  - intros (st & t & raw & j & -> & -> & Hj & He). cbn [negb default]. unfold Datatypes.id. by rewrite Hj, He.
Qed.

(** the dashboard reports the system as healthy exactly when the node answers without an
    error, the metrics address answers, and of Grafana and of Prometheus one address answers. *)
Theorem ops_status_healthy net RPC_URL METRICS_URL auth now :
  (ops_status_GET net RPC_URL METRICS_URL auth now).1.1 = true ↔
  node_answers net RPC_URL (json_headers auth) ∧ reachable net METRICS_URL ∧
  Exists (reachable net) grafana_urls ∧ Exists (reachable net) prom_urls.
Proof.
  unfold ops_status_GET, status_GET. cbn [fst forallb].
  rewrite !andb_true_iff, checkRpc_ok, !firstOk_ok. change (checkMetrics net METRICS_URL) with (checkOne net "metrics" "Metrics" METRICS_URL).
  rewrite checkOne_ok. tauto.
Qed.

(** a failed check says why, and a passed one does not. *)
Theorem failed_checks_explain net RPC_URL METRICS_URL auth now c :
  c ∈ (ops_status_GET net RPC_URL METRICS_URL auth now).2 → ok c = bool_decide (error c = None).
Proof.
  assert (∀ k nm u, ok (checkOne net k nm u) = bool_decide (error (checkOne net k nm u) = None)) as H1.
  { intros. unfold checkOne, check_url. by repeat case_match. }
  assert (∀ k nm us, ok (firstOk net k nm us) = bool_decide (error (firstOk net k nm us) = None)) as H2.
  { intros k nm us. unfold firstOk. induction us as [|u us IH]; [done|]. cbn [firstOk_from]. by destruct (ok (checkOne net k nm u)) eqn:E. }
  unfold ops_status_GET, status_GET. cbn [snd]. rewrite !elem_of_cons. intros [->|[->|[->|[->|[]%not_elem_of_nil]]]]; [|apply H1|apply H2..].
  unfold checkRpc. by repeat case_match.
Qed.

Lemma failed_checks_explain_witness :
  ok (checkOne (demo_net (Fails None)) "metrics" "Metrics" "http://m") = bool_decide (error (checkOne (demo_net (Fails None)) "metrics" "Metrics" "http://m") = None).
Proof.
  apply (failed_checks_explain (demo_net (Fails None)) "http://n" "http://m" [] 0). right. left.
Defined.

(** ** Latest blocks *)

(** on a chain of height [h] the newest [count] blocks are asked for, newest first, down to
    block 0 on a shorter chain. *)
Theorem latest_heights_spec h count i : 0 <= h → 0 < count →
  length (latest_heights h count) = Z.to_nat (Z.min count (h + 1)) ∧
  ((i < length (latest_heights h count))%nat → latest_heights h count !! i = Some (h - Z.of_nat i)).
Proof.
  intros Hh Hc. unfold latest_heights. set (start := Z.max 0 (h - count + 1)).
  assert (length (latest_heights h count) = Z.to_nat (h - start + 1)) as Hl.
  { unfold latest_heights. by rewrite length_rev, length_fmap, length_seq. }
  unfold latest_heights in Hl. fold start in Hl. rewrite Hl. split; [subst start; lia|].
  intros Hi. rewrite rev_alt. change (rev_append ?l []) with (reverse l). rewrite reverse_lookup by (rewrite length_fmap, length_seq; lia).
  rewrite length_fmap, length_seq, list_lookup_fmap, lookup_seq_lt by lia. cbn. f_equal. lia.
Qed.

Lemma latest_heights_spec_witness : latest_heights 2 10 !! 2%nat = Some 0 ∧ length (latest_heights 2 10) = 3%nat.
Proof.
  split; [refine (proj2 (latest_heights_spec 2 10 2 ltac:(lia) ltac:(lia)) _); vm_compute; lia|].
  exact (proj1 (latest_heights_spec 2 10 2 ltac:(lia) ltac:(lia))).
Defined.

(** ** Metrics *)

Lemma digit_char c : is_digit c = true → is_space c = false ∧ c ≠ "-"%char.
Proof. by destruct c as [[] [] [] [] [] [] [] []]. Qed.

Lemma number_text_read ds rest : str_all is_digit ds = true → ds ≠ "" →
  number_text (ds +:+ String "010" rest) = Some ds.
Proof.
  intros Hd Hne. unfold number_text.
  assert (match ds +:+ String "010" rest with String "-" t => ("-", t) | _ => ("", ds +:+ String "010" rest) end =
    ("", ds +:+ String "010" rest)) as ->.
  { destruct ds as [|c ds]; [done|]. cbn in Hd. apply andb_true_iff in Hd as [Hc _]. clear -Hc.
    change (String c ds +:+ String "010" rest) with (String c (ds +:+ String "010" rest)).
    by destruct c as [[] [] [] [] [] [] [] []]. }
  rewrite span_app by done. by rewrite (proj2 (str_eqb_false ds "") Hne).
Qed.

(** a first line of the form [key number] gives its number, whatever lines follow. *)
Theorem metric_read key ds rest : str_all is_digit ds = true → ds ≠ "" →
  metric_of (key +:+ " " +:+ ds +:+ String "010" rest) key = Some (Number_text ds).
Proof.
  intros Hd Hne. unfold metric_of, match_here. cbn [omap list_omap].
  rewrite startsWith_app, length_app_str, Nat.add_comm, Nat.add_sub, substring_app.
  assert (∃ c t, ds +:+ String "010" rest = String c t ∧ is_space c = false) as (c & t & E & Hc).
  { destruct ds as [|c ds]; [done|]. cbn in Hd. apply andb_true_iff in Hd as [Hc _].
    eexists c, _. split; [reflexivity|]. by apply digit_char. }
  rewrite E, (span_app is_space " " c t) by done. cbn [str_eqb]. rewrite <- E, number_text_read by done. done.
Qed.

Lemma metric_read_witness :
  parsePrometheusText ("kubercoin_peers 17" +:+ String "010" "x") ["kubercoin_peers"] = [("kubercoin_peers", Number_text "17")].
Proof.
  unfold parsePrometheusText. cbn [omap list_omap].
  change ("kubercoin_peers 17" +:+ String "010" "x") with ("kubercoin_peers" +:+ " " +:+ "17" +:+ String "010" "x").
  rewrite (metric_read "kubercoin_peers" "17" "x" eq_refl ltac:(discriminate)). reflexivity.
Defined.
