(* ===== verification/HardwareWallet.v ===== *)
(** * [HardwareWallet] (apps/web/wallet/src/services/hardwareWallet.ts)

    The devices of a page and the operations on them; nothing is stored, and what is written to
    the console is left out. The random source and the browser's device pickers are parameters. *)

From Stdlib Require Import Ascii String.
From S2P Require Import Prelude JsMap JsNumber JsString.

Inductive HardwareWalletType := ledger | trezor | generic.
Inductive ConnectionType := USB | Bluetooth | WebUSB | WebHID.

Record HardwareDevice := MkDevice {
  id : string;
  name : string;
  type : HardwareWalletType;
  model : string;
  firmwareVersion : string;
  connected : bool;
  connectionType : ConnectionType;
}.

Record HardwareWallet := MkHardware { connectedDevices : jsmap HardwareDevice }.
Definition set_devices m (s : HardwareWallet) : HardwareWallet := MkHardware m.
Definition fresh : HardwareWallet := MkHardware [].

Abbreviation M := (js (HardwareWallet * Env)).

Definition connectDevice (ty : HardwareWalletType) : M HardwareDevice :=
  js_throw "Hardware wallet integration not configured.".

(** The device is marked before it is removed; only a holder of the object sees the mark. *)
Definition disconnectDevice (i : string) : M () :=
  modify_this (λ s, set_devices (map_delete i (connectedDevices s)) s).

Definition getConnectedDevices : M (list HardwareDevice) :=
  s ← this; mret (js_filter connected (map_values (connectedDevices s))).

(** The check every operation starts with. *)
Definition get_device (i : string) : M HardwareDevice :=
  s ← this;
  match map_get i (connectedDevices s) with
  | Some d => if connected d then mret d else js_throw "Device not connected"
  | None => js_throw "Device not connected"
  end.

Definition getAddresses (i : string) (startIndex endIndex : Z) : M (list string) :=
  get_device i;; js_throw "Hardware wallet address derivation not configured.".
Definition signTransaction {T} (i : string) (transaction : T) : M string :=
  get_device i;; js_throw "Hardware wallet signing not configured.".
Definition signMessage (i message : string) : M string :=
  get_device i;; js_throw "Hardware wallet message signing not configured.".
Definition verifyAddress (i address : string) : M bool :=
  get_device i;; js_throw "Hardware wallet address verification not configured.".
Definition getPublicKey (i derivationPath : string) : M string :=
  get_device i;; js_throw "Hardware wallet public key derivation not configured.".
Definition getFirmwareVersion (i : string) : M string := d ← get_device i; mret (firmwareVersion d).
Definition verifyDevice (i : string) : M bool :=
  get_device i;; js_throw "Hardware wallet verification not configured.".
Definition checkFirmwareUpdate (i : string) : M bool :=
  get_device i;; js_throw "Firmware update checks not configured.".
Definition enablePassphrase (i : string) : M () := get_device i;; mret ().

Definition with_name (l : string) (d : HardwareDevice) : HardwareDevice :=
  MkDevice (id d) l (type d) (model d) (firmwareVersion d) (connected d) (connectionType d).
Definition setLabel (i label : string) : M () :=
  get_device i;;
  modify_this (λ s, set_devices (map_update i (with_name label) (connectedDevices s)) s).

Definition wipeDevice (i : string) : M () := get_device i;; mret ().

Definition recoverDevice (i : string) (seedWords : list string) : M () :=
  get_device i;;
  if negb (length seedWords =? 12)%nat && negb (length seedWords =? 24)%nat
  then js_throw "Invalid seed phrase length. Must be 12 or 24 words."
  else mret ().

(** ** Random texts: [draw n] is the [n]-th result of [Math.random()] *)

(** [l[Math.floor(Math.random() * l.length)]] *)
Definition pick {A} (l : list A) (r : num) : option A :=
  match nfloor (nmul r (of_Z (Z.of_nat (length l)))) with
  | S754_zero _ => l !! 0%nat
  | S754_finite false m e => l !! Z.to_nat (floor_Z false m e)
  | _ => None
  end.

Definition versions (ty : HardwareWalletType) : list string :=
  match ty with
  | ledger => ["2.1.0"; "2.2.0"; "2.2.1"]
  | trezor => ["2.5.3"; "2.6.0"; "2.6.1"]
  | generic => ["1.0.0"; "1.1.0"; "1.2.0"]
  end.
Definition generateFirmwareVersion (ty : HardwareWalletType) (r : num) : option string := pick (versions ty) r.

Definition hex_chars : list ascii := list_ascii_of_string "0123456789abcdef".
Fixpoint generateRandomHex (len : nat) (draw : nat → num) (n : nat) : string :=
  match len with
  | O => ""
  | S len' =>
      match pick hex_chars (draw n) with
      | Some c => String c (generateRandomHex len' draw (S n))
      | None => "undefined" +:+ generateRandomHex len' draw (S n)
      end
  end.

(** ** The browser's pickers: nothing if the browser has none *)

Section Pickers.
Context {Device : Type}.

(** What the picker gives. *)
Definition requestUSBDevice (usb : option (result Device)) : M (option Device) :=
  match usb with
  | None => js_throw "WebUSB not supported in this browser"
  | Some (Ok d) => mret (Some d)
  | Some (Throw _) => mret None
  end.

(** The first of the devices chosen. *)
Definition requestHIDDevice (hid : option (result (list Device))) : M (option Device) :=
  match hid with
  | None => js_throw "WebHID not supported in this browser"
  | Some (Ok l) => mret (head l)
  | Some (Throw _) => mret None
  end.

Definition requestBluetoothDevice (bluetooth : option (result Device)) : M (option Device) :=
  match bluetooth with
  | None => js_throw "Web Bluetooth not supported in this browser"
  | Some (Ok d) => mret (Some d)
  | Some (Throw _) => mret None
  end.
End Pickers.

(** * Theorems *)

Inductive operation :=
  | Connect (ty : HardwareWalletType)
  | Disconnect (i : string)
  | Sign (i transaction : string)
  | SetLabel (i label : string)
  | Recover (i : string) (words : list string)
  | Passphrase (i : string)
  | Wipe (i : string).

Definition exec (o : operation) : M () :=
  match o with
  | Connect ty => connectDevice ty;; mret ()
  | Disconnect i => disconnectDevice i
  | Sign i t => signTransaction i t;; mret ()
  | SetLabel i l => setLabel i l
  | Recover i l => recoverDevice i l
  | Passphrase i => enablePassphrase i
  | Wipe i => wipeDevice i
  end.

Inductive reachable : HardwareWallet * Env → Prop :=
  | reach_start e : reachable (fresh, e)
  | reach_exec w o : reachable w → reachable (exec o w).2.

Lemma get_device_missing i s e : map_get i (connectedDevices s) = None →
  get_device i (s, e) = (Throw "Device not connected", (s, e)).
Proof. intros H. unfold get_device. js_run. by rewrite H. Qed.

Lemma exec_empty o e : (exec o (fresh, e)).2 = (fresh, e).
Proof. destruct o; reflexivity. Qed.

(** no device is ever connected: every operation on one is refused, signing, verification
    and recovery included, and only a disconnection succeeds, without effect. *)
Theorem no_device_ever w : reachable w →
  w.1 = fresh ∧ (getConnectedDevices w).1 = Ok [] ∧
  ∀ o, (exec o w).2 = w ∧
    (exec o w).1 = match o with
      | Connect _ => Throw "Hardware wallet integration not configured."
      | Disconnect _ => Ok ()
      | _ => Throw "Device not connected"
      end.
Proof.
  intros Hr. assert (w.1 = fresh) as Hf.
  { induction Hr as [|[s e] o _ IH]; [done|]. cbn [fst] in IH. subst s. by rewrite exec_empty. }
  destruct w as [s e]. cbn [fst] in Hf. subst s. split; [done|]. split; [done|].
  intros o. split; [apply exec_empty|]. by destruct o.
Qed.

Lemma no_device_ever_witness : (exec (Sign "ledger-1" "tx") (fresh, demo_env)).1 = Throw "Device not connected".
Proof. exact (proj2 (proj2 (proj2 (no_device_ever _ (reach_start demo_env))) (Sign "ledger-1" "tx"))). Defined.

(** A device that were connected takes a phrase of 12 or 24 words and no other. *)
Lemma recovery_phrase_length i words s e d : map_get i (connectedDevices s) = Some d → connected d = true →
  recoverDevice i words (s, e) =
  ((if bool_decide (length words = 12%nat ∨ length words = 24%nat) then Ok ()
    else Throw "Invalid seed phrase length. Must be 12 or 24 words."), (s, e)).
Proof.
  intros Hd Hc. unfold recoverDevice.
  assert (get_device i (s, e) = (Ok d, (s, e))) as E by (unfold get_device; js_run; by rewrite Hd, Hc).
  rewrite (run_Ok _ _ _ _ _ E). case_bool_decide as H.
  - destruct H as [->| ->]; reflexivity.
  - destruct (Nat.eqb_spec (length words) 12); [tauto|]. destruct (Nat.eqb_spec (length words) 24); [tauto|]. reflexivity.
Qed.
