(* ===== verification/DeFi.v ===== *)
(** * [DeFiService] (apps/web/wallet/src/services/defi.ts, defiService.ts)

    Lending, borrowing and liquidity positions with their four stored copies, and the second
    service of the same name, which keeps nothing. Positions and pools change through their
    references in the maps. *)

From Stdlib Require Import Ascii String.
From S2P Require Import Prelude JsMap JsNumber Store Stamps.

Record LendingPosition := MkLending {
  l_id : string; l_protocol : string; l_asset : string; l_amount : num; l_apy : num;
  l_startDate : Z; interestEarned : num; l_status : string;
}.

Record BorrowPosition := MkBorrow {
  b_id : string; b_protocol : string; borrowedAsset : string; borrowedAmount : num; collateralAsset : string;
  collateralAmount : num; interestRate : num; liquidationPrice : num; healthFactor : num; b_startDate : Z; b_status : string;
}.

Record LiquidityPool := MkPool {
  p_id : string; p_protocol : string; p_name : string; token0 : string; token1 : string;
  token0Reserve : num; token1Reserve : num; p_apy : num; totalValueLocked : num;
}.

Record LiquidityPosition := MkLiquidity {
  q_id : string; poolId : string; token0Amount : num; token1Amount : num; lpTokens : num; addedAt : Z; feesEarned : num;
}.

Record DeFi := MkDeFi {
  lendingPositions : jsmap LendingPosition;
  borrowPositions : jsmap BorrowPosition;
  liquidityPools : jsmap LiquidityPool;
  liquidityPositions : jsmap LiquidityPosition;
  ls_lending : cell (list LendingPosition);
  ls_borrow : cell (list BorrowPosition);
  ls_pools : cell (list LiquidityPool);
  ls_liquidity : cell (list LiquidityPosition);
}.

#[export] Instance lending_store : Store DeFi LendingPosition := {|
  key := l_id; items := lendingPositions; stored := ls_lending;
  set_items := λ m '(MkDeFi _ b p q cl cb cp cq), MkDeFi m b p q cl cb cp cq;
  set_stored := λ c '(MkDeFi l b p q _ cb cp cq), MkDeFi l b p q c cb cp cq;
|}.
#[export] Instance borrow_store : Store DeFi BorrowPosition := {|
  key := b_id; items := borrowPositions; stored := ls_borrow;
  set_items := λ m '(MkDeFi l _ p q cl cb cp cq), MkDeFi l m p q cl cb cp cq;
  set_stored := λ c '(MkDeFi l b p q cl _ cp cq), MkDeFi l b p q cl c cp cq;
|}.
#[export] Instance pool_store : Store DeFi LiquidityPool := {|
  key := p_id; items := liquidityPools; stored := ls_pools;
  set_items := λ m '(MkDeFi l b _ q cl cb cp cq), MkDeFi l b m q cl cb cp cq;
  set_stored := λ c '(MkDeFi l b p q cl cb _ cq), MkDeFi l b p q cl cb c cq;
|}.
#[export] Instance liquidity_store : Store DeFi LiquidityPosition := {|
  key := q_id; items := liquidityPositions; stored := ls_liquidity;
  set_items := λ m '(MkDeFi l b p _ cl cb cp cq), MkDeFi l b p m cl cb cp cq;
  set_stored := λ c '(MkDeFi l b p q cl cb cp _), MkDeFi l b p q cl cb cp c;
|}.
#[export] Instance lending_laws : StoreLaws DeFi LendingPosition.
Proof. by constructor; intros; repeat match goal with s : DeFi |- _ => destruct s end. Qed.
#[export] Instance borrow_laws : StoreLaws DeFi BorrowPosition.
Proof. by constructor; intros; repeat match goal with s : DeFi |- _ => destruct s end. Qed.
#[export] Instance pool_laws : StoreLaws DeFi LiquidityPool.
Proof. by constructor; intros; repeat match goal with s : DeFi |- _ => destruct s end. Qed.
#[export] Instance liquidity_laws : StoreLaws DeFi LiquidityPosition.
Proof. by constructor; intros; repeat match goal with s : DeFi |- _ => destruct s end. Qed.

Abbreviation M := (js (DeFi * Env)).

(** The object before its constructor reads the storage. *)
Definition fresh cl cb cp cq : DeFi := MkDeFi [] [] [] [] cl cb cp cq.

Definition loadData : M () :=
  guarded (load_items (V:=LendingPosition);; load_items (V:=BorrowPosition);;
           load_items (V:=LiquidityPool);; load_items (V:=LiquidityPosition)).

Definition saveData : M () :=
  guarded (save_items (V:=LendingPosition);; save_items (V:=BorrowPosition);;
           save_items (V:=LiquidityPool);; save_items (V:=LiquidityPosition)).

Definition constructor : M () := loadData.

Definition change {V} `{Store DeFi V} (i : string) (f : V → V) : M () :=
  modify_this (λ s, set_items (map_update i f (items s)) s).

Definition days (ms : Z) : num := ndiv (of_Z ms) (of_Z 86400000).

(** ** Lending *)

Definition lend (protocol asset : string) (amount apy : num) : M LendingPosition :=
  t ← date_now;
  r ← random36;
  t' ← date_now;
  let position := MkLending (stamp "lend_" t r) protocol asset amount apy t' nzero "active" in
  put_item position;;
  saveData;;
  mret position.

Definition getLendingPositions : M (list LendingPosition) :=
  s ← this; mret (js_sort (λ a b, 0 <? l_startDate b - l_startDate a) (map_values (lendingPositions s))).

Definition with_interest (x : num) (p : LendingPosition) : LendingPosition :=
  MkLending (l_id p) (l_protocol p) (l_asset p) (l_amount p) (l_apy p) (l_startDate p) x (l_status p).

Definition calculateLendingInterest (i : string) : M num :=
  s ← this;
  match map_get i (lendingPositions s) with
  | None => mret nzero
  | Some position =>
      t ← date_now;
      let daysLending := days (t - l_startDate position) in
      let interest := nmul (ndiv (ndiv (nmul (l_amount position) (l_apy position)) (of_Z 100)) (of_Z 365)) daysLending in
      change i (with_interest interest);;
      saveData;;
      mret interest
  end.

(** ** Borrowing *)

Definition borrow (protocol bAsset : string) (bAmount : num) (cAsset : string) (cAmount rate : num) : M BorrowPosition :=
  let liqPrice := ndiv (nmul bAmount (lit 15 1)) cAmount in
  let health := ndiv (nmul cAmount (lit 75 2)) bAmount in
  t ← date_now;
  r ← random36;
  t' ← date_now;
  let position := MkBorrow (stamp "borrow_" t r) protocol bAsset bAmount cAsset cAmount rate liqPrice health t' "active" in
  put_item position;;
  saveData;;
  mret position.

Definition getBorrowPositions : M (list BorrowPosition) :=
  s ← this; mret (js_sort (λ a b, 0 <? b_startDate b - b_startDate a) (map_values (borrowPositions s))).

(** ** Liquidity *)

Definition getLiquidityPools : M (list LiquidityPool) :=
  s ← this; mret (js_sort (λ a b, SFltb nzero (nsub (p_apy b) (p_apy a))) (map_values (liquidityPools s))).

Definition with_reserves (a0 a1 : num) (p : LiquidityPool) : LiquidityPool :=
  MkPool (p_id p) (p_protocol p) (p_name p) (token0 p) (token1 p)
    (nadd (token0Reserve p) a0) (nadd (token1Reserve p) a1) (p_apy p) (totalValueLocked p).

Definition addLiquidity (i : string) (a0 a1 : num) : M LiquidityPosition :=
  s ← this;
  if negb (map_has i (liquidityPools s)) then js_throw "Pool not found"
  else
    let tokens := nsqrt (nmul a0 a1) in
    t ← date_now;
    r ← random36;
    t' ← date_now;
    let position := MkLiquidity (stamp "liq_" t r) i a0 a1 tokens t' nzero in
    change i (with_reserves a0 a1);;
    put_item position;;
    saveData;;
    mret position.

Definition getLiquidityPositions : M (list LiquidityPosition) :=
  s ← this; mret (js_sort (λ a b, 0 <? addedAt b - addedAt a) (map_values (liquidityPositions s))).

Definition with_fees (x : num) (p : LiquidityPosition) : LiquidityPosition :=
  MkLiquidity (q_id p) (poolId p) (token0Amount p) (token1Amount p) (lpTokens p) (addedAt p) x.

Definition calculateLiquidityFees (i : string) : M num :=
  s ← this;
  match map_get i (liquidityPositions s) with
  | None => mret nzero
  | Some position =>
      match map_get (poolId position) (liquidityPools s) with
      | None => mret nzero
      | Some pool =>
          t ← date_now;
          let daysProviding := days (t - addedAt position) in
          let fees := nmul (ndiv (ndiv (nmul (lpTokens position) (p_apy pool)) (of_Z 100)) (of_Z 365)) daysProviding in
          change i (with_fees fees);;
          saveData;;
          mret fees
      end
  end.

(** ** The stateless service (defiService.ts) *)

Definition calculateImpermanentLoss (initialRatio currentRatio : num) : num :=
  let ratio := ndiv currentRatio initialRatio in
  nmul (nsub (ndiv (nmul (of_Z 2) (nsqrt ratio)) (nadd (of_Z 1) ratio)) (of_Z 1)) (of_Z 100).

(** No pools and no farms; estimates of zero; every transaction is refused. *)
Definition service_getLiquidityPools : list LiquidityPool := [].
Definition getYieldFarms : list string := [].
Definition estimateSwap : list num := [nzero; nzero; nzero; nzero].
Definition getGasOptimization : list num := [nzero; nzero; nzero].
Definition executeSwap : result string := Throw "DeFi swap execution requires a configured backend.".
Definition service_addLiquidity : result string := Throw "Liquidity provision requires a configured backend.".
Definition removeLiquidity : result string := Throw "Liquidity removal requires a configured backend.".
Definition stakeInFarm : result string := Throw "Farm staking requires a configured backend.".
Definition unstakeFromFarm : result string := Throw "Farm unstaking requires a configured backend.".
Definition claimFarmRewards : result string := Throw "Claiming rewards requires a configured backend.".

(** * Theorems *)

Definition working (e : Env) : Prop := browser e = true ∧ writable e = true.

Definition saved '(MkDeFi l b p q _ _ _ _ : DeFi) : DeFi :=
  MkDeFi l b p q (Some (TJson (map_values l))) (Some (TJson (map_values b)))
    (Some (TJson (map_values p))) (Some (TJson (map_values q))).

Lemma save_positions_run s e : working e → saveData (s, e) = (Ok (), (saved s, e)).
Proof.
  intros [Hb Hw]. unfold saveData, guarded. js_run. cbn [snd]. rewrite Hb. cbn [js_when]. destruct s as [l b p q cl cb cp cq].
  erewrite run_try_Ok; [reflexivity|].
  erewrite run_Ok by (rewrite save_items_run, Hw; reflexivity).
  erewrite run_Ok by (rewrite save_items_run, Hw; reflexivity).
  erewrite run_Ok by (rewrite save_items_run, Hw; reflexivity).
  rewrite save_items_run, Hw. reflexivity.
Qed.

Lemma save_positions_bind {B} (k : () → M B) s e : working e → (saveData ≫= k) (s, e) = k () (saved s, e).
Proof. intros H. by rewrite (run_Ok _ _ _ _ _ (save_positions_run s e H)). Qed.

(** What saving does not touch: the four maps. *)
Definition maps (s : DeFi) := (lendingPositions s, borrowPositions s, liquidityPools s, liquidityPositions s).

Lemma saveData_maps s e : ∃ s', saveData (s, e) = (Ok (), (s', e)) ∧ maps s' = maps s.
Proof.
  destruct (browser e) eqn:Hb.
  - destruct (writable e) eqn:Hw.
    + eexists. split; [by apply save_positions_run|]. by destruct s.
    + exists s. split; [|done]. unfold saveData, guarded. js_run. cbn [snd]. rewrite Hb. cbn [js_when].
      erewrite run_try_Throw; [reflexivity|]. erewrite run_Throw; [reflexivity|]. by rewrite save_items_run, Hw.
  - exists s. split; [|done]. unfold saveData, guarded. js_run. cbn [snd]. by rewrite Hb.
Qed.

(** liquidity for a known pool raises its two reserves by the amounts, leaves every other pool
    alone and records the position; for an unknown pool nothing changes. *)
Theorem addLiquidity_effect i a0 a1 s e :
  match map_get i (liquidityPools s) with
  | None => addLiquidity i a0 a1 (s, e) = (Throw "Pool not found", (s, e))
  | Some pool => ∃ q s' e', addLiquidity i a0 a1 (s, e) = (Ok q, (s', e')) ∧
      map_get i (liquidityPools s') = Some (with_reserves a0 a1 pool) ∧
      (∀ j, j ≠ i → map_get j (liquidityPools s') = map_get j (liquidityPools s)) ∧
      map_get (q_id q) (liquidityPositions s') = Some q ∧
      poolId q = i ∧ token0Amount q = a0 ∧ token1Amount q = a1 ∧
      lendingPositions s' = lendingPositions s ∧ borrowPositions s' = borrowPositions s
  end.
Proof.
  unfold addLiquidity. js_run. cbn [fst snd]. unfold map_has. destruct (map_get i (liquidityPools s)) as [pool|] eqn:Hp; [|done].
  cbn [negb]. js_run. unfold change, put_item. js_run. cbn [fst snd].
  match goal with |- context[(saveData ≫= _) (?x, ?e1)] => destruct (saveData_maps x e1) as (s' & Es & Hm) end.
  rewrite (run_Ok _ _ _ _ _ Es). js_run. destruct s as [l b p q cl cb cp cq]. cbn in Hm, Hp |- *. unfold maps in Hm.
  injection Hm as H1 H2 H3 H4. eexists _, s', _. split; [reflexivity|]. rewrite H1, H2, H3, H4.
  unfold map_update. rewrite Hp. split; [apply map_get_set_eq|].
  split; [intros j Hj; apply map_get_set_ne; congruence|]. split; [apply map_get_set_eq|]. done.
Qed.

(** ** Pools come from the storage only *)

Inductive operation :=
  | Lend (protocol asset : string) (amount apy : num)
  | Interest (i : string)
  | Borrow (protocol bAsset : string) (bAmount : num) (cAsset : string) (cAmount rate : num)
  | AddLiquidity (i : string) (a0 a1 : num)
  | Fees (i : string).

Definition exec (o : operation) : M () :=
  match o with
  | Lend p a x y => lend p a x y;; mret ()
  | Interest i => calculateLendingInterest i;; mret ()
  | Borrow p a x c y z => borrow p a x c y z;; mret ()
  | AddLiquidity i x y => addLiquidity i x y;; mret ()
  | Fees i => calculateLiquidityFees i;; mret ()
  end.

(** A browser whose storage was empty at first, with reloads in between. *)
Inductive reachable : DeFi * Env → Prop :=
  | first_visit e : reachable (constructor (fresh None None None None, e)).2
  | operated o w : reachable w → reachable (exec o w).2
  | reloaded w e' : reachable w →
      reachable (constructor (fresh (ls_lending w.1) (ls_borrow w.1) (ls_pools w.1) (ls_liquidity w.1), e')).2.

(** Neither a pool nor a position in one, in memory or stored. *)
Definition poolless (s : DeFi) : Prop :=
  liquidityPools s = [] ∧ liquidityPositions s = [] ∧
  (ls_pools s = None ∨ ls_pools s = Some (TJson [])) ∧ (ls_liquidity s = None ∨ ls_liquidity s = Some (TJson [])).

Lemma poolless_save : preserves poolless saveData.
Proof.
  unfold saveData, guarded. js_preserve; try done; unfold save_items, write_json; js_preserve; try done.
  all: apply preserves_setItem; intros [l b p q cl cb cp cq] (Hp & Hq & Hcp & Hcq);
    repeat match goal with s : DeFi |- _ => destruct s end; unfold poolless in *; cbn in *; naive_solver.
Qed.

Lemma load_poolless {V} `{Store DeFi V} :
  (∀ s l, poolless s → stored s = Some (TJson l) → poolless (set_items (map_set_all key (items s) l) s)) →
  preserves poolless load_items.
Proof.
  intros HI [s e] Hs. destruct (load_items_cases s e) as (r & s' & -> & [->|(l & E & ->)]); [done|]. by apply HI.
Qed.

Lemma poolless_load : preserves poolless loadData.
Proof.
  unfold loadData, guarded. js_preserve; try done; apply load_poolless;
    intros [l b p q cl cb cp cq] l' (Hp & Hq & Hcp & Hcq) E; unfold poolless in *; cbn in *;
    destruct Hcp, Hcq; simplify_eq; repeat split; (done || (by left) || (by right)).
Qed.

#[local] Hint Resolve poolless_save : js.

Lemma poolless_exec o : preserves poolless (exec o).
Proof.
  destruct o; cbn [exec]; unfold lend, calculateLendingInterest, borrow, addLiquidity, calculateLiquidityFees, put_item, change; js_preserve;
    repeat match goal with H : poolless _ |- _ => destruct H as (Hp & Hq & _); rewrite ?Hp, ?Hq in *; cbn in * end; try done;
    apply preserves_modify; intros x; destruct x; intros (? & ? & ? & ?); by repeat split.
Qed.

(** in a browser that starts with an empty storage there is never a pool, so liquidity can
    never be added and no position in a pool exists. *)
Theorem no_pool_ever w : reachable w →
  (getLiquidityPools w).1 = Ok [] ∧ (getLiquidityPositions w).1 = Ok [] ∧
  ∀ i a0 a1, addLiquidity i a0 a1 w = (Throw "Pool not found", w).
Proof.
  intros Hr. assert (poolless w.1) as (Hp & Hq & _).
  { induction Hr as [e|o w _ IH|w e' _ (_ & _ & H3 & H4)].
    - apply poolless_load. repeat split; by left.
    - by apply poolless_exec.
    - by apply poolless_load. }
  unfold getLiquidityPools, getLiquidityPositions. js_run. rewrite Hp, Hq. split; [done|]. split; [done|].
  intros i a0 a1. destruct w as [s e]. pose proof (addLiquidity_effect i a0 a1 s e) as H. cbn in Hp. by rewrite Hp in H.
Qed.

Lemma no_pool_ever_witness :
  addLiquidity "kc-eth" (of_Z 1) (of_Z 2) (exec (Lend "aave" "KC" (of_Z 5) (of_Z 3)) (constructor (fresh None None None None, demo_env)).2).2 =
  (Throw "Pool not found", (exec (Lend "aave" "KC" (of_Z 5) (of_Z 3)) (constructor (fresh None None None None, demo_env)).2).2).
Proof. exact (proj2 (proj2 (no_pool_ever _ (operated (Lend "aave" "KC" (of_Z 5) (of_Z 3)) _ (first_visit demo_env)))) "kc-eth" (of_Z 1) (of_Z 2)). Defined.
