(* ===== verification/NftManager.v ===== *)
(** * [NFTManagerService] and [NFTService] (apps/web/wallet/src/services/nftManager.ts, nftService.ts)

    Minting, transfers and collections with their stored copy; and the second service, whose
    maps nothing fills. The tail of an identifier is the next text of the random source. *)

From Stdlib Require Import Ascii String.
From S2P Require Import Prelude JsMap JsNumber JsString Store Stamps.

Inductive Rarity := common | uncommon | rare | epic | legendary.
Definition rarity_text (r : Rarity) : string :=
  match r with common => "common" | uncommon => "uncommon" | rare => "rare" | epic => "epic" | legendary => "legendary" end.

Record Attribute := MkAttribute { trait_type : string; attr_value : string }.

Record NFT := MkNFT {
  id : string;
  tokenId : string;
  name : string;
  description : string;
  collection : string;
  image : string;
  owner : string;
  creator : string;
  rarity : Rarity;
  attributes : list Attribute;
  mintedAt : Z;
  lastSale : option (num * Z);
}.

Record MintNFTInput := MkInput {
  in_name : string;
  in_description : string;
  in_collection : string;
  in_image : string;
  in_owner : string;
  in_creator : string;
  in_rarity : Rarity;
  mintPriceKC : num;
  in_attributes : option (list Attribute);
}.

Record NFTManager := MkManager { nfts : jsmap NFT; hasLoaded : bool; ls_nfts : cell (list NFT) }.

#[export] Instance nft_store : Store NFTManager NFT := {|
  key := id;
  items := nfts;
  set_items := λ m s, MkManager m (hasLoaded s) (ls_nfts s);
  stored := ls_nfts;
  set_stored := λ c s, MkManager (nfts s) (hasLoaded s) c;
|}.
#[export] Instance nft_laws : StoreLaws NFTManager NFT.
Proof. by constructor. Qed.

Abbreviation M := (js (NFTManager * Env)).

Definition fresh (c : cell (list NFT)) : NFTManager := MkManager [] false c.
Definition set_loaded (s : NFTManager) : NFTManager := MkManager (nfts s) true (ls_nfts s).

Definition loadNFTs : M () :=
  b ← is_browser;
  s ← this;
  if negb b || hasLoaded s then mret ()
  else
    js_try load_items (λ _, mret ());;
    modify_this set_loaded.

Definition saveNFTs : M () := guarded save_items.
Definition constructor : M () := loadNFTs.

Record Filter := MkFilter { f_collection : option string; f_rarity : option string; f_owner : option string }.

(** A filter that is absent or empty lets everything pass. *)
Definition passes (f : option string) (v : string) : bool :=
  if truthy_str f then bool_decide (f = Some v) else true.

Definition filter_nfts (f : Filter) (l : list NFT) : list NFT :=
  js_filter (λ n, passes (f_owner f) (owner n))
    (js_filter (λ n, passes (f_rarity f) (rarity_text (rarity n)))
      (js_filter (λ n, passes (f_collection f) (collection n)) l)).

Definition newest_first (l : list NFT) : list NFT := js_sort (λ a b, 0 <? mintedAt b - mintedAt a) l.

Definition getNFTs (f : Filter) : M (list NFT) :=
  loadNFTs;; s ← this; mret (newest_first (filter_nfts f (map_values (nfts s)))).

Definition getNFT (i : string) : M (option NFT) := loadNFTs;; s ← this; mret (map_get i (nfts s)).

Definition getCollections : M (list string) :=
  loadNFTs;; s ← this; mret (sort_strings (set_of (collection <$> map_values (nfts s)))).

(** [now.toString(36).toUpperCase()] for a time; twelve digits are enough for every date. *)
Definition digit36 (d : Z) : ascii := ascii_of_nat (Z.to_nat (if d <? 10 then 48 + d else 55 + d)).
Fixpoint digits36 (fuel : nat) (z : Z) (acc : string) : string :=
  match fuel with
  | O => acc
  | S fuel' =>
      let acc' := String (digit36 (z mod 36)) acc in
      if z <? 36 then acc' else digits36 fuel' (z / 36) acc'
  end.
Definition base36 (z : Z) : string := if z <? 0 then "-" +:+ digits36 12 (- z) "" else digits36 12 z "".

Definition default_attributes (price : num) : list Attribute :=
  [MkAttribute "Mint Price" (num_to_string price +:+ " KC"); MkAttribute "Network" "KuberCoin"].

Definition minted (input : MintNFTInput) (now : Z) (r : string) : NFT :=
  let ow := trim (in_owner input) in
  let cr := trim (in_creator input) in
  let img := trim (in_image input) in
  MkNFT (stamp "nft_" now r) ("KC-" +:+ base36 now) (trim (in_name input)) (trim (in_description input))
    (trim (in_collection input)) (if str_eqb img "" then "🖼️" else img) ow (if str_eqb cr "" then ow else cr)
    (in_rarity input)
    (match in_attributes input with Some (a :: l) => a :: l | _ => default_attributes (mintPriceKC input) end)
    now (Some (mintPriceKC input, now)).

Definition mintNFT (input : MintNFTInput) : M NFT :=
  loadNFTs;;
  if str_eqb (trim (in_name input)) "" then js_throw "NFT name is required"
  else if str_eqb (trim (in_collection input)) "" then js_throw "Collection is required"
  else if str_eqb (trim (in_owner input)) "" then js_throw "Owner address is required"
  else if negb (is_finite (mintPriceKC input)) || SFleb (mintPriceKC input) nzero
  then js_throw "Mint price must be greater than zero"
  else
    now ← date_now;
    r ← random36;
    let nft := minted input now r in
    put_item nft;;
    saveNFTs;;
    mret nft.

Definition with_owner (a : string) (n : NFT) : NFT :=
  MkNFT (id n) (tokenId n) (name n) (description n) (collection n) (image n) a (creator n) (rarity n) (attributes n)
    (mintedAt n) (lastSale n).

Definition transferNFT (nftId toAddress : string) : M () :=
  loadNFTs;;
  s ← this;
  if negb (map_has nftId (nfts s)) then js_throw "NFT not found"
  else if str_eqb (trim toAddress) "" then js_throw "Recipient address is required"
  else
    modify_this (λ s, set_items (map_update nftId (with_owner toAddress) (nfts s)) s);;
    saveNFTs.

Record CollectionStats := MkStats { totalNFTs : Z; floorPrice : num; totalVolume : num; owners : Z }.

Definition stats_of (l : list NFT) : CollectionStats :=
  let prices := omap (λ n, fst <$> lastSale n) l in
  MkStats (Z.of_nat (length l))
    (if (0 <? length prices)%nat then foldl nmin (S754_infinity false) prices else nzero)
    (sum_by (λ p, p) prices) (Z.of_nat (length (set_of (owner <$> l)))).

Definition getCollectionStats (c : string) : M CollectionStats :=
  loadNFTs;; l ← getNFTs (MkFilter (Some c) None None); mret (stats_of l).

(** ** [NFTService]: filters over maps that stay empty *)

Record ServiceNFT := MkServiceNFT { v_id : string; v_collection : string; v_rarity : num; v_floorPrice : num }.
Record NFTService := MkNFTService { v_nfts : jsmap ServiceNFT; v_collections : jsmap string }.
Definition service_constructor : NFTService := MkNFTService [] [].

Definition getAllNFTs (s : NFTService) : list ServiceNFT := map_values (v_nfts s).
Definition service_getNFT (s : NFTService) (i : string) : option ServiceNFT := map_get i (v_nfts s).
Definition service_getCollections (s : NFTService) : list string := map_values (v_collections s).
Definition filterNFTs (s : NFTService) (c : option string) (minRarity maxPrice : option num) : list ServiceNFT :=
  js_filter (λ n, match maxPrice with Some m => SFleb (v_floorPrice n) m | None => true end)
    (js_filter (λ n, match minRarity with Some m => SFleb m (v_rarity n) | None => true end)
      (js_filter (λ n, passes c (v_collection n)) (getAllNFTs s))).
Definition calculateRarity (n : ServiceNFT) : num := nzero.
Definition sendNFT (s : NFTService) (i toAddress : string) : result string :=
  if map_has i (v_nfts s) then Throw "NFT transfers require a configured NFT backend." else Throw "NFT not found".
Definition listForSale (s : NFTService) (i : string) (price : num) : result bool :=
  if map_has i (v_nfts s) then Throw "NFT marketplace integration is not configured." else Throw "NFT not found".

(** * Theorems *)

(** What every token of the service has. *)
Definition listed (n : NFT) : Prop :=
  trim (name n) ≠ "" ∧ trim (collection n) ≠ "" ∧ trim (owner n) ≠ "" ∧
  ∃ p t, lastSale n = Some (p, t) ∧ is_finite p = true ∧ SFleb p nzero = false.

Definition all_listed (s : NFTManager) : Prop := map_all (λ _, listed) (nfts s) ∧ cell_all listed (ls_nfts s).

Inductive operation :=
  | Mint (input : MintNFTInput) | Transfer (i a : string) | Look (f : Filter) | Stats (c : string).
Definition exec (o : operation) : M () :=
  match o with
  | Mint input => mintNFT input;; mret ()
  | Transfer i a => transferNFT i a
  | Look f => getNFTs f;; mret ()
  | Stats c => getCollectionStats c;; mret ()
  end.

(** A browser with an empty storage, operations, and reloads with any storage failures. *)
Inductive reachable : NFTManager * Env → Prop :=
  | first_visit e : reachable (constructor (fresh None, e)).2
  | operated o w : reachable w → reachable (exec o w).2
  | reloaded w e' : reachable w → reachable (constructor (fresh (ls_nfts w.1), e')).2.

Lemma listed_load_items : preserves all_listed load_items.
Proof.
  intros [s e] [Hm Hc]. destruct (load_items_cases s e) as (r & s' & -> & [->|(l & E & ->)]); [done|].
  cbn in *. rewrite E in Hc. split; cbn; [|by rewrite E]. by apply map_all_set_all_list.
Qed.
#[local] Hint Resolve listed_load_items : js.

Lemma listed_load : preserves all_listed loadNFTs.
Proof. unfold loadNFTs. js_preserve; done. Qed.

Lemma listed_save : preserves all_listed saveNFTs.
Proof.
  intros [s e] [Hm Hc]. unfold saveNFTs. rewrite guarded_save_run. cbn. unfold guarded_result.
  destruct (_ && _); [|done]. split; [done|]. cbn. unfold map_values. by apply Forall_fmap.
Qed.
#[local] Hint Resolve listed_load listed_save : js.

Lemma minted_listed input now r : trim (in_name input) ≠ "" → trim (in_collection input) ≠ "" → trim (in_owner input) ≠ "" →
  is_finite (mintPriceKC input) = true → SFleb (mintPriceKC input) nzero = false → listed (minted input now r).
Proof. intros Hn Hc Ho Hf Hp. unfold listed, minted. cbn [name collection owner lastSale]. rewrite !trim_idem. eauto 10. Qed.

Lemma listed_mint input : preserves all_listed (mintNFT input).
Proof.
  unfold mintNFT, put_item. js_preserve. apply preserves_modify. intros s [Hm Hc]. split; [|done].
  apply map_all_set; [|done]. apply minted_listed; try by apply str_eqb_false.
  all: apply orb_false_iff in Heqb2 as [H1%negb_false_iff H2]; done.
Qed.

Lemma listed_transfer i a : preserves all_listed (transferNFT i a).
Proof.
  unfold transferNFT. js_preserve. apply preserves_modify. intros s' [Hm Hc]. split; [|done].
  apply map_all_update; [|done]. intros n (Hn & Hcol & _ & Hp). split; [done|]. split; [done|]. split; [|done].
  by apply str_eqb_false.
Qed.
#[local] Hint Resolve listed_mint listed_transfer : js.

(** C39: whatever is minted and transferred, and however often the page is reloaded, every token
    has a name, a collection and an owner that are not blank, and a finite positive price. *)
Theorem tokens_stay_listed w k n : reachable w → map_get k (nfts w.1) = Some n → listed n.
Proof.
  intros Hr Hn. assert (all_listed w.1) as [Hm _]; [|exact (map_all_get _ _ _ _ Hm Hn)].
  clear Hn. induction Hr as [e|o w _ IH|w e' _ [_ IH]].
  - apply listed_load. split; [apply map_all_nil|done].
  - assert (preserves all_listed (exec o)) as Ho; [|by apply Ho].
    destruct o; cbn [exec]; unfold getCollectionStats, getNFTs; js_preserve.
  - apply listed_load. split; [apply map_all_nil|done].
Qed.

Definition demo_input : MintNFTInput := MkInput " Kuber " "" "Art" "" "kc1me" "" rare (of_Z 3) None.
Definition demo_state : NFTManager * Env := (exec (Mint demo_input) (constructor (fresh None, demo_env)).2).2.

Lemma tokens_stay_listed_witness : ∃ n, map_get (stamp "nft_" (clock demo_env 0) (entropy demo_env 0)) (nfts demo_state.1) = Some n ∧ listed n.
Proof.
  assert (∃ n, map_get (stamp "nft_" (clock demo_env 0) (entropy demo_env 0)) (nfts demo_state.1) = Some n) as [n Hn]
    by (eexists; vm_compute; reflexivity).
  exists n. split; [exact Hn|]. refine (tokens_stay_listed demo_state _ n _ Hn). apply operated, first_visit.
Defined.

(** A transfer checks the trimmed address and stores the address as given. *)
Lemma transfer_keeps_blanks : ∃ n,
  map_get (stamp "nft_" (clock demo_env 0) (entropy demo_env 0)) (nfts (exec (Transfer (stamp "nft_" (clock demo_env 0) (entropy demo_env 0)) " kc1you ") demo_state).2.1) = Some n ∧
  owner n = " kc1you ".
Proof. eexists. split; vm_compute; reflexivity. Qed.
