(* ===== verification/NodeApi.v ===== *)
(** * The wallet's node client (apps/web/wallet/src/services/api.ts)

    JSON-RPC calls over [fetch], which is the parameter of [NodeProxy]: what it gives for a
    request. Replies are JSON values: the interfaces of the source are erased when it runs.
    [now] is the time that becomes the identifier of the request. *)

From Stdlib Require Import Ascii String.
From S2P Require Import Prelude JsMap JsNumber JsString Json WalletRpc NodeProxy.

Section Api.
Context (net : Net) (API_BASE_URL bad_json : string).

Definition rpc_request (now : Z) (m : string) (params : list json) : Fetch :=
  MkFetch API_BASE_URL "POST" [("Content-Type", "application/json")]
    (Some (JObj [("jsonrpc", JStr "2.0"); ("id", JNum (of_Z now)); ("method", JStr m); ("params", JArr params)])).

(** The text of a property in a template. *)
Definition shown_field (k : string) (j : json) : string :=
  match field k j with Some v => to_text v | None => "undefined" end.

(** An error is [inl]: its message, if it is an [Error]. The result may be undefined. *)
Definition rpcCall (now : Z) (m : string) (params : list json) : option string + option json :=
  match fetch net (rpc_request now m params) with
  | Fails e => inl e
  | Replies st statusText _ parsed =>
      if negb (ok_status st) then inl (Some ("HTTP " +:+ pretty st +:+ ": " +:+ statusText))
      else
        match parsed with
        | None => inl (Some bad_json)
        | Some JNull => inl (Some "Cannot read properties of null (reading 'error')")
        | Some data =>
            match field "error" data with
            | Some e =>
                if truthy_json e
                then inl (Some ("RPC Error " +:+ shown_field "code" e +:+ ": " +:+ shown_field "message" e))
                else inr (field "result" data)
            | None => inr (field "result" data)
            end
        end
  end.

(** An object literal in a list of parameters. *)
Definition JInt (z : Z) : json := JNum (of_Z z).

Definition getBlockchainInfo now := rpcCall now "getblockchaininfo" [].
Definition getBlock now (hashOrHeight : json) (verbosity : Z) := rpcCall now "getblock" [hashOrHeight; JInt verbosity].
Definition getBlockHash now (height : Z) := rpcCall now "getblockhash" [JInt height].
Definition getBlockCount now := rpcCall now "getblockcount" [].
Definition getBestBlockHash now := rpcCall now "getbestblockhash" [].
Definition getRawTransaction now (txid : string) (verbose : bool) := rpcCall now "getrawtransaction" [JStr txid; JBool verbose].
Definition sendRawTransaction now (hexstring : string) := rpcCall now "sendrawtransaction" [JStr hexstring].
Definition decodeRawTransaction now (hexstring : string) := rpcCall now "decoderawtransaction" [JStr hexstring].
Definition getMempoolInfo now := rpcCall now "getmempoolinfo" [].
Definition getRawMempool now (verbose : bool) := rpcCall now "getrawmempool" [JBool verbose].
Definition getMempoolEntry now (txid : string) := rpcCall now "getmempoolentry" [JStr txid].
Definition getPeerInfo now := rpcCall now "getpeerinfo" [].
Definition getNetworkInfo now := rpcCall now "getnetworkinfo" [].
Definition getConnectionCount now := rpcCall now "getconnectioncount" [].

(** The addresses are sent only if there are any. *)
Definition listUnspent now (minconf maxconf : Z) (addresses : option (list string)) :=
  rpcCall now "listunspent" ([JInt minconf; JInt maxconf] ++
    match addresses with Some (a :: l) => [JArr (JStr <$> a :: l)] | _ => [] end)%list.

Definition getMiningInfo now := rpcCall now "getmininginfo" [].
Definition getNetworkHashPS now (nblocks height : Z) := rpcCall now "getnetworkhashps" [JInt nblocks; JInt height].
Definition estimateSmartFee now (confTarget : Z) := rpcCall now "estimatesmartfee" [JInt confTarget].
Definition validateAddress now (address : string) := rpcCall now "validateaddress" [JStr address].
Definition getChainTips now := rpcCall now "getchaintips" [].
Definition listTransactions now (label : string) (count skip : Z) (includeWatchOnly : bool) :=
  rpcCall now "listtransactions" [JStr label; JInt count; JInt skip; JBool includeWatchOnly].
Definition getUptime now := rpcCall now "uptime" [].
Definition getMemoryInfo now (mode : string) := rpcCall now "getmemoryinfo" [JStr mode].
Definition getNewAddress now (label : string) := rpcCall now "getnewaddress" [JStr label].
Definition importPrivKey now (privkey label : string) (rescan : bool) :=
  rpcCall now "importprivkey" [JStr privkey; JStr label; JBool rescan].

Record Input := MkInput { in_txid : string; in_vout : Z; in_sequence : option Z }.
Definition input_json (i : Input) : json :=
  obj [("txid", Some (JStr (in_txid i))); ("vout", Some (JInt (in_vout i))); ("sequence", JInt <$> in_sequence i)].

(** The outputs are an object: addresses in the order of its properties. *)
Definition createRawTransaction now (inputs : list Input) (outputs : jsmap num) :=
  rpcCall now "createrawtransaction" [JArr (input_json <$> inputs); JObj ((λ kv, (kv.1, JNum kv.2)) <$> object_order outputs)].
Definition signRawTransactionWithWallet now (hexstring : string) := rpcCall now "signrawtransactionwithwallet" [JStr hexstring].
Definition getWalletInfo now := rpcCall now "getwalletinfo" [].
Definition listAddressGroupings now := rpcCall now "listaddressgroupings" [].
Definition dumpPrivKey now (address : string) := rpcCall now "dumpprivkey" [JStr address].

(** * Theorems *)

(** The node answered with success and without an error. *)
Definition succeeds (q : Fetch) (r : option json) : Prop := ∃ st t raw data,
  fetch net q = Replies st t raw (Some data) ∧ ok_status st = true ∧ data ≠ JNull ∧
  truthy (field "error" data) = false ∧ r = field "result" data.

(** a call gives a result exactly when the node's answer has a status of success, is JSON
    other than null and has no error; the result is the answer's. *)
Theorem rpcCall_result now m params r : rpcCall now m params = inr r ↔ succeeds (rpc_request now m params) r.
Proof.
  unfold rpcCall, succeeds. split.
  - destruct (fetch net _) as [e|st t raw parsed]; [done|]. destruct (ok_status st) eqn:Hst; [|done]. cbn [negb].
    destruct parsed as [data|]; [|done]. intros H. exists st, t, raw, data. split; [done|]. split; [done|].
    destruct data; try done; cbn [field] in *; try (by injection H as <-).
    unfold truthy. destruct (map_get "error" l) as [e|]; [destruct (truthy_json e)|]; try done; by injection H as <-.
  - intros (st & t & raw & data & -> & -> & Hn & He & ->). cbn [negb]. unfold truthy in He.
    destruct data; try done; cbn [field] in *; try done. by destruct (map_get "error" l) as [e|]; [rewrite He|].
Qed.
End Api.

(** Different addresses give different parameters, and no list is sent for none. *)
Lemma listUnspent_parameters now url minconf maxconf l :
  payload (rpc_request url now "listunspent" ([JInt minconf; JInt maxconf] ++
    match l with Some (a :: l') => [JArr (JStr <$> a :: l')] | _ => [] end)%list) =
  Some (JObj [("jsonrpc", JStr "2.0"); ("id", JNum (of_Z now)); ("method", JStr "listunspent");
    ("params", JArr (match l with Some (a :: l') => [JInt minconf; JInt maxconf; JArr (JStr <$> a :: l')]
                     | _ => [JInt minconf; JInt maxconf] end))]).
Proof. by destruct l as [[|a l]|]. Qed.
