(* ===== verification/ContractInteraction.v ===== *)
(** * [ContractInteractionService] and [ABIParser] (apps/web/wallet/src/services/contractInteraction.ts,
      abiParser.ts)

    The stored list of contracts, and the reading and checking of contract interfaces. An
    interface is a JSON value: what the source declares of it is erased when it runs. *)

From Stdlib Require Import Ascii String.
From S2P Require Import Prelude JsMap JsNumber JsString Json Store Stamps Validation WalletRpc.

(** ** Contracts and calls *)

Record SmartContract := MkContract {
  id : string; address : string; name : string; abi : list json; network : string; addedAt : Z;
}.
Inductive CallStatus := pending | success | failed.
Record ContractCall := MkCall {
  c_id : string; contractId : string; functionName : string; c_params : list json; c_result : option json;
  gasUsed : option num; timestamp : Z; txHash : option string; status : CallStatus;
}.

Record ContractInteraction := MkService {
  contracts : jsmap SmartContract;
  calls : jsmap ContractCall;
  ls_contracts : cell (list SmartContract);
  ls_calls : cell (list ContractCall);
}.

#[export] Instance contract_store : Store ContractInteraction SmartContract := {|
  key := id; items := contracts; stored := ls_contracts;
  set_items := λ m s, MkService m (calls s) (ls_contracts s) (ls_calls s);
  set_stored := λ c s, MkService (contracts s) (calls s) c (ls_calls s);
|}.
#[export] Instance contract_laws : StoreLaws ContractInteraction SmartContract.
Proof. by constructor. Qed.
#[export] Instance call_store : Store ContractInteraction ContractCall := {|
  key := c_id; items := calls; stored := ls_calls;
  set_items := λ m s, MkService (contracts s) m (ls_contracts s) (ls_calls s);
  set_stored := λ c s, MkService (contracts s) (calls s) (ls_contracts s) c;
|}.
#[export] Instance call_laws : StoreLaws ContractInteraction ContractCall.
Proof. by constructor. Qed.

Abbreviation M := (js (ContractInteraction * Env)).

Definition fresh cc ck : ContractInteraction := MkService [] [] cc ck.

Definition loadContracts : M () := guarded (load_items (V:=SmartContract)).
Definition saveContracts : M () := guarded (save_items (V:=SmartContract)).
Definition loadCalls : M () := guarded (load_items (V:=ContractCall)).
Definition saveCalls : M () := guarded (save_items (V:=ContractCall)).
Definition constructor : M () := loadContracts;; loadCalls.

Definition addContract (addr nm : string) (interface : list json) (net : string) : M SmartContract :=
  t ← date_now;
  r ← random36;
  t' ← date_now;
  let contract := MkContract (stamp "contract_" t r) addr nm interface net t' in
  put_item contract;;
  saveContracts;;
  mret contract.

Definition getContracts : M (list SmartContract) :=
  s ← this; mret (js_sort (λ a b, 0 <? addedAt b - addedAt a) (map_values (contracts s))).
Definition getContract (i : string) : M (option SmartContract) := s ← this; mret (map_get i (contracts s)).
Definition removeContract (i : string) : M () :=
  modify_this (λ s, set_items (map_delete i (contracts s)) s);;
  saveContracts.

Definition readContract (i f : string) (ps : list json) : M ContractCall :=
  js_throw "Contract read requires a configured RPC endpoint.".
Definition writeContract (i f : string) (ps : list json) : M ContractCall :=
  js_throw "Contract write requires a configured RPC endpoint.".

Definition estimateGas (func : json) (ps : list json) : Z :=
  21000 + (if str_eqb (default "" (as_string (field "stateMutability" func))) "payable" then 10000 else 0)
  + Z.of_nat (length ps) * 5000.

Definition getCalls (i : option string) : M (list ContractCall) :=
  s ← this;
  let l := map_values (calls s) in
  let l := if truthy_str i then js_filter (λ c, bool_decide (i = Some (contractId c))) l else l in
  mret (js_sort (λ a b, 0 <? timestamp b - timestamp a) l).

Definition service_parseABI (abiJson : text json) : result json :=
  match abiJson with TJson j => Ok j | TRaw _ => Throw "Invalid ABI JSON" end.

(** ** [ABIParser] *)

(** [item.type === t] *)
Definition has_type (t : string) (item : json) : bool :=
  match field "type" item with Some (JStr s) => str_eqb s t | _ => false end.

(** Reading a property of null throws, and so does iterating over what is no list. *)
Fixpoint sort_items (l : list json) : option (list json * list json) :=
  match l with
  | [] => Some ([], [])
  | JNull :: _ => None
  | item :: l' =>
      '(fs, es) ← sort_items l';
      Some (if has_type "function" item || has_type "constructor" item then (item :: fs, es)
            else if has_type "event" item then (fs, item :: es) else (fs, es))
  end.

Definition parseABI (abiJson : text json) : result (list json * list json) :=
  match abiJson with
  | TJson (JArr l) => match sort_items l with Some r => Ok r | None => Throw "Invalid ABI JSON" end
  | TJson (JStr _) => Ok ([], [])
  | _ => Throw "Invalid ABI JSON"
  end.

Record ABIParameter := MkParameter { p_name : string; p_type : string }.
Record ABIFunction := MkFunction { f_name : string; inputs : list ABIParameter }.

Definition generateFunctionSignature (func : ABIFunction) : string :=
  f_name func +:+ "(" +:+ join "," (p_type <$> inputs func) +:+ ")".
Definition generateEventSignature (nm : string) (ps : list ABIParameter) : string :=
  nm +:+ "(" +:+ join "," (p_type <$> ps) +:+ ")".

Inductive BaseType := Address | Uint | Int | Bool | Str | Bytes | Array | Tuple.

Definition getParameterType (t : string) : BaseType :=
  if startsWith "address" t then Address
  else if startsWith "uint" t then Uint
  else if startsWith "int" t then Int
  else if str_eqb t "bool" then Bool
  else if str_eqb t "string" then Str
  else if startsWith "bytes" t then Bytes
  else if endsWith "[]" t then Array
  else if startsWith "tuple" t then Tuple
  else Bytes.

(** [/^0x[0-9a-fA-F]{40}$/] *)
Definition address_text (s : string) : bool :=
  match s with
  | String "0" (String "x" h) => (String.length h =? 40)%nat && str_all is_hex h
  | _ => false
  end.

(** [None] is undefined. *)
Definition validateParameterValue (t : string) (v : option json) : bool :=
  match getParameterType t with
  | Address => match v with Some (JStr s) => address_text s | _ => false end
  | Uint | Int => negb (is_nan (Number v))
  | Bool => match v with Some (JBool _) => true | Some (JStr s) => str_eqb s "true" || str_eqb s "false" | _ => false end
  | Str => match v with Some (JStr _) => true | _ => false end
  | Array => match v with Some (JArr _) => true | _ => false end
  | Bytes | Tuple => true
  end.

(** The first parameter whose value does not fit. *)
Fixpoint misfit (ps : list ABIParameter) (vs : list json) : option ABIParameter :=
  match ps, vs with
  | p :: ps', v :: vs' => if validateParameterValue (p_type p) (Some v) then misfit ps' vs' else Some p
  | _, _ => None
  end.

Definition encodeParameters (func : ABIFunction) (values : list json) : result string :=
  if negb (length values =? length (inputs func))%nat then Throw "Parameter count mismatch"
  else match misfit (inputs func) values with
       | Some p => Throw ("Invalid value for parameter " +:+ p_name p)
       | None => Throw "ABI encoding requires a real ABI encoder (e.g., ethers.js)."
       end.

Definition decodeParameters (outputs : list ABIParameter) (data : string) : result (list json) :=
  if str_eqb data "" then Throw "No data to decode"
  else Throw "ABI decoding requires a real ABI decoder (e.g., ethers.js).".

(** * Theorems *)

Lemma prefix_split p s : startsWith p s = true → ∃ u, s = p +:+ u.
Proof.
  revert s. induction p as [|c p IH]; intros s H; [by exists s|]. destruct s as [|d s]; [done|]. cbn in H.
  apply andb_true_iff in H as [E H]. destruct (IH s H) as [u ->]. apply Ascii.eqb_eq in E as ->. by exists u.
Qed.

(** the type of a list of addresses is taken for the type of one: every list is refused, and a
    single address is accepted in its place. *)
Theorem address_lists_refused t l s : startsWith "address" t = true → address_text s = true →
  validateParameterValue (t +:+ "[]") (Some (JArr l)) = false ∧
  validateParameterValue (t +:+ "[]") (Some (JStr s)) = true.
Proof. intros [u ->]%prefix_split Hs. split; [reflexivity|exact Hs]. Qed.

Definition demo_address : string := "0x" +:+ "00112233445566778899aAbBcCdDeEfF00112233".

Lemma address_lists_refused_witness :
  validateParameterValue "address[]" (Some (JArr [JStr demo_address])) = false.
Proof. exact (proj1 (address_lists_refused "address" [JStr demo_address] demo_address eq_refl eq_refl)). Defined.

(** Nothing is ever encoded. *)
Lemma encoding_fails func values out : encodeParameters func values ≠ Ok out.
Proof. unfold encodeParameters. repeat case_match; discriminate. Qed.

(** ** The stored contracts *)

Definition working (e : Env) : Prop := browser e = true ∧ writable e = true.

Inductive operation := Add (addr nm : string) (interface : list json) (net : string) | Remove (i : string).
Definition exec (o : operation) : M () :=
  match o with
  | Add a n l net => addContract a n l net;; mret ()
  | Remove i => removeContract i
  end.

Definition run (os : list operation) (w : ContractInteraction * Env) : ContractInteraction * Env :=
  foldl (λ w o, (exec o w).2) w os.

Lemma exec_mirrored o s e : working e → mirrored (V:=SmartContract) s → ∃ s' e',
  (exec o (s, e)).2 = (s', e') ∧ mirrored (V:=SmartContract) s' ∧ working e'.
Proof.
  intros He Hm. pose proof He as [Hb Hw]. destruct o; cbn [exec].
  - unfold addContract, saveContracts, put_item. js_run. erewrite guarded_save_bind by done. js_run. cbn [fst snd].
    eexists _, _. split; [reflexivity|]. split; [|done]. by apply mirrored_put.
  - unfold removeContract, saveContracts. js_run. rewrite guarded_save_run. cbn [fst snd].
    eexists _, _. split; [reflexivity|]. split; [|done]. unfold guarded_result. rewrite Hb, Hw. exact (mirrored_delete (V:=SmartContract) s i Hm).
Qed.

Lemma calls_keep_contracts w : contracts (loadCalls w).2.1 = contracts w.1.
Proof.
  destruct w as [s e]. unfold loadCalls. destruct (browser e) eqn:Hb.
  - rewrite guarded_load_run by done. cbn. destruct (load_items_cases (V:=ContractCall) s e) as (r & s' & -> & [->|(l & _ & ->)]); done.
  - unfold guarded. js_run. by rewrite Hb.
Qed.

(** where the storage works, a reload of the page finds the contracts that were added and
    not removed, in their order. *)
Theorem contracts_survive_reload os s e : working e → mirrored (V:=SmartContract) s →
  let w := run os (s, e) in
  contracts (constructor (fresh (ls_contracts w.1) (ls_calls w.1), w.2)).2.1 = contracts w.1.
Proof.
  intros He Hm. cbv zeta. assert (mirrored (V:=SmartContract) (run os (s, e)).1 ∧ working (run os (s, e)).2) as [Hm' [Hb _]].
  { unfold run. revert s e He Hm. induction os as [|o os IH]; intros s e He Hm; [done|]. cbn [foldl].
    destruct (exec_mirrored o s e He Hm) as (s' & e' & -> & Hm' & He'). by apply IH. }
  destruct (run os (s, e)) as [s1 e1]. cbn [fst snd] in *. unfold constructor, loadContracts.
  erewrite run_Ok by (by apply guarded_load_run). rewrite calls_keep_contracts. cbn [fst].
  exact (mirrored_reload (V:=SmartContract) s1 (fresh (ls_contracts s1) (ls_calls s1)) e1 Hm' eq_refl eq_refl).
Qed.

Lemma contracts_survive_reload_witness :
  let w := run [Add "0xa" "Token" [] "main"; Add "0xb" "Vault" [] "main"] (fresh None None, demo_env) in
  contracts (constructor (fresh (ls_contracts w.1) (ls_calls w.1), w.2)).2.1 = contracts w.1.
Proof.
  apply (contracts_survive_reload [Add "0xa" "Token" [] "main"; Add "0xb" "Vault" [] "main"] (fresh None None) demo_env).
  - by split.
  - split; [apply keyed_nil|done].
Defined.
