(* ===== verification/ExplorerSocket.v ===== *)
(** * The explorer's live connection (apps/web/explorer/app/components/ExplorerClient.tsx,
      [useExplorerWebSocket])

    Each run of the effect makes a closure with a socket and two timers of its own; React runs
    the cleanup of the last one before the next and when the component goes away. The host opens
    and closes sockets, delivers messages and fires timers in any order, to closures that are
    cleaned up as well: the hook is a transition system over all of its closures. The effect runs
    again after every rendering, since the caller passes a new [onActivity] each time. *)

From Stdlib Require Import Ascii String.
From S2P Require Import Prelude JsMap JsNumber JsString Json WebSocketService NlpParser.

(** ** The log of message types *)

(** [s.split(/\s+/).filter(Boolean)] *)
Definition words (s : string) : list string := js_filter (λ w, negb (str_eqb w "")) (split_spaces false s).

Definition clipMessageTokens (prev token : string) (maxTokens : nat) : string :=
  let next := if str_eqb prev "" then token else prev +:+ " " +:+ token in
  join " " (slice_last maxTokens (words next)).

(** ** Where the socket connects: the page's override, the session's copy, the build's setting *)

Record Source := MkSource { WS_URL : option string; session : option string; writable_session : bool; envUrl : option string }.

(** A text, if there is one and it is not empty. *)
Definition text (o : option string) : option string := match o with Some s => if str_eqb s "" then None else Some s | None => None end.

(** The address, and the session's copy afterwards. *)
Definition resolveExplorerWsUrl (g : Source) : option string * option string :=
  match text (WS_URL g) with
  | Some u => (Some u, if writable_session g then Some u else session g)
  | None => (match text (session g) with Some u => Some u | None => text (envUrl g) end, session g)
  end.

(** ** Closures, sockets and timers *)

Inductive Payload := PSubscribe (channel : string) | PPing.

Record Sock := MkSock { owner : nat; state : ReadyState; outbox : list Payload }.

Inductive Kind := PingEvery | ReconnectIn.
#[export] Instance Kind_eq_dec : EqDecision Kind.
Proof. solve_decision. Defined.
Record Pending := MkPending { timer : nat; of_effect : nat; task : Kind }.

(** The variables of one run of the effect. *)
Record Effect := MkEffect {
  ws : option nat;
  pingTimer : option nat;
  reconnectTimer : option nat;
  lastPingSentAt : option Z;
  subBlocks : bool;
  subTransactions : bool;
}.

(** The closures, and what the host keeps for them. *)
Record Machine := MkMachine {
  effects : list Effect;
  active : option nat;
  sockets : list Sock;
  timers : list Pending;
  next_timer : nat;
}.

(** The refs and the state that React shows. *)
Record View := MkView {
  lastMessageRef : string;
  retryCountRef : Z;
  wsEnabled : bool;
  wsConnected : bool;
  wsLastMessage : string;
  wsRetryCount : Z;
  wsLatencyMs : Z;
  activity : nat;
}.

Record Hook := MkHook { machine : Machine; view : View }.

Definition start : Hook := MkHook (MkMachine [] None [] [] 0) (MkView "" 0 false false "" 0 0 0).

Definition on_machine (f : Machine → Machine) (s : Hook) : Hook := MkHook (f (machine s)) (view s).
Definition on_view (f : View → View) (s : Hook) : Hook := MkHook (machine s) (f (view s)).

(** The [set...] functions of the component, [retryCountRef.current += 1] with its copy, and the
    caller's [onActivity]. *)
Definition set_enabled b v := MkView (lastMessageRef v) (retryCountRef v) b (wsConnected v) (wsLastMessage v) (wsRetryCount v) (wsLatencyMs v) (activity v).
Definition set_connected b v := MkView (lastMessageRef v) (retryCountRef v) (wsEnabled v) b (wsLastMessage v) (wsRetryCount v) (wsLatencyMs v) (activity v).
Definition set_lastMessage x v := MkView x (retryCountRef v) (wsEnabled v) (wsConnected v) x (wsRetryCount v) (wsLatencyMs v) (activity v).
Definition set_retryCount x v := MkView (lastMessageRef v) (retryCountRef v) (wsEnabled v) (wsConnected v) (wsLastMessage v) x (wsLatencyMs v) (activity v).
Definition retry v := MkView (lastMessageRef v) (retryCountRef v + 1) (wsEnabled v) (wsConnected v) (wsLastMessage v) (retryCountRef v + 1) (wsLatencyMs v) (activity v).
Definition set_latency x v := MkView (lastMessageRef v) (retryCountRef v) (wsEnabled v) (wsConnected v) (wsLastMessage v) (wsRetryCount v) x (activity v).
Definition onActivity v := MkView (lastMessageRef v) (retryCountRef v) (wsEnabled v) (wsConnected v) (wsLastMessage v) (wsRetryCount v) (wsLatencyMs v) (S (activity v)).

Definition pushLastMessageToken (token : string) (v : View) : View :=
  set_lastMessage (clipMessageTokens (lastMessageRef v) token 6) v.

Definition set_effects x m := MkMachine x (active m) (sockets m) (timers m) (next_timer m).
Definition set_active x m := MkMachine (effects m) x (sockets m) (timers m) (next_timer m).
Definition set_sockets x m := MkMachine (effects m) (active m) x (timers m) (next_timer m).
Definition set_timers x m := MkMachine (effects m) (active m) (sockets m) x (next_timer m).

Definition change (i : nat) (f : Effect → Effect) (m : Machine) : Machine := set_effects (alter f i (effects m)) m.
Definition with_ws x e := MkEffect x (pingTimer e) (reconnectTimer e) (lastPingSentAt e) (subBlocks e) (subTransactions e).
Definition with_ping x e := MkEffect (ws e) x (reconnectTimer e) (lastPingSentAt e) (subBlocks e) (subTransactions e).
Definition with_reconnect x e := MkEffect (ws e) (pingTimer e) x (lastPingSentAt e) (subBlocks e) (subTransactions e).
Definition with_sentAt x e := MkEffect (ws e) (pingTimer e) (reconnectTimer e) x (subBlocks e) (subTransactions e).

Definition closure (m : Machine) (i : nat) : Effect := default (MkEffect None None None None false false) (effects m !! i).

(** [clearTimeout], [clearInterval] of a variable that may be null. *)
Definition clear (t : option nat) (m : Machine) : Machine :=
  match t with Some n => set_timers (js_filter (λ p, negb (timer p =? n)%nat) (timers m)) m | None => m end.

Definition set_timer (i : nat) (k : Kind) (m : Machine) : Machine :=
  MkMachine (effects m) (active m) (sockets m) (timers m ++ [MkPending (next_timer m) i k]) (S (next_timer m)).

Definition clearTimers (i : nat) (m : Machine) : Machine :=
  change i (λ e, with_reconnect None (with_ping None e))
    (clear (reconnectTimer (closure m i)) (clear (pingTimer (closure m i)) m)).

Definition socket_state (m : Machine) (k : nat) : option ReadyState := state <$> sockets m !! k.

Definition sendJson (w : option nat) (p : Payload) (m : Machine) : Machine :=
  match w with
  | Some k => if bool_decide (socket_state m k = Some OPEN)
              then set_sockets (alter (λ x, MkSock (owner x) (state x) (outbox x ++ [p])) k (sockets m)) m else m
  | None => m
  end.

Definition set_state (k : nat) (st : ReadyState) (m : Machine) : Machine :=
  set_sockets (alter (λ x, MkSock (owner x) st (outbox x)) k (sockets m)) m.

Definition closeWebSocket (w : option nat) (m : Machine) : Machine :=
  match w with
  | Some k => match socket_state m k with Some CONNECTING | Some OPEN => set_state k CLOSING m | _ => m end
  | None => m
  end.

(** ** The handlers of the closure [i] *)

Definition sendSubscriptions (i : nat) (m : Machine) : Machine :=
  let e := closure m i in
  let m1 := if subBlocks e then sendJson (ws e) (PSubscribe "blocks") m else m in
  if subTransactions e then sendJson (ws e) (PSubscribe "transactions") m1 else m1.

Definition sendPing (i : nat) (now : Z) (m : Machine) : Machine :=
  sendJson (ws (closure m i)) PPing (change i (with_sentAt (Some now)) m).

Definition start_ping (i : nat) (m : Machine) : Machine :=
  change i (with_ping (Some (next_timer m))) (set_timer i PingEvery m).

Definition handleOpen (i : nat) (s : Hook) : Hook :=
  on_machine (λ m, start_ping i (sendSubscriptions i m))
    (on_view (λ v, pushLastMessageToken "connected" (set_connected true v)) s).

(** [msg?.type] *)
Definition type_of (msg : json) : option json := field "type" msg.

(** The data of the event, if it is JSON. *)
Definition handleMessage (i : nat) (event_data : option json) (now : Z) (s : Hook) : Hook :=
  match event_data with
  | None => s
  | Some msg =>
      let token := match type_of msg with Some t => if truthy_json t then to_text t else "message" | None => "message" end in
      let s1 := on_view (pushLastMessageToken token) s in
      let named t := bool_decide (as_string (type_of msg) = Some t) in
      if named "pong" then
        match lastPingSentAt (closure (machine s1) i) with
        | Some t => if t =? 0 then s1 else on_view (set_latency (Z.max 0 (now - t))) s1
        | None => s1
        end
      else if named "block" || named "transaction" then on_view onActivity s1
      else s1
  end.

Definition handleError (s : Hook) : Hook := on_view (λ v, pushLastMessageToken "error" (set_connected false v)) s.

(** The next try, five seconds later. *)
Definition schedule (i : nat) (m : Machine) : Machine :=
  change i (with_reconnect (Some (next_timer m))) (set_timer i ReconnectIn m).

Definition new_socket (i : nat) (m : Machine) : Machine :=
  change i (with_ws (Some (length (sockets m)))) (set_sockets (sockets m ++ [MkSock i CONNECTING []]) m).

(** [url] is what [resolveExplorerWsUrl] gives; [created]: the browser makes the socket. *)
Definition connect (i : nat) (url : option string) (created : bool) (s : Hook) : Hook :=
  let s1 := on_machine (clearTimers i) s in
  match url with
  | None => on_view (λ v, set_lastMessage "disabled" (set_latency 0 (set_retryCount 0 (set_connected false (set_enabled false v))))) s1
  | Some _ =>
      let s2 := on_view (set_enabled true) s1 in
      if created then on_machine (new_socket i) s2
      else on_machine (λ m, schedule i (change i (with_ws None) m)) (on_view (λ v, retry (set_connected false v)) s2)
  end.

Definition handleClose (i : nat) (s : Hook) : Hook :=
  on_machine (λ m, schedule i (clearTimers i m))
    (on_view (λ v, retry (pushLastMessageToken "disconnected" (set_connected false v))) s).

Definition cleanup (i : nat) (m : Machine) : Machine :=
  let m1 := clearTimers i m in closeWebSocket (ws (closure m1 i)) m1.

Definition new_effect (blocks transactions : bool) (m : Machine) : Machine :=
  MkMachine (effects m ++ [MkEffect None None None None blocks transactions]) (Some (length (effects m))) (sockets m) (timers m) (next_timer m).

(** A run of the effect. *)
Definition run_effect (blocks transactions : bool) (url : option string) (created : bool) (s : Hook) : Hook :=
  connect (length (effects (machine s))) url created (on_machine (new_effect blocks transactions) s).

(** ** The host *)

Inductive event :=
  | Rerun (blocks transactions : bool) (url : option string) (created : bool)
  | Unmount
  | Opens (k : nat)
  | Message (k : nat) (event_data : option json) (now : Z)
  | Errors (k : nat)
  | Closes (k : nat)
  | Fires (t : nat) (url : option string) (created : bool) (now : Z).

(** What happens at an event, if it can happen. *)
Definition exec (ev : event) (s : Hook) : option Hook :=
  let m := machine s in
  match ev with
  | Rerun b t url created => i ← active m; Some (run_effect b t url created (on_machine (cleanup i) s))
  | Unmount => i ← active m; Some (on_machine (λ m, set_active None (cleanup i m)) s)
  | Opens k =>
      x ← sockets m !! k;
      if bool_decide (state x = CONNECTING) then Some (handleOpen (owner x) (on_machine (set_state k OPEN) s)) else None
  | Message k d now =>
      x ← sockets m !! k; if bool_decide (state x = OPEN) then Some (handleMessage (owner x) d now s) else None
  | Errors k => x ← sockets m !! k; if bool_decide (state x = CLOSED) then None else Some (handleError s)
  | Closes k =>
      x ← sockets m !! k;
      if bool_decide (state x = CLOSED) then None else Some (handleClose (owner x) (on_machine (set_state k CLOSED) s))
  | Fires t url created now =>
      p ← js_find (λ p, timer p =? t)%nat (timers m);
      match task p with
      | PingEvery => Some (on_machine (sendPing (of_effect p) now) s)
      | ReconnectIn => Some (connect (of_effect p) url created (on_machine (clear (Some t)) s))
      end
  end.

(** The component as it is mounted. *)
Definition mounted (blocks transactions : bool) (url : option string) (created : bool) : Hook :=
  run_effect blocks transactions url created start.

(** * Theorems *)

(** ** What matters of the machine *)

Definition vars (m : Machine) (i : nat) : option (option nat * option nat * option nat) :=
  (λ e, (ws e, pingTimer e, reconnectTimer e)) <$> effects m !! i.
Definition sock (m : Machine) (k : nat) : option (nat * ReadyState) := (λ x, (owner x, state x)) <$> sockets m !! k.

(** Sockets belong to closures, and an open or opening socket is the one its closure knows; a
    pending timer is in the variable of its closure, ids are never used again, pings are sent on
    an open socket only, and a reconnection waits only where no socket is left. *)
Record inv (m : Machine) : Prop := {
  inv_owner : ∀ k i st, sock m k = Some (i, st) → is_Some (vars m i);
  inv_live : ∀ k i st, sock m k = Some (i, st) → st ≠ CLOSED → ∃ pt rt, vars m i = Some (Some k, pt, rt);
  inv_ws : ∀ i k pt rt, vars m i = Some (Some k, pt, rt) → ∃ st, sock m k = Some (i, st);
  inv_next : ∀ p, p ∈ timers m → (timer p < next_timer m)%nat;
  inv_vars : ∀ i w pt rt n, vars m i = Some (w, pt, rt) → pt = Some n ∨ rt = Some n → (n < next_timer m)%nat;
  inv_own_timer : ∀ p i w pt rt, p ∈ timers m → vars m i = Some (w, pt, rt) →
    pt = Some (timer p) ∨ rt = Some (timer p) → of_effect p = i;
  inv_ping : ∀ p, p ∈ timers m → task p = PingEvery → ∃ k rt,
    vars m (of_effect p) = Some (Some k, Some (timer p), rt) ∧ sock m k = Some (of_effect p, OPEN);
  inv_reconnect : ∀ p, p ∈ timers m → task p = ReconnectIn → (∃ w pt, vars m (of_effect p) = Some (w, pt, Some (timer p))) ∧
    ∀ k st, sock m k = Some (of_effect p, st) → st = CLOSED;
  inv_ids : NoDup (timer <$> timers m);
  inv_active : ∀ i, active m = Some i → is_Some (vars m i);
}.

Lemma inv_same m m' : (∀ i, vars m' i = vars m i) → (∀ k, sock m' k = sock m k) → timers m' = timers m →
  next_timer m' = next_timer m → active m' = active m → inv m → inv m'.
Proof.
  intros Hv Hs Ht Hn Ha [H1 H2 H2' H3 H4 H5 H6 H7 H8 H9].
  constructor; setoid_rewrite Hv || idtac; setoid_rewrite Hs || idtac; rewrite ?Ht, ?Hn, ?Ha; try done.
Qed.

Lemma vars_change i f m j : vars (change i f m) j =
  if decide (i = j) then (λ e, (ws (f e), pingTimer (f e), reconnectTimer (f e))) <$> effects m !! i else vars m j.
Proof.
  unfold vars, change. cbn. case_decide as E; [subst; rewrite list_lookup_alter_eq; by destruct (effects m !! j)|].
  by rewrite list_lookup_alter_ne.
Qed.

Lemma sock_set_state k st m j : sock (set_state k st m) j =
  if decide (k = j) then (λ x, (x.1, st)) <$> sock m j else sock m j.
Proof.
  unfold sock, set_state. cbn. case_decide as E; [subst; rewrite list_lookup_alter_eq; by destruct (sockets m !! j)|].
  by rewrite list_lookup_alter_ne.
Qed.

Lemma sock_sendJson w p m j : sock (sendJson w p m) j = sock m j.
Proof.
  unfold sendJson. destruct w as [k|]; [|done]. case_bool_decide; [|done]. unfold sock. cbn.
  destruct (decide (k = j)) as [->|Hne]; [rewrite list_lookup_alter_eq; by destruct (sockets m !! j)|by rewrite list_lookup_alter_ne].
Qed.

Lemma sendJson_rest w p m : effects (sendJson w p m) = effects m ∧ timers (sendJson w p m) = timers m ∧
  next_timer (sendJson w p m) = next_timer m ∧ active (sendJson w p m) = active m.
Proof. unfold sendJson. destruct w as [k|]; [|done]. by case_bool_decide. Qed.

Lemma inv_sendJson w p m : inv m → inv (sendJson w p m).
Proof.
  destruct (sendJson_rest w p m) as (He & Ht & Hn & Ha). apply inv_same; try done; [|by apply sock_sendJson].
  intros i. unfold vars. by rewrite He.
Qed.

Lemma inv_subscriptions i m : inv m → inv (sendSubscriptions i m).
Proof. intros H. unfold sendSubscriptions. by repeat case_match; repeat apply inv_sendJson. Qed.

Lemma inv_sendPing i now m : inv m → inv (sendPing i now m).
Proof.
  intros H. apply inv_sendJson. revert H. apply inv_same; try done.
  intros j. rewrite vars_change. case_decide as E; [by subst|done].
Qed.

Lemma sock_sendPing i now m k : sock (sendPing i now m) k = sock m k.
Proof. unfold sendPing. by rewrite sock_sendJson. Qed.

Lemma timers_sendPing i now m : timers (sendPing i now m) = timers m.
Proof. unfold sendPing. by rewrite (proj1 (proj2 (sendJson_rest _ _ _))). Qed.

(** ** Timers *)

Lemma timers_clear t m p : p ∈ timers (clear t m) ↔ p ∈ timers m ∧ t ≠ Some (timer p).
Proof.
  destruct t as [n|]; [|naive_solver]. cbn. unfold js_filter. rewrite !list_elem_of_In, filter_In, negb_true_iff, Nat.eqb_neq.
  naive_solver congruence.
Qed.

Lemma timers_clearTimers i m p : inv m → p ∈ timers (clearTimers i m) ↔ p ∈ timers m ∧ of_effect p ≠ i.
Proof.
  intros H. unfold clearTimers. cbn [timers change set_effects]. rewrite !timers_clear.
  unfold closure. split.
  - intros ((Hp & Hping) & Hrec). split; [done|]. intros <-. destruct (task p) eqn:E.
    + destruct (inv_ping m H p Hp E) as (k & rt & Hv & _). unfold vars in Hv.
      destruct (effects m !! of_effect p) as [e|]; [|done]. cbn in *. by injection Hv as Hw Hpt Hrt.
    + destruct (inv_reconnect m H p Hp E) as ((w & pt & Hv) & _). unfold vars in Hv.
      destruct (effects m !! of_effect p) as [e|]; [|done]. cbn in *. by injection Hv as Hw Hpt Hrt.
  - intros [Hp Hne]. destruct (effects m !! i) as [e|] eqn:E; cbn; [|done].
    assert (vars m i = Some (ws e, pingTimer e, reconnectTimer e)) as Hv by (unfold vars; by rewrite E).
    split; [split; [done|]|]; intros Hx; apply Hne; eapply (inv_own_timer m H p i); eauto.
Qed.

Lemma NoDup_clear t m : NoDup (timer <$> timers m) → NoDup (timer <$> timers (clear t m)).
Proof.
  destruct t as [n|]; [|done]. cbn. intros H. eapply sublist_NoDup; [exact H|]. apply fmap_sublist. clear H. unfold js_filter.
  induction (timers m) as [|q l IH]; [done|]. cbn. destruct (negb _); by constructor.
Qed.

Lemma vars_clearTimers i m j : vars (clearTimers i m) j =
  if decide (i = j) then (λ v, (v.1.1, None, None)) <$> vars m j else vars m j.
Proof.
  unfold clearTimers. rewrite vars_change.
  assert (∀ t m', effects (clear t m') = effects m') as He by by intros [].
  case_decide as E; [subst; rewrite !He; unfold vars; by destruct (effects m !! j)|]. unfold vars. by rewrite !He.
Qed.

Lemma clear_rest t m : effects (clear t m) = effects m ∧ sockets (clear t m) = sockets m ∧
  next_timer (clear t m) = next_timer m ∧ active (clear t m) = active m.
Proof. by destruct t. Qed.

Lemma clearTimers_rest i m : sockets (clearTimers i m) = sockets m ∧ next_timer (clearTimers i m) = next_timer m ∧
  active (clearTimers i m) = active m.
Proof. unfold clearTimers. cbn. by destruct (reconnectTimer _), (pingTimer _). Qed.

Lemma sock_clearTimers i m k : sock (clearTimers i m) k = sock m k.
Proof. unfold sock. by rewrite (proj1 (clearTimers_rest i m)). Qed.

Lemma inv_clearTimers i m : inv m → inv (clearTimers i m).
Proof.
  intros H. pose proof (timers_clearTimers i m) as Ht. destruct (clearTimers_rest i m) as (_ & Hn & Ha).
  pose proof (vars_clearTimers i m) as Hv. pose proof (sock_clearTimers i m) as Hs.
  assert (∀ j v, vars m j = Some v → ∃ v', vars (clearTimers i m) j = Some v' ∧ v'.1.1 = v.1.1 ∧
    (j ≠ i → v' = v) ∧ (j = i → v' = (v.1.1, None, None))) as Hfwd.
  { intros j v E. rewrite Hv, E. case_decide as Hd; cbn; (eexists; split; [reflexivity|]; split; [done|]; split; intros; congruence). }
  constructor.
  - intros k j st. rewrite Hs. intros [v E]%(inv_owner m H). destruct (Hfwd j v E) as (v' & -> & _). eauto.
  - intros k j st. rewrite Hs. intros Hk Hst. destruct (inv_live m H k j st Hk Hst) as (pt & rt & E).
    destruct (Hfwd j _ E) as ([[w' pt'] rt'] & -> & Hw & _). cbn in Hw. subst w'. eauto.
  - intros j k pt rt. rewrite Hv. setoid_rewrite Hs. case_decide as E; [|by apply (inv_ws m H)].
    destruct (vars m j) as [[[w pt'] rt']|] eqn:Ej; [|done]. cbn. intros [= -> _ _]. by apply (inv_ws m H j k pt' rt').
  - intros p [Hp _]%Ht; [|done]. rewrite Hn. by apply (inv_next m H).
  - intros j w pt rt n. rewrite Hv, Hn. case_decide as E; [|by apply (inv_vars m H)].
    destruct (vars m j) as [v|]; [|done]. cbn. intros [= _ <- <-] [?|?]; done.
  - intros p j w pt rt [Hp _]%Ht; [|done]. rewrite Hv. case_decide as E; [|by apply (inv_own_timer m H)].
    destruct (vars m j) as [v|]; [|done]. cbn. intros [= _ <- <-] [?|?]; done.
  - intros p [Hp Hne]%Ht E; [|done]. destruct (inv_ping m H p Hp E) as (k & rt & Hp' & Hk). exists k, rt.
    rewrite Hv, Hs, decide_False by done. done.
  - intros p [Hp Hne]%Ht E; [|done]. destruct (inv_reconnect m H p Hp E) as ((w & pt & Hp') & Hk). split.
    + exists w, pt. by rewrite Hv, decide_False by done.
    + intros k st. rewrite Hs. apply Hk.
  - unfold clearTimers. cbn [timers change set_effects]. by apply NoDup_clear, NoDup_clear, (inv_ids m H).
  - intros j. rewrite Ha. intros [v E]%(inv_active m H). destruct (Hfwd j v E) as (v' & -> & _). eauto.
Qed.

(** No timer of the closure is pending. *)
Definition idle (m : Machine) (i : nat) : Prop := ∀ p, p ∈ timers m → of_effect p ≠ i.
(** All its sockets are closed. *)
Definition dead (m : Machine) (i : nat) : Prop := ∀ k st, sock m k = Some (i, st) → st = CLOSED.

Lemma idle_clearTimers i m : inv m → idle (clearTimers i m) i.
Proof. intros H p [_ Hp]%timers_clearTimers; done. Qed.

Lemma inv_clear t m : inv m → inv (clear t m).
Proof.
  intros H. destruct (clear_rest t m) as (He & Hs & Hn & Ha).
  assert (∀ i, vars (clear t m) i = vars m i) as Hv by (intros; unfold vars; by rewrite He).
  assert (∀ k, sock (clear t m) k = sock m k) as Hk by (intros; unfold sock; by rewrite Hs).
  constructor; rewrite ?Hn, ?Ha.
  - intros k i st. rewrite Hk, Hv. by apply inv_owner.
  - intros k i st. rewrite Hk, Hv. by apply inv_live.
  - intros i k pt rt. rewrite Hk, Hv. by apply inv_ws.
  - intros p [Hp _]%timers_clear. by apply inv_next.
  - intros i w pt rt n. rewrite Hv. by apply inv_vars.
  - intros p i w pt rt [Hp _]%timers_clear. rewrite Hv. by apply inv_own_timer.
  - intros p [Hp _]%timers_clear. setoid_rewrite Hk. rewrite Hv. by apply inv_ping.
  - intros p [Hp _]%timers_clear. setoid_rewrite Hk. rewrite Hv. by apply inv_reconnect.
  - by apply NoDup_clear, inv_ids.
  - intros i. rewrite Hv. by apply inv_active.
Qed.

(** A closure without timers sets one: [k] is its task, [f] puts it into the variable. *)
Lemma inv_add_timer i k f m w pt rt : inv m → idle m i → vars m i = Some (w, pt, rt) →
  let m' := change i f (set_timer i k m) in
  (vars m' i = Some (w, Some (next_timer m), rt) ∧ k = PingEvery ∧ (∃ x, w = Some x ∧ sock m x = Some (i, OPEN)) ∨
   vars m' i = Some (w, pt, Some (next_timer m)) ∧ k = ReconnectIn ∧ dead m i) →
  inv m'.
Proof.
  intros H Hidle Hi m' Hk.
  assert (∀ j, j ≠ i → vars m' j = vars m j) as Hother.
  { intros j Hj. subst m'. rewrite vars_change, decide_False by done. done. }
  assert (∀ x, sock m' x = sock m x) as Hs by done.
  assert (∀ p, p ∈ timers m' ↔ p ∈ timers m ∨ p = MkPending (next_timer m) i k) as Ht.
  { intros p. subst m'. cbn. rewrite elem_of_app, list_elem_of_singleton. done. }
  assert (∃ pt' rt', vars m' i = Some (w, pt', rt') ∧ (pt' = pt ∨ pt' = Some (next_timer m)) ∧ (rt' = rt ∨ rt' = Some (next_timer m)))
    as (pt' & rt' & Hi' & Hpt & Hrt) by (destruct Hk as [(-> & _)|(-> & _)]; eauto 10).
  assert (next_timer m' = S (next_timer m)) as Hn by done.
  constructor.
  - intros x j st. rewrite Hs. intros [v E]%(inv_owner m H). destruct (decide (j = i)) as [->|Hj]; [eauto|]. rewrite Hother; eauto.
  - intros x j st. rewrite Hs. intros Hx Hst. destruct (inv_live m H x j st Hx Hst) as (pt1 & rt1 & E).
    destruct (decide (j = i)) as [->|Hj]; [|rewrite Hother; eauto]. rewrite Hi in E. injection E as -> _ _. eauto.
  - intros j x pt1 rt1 E. rewrite Hs. destruct (decide (j = i)) as [->|Hj]; [|rewrite Hother in E by done; by eapply (inv_ws m H)].
    rewrite Hi' in E. injection E as -> _ _. by eapply (inv_ws m H).
  - intros p [Hp| ->]%Ht; rewrite Hn; [|cbn; lia]. specialize (inv_next m H p Hp). lia.
  - intros j w1 pt1 rt1 n E Hor. rewrite Hn. destruct (decide (j = i)) as [->|Hj].
    + rewrite Hi' in E. injection E as <- <- <-. pose proof (inv_vars m H i w pt rt n Hi).
      destruct Hor as [->| ->]; [destruct Hpt as [Hpt|Hpt]|destruct Hrt as [Hrt|Hrt]];
        (injection Hpt as -> || injection Hrt as -> || idtac); try lia; enough (n < next_timer m)%nat by lia; naive_solver.
    + rewrite Hother in E by done. enough (n < next_timer m)%nat by lia. by eapply (inv_vars m H).
  - intros p j w1 pt1 rt1 [Hp| ->]%Ht E Hor.
    + destruct (decide (j = i)) as [->|Hj]; [|rewrite Hother in E by done; by eapply (inv_own_timer m H)].
      rewrite Hi' in E. injection E as <- <- <-. pose proof (inv_next m H p Hp).
      apply (inv_own_timer m H p i w pt rt Hp Hi).
      destruct Hor as [->| ->]; [destruct Hpt as [Hpt|Hpt]; [by left|injection Hpt as ?; lia]|
        destruct Hrt as [Hrt|Hrt]; [by right|injection Hrt as ?; lia]].
    + cbn in Hor |- *. destruct (decide (j = i)) as [->|Hj]; [done|]. rewrite Hother in E by done.
      pose proof (inv_vars m H j w1 pt1 rt1 (next_timer m) E Hor). lia.
  - intros p [Hp| ->]%Ht E.
    + destruct (inv_ping m H p Hp E) as (x & rt1 & Hv & Hx). exists x, rt1. rewrite Hother by by apply Hidle. done.
    + cbn in E |- *. destruct Hk as [(Hv & _ & x & -> & Hx)|(_ & -> & _)]; [|done]. exists x, rt. done.
  - intros p [Hp| ->]%Ht E.
    + destruct (inv_reconnect m H p Hp E) as ((w1 & pt1 & Hv) & Hx). split; [|done]. exists w1, pt1. by rewrite Hother by by apply Hidle.
    + cbn in E |- *. destruct Hk as [(_ & -> & _)|(Hv & _ & Hd)]; [done|]. split; [eauto|done].
  - subst m'. cbn. rewrite fmap_app. apply NoDup_app. split; [apply (inv_ids m H)|]. split; [|apply NoDup_singleton].
    intros n (p & E & Hp)%list_elem_of_fmap E'%list_elem_of_singleton. pose proof (inv_next m H p Hp). cbn in E'. lia.
  - intros j. change (active m') with (active m). intros [v E]%(inv_active m H).
    destruct (decide (j = i)) as [->|Hj]; [eauto|]. rewrite Hother; eauto.
Qed.

Lemma vars_of m i w pt rt : vars m i = Some (w, pt, rt) → ∃ e, effects m !! i = Some e ∧ ws e = w ∧ pingTimer e = pt ∧ reconnectTimer e = rt.
Proof. unfold vars. destruct (effects m !! i) as [e|]; [|done]. cbn. intros [= <- <- <-]. eauto. Qed.

Lemma inv_schedule i m : inv m → idle m i → dead m i → is_Some (vars m i) → inv (schedule i m).
Proof.
  intros H Hi Hd [[[w pt] rt] Hv]. apply (inv_add_timer i ReconnectIn _ m w pt rt); [done..|]. right. split; [|done].
  destruct (vars_of m i w pt rt Hv) as (e & He & <- & <- & <-). rewrite vars_change, decide_True by done. cbn. by rewrite He.
Qed.

Lemma inv_start_ping i m k : inv m → idle m i → sock m k = Some (i, OPEN) → inv (start_ping i m).
Proof.
  intros H Hi Hk. destruct (inv_live m H k i OPEN Hk ltac:(done)) as (pt & rt & Hv).
  apply (inv_add_timer i PingEvery _ m (Some k) pt rt); [done..|]. left. split; [|by eauto].
  destruct (vars_of m i _ pt rt Hv) as (e & He & Hw & <- & <-). rewrite vars_change, decide_True by done. cbn. rewrite He. cbn. by rewrite Hw.
Qed.

(** A socket changes its state: none leaves CLOSED, and a ping is pending only at OPEN. *)
Lemma inv_set_state k st m : inv m →
  (∀ i st0, sock m k = Some (i, st0) → st0 ≠ CLOSED ∧ (st = OPEN ∨ ∀ p, p ∈ timers m → of_effect p = i → task p ≠ PingEvery)) →
  inv (set_state k st m).
Proof.
  intros H Hk. assert (∀ j, vars (set_state k st m) j = vars m j) as Hv by done.
  assert (∀ j i st1, sock (set_state k st m) j = Some (i, st1) → ∃ st0, sock m j = Some (i, st0) ∧
    (j ≠ k → st1 = st0) ∧ (j = k → st1 = st)) as Hs.
  { intros j i st1. rewrite sock_set_state. case_decide as E; [|intros Hj; exists st1; naive_solver].
    destruct (sock m j) as [[i' st']|]; [|done]. cbn. intros [= <- <-]. exists st'. naive_solver. }
  assert (∀ j i st0, sock m j = Some (i, st0) → sock (set_state k st m) j = Some (i, if decide (k = j) then st else st0)) as Hs'.
  { intros j i st0 E. rewrite sock_set_state, E. by case_decide. }
  constructor.
  - intros j i st1 (st0 & E & _)%Hs. rewrite Hv. by eapply inv_owner.
  - intros j i st1 (st0 & E & Hne & Heq)%Hs Hst. rewrite Hv. apply (inv_live m H j i st0 E).
    destruct (decide (j = k)) as [->|Hj]; [by eapply Hk|]. by rewrite <- Hne.
  - intros i j pt rt. rewrite Hv. intros [st0 E]%(inv_ws m H). eauto.
  - apply (inv_next m H).
  - apply (inv_vars m H).
  - apply (inv_own_timer m H).
  - intros p Hp Ht. destruct (inv_ping m H p Hp Ht) as (j & rt & E & Ej). exists j, rt. split; [done|].
    rewrite (Hs' _ _ _ Ej). case_decide as Hkj; [|done]. subst j. destruct (Hk _ _ Ej) as [_ [->|Hno]]; [done|].
    by destruct (Hno p Hp eq_refl).
  - intros p Hp Ht. destruct (inv_reconnect m H p Hp Ht) as (Hx & Hd). split; [done|].
    intros j st1 (st0 & E & Hne & Heq)%Hs. destruct (decide (j = k)) as [->|Hj]; [|rewrite Hne by done; by eapply Hd].
    destruct (Hk _ _ E) as [Hc _]. by destruct Hc; eapply Hd.
  - apply (inv_ids m H).
  - apply (inv_active m H).
Qed.

(** The closure [i], all of whose sockets are closed, forgets its socket or makes a new one. *)
Lemma inv_no_socket i m : inv m → idle m i → dead m i → inv (change i (with_ws None) m).
Proof.
  intros H Hi Hd. set (m' := change i (with_ws None) m).
  assert (∀ j, vars m' j = if decide (i = j) then (λ v, (None, v.1.2, v.2)) <$> vars m j else vars m j) as Hv.
  { intros j. subst m'. rewrite vars_change. case_decide; [subst; unfold vars; by destruct (effects m !! j)|done]. }
  assert (∀ j v, vars m j = Some v → is_Some (vars m' j)) as Hsome by (intros j v E; rewrite Hv, E; case_decide; eauto).
  constructor.
  - intros k j st [v E]%(inv_owner m H). eauto.
  - intros k j st Hk Hst. rewrite Hv. case_decide as E; [subst j; by destruct Hst; eapply Hd|]. by eapply (inv_live m H).
  - intros j k pt rt. rewrite Hv. case_decide as E; [by destruct (vars m j)|]. apply (inv_ws m H).
  - apply (inv_next m H).
  - intros j w pt rt n. rewrite Hv. case_decide as E; [|apply (inv_vars m H)].
    destruct (vars m j) as [[[w1 pt1] rt1]|] eqn:Ej; [|done]. cbn. intros [= _ <- <-]. by eapply (inv_vars m H).
  - intros p j w pt rt Hp. rewrite Hv. case_decide as E; [|by apply (inv_own_timer m H)].
    destruct (vars m j) as [[[w1 pt1] rt1]|] eqn:Ej; [|done]. cbn. intros [= _ <- <-]. by eapply (inv_own_timer m H).
  - intros p Hp Ht. rewrite Hv, decide_False by (intros E; by apply (Hi p Hp)). by apply (inv_ping m H).
  - intros p Hp Ht. rewrite Hv, decide_False by (intros E; by apply (Hi p Hp)). by apply (inv_reconnect m H).
  - apply (inv_ids m H).
  - intros j [v E]%(inv_active m H). eauto.
Qed.

Lemma sock_new i m k : sock (new_socket i m) k = if decide (k = length (sockets m)) then Some (i, CONNECTING) else sock m k.
Proof.
  unfold sock, new_socket. cbn. case_decide as E; [subst; by rewrite list_lookup_middle|].
  destruct (decide (k < length (sockets m))%nat); [by rewrite lookup_app_l|].
  rewrite lookup_app_r by lia. rewrite (lookup_ge_None_2 (sockets m)) by lia. by destruct (k - length (sockets m))%nat eqn:Ek; [lia|].
Qed.

Lemma inv_new_socket i m : inv m → idle m i → dead m i → is_Some (vars m i) → inv (new_socket i m).
Proof.
  intros H Hi Hd [v0 Hv0]. set (m' := new_socket i m). set (n := length (sockets m)).
  assert (∀ j, vars m' j = if decide (i = j) then (λ v, (Some n, v.1.2, v.2)) <$> vars m j else vars m j) as Hv.
  { intros j. subst m'. unfold new_socket. rewrite vars_change. case_decide as E; [|done]. rewrite <- E. unfold vars. cbn.
    by destruct (effects m !! i). }
  assert (∀ k, sock m' k = if decide (k = n) then Some (i, CONNECTING) else sock m k) as Hs by apply sock_new.
  assert (∀ k v, sock m k = Some v → k ≠ n) as Hold.
  { intros k v Hk ->. unfold sock in Hk. by rewrite lookup_ge_None_2 in Hk by done. }
  assert (∀ j v, vars m j = Some v → is_Some (vars m' j)) as Hsome by (intros j v E; rewrite Hv, E; case_decide; eauto).
  constructor.
  - intros k j st. rewrite Hs. case_decide; [intros [= <- <-]; eauto|]. intros [v E]%(inv_owner m H). eauto.
  - intros k j st. rewrite Hs, Hv. case_decide as Ek.
    + intros [= <- <-] _. rewrite decide_True, Hv0 by done. subst. cbn. eauto.
    + intros Hk Hst. rewrite decide_False; [by eapply (inv_live m H)|]. intros ->. by destruct Hst; eapply Hd.
  - intros j k pt rt. rewrite Hv, Hs. case_decide as E.
    + destruct (vars m j) as [v|]; [|done]. cbn. intros [= <- _ _]. subst. rewrite decide_True by done. eauto.
    + intros [st Hk]%(inv_ws m H). rewrite decide_False by by eapply Hold. eauto.
  - apply (inv_next m H).
  - intros j w pt rt x. rewrite Hv. case_decide as E; [|apply (inv_vars m H)].
    destruct (vars m j) as [[[w1 pt1] rt1]|] eqn:Ej; [|done]. cbn. intros [= _ <- <-]. by eapply (inv_vars m H).
  - intros p j w pt rt Hp. rewrite Hv. case_decide as E; [|by apply (inv_own_timer m H)].
    destruct (vars m j) as [[[w1 pt1] rt1]|] eqn:Ej; [|done]. cbn. intros [= _ <- <-]. by eapply (inv_own_timer m H).
  - intros p Hp Ht. rewrite Hv, decide_False by (intros E; by apply (Hi p Hp)).
    destruct (inv_ping m H p Hp Ht) as (k & rt & E & Hk). exists k, rt. rewrite Hs, decide_False by by eapply Hold. done.
  - intros p Hp Ht. rewrite Hv, decide_False by (intros E; by apply (Hi p Hp)).
    destruct (inv_reconnect m H p Hp Ht) as (Hx & Hdead). split; [done|]. intros k st. rewrite Hs.
    case_decide; [intros [= E _]; by destruct (Hi p Hp)|]. apply Hdead.
  - apply (inv_ids m H).
  - intros j [v E]%(inv_active m H). eauto.
Qed.

Lemma inv_new_effect b t m : inv m → inv (new_effect b t m).
Proof.
  intros H. set (m' := new_effect b t m).
  assert (∀ j v, vars m j = Some v → vars m' j = Some v) as Hv.
  { intros j v. unfold vars. intros E. subst m'. cbn. destruct (effects m !! j) as [e|] eqn:Ej; [|done].
    by rewrite (lookup_app_l_Some _ _ _ _ Ej). }
  assert (∀ j v, vars m' j = Some v → vars m j = Some v ∨ v = (None, None, None)) as Hv'.
  { intros j v. unfold vars. subst m'. cbn. destruct (decide (j < length (effects m))%nat); [rewrite lookup_app_l by done; by left|].
    rewrite lookup_app_r by lia. destruct (j - length (effects m))%nat; cbn; [intros [= <-]; by right|done]. }
  assert (∀ k, sock m' k = sock m k) as Hs by done.
  constructor.
  - intros k i st Hk. destruct (inv_owner m H k i st Hk) as [v E]. eauto.
  - intros k i st Hk Hst. destruct (inv_live m H k i st Hk Hst) as (pt & rt & E). eauto.
  - intros i k pt rt [E|[= ]]%Hv'. by apply (inv_ws m H) in E.
  - apply (inv_next m H).
  - intros i w pt rt n [E|[= -> -> ->]]%Hv' Hor; [by eapply (inv_vars m H)|]. by destruct Hor.
  - intros p i w pt rt Hp [E|[= -> -> ->]]%Hv' Hor; [by eapply (inv_own_timer m H)|]. by destruct Hor.
  - intros p Hp Ht. destruct (inv_ping m H p Hp Ht) as (k & rt & E & Hk). eauto 10.
  - intros p Hp Ht. destruct (inv_reconnect m H p Hp Ht) as ((w & pt & E) & Hd). split; [eauto|done].
  - apply (inv_ids m H).
  - intros i. subst m'. cbn. intros [= <-]. unfold vars. cbn. by rewrite list_lookup_middle.
Qed.

(** ** The handlers keep the invariant *)

Lemma inv_cleanup i m : inv m → inv (cleanup i m).
Proof.
  intros H. unfold cleanup. pose proof (inv_clearTimers i m H) as H1. pose proof (idle_clearTimers i m H) as Hi.
  set (m1 := clearTimers i m) in *. unfold closeWebSocket. destruct (ws (closure m1 i)) as [k|] eqn:Ek; [|done].
  assert (∀ j st, sock m1 k = Some (j, st) → j = i) as Ho.
  { unfold closure in Ek. destruct (effects m1 !! i) as [e|] eqn:Ee; [|done]. cbn in Ek.
    destruct (inv_ws m1 H1 i k (pingTimer e) (reconnectTimer e)) as [st E]; [unfold vars; rewrite Ee; cbn; by rewrite Ek|].
    intros j st'. rewrite E. by intros [= -> _]. }
  assert (∀ st0, socket_state m1 k = Some st0 → st0 ≠ CLOSED → inv (set_state k CLOSING m1)) as Hset.
  { intros st0 E Hne. apply inv_set_state; [done|]. intros j st1 Ej. rewrite (Ho j st1 Ej). unfold sock in Ej. unfold socket_state in E.
    destruct (sockets m1 !! k) as [x|]; [|done]. cbn in *. split; [congruence|]. right. intros p Hp E'. by destruct (Hi p Hp). }
  by repeat case_match; eauto.
Qed.

Lemma clearTimers_set_state i k st m : clearTimers i (set_state k st m) = set_state k st (clearTimers i m).
Proof.
  unfold clearTimers. change (closure (set_state k st m) i) with (closure m i).
  by destruct (pingTimer (closure m i)), (reconnectTimer (closure m i)).
Qed.

Lemma sock_state m k x : sockets m !! k = Some x → sock m k = Some (owner x, state x).
Proof. unfold sock. by intros ->. Qed.

Lemma vars_sendJson w p m i : vars (sendJson w p m) i = vars m i.
Proof. unfold vars. by rewrite (proj1 (sendJson_rest w p m)). Qed.

Lemma idle_sendJson w p m i : idle m i → idle (sendJson w p m) i.
Proof. unfold idle. by destruct (sendJson_rest w p m) as (_ & -> & _). Qed.

(** A closure whose socket is not open yet has no timer. *)
Lemma connecting_idle m k i : inv m → sock m k = Some (i, CONNECTING) → idle m i.
Proof.
  intros H Hk p Hp <-. destruct (task p) eqn:E.
  - destruct (inv_ping m H p Hp E) as (k' & rt & Hv & Hk'). destruct (inv_live m H k _ _ Hk ltac:(done)) as (? & ? & Hv').
    rewrite Hv in Hv'. injection Hv' as <- _ _. by rewrite Hk in Hk'.
  - destruct (inv_reconnect m H p Hp E) as [_ Hd]. by specialize (Hd k _ Hk).
Qed.

Lemma inv_handleOpen k x s : inv (machine s) → sockets (machine s) !! k = Some x → state x = CONNECTING →
  inv (machine (handleOpen (owner x) (on_machine (set_state k OPEN) s))).
Proof.
  intros H Hk Hst. pose proof (sock_state _ _ _ Hk) as Hs. rewrite Hst in Hs.
  pose proof (connecting_idle _ _ _ H Hs) as Hi. cbn. set (m := set_state k OPEN (machine s)).
  assert (inv m) as Hm by (apply inv_set_state; [done|]; intros j st0; rewrite Hs; intros [= <- <-]; by split; [|left]).
  apply (inv_start_ping _ _ k).
  - by apply inv_subscriptions.
  - unfold sendSubscriptions. by repeat case_match; repeat apply idle_sendJson.
  - unfold sendSubscriptions. assert (sock m k = Some (owner x, OPEN)) as Hm'.
    { subst m. by rewrite sock_set_state, decide_True, Hs by done. }
    by repeat case_match; rewrite ?sock_sendJson.
Qed.

(** The socket of a closure is the only one of its sockets that is not closed. *)
Lemma others_closed m k i st : inv m → sock m k = Some (i, st) → st ≠ CLOSED →
  ∀ j st', sock m j = Some (i, st') → j ≠ k → st' = CLOSED.
Proof.
  intros H Hk Hst j st' Hj Hne. destruct (decide (st' = CLOSED)) as [|Hst']; [done|].
  destruct (inv_live m H k i st Hk Hst) as (? & ? & E). destruct (inv_live m H j i st' Hj Hst') as (? & ? & E'). congruence.
Qed.

Lemma inv_handleClose k x s : inv (machine s) → sockets (machine s) !! k = Some x → state x ≠ CLOSED →
  inv (machine (handleClose (owner x) (on_machine (set_state k CLOSED) s))).
Proof.
  intros H Hk Hst. pose proof (sock_state _ _ _ Hk) as Hs. cbn. rewrite clearTimers_set_state.
  set (i := owner x) in *. set (m := machine s) in *. pose proof (inv_clearTimers i m H) as H1.
  pose proof (idle_clearTimers i m H) as Hi.
  assert (sock (clearTimers i m) k = Some (i, state x)) as Hs1 by by rewrite sock_clearTimers.
  apply inv_schedule.
  - apply inv_set_state; [done|]. intros j st0. rewrite Hs1. intros [= <- <-]. split; [done|]. right. intros p Hp E. by destruct (Hi p Hp).
  - exact Hi.
  - intros j st'. rewrite sock_set_state. case_decide as E; [by subst; rewrite Hs1; intros [= <-]|].
    intros Hj. by eapply (others_closed _ _ _ _ H1 Hs1).
  - apply (inv_owner _ H1 k i _ Hs1).
Qed.

Lemma dead_clearTimers i j m : dead m i → dead (clearTimers j m) i.
Proof. intros Hd k st. rewrite sock_clearTimers. apply Hd. Qed.

Lemma vars_change_some i j f m : is_Some (vars m i) → is_Some (vars (change j f m) i).
Proof. rewrite vars_change. case_decide as E; [subst j|done]. unfold vars. by destruct (effects m !! i); [eauto|intros [? ?]]. Qed.

Lemma dead_change i j f m : dead m i → dead (change j f m) i.
Proof. done. Qed.

Lemma inv_connect i url created s : inv (machine s) → dead (machine s) i → is_Some (vars (machine s) i) →
  inv (machine (connect i url created s)).
Proof.
  intros H Hd [v Hv]. set (m := machine s) in *. pose proof (inv_clearTimers i m H) as H1. pose proof (idle_clearTimers i m H) as Hi.
  pose proof (dead_clearTimers i i m Hd) as Hd1.
  assert (is_Some (vars (clearTimers i m) i)) as Hv1 by (rewrite vars_clearTimers, decide_True, Hv by done; eauto).
  unfold connect. destruct url; [|done]. destruct created; cbn.
  - by apply inv_new_socket.
  - apply inv_schedule; [by apply inv_no_socket|done|by apply dead_change|by apply vars_change_some].
Qed.

Lemma new_effect_dead b t m : inv m → dead (new_effect b t m) (length (effects m)).
Proof.
  intros H k st Hk. change (sock m k = Some (length (effects m), st)) in Hk. destruct (inv_owner m H k _ _ Hk) as [v E].
  unfold vars in E. by rewrite lookup_ge_None_2 in E by done.
Qed.

Lemma inv_run_effect b t url created s : inv (machine s) → inv (machine (run_effect b t url created s)).
Proof.
  intros H. apply inv_connect; cbn; [by apply inv_new_effect|by apply new_effect_dead|].
  unfold vars. cbn. rewrite list_lookup_middle by done. by eauto.
Qed.

Lemma handleMessage_machine i d now s : machine (handleMessage i d now s) = machine s.
Proof. unfold handleMessage. destruct d; [|done]. cbv zeta. by repeat case_match. Qed.

Lemma inv_event ev s s' : inv (machine s) → exec ev s = Some s' → inv (machine s').
Proof.
  intros H. destruct ev as [b t url created| |k|k d now|k|k|t url created now]; cbn.
  - destruct (active (machine s)); [|done]. intros [= <-]. by apply inv_run_effect, inv_cleanup.
  - destruct (active (machine s)) as [i|]; [|done]. intros [= <-]. pose proof (inv_cleanup i _ H) as H'. destruct H'. by constructor.
  - destruct (sockets _ !! k) as [x|] eqn:Ek; [|done]. cbn. case_bool_decide; [|done]. intros [= <-]. by apply inv_handleOpen.
  - destruct (sockets _ !! k) as [x|] eqn:Ek; [|done]. cbn. case_bool_decide; [|done]. intros [= <-]. by rewrite handleMessage_machine.
  - destruct (sockets _ !! k) as [x|] eqn:Ek; [|done]. cbn. case_bool_decide; [done|]. by intros [= <-].
  - destruct (sockets _ !! k) as [x|] eqn:Ek; [|done]. cbn. case_bool_decide; [done|]. intros [= <-]. by apply inv_handleClose.
  - destruct (js_find _ _) as [p|] eqn:Ep; [|done]. cbn. apply js_find_Some in Ep as [Hp Ht].
    destruct (task p) eqn:E; intros [= <-]; [by apply inv_sendPing|].
    destruct (inv_reconnect _ H p Hp E) as ((w & pt & Hv) & Hd).
    apply inv_connect; [by apply (inv_clear (Some t))|exact Hd|by eauto].
Qed.

(** ** Runs *)

Fixpoint run (evs : list event) (s : Hook) : option Hook :=
  match evs with [] => Some s | ev :: evs' => s1 ← exec ev s; run evs' s1 end.

Definition reachable (s : Hook) : Prop := ∃ b t url created evs, run evs (mounted b t url created) = Some s.

Lemma inv_start : inv (machine start).
Proof. by constructor; try done; try (intros ? ?; unfold sock, vars; cbn; rewrite ?lookup_nil); try set_solver; apply NoDup_nil_2. Qed.

Lemma inv_run evs s s' : inv (machine s) → run evs s = Some s' → inv (machine s').
Proof.
  revert s. induction evs as [|ev evs IH]; intros s H; cbn; [by intros [= <-]|].
  destruct (exec ev s) as [s1|] eqn:E; [|done]. cbn. apply IH. by eapply inv_event.
Qed.

Lemma inv_reachable s : reachable s → inv (machine s).
Proof. intros (b & t & url & created & evs & E). eapply inv_run; [|exact E]. by apply inv_run_effect, inv_start. Qed.

Lemma NoDup_timer (l : list Pending) p q : NoDup (timer <$> l) → p ∈ l → q ∈ l → timer p = timer q → p = q.
Proof.
  intros H (a & Ha)%list_elem_of_lookup (b & Hb)%list_elem_of_lookup E.
  enough (a = b) by congruence. eapply NoDup_lookup; [exact H|by rewrite list_lookup_fmap, Ha|by rewrite list_lookup_fmap, Hb, E].
Qed.

(** ** How long a closure lives on *)

(** It has a socket that is not closed, or is going to reconnect. *)
Definition live (m : Machine) (i : nat) : Prop := ∃ k st, sock m k = Some (i, st) ∧ st ≠ CLOSED.
Definition waiting (m : Machine) (i : nat) : Prop := ∃ p, p ∈ timers m ∧ of_effect p = i ∧ task p = ReconnectIn.
Definition busy (m : Machine) (i : nat) : Prop := live m i ∨ waiting m i.

(** An address is found whenever one is looked for. *)
Definition finds_url (ev : event) : Prop :=
  match ev with Rerun _ _ url _ | Fires _ url _ _ => url ≠ None | _ => True end.

Lemma live_set_state k st m i : st ≠ CLOSED → live m i → live (set_state k st m) i.
Proof.
  intros Hst (j & st' & Hj & Hne). exists j. rewrite sock_set_state. case_decide as E; [|by eauto].
  exists st. by rewrite Hj.
Qed.

Lemma live_same m m' i : (∀ k, sock m' k = sock m k) → live m i → live m' i.
Proof. intros Hs (k & st & Hk & Hst). exists k, st. by rewrite Hs. Qed.

Lemma live_cleanup j m i : live m i → live (cleanup j m) i.
Proof.
  intros H. assert (live (clearTimers j m) i) as H' by (revert H; apply live_same, sock_clearTimers).
  unfold cleanup, closeWebSocket. by repeat case_match; try apply live_set_state.
Qed.

Lemma waiting_clearTimers j m i : inv m → i ≠ j → waiting m i → waiting (clearTimers j m) i.
Proof. intros H Hne (p & Hp & <- & E). exists p. by rewrite timers_clearTimers by done. Qed.

Lemma waiting_cleanup j m i : inv m → i ≠ j → waiting m i → waiting (cleanup j m) i.
Proof.
  intros H Hne Hw%(waiting_clearTimers j); [|done..]. unfold cleanup, closeWebSocket. by repeat case_match.
Qed.

Lemma busy_connect_other j url created s i : inv (machine s) → i ≠ j → busy (machine s) i → busy (machine (connect j url created s)) i.
Proof.
  intros H Hne Hb. assert (busy (clearTimers j (machine s)) i) as Hb'.
  { destruct Hb as [Hl|Hw]; [left; revert Hl; apply live_same, sock_clearTimers|right; by apply waiting_clearTimers]. }
  unfold connect. destruct url; [|done]. destruct created; cbn.
  - destruct Hb' as [(k & st & Hk & Hst)|Hw]; [left|by right]. exists k, st. rewrite sock_new. rewrite decide_False; [done|].
    intros ->. unfold sock in Hk. by rewrite lookup_ge_None_2 in Hk by done.
  - destruct Hb' as [Hl|(p & Hp & E & Et)]; [by left|right]. exists p. split; [|done]. cbn. apply elem_of_app. by left.
Qed.

Lemma busy_connect i url created s : url ≠ None → busy (machine (connect i url created s)) i.
Proof.
  intros Hurl. unfold connect. destruct url as [u|]; [|done]. destruct created; cbn.
  - left. exists (length (sockets (clearTimers i (machine s)))), CONNECTING. by rewrite sock_new, decide_True by done.
  - right. eexists. split; [cbn; apply elem_of_app; right; apply list_elem_of_singleton; reflexivity|done].
Qed.

Lemma busy_handleClose j k x s i : inv (machine s) → sockets (machine s) !! k = Some x → j = owner x → busy (machine s) i →
  busy (machine (handleClose j (on_machine (set_state k CLOSED) s))) i.
Proof.
  intros H Hk -> Hb. cbn. destruct (decide (i = owner x)) as [->|Hne].
  - right. eexists. split; [cbn; apply elem_of_app; right; apply list_elem_of_singleton; reflexivity|done].
  - rewrite clearTimers_set_state. destruct Hb as [(k' & st & Hk' & Hst)|Hw].
    + left. exists k', st. change (sock (set_state k CLOSED (clearTimers (owner x) (machine s))) k' = Some (i, st) ∧ st ≠ CLOSED).
      rewrite sock_set_state, sock_clearTimers, decide_False; [done|]. intros <-.
      rewrite (sock_state _ _ _ Hk) in Hk'. congruence.
    + right. destruct (waiting_clearTimers (owner x) _ i H Hne Hw) as (p & Hp & E). exists p. split; [|done].
      cbn. apply elem_of_app. by left.
Qed.

Lemma busy_handleOpen j k s i : busy (machine s) i → busy (machine (handleOpen j (on_machine (set_state k OPEN) s))) i.
Proof.
  intros Hb. cbn. assert (busy (set_state k OPEN (machine s)) i) as Hb'.
  { destruct Hb as [Hl|Hw]; [left; by apply live_set_state|by right]. }
  set (m := set_state k OPEN (machine s)) in *.
  assert (∀ x, sock (sendSubscriptions j m) x = sock m x) as Hs.
  { intros x. unfold sendSubscriptions. by repeat case_match; rewrite ?sock_sendJson. }
  assert (timers (sendSubscriptions j m) = timers m) as Ht.
  { unfold sendSubscriptions. by repeat case_match; rewrite ?(proj1 (proj2 (sendJson_rest _ _ _))). }
  destruct Hb' as [Hl|(p & Hp & E)]; [left; revert Hl; by apply live_same|right].
  exists p. split; [|done]. cbn. apply elem_of_app. left. by rewrite Ht.
Qed.

Lemma busy_clear p m i : p ∈ timers m → of_effect p ≠ i → busy m i → inv m → busy (clear (Some (timer p)) m) i.
Proof.
  intros Hp Hne [Hl|(q & Hq & <- & E)] H; [by left|right]. exists q. split; [|done]. apply timers_clear. split; [done|].
  intros [= Ht]. apply Hne. by rewrite (NoDup_timer _ p q (inv_ids m H) Hp Hq Ht).
Qed.

(** Events that run the cleanup of the active effect. *)
Definition cleans (ev : event) : Prop := match ev with Rerun _ _ _ _ | Unmount => True | _ => False end.

(** Where an address is always found, only a cleanup ends a closure, and only one whose socket is closed already. *)
Lemma busy_exec ev s s' i : inv (machine s) → finds_url ev → exec ev s = Some s' → busy (machine s) i →
  (cleans ev → active (machine s) = Some i → live (machine s) i) → busy (machine s') i.
Proof.
  intros H Hurl He Hb Ha. assert (∀ j, cleans ev → active (machine s) = Some j → busy (cleanup j (machine s)) i) as Hclean.
  { intros j Hc Hj. destruct (decide (i = j)) as [->|Hne]; [left; by apply live_cleanup, Ha|].
    destruct Hb; [left; by apply live_cleanup|right; by apply waiting_cleanup]. }
  destruct ev as [b t url created| |k|k d now|k|k|t url created now]; cbn in He.
  - destruct (active (machine s)) as [j|]; [|done]. injection He as <-. specialize (Hclean j Logic.I eq_refl).
    unfold run_effect. set (m := cleanup j (machine s)) in *. destruct (decide (i = length (effects m))) as [->|Hne].
    + by apply busy_connect.
    + apply busy_connect_other; [by apply inv_new_effect, inv_cleanup|done|exact Hclean].
  - destruct (active (machine s)) as [j|]; [|done]. injection He as <-. exact (Hclean j Logic.I eq_refl).
  - destruct (sockets _ !! k) as [x|]; [|done]. cbn in He. case_bool_decide; [|done]. injection He as <-. by apply busy_handleOpen.
  - destruct (sockets _ !! k) as [x|]; [|done]. cbn in He. case_bool_decide; [|done]. injection He as <-. by rewrite handleMessage_machine.
  - destruct (sockets _ !! k) as [x|]; [|done]. cbn in He. case_bool_decide; [done|]. by injection He as <-.
  - destruct (sockets _ !! k) as [x|] eqn:Ek; [|done]. cbn in He. case_bool_decide; [done|]. injection He as <-. by eapply busy_handleClose.
  - destruct (js_find _ _) as [p|] eqn:Ep; [|done]. cbn in He. apply js_find_Some in Ep as [Hp Ht%Nat.eqb_eq]. subst t.
    destruct (task p) eqn:E; injection He as <-; [destruct Hb as [Hl|Hw]; [left; revert Hl; apply live_same, sock_sendPing|right]|].
    + destruct Hw as (q & Hq & Eq). exists q. cbn. by rewrite timers_sendPing.
    + destruct (decide (of_effect p = i)) as [<-|Hne]; [by apply busy_connect|].
      apply busy_connect_other; [by apply (inv_clear (Some _))|done|by apply busy_clear].
Qed.

Lemma length_change i f m : length (effects (change i f m)) = length (effects m).
Proof. unfold change. cbn. by rewrite length_alter. Qed.

Lemma machine_clear t m : effects (clear t m) = effects m ∧ active (clear t m) = active m.
Proof. by destruct t. Qed.

(** Same closures, same active one. *)
Definition steady (m m' : Machine) : Prop := length (effects m') = length (effects m) ∧ active m' = active m.

Lemma steady_clearTimers i m : steady m (clearTimers i m).
Proof. unfold clearTimers. split; [rewrite length_change|cbn]; by destruct (reconnectTimer _), (pingTimer _). Qed.

Lemma steady_sendJson w p m : steady m (sendJson w p m).
Proof. destruct (sendJson_rest w p m) as (He & _ & _ & Ha). by split; rewrite ?He, ?Ha. Qed.

Lemma steady_trans m1 m2 m3 : steady m1 m2 → steady m2 m3 → steady m1 m3.
Proof. intros [H1 H2] [H3 H4]. split; congruence. Qed.

Lemma steady_cleanup i m : steady m (cleanup i m).
Proof. unfold cleanup, closeWebSocket. destruct (steady_clearTimers i m). by repeat case_match. Qed.

Lemma steady_connect i url created s : steady (machine s) (machine (connect i url created s)).
Proof.
  eapply steady_trans; [apply (steady_clearTimers i)|]. unfold connect. destruct url; [|done].
  destruct created; cbn [machine on_machine on_view]; generalize (clearTimers i (machine s)) as m; intros m; (split; [|done]).
  - unfold new_socket. by rewrite length_change.
  - unfold schedule. rewrite length_change. cbn [effects set_timer]. by rewrite length_change.
Qed.

Lemma steady_exec ev s s' : exec ev s = Some s' → ¬ cleans ev → steady (machine s) (machine s').
Proof.
  intros He Hc. destruct ev as [b t url created| |k|k d now|k|k|t url created now]; cbn in He; try by destruct Hc.
  - destruct (sockets _ !! k) as [x|]; [|done]. cbn in He. case_bool_decide; [|done]. injection He as <-. cbn.
    unfold start_ping. split; [rewrite length_change|]; cbn; unfold sendSubscriptions; repeat case_match;
      rewrite ?(proj1 (steady_sendJson _ _ _)), ?(proj2 (steady_sendJson _ _ _)); done.
  - destruct (sockets _ !! k) as [x|]; [|done]. cbn in He. case_bool_decide; [|done]. injection He as <-. by rewrite handleMessage_machine.
  - destruct (sockets _ !! k) as [x|]; [|done]. cbn in He. case_bool_decide; [done|]. by injection He as <-.
  - destruct (sockets _ !! k) as [x|]; [|done]. cbn in He. case_bool_decide; [done|]. injection He as <-. cbn.
    rewrite clearTimers_set_state. destruct (steady_clearTimers (owner x) (machine s)) as [Hl Ha].
    unfold schedule. split; [rewrite length_change|]; done.
  - destruct (js_find _ _) as [p|]; [|done]. cbn in He. destruct (task p); injection He as <-.
    + cbn. unfold sendPing. split; rewrite ?(proj1 (steady_sendJson _ _ _)), ?(proj2 (steady_sendJson _ _ _)), ?length_change; done.
    + eapply steady_trans; [|apply steady_connect]. done.
Qed.

(** The active effect of a cleaning event is a new one, or none is left; the others keep it. *)
Lemma active_exec ev s s' i : exec ev s = Some s' → (i < length (effects (machine s)))%nat →
  (cleans ev ∨ active (machine s) ≠ Some i) → (i < length (effects (machine s')))%nat ∧ active (machine s') ≠ Some i.
Proof.
  intros He Hlt Hor. assert (cleans ev ∨ ¬ cleans ev) as [Hc|Hc] by (destruct ev; cbn; auto).
  - destruct ev as [b t url created| | | | | |]; try done; cbn in He; (destruct (active (machine s)) as [j|]; [|done]); injection He as <-.
    + set (s1 := on_machine (cleanup j) s). destruct (steady_cleanup j (machine s)) as [Hl _].
      destruct (steady_connect (length (effects (machine s1))) url created (on_machine (new_effect b t) s1)) as [Hl' Ha'].
      unfold run_effect. rewrite Hl', Ha'. cbn. rewrite length_app, Hl. cbn. split; [lia|]. intros [= E]. lia.
    + cbn. by rewrite (proj1 (steady_cleanup j (machine s))).
  - destruct (steady_exec ev s s' He Hc) as [Hl Ha]. rewrite Hl, Ha. by destruct Hor.
Qed.

Lemma busy_run evs s s' i : inv (machine s) → (i < length (effects (machine s)))%nat → active (machine s) ≠ Some i →
  Forall finds_url evs → run evs s = Some s' → busy (machine s) i → busy (machine s') i ∧ active (machine s') ≠ Some i.
Proof.
  revert s. induction evs as [|ev evs IH]; intros s H Hlt Ha Hurl; cbn; [by intros [= <-]|].
  apply Forall_cons in Hurl as [Hev Hurl]. destruct (exec ev s) as [s1|] eqn:E; [|done]. cbn. intros Hr Hb.
  destruct (active_exec ev s s1 i E Hlt ltac:(by right)) as [Hlt1 Ha1].
  apply (IH s1); [by eapply inv_event|done..|]. by eapply busy_exec.
Qed.

Lemma vars_lt m i : is_Some (vars m i) → (i < length (effects m))%nat.
Proof. unfold vars. intros [v E]. apply lookup_lt_is_Some. by destruct (effects m !! i). Qed.

(** ** What a closure has at one time *)

(** C19: Whatever the order of the events, a run of the effect never has two sockets that are not closed nor
    two pending timers, and none of its reconnections waits beside a socket of its that is not closed. *)
Theorem one_socket_one_timer s i : reachable s →
  (∀ k k' st st', sock (machine s) k = Some (i, st) → sock (machine s) k' = Some (i, st') → st ≠ CLOSED → st' ≠ CLOSED → k = k') ∧
  (∀ p q, p ∈ timers (machine s) → q ∈ timers (machine s) → of_effect p = i → of_effect q = i → p = q) ∧
  ¬ (live (machine s) i ∧ waiting (machine s) i).
Proof.
  intros H%inv_reachable. split_and!.
  - intros k k' st st' Hk Hk' Hst Hst'. destruct (decide (k' = k)) as [|Hne]; [done|].
    by destruct Hst'; eapply (others_closed _ _ _ _ H Hk).
  - intros p q Hp Hq <- Eq. apply (NoDup_timer _ _ _ (inv_ids _ H)); [done..|].
    destruct (task p) eqn:Tp, (task q) eqn:Tq.
    + destruct (inv_ping _ H p Hp Tp) as (? & ? & Ep & _), (inv_ping _ H q Hq Tq) as (? & ? & Eq' & _). congruence.
    + destruct (inv_ping _ H p Hp Tp) as (? & ? & _ & Ep), (inv_reconnect _ H q Hq Tq) as [_ Hd]. rewrite Eq in Hd. by specialize (Hd _ _ Ep).
    + destruct (inv_ping _ H q Hq Tq) as (? & ? & _ & Ep), (inv_reconnect _ H p Hp Tp) as [_ Hd]. rewrite Eq in Ep. by specialize (Hd _ _ Ep).
    + destruct (inv_reconnect _ H p Hp Tp) as [(? & ? & Ep) _], (inv_reconnect _ H q Hq Tq) as [(? & ? & Eq') _]. congruence.
  - intros [(k & st & Hk & Hst) (p & Hp & <- & E)]. destruct (inv_reconnect _ H p Hp E) as [_ Hd]. eauto.
Qed.

(** ** What stays behind *)

(** C20: Once an effect with a socket that is not closed is cleaned up, because the component is rendered
    again or goes away, its closure keeps a socket or a reconnection from then on, as long as an address is
    found: [onclose] sets a timer after the cleanup has cleared them. *)
Theorem cleaned_up_effect_stays s ev evs s' i : reachable s → active (machine s) = Some i → live (machine s) i → cleans ev →
  Forall finds_url (ev :: evs) → run (ev :: evs) s = Some s' → busy (machine s') i ∧ active (machine s') ≠ Some i.
Proof.
  intros Hr%inv_reachable Ha Hl Hc [Hev Hurl]%Forall_cons. cbn. destruct (exec ev s) as [s1|] eqn:E; [|done]. cbn.
  destruct (active_exec ev s s1 i E (vars_lt _ _ (inv_active _ Hr i Ha)) ltac:(by left)) as [Hlt1 Ha1].
  intros Hrun. eapply busy_run; [by eapply inv_event|exact Hlt1|done|exact Hurl|exact Hrun|]. eapply busy_exec; [exact Hr|exact Hev|exact E|by left|done].
Qed.

(** While the component is shown and an address is always found, its effect has a socket that is not
    closed or is going to reconnect. *)
Theorem shown_effect_connects b t url created evs s i : url ≠ None → Forall finds_url evs →
  run evs (mounted b t url created) = Some s → active (machine s) = Some i → busy (machine s) i.
Proof.
  intros Hurl. assert (∀ i, active (machine (mounted b t url created)) = Some i → busy (machine (mounted b t url created)) i) as Hb.
  { intros j. unfold mounted, run_effect. rewrite (proj2 (steady_connect _ _ _ _)). cbn. intros [= <-]. by apply busy_connect. }
  assert (inv (machine (mounted b t url created))) as H by apply inv_run_effect, inv_start.
  revert Hb H. generalize (mounted b t url created) as s0. induction evs as [|ev evs IH]; intros s0 Hb H Hev; [cbn; intros [= <-]; apply Hb|].
  apply Forall_cons in Hev as [Hev Hevs]. cbn. destruct (exec ev s0) as [s1|] eqn:E; [|done]. cbn.
  apply IH; [|by eapply inv_event|done]. intros j Hi.
  assert (cleans ev ∨ ¬ cleans ev) as [Hc|Hc] by (destruct ev; cbn; auto).
  - destruct ev as [b' t' url' created'| | | | | |]; try done; cbn in E; (destruct (active (machine s0)) as [i0|]; [|done]); injection E as <-; [|done].
    unfold run_effect in *. rewrite (proj2 (steady_connect _ _ _ _)) in Hi. cbn in Hi. injection Hi as <-. by apply busy_connect.
  - rewrite (proj2 (steady_exec ev s0 s1 E Hc)) in Hi. by eapply busy_exec; eauto.
Qed.

(** ** Examples *)

Example clips : clipMessageTokens "a b c d e f" "g h" 6 = "c d e f g h".
Proof. reflexivity. Qed.

(** Two renderings and a departure while connected leave two closures that connect again. *)
Example three_connections :
  (λ s, (active (machine s), (λ x, (owner x, state x)) <$> sockets (machine s))) <$>
    run [Opens 0; Rerun true true (Some "ws://n") true; Closes 0; Opens 1; Unmount; Closes 1;
         Fires 1 (Some "ws://n") true 0; Fires 3 (Some "ws://n") true 0]
      (mounted true true (Some "ws://n") true) =
  Some (None, [(0%nat, CLOSED); (1%nat, CLOSED); (0%nat, CONNECTING); (1%nat, CONNECTING)]).
Proof. vm_compute. reflexivity. Qed.

Definition node : option string := Some "ws://n".

(** Connected, rendered again, and the first socket has closed since. *)
Definition shown_twice : list event := [Opens 0; Rerun true true node true; Closes 0; Opens 1].

Lemma one_socket_one_timer_witness :
  ∃ s, run shown_twice (mounted true true node true) = Some s ∧ (live (machine s) 1 ∧ waiting (machine s) 0) ∧
    ¬ (live (machine s) 1 ∧ waiting (machine s) 1).
Proof.
  eexists. split; [vm_compute; reflexivity|]. split.
  - split; [exists 1%nat, OPEN; by vm_compute|]. eexists. split; [vm_compute; left|done].
  - refine (proj2 (proj2 (one_socket_one_timer _ 1 _))). exists true, true, node, true, shown_twice. vm_compute. reflexivity.
Defined.

Lemma cleaned_up_effect_stays_witness :
  ∃ s s', run [Opens 0] (mounted true true node true) = Some s ∧ run [Unmount; Closes 0; Fires 1 node false 7; Fires 2 node true 9] s = Some s' ∧
    active (machine s') = None ∧ busy (machine s') 0.
Proof.
  eexists. eexists. split; [vm_compute; reflexivity|]. split; [vm_compute; reflexivity|]. split; [reflexivity|].
  refine (proj1 (cleaned_up_effect_stays _ Unmount [Closes 0; Fires 1 node false 7; Fires 2 node true 9] _ 0 _ _ _ _ _ _)).
  - exists true, true, node, true, [Opens 0]. vm_compute. reflexivity.
  - reflexivity.
  - exists 0%nat, OPEN. by vm_compute.
  - exact Logic.I.
  - repeat constructor; done.
  - vm_compute. reflexivity.
Defined.

Lemma shown_effect_connects_witness : ∃ s,
  run [Fires 0 node true 5; Errors 0; Closes 0] (mounted true true node false) = Some s ∧ busy (machine s) 0.
Proof.
  eexists. split; [vm_compute; reflexivity|].
  refine (shown_effect_connects true true node false [Fires 0 node true 5; Errors 0; Closes 0] _ 0 _ _ _ _); [done|repeat constructor; done| |reflexivity].
  vm_compute. reflexivity.
Defined.
