(* ===== verification/I18n.v ===== *)
(** * [I18n] (apps/web/wallet/src/services/i18n.ts)

    The chosen language with its stored copy, the document's direction, translations by dotted
    keys and relative times. A language's bundle is imported asynchronously, so that loads may be
    under way together and arrive in any order. *)

From Stdlib Require Import Ascii String.
From S2P Require Import Prelude JsMap JsNumber JsString Json Store.

(** ** Languages *)

Inductive Locale := en | es | fr | de | zh | ja | ko | ru | pt | ar.
#[export] Instance Locale_eq_dec : EqDecision Locale.
Proof. solve_decision. Defined.

Definition locale_text (l : Locale) : string :=
  match l with
  | en => "en" | es => "es" | fr => "fr" | de => "de" | zh => "zh"
  | ja => "ja" | ko => "ko" | ru => "ru" | pt => "pt" | ar => "ar"
  end.

(** [i18nConfig] *)
Definition defaultLocale : Locale := en.
Definition locales : list Locale := [en; es; fr; de; zh; ja; ko; ru; pt; ar].
Definition rtlLocales : list Locale := [ar].

(** [i18nConfig.locales.includes(s)], with the language it is. *)
Definition locale_of (s : string) : option Locale := js_find (λ l, str_eqb (locale_text l) s) locales.

(** ** State *)

(** [LOCALE_KEY] is the stored text, [dir] and [lang] belong to the document, and [importing] lists
    the loads that have not got their bundle yet. *)
Record I18n := MkI18n {
  currentLocale : Locale;
  translations : json;
  LOCALE_KEY : option string;
  dir : string;
  lang : string;
  importing : list Locale;
}.

Definition set_translations t s := MkI18n (currentLocale s) t (LOCALE_KEY s) (dir s) (lang s) (importing s).
Definition set_locale l s := MkI18n l (translations s) (LOCALE_KEY s) (dir s) (lang s) (importing s).
Definition set_stored k s := MkI18n (currentLocale s) (translations s) k (dir s) (lang s) (importing s).
Definition set_dir d s := MkI18n (currentLocale s) (translations s) (LOCALE_KEY s) d (lang s) (importing s).
Definition set_lang x s := MkI18n (currentLocale s) (translations s) (LOCALE_KEY s) (dir s) x (importing s).
Definition set_importing q s := MkI18n (currentLocale s) (translations s) (LOCALE_KEY s) (dir s) (lang s) q.

Abbreviation M := (js (I18n * Env)).

(** A page whose document has the direction [d] and the language [x]. *)
Definition fresh (k : option string) (d x : string) : I18n := MkI18n defaultLocale (JObj []) k d x [].

(** [loadLocale], up to the import. *)
Definition loadLocale (l : Locale) : M () := modify_this (λ s, set_importing (importing s ++ [l]) s).

(** [translations.default || translations] *)
Definition default_export (bundle : json) : json :=
  match field "default" bundle with Some d => if truthy_json d then d else bundle | None => bundle end.

Definition rtl (l : Locale) : bool := bool_decide (l ∈ rtlLocales).

(** [loadLocale], from the import on: [None] where it failed. *)
Definition loadLocale_resume (l : Locale) (bundle : option json) : M () :=
  js_try (
    match bundle with
    | None => js_throw "import"
    | Some b =>
        modify_this (set_translations (default_export b));;
        modify_this (set_locale l);;
        ls_use (ls_setItem (set_stored (Some (locale_text l))));;
        modify_this (set_dir (if rtl l then "rtl" else "ltr"));;
        modify_this (set_lang (locale_text l))
    end)
    (λ _, mret ()).

Section Browser.
(** [navigator.language] *)
Context (language : string).

Definition getPreferredLocale (s : I18n) : Locale :=
  match (if truthy_str (LOCALE_KEY s) then LOCALE_KEY s ≫= locale_of else None) with
  | Some l => l
  | None => default defaultLocale (locale_of (default "" (head (split_on "-" language))))
  end.

Definition constructor : M () :=
  b ← is_browser;
  js_when b (s ← this; loadLocale (getPreferredLocale s)).
End Browser.

(** A language is asked for, or the [n]-th import under way ends. *)
Inductive event := Asks (l : Locale) | Arrives (n : nat) (bundle : option json).

Definition exec (ev : event) : M () :=
  match ev with
  | Asks l => loadLocale l
  | Arrives n bundle =>
      s ← this;
      match importing s !! n with
      | None => mret ()
      | Some l => modify_this (set_importing (delete n (importing s)));; loadLocale_resume l bundle
      end
  end.

Definition isRTL (s : I18n) : bool := rtl (currentLocale s).
Definition getAvailableLocales : list Locale := locales.

(** ** Translation *)

(** [k in value] and [value[k]] for an object or an array; what objects inherit never leads to a string. *)
Definition entry (k : string) (value : json) : option json :=
  match value with
  | JObj l => map_get k l
  | JArr l => i ← array_index k; l !! Z.to_nat i
  | _ => None
  end.

Fixpoint find_key (keys : list string) (value : json) : option json :=
  match keys with [] => Some value | k :: keys' => entry k value ≫= find_key keys' end.

(** What is before and after the first [pat] in [s]. *)
Fixpoint cut (pat s : string) : option (string * string) :=
  if startsWith pat s then Some (EmptyString, String.substring (String.length pat) (String.length s - String.length pat) s)
  else match s with
       | EmptyString => None
       | String c s' => (λ p, (String c p.1, p.2)) <$> cut pat s'
       end.

(** The replacement text of [String.prototype.replace], whose dollar signs are special. *)
Fixpoint expand (matched before after rep : string) : string :=
  match rep with
  | EmptyString => EmptyString
  | String c r =>
      let plain := String c (expand matched before after r) in
      if negb (Ascii.eqb c "$") then plain
      else match r with
           | EmptyString => plain
           | String d r' =>
               if Ascii.eqb d "$" then String "$" (expand matched before after r')
               else if Ascii.eqb d "&" then matched +:+ expand matched before after r'
               else if Ascii.eqb d "`" then before +:+ expand matched before after r'
               else if Ascii.eqb d "'" then after +:+ expand matched before after r'
               else plain
           end
  end.

(** [s.replace(pat, rep)] *)
Definition replace (pat rep s : string) : string :=
  match cut pat s with Some (a, b) => a +:+ expand pat a b rep +:+ b | None => s end.

Definition placeholder (param : string) : string := "{" +:+ param +:+ "}".

(** [params] with its values as texts, in the order of [Object.entries]. *)
Definition t (s : I18n) (key : string) (params : option (list (string * string))) : string :=
  match find_key (split_on "." key) (translations s) with
  | Some (JStr value) => foldl (λ v p, replace (placeholder p.1) p.2 v) value (default [] params)
  | _ => key
  end.

(** ** Relative times *)

Inductive TimeUnit := second | minute | hour | day | month | year.

(** The number and the unit for a difference in seconds. *)
Definition relative (diffInSeconds : Z) : Z * TimeUnit :=
  if diffInSeconds <? 60 then (- diffInSeconds, second)
  else if diffInSeconds <? 3600 then (- (diffInSeconds / 60), minute)
  else if diffInSeconds <? 86400 then (- (diffInSeconds / 3600), hour)
  else if diffInSeconds <? 2592000 then (- (diffInSeconds / 86400), day)
  else if diffInSeconds <? 31536000 then (- (diffInSeconds / 2592000), month)
  else (- (diffInSeconds / 31536000), year).

(** [format] is [Intl.RelativeTimeFormat], [date] the time value: an invalid one compares with nothing and
    reaches the formatter. *)
Definition formatRelativeTime (format : Locale → Z → TimeUnit → string) (s : I18n) (now : Z) (date : option Z) : result string :=
  match date with
  | None => Throw "RangeError"
  | Some d => let r := relative ((now - d) / 1000) in Ok (format (currentLocale s) r.1 r.2)
  end.

(** * Theorems *)

(** ** Languages *)

Lemma locale_of_text l : locale_of (locale_text l) = Some l.
Proof. by destruct l. Qed.

(** The stored language, the direction and the language of the document are those of the shown one. *)
Definition settled (s : I18n) : Prop :=
  LOCALE_KEY s = Some (locale_text (currentLocale s)) ∧ dir s = (if isRTL s then "rtl" else "ltr") ∧ lang s = locale_text (currentLocale s).

Lemma preferred_settled language s : settled s → getPreferredLocale language s = currentLocale s.
Proof. intros (Hk & _ & _). unfold getPreferredLocale. rewrite Hk. by destruct (currentLocale s). Qed.

Lemma arrives_run l b w : browser w.2 = true →
  loadLocale_resume l (Some b) w =
  (Ok (), (MkI18n l (default_export b)
    (if writable w.2 then Some (locale_text l) else LOCALE_KEY w.1)
    (if writable w.2 then if rtl l then "rtl" else "ltr" else dir w.1)
    (if writable w.2 then locale_text l else lang w.1) (importing w.1), w.2)).
Proof.
  intros Hb. unfold loadLocale_resume, js_try. js_run. unfold ls_use. js_run. rewrite Hb. js_run. by destruct (writable w.2).
Qed.

(** An import that fails changes nothing. *)
Lemma failed_import_keeps l w : loadLocale_resume l None w = (Ok (), w).
Proof. by destruct w. Qed.

(** The state of a page on which nothing has arrived. *)
Definition untouched (k : option string) (d x : string) (s : I18n) : Prop :=
  currentLocale s = en ∧ translations s = JObj [] ∧ LOCALE_KEY s = k ∧ dir s = d ∧ lang s = x.

(** The language and the bundle that arrived last, when the languages [q] are being imported; [last] is the one before. *)
Fixpoint last_arrived (q : list Locale) (evs : list event) (last : option (Locale * json)) : option (Locale * json) :=
  match evs with
  | [] => last
  | Asks l :: evs => last_arrived (q ++ [l]) evs last
  | Arrives n b :: evs =>
      match q !! n, b with
      | None, _ => last_arrived q evs last
      | Some _, None => last_arrived (delete n q) evs last
      | Some l, Some bundle => last_arrived (delete n q) evs (Some (l, bundle))
      end
  end.

(** What the page is after the last arrival. *)
Definition shows (k : option string) (d x : string) (last : option (Locale * json)) (s : I18n) : Prop :=
  match last with
  | None => untouched k d x s
  | Some (l, bundle) => currentLocale s = l ∧ translations s = default_export bundle ∧ settled s
  end.

Lemma events_shown k d x e evs last s : browser e = true → writable e = true → shows k d x last s →
  ∃ s', js_forEach exec evs (s, e) = (Ok (), (s', e)) ∧ shows k d x (last_arrived (importing s) evs last) s'.
Proof.
  intros Hb Hw. revert last s. induction evs as [|ev evs IH]; intros last s Hs; cbn [js_forEach last_arrived]; [by exists s|].
  destruct ev as [l|n b]; cbn [exec].
  - unfold loadLocale. js_run. apply (IH last (set_importing (importing s ++ [l]) s)). by destruct last as [[]|].
  - js_run. destruct (importing s !! n) as [l|] eqn:E; [|js_run; by apply IH]. destruct b as [b|]; js_run.
    + rewrite (run_Ok _ _ _ _ _ (arrives_run _ _ (set_importing (delete n (importing s)) s, e) Hb)). cbn [fst snd]. rewrite Hw.
      change (delete n (importing s)) with (importing (MkI18n l (default_export b) (Some (locale_text l)) (if rtl l then "rtl" else "ltr") (locale_text l) (delete n (importing s)))) at 2.
      by apply IH.
    + rewrite (run_Ok _ _ _ _ _ (failed_import_keeps l _)). apply (IH last (set_importing (delete n (importing s)) s)). by destruct last as [[]|].
Qed.

(** C37: With a storage that can be written, in whatever order the bundles arrive and whichever fail: the page shows the
    language that arrived last, with its texts and in its direction (right to left for Arabic alone), and the next page
    asks for that language; as long as none has arrived, nothing has changed. *)
Theorem locale_survives_reload language evs e k d x : browser e = true → writable e = true →
  ∃ s, (constructor language;; js_forEach exec evs) (fresh k d x, e) = (Ok (), (s, e)) ∧
  match last_arrived [getPreferredLocale language (fresh k d x)] evs None with
  | None => untouched k d x s
  | Some (l, bundle) => currentLocale s = l ∧ translations s = default_export bundle ∧ LOCALE_KEY s = Some (locale_text l) ∧
      lang s = locale_text l ∧ dir s = (if decide (l = ar) then "rtl" else "ltr") ∧
      ∀ d' x', constructor language (fresh (LOCALE_KEY s) d' x', e) = (Ok (), (set_importing [l] (fresh (LOCALE_KEY s) d' x'), e))
  end.
Proof.
  intros Hb Hw. unfold constructor at 1. js_run. rewrite Hb. cbn [js_when]. js_run. unfold loadLocale. js_run.
  destruct (events_shown k d x e evs None (set_importing (importing (fresh k d x) ++ [getPreferredLocale language (fresh k d x)]) (fresh k d x)) Hb Hw)
    as (s & E & Hs); [done|]. exists s. split; [exact E|]. cbn [importing set_importing fresh app] in Hs.
  destruct (last_arrived _ _ _) as [[l bundle]|]; [|exact Hs]. destruct Hs as (<- & Ht & Hset). pose proof Hset as (Hk & Hdir & Hlang).
  split_and!; [done..| |]; [rewrite Hdir; unfold isRTL; by destruct (currentLocale s)|]. intros d' x'.
  unfold constructor. js_run. rewrite Hb. cbn [js_when]. js_run. unfold loadLocale, modify_this. cbn [fst snd].
  unfold getPreferredLocale. rewrite Hk. by destruct (currentLocale s).
Qed.

(** On a full storage a language is shown in the direction of another. *)
Theorem full_storage_keeps_direction l b w : browser w.2 = true → writable w.2 = false →
  let s := (loadLocale_resume l (Some b) w).2.1 in
  currentLocale s = l ∧ dir s = dir w.1 ∧ lang s = lang w.1 ∧ LOCALE_KEY s = LOCALE_KEY w.1.
Proof. intros Hb Hw. rewrite arrives_run by done. by rewrite Hw. Qed.

(** The user asks for Spanish, then for French; the Spanish bundle comes last and stays. *)
Example first_wish_wins :
  (λ s, (currentLocale s, LOCALE_KEY s)) (js_forEach exec [Asks es; Asks fr; Arrives 1 (Some (JObj [])); Arrives 0 (Some (JObj []))]
    (fresh None "ltr" "en", demo_env)).2.1 = (es, Some "es").
Proof. reflexivity. Qed.

(** ** Translations *)

(** The texts of a bundle with their paths. *)
Fixpoint leaves (j : json) : list (list string * string) :=
  match j with
  | JStr s => [([], s)]
  | JObj l => (fix go (l : list (string * json)) := match l with
      | [] => []
      | (k, v) :: l' => ((λ p, (k :: p.1, p.2)) <$> leaves v) ++ go l'
      end) l
  | _ => []
  end.

Definition dotless (k : string) : Prop := str_all (not_char ".") k = true.

(** Keys are distinct in each object and have no dot. *)
Fixpoint well_keyed (j : json) : Prop :=
  match j with
  | JObj l => NoDup l.*1 ∧ (fix go (l : list (string * json)) := match l with
      | [] => True
      | (k, v) :: l' => dotless k ∧ well_keyed v ∧ go l'
      end) l
  | _ => True
  end.

Lemma leaves_obj l path s : (path, s) ∈ leaves (JObj l) → ∃ k v p, path = k :: p ∧ (k, v) ∈ l ∧ (p, s) ∈ leaves v.
Proof.
  cbn. induction l as [|[k v] l IH]; [by intros ?%elem_of_nil|]. rewrite elem_of_app. intros [H|H].
  - apply list_elem_of_fmap in H as ([p s'] & [= -> ->] & Hp). exists k, v, p. split_and!; [done|by left|done].
  - destruct (IH H) as (k' & v' & p & -> & Hin & Hp). exists k', v', p. split_and!; [done|by right|done].
Qed.

Lemma well_keyed_obj l k v : well_keyed (JObj l) → (k, v) ∈ l → map_get k l = Some v ∧ dotless k ∧ well_keyed v.
Proof.
  intros [Hnd Hl] Hin. split; [by apply map_get_elem|]. clear Hnd. induction l as [|[k' v'] l IH]; [by apply elem_of_nil in Hin|].
  destruct Hl as (Hk & Hv & Hl). apply elem_of_cons in Hin as [[= -> ->]|Hin]; [done|by apply IH].
Qed.

Lemma find_leaf path j s : well_keyed j → (path, s) ∈ leaves j → find_key path j = Some (JStr s) ∧ Forall dotless path.
Proof.
  revert j. induction path as [|k p IH]; intros j Hj Hp.
  - destruct j as [| | | | |l]; try by apply elem_of_nil in Hp.
    + apply list_elem_of_singleton in Hp as [= ->]. done.
    + by apply leaves_obj in Hp as (k & v & p & ? & _).
  - destruct j as [| | | | |l]; try by apply elem_of_nil in Hp.
    + by apply list_elem_of_singleton in Hp.
    + apply leaves_obj in Hp as (k' & v & p' & [= <- <-] & Hin & Hp). destruct (well_keyed_obj l k v Hj Hin) as (Hget & Hk & Hv).
      destruct (IH v Hv Hp) as [Hf Hall]. split; [cbn [find_key entry]; by rewrite Hget|by constructor].
Qed.

(** Every text of a bundle is found under its keys joined with dots. *)
Theorem every_text_is_found s path value : well_keyed (translations s) → (path, value) ∈ leaves (translations s) → path ≠ [] →
  t s (join "." path) None = value.
Proof.
  intros Hj Hp Hne. destruct (find_leaf path _ _ Hj Hp) as [Hf Hall]. unfold t. change (join "." path) with (join (String "." "") path). by rewrite split_join, Hf.
Qed.

(** ** Placeholders *)

Definition lacks (c : ascii) (s : string) : Prop := str_all (λ a, negb (Ascii.eqb a c)) s = true.

Lemma lacks_cons c a s : lacks c (String a s) → Ascii.eqb a c = false ∧ lacks c s.
Proof. unfold lacks. cbn. by rewrite andb_true_iff, negb_true_iff. Qed.

Lemma substring_tail n a s : String.substring (S n) (String.length s - n) (String a s) = String.substring n (String.length s - n) s.
Proof. done. Qed.

Lemma cut_first p a b : lacks "{" a → cut (placeholder p) (a +:+ placeholder p +:+ b) = Some (a, b).
Proof.
  induction a as [|c a IH].
  - intros _. change ("" +:+ placeholder p +:+ b) with (placeholder p +:+ b).
    assert (∀ r, startsWith (placeholder p) r = true → cut (placeholder p) r =
      Some ("", String.substring (String.length (placeholder p)) (String.length r - String.length (placeholder p)) r)) as -> by by intros [|? ?] E; cbn [cut]; rewrite E.
    + f_equal. f_equal. rewrite length_app_str. replace (_ + _ - _)%nat with (String.length b) by lia. apply substring_app.
    + apply startsWith_app.
  - intros [Hc Ha]%lacks_cons. specialize (IH Ha).
    change (String c a +:+ placeholder p +:+ b) with (String c (a +:+ placeholder p +:+ b)).
    assert (startsWith (placeholder p) (String c (a +:+ placeholder p +:+ b)) = false) as E.
    { unfold placeholder. cbn [startsWith String.append "+:+"]. change (startsWith (String "{" (p +:+ "}")) (String c (a +:+ placeholder p +:+ b)) = false).
      cbn [startsWith]. rewrite Ascii.eqb_sym, Hc. done. }
    cbn [cut]. rewrite E, IH. done.
Qed.

Lemma expand_plain m x y rep : lacks "$" rep → expand m x y rep = rep.
Proof. induction rep as [|c rep IH]; [done|]. intros [Hc Hr]%lacks_cons. cbn. rewrite Hc. cbn. by rewrite IH. Qed.

(** The first placeholder is filled with the parameter. *)
Theorem placeholder_filled s key a p b v : lacks "{" a → lacks "$" v →
  find_key (split_on "." key) (translations s) = Some (JStr (a +:+ placeholder p +:+ b)) → t s key (Some [(p, v)]) = a +:+ v +:+ b.
Proof. intros Ha Hv E. unfold t. rewrite E. cbn. unfold replace. by rewrite cut_first, expand_plain. Qed.

Definition greeting (text : string) : I18n := set_translations (JObj [("hi", JStr text)]) (fresh None "ltr" "en").

(** Only the first of two is; a name with dollars is taken for a pattern; a filled text is filled again. *)
Example second_placeholder_stays : t (greeting "{n} and {n}") "hi" (Some [("n", "Al")]) = "Al and {n}".
Proof. reflexivity. Qed.
Example dollars_vanish : t (greeting "to {n}!") "hi" (Some [("n", "$$5 $&")]) = "to $5 {n}!".
Proof. reflexivity. Qed.
Example filled_twice : t (greeting "{a} {b}") "hi" (Some [("a", "{b}"); ("b", "x")]) = "x {b}".
Proof. reflexivity. Qed.
Example missing_key : t (greeting "x") "hi.there" None = "hi.there".
Proof. reflexivity. Qed.

(** ** Relative times *)

Definition seconds_in (u : TimeUnit) : Z :=
  match u with second => 1 | minute => 60 | hour => 3600 | day => 86400 | month => 2592000 | year => 31536000 end.
Definition most (u : TimeUnit) : option Z :=
  match u with second | minute => Some 59 | hour => Some 23 | day => Some 29 | month => Some 12 | year => None end.

(** A time that has passed is told in the largest unit that fits, in whole units rounded down. *)
Theorem relative_past diff : 0 <= diff →
  let '(n, u) := relative diff in
  - n * seconds_in u <= diff < (- n + 1) * seconds_in u ∧ n <= 0 ∧ (u ≠ second → n < 0) ∧
  match most u with Some top => - n <= top | None => True end.
Proof.
  intros H. unfold relative.
  pose proof (Z.div_mod diff 60). pose proof (Z.mod_pos_bound diff 60). pose proof (Z.div_mod diff 3600). pose proof (Z.mod_pos_bound diff 3600).
  pose proof (Z.div_mod diff 86400). pose proof (Z.mod_pos_bound diff 86400). pose proof (Z.div_mod diff 2592000).
  pose proof (Z.mod_pos_bound diff 2592000). pose proof (Z.div_mod diff 31536000). pose proof (Z.mod_pos_bound diff 31536000).
  repeat lazymatch goal with |- context [diff <? ?k] => destruct (Z.ltb_spec diff k); [by cbn [seconds_in most]; split_and!; try (intros Hu; by destruct Hu); intros; lia|] end.
  by cbn [seconds_in most]; split_and!; intros; lia || done.
Qed.

(** A time to come is told in seconds, however far it is. *)
Theorem relative_future diff : diff < 0 → relative diff = (- diff, second).
Proof. intros H. unfold relative. by rewrite (proj2 (Z.ltb_lt _ _)) by lia. Qed.

Definition words : json := JObj [("wallet", JObj [("title", JStr "Monedero"); ("send", JStr "Enviar")]); ("ok", JStr "Bien")].

Lemma locale_survives_reload_witness :
  let evs := [Asks es; Asks ar; Arrives 1 None; Arrives 0 None; Arrives 0 (Some (JObj [("default", words)]))] in
  ∃ s, (constructor "fr-CA";; js_forEach exec evs) (fresh None "" "en", demo_env) = (Ok (), (s, demo_env)) ∧
  currentLocale s = ar ∧ dir s = "rtl" ∧ constructor "fr-CA" (fresh (LOCALE_KEY s) "" "en", demo_env) =
    (Ok (), (set_importing [ar] (fresh (LOCALE_KEY s) "" "en"), demo_env)).
Proof.
  intros evs. destruct (locale_survives_reload "fr-CA" evs demo_env None "" "en" eq_refl eq_refl) as (s & E & H).
  exists s. split; [exact E|]. destruct H as (Hl & _ & _ & _ & Hd & H). split; [exact Hl|]. split; [exact Hd|]. apply H.
Defined.

Lemma every_text_is_found_witness : t (set_translations words (fresh None "" "en")) "wallet.send" None = "Enviar".
Proof.
  refine (every_text_is_found (set_translations words (fresh None "" "en")) ["wallet"; "send"] "Enviar" _ _ _); [|by right; left|done].
  cbn. repeat split; repeat constructor; set_solver.
Defined.
