(* ===== verification/TaxExport.v ===== *)
(** * [TaxExport] (apps/web/wallet/src/services/taxExport.ts)

    A tax year of [Tax] as a TurboTax file and as the CSV files of CoinTracker and of the wallet.
    The printable report, a page of HTML that the browser keeps as a blob, is a parameter. *)

From Stdlib Require Import Ascii String.
From S2P Require Import Prelude JsNumber JsString Tax JsDate.

Definition type_text (ty : TxType) : string :=
  match ty with
  | buy => "buy" | sell => "sell" | mining => "mining" | staking => "staking" | airdrop => "airdrop" | interest => "interest"
  end.

Definition newline : string := String (ascii_of_nat 10) EmptyString.

Section Host.
(** [date.toLocaleDateString()], the time of the export and the address of the printable report. *)
Context (toLocaleDateString : Z → string) (generatePDF : TaxYear → string).

(** [`${x}`] for a number that may be undefined. *)
Definition optional_text (x : option num) : string := match x with Some n => num_to_string n | None => "undefined" end.

(** [holdingPeriod > 365] *)
Definition long_held (tx : TaxTransaction) : bool :=
  match holdingPeriod tx with Some h => SFltb (of_Z 365) h | None => false end.

Definition turbotax_record (tx : TaxTransaction) : list string :=
  [if long_held tx then "D" else "TD"; "N321"; "C1"; "LKubercoin (" +:+ num_to_string (amount tx) +:+ " KC)";
   "D" +:+ toLocaleDateString (date tx); "D" +:+ toLocaleDateString (date tx);
   "$" +:+ optional_text (proceeds tx); "$" +:+ optional_text (costBasis tx); "^"].

Definition turbotax_lines (now : Z) (taxData : TaxYear) : list string :=
  ["V042"; "AKubercoin Tax Export"; "D" +:+ toLocaleDateString now; "^"]
  ++ mjoin (turbotax_record <$> js_filter (is_type sell) (transactions taxData)).

Definition exportToTurboTax (now : Z) (taxData : TaxYear) : string :=
  String.concat "" ((λ l, l +:+ newline) <$> turbotax_lines now taxData).

Definition cointracker_header : list string :=
  ["Date"; "Received Quantity"; "Received Currency"; "Sent Quantity"; "Sent Currency"; "Fee Amount"; "Fee Currency"; "Tag"].

Definition cointracker_cells (tx : TaxTransaction) : list string :=
  let value := num_to_string (nmul (amount tx) (price tx)) in
  match type tx with
  | buy => [toISOString (date tx); num_to_string (amount tx); "KC"; value; "USD"; "0"; "USD"; "buy"]
  | sell => [toISOString (date tx); value; "USD"; num_to_string (amount tx); "KC"; "0"; "USD"; "sell"]
  | ty => [toISOString (date tx); num_to_string (amount tx); "KC"; "0"; "USD"; "0"; "USD"; type_text ty]
  end.

(** Rows of cells as the text of a CSV file. *)
Definition csv_text (rows : list (list string)) : string := join newline (join "," <$> rows).

Definition exportToCoinTracker (taxData : TaxYear) : string :=
  csv_text (cointracker_header :: (cointracker_cells <$> transactions taxData)).

Definition csv_header : list string :=
  ["Date"; "Type"; "Amount (KC)"; "Price (USD)"; "Cost Basis (USD)"; "Proceeds (USD)"; "Gain/Loss (USD)";
   "Holding Period (days)"; "Term"].

(** [x?.toFixed(2) || ''] *)
Definition optional_fixed (x : option num) : string := match x with Some n => to_fixed 2 n | None => "" end.

Definition csv_cells (tx : TaxTransaction) : list string :=
  [toLocaleDateString (date tx); type_text (type tx); to_fixed 4 (amount tx); to_fixed 2 (price tx);
   optional_fixed (costBasis tx); optional_fixed (proceeds tx); optional_fixed (gainLoss tx);
   match holdingPeriod tx with Some h => if truthy_num h then num_to_string h else "" | None => "" end;
   if long_held tx then "Long" else "Short"].

Definition exportToCSV (taxData : TaxYear) : string := csv_text (csv_header :: (csv_cells <$> transactions taxData)).

Definition exportTaxData (now : Z) (taxData : TaxYear) (format : string) : result string :=
  if str_eqb format "turbotax" then Ok (exportToTurboTax now taxData)
  else if str_eqb format "cointracker" then Ok (exportToCoinTracker taxData)
  else if str_eqb format "csv" then Ok (exportToCSV taxData)
  else if str_eqb format "pdf" then Ok (generatePDF taxData)
  else Throw "Unsupported format".
End Host.

(** A CSV file without quotes, read back. *)
Definition read_csv (text : string) : list (list string) := split_on "," <$> split_on (ascii_of_nat 10) text.

(** * Theorems *)

(** ** Cells that can be read back *)

Definition cell_char (c : ascii) : bool := not_char "," c && not_char (ascii_of_nat 10) c.
Definition plain_cell (s : string) : Prop := str_all cell_char s = true.

Lemma number_cell s : str_all number_char s = true → plain_cell s.
Proof. apply str_all_impl. intros c. by destruct c as [[] [] [] [] [] [] [] []]. Qed.

Lemma cell_no_comma s : plain_cell s → str_all (not_char ",") s = true.
Proof. apply str_all_impl. intros c. unfold cell_char. by intros [? _]%andb_true_iff. Qed.

Lemma cell_no_newline s : plain_cell s → str_all (not_char (ascii_of_nat 10)) s = true.
Proof. apply str_all_impl. intros c. unfold cell_char. by intros [_ ?]%andb_true_iff. Qed.

Lemma plain_app a b : plain_cell a → plain_cell b → plain_cell (a +:+ b).
Proof. unfold plain_cell. rewrite str_all_app. by intros -> ->. Qed.

Lemma plain_optional_fixed x : plain_cell (optional_fixed x).
Proof. destruct x; [apply number_cell, to_fixed_number|done]. Qed.

Lemma plain_iso t : plain_cell (toISOString t).
Proof.
  assert (∀ n z, 0 <= z → plain_cell (digits_padded n z)) as Hd by (intros; by apply number_cell, digits_padded_number).
  pose proof (month_date_bounds (Day t)) as [Hm Hdt]. pose proof (Z.mod_pos_bound t msPerDay ltac:(done)) as Hms.
  fold (TimeWithinDay t) in Hms. unfold toISOString, iso_date, iso_year, two, msPerDay in *. cbv zeta. set (ms := TimeWithinDay t) in *.
  repeat first [apply Hd; Z.to_euclidean_division_equations; lia|apply plain_app]; try done.
  destruct (_ && _) eqn:E; [apply Hd; lia|]. apply plain_app; [by case_match|apply Hd; lia].
Qed.

Lemma plain_row row : row ≠ [] → Forall plain_cell row →
  split_on "," (join "," row) = row ∧ str_all (not_char (ascii_of_nat 10)) (join "," row) = true.
Proof.
  intros Hne Hr. split.
  - apply (split_join ","); [done|]. eapply Forall_impl; [exact Hr|]. apply cell_no_comma.
  - clear Hne. induction Hr as [|c row Hc Hr IH]; [done|]. destruct row as [|d row]; [by apply cell_no_newline|].
    change (join "," (c :: d :: row)) with (c +:+ String "," (join "," (d :: row))). rewrite str_all_app, cell_no_newline by done. exact IH.
Qed.

(** A file of plain cells is read as it was written. *)
Lemma csv_read rows : rows ≠ [] → Forall (λ row, row ≠ [] ∧ Forall plain_cell row) rows → read_csv (csv_text rows) = rows.
Proof.
  intros Hne Hr. unfold read_csv, csv_text, newline. rewrite split_join.
  - rewrite <- list_fmap_compose. rewrite <- (list_fmap_id rows) at 2. apply list_fmap_ext. intros i row Hi.
    apply (Forall_lookup_1 _ _ _ _ Hr) in Hi as [Hrow Hcells]. by apply plain_row.
  - by destruct rows.
  - apply Forall_fmap. eapply Forall_impl; [exact Hr|]. intros row [Hrow Hcells]. by apply plain_row.
Qed.

Lemma cointracker_plain tx : cointracker_cells tx ≠ [] ∧ Forall plain_cell (cointracker_cells tx).
Proof.
  unfold cointracker_cells. pose proof (λ x, number_cell _ (num_to_string_number x)) as Hn. pose proof (plain_iso (date tx)) as Hi.
  destruct (type tx); (split; [done|]); repeat constructor; auto.
Qed.

(** A row read by its header and its tag: what was received and sent, each with its currency, for no fee. *)
Record Transfer := MkTransfer { t_when : Z; t_received : string * string; t_sent : string * string; t_tag : TxType }.

Definition tag_type (s : string) : option TxType := js_find (λ ty, str_eqb (type_text ty) s) [buy; sell; mining; staking; airdrop; interest].

Definition read_transfer (row : list string) : option Transfer :=
  let cell name := snd <$> js_find (λ p, str_eqb p.1 name) (zip cointracker_header row) in
  when ← cell "Date" ≫= Date_parse;
  rq ← cell "Received Quantity"; rc ← cell "Received Currency"; sq ← cell "Sent Quantity"; sc ← cell "Sent Currency";
  ty ← cell "Tag" ≫= tag_type;
  if bool_decide (cell "Fee Amount" = Some "0") && bool_decide (length row = 8%nat) then Some (MkTransfer when (rq, rc) (sq, sc) ty) else None.

(** A purchase receives coins for their value in dollars, a sale sends them for it, any income receives them for nothing. *)
Definition transfer_of (tx : TaxTransaction) : Transfer :=
  let coins := (num_to_string (amount tx), "KC") in
  let dollars := (num_to_string (nmul (amount tx) (price tx)), "USD") in
  match type tx with
  | sell => MkTransfer (date tx) dollars coins sell
  | buy => MkTransfer (date tx) coins dollars buy
  | ty => MkTransfer (date tx) coins ("0", "USD") ty
  end.

(** C38: The file for CoinTracker, read as CSV by its header, has a row for each transaction, in order, with its time and
    its type; a purchase receives the amount in KC and sends its value in USD, a sale sends the amount and receives the
    value, and any other income receives the amount and sends nothing; there are no fees. Times are in the years 0 to 9999. *)
Theorem cointracker_read_back taxData : Forall (λ tx, 0 <= YearFromDay (Day (date tx)) <= 9999) (transactions taxData) →
  head (read_csv (exportToCoinTracker taxData)) = Some cointracker_header ∧
  read_transfer <$> drop 1 (read_csv (exportToCoinTracker taxData)) = (λ tx, Some (transfer_of tx)) <$> transactions taxData.
Proof.
  intros Hd. assert (read_csv (exportToCoinTracker taxData) = cointracker_header :: (cointracker_cells <$> transactions taxData)) as ->.
  { apply csv_read; [done|]. constructor; [split; [done|by repeat constructor]|]. apply Forall_fmap, Forall_true. apply cointracker_plain. }
  split; [done|]. rewrite skipn_cons, drop_0, <- list_fmap_compose. apply list_fmap_ext. intros i tx Hi.
  apply (Forall_lookup_1 _ _ _ _ Hd) in Hi. pose proof (Date_parse_ISO (date tx) Hi) as Hp. unfold compose, cointracker_cells, transfer_of, read_transfer.
  destruct (type tx); cbn -[Date_parse toISOString num_to_string str_eqb];
    repeat match goal with |- context [str_eqb ?u ?v] => let b := eval vm_compute in (str_eqb u v) in change (str_eqb u v) with b; cbv iota end;
    cbn -[Date_parse toISOString num_to_string str_eqb]; rewrite Hp; cbn -[num_to_string]; reflexivity.
Qed.

(** Where the locale's dates have no comma, the wallet's file has nine cells for each transaction. *)
Theorem csv_read_back toLocaleDateString taxData : (∀ d, plain_cell (toLocaleDateString d)) →
  read_csv (exportToCSV toLocaleDateString taxData) = csv_header :: (csv_cells toLocaleDateString <$> transactions taxData).
Proof.
  intros Hl. apply csv_read; [done|]. constructor; [split; [done|by repeat constructor]|]. apply Forall_fmap, Forall_true.
  intros tx. split; [done|]. pose proof (λ n x, number_cell _ (to_fixed_number n x)) as Hf. pose proof plain_optional_fixed as Ho.
  unfold csv_cells. repeat constructor; auto; [by destruct (type tx)| |by destruct (long_held tx)].
  destruct (holdingPeriod tx) as [h|]; [|done]. destruct (truthy_num h); [apply number_cell, num_to_string_number|done].
Qed.

(** The sale's date is given twice, as the date of purchase as well, and every sale has the code of short-term ones. *)
Theorem turbotax_dates_equal toLocaleDateString tx i l : turbotax_record toLocaleDateString tx !! i = Some l →
  (i = 4%nat ∨ i = 5%nat → l = "D" +:+ toLocaleDateString (date tx)) ∧ (i = 1%nat → l = "N321").
Proof. intros H. split; [intros [->| ->]|intros ->]; by injection H. Qed.

Definition demo_year : TaxYear :=
  MkYear 2024 FIFO "US"
    [MkTax "a" 1704067200000 buy (of_Z 3) (of_Z 10) None None None None;
     MkTax "b" 1717200000000 sell (of_Z 2) (of_Z 12) (Some (of_Z 20)) (Some (of_Z 24)) (Some (of_Z 4)) (Some (of_Z 152));
     MkTax "c" 1719792000000 mining (lit 5 1) (of_Z 11) None None None None]
    (of_Z 4) (of_Z 4) nzero (Some (of_Z 24)) (Some (of_Z 15)) (lit 55 1) nzero nzero nzero (lit 55 1) (lit 95 1) nzero.

Lemma cointracker_read_back_witness :
  read_transfer <$> drop 1 (read_csv (exportToCoinTracker demo_year)) =
    [Some (MkTransfer 1704067200000 ("3", "KC") ("30", "USD") buy); Some (MkTransfer 1717200000000 ("24", "USD") ("2", "KC") sell);
     Some (MkTransfer 1719792000000 ("0.5", "KC") ("0", "USD") mining)].
Proof.
  etransitivity; [refine (proj2 (cointracker_read_back demo_year _)); repeat constructor; vm_compute; discriminate|vm_compute; reflexivity].
Defined.
