(* ===== verification/HistoryPage.v ===== *)
(** * The history page (apps/web/wallet/app/wallet/history/page.tsx)

    The transactions of the active wallet with their labels, of [TransactionLabels]: filters, order, search,
    the label dialog and the CSV file. A load asks the wallet and ends when its reply comes. The
    rendering after an event runs the filter effect when one of its dependencies has changed
    ([stale]); the tag that is filtered by is not among them. *)

From Stdlib Require Import Ascii String Btauto.
From stdpp Require Import pretty.
From S2P Require Import Prelude JsMap JsNumber JsString Store Page JsDate Wallet TransactionLabels TaxExport.

(** ** State *)

Record TransactionRecord := MkTx { tx : WalletTransactionRecord; tx_label : option TransactionLabel }.

Inductive Filter := f_all | f_received | f_sent | f_pending.
#[export] Instance Filter_eq_dec : EqDecision Filter.
Proof. solve_decision. Defined.
Inductive SortBy := by_date | by_amount | by_confirmations.
#[export] Instance SortBy_eq_dec : EqDecision SortBy.
Proof. solve_decision. Defined.

(** [loads]: the wallets whose history was asked for and has not come. *)
Record HistoryPage := MkHistory {
  activeWallet : option string;
  transactions : list TransactionRecord;
  filteredTransactions : list TransactionRecord;
  loading : bool;
  error : option string;
  filter : Filter;
  sortBy : SortBy;
  searchTerm : string;
  tagFilter : option string;
  editingTxid : option string;
  labelNote : string;
  labelTags : string;
  labelCategory : string;
  loads : list string;
  stale : bool;
}.

Definition blank : HistoryPage := MkHistory None [] [] false None f_all by_date "" None None "" "" "" [] true.

Definition set_wallet x p := MkHistory x (transactions p) (filteredTransactions p) (loading p) (error p) (filter p) (sortBy p) (searchTerm p) (tagFilter p) (editingTxid p) (labelNote p) (labelTags p) (labelCategory p) (loads p) (stale p).
Definition setTransactions x p := MkHistory (activeWallet p) x (filteredTransactions p) (loading p) (error p) (filter p) (sortBy p) (searchTerm p) (tagFilter p) (editingTxid p) (labelNote p) (labelTags p) (labelCategory p) (loads p) true.
Definition set_filtered x p := MkHistory (activeWallet p) (transactions p) x (loading p) (error p) (filter p) (sortBy p) (searchTerm p) (tagFilter p) (editingTxid p) (labelNote p) (labelTags p) (labelCategory p) (loads p) false.
Definition set_status b e p := MkHistory (activeWallet p) (transactions p) (filteredTransactions p) b e (filter p) (sortBy p) (searchTerm p) (tagFilter p) (editingTxid p) (labelNote p) (labelTags p) (labelCategory p) (loads p) (stale p).
Definition setFilter x p := MkHistory (activeWallet p) (transactions p) (filteredTransactions p) (loading p) (error p) x (sortBy p) (searchTerm p) (tagFilter p) (editingTxid p) (labelNote p) (labelTags p) (labelCategory p) (loads p) (stale p || negb (bool_decide (x = filter p))).
Definition setSortBy x p := MkHistory (activeWallet p) (transactions p) (filteredTransactions p) (loading p) (error p) (filter p) x (searchTerm p) (tagFilter p) (editingTxid p) (labelNote p) (labelTags p) (labelCategory p) (loads p) (stale p || negb (bool_decide (x = sortBy p))).
Definition setSearchTerm x p := MkHistory (activeWallet p) (transactions p) (filteredTransactions p) (loading p) (error p) (filter p) (sortBy p) x (tagFilter p) (editingTxid p) (labelNote p) (labelTags p) (labelCategory p) (loads p) (stale p || negb (str_eqb x (searchTerm p))).
Definition setTagFilter x p := MkHistory (activeWallet p) (transactions p) (filteredTransactions p) (loading p) (error p) (filter p) (sortBy p) (searchTerm p) x (editingTxid p) (labelNote p) (labelTags p) (labelCategory p) (loads p) (stale p).
Definition set_label_form i n t c p := MkHistory (activeWallet p) (transactions p) (filteredTransactions p) (loading p) (error p) (filter p) (sortBy p) (searchTerm p) (tagFilter p) i n t c (loads p) (stale p).
Definition set_loads x p := MkHistory (activeWallet p) (transactions p) (filteredTransactions p) (loading p) (error p) (filter p) (sortBy p) (searchTerm p) (tagFilter p) (editingTxid p) (labelNote p) (labelTags p) (labelCategory p) x (stale p).

Abbreviation W := (World HistoryPage TransactionLabels).
Abbreviation M := (js (W * Env)).

(** ** Filters *)

#[export] Instance TxType_eq_dec : EqDecision TxType.
Proof. solve_decision. Defined.

Definition of_type (f : Filter) (t : TransactionRecord) : bool :=
  match f with
  | f_all => true
  | f_received => bool_decide (rec_type (tx t) = received)
  | f_sent => bool_decide (rec_type (tx t) = sent)
  | f_pending => rec_confirmations (tx t) =? 0
  end.

(** [tx.label?.tags.includes(tagFilter)] *)
Definition has_tag (tag : string) (t : TransactionRecord) : bool :=
  match tx_label t with Some l => js_some (str_eqb tag) (l_tags l) | None => false end.

Definition matches (term : string) (t : TransactionRecord) : bool :=
  let q := toLowerCase term in
  includes q (toLowerCase (rec_txid (tx t))) || includes q (toLowerCase (default "" (rec_address (tx t)))) ||
  match tx_label t with
  | Some l => (truthy_str (l_note l) && opt_has_text q (l_note l)) || js_some (has_text q) (l_tags l)
  | None => false
  end.

(** Does [a] come after [b]? *)
Definition later (s : SortBy) (a b : TransactionRecord) : bool :=
  match s with
  | by_date => 0 <? default 0 (rec_timestamp (tx b)) - default 0 (rec_timestamp (tx a))
  | by_amount => SFltb nzero (nsub (rec_amount (tx b)) (rec_amount (tx a)))
  | by_confirmations => 0 <? rec_confirmations (tx b) - rec_confirmations (tx a)
  end.

Definition applyFilters : M () :=
  p ← get_page;
  let filtered := transactions p in
  let filtered := match filter p with f_all => filtered | f => js_filter (of_type f) filtered end in
  let filtered := match tagFilter p with Some t => if str_eqb t "" then filtered else js_filter (has_tag t) filtered | None => filtered end in
  let filtered := if str_eqb (searchTerm p) "" then filtered else js_filter (matches (searchTerm p)) filtered in
  set_page (set_filtered (js_sort (later (sortBy p)) filtered)).

Definition render : M () := p ← get_page; js_when (stale p) applyFilters.

(** ** Loading *)

Definition loadTransactionHistory : M () :=
  p ← get_page;
  match activeWallet p with
  | None => mret ()
  | Some a => set_page (λ p, set_loads (loads p ++ [a]) (set_status true None p))
  end.

(** The [n]-th load ends with what [getTransactionHistory] gives. *)
Definition history_arrives (n : nat) (history : result (list WalletTransactionRecord)) : M () :=
  p ← get_page;
  match loads p !! n with
  | None => mret ()
  | Some _ =>
      set_page (λ p, set_loads (delete n (loads p)) p);;
      match history with
      | Ok l =>
          records ← js_mapM (λ r, label ← service (getLabel (rec_txid r)); mret (MkTx r label)) l;
          set_page (setTransactions records)
      | Throw msg => set_page (λ p, set_status (loading p) (Some msg) p)
      end;;
      set_page (λ p, set_status false (error p) p)
  end.

(** [setActiveWallet], whose effect loads the history. *)
Definition wallet_loaded (a : option string) : M () := set_page (set_wallet a);; loadTransactionHistory.

(** ** Labels *)

Definition handleEditLabel (txid : string) : M () :=
  label ← service (getLabel txid);
  set_page (match label with
    | Some l => set_label_form (Some txid) (default "" (l_note l)) (join ", " (l_tags l)) (default "" (l_category l))
    | None => set_label_form (Some txid) "" "" ""
    end).

Definition handleSaveLabel : M () :=
  p ← get_page;
  match editingTxid p with
  | None => mret ()
  | Some txid =>
      if str_eqb txid "" then mret ()
      else
        let tags := js_filter (λ t, negb (str_eqb t "")) (trim <$> split_on "," (labelTags p)) in
        service (addLabel txid (Some (labelNote p)) (Some tags) (Some (labelCategory p)));;
        loadTransactionHistory;;
        set_page (λ p, set_label_form None (labelNote p) (labelTags p) (labelCategory p) p)
  end.

Definition handleDeleteLabel (txid : string) : M () := service (deleteLabel txid);; loadTransactionHistory.

Definition getAllTags (p : HistoryPage) : list string :=
  sort_strings (set_of (concat ((λ t, match tx_label t with Some l => l_tags l | None => [] end) <$> transactions p))).

(** ** What is written *)

Definition type_name (t : TxType) : string := match t with received => "received" | sent => "sent" | other => "other" end.

Definition export_header : list string := ["TXID"; "Type"; "Amount (KBC)"; "Confirmations"; "Address"; "Timestamp"].

(** The cells of a row; an address that is undefined is joined as the empty text. *)
Definition export_cells (t : TransactionRecord) : list string :=
  let r := tx t in
  [rec_txid r; type_name (rec_type r); to_fixed 8 (rec_amount r); pretty (rec_confirmations r); default "" (rec_address r);
   match rec_timestamp r with Some ts => if ts =? 0 then "N/A" else toISOString ts | None => "N/A" end].

Definition handleExport (p : HistoryPage) : string := csv_text (export_header :: (export_cells <$> filteredTransactions p)).

Definition plural (n : Z) (u : string) : string := pretty n +:+ " " +:+ u +:+ (if 1 <? n then "s" else "") +:+ " ago".

Definition getTimestamp (now : Z) (timestamp : option Z) : string :=
  if default 0 timestamp =? 0 then "Unknown"
  else
    let diff := now - default 0 timestamp in
    let minutes := diff / 60000 in
    let hours := diff / 3600000 in
    let days := diff / 86400000 in
    if 0 <? days then plural days "day"
    else if 0 <? hours then plural hours "hour"
    else if 0 <? minutes then plural minutes "min"
    else "Just now".

(** The summary at the end of the page. *)
Definition totalReceived (p : HistoryPage) : num :=
  foldl nadd nzero ((λ t, rec_amount (tx t)) <$> js_filter (of_type f_received) (filteredTransactions p)).
Definition pendingCount (p : HistoryPage) : nat := length (js_filter (of_type f_pending) (filteredTransactions p)).

(** ** Events *)

Inductive event :=
  | WalletLoaded (a : option string) | Arrives (n : nat) (history : result (list WalletTransactionRecord))
  | PickFilter (f : Filter) | PickSort (s : SortBy) | Search (s : string) | PickTag (t : option string)
  | EditLabel (txid : string) | TypeLabel (note tags category : string) | SaveLabel | CloseLabel | DeleteLabel (txid : string).

Definition handle (ev : event) : M () :=
  match ev with
  | WalletLoaded a => wallet_loaded a
  | Arrives n h => history_arrives n h
  | PickFilter f => set_page (setFilter f)
  | PickSort s => set_page (setSortBy s)
  | Search s => set_page (setSearchTerm s)
  | PickTag t => set_page (setTagFilter t)
  | EditLabel x => handleEditLabel x
  | TypeLabel n t c => set_page (λ p, set_label_form (editingTxid p) n t c p)
  | SaveLabel => handleSaveLabel
  | CloseLabel => set_page (λ p, set_label_form None (labelNote p) (labelTags p) (labelCategory p) p)
  | DeleteLabel x => handleDeleteLabel x
  end.

Definition exec (ev : event) : M () := handle ev;; render.

(** * Theorems *)

(** ** What is listed *)

Definition tagged (tag : option string) (t : TransactionRecord) : bool :=
  match tag with Some g => str_eqb g "" || has_tag g t | None => true end.

(** The page's list under its filters and the tag [tag]. *)
Definition listed (tag : option string) (p : HistoryPage) : list TransactionRecord :=
  js_sort (later (sortBy p))
    (js_filter (λ t, of_type (filter p) t && tagged tag t && (str_eqb (searchTerm p) "" || matches (searchTerm p) t)) (transactions p)).

Lemma keep_if {A} (b : bool) (q : A → bool) l : (if b then l else js_filter q l) = js_filter (λ x, b || q x) l.
Proof. destruct b; [symmetry; by apply js_filter_all|done]. Qed.

Lemma filters_listed p :
  let l1 := match filter p with f_all => transactions p | f => js_filter (of_type f) (transactions p) end in
  let l2 := match tagFilter p with Some t => if str_eqb t "" then l1 else js_filter (has_tag t) l1 | None => l1 end in
  js_sort (later (sortBy p)) (if str_eqb (searchTerm p) "" then l2 else js_filter (matches (searchTerm p)) l2) = listed (tagFilter p) p.
Proof.
  cbv zeta. assert (match filter p with f_all => transactions p | f => js_filter (of_type f) (transactions p) end =
    js_filter (of_type (filter p)) (transactions p)) as ->.
  { destruct (filter p); try done. symmetry. by apply js_filter_all. }
  unfold listed. f_equal. rewrite keep_if. destruct (tagFilter p) as [t|]; [rewrite keep_if|]; rewrite !filter_twice;
    apply filter_same; intros x; unfold tagged; btauto.
Qed.

(** The list was filtered with the present filters and with some tag among [tags]. *)
Definition in_step (tags : list (option string)) (w : W) : Prop :=
  tagFilter (page w) ∈ tags ∧ (stale (page w) = false → ∃ tag, tag ∈ tags ∧ filteredTransactions (page w) = listed tag (page w)).

(** Changes that leave the list and what it depends on alone. *)
Definition neutral (f : HistoryPage → HistoryPage) : Prop := ∀ p,
  transactions (f p) = transactions p ∧ filteredTransactions (f p) = filteredTransactions p ∧ filter (f p) = filter p ∧
  sortBy (f p) = sortBy p ∧ searchTerm (f p) = searchTerm p ∧ tagFilter (f p) = tagFilter p ∧ stale (f p) = stale p.

Section Step.
Context (ts : list (option string)).

Lemma history_keeps_neutral f : neutral f → keeps (in_step ts) (set_page f).
Proof.
  intros Hf. apply keeps_set. intros p s [Ht Hl]. destruct (Hf p) as (H1 & H2 & H3 & H4 & H5 & H6 & H7). split; cbn in *; [by rewrite H6|].
  rewrite H7, H2. intros Hs. destruct (Hl Hs) as (tag & Hin & ->). exists tag. split; [done|]. unfold listed. by rewrite H1, H3, H4, H5.
Qed.

Lemma keeps_service_page {A} (m : js (TransactionLabels * Env) A) : (∀ s e, ∃ a s' e', m (s, e) = (Ok a, (s', e'))) → keeps (in_step ts) (service m).
Proof. intros Hm. apply keeps_service. intros p s e H. destruct (Hm s e) as (a & s' & e' & E). by exists a, s', e'. Qed.

Lemma save_returns s e : ∃ s' e', saveLabels (s, e) = (Ok (), (s', e')).
Proof. destruct (saveLabels_run s e) as (s' & E & _). by exists s', e. Qed.

Lemma add_returns x n t c s e : ∃ a s' e', addLabel x n t c (s, e) = (Ok a, (s', e')).
Proof.
  unfold addLabel. js_run. match goal with |- context [(saveLabels ≫= _) (?s, ?e)] => destruct (save_returns s e) as (s1 & e1 & E) end.
  rewrite (run_Ok _ _ _ _ _ E). by eexists _, _, _.
Qed.

Lemma delete_returns x s e : ∃ a s' e', deleteLabel x (s, e) = (Ok a, (s', e')).
Proof.
  unfold deleteLabel. js_run. destruct (map_has x (labels s)); [|by eexists _, _, _].
  match goal with |- context [(saveLabels ≫= _) (?s, ?e)] => destruct (save_returns s e) as (s1 & e1 & E) end.
  rewrite (run_Ok _ _ _ _ _ E). by eexists _, _, _.
Qed.

Lemma keeps_load : keeps (in_step ts) loadTransactionHistory.
Proof. apply keeps_get. intros p. destruct (activeWallet p); [by apply history_keeps_neutral|apply keeps_ret]. Qed.

Lemma keeps_filter f : (∀ p, transactions (f p) = transactions p ∧ filteredTransactions (f p) = filteredTransactions p ∧
    tagFilter (f p) = tagFilter p ∧ (stale (f p) = false → stale p = false ∧ ∀ tag, listed tag (f p) = listed tag p)) →
  keeps (in_step ts) (set_page f).
Proof.
  intros Hf. apply keeps_set. intros p s [Ht Hl]. destruct (Hf p) as (H1 & H2 & H3 & H4). split; cbn in *; [by rewrite H3|].
  intros Hs. destruct (H4 Hs) as [Hs' He]. destruct (Hl Hs') as (tag & Hin & E). exists tag. split; [done|]. by rewrite He, H2.
Qed.

Lemma history_handle_keeps ev : (∀ t, ev = PickTag t → t ∈ ts) → keeps (in_step ts) (handle ev).
Proof.
  intros Hev. destruct ev; cbn [handle]; try by apply history_keeps_neutral.
  - apply keeps_bind; [by apply history_keeps_neutral|]. intros _. apply keeps_load.
  - apply keeps_get. intros p. destruct (loads p !! n) as [?|]; [|apply keeps_ret]. apply keeps_bind; [by apply history_keeps_neutral|]. intros _.
    destruct history as [l|msg]; (apply keeps_bind; [|intros _; by apply history_keeps_neutral]); [|by apply history_keeps_neutral].
    apply keeps_bind; [|intros r; apply keeps_set; by intros q sv [Ht _]; split].
    apply keeps_mapM. intros r. apply keeps_bind; [|intros ?; apply keeps_ret]. apply keeps_service_page. intros sv e. by eexists _, _, _.
  - apply keeps_filter. intros p. repeat split; cbn in *; try done; apply orb_false_iff in H as [Hs E];
      [done|intros tag; apply negb_false_iff, bool_decide_eq_true in E as ->; done].
  - apply keeps_filter. intros p. repeat split; cbn in *; try done; apply orb_false_iff in H as [Hs E];
      [done|intros tag; apply negb_false_iff, bool_decide_eq_true in E as ->; done].
  - apply keeps_filter. intros p. repeat split; cbn in *; try done; apply orb_false_iff in H as [Hs' E];
      [done|intros tag; apply negb_false_iff, str_eqb_true in E as ->; done].
  - apply keeps_set. intros p s [Ht Hl]. split; [by apply Hev|exact Hl].
  - apply keeps_bind; [apply keeps_service_page; intros s e; by eexists _, _, _|]. intros l. by destruct l; apply history_keeps_neutral.
  - apply keeps_get. intros p. destruct (editingTxid p); [|apply keeps_ret]. case_match; [apply keeps_ret|].
    apply keeps_bind; [apply keeps_service_page, add_returns|]. intros _. apply keeps_bind; [apply keeps_load|]. intros _. by apply history_keeps_neutral.
  - apply keeps_bind; [apply keeps_service_page, delete_returns|]. intros _. apply keeps_load.
Qed.

Lemma history_render_run w : in_step ts w.1 → ∃ w', render w = (Ok (), w') ∧ in_step ts w'.1 ∧ stale (page w'.1) = false.
Proof.
  destruct w as [[p s] e]. intros [Ht Hl]. unfold render. page_run. cbn in Ht, Hl. destruct (stale p) eqn:Hs; cbn [js_when].
  - unfold applyFilters. page_run. rewrite filters_listed. eexists. split; [reflexivity|]. split; [|done]. split; [exact Ht|].
    intros _. by exists (tagFilter p).
  - eexists. split; [reflexivity|]. split; [|done]. split; [exact Ht|]. intros _. by apply Hl.
Qed.

Lemma events_run evs w : in_step ts w.1 → stale (page w.1) = false → (∀ t, PickTag t ∈ evs → t ∈ ts) →
  ∃ w', js_forEach exec evs w = (Ok (), w') ∧ in_step ts w'.1 ∧ stale (page w'.1) = false.
Proof.
  revert w. induction evs as [|ev evs IH]; intros w H Hs Hev; cbn [js_forEach]; [by exists w|].
  destruct (history_handle_keeps ev (λ t E, Hev t ltac:(rewrite E; by left)) w H) as ([] & w1 & E & H1).
  destruct (history_render_run w1 H1) as (w2 & E2 & H2 & Hs2).
  assert (exec ev w = (Ok (), w2)) as Ee by (unfold exec; by rewrite (run_Ok _ _ _ _ _ E)).
  rewrite (run_Ok _ _ _ _ _ Ee). apply IH; [done|done|]. intros t Ht. apply Hev. by right.
Qed.
End Step.

(** After every event the list is what the page's type, order and search keep of its transactions, under no tag or
    one of the tags that were picked; when none was picked it is the whole selection. *)
Theorem history_lists_matches evs p s e : stale p = true → tagFilter p = None →
  let w := (render;; js_forEach exec evs) (MkWorld p s, e) in
  w.1 = Ok () ∧ ∃ tag, (tag = None ∨ PickTag tag ∈ evs) ∧ filteredTransactions (page w.2.1) = listed tag (page w.2.1).
Proof.
  intros Hs Ht. set (ts := None :: omap (λ ev, match ev with PickTag t => Some t | _ => None end) evs).
  assert (in_step ts (MkWorld p s)) as H0 by (split; [cbn; rewrite Ht; by left|cbn; by rewrite Hs]).
  destruct (history_render_run ts (MkWorld p s, e) H0) as (w1 & E & H1 & Hs1).
  destruct (events_run ts evs w1 H1 Hs1) as (w2 & E2 & [_ Hl] & Hs2).
  { intros t Hin. right. apply list_elem_of_omap. by exists (PickTag t). }
  cbv zeta. rewrite (run_Ok _ _ _ _ _ E), E2. split; [done|]. destruct (Hl Hs2) as (tag & Hin & Hf). exists tag. split; [|exact Hf].
  apply elem_of_cons in Hin as [->|(ev & Hev & Eev)%list_elem_of_omap]; [by left|right]. destruct ev; try done. by injection Eev as ->.
Qed.

(** Picking a tag does not change the list. *)
Theorem tag_waits w t : stale (page w.1) = false →
  ∃ w', exec (PickTag t) w = (Ok (), w') ∧ filteredTransactions (page w'.1) = filteredTransactions (page w.1) ∧ tagFilter (page w'.1) = t.
Proof. destruct w as [[p s] e]. cbn. intros Hs. unfold exec. cbn [handle]. page_run. unfold render. page_run. cbn. rewrite Hs. by eexists. Qed.

(** Under the order of dates or of confirmations no transaction comes before a later one, and the page lists each
    transaction that its filters keep, as often as it is there. *)
Theorem listed_in_order tag p : sortBy p ≠ by_amount →
  StronglySorted (λ a b, later (sortBy p) a b = false) (listed tag p) ∧
  listed tag p ≡ₚ js_filter (λ t, of_type (filter p) t && tagged tag t && (str_eqb (searchTerm p) "" || matches (searchTerm p) t)) (transactions p).
Proof.
  intros Hs. split; [|apply js_sort_perm]. apply js_sort_sorted with (P := λ _, True); [| |by apply Forall_true];
    destruct (sortBy p); try done; cbn; intros; lia.
Qed.

(** ** The CSV file *)

Definition plain_record (t : TransactionRecord) : Prop :=
  plain_cell (rec_txid (tx t)) ∧ plain_cell (default "" (rec_address (tx t))) ∧ 0 <= rec_confirmations (tx t).

(** Read as CSV, the file has a row of six cells for each transaction that the page lists, in the page's order. *)
Theorem export_read_back p : Forall plain_record (filteredTransactions p) →
  read_csv (handleExport p) = export_header :: (export_cells <$> filteredTransactions p).
Proof.
  intros Hp. apply csv_read; [done|]. constructor; [split; [done|by repeat constructor]|]. apply Forall_fmap. eapply Forall_impl; [exact Hp|].
  intros t (Hx & Ha & Hc). split; [done|]. unfold export_cells. repeat constructor; auto.
  - by destruct (rec_type (tx t)).
  - apply number_cell, to_fixed_number.
  - by apply number_cell, pretty_number.
  - destruct (rec_timestamp (tx t)) as [ts|]; [|done]. destruct (ts =? 0); [done|apply plain_iso].
Qed.

(** ** Examples *)

Definition demo_tx (i : string) (ty : TxType) (confirmations timestamp : Z) : WalletTransactionRecord :=
  MkRecord i (Some "kc1a") (of_Z 2) confirmations None ty (Some timestamp) None None.

Definition demo_history : W := MkWorld blank (fresh None None).
Definition demo_load : list event := [WalletLoaded (Some "kc1a"); Arrives 0 (Ok [demo_tx "aa" received 3 1000; demo_tx "bb" sent 0 2000])].
Definition run (evs : list event) : HistoryPage := page (((render;; js_forEach exec evs) (demo_history, demo_env)).2.1).
Definition ids (p : HistoryPage) : list string := (λ t, rec_txid (tx t)) <$> filteredTransactions p.

(** The newest first; the pending ones; those that a search finds by their label. *)
Example history_demo_lists :
  (ids (run demo_load), ids (run (demo_load ++ [PickFilter f_pending])),
   ids (run (([EditLabel "aa"; TypeLabel "Rent" "home, " "" ; SaveLabel] ++ demo_load) ++ [Search "RENT"]))) = (["bb"; "aa"], ["bb"], ["aa"]).
Proof. vm_compute. reflexivity. Qed.

(** A tag filters only from the next change on. *)
Example tag_is_late :
  (ids (run (demo_load ++ [PickTag (Some "home")])), ids (run (demo_load ++ [PickTag (Some "home"); PickSort by_amount]))) = (["bb"; "aa"], []).
Proof. vm_compute. reflexivity. Qed.

(** A load that ends late shows the history of the wallet that was active before. *)
Example late_load_shows_other_wallet :
  let p := run [WalletLoaded (Some "kc1a"); WalletLoaded (Some "kc1b"); Arrives 1 (Ok []); Arrives 0 (Ok [demo_tx "aa" received 3 1000])] in
  (activeWallet p, ids p) = (Some "kc1b", ["aa"]).
Proof. vm_compute. reflexivity. Qed.

Lemma history_lists_matches_witness : let evs := demo_load ++ [PickTag (Some "home"); Search "a"] in
  let w := (render;; js_forEach exec evs) (demo_history, demo_env) in
  w.1 = Ok () ∧ ∃ tag, (tag = None ∨ PickTag tag ∈ evs) ∧ filteredTransactions (page w.2.1) = listed tag (page w.2.1).
Proof. apply (history_lists_matches _ blank (fresh None None) demo_env); reflexivity. Defined.

Lemma export_read_back_witness :
  read_csv (handleExport (run demo_load)) = export_header :: (export_cells <$> filteredTransactions (run demo_load)).
Proof. apply export_read_back. vm_compute. repeat constructor; discriminate. Defined.
