(* ===== verification/UtxosPage.v ===== *)
(** * The coin control page (apps/web/wallet/app/wallet/utxos/page.tsx)

    The unspent outputs of the active wallet, with the marks that the page itself keeps: the frozen outputs and
    the labels of each wallet, under keys of their own in [localStorage]. A load asks the wallet, waits at most five
    seconds and reads the marks when it ends; a consolidation asks the wallet to spend the selected outputs. *)

From Stdlib Require Import Ascii String.
From stdpp Require Import pretty.
From S2P Require Import Prelude JsMap JsNumber JsString Store FloatFacts Page.
From S2P Require Wallet.

(** ** State *)

Record UTXO := MkCoin { coin : Wallet.UTXO; spendable : bool; frozen : bool; coin_label : option string }.

Definition txid (u : UTXO) : string := Wallet.u_txid (coin u).
Definition vout (u : UTXO) : Z := Wallet.u_vout (coin u).
Definition amount (u : UTXO) : num := Wallet.u_amount (coin u).
Definition confirmations (u : UTXO) : Z := Wallet.u_confirmations (coin u).

(** [`${txid}:${vout}`] *)
Definition outpoint (txid : string) (vout : Z) : string := txid +:+ ":" +:+ pretty vout.
Definition key_of (u : UTXO) : string := outpoint (txid u) (vout u).

Inductive Filter := f_all | f_spendable | f_frozen.
#[export] Instance Filter_eq_dec : EqDecision Filter.
Proof. solve_decision. Defined.
Inductive SortBy := by_amount | by_confirmations | by_age.
#[export] Instance SortBy_eq_dec : EqDecision SortBy.
Proof. solve_decision. Defined.

(** A spending that the wallet was asked for: who asked, the outputs and where to. *)
Record Request := MkRequest { from : string; outputs : list UTXO; destination : string }.

(** [loads]: the wallets whose outputs were asked for; [spending]: the consolidations under way. *)
Record UtxosPage := MkPage {
  activeWallet : option string;
  utxos : list UTXO;
  filteredUtxos : list UTXO;
  selectedUtxos : list string;
  loading : bool;
  error : option string;
  success : option string;
  filter : Filter;
  sortBy : SortBy;
  showConsolidateDialog : bool;
  consolidateAddress : string;
  loads : list string;
  spending : list Request;
  stale : bool;
}.

Definition blank : UtxosPage := MkPage None [] [] [] false None None f_all by_amount false "" [] [] true.

Definition set_wallet x p := MkPage x (utxos p) (filteredUtxos p) (selectedUtxos p) (loading p) (error p) (success p) (filter p) (sortBy p) (showConsolidateDialog p) (consolidateAddress p) (loads p) (spending p) (stale p).
Definition setUtxos x p := MkPage (activeWallet p) x (filteredUtxos p) (selectedUtxos p) (loading p) (error p) (success p) (filter p) (sortBy p) (showConsolidateDialog p) (consolidateAddress p) (loads p) (spending p) true.
Definition set_filtered x p := MkPage (activeWallet p) (utxos p) x (selectedUtxos p) (loading p) (error p) (success p) (filter p) (sortBy p) (showConsolidateDialog p) (consolidateAddress p) (loads p) (spending p) false.
Definition setSelectedUtxos x p := MkPage (activeWallet p) (utxos p) (filteredUtxos p) x (loading p) (error p) (success p) (filter p) (sortBy p) (showConsolidateDialog p) (consolidateAddress p) (loads p) (spending p) (stale p).
Definition setLoading x p := MkPage (activeWallet p) (utxos p) (filteredUtxos p) (selectedUtxos p) x (error p) (success p) (filter p) (sortBy p) (showConsolidateDialog p) (consolidateAddress p) (loads p) (spending p) (stale p).
Definition setError x p := MkPage (activeWallet p) (utxos p) (filteredUtxos p) (selectedUtxos p) (loading p) x (success p) (filter p) (sortBy p) (showConsolidateDialog p) (consolidateAddress p) (loads p) (spending p) (stale p).
Definition setSuccess x p := MkPage (activeWallet p) (utxos p) (filteredUtxos p) (selectedUtxos p) (loading p) (error p) x (filter p) (sortBy p) (showConsolidateDialog p) (consolidateAddress p) (loads p) (spending p) (stale p).
Definition setFilter x p := MkPage (activeWallet p) (utxos p) (filteredUtxos p) (selectedUtxos p) (loading p) (error p) (success p) x (sortBy p) (showConsolidateDialog p) (consolidateAddress p) (loads p) (spending p) (stale p || negb (bool_decide (x = filter p))).
Definition setSortBy x p := MkPage (activeWallet p) (utxos p) (filteredUtxos p) (selectedUtxos p) (loading p) (error p) (success p) (filter p) x (showConsolidateDialog p) (consolidateAddress p) (loads p) (spending p) (stale p || negb (bool_decide (x = sortBy p))).
Definition set_dialog b a p := MkPage (activeWallet p) (utxos p) (filteredUtxos p) (selectedUtxos p) (loading p) (error p) (success p) (filter p) (sortBy p) b a (loads p) (spending p) (stale p).
Definition set_loads x p := MkPage (activeWallet p) (utxos p) (filteredUtxos p) (selectedUtxos p) (loading p) (error p) (success p) (filter p) (sortBy p) (showConsolidateDialog p) (consolidateAddress p) x (spending p) (stale p).
Definition set_spending x p := MkPage (activeWallet p) (utxos p) (filteredUtxos p) (selectedUtxos p) (loading p) (error p) (success p) (filter p) (sortBy p) (showConsolidateDialog p) (consolidateAddress p) (loads p) x (stale p).

(** The keys [kubercoin_frozen_utxos_<wallet>] and [kubercoin_utxo_labels_<wallet>]. *)
Record Marks := MkMarks { ls_frozen : jsmap (text (list string)); ls_labels : jsmap (text (jsmap string)) }.
Definition set_frozen x s := MkMarks x (ls_labels s).
Definition set_labels x s := MkMarks (ls_frozen s) x.

Abbreviation W := (World UtxosPage Marks).
Abbreviation M := (js (W * Env)).

(** ** The marks of a wallet *)

Definition frozen_set (a : string) : js (Marks * Env) (list string) :=
  s ← this;
  match truthy_cell (map_get a (ls_frozen s)) with
  | Some t => l ← JSON_parse t; mret (set_of l)
  | None => mret []
  end.

Definition utxo_labels (a : string) : js (Marks * Env) (jsmap string) :=
  s ← this;
  match truthy_cell (map_get a (ls_labels s)) with Some t => JSON_parse t | None => mret [] end.

(** [labels[key] || undefined] *)
Definition label_at (labels : jsmap string) (k : string) : option string :=
  match map_get k labels with Some l => if str_eqb l "" then None else Some l | None => None end.

Definition mark (froz : list string) (labels : jsmap string) (u : Wallet.UTXO * bool) : UTXO :=
  let k := outpoint (Wallet.u_txid u.1) (Wallet.u_vout u.1) in
  MkCoin u.1 u.2 (js_some (str_eqb k) froz) (label_at labels k).

(** ** Loading *)

(** [loadUTXOs] of a rendering whose wallet is [a]. *)
Definition loadUTXOs (a : option string) : M () :=
  match a with
  | None => mret ()
  | Some a => set_page (setLoading true);; set_page (setError None);; set_page (λ p, set_loads (loads p ++ [a]) p)
  end.

(** How the wait for [getUtxos] ends. *)
Inductive reply := Replies (l : list (Wallet.UTXO * bool)) | Fails (msg : string) | TimesOut.

(** [withTimeout(promise, 5000, [])] *)
Definition withTimeout (r : reply) : M (list (Wallet.UTXO * bool)) :=
  match r with Replies l => mret l | Fails msg => js_throw msg | TimesOut => mret [] end.

(** [err.message || fallback] *)
Definition message_or (msg fallback : string) : string := if str_eqb msg "" then fallback else msg.

Definition load_ends (n : nat) (r : reply) : M () :=
  p ← get_page;
  match loads p !! n with
  | None => mret ()
  | Some a =>
      set_page (set_loads (delete n (loads p)));;
      js_try (
        history ← withTimeout r;
        froz ← service (frozen_set a);
        labels ← service (utxo_labels a);
        set_page (setUtxos (mark froz labels <$> history)))
        (λ msg, set_page (setUtxos []);; set_page (setError (Some (message_or msg "Failed to load UTXOs"))));;
      set_page (setLoading false)
  end.

Definition later (s : SortBy) (a b : UTXO) : bool :=
  match s with
  | by_amount => SFltb nzero (nsub (amount b) (amount a))
  | by_confirmations => 0 <? confirmations b - confirmations a
  | by_age => 0 <? confirmations a - confirmations b
  end.

Definition in_filter (f : Filter) (u : UTXO) : bool :=
  match f with f_all => true | f_spendable => spendable u && negb (frozen u) | f_frozen => frozen u end.

Definition applyFilters : M () :=
  p ← get_page;
  let filtered := utxos p in
  let filtered := match filter p with f_all => filtered | f => js_filter (in_filter f) filtered end in
  set_page (set_filtered (js_sort (later (sortBy p)) filtered)).

Definition render : M () := p ← get_page; js_when (stale p) applyFilters.

(** ** Selection and marks *)

Definition toggled (k : string) (l : list string) : list string :=
  if js_some (str_eqb k) l then js_filter (λ x, negb (str_eqb k x)) l else l ++ [k].

Definition toggleUtxoSelection (txid : string) (vout : Z) : M () :=
  set_page (λ p, setSelectedUtxos (toggled (outpoint txid vout) (selectedUtxos p)) p).

Definition toggleFreeze (txid : string) (vout : Z) : M () :=
  p ← get_page;
  match activeWallet p with
  | None => mret ()
  | Some a =>
      let k := outpoint txid vout in
      froz ← service (frozen_set a);
      set_page (setSuccess (Some (if js_some (str_eqb k) froz then "UTXO unfrozen" else "UTXO frozen")));;
      service (ls_setItem (λ s, set_frozen (map_set a (TJson (toggled k froz)) (ls_frozen s)) s));;
      loadUTXOs (Some a)
  end.

(** [label]: what was typed into the prompt. *)
Definition handleLabelUtxo (txid : string) (vout : Z) (label : option string) : M () :=
  p ← get_page;
  match activeWallet p, label with
  | Some a, Some l =>
      if str_eqb l "" then mret ()
      else
        labels ← service (utxo_labels a);
        service (ls_setItem (λ s, set_labels (map_set a (TJson (map_set (outpoint txid vout) l labels)) (ls_labels s)) s));;
        set_page (setSuccess (Some "Label added"));;
        loadUTXOs (Some a)
  | _, _ => mret ()
  end.

(** ** Consolidation *)

(** The output of a key [txid:vout]. *)
Definition find_key (l : list UTXO) (k : string) : option UTXO :=
  match split_on ":" k with
  | t :: v :: _ => js_find (λ u, str_eqb (txid u) t && str_eqb (pretty (vout u)) v) l
  | _ => None
  end.

(** [if (!utxo) throw] *)
Definition selected_utxo (l : list UTXO) (k : string) : M UTXO :=
  match find_key l k with Some u => mret u | None => js_throw "Selected UTXO not found" end.

Definition handleConsolidate : M () :=
  p ← get_page;
  match activeWallet p, selectedUtxos p with
  | Some a, _ :: _ =>
      if str_eqb (consolidateAddress p) "" then set_page (setError (Some "Please enter destination address"))
      else
        js_try (
          selected ← js_mapM (selected_utxo (utxos p)) (selectedUtxos p);
          set_page (λ p', set_spending (spending p' ++ [MkRequest a selected (consolidateAddress p)]) p'))
          (λ msg, set_page (setError (Some (message_or msg "Failed to consolidate UTXOs"))))
  | _, _ => set_page (setError (Some "Please select UTXOs to consolidate"))
  end.

(** [consolidateUtxos] ends. *)
Definition consolidated (n : nat) (r : result string) : M () :=
  p ← get_page;
  match spending p !! n with
  | None => mret ()
  | Some q =>
      set_page (set_spending (delete n (spending p)));;
      match r with
      | Ok txid =>
          set_page (λ p, set_dialog false (consolidateAddress p) p);;
          set_page (setSuccess (Some ("Consolidation transaction created: " +:+ txid)));;
          set_page (setSelectedUtxos []);;
          loadUTXOs (Some (from q))
      | Throw msg => set_page (setError (Some (message_or msg "Failed to consolidate UTXOs")))
      end
  end.

(** ** What is shown beside the list *)

Definition is_integer (x : num) : bool := is_finite x && SFeqb (nfloor x) x.

Definition calculatePrivacyScore (u : UTXO) : Z :=
  let score := 100 in
  let score := if SFltb (of_Z 100) (amount u) then score - 20 else if SFltb (of_Z 10) (amount u) then score - 10 else score in
  let score := if confirmations u <? 6 then score - 30 else if confirmations u <? 100 then score - 10 else score in
  let score := if is_integer (amount u) then score - 15 else score in
  Z.max 0 score.

Definition getPrivacyColor (score : Z) : string :=
  if 80 <=? score then "text-green-400" else if 50 <=? score then "text-yellow-400" else "text-red-400".

(** [utxo?.amount || 0] *)
Definition amount_at (l : list UTXO) (k : string) : num := num_or (amount <$> find_key l k) nzero.
Definition selectedAmount (p : UtxosPage) : num := foldl (λ sum k, nadd sum (amount_at (utxos p) k)) nzero (selectedUtxos p).

(** ** Events *)

Inductive event :=
  | WalletLoaded (a : option string) | LoadEnds (n : nat) (r : reply) | PickFilter (f : Filter) | PickSort (s : SortBy)
  | Select (txid : string) (vout : Z) | ClearSelection | Freeze (txid : string) (vout : Z)
  | Label (txid : string) (vout : Z) (label : option string) | Dialog (open : bool) | TypeAddress (a : string)
  | Consolidate | Consolidated (n : nat) (r : result string) | MessageGone.

Definition handle (ev : event) : M () :=
  match ev with
  | WalletLoaded a => set_page (set_wallet a);; loadUTXOs a
  | LoadEnds n r => load_ends n r
  | PickFilter f => set_page (setFilter f)
  | PickSort s => set_page (setSortBy s)
  | Select t v => toggleUtxoSelection t v
  | ClearSelection => set_page (setSelectedUtxos [])
  | Freeze t v => toggleFreeze t v
  | Label t v l => handleLabelUtxo t v l
  | Dialog b => set_page (λ p, set_dialog b (if b then default "" (activeWallet p) else consolidateAddress p) p)
  | TypeAddress a => set_page (λ p, set_dialog (showConsolidateDialog p) a p)
  | Consolidate => handleConsolidate
  | Consolidated n r => consolidated n r
  | MessageGone => set_page (setSuccess None)
  end.

(** An error that a handler does not catch is left to the browser. *)
Definition exec (ev : event) : M () := js_try (handle ev) (λ _, mret ());; render.

(** * Theorems *)

Lemma js_some_str k l : js_some (str_eqb k) l = bool_decide (k ∈ l).
Proof.
  apply eq_bool_prop_intro. rewrite bool_decide_spec, Is_true_true, js_some_true. split.
  - intros (x & Hx & E). by apply str_eqb_true in E as ->.
  - intros Hk. exists k. split; [done|apply str_eqb_refl].
Qed.

Lemma label_at_Some labels k l : label_at labels k = Some l ↔ map_get k labels = Some l ∧ l ≠ "".
Proof.
  unfold label_at. destruct (map_get k labels) as [x|]; [|naive_solver]. destruct (str_eqb x "") eqn:E.
  - apply str_eqb_true in E as ->. naive_solver.
  - apply str_eqb_false in E. naive_solver.
Qed.

(** ** The marks in the storage *)

Definition parsed {A} (d : A) (c : cell A) : result A :=
  match truthy_cell c with Some (TJson x) => Ok x | Some (TRaw _) => Throw "Unexpected token in JSON" | None => Ok d end.
Definition stored_frozen (a : string) (s : Marks) : result (list string) :=
  match parsed [] (map_get a (ls_frozen s)) with Ok l => Ok (set_of l) | Throw m => Throw m end.
Definition stored_labels (a : string) (s : Marks) : result (jsmap string) := parsed [] (map_get a (ls_labels s)).

Lemma frozen_run a s e : frozen_set a (s, e) = (stored_frozen a s, (s, e)).
Proof. unfold frozen_set, stored_frozen, parsed. js_run. by destruct (truthy_cell _) as [[]|]. Qed.
Lemma utxo_labels_run a s e : utxo_labels a (s, e) = (stored_labels a s, (s, e)).
Proof. unfold utxo_labels, stored_labels, parsed. js_run. by destruct (truthy_cell _) as [[]|]. Qed.

Lemma stored_frozen_set a b l s : stored_frozen b (set_frozen (map_set a (TJson l) (ls_frozen s)) s) =
  if str_eqb a b then Ok (set_of l) else stored_frozen b s.
Proof.
  unfold stored_frozen. cbn. destruct (str_eqb a b) eqn:E.
  - apply str_eqb_true in E as <-. by rewrite map_get_set_eq.
  - apply str_eqb_false in E. by rewrite map_get_set_ne.
Qed.
Lemma stored_labels_set a b l s : stored_labels b (set_labels (map_set a (TJson l) (ls_labels s)) s) =
  if str_eqb a b then Ok l else stored_labels b s.
Proof.
  unfold stored_labels. cbn. destruct (str_eqb a b) eqn:E.
  - apply str_eqb_true in E as <-. by rewrite map_get_set_eq.
  - apply str_eqb_false in E. by rewrite map_get_set_ne.
Qed.

(** The rows of a load for [a] that ended with [r]: the wallet's outputs with the stored marks, and none where the
    wallet failed or answered too late or the marks cannot be read. *)
Definition rows_for (a : string) (r : reply) (s : Marks) : list UTXO :=
  match r, stored_frozen a s, stored_labels a s with Replies h, Ok froz, Ok labels => mark froz labels <$> h | _, _, _ => [] end.

(** The rows are those of the last load that ended, [last], with the marks of now unless its wallet is asked again; the
    list is what the filter keeps. *)
Definition rows_of (last : option (string * reply)) (w : W) : Prop :=
  match last with None => utxos (page w) = [] | Some (a, r) => a ∈ loads (page w) ∨ utxos (page w) = rows_for a r (services w) end.
Definition list_of (w : W) : Prop :=
  stale (page w) = false → filteredUtxos (page w) = js_sort (later (sortBy (page w))) (js_filter (in_filter (filter (page w))) (utxos (page w))).
Definition in_step_with (last : option (string * reply)) (w : W) : Prop := rows_of last w ∧ list_of w.

Section LastLoad.
Context (last : option (string * reply)).
Abbreviation in_step := (in_step_with last).

(** Changes that leave the rows, the list and what it depends on alone, and forget no load. *)
Definition neutral (f : UtxosPage → UtxosPage) : Prop := ∀ p,
  utxos (f p) = utxos p ∧ filteredUtxos (f p) = filteredUtxos p ∧ filter (f p) = filter p ∧ sortBy (f p) = sortBy p ∧
  stale (f p) = stale p ∧ ∀ a, a ∈ loads p → a ∈ loads (f p).

Lemma utxos_neutral_step f p s : neutral f → in_step (MkWorld p s) → in_step (MkWorld (f p) s).
Proof.
  intros Hf [Hm Hl]. destruct (Hf p) as (H1 & H2 & H3 & H4 & H5 & H6). split; unfold rows_of, list_of in *; cbn in *; [|by rewrite H1, H2, H3, H4, H5].
  rewrite H1. destruct last as [[a r]|]; [|done]. destruct Hm as [Ha|Hm]; [left; auto|by right].
Qed.

Lemma neutral_preserves f : neutral f → preserves in_step (set_page f).
Proof. intros Hf. apply preserves_set_page. intros p s. by apply utxos_neutral_step. Qed.

Lemma neutral_then {A} f (m : M A) : neutral f → preserves in_step m → preserves in_step (set_page f;; m).
Proof. intros Hf Hm. apply preserves_bind; [by apply neutral_preserves|done]. Qed.

Lemma load_preserves a : preserves in_step (loadUTXOs a).
Proof.
  destruct a as [a|]; [|apply preserves_ret]. apply neutral_then; [done|]. apply neutral_then; [done|]. apply neutral_preserves.
  intros p. repeat split. intros b Hb. cbn. apply elem_of_app. by left.
Qed.

(** A change of the marks of [a], perhaps with a message, and a load for [a]. *)
Lemma marks_change a f g : neutral g → (∀ s b, b ≠ a → stored_frozen b (f s) = stored_frozen b s ∧ stored_labels b (f s) = stored_labels b s) →
  preserves in_step (service (ls_setItem f);; set_page g;; loadUTXOs (Some a)).
Proof.
  intros Hg Hf [[p s] e] H. rewrite run_service_setItem. cbn [fst snd services page].
  destruct (writable e); [|exact H]. apply (utxos_neutral_step g) in H; [|done]. destruct H as [Hm Hl]. split; [|exact Hl]. unfold rows_of in *. cbn in *.
  destruct last as [[b r]|]; [|exact Hm]. destruct Hm as [Hb|Hm]; [left; apply elem_of_app; by left|].
  destruct (decide (b = a)) as [->|Hne]; [left; apply elem_of_app; right; by left|].
  right. destruct (Hf s b Hne) as [E1 E2]. etransitivity; [exact Hm|]. unfold rows_for. change (stored_frozen b s) with (stored_frozen b s). rewrite <- E1, <- E2. done.
Qed.
End LastLoad.

Definition load_body (a : string) (r : reply) : M () :=
  history ← withTimeout r; froz ← service (frozen_set a); labels ← service (utxo_labels a); set_page (setUtxos (mark froz labels <$> history)).

Lemma load_body_run a r p s e :
  (∃ msg, load_body a r (MkWorld p s, e) = (Throw msg, (MkWorld p s, e)) ∧ rows_for a r s = []) ∨
  load_body a r (MkWorld p s, e) = (Ok (), (MkWorld (setUtxos (rows_for a r s) p) s, e)).
Proof.
  assert (∀ h, (froz ← service (frozen_set a); labels ← service (utxo_labels a); set_page (setUtxos (mark froz labels <$> h))) (MkWorld p s, e) =
    match stored_frozen a s, stored_labels a s with
    | Ok fr, Ok lb => (Ok (), (MkWorld (setUtxos (mark fr lb <$> h) p) s, e))
    | Throw m, _ | _, Throw m => (Throw m, (MkWorld p s, e))
    end) as H.
  { intros h. rewrite (run_service _ _ (MkWorld p s, e) _ _ _ (frozen_run a s e)). destruct (stored_frozen a s) as [fr|m] eqn:Ef; [|done].
    cbn [page fst snd]. rewrite (run_service _ _ (MkWorld p s, e) _ _ _ (utxo_labels_run a s e)). by destruct (stored_labels a s). }
  unfold load_body, withTimeout, rows_for. destruct r as [h|msg|]; page_run; [| |]; try (left; by eexists);
    rewrite H; destruct (stored_frozen a s), (stored_labels a s); try (left; by eexists); by right.
Qed.

(** A load that ends becomes the last one, and its rows are shown. *)
Lemma load_ends_rows n r a p s e : loads p !! n = Some a → in_step_with (Some (a, r)) (load_ends n r (MkWorld p s, e)).2.1.
Proof.
  intros Hn. unfold load_ends. rewrite run_get_page. cbn [page fst]. rewrite Hn. rewrite run_set_page. cbn [page services fst snd]. fold (load_body a r).
  destruct (load_body_run a r (set_loads (delete n (loads p)) p) s e) as [(msg & E & Hr)|E].
  - erewrite run_Ok; [|rewrite (run_try_Throw _ _ _ _ _ E); reflexivity]. split; [|done]. right. exact (eq_sym Hr).
  - rewrite (run_Ok _ _ _ _ _ (run_try_Ok _ _ _ _ _ E)). split; [|done]. by right.
Qed.

(** The last load that ended after an event. *)
Definition load_after (last : option (string * reply)) (ev : event) (p : UtxosPage) : option (string * reply) :=
  match ev with LoadEnds n r => match loads p !! n with Some a => Some (a, r) | None => last end | _ => last end.

Section Events.
Context (last : option (string * reply)).
Abbreviation in_step := (in_step_with last).
Arguments neutral_preserves {last}.
Arguments neutral_then {last} {A}.

Lemma consolidate_preserves : preserves in_step handleConsolidate.
Proof.
  apply preserves_get_page. intros p. destruct (activeWallet p) as [a|]; [|by apply neutral_preserves].
  destruct (selectedUtxos p) as [|k ks]; [by apply neutral_preserves|]. case_match; [by apply neutral_preserves|].
  apply preserves_try; [|intros m; by apply neutral_preserves]. apply preserves_bind; [|intros l; by apply neutral_preserves].
  apply preserves_mapM. intros x _. unfold selected_utxo. destruct (find_key _ _); [apply preserves_ret|apply preserves_throw].
Qed.

Lemma handle_preserves ev : (∀ n r, ev ≠ LoadEnds n r) → preserves in_step (handle ev).
Proof.
  intros Hev. destruct ev; cbn [handle]; try by apply neutral_preserves.
  - apply neutral_then; [done|]. apply load_preserves.
  - by destruct (Hev n r).
  - apply preserves_set_page. intros p s [Hm Hl]. split; [exact Hm|]. cbn in *. intros [Hs E]%orb_false_iff.
    apply negb_false_iff, bool_decide_eq_true in E as ->. by apply Hl.
  - apply preserves_set_page. intros p s0 [Hm Hl]. split; [exact Hm|]. cbn in *. intros [Hs E]%orb_false_iff.
    apply negb_false_iff, bool_decide_eq_true in E as ->. by apply Hl.
  - apply preserves_get_page. intros p. destruct (activeWallet p) as [a|]; [|apply preserves_ret].
    apply preserves_bind; [apply preserves_reads; intros s e; by rewrite frozen_run|]. intros fr. apply neutral_then; [done|].
    apply (marks_change last a _ id); [done|]. intros s b Hb. rewrite stored_frozen_set, (proj2 (str_eqb_false a b)) by done. done.
  - apply preserves_get_page. intros p. destruct (activeWallet p) as [a|]; [|apply preserves_ret]. destruct label as [l|]; [|apply preserves_ret].
    case_match; [apply preserves_ret|]. apply preserves_bind; [apply preserves_reads; intros s e; by rewrite utxo_labels_run|]. intros lb.
    apply marks_change; [done|]. intros s b Hb. rewrite stored_labels_set, (proj2 (str_eqb_false a b)) by done. done.
  - apply consolidate_preserves.
  - apply preserves_get_page. intros p. destruct (spending p !! n) as [q|]; [|apply preserves_ret]. apply neutral_then; [done|].
    destruct r as [t|msg]; [|by apply neutral_preserves]. do 3 (apply neutral_then; [done|]). apply load_preserves.
Qed.

Lemma handle_step ev w : in_step w.1 → in_step_with (load_after last ev (page w.1)) (handle ev w).2.1.
Proof.
  intros H. destruct ev; try (apply handle_preserves; [done|exact H]). destruct w as [[p s] e]. cbn [load_after handle fst page].
  destruct (loads p !! n) as [a|] eqn:E; [by apply load_ends_rows|]. unfold load_ends. rewrite run_get_page. cbn [page fst]. by rewrite E.
Qed.
End Events.

Lemma utxos_render_run last w : in_step_with last w.1 → ∃ w', render w = (Ok (), w') ∧ in_step_with last w'.1 ∧ stale (page w'.1) = false.
Proof.
  destruct w as [[p s] e]. intros [Hm Hl]. unfold render. page_run. unfold list_of in Hl. cbn in Hl. destruct (stale p) eqn:Hs; cbn [js_when].
  - unfold applyFilters. page_run. eexists. split; [reflexivity|]. split; [|done]. split; [exact Hm|]. intros _. cbn. f_equal.
    destruct (filter p); try done. symmetry. by apply js_filter_all.
  - eexists. split; [reflexivity|]. split; [|done]. split; [exact Hm|]. intros _. by apply Hl.
Qed.

Lemma utxos_exec_run last ev w : in_step_with last w.1 → ∃ w', exec ev w = (Ok (), w') ∧ in_step_with (load_after last ev (page w.1)) w'.1 ∧ stale (page w'.1) = false.
Proof.
  intros H. unfold exec. assert (∃ w1, js_try (handle ev) (λ _, mret ()) w = (Ok (), w1) ∧ in_step_with (load_after last ev (page w.1)) w1.1) as (w1 & E & H1).
  { assert (in_step_with (load_after last ev (page w.1)) (handle ev w).2.1) as Hp by by apply handle_step. unfold js_try. destruct (handle ev w) as [[[]|msg] w1]; cbn in Hp; by exists w1. }
  rewrite (run_Ok _ _ _ _ _ E). by apply utxos_render_run.
Qed.

(** The wallet and the reply of the last load that ended in a run. *)
Fixpoint last_load (evs : list event) (w : W * Env) (last : option (string * reply)) : option (string * reply) :=
  match evs with
  | [] => last
  | ev :: evs => last_load evs (exec ev w).2 (load_after last ev (page w.1))
  end.

(** The order that is picked: large amounts first, many confirmations first, or few. *)
Definition in_order (s : SortBy) (l : list UTXO) : Prop :=
  match s with
  | by_amount => Forall (λ u, plain_number (amount u)) l → StronglySorted (λ a b, SFltb (amount a) (amount b) = false) l
  | by_confirmations => StronglySorted (λ a b, confirmations b <= confirmations a) l
  | by_age => StronglySorted (λ a b, confirmations a <= confirmations b) l
  end.

Lemma sorted_in_order s l : in_order s (js_sort (later s) l).
Proof.
  destruct s; cbn [in_order].
  - intros H. apply (sorted_down amount). by rewrite <- (js_sort_perm (later by_amount)).
  - eapply (strongly_sorted_impl (λ _, True)); [|by apply Forall_true|apply js_sort_sorted with (P := λ _, True); [| |by apply Forall_true]]; cbn; intros; lia.
  - eapply (strongly_sorted_impl (λ _, True)); [|by apply Forall_true|apply js_sort_sorted with (P := λ _, True); [| |by apply Forall_true]]; cbn; intros; lia.
Qed.

(** C35: Whatever happened, in whatever order the loads ended: the list is what the filter keeps of the rows, in the order
    that is picked (by amount, where these are finite); and once no load is under way the rows are the outputs that the last load to end gave of its wallet,
    each frozen and labelled as the storage says of it for that wallet. There are none when no load has ended, or when the
    last one failed, came too late or could not read the marks. *)
Theorem marks_are_shown evs s e :
  let w := js_forEach exec evs (MkWorld blank s, e) in let p := page w.2.1 in let s' := services w.2.1 in
  w.1 = Ok () ∧
  (evs ≠ [] → in_order (sortBy p) (filteredUtxos p) ∧ filteredUtxos p ≡ₚ
    js_filter (λ u, match filter p with f_all => true | f_spendable => spendable u && negb (frozen u) | f_frozen => frozen u end) (utxos p)) ∧
  (loads p = [] → match last_load evs (MkWorld blank s, e) None with
    | None => utxos p = []
    | Some (a, r) =>
        match r, stored_frozen a s', stored_labels a s' with
        | Replies h, Ok froz, Ok labels => (λ u, (coin u, spendable u)) <$> utxos p = h ∧
            Forall (λ u, (frozen u = true ↔ key_of u ∈ froz) ∧ ∀ l, coin_label u = Some l ↔ map_get (key_of u) labels = Some l ∧ l ≠ "") (utxos p)
        | _, _, _ => utxos p = []
        end
    end).
Proof.
  assert (∀ w0 last, in_step_with last w0.1 → ∃ w1, js_forEach exec evs w0 = (Ok (), w1) ∧ in_step_with (last_load evs w0 last) w1.1 ∧ (evs ≠ [] → stale (page w1.1) = false)) as H.
  { induction evs as [|ev evs IH]; intros w0 last H0; cbn [js_forEach last_load]; [by exists w0|].
    destruct (utxos_exec_run last ev w0 H0) as (w1 & E & H1 & Hs1). rewrite (run_Ok _ _ _ _ _ E), E. destruct (IH w1 _ H1) as (w2 & E2 & H2 & Hs2).
    exists w2. split; [done|]. split; [done|]. intros _. destruct evs; [|by apply Hs2]. by injection E2 as <-. }
  destruct (H (MkWorld blank s, e) None) as (w & E & [Hm Hl] & Hs); [by split|]. cbv zeta. rewrite E. cbn [fst snd]. split; [done|]. split.
  - intros Hne. rewrite (Hl (Hs Hne)). split; [apply sorted_in_order|]. by rewrite js_sort_perm.
  - intros Hn. unfold rows_of in Hm. destruct (last_load _ _ _) as [[a r]|]; [|done]. rewrite Hn in Hm. destruct Hm as [Ha|Hm]; [by apply not_elem_of_nil in Ha|].
    unfold rows_for in Hm. rewrite Hm. destruct r as [h| |]; [|done..]. destruct (stored_frozen a (services w.1)) as [fr|], (stored_labels a (services w.1)) as [lb|]; try done. split.
    + rewrite <- list_fmap_compose. rewrite <- (list_fmap_id h) at 2. apply list_fmap_ext. by intros ? [].
    + apply Forall_fmap, Forall_true. intros u. split; [|apply label_at_Some]. cbn. by rewrite js_some_str, bool_decide_eq_true.
Qed.

(** ** One mark at a time *)

Lemma toggled_has k x l : bool_decide (x ∈ toggled k l) = (if str_eqb k x then negb (bool_decide (x ∈ l)) else bool_decide (x ∈ l)).
Proof.
  unfold toggled. rewrite js_some_str. destruct (str_eqb k x) eqn:E.
  - apply str_eqb_true in E as ->. destruct (decide (x ∈ l)) as [Hk|Hk].
    + rewrite (bool_decide_eq_true_2 (x ∈ l)) by done. apply bool_decide_eq_false. rewrite elem_of_js_filter, str_eqb_refl. by intros [_ ?].
    + rewrite (bool_decide_eq_false_2 (x ∈ l)) by done. apply bool_decide_eq_true, elem_of_app. right. by left.
  - apply bool_decide_ext. destruct (bool_decide (k ∈ l)).
    + rewrite elem_of_js_filter, E. naive_solver.
    + apply str_eqb_false in E. rewrite elem_of_app, list_elem_of_singleton. naive_solver.
Qed.

(** Freezing an output marks it, or takes its mark, for the active wallet alone and leaves every other output as it
    was; the rows are asked for anew. *)
Theorem freeze_changes_one_mark a fr t v p s e : activeWallet p = Some a → stored_frozen a s = Ok fr → writable e = true →
  let w := handle (Freeze t v) (MkWorld p s, e) in let s' := services w.2.1 in
  w.1 = Ok () ∧ loads (page w.2.1) = loads p ++ [a] ∧ ls_labels s' = ls_labels s ∧ (∀ b, b ≠ a → stored_frozen b s' = stored_frozen b s) ∧
  ∃ fr', stored_frozen a s' = Ok fr' ∧ ∀ k, bool_decide (k ∈ fr') = (if str_eqb (outpoint t v) k then negb (bool_decide (k ∈ fr)) else bool_decide (k ∈ fr)).
Proof.
  intros Ha Hf Hw. cbn [handle]. unfold toggleFreeze. page_run. rewrite Ha. page_run.
  rewrite (run_service _ _ (MkWorld p s, e) _ _ _ (frozen_run a s e)), Hf. page_run. rewrite run_service_setItem. cbn [fst snd services page].
  rewrite Hw. cbn. split; [done|]. split; [done|]. split; [done|]. split.
  - intros b Hb. etransitivity; [apply stored_frozen_set|]. by rewrite (proj2 (str_eqb_false a b) (not_eq_sym Hb)).
  - eexists. split; [etransitivity; [apply stored_frozen_set|by rewrite str_eqb_refl]|]. intros k. rewrite <- toggled_has. apply bool_decide_ext. apply elem_of_set_of.
Qed.

(** On a full storage the page says that the output is frozen, and it is not; the rows are not asked for. *)
Theorem full_storage_says_frozen a fr t v p s e : activeWallet p = Some a → stored_frozen a s = Ok fr → outpoint t v ∉ fr → writable e = false →
  (handle (Freeze t v) (MkWorld p s, e)).2 = (MkWorld (setSuccess (Some "UTXO frozen") p) s, e).
Proof.
  intros Ha Hf Hn Hw. cbn [handle]. unfold toggleFreeze. page_run. rewrite Ha. page_run.
  rewrite (run_service _ _ (MkWorld p s, e) _ _ _ (frozen_run a s e)), Hf. page_run. rewrite run_service_setItem. cbn [fst snd services page].
  rewrite Hw. cbn. by rewrite js_some_str, bool_decide_eq_false_2.
Qed.

(** ** Consolidation *)

Lemma pretty_no_colon z : str_all (not_char ":") (pretty z) = true ∨ z < 0.
Proof.
  destruct (decide (z < 0)); [by right|left]. apply (str_all_impl number_char); [|by apply pretty_number; lia].
  intros c. by destruct c as [[] [] [] [] [] [] [] []].
Qed.

(** An output that the node can have: no colon in its transaction's name, and a position. *)
Definition plain_coin (u : UTXO) : Prop := str_all (not_char ":") (txid u) = true ∧ 0 <= vout u.

Lemma find_key_of l u : u ∈ l → plain_coin u → ∃ u', find_key l (key_of u) = Some u' ∧ u' ∈ l ∧ key_of u' = key_of u.
Proof.
  intros Hu [Ht Hv]. unfold find_key, key_of, outpoint. change (":" +:+ pretty (vout u)) with (String ":" (pretty (vout u))). rewrite (split_on_join ":" (txid u) (pretty (vout u))) by done.
  rewrite split_on_none by (destruct (pretty_no_colon (vout u)); [done|lia]).
  destruct (js_find _ l) as [u'|] eqn:E.
  - apply js_find_Some in E as [Hin [E1%str_eqb_true E2%str_eqb_true]%andb_true_iff]. exists u'. split; [done|]. split; [done|]. by rewrite E1, E2.
  - rewrite js_find_None in E. specialize (E u Hu). by rewrite !str_eqb_refl in E.
Qed.

Lemma selected_run l ks w : Forall (λ k, ∃ u, u ∈ l ∧ plain_coin u ∧ key_of u = k) ks →
  ∃ us, js_mapM (selected_utxo l) ks w = (Ok us, w) ∧ key_of <$> us = ks ∧ Forall (λ u, u ∈ l) us.
Proof.
  intros H. induction H as [|k ks (u & Hu & Hp & <-) _ (us & IH & Hk & Hin)]; [by exists []|].
  destruct (find_key_of l u Hu Hp) as (u' & E & Hu' & Ek). exists (u' :: us). cbn [js_mapM].
  assert (selected_utxo l (key_of u) w = (Ok u', w)) as E1 by (unfold selected_utxo; by rewrite E).
  rewrite (run_Ok _ _ _ _ _ E1), (run_Ok _ _ _ _ _ IH). page_run. split; [done|]. csimpl. rewrite Ek, Hk. split; [done|]. by constructor.
Qed.

(** C32: What the wallet is asked to spend is what is selected: an output for each key, of the rows, in the order of selection. *)
Theorem consolidates_selection a k ks p s e : activeWallet p = Some a → selectedUtxos p = k :: ks → consolidateAddress p ≠ "" →
  Forall (λ k, ∃ u, u ∈ utxos p ∧ plain_coin u ∧ key_of u = k) (selectedUtxos p) →
  ∃ us, handle Consolidate (MkWorld p s, e) = (Ok (), (MkWorld (set_spending (spending p ++ [MkRequest a us (consolidateAddress p)]) p) s, e)) ∧
    key_of <$> us = selectedUtxos p ∧ Forall (λ u, u ∈ utxos p) us.
Proof.
  intros Ha Hs Hd Hk. destruct (selected_run _ _ (MkWorld p s, e) Hk) as (us & E & Hu). exists us. split; [|exact Hu].
  cbn [handle]. unfold handleConsolidate. page_run. rewrite Ha. rewrite Hs in E |- *. rewrite (proj2 (str_eqb_false _ _) Hd).
  erewrite run_try_Ok; [reflexivity|]. by rewrite (run_Ok _ _ _ _ _ E).
Qed.

(** ** The score *)

Theorem privacy_score_range u : 35 <= calculatePrivacyScore u <= 100.
Proof. unfold calculatePrivacyScore. cbv zeta. repeat case_match; lia. Qed.

(** ** Examples *)

Definition demo_coin (t : string) (v n : Z) : Wallet.UTXO * bool := (Wallet.MkUTXO t v "kc1a" "" (of_Z n) 120, true).
Definition run (evs : list event) : UtxosPage := page ((js_forEach exec evs (MkWorld blank (MkMarks [] []), demo_env)).2.1).
Definition demo_load : list event := [WalletLoaded (Some "kc1a"); LoadEnds 0 (Replies [demo_coin "aa" 0 5; demo_coin "bb" 1 7])].

(** The largest first; a frozen output is marked after the next load, and filtered. *)
Example utxos_demo_lists :
  (key_of <$> filteredUtxos (run demo_load), key_of <$> filteredUtxos (run (demo_load ++ [Freeze "bb" 1; LoadEnds 0 (Replies [demo_coin "aa" 0 5; demo_coin "bb" 1 7]); PickFilter f_spendable])))
  = (["bb:1"; "aa:0"], ["aa:0"]).
Proof. vm_compute. reflexivity. Qed.

(** An output that was selected and then frozen is consolidated with the others. *)
Example frozen_is_spent :
  let p := run (demo_load ++ [Select "aa" 0; Select "bb" 1; Freeze "bb" 1; LoadEnds 0 (Replies [demo_coin "aa" 0 5; demo_coin "bb" 1 7]); Dialog true; Consolidate]) in
  (λ q, (λ u, (key_of u, frozen u)) <$> outputs q) <$> spending p = [[("aa:0", false); ("bb:1", true)]].
Proof. vm_compute. reflexivity. Qed.

(** A wallet that answers too late is shown as empty, without an error. *)
Example slow_wallet_is_empty :
  let p := run (demo_load ++ [WalletLoaded (Some "kc1a"); LoadEnds 0 TimesOut]) in (utxos p, error p, loading p) = ([], None, false).
Proof. vm_compute. reflexivity. Qed.

(** A selection outlives the rows that it was made of. *)
Example selection_of_other_wallet :
  let p := run (demo_load ++ [Select "aa" 0; Select "bb" 1; WalletLoaded (Some "kc1b"); LoadEnds 0 (Replies [demo_coin "cc" 0 1]); Dialog true; Consolidate]) in
  (length (selectedUtxos p), error p, spending p) = (2%nat, Some "Selected UTXO not found", []).
Proof. vm_compute. reflexivity. Qed.

Lemma consolidates_selection_witness : let p := run (demo_load ++ [Select "aa" 0; Select "bb" 1; Dialog true]) in
  ∃ us, handle Consolidate (MkWorld p (MkMarks [] []), demo_env) =
    (Ok (), (MkWorld (set_spending (spending p ++ [MkRequest "kc1a" us (consolidateAddress p)]) p) (MkMarks [] []), demo_env)) ∧
    key_of <$> us = selectedUtxos p ∧ Forall (λ u, u ∈ utxos p) us.
Proof.
  intros p. apply (consolidates_selection "kc1a" "aa:0" ["bb:1"]); [vm_compute; reflexivity|vm_compute; reflexivity|vm_compute; discriminate|].
  assert (selectedUtxos p = ["aa:0"; "bb:1"]) as -> by (vm_compute; reflexivity).
  assert (utxos p = [MkCoin (demo_coin "aa" 0 5).1 true false None; MkCoin (demo_coin "bb" 1 7).1 true false None]) as -> by (vm_compute; reflexivity).
  apply Forall_cons. split; [eexists; split; [by left|split; [by split|by vm_compute]]|].
  apply Forall_cons. split; [eexists; split; [by right; left|split; [by split|by vm_compute]]|apply Forall_nil_2].
Defined.

Lemma freeze_changes_one_mark_witness : let p := run demo_load in
  let w := handle (Freeze "bb" 1) (MkWorld p (MkMarks [] []), demo_env) in let s' := services w.2.1 in
  w.1 = Ok () ∧ loads (page w.2.1) = loads p ++ ["kc1a"] ∧ ls_labels s' = [] ∧ (∀ b, b ≠ "kc1a" → stored_frozen b s' = stored_frozen b (MkMarks [] [])) ∧
  ∃ fr', stored_frozen "kc1a" s' = Ok fr' ∧ ∀ k, bool_decide (k ∈ fr') = (if str_eqb (outpoint "bb" 1) k then negb (bool_decide (k ∈ @nil string)) else bool_decide (k ∈ @nil string)).
Proof. apply (freeze_changes_one_mark "kc1a" [] "bb" 1 (run demo_load) (MkMarks [] []) demo_env); vm_compute; reflexivity. Defined.

Lemma marks_are_shown_witness :
  let evs := demo_load ++ [Freeze "bb" 1; LoadEnds 0 (Replies [demo_coin "aa" 0 5; demo_coin "bb" 1 7])] in
  length (utxos (run evs)) = 2%nat ∧ Forall (λ u, frozen u = true ↔ key_of u ∈ ["bb:1"]) (utxos (run evs)).
Proof.
  intros evs. destruct (marks_are_shown evs (MkMarks [] []) demo_env) as (_ & _ & H).
  assert (last_load evs (MkWorld blank (MkMarks [] []), demo_env) None = Some ("kc1a", Replies [demo_coin "aa" 0 5; demo_coin "bb" 1 7])) as E by (vm_compute; reflexivity).
  assert (stored_frozen "kc1a" (services (js_forEach exec evs (MkWorld blank (MkMarks [] []), demo_env)).2.1) = Ok ["bb:1"]) as Ef by (vm_compute; reflexivity).
  assert (stored_labels "kc1a" (services (js_forEach exec evs (MkWorld blank (MkMarks [] []), demo_env)).2.1) = Ok []) as El by (vm_compute; reflexivity).
  rewrite E, Ef, El in H. destruct (H ltac:(vm_compute; reflexivity)) as [Hc Hf]. split; [vm_compute; reflexivity|].
  eapply Forall_impl; [exact Hf|]. by intros u [? _].
Defined.
