(* ===== verification/Assistant.v ===== *)
(** * [AIAssistant] (apps/web/wallet/src/services/aiAssistant.ts)

    The conversation, whose replies come a second after the messages, the replies by keyword and
    the command reader, on the scanners of [NlpParser].  The bullet of the replies is written in UTF-8. *)

From Stdlib Require Import Ascii String.
From S2P Require Import Prelude JsNumber JsString NlpParser.

(** ** Replies *)

Definition nl : string := String (ascii_of_nat 10) EmptyString.
Definition dquote : string := String (ascii_of_nat 34) EmptyString.

(** [/send\s+(\d+(?:\.\d+)?)\s+kc/] at the head of [s] *)
Definition send_at (s : string) : option string :=
  if startsWith "send" s then
    match String.substring 4 (String.length s - 4) s with
    | String c r =>
        if is_space c then
          '(n, r') ← number_at (trimStart r);
          match r' with
          | String d r'' => if is_space d && startsWith "kc" (trimStart r'') then Some n else None
          | EmptyString => None
          end
        else None
    | EmptyString => None
    end
  else None.

Definition mentions (lowerInput : string) (ws : list string) : bool := js_some (λ w, includes w lowerInput) ws.

Definition generateResponse (input : string) : string :=
  let lowerInput := toLowerCase input in
  if mentions lowerInput ["balance"; "how much"] then
    "Your current balance is 125.5 KC. You have 3 pending transactions totaling 12.3 KC."
  else if includes "send" lowerInput && includes "kc" lowerInput then
    match leftmost send_at lowerInput with
    | Some n => "I'll help you send " +:+ n +:+ " KC. Please provide the recipient address or select from your contacts."
    | None => "I can help you send Kubercoin. How much would you like to send?"
    end
  else if mentions lowerInput ["transaction"; "history"] then
    join nl ["Your recent transactions:"; "• Received 50 KC from Alice (2 hours ago)"; "• Sent 25 KC to Bob (5 hours ago)";
      "• Mining reward 10 KC (1 day ago)"]
  else if mentions lowerInput ["price"; "market"] then
    "Current KC price: $2.45 (+5.2% today). 24h High: $2.50, Low: $2.30. Market cap: $245M."
  else if mentions lowerInput ["portfolio"; "optimize"] then
    join nl ["Your portfolio analysis:"; "• Total value: $307.48"; "• 30-day return: +12.3%"; "• Risk level: Medium"; "";
      "Recommendation: Consider diversifying by adding more staking positions."]
  else if mentions lowerInput ["security"; "safe"] then
    join nl ["Your security score is 78/100. I recommend:"; "• Enable two-factor authentication"; "• Set up backup recovery";
      "• Review recent login activity"]
  else if mentions lowerInput ["mining"; "mine"] then
    join nl ["Mining status:"; "• Hash rate: 125 MH/s"; "• Blocks mined today: 3"; "• Estimated earnings: 15 KC/day";
      "• Next difficulty adjustment: in 2 days"]
  else if mentions lowerInput ["gas"; "fee"] then
    join nl ["Current network fees:"; "• Low: 0.001 KC (~30 sec)"; "• Medium: 0.002 KC (~15 sec)"; "• High: 0.005 KC (~5 sec)"; "";
      "I recommend using medium priority for normal transactions."]
  else if mentions lowerInput ["help"; "can you"] then
    join nl ["I can help you with:"; "• Check your balance and transactions"; "• Send KC to others"; "• View market prices";
      "• Analyze your portfolio"; "• Manage security settings"; "• Monitor mining activity"; "• Estimate gas fees"; "";
      "Just ask me in natural language!"]
  else
    "I understand you're asking about: " +:+ dquote +:+ input +:+ dquote +:+
    ". Could you provide more details? You can ask me about balance, transactions, prices, portfolio, security, mining, or fees.".

(** ** The conversation *)

Inductive Role := user | assistant.
#[export] Instance Role_eq_dec : EqDecision Role.
Proof. solve_decision. Defined.

Record Message := MkMessage { id : string; role : Role; content : string; timestamp : Z }.

(** [waiting]: the messages whose reply has not come yet; timers of one length end in the order they were set. *)
Record Assistant := MkAssistant { conversationHistory : list Message; waiting : list string }.

Abbreviation M := (js (Assistant * Env)).

Definition role_text (r : Role) : string := match r with user => "user" | assistant => "assistant" end.

(** Each [Date.now()] is read in turn. *)
Definition message (r : Role) (text : string) : M Message :=
  t ← date_now;
  t' ← date_now;
  mret (MkMessage ("msg_" +:+ pretty t +:+ "_" +:+ role_text r) r text t').

Definition push (m : Message) (s : Assistant) : Assistant := MkAssistant (conversationHistory s ++ [m]) (waiting s).

(** [sendMessage] up to the timer. *)
Definition sendMessage (userMessage : string) : M () :=
  m ← message user userMessage;
  modify_this (λ s, MkAssistant (conversationHistory (push m s)) (waiting s ++ [userMessage])).

(** ... and from its end on. *)
Definition reply : M (option Message) :=
  s ← this;
  match waiting s with
  | [] => mret None
  | text :: rest =>
      modify_this (λ s, MkAssistant (conversationHistory s) rest);;
      m ← message assistant (generateResponse text);
      modify_this (push m);;
      mret (Some m)
  end.

Definition clearHistory : M () := modify_this (λ s, MkAssistant [] (waiting s)).

Definition getSuggestions : list string :=
  ["What's my current balance?"; "Send 10 KC to Alice"; "Show my transaction history"; "What's the current KC price?";
   "Analyze my portfolio"; "Check security status"; "What are the current gas fees?"].

Inductive op := Sends (text : string) | Replies | Clears.

Definition exec (o : op) : M () :=
  match o with Sends x => sendMessage x | Replies => reply;; mret () | Clears => clearHistory end.

(** ** Commands *)

(** [/(\d+(?:\.\d+)?)\s*kc/] at the head of [s] *)
Definition kc_at (s : string) : option string :=
  '(n, r) ← number_at s; if startsWith "kc" (trimStart r) then Some n else None.

Inductive CommandData := SendData (amount : num) (to : option string) | BalanceData (balance : num).
Record CommandResult := MkResult { success : bool; action : option string; data : option CommandData; response : string }.

Definition parseCommand (input : string) : CommandResult :=
  let lowerInput := toLowerCase input in
  match (if includes "send" lowerInput then leftmost kc_at lowerInput else None) with
  | Some n =>
      let to := leftmost recipient_at lowerInput in
      MkResult true (Some "send") (Some (SendData (parseFloat n) to))
        ("Preparing to send " +:+ n +:+ " KC" +:+ match to with Some r => " to " +:+ r | None => "" end +:+ ".")
  | None =>
      if mentions lowerInput ["balance"; "how much"] then
        MkResult true (Some "check_balance") (Some (BalanceData (lit 1255 1))) "Checking your balance..."
      else MkResult false None None
        ("I couldn't parse that command. Try phrases like " +:+ dquote +:+ "send 10 KC to Alice" +:+ dquote +:+ " or " +:+
         dquote +:+ "check my balance" +:+ dquote +:+ ".")
  end.

(** * Theorems *)

(** ** Replies and questions *)

Definition said (r : Role) (s : Assistant) : list string :=
  content <$> js_filter (λ m, bool_decide (role m = r)) (conversationHistory s).

(** Replies come in the order of the questions; those to come answer the rest. *)
Definition in_order (s : Assistant) : Prop :=
  said assistant s ++ (generateResponse <$> waiting s) = generateResponse <$> said user s.

Lemma filter_app {A} (p : A → bool) l k : js_filter p (l ++ k) = js_filter p l ++ js_filter p k.
Proof. unfold js_filter. induction l as [|x l IH]; [done|]. cbn. destruct (p x); cbn; by rewrite IH. Qed.

Lemma said_push r m s : said r (push m s) = said r s ++ (if decide (role m = r) then [content m] else []).
Proof.
  unfold said, push. cbn. rewrite filter_app, fmap_app. f_equal. cbn.
  case_decide as E; [by rewrite bool_decide_eq_true_2|by rewrite bool_decide_eq_false_2].
Qed.

Lemma exec_in_order o : o ≠ Clears → preserves in_order (exec o).
Proof.
  intros Ho [s e] H. destruct o as [x| |]; [| |done]; cbn in H |- *.
  - unfold in_order. change (said ?r (MkAssistant (conversationHistory (push ?m s)) _)) with (said r (push m s)).
    unfold in_order in H. unfold sendMessage, message. js_run. cbn.
    set (m := MkMessage _ user x _).
    change (said assistant (push m s) ++ (generateResponse <$> (waiting s ++ [x])) = generateResponse <$> said user (push m s)).
    rewrite !said_push. cbn. rewrite app_nil_r, !fmap_app, app_assoc, H. done.
  - unfold reply. js_run. destruct (waiting s) as [|x rest] eqn:E; [done|]. unfold message. js_run. cbn.
    set (m := MkMessage _ assistant (generateResponse x) _). set (s' := MkAssistant _ rest).
    change (said assistant (push m s') ++ (generateResponse <$> rest) = generateResponse <$> said user (push m s')).
    rewrite !said_push. cbn. rewrite app_nil_r, <- app_assoc. unfold in_order in H. rewrite E in H. exact H.
Qed.

(** While the history is not cleared, the replies are those to the first questions, in their order, and the
    questions that are left are the ones being waited for. *)
Theorem replies_follow_questions ops e : Clears ∉ ops →
  let s := (js_forEach exec ops (MkAssistant [] [], e)).2.1 in
  said assistant s = generateResponse <$> take (length (said assistant s)) (said user s) ∧
  length (said user s) = (length (said assistant s) + length (waiting s))%nat.
Proof.
  intros Hops s. assert (in_order s) as H.
  { apply (preserves_forEach in_order exec ops); [|done]. intros o Ho. apply exec_in_order. by intros ->. }
  unfold in_order in H. split.
  - rewrite fmap_take, <- H. by rewrite take_app_length.
  - apply (f_equal length) in H. rewrite length_app, !length_fmap in H. done.
Qed.

Lemma replies_follow_questions_witness :
  let s := (js_forEach exec [Sends "hi"; Sends "fee?"; Replies] (MkAssistant [] [], demo_env)).2.1 in
  said user s = ["hi"; "fee?"] ∧ length (said user s) = (length (said assistant s) + length (waiting s))%nat.
Proof.
  split; [vm_compute; reflexivity|].
  refine (proj2 (replies_follow_questions [Sends "hi"; Sends "fee?"; Replies] demo_env _)). rewrite !elem_of_cons, elem_of_nil. by intros [[=]|[[=]|[[=]|[]]]].
Defined.

(** A history that was cleared while a reply was due holds an answer without a question. *)
Example orphan_reply :
  (λ s, (said user s, length (said assistant s))) (js_forEach exec [Sends "hi"; Clears; Replies] (MkAssistant [] [], demo_env)).2.1 = ([], 1%nat).
Proof. vm_compute. reflexivity. Qed.

(** Two messages of one millisecond have one id. *)
Example one_id_twice : let e := MkEnv (λ _, 5) (λ _, "r") 0 0 0 true true in
  (λ s, id <$> conversationHistory s) (js_forEach exec [Sends "a"; Sends "b"] (MkAssistant [] [], e)).2.1 = ["msg_5_user"; "msg_5_user"].
Proof. vm_compute. reflexivity. Qed.

(** A question about fees that names transactions is answered with the history. *)
Example fee_question : generateResponse "What is the transaction fee?" = generateResponse "history".
Proof. vm_compute. reflexivity. Qed.

(** ** Commands *)

Lemma command_kc ds r : ds ≠ "" → str_all is_digit ds = true → leftmost kc_at (payment_command ds r) = Some ds.
Proof.
  intros Hne Hd. change (leftmost kc_at (ds +:+ String " " ("kc to " +:+ r)) = Some ds).
  apply leftmost_at. unfold kc_at, number_at. rewrite (span_app is_digit ds " "%char _ Hd eq_refl).
  unfold str_eqb. rewrite bool_decide_eq_false_2 by done. reflexivity.
Qed.

Lemma command_lower ds r : str_all is_digit ds = true → str_all lower_alnum r = true →
  toLowerCase (payment_command ds r) = payment_command ds r.
Proof.
  intros Hd Hr. apply unupper_toLowerCase. unfold payment_command. rewrite !str_all_app. cbn [andb].
  rewrite (str_all_impl is_digit unupper ds), (str_all_impl lower_alnum unupper r); try done;
    clear; intros c Hc; by destruct c as [[] [] [] [] [] [] [] []].
Qed.

(** The command that is suggested to the user is read: amount and recipient. *)
Theorem command_read_back digits r : digits ≠ "" → str_all is_digit digits = true → r ≠ "" → str_all lower_alnum r = true →
  parseCommand (payment_command digits r) =
    MkResult true (Some "send") (Some (SendData (parseFloat digits) (Some r))) ("Preparing to send " +:+ digits +:+ " KC to " +:+ r +:+ ".").
Proof.
  intros Hdn Hd Hrn Hr. unfold parseCommand. rewrite command_lower by done.
  change (includes "send" (payment_command digits r)) with true. cbv iota. rewrite command_kc, command_recipient by done.
  reflexivity.
Qed.

(** The first word that ends in "to" is taken for the one before the recipient, and names lose their capitals. *)
Example wrong_recipient : data (parseCommand "Send 5 KC from tomato to Bob") = Some (SendData (of_Z 5) (Some "to")).
Proof. vm_compute. reflexivity. Qed.
Example lower_recipient : data (parseCommand "send 10 KC to Alice") = Some (SendData (of_Z 10) (Some "alice")).
Proof. vm_compute. reflexivity. Qed.
(** A payment without a readable amount that mentions the balance is a question about it. *)
Example send_balance : action (parseCommand "send my whole balance to bob") = Some "check_balance".
Proof. vm_compute. reflexivity. Qed.
