(* ===== verification/Analytics.v ===== *)
(** * Summaries and metadata (apps/web/wallet/src/services/analytics.ts, mlEngine.ts, nftMetadata.ts)

    [AnalyticsService] lists the days of a period with volumes that are all zero; [MLEngine] finds
    unusual payments and a trend; [NFTMetadataService] resolves addresses and reads metadata.  None has
    a state.  The zone, [Math.pow] and the replies of [fetch] are parameters. *)

From Stdlib Require Import Ascii String.
From stdpp Require Import pretty.
From S2P Require Import Prelude JsMap JsNumber JsString JsDate Json.

(** ** [AnalyticsService] *)

Record DayVolume := MkDay { d_date : string; sent : num; received : num }.
Record Peer := MkPeer { p_address : string; p_amount : num; p_count : Z }.
Record Category := MkCategory { category : string; c_amount : num; percentage : num }.

Record AnalyticsData := MkAnalytics {
  totalSent : num;
  totalReceived : num;
  netFlow : num;
  transactionCount : Z;
  averageTransactionSize : num;
  topRecipients : list Peer;
  topSenders : list Peer;
  dailyVolume : list DayVolume;
  categoryBreakdown : list Category;
}.

Definition newline : string := String (ascii_of_nat 10) EmptyString.

Section Zone.
Context (z : Zone).

(** The cursor from day to day; [None] when the turns run out. *)
Fixpoint day_loop (fuel : nat) (cursor end_ : Z) : option (list DayVolume) :=
  if cursor <=? end_ then
    match fuel with
    | O => None
    | S fuel' =>
        rest ← day_loop fuel' (setDate z (getDate z cursor + 1) cursor) end_;
        Some (MkDay (default "" (head (split_on "T" (toISOString cursor)))) nzero nzero :: rest)
    end
  else Some [].

(** Two turns a day, and one. *)
Definition day_fuel (start end_ : Z) : nat := S (Z.to_nat ((end_ - start) / 43200000)).

Definition generateAnalytics (start end_ : Z) : option AnalyticsData :=
  days ← day_loop (day_fuel start end_) start end_;
  Some (MkAnalytics nzero nzero (nsub nzero nzero) 0 nzero [] [] days []).

Definition getHours (t : Z) : Z := TimeWithinDay (LocalTime z t) / 3600000.
End Zone.

Definition exportToCSV (data : AnalyticsData) : string :=
  "Metric,Value" +:+ newline
  +:+ "Total Sent," +:+ to_fixed 8 (totalSent data) +:+ newline
  +:+ "Total Received," +:+ to_fixed 8 (totalReceived data) +:+ newline
  +:+ "Net Flow," +:+ to_fixed 8 (netFlow data) +:+ newline
  +:+ "Transaction Count," +:+ pretty (transactionCount data) +:+ newline
  +:+ "Average Size," +:+ to_fixed 8 (averageTransactionSize data) +:+ newline +:+ newline
  +:+ "Daily Volume" +:+ newline +:+ "Date,Sent,Received" +:+ newline
  +:+ String.concat "" ((λ d, d_date d +:+ "," +:+ to_fixed 8 (sent d) +:+ "," +:+ to_fixed 8 (received d) +:+ newline) <$> dailyVolume data).

(** ** [MLEngine] *)

Definition sum_of (l : list num) : num := foldl nadd nzero l.
Definition count (l : list num) : num := of_Z (Z.of_nat (length l)).

Record PortfolioOptimization := MkPortfolio {
  currentAllocation : list (string * num);
  recommendedAllocation : list (string * num);
  expectedReturn : num;
  risk : num;
  sharpeRatio : num;
}.

(** [currentHoldings] in the order of [Object.entries]. *)
Definition optimizePortfolio (currentHoldings : list (string * num)) : PortfolioOptimization :=
  let total := sum_of currentHoldings.*2 in
  if SFleb total nzero then MkPortfolio [] [] nzero nzero nzero
  else
    let current := (λ kv, (kv.1, nmul (ndiv kv.2 total) (of_Z 100))) <$> currentHoldings in
    MkPortfolio current current nzero nzero nzero.

Inductive AnomalyType := spending_spike | unusual_recipient | suspicious_pattern | time_anomaly.
Inductive Severity := low | medium | high.
Inductive AnomalyData := Spike (amount zScore : num) | Count (n : Z).
Record Anomaly := MkAnomaly {
  id : string;
  a_type : AnomalyType;
  severity : Severity;
  description : string;
  timestamp : Z;
  data : AnomalyData;
}.

Record Payment := MkPayment { amount : num; to : string; paid_at : Z }.

Section Engine.
Context (z : Zone) (pow : num → num → num).

Definition mean (amounts : list num) : num := ndiv (sum_of amounts) (count amounts).
Definition stdDev (amounts : list num) : num :=
  nsqrt (ndiv (foldl (λ a b, nadd a (pow (nsub b (mean amounts)) (of_Z 2))) nzero amounts) (count amounts)).
Definition zScore (amounts : list num) (a : num) : num := ndiv (nsub a (mean amounts)) (stdDev amounts).

Definition spike (amounts : list num) (i : nat) (tx : Payment) : list Anomaly :=
  let s := zScore amounts (amount tx) in
  if SFltb (of_Z 2) s then
    [MkAnomaly ("anomaly_" +:+ pretty i) spending_spike (if SFltb (of_Z 3) s then high else medium)
      ("Unusually large transaction: " +:+ num_to_string (amount tx) +:+ " KC (" +:+ to_fixed 1 s +:+ "σ above average)")
      (paid_at tx) (Spike (amount tx) s)]
  else [].

Definition late_night (tx : Payment) : bool := let h := getHours z (paid_at tx) in (2 <=? h) && (h <=? 5).

Definition detectAnomalies (now : Z) (txs : list Payment) : list Anomaly :=
  let spikes := mjoin (imap (spike (amount <$> txs)) txs) in
  let lateNightTxs := js_filter late_night txs in
  let n := length lateNightTxs in
  spikes ++
  if (0 <? n)%nat then
    [MkAnomaly "anomaly_time" time_anomaly low (pretty n +:+ " transactions during unusual hours (2-5 AM)") now (Count (Z.of_nat n))]
  else [].
End Engine.

(** [undefined] where there are no prices. *)
Definition calculateMA (prices : list num) (period : nat) : option num :=
  if (length prices <? period)%nat then last prices
  else Some (ndiv (sum_of (slice_last period prices)) (of_Z (Z.of_nat period))).

Inductive Trend := bullish | bearish | neutral.
Record PricePrediction := MkPrediction { current : option num; predictions : list (string * num * num); trend : Trend }.

(** [a > b], false where one is undefined. *)
Definition above (a b : option num) : bool := match a, b with Some x, Some y => SFltb y x | _, _ => false end.

Definition predictPrice (historicalPrices : list num) : PricePrediction :=
  let shortMA := calculateMA (slice_last 5 historicalPrices) 5 in
  let longMA := calculateMA (slice_last 20 historicalPrices) 20 in
  MkPrediction (last historicalPrices) []
    (if above shortMA longMA then bullish else if above longMA shortMA then bearish else neutral).

(** A score and a feeling that do not depend on the sources. *)
Definition analyzeSentiment (sources : list string) : num * string := (nzero, "neutral").

Definition rules : list (list string * string) :=
  [(["salary"; "paycheck"], "Income"); (["grocery"; "food"], "Food & Dining"); (["rent"; "mortgage"], "Housing");
   (["gas"; "uber"], "Transportation"); (["netflix"; "spotify"], "Entertainment"); (["amazon"; "shop"], "Shopping");
   (["invest"; "stock"], "Investment")].

Definition categorizeTransaction (text : string) (amount : num) : string :=
  let lower := toLowerCase text in
  match js_find (λ r, js_some (λ w, includes w lower) r.1) rules with
  | Some r => r.2
  | None => if SFltb (of_Z 1000) amount then "Large Transfer" else "Other"
  end.

(** ** [NFTMetadataService] *)

Fixpoint endsWith (p s : string) : bool :=
  str_eqb p s || match s with String _ s' => endsWith p s' | EmptyString => false end.

(** [NEXT_PUBLIC_IPFS_GATEWAY_URL] is an argument. *)
Definition getGatewayBase (env : option string) : string :=
  let base := match env with Some u => if str_eqb u "" then "https://ipfs.io/ipfs/" else u | None => "https://ipfs.io/ipfs/" end in
  if endsWith "/" base then base else base +:+ "/".

(** [reply] is [fetch]: whether the status is a success, and what [response.json()] gives. *)
Definition fetchFromIPFS (env : option string) (reply : string → result (bool * result json)) (ipfsHash : string) : result json :=
  match reply (getGatewayBase env +:+ ipfsHash) with
  | Throw e => Throw e
  | Ok (false, _) => Throw "Failed to fetch IPFS metadata"
  | Ok (true, body) => body
  end.

Definition resolveIPFSUrl (ipfsUrl : string) : string :=
  if startsWith "ipfs://" ipfsUrl then "https://ipfs.io/ipfs/" +:+ String.substring 7 (String.length ipfsUrl - 7) ipfsUrl else ipfsUrl.

Definition validateMetadata (metadata : json) : result bool :=
  match metadata with
  | JNull => Throw "Cannot read properties of null"
  | _ => Ok (truthy (field "name" metadata) && truthy (field "image" metadata))
  end.

Definition parse_attribute (attr : json) : result (json * string) :=
  match attr with
  | JNull => Throw "Cannot read properties of null"
  | _ => Ok (match field "trait_type" attr with Some ty => if truthy_json ty then ty else JStr "Unknown" | None => JStr "Unknown" end,
             text_or_empty (field "value" attr))
  end.

Fixpoint parse_all (l : list json) : result (list (json * string)) :=
  match l with
  | [] => Ok []
  | x :: l' => match parse_attribute x, parse_all l' with
               | Throw e, _ => Throw e
               | Ok a, Throw e => Throw e
               | Ok a, Ok r => Ok (a :: r)
               end
  end.

Definition parseAttributes (attributes : json) : result (list (json * string)) :=
  match attributes with JArr l => parse_all l | _ => Ok [] end.

Definition uploadToIPFS (data : json) : result string := Throw "IPFS upload requires a configured gateway endpoint.".

Inductive Media := image | video | audio | unknown_media.

Definition getMediaType (url : string) : Media :=
  let extension := toLowerCase (default "" (last (split_on "." url))) in
  if js_some (str_eqb extension) ["jpg"; "jpeg"; "png"; "gif"; "svg"; "webp"] then image
  else if js_some (str_eqb extension) ["mp4"; "webm"; "mov"] then video
  else if js_some (str_eqb extension) ["mp3"; "wav"; "ogg"] then audio
  else unknown_media.

(** * Theorems *)

(** ** Days *)

(** The offset from UTC varies by at most half a day. *)
Definition calm (z : Zone) : Prop := ∀ t l, Z.abs ((LocalTime z t - t) - (l - UTC z l)) <= 43200000.

Lemma day_loop_enough z fuel cursor end_ : calm z → end_ - cursor < Z.of_nat fuel * 43200000 → is_Some (day_loop z fuel cursor end_).
Proof.
  intros Hz. revert cursor. induction fuel as [|fuel IH]; intros cursor H; cbn; destruct (Z.leb_spec cursor end_); [lia|by eauto| |by eauto].
  rewrite setDate_days. specialize (Hz cursor (LocalTime z cursor + 1 * msPerDay)). unfold msPerDay in *.
  destruct (IH (UTC z (LocalTime z cursor + 1 * 86400000))) as [rest ->]; [lia|]. cbn. eauto.
Qed.

(** The list of days ends, for any period. *)
Theorem analytics_end z start end_ : calm z → is_Some (generateAnalytics z start end_).
Proof.
  intros Hz. unfold generateAnalytics. destruct (day_loop_enough z (day_fuel start end_) start end_ Hz) as [days ->]; [|cbn; eauto].
  unfold day_fuel. destruct (Z.le_gt_cases start end_); [|lia].
  pose proof (Z.div_mod (end_ - start) 43200000). pose proof (Z.mod_pos_bound (end_ - start) 43200000).
  pose proof (Z.div_pos (end_ - start) 43200000). lia.
Qed.

Lemma iso_date_number d : str_all number_char (iso_date d) = true.
Proof.
  pose proof (month_date_bounds d) as [Hm Hd]. unfold iso_date, iso_year, two. rewrite !str_all_app, !digits_padded_number by lia.
  destruct ((0 <=? YearFromDay d) && (YearFromDay d <=? 9999)) eqn:E; [apply andb_true_iff in E as [E _]; apply Z.leb_le in E; by rewrite digits_padded_number|].
  rewrite str_all_app, digits_padded_number by lia. by case_match.
Qed.

Lemma iso_date_head t : head (split_on "T" (toISOString t)) = Some (iso_date (Day t)).
Proof.
  unfold toISOString. cbv zeta. lazymatch goal with |- context [?a +:+ ("T" +:+ ?r)] => change (a +:+ ("T" +:+ r)) with (a +:+ String "T" r) end.
  rewrite split_on_join; [done|]. generalize (iso_date_number (Day t)). apply str_all_impl. intros c. by destruct c as [[] [] [] [] [] [] [] []].
Qed.

Lemma utc_next cursor : setDate utc_zone (getDate utc_zone cursor + 1) cursor = cursor + msPerDay.
Proof. rewrite setDate_days. cbn [LocalTime UTC utc_zone]. lia. Qed.

Lemma utc_loop n fuel cursor end_ : (end_ - cursor) / msPerDay = Z.of_nat n → (n < fuel)%nat →
  ∃ days, day_loop utc_zone fuel cursor end_ = Some days ∧ d_date <$> days = (λ i, iso_date (Day cursor + Z.of_nat i)) <$> seq 0 (S n).
Proof.
  revert fuel cursor. induction n as [|n IH]; intros [|fuel] cursor Hn Hf; try lia; cbn [day_loop]; unfold msPerDay in *;
    pose proof (Z.div_mod (end_ - cursor) 86400000) as Hdm; pose proof (Z.mod_pos_bound (end_ - cursor) 86400000) as Hmp;
    (destruct (Z.leb_spec cursor end_); [|lia]); rewrite utc_next, iso_date_head; unfold msPerDay.
  - assert (day_loop utc_zone fuel (cursor + 86400000) end_ = Some []) as ->.
    { destruct fuel; cbn; by destruct (Z.leb_spec (cursor + 86400000) end_); [lia|]. }
    eexists. split; [reflexivity|]. cbn. by rewrite Z.add_0_r.
  - destruct (IH fuel (cursor + 86400000)) as (days & -> & Hd); [|lia|].
    { replace (end_ - (cursor + 86400000)) with (end_ - cursor + (-1) * 86400000) by lia. rewrite Z.div_add by lia. lia. }
    eexists. split; [reflexivity|]. rewrite fmap_cons, Hd. change (seq 0 (S (S n))) with (0%nat :: seq 1 (S n)).
    rewrite <- fmap_S_seq, fmap_cons, <- list_fmap_compose, Z.add_0_r. f_equal.
    apply list_fmap_ext. intros i j _. cbn. unfold Day, msPerDay. replace (cursor + 86400000) with (cursor + 1 * 86400000) by lia.
    rewrite Z.div_add by lia. f_equal. lia.
Qed.

(** In UTC the days of the period are listed, each once and in order. *)
Theorem utc_days start end_ : start <= end_ → ∃ data, generateAnalytics utc_zone start end_ = Some data ∧
  d_date <$> dailyVolume data = (λ i, iso_date (Day start + Z.of_nat i)) <$> seq 0 (S (Z.to_nat ((end_ - start) / msPerDay))).
Proof.
  intros H. pose proof (Z.div_pos (end_ - start) msPerDay ltac:(lia) ltac:(done)) as Hp.
  destruct (utc_loop (Z.to_nat ((end_ - start) / msPerDay)) (day_fuel start end_) start end_) as (days & E & Hd).
  - by rewrite Z2Nat.id.
  - unfold day_fuel, msPerDay in *. pose proof (Z.div_le_compat_l (end_ - start) 43200000 86400000). lia.
  - unfold generateAnalytics. rewrite E. eexists. by split.
Qed.

Lemma utc_days_witness : ∃ data, generateAnalytics utc_zone 1709164800000 1709337600000 = Some data ∧
  d_date <$> dailyVolume data = ["2024-02-29"; "2024-03-01"; "2024-03-02"].
Proof.
  destruct (utc_days 1709164800000 1709337600000 ltac:(done)) as (data & E & H). exists data. split; [exact E|]. rewrite H. vm_compute. reflexivity.
Defined.

(** A zone that goes from UTC to an hour ahead of it, as Britain does at the end of March 2024. *)
Definition london : Zone :=
  MkZone (λ t, if t <? 1711846800000 then t else t + 3600000) (λ l, if l <? 1711846800000 then l else l - 3600000).

(** The day of the change is listed twice when the period starts in the first hour of a day. *)
Example day_listed_twice : (λ d, d_date <$> dailyVolume d) <$> generateAnalytics london 1711758600000 1711931400000 =
  Some ["2024-03-30"; "2024-03-31"; "2024-03-31"].
Proof. vm_compute. reflexivity. Qed.

(** ** Unusual payments *)

Lemma spike_ids pow amounts i tx a : a ∈ spike pow amounts i tx → id a = "anomaly_" +:+ pretty i.
Proof. unfold spike. case_match; [|by intros ?%elem_of_nil]. by intros ->%list_elem_of_singleton. Qed.

Lemma pretty_nat_digits (i : nat) : str_all is_digit (pretty i) = true.
Proof. assert (pretty i = pretty (Z.of_nat i)) as -> by by destruct i. apply pretty_all_digits. lia. Qed.

(** The anomalies of one report have different ids. *)
Theorem anomaly_ids_distinct z pow now txs : NoDup (id <$> detectAnomalies z pow now txs).
Proof.
  unfold detectAnomalies. set (amounts := amount <$> txs).
  assert (∀ k l, NoDup (id <$> mjoin (imap (λ i, spike pow amounts (k + i)) l)) ∧
    ∀ a, a ∈ mjoin (imap (λ i, spike pow amounts (k + i)) l) → ∃ i, (k <= i)%nat ∧ id a = "anomaly_" +:+ pretty i) as H.
  { intros k l. revert k. induction l as [|tx l IH]; intros k; [by split; [constructor|intros ? ?%elem_of_nil]|].
    cbn [imap]. change (mjoin (?x :: ?r)) with (x ++ mjoin r).
    assert (imap ((λ i, spike pow amounts (k + i)) ∘ S) l = imap (λ i, spike pow amounts (S k + i)) l) as ->.
    { apply imap_ext. intros i y _. cbn. by rewrite Nat.add_succ_r. }
    destruct (IH (S k)) as [Hnd Hid]. rewrite Nat.add_0_r. split.
    - rewrite fmap_app. apply NoDup_app. split; [unfold spike; case_match; [apply NoDup_singleton|constructor]|]. split; [|done].
      intros x (a & -> & Ha)%list_elem_of_fmap (b & E & Hb)%list_elem_of_fmap. rewrite (spike_ids pow amounts k tx a Ha) in E.
      destruct (Hid b Hb) as (i & Hi & Ei). rewrite Ei in E. apply (inj (String.append _)) in E. apply (inj pretty) in E. lia.
    - intros a [Ha|Ha]%elem_of_app; [exists k; split; [done|by eapply spike_ids]|]. destruct (Hid a Ha) as (i & Hi & E). exists i. split; [lia|done]. }
  destruct (H 0%nat txs) as [Hnd Hid]. rewrite fmap_app. apply NoDup_app. split; [exact Hnd|]. split.
  - intros x (a & -> & Ha)%list_elem_of_fmap. destruct (Hid a Ha) as (i & _ & ->). destruct (0 <? _)%nat; [|by intros ?%elem_of_nil].
    cbn. intros E%list_elem_of_singleton. apply (inj (String.append "anomaly_")) in E.
    pose proof (pretty_nat_digits i) as Hd. by rewrite E in Hd.
  - destruct (0 <? _)%nat; [apply NoDup_singleton|constructor].
Qed.

(** ** The trend *)

Lemma slice_short {A} n (l : list A) : (length l <= n)%nat → slice_last n l = l.
Proof. intros H. unfold slice_last. by replace (length l - n)%nat with 0%nat by lia. Qed.

(** Below twenty prices the last price stands for the long average: a price above the average of the last five is
    called falling, one below it rising. *)
Theorem few_prices_inverted prices p : (5 <= length prices < 20)%nat → last prices = Some p →
  let avg := ndiv (sum_of (slice_last 5 prices)) (of_Z 5) in
  trend (predictPrice prices) = if SFltb p avg then bullish else if SFltb avg p then bearish else neutral.
Proof.
  intros H Hp avg. unfold predictPrice. cbn [trend]. rewrite (slice_short 20) by lia. unfold calculateMA.
  rewrite slice_last_length. rewrite (proj2 (Nat.ltb_ge _ _)) by lia. rewrite (proj2 (Nat.ltb_lt _ 20)) by lia. rewrite Hp.
  rewrite (slice_short 5 (slice_last 5 prices)) by (rewrite slice_last_length; lia). reflexivity.
Qed.

Lemma few_prices_inverted_witness : trend (predictPrice (of_Z <$> [1; 2; 3; 4; 5])) = bearish.
Proof. rewrite (few_prices_inverted (of_Z <$> [1; 2; 3; 4; 5]) (of_Z 5)); [vm_compute; reflexivity|cbn; lia|reflexivity]. Defined.

(** Fewer than five have no trend. *)
Theorem five_prices_needed prices : (length prices < 5)%nat → trend (predictPrice prices) = neutral.
Proof.
  intros H. unfold predictPrice. cbn [trend]. rewrite !slice_short by lia. unfold calculateMA.
  rewrite !(proj2 (Nat.ltb_lt _ _)) by lia. destruct (last prices) as [p|]; [|done]. cbn. by destruct (SFltb p p) eqn:E; [rewrite (nltb_asym _ _ E) in E|].
Qed.

(** No other allocation is ever recommended. *)
Theorem recommends_what_is_held holdings :
  recommendedAllocation (optimizePortfolio holdings) = currentAllocation (optimizePortfolio holdings).
Proof. unfold optimizePortfolio. by case_match. Qed.

(** Words inside words count. *)
Example parents_pay_rent : categorizeTransaction "Gift for my parents" (of_Z 20) = "Housing" ∧
  categorizeTransaction "Las Vegas trip" (of_Z 5000) = "Transportation" ∧ categorizeTransaction "Car" (of_Z 5000) = "Large Transfer".
Proof. vm_compute. done. Qed.

(** ** Metadata *)

Lemma endsWith_slash b : endsWith "/" (b +:+ "/") = true.
Proof. induction b as [|c b IH]; [done|]. change (endsWith "/" (String c (b +:+ "/")) = true). cbn [endsWith]. rewrite IH. by rewrite orb_true_r. Qed.

(** The gateway ends in a slash whatever is configured. *)
Theorem gateway_slash env : endsWith "/" (getGatewayBase env) = true.
Proof. unfold getGatewayBase. cbv zeta. generalize (match env with Some u => if str_eqb u "" then "https://ipfs.io/ipfs/" else u | None => "https://ipfs.io/ipfs/" end) as b. intros b. destruct (endsWith "/" b) eqn:E; [exact E|apply endsWith_slash]. Qed.

(** Resolving twice is resolving once. *)
Theorem resolve_idempotent u : resolveIPFSUrl (resolveIPFSUrl u) = resolveIPFSUrl u.
Proof. unfold resolveIPFSUrl. destruct (startsWith "ipfs://" u) eqn:E; [done|by rewrite E]. Qed.

(** Links ignore the gateway that is configured. *)
Example link_of_another_gateway : resolveIPFSUrl "ipfs://Qm" = "https://ipfs.io/ipfs/Qm" ∧ getGatewayBase (Some "https://g") +:+ "Qm" = "https://g/Qm".
Proof. done. Qed.

Example media_by_extension : getMediaType "a.PNG" = image ∧ getMediaType "a.png?size=2" = unknown_media ∧ getMediaType "mp4" = video.
Proof. done. Qed.
